(* ===== verification/_CoqProject ===== *)
-Q . S2P
Prelude.v
Sqlite.v
PyText.v
Regex.v
Clock.v
Sha256.v
Base64.v
Json.v
JsonParse.v
PyJson.v
Redaction.v
Langfuse.v
Protocol.v
InferenceModels.v
Contracts.v
Checkpoints.v
AgentRuns.v
AgentLedger.v
AgentEvents.v
AgentService.v
Cipher.v
InferenceStore.v
InferenceService.v
InferencePreferences.v
InferenceCodex.v
Notifications.v
Journal.v
Jobs.v
Idempotency.v
HostConfig.v
Vault.v
Capabilities.v
Credentials.v
Drafts.v
Intake.v
IntakeRuns.v
Revisions.v
SpecModels.v
Specs.v
Schedules.v
Seed.v
Executions.v
Dispatch.v
