(* ===== verification/Prelude.v ===== *)
(** * OpenTulpa: verification development

    OpenTulpa is a self-evolving agent: a stable host controller runs a mutable
    child release, and everything that must survive a crash, a restart or a bad
    release lives in SQLite stores behind small services. This development
    models those stores and services, written as the source writes them, and
    proves what makes them safe to rely on.

    ** How the code is modelled

    - A store is a record of tables, a table the list of its rows in [rowid]
      order, a row a record with the columns ([Sqlite]). Statements are
      [select], [select_one], [update], [delete_rows] and [insert_row] under
      the table's uniqueness constraint; [ORDER BY] is a stable sort.
    - A method is a computation [M S A := S -> S * outcome A] (this file): it
      takes the store and returns the store with a value or the Python
      exception it raised. [BEGIN IMMEDIATE .. COMMIT] is [transaction]: an
      exception inside leaves the store as it was. Calls of one process on a
      database are serialized by SQLite's write lock, so a concurrent history is
      a sequence of transactions; every theorem about histories quantifies over
      all sequences of calls with arbitrary arguments and results.
    - Texts are Coq strings whose characters are the code points below 256;
      [strip], [lower], [casefold], [repr], [json.dumps], [json.loads],
      [isoformat], [fromisoformat], UTF-8, base64, SHA-256 and the patterns of
      [re] are executable definitions ([PyText], [Json], [JsonParse], [Clock],
      [Base64], [Sha256], [Regex]), so witnesses compute the very digests the
      code stores. Nothing assumes SHA-256 injective: theorems compare digests
      where the code does; [saved_schedule_reads] assumes of two contents, the
      one a save writes and the active one, that their digests tell them apart.
      Dictionaries are compared as Python compares them ([PyJson.same_dict]:
      [True] equals [1], the order of members does not matter).
    - Python integers are [Z]; instants are [Z] (microseconds), drawn by the
      caller. Random values ([new_short_id], [secrets.token_urlsafe], AES-GCM
      nonces) are arguments of the calls that draw them.
    - Third-party code is a parameter: AESGCM (an interface with its laws), time
      zones, cron syntax and JSON value cleaning of Pydantic (class [SpecEnv]),
      the scheduler's job table (class [JobTable] with its laws), the provider
      an effect calls, the delivery callback of the dispatcher, the constructor
      callbacks. The graph of an agent run is the list of the parts it streams
      and how it ends, with the addition of message chunks and the diagnosis of
      an exception as arguments; a model provider is what it answers.
    - An asyncio task is a computation whose accesses to the shared ledger come
      with a schedule: before each, anything the other tasks may do
      ([AgentService]), or with an argument for each [await] on the network
      ([InferenceService]).
    - A handler that makes several store calls is modelled call by call, each a
      transaction of its own; histories interleave whole handlers, and where
      the fencing of a store matters its theorems quantify over histories of
      single transactions (leases, generations, claims).

    ** Files

    - [Prelude]: exceptions, the monad, invariants of computations, the [run]
      rewriting tactics, record update.
    - [Sqlite], [PyText], [Regex], [Clock], [Sha256], [Base64], [Json],
      [JsonParse], [PyJson]: tables and the parts of Python's library the code
      uses, with the facts the components rely on: the matcher of patterns is
      sound and complete for its relation, texts of instants and of JSON values
      are read back.
    - [Protocol]: the identifiers, references and contexts of specs/protocol.py.
    - [Langfuse]: [redact_for_langfuse] of logging/langfuse.py, what may be
      published of a text or a value.
    - [InferenceModels], [Contracts]: inference/models.py and
      deep_agent/contracts.py.
    - [Checkpoints]: the tenant label of persistence/tenant_namespace.py, the
      checkpoint identity and the request digest of deep_agent/service.py.
    - [AgentRuns], [AgentLedger]: the ledger of runs of deep_agent/service.py:
      runs, their event logs, approvals and threads; every statement that
      writes them and the theorems over their histories.
    - [AgentEvents]: what an agent run publishes: the events of a message, the
      approvals of an interrupt, the failures.
    - [AgentService]: the tasks over the ledger: [_stream_graph],
      [_run_prepared], [_resume_claimed_run], [_recover_pending_resume],
      [open_resume].
    - [Cipher]: the interface of secrets/cipher.py and its AES-GCM instance.
    - [InferenceStore], [InferenceService], [InferencePreferences]:
      inference/store.py, inference/service.py, and the owner's preference in
      deep_agent/service.py with the request of api/routes/v2_inference.py that
      disconnects the account.
    - [InferenceCodex]: inference/codex.py: the repair of an interrupted
      history, the retries of a stream, which errors are transient, the renewal
      of a token.
    - [Notifications]: notifications/models.py, store.py and service.py: the
      owner's notifications and the acknowledgements of each consumer, with the
      inbox (a log and a set) that the store implements.
    - [Journal]: [_ActivationJournal] of host/evolution.py, the activation
      journal of releases: [begin], [complete_success], [complete_failure],
      [recovery_candidate], [complete_recovery], notifications.
    - [Jobs]: [JobStore] of jobs/store.py and jobs/models.py, the job state
      machine with its event log and artifacts.
    - [Idempotency]: [IdempotencyStore] of persistence/idempotency.py, claims,
      outcomes, reconciliation and [execute] around a provider call.
    - [HostConfig]: [HostStore] of host/store.py with host/models.py, ownership
      of the host and its encrypted, revisioned configuration.
    - [Redaction], [Vault]: text and payload redaction; [SecretVault] of
      secrets/vault.py with its handles, revisions and one-time grants, and
      secrets/service.py.
    - [Capabilities]: [CapabilityRevisionStore] of capabilities/revisions.py,
      manifests, activations with generations, test results.
    - [Credentials]: the API tokens of capability workers and the service that
      issues them (capabilities/credentials.py).
    - [Drafts]: [IntakeDraftStore] of intake/drafts/store.py and its models.
    - [Intake]: the workflow table of intake/store.py, the transaction over both
      databases of intake/activation.py, and [IntakeDraftService] of
      intake/drafts/service.py.
    - [IntakeRuns]: the conversation side of intake/store.py: bookings, cursors,
      pending runs, reply deliveries.
    - [Revisions]: the append-only revision machine both stores of
      specs/store.py are, over the class [SpecContent] of its contents.
    - [SpecModels]: the agent and trigger contracts of specs/models.py with
      their validation, as contents.
    - [Specs], [Seed]: [AgentSpecStore], [TriggerSpecStore], their services
      (specs/service.py) and the default agents (specs/defaults.py).
    - [Schedules]: schedules/models.py and schedules/service.py: the owner's
      schedules, kept as triggers.
    - [Executions]: [TriggerExecutionStore] of specs/dispatcher.py: the lease of
      a firing, its result, the outbox.
    - [Dispatch]: [TriggerDispatcher] of specs/dispatcher.py: events, scheduled
      firings, the drain of the outbox, the scheduler's jobs.

    ** How the parts interact

    The host controller registers releases and activations in the journal; the
    child runs jobs, calls providers through the idempotency store, serves
    intake workflows that are activated from drafts, and runs agents named by
    exact revisions that triggers bind. [Intake.activate_draft] composes the
    draft store and the workflow table in one transaction; [Specs.spec_state]
    pairs the agent and trigger databases, [Specs.validate_target] reads one to
    write the other; the revision machine is proved once against [SpecContent]
    and instantiated for both contents. [Schedules] writes a schedule as a
    revision of a trigger and reads it back from the active one. [Dispatch.dispatcher] puts that pair,
    the execution store and the scheduler together: [Dispatch.execute] reads a
    trigger and its agent, claims the firing, calls the agent service and stores
    the result with its delivery. The agent service writes the ledger
    ([AgentRuns]) through its tasks ([AgentService]), which publish through
    [Langfuse] and name the graph's state by [Checkpoints]; a run carries the
    plan [InferencePreferences] resolved for its owner, whose selections
    [InferenceService] validates against the account [InferenceStore] seals with
    [Cipher], and [InferenceCodex] renews that account's tokens. [Credentials] reads the manifest of a
    capability and the active agent revision to bind a token; [Vault] seals
    values through [Cipher] and feeds them to [Redaction].

    ** What the theorems show

    - Invariants over all histories: [journal_invariant], [jobs_invariant] (the
      row of a job is the replay of its event log), [run_ledger_invariant] (a
      run's log is numbered without gaps and closes with its status),
      [credential_epochs], [cached_models_current], [host_invariant],
      [drafts_invariant], [specs_invariant], [credentials_confined],
      [manifests_archived], [one_telegram_workflow].
    - Who may do what: [owner_is_final], [external_triggers_contained],
      [sent_requests_authorized] (every request to the agent service is one the
      specs authorize), [event_needs_its_trigger],
      [interface_credential_granted], [token_valid_until_revoked],
      [revocation_final], [grant_redeemed_once], [redaction_complete],
      [confirmation_round_trip] (a token activates exactly the proposal it was
      issued for).
    - What leaves the service: [redaction_published], [redact_published],
      [checkpoint_isolated] (two runs share a checkpoint only under the same
      authority), [disconnected_uses_api], [history_repaired] (every call of a
      repaired history has its output behind it, when no call id is used twice),
      [stream_shows_one_attempt].
    - At most once: [run_submitted_once], [events_replayed_once],
      [approval_decided_once], [effect_at_most_once], [event_run_once], [lease_fences],
      [firing_settled_once], [delivered_once], [one_run_per_conversation],
      [claim_exclusive], [generation_fences], [activation_reserved],
      [one_off_disabled], [published_once].
    - Nothing is lost or rewritten: [settled_job_frozen], [revisions_immutable],
      [settled_run_final], [save_compare_and_swap],
      [preference_compare_and_swap], [refresh_rotates],
      [saved_credential_loads], [queued_message_kept], [drain_until_delivered],
      [stored_value_resolves], [stage_round_trip], [saved_schedule_reads],
      [deleted_schedule_final].
    - Refinement: [listed_until_acknowledged] (the notification store answers
      every history of requests as the inbox does).
    - Atomicity, recovery, termination: [activation_atomic], [complete_atomic],
      [recover_restores], [recovery_switches_once], [drain_terminates],
      [run_task_settles] (whatever happens meanwhile, a run's task ends with the
      run settled, waiting or resumable, or, in a shutdown, running and failed by
      the next start), [restart_settles_running], [changed_capability_fails].
    - Functional behaviour: [stream_completes], [cancel_settles],
      [resumed_when_decided], [device_login_outcome], [token_renewal],
      [transient_by_chain], [complete_success_advances], [rollback_goes_back],
      [sync_exact], [fire_keys_identify], [listings_exact], [events_page],
      [seeding_idempotent], [execute_replays], [deactivation_two_phase].

    ** Fuel

    The block loops of SHA-256 get the number of blocks of the padded message.
    The loop of a starred pattern gets the length of the text, since an
    iteration consumes a character; [json_loads] twice that of its text, two
    calls for each character. [Dispatch.drain_loop] gets one round more than the outbox has rows:
    [drain_terminates] proves it never runs out, because a round that does not
    stop the loop delivers everything it claimed, and a delivered row is never
    claimable again. [InferenceCodex.is_transient] gets one round more than
    there are exceptions, since the code visits none twice: [transient_by_chain]
    says what it answers without the fuel. [Notifications.wait] is given its polls.

    ** Not modelled

    Processes, containers, HTTP, git and the language model (host/runtime.py,
    the asynchronous part of host/evolution.py, the capability supervisor and
    workers, the interfaces): their logic is I/O against services the source
    does not define. Of deep_agent/service.py: the building of graphs, models
    and backends, attachments, the listings of threads and traces. The asyncio
    tasks of the dispatcher (one round of its drain loop is modelled). The import
    of older schedules ([migrate_legacy_routines]), the sinks that render
    notifications, the service of jobs, the ingress of pasted secrets. Schema
    migrations of existing files; SQLite's own locking; the decoding of plain
    [*_json] columns (a column holds the value it encodes; the sealed ones of
    [InferenceStore] are decoded); floating-point numbers; characters beyond
    code point 255. In intake/service.py: the normalization of a workflow's sources and
    sinks, a parameter of [Intake]. *)

From Stdlib Require Export ZArith Lia Ascii String.
From stdpp Require Export base tactics list strings option gmap sorting.

#[global] Open Scope Z_scope.

(** ** Record update

    [r <| f := v |>] is [r] with the field [f] replaced; [etas mk f1 .. fn]
    instances rebuild a record field by field, and the instance search below
    finds the field inside that expansion. *)

Class Fields (R : Type) := rebuild : R → R.
Class FieldUpdate {R T : Type} (proj : R → T) := modify_field : (T → T) → R → R.

Ltac solve_field_update :=
  lazymatch goal with
  | |- @FieldUpdate ?R ?T ?proj =>
      let body := eval unfold rebuild in (rebuild (R := R)) in
      let body := eval hnf in body in
      lazymatch eval pattern proj in body with
      | ?k _ => exact (λ (g : T → T) (r : R), k (λ r' : R, g (proj r')) r)
      end
  end.
#[global] Hint Extern 1 (FieldUpdate _) => solve_field_update : typeclass_instances.

Declare Scope tulpa_scope.
Delimit Scope tulpa_scope with tulpa.
#[global] Open Scope tulpa_scope.

#[warnings="-postfix-notation-not-level-1"]
Notation "r <| f := v |>" := (modify_field (proj := f) (λ _, v) r)
  (at level 12, left associativity, f constr at level 10) : tulpa_scope.
Notation "x == y" := (bool_decide (x = y)) (at level 70) : tulpa_scope.

(** ** Exceptions

    One constructor per exception class the modelled code raises or handles;
    the argument is the message (or the key, for the [KeyError] subclasses). *)

Inductive exn : Type :=
  | ValueError (message : string)
  | ValidationError (message : string)
  | TypeError (message : string)
  | RuntimeError (message : string)
  | LookupError (message : string)
  | KeyError (message : string)
  | PermissionError (message : string)
  | IntegrityError (message : string)
  | AssertionError
  | TimeoutError
  | CancelledError
  | OtherException (cls : string) (message : string)
  | JobNotFoundError (id : string)
  | JobIdempotencyConflictError (message : string)
  | JobValidationError (message : string)
  | JobHandlerNotFoundError (message : string)
  | IdempotencyConflictError (message : string)
  | IdempotencyPendingError (message : string)
  | SourceEvolutionError (message : string)
  | HostConfigError (message : string)
  | HostConfigConflictError (message : string)
  | IntakeDraftConflictError (message : string)
  | IntakeDraftConfirmationError (message : string)
  | IntakeDraftNotFoundError (id : string)
  | IntakeDraftValidationError (message : string)
  | IntakeDraftActivationError (message : string)
  | AgentRunIdempotencyConflictError (message : string)
  | AgentRunCheckpointConflictError (message : string)
  | AgentRunCapabilityConflictError (message : string)
  | SpecConflictError (message : string)
  | SpecNotFoundError (id : string)
  | ScheduleConflictError (message : string)
  | ScheduleNotFoundError (id : string)
  | SecretGrantError (message : string)
  | SecretVaultConflictError (message : string)
  | SecretVaultNotFoundError (id : string)
  | CapabilityRevisionConflictError (message : string)
  | CapabilityRevisionNotFoundError (message : string)
  | CapabilityRevisionCorruptionError (message : string).

#[global] Instance exn_eq_dec : EqDecision exn.
Proof. solve_decision. Defined.

(** ** State and errors

    A computation takes the store and returns the store together with a value
    or the exception it raised. *)

Inductive outcome (A : Type) : Type :=
  | Ok (a : A)
  | Err (e : exn).
Arguments Ok {A} a.
Arguments Err {A} e.

#[global] Instance outcome_eq_dec `{EqDecision A} : EqDecision (outcome A).
Proof. solve_decision. Defined.

#[global] Instance outcome_mret : MRet outcome := λ A a, Ok a.
#[global] Instance outcome_mbind : MBind outcome := λ A B k o,
  match o with Ok a => k a | Err e => Err e end.

(** The values of a list of outcomes, or the first error. *)
Fixpoint all_ok {A} (l : list (outcome A)) : outcome (list A) :=
  match l with
  | [] => Ok []
  | Ok a :: l' => match all_ok l' with Ok l'' => Ok (a :: l'') | Err e => Err e end
  | Err e :: _ => Err e
  end.

Definition M (S A : Type) : Type := S → S * outcome A.

#[global] Instance M_ret {S} : MRet (M S) := λ A a s, (s, Ok a).
#[global] Instance M_bind {S} : MBind (M S) := λ A B k m s,
  match m s with
  | (s', Ok a) => k a s'
  | (s', Err e) => (s', Err e)
  end.
#[global] Instance M_fmap {S} : FMap (M S) := λ A B f m s,
  match m s with
  | (s', Ok a) => (s', Ok (f a))
  | (s', Err e) => (s', Err e)
  end.

Section Monad.
Context {S : Type}.

Definition raise {A} (e : exn) : M S A := λ s, (s, Err e).
Definition gets {A} (f : S → A) : M S A := λ s, (s, Ok (f s)).
Definition modify (f : S → S) : M S unit := λ s, (f s, Ok tt).
Definition from_outcome {A} (o : outcome A) : M S A := λ s, (s, o).
Definition unless (b : bool) (e : exn) : M S unit :=
  if b then mret tt else raise e.

(** A statement that a constraint may refuse with the exception [e]. *)
Definition try_modify (f : S → option S) (e : exn) : M S unit := λ s,
  match f s with Some s' => (s', Ok tt) | None => (s, Err e) end.

(** [BEGIN IMMEDIATE .. COMMIT]: an exception inside rolls the store back. *)
Definition transaction {A} (m : M S A) : M S A := λ s,
  match m s with
  | (s', Ok a) => (s', Ok a)
  | (_, Err e) => (s, Err e)
  end.

(** [try: m except ..]: the handler sees the exception, [None] re-raises. *)
Definition try_except {A} (m : M S A) (h : exn → option (M S A)) : M S A := λ s,
  match m s with
  | (s', Ok a) => (s', Ok a)
  | (s', Err e) =>
      match h e with
      | Some m' => m' s'
      | None => (s', Err e)
      end
  end.

Fixpoint for_each {A} (l : list A) (body : A → M S unit) : M S unit :=
  match l with
  | [] => mret tt
  | x :: l' => body x ;; for_each l' body
  end.

Fixpoint collect {A B} (l : list A) (body : A → M S B) : M S (list B) :=
  match l with
  | [] => mret []
  | x :: l' => y ← body x; ys ← collect l' body; mret (y :: ys)
  end.

(** Running inside a component of a larger store. *)
Definition zoom {T A} (get : T → S) (put : S → T → T) (m : M S A) : M T A := λ t,
  match m (get t) with
  | (s', r) => (put s' t, r)
  end.
End Monad.

(** ** Invariants of computations *)

Definition preserves {S A} (I : S → Prop) (m : M S A) : Prop :=
  ∀ s, I s → I (m s).1.

Section Preserves.
Context {S : Type} (I : S → Prop).

Lemma preserves_ret {A} (a : A) : preserves I (mret (M := M S) a).
Proof. intros s Hs; exact Hs. Qed.

Lemma preserves_raise {A} (e : exn) : preserves I (raise (S := S) (A := A) e).
Proof. intros s Hs; exact Hs. Qed.

Lemma preserves_gets {A} (f : S → A) : preserves I (gets f).
Proof. intros s Hs; exact Hs. Qed.

Lemma preserves_from_outcome {A} (o : outcome A) :
  preserves I (from_outcome (S := S) o).
Proof. intros s Hs; exact Hs. Qed.

Lemma preserves_unless b e : preserves I (unless (S := S) b e).
Proof. destruct b; intros s Hs; exact Hs. Qed.

Lemma preserves_modify f : (∀ s, I s → I (f s)) → preserves I (modify f).
Proof. intros H s; apply H. Qed.

Lemma preserves_try_modify f e :
  (∀ s s', I s → f s = Some s' → I s') → preserves I (try_modify f e).
Proof. intros H s Hs. unfold try_modify. destruct (f s) eqn:E; simpl; eauto. Qed.

Lemma preserves_bind {A B} (m : M S A) (k : A → M S B) :
  preserves I m → (∀ a, preserves I (k a)) → preserves I (m ≫= k).
Proof.
  intros Hm Hk s Hs. specialize (Hm s Hs). unfold mbind, M_bind.
  destruct (m s) as [s' [a|e]]; [by apply Hk | done].
Qed.

Lemma preserves_fmap {A B} (f : A → B) (m : M S A) :
  preserves I m → preserves I (f <$> m).
Proof.
  intros Hm s Hs. specialize (Hm s Hs). unfold fmap, M_fmap.
  by destruct (m s) as [s' [a|e]].
Qed.

Lemma preserves_transaction {A} (m : M S A) :
  preserves I m → preserves I (transaction m).
Proof.
  intros Hm s Hs. specialize (Hm s Hs). unfold transaction.
  by destruct (m s) as [s' [a|e]].
Qed.

Lemma preserves_try_except {A} (m : M S A) h :
  preserves I m → (∀ e m', h e = Some m' → preserves I m') →
  preserves I (try_except m h).
Proof.
  intros Hm Hh s Hs. specialize (Hm s Hs). unfold try_except.
  destruct (m s) as [s' [a|e]]; [done|].
  destruct (h e) eqn:He; [|done]. eapply Hh; eauto.
Qed.

Lemma preserves_for_each {A} (l : list A) body :
  (∀ x, x ∈ l → preserves I (body x)) → preserves I (for_each l body).
Proof.
  induction l as [|x l IH]; intros Hb; [apply preserves_ret|].
  apply preserves_bind; [apply Hb; set_solver|].
  intros _. apply IH. set_solver.
Qed.

Lemma preserves_collect {A B} (l : list A) (body : A → M S B) :
  (∀ x, x ∈ l → preserves I (body x)) → preserves I (collect l body).
Proof.
  induction l as [|x l IH]; intros Hb; [apply preserves_ret|].
  apply preserves_bind; [apply Hb; set_solver|].
  intros y. apply preserves_bind; [apply IH; set_solver|].
  intros ys. apply preserves_ret.
Qed.
End Preserves.

(** A failed transaction leaves the store as it was. *)
Lemma transaction_rollback {S A} (m : M S A) s s' e :
  transaction m s = (s', Err e) → s' = s.
Proof. unfold transaction. by destruct (m s) as [? [?|?]]; intros [= -> ->]. Qed.

Create HintDb tulpa.
#[export] Hint Resolve preserves_ret preserves_raise preserves_gets
  preserves_from_outcome preserves_unless preserves_transaction
  preserves_bind preserves_fmap : tulpa.

(** ** Running computations symbolically *)

Section Run.
Context {S A B : Type}.
Implicit Types (s : S) (k : A → M S B).

Lemma run_ret_bind (a : A) k s : (mret a ≫= k) s = k a s.
Proof. done. Qed.
Lemma run_gets_bind (f : S → A) k s : (gets f ≫= k) s = k (f s) s.
Proof. done. Qed.
Lemma run_raise_bind e k s : (raise e ≫= k) s = (s, Err e).
Proof. done. Qed.
Lemma run_outcome_bind (o : outcome A) k s :
  (from_outcome o ≫= k) s =
    match o with Ok a => k a s | Err e => (s, Err e) end.
Proof. by destruct o. Qed.
Lemma run_modify_bind (f : S → S) (k : unit → M S B) s :
  (modify f ≫= k) s = k tt (f s).
Proof. done. Qed.
Lemma run_try_modify_bind f e (k : unit → M S B) s :
  (try_modify f e ≫= k) s =
    match f s with Some s' => k tt s' | None => (s, Err e) end.
Proof. unfold mbind, M_bind, try_modify. by destruct (f s). Qed.
Lemma run_try_modify f e s :
  try_modify f e s =
    match f s with Some s' => (s', Ok tt) | None => (s, Err e) end.
Proof. done. Qed.
Lemma run_unless_bind b e (k : unit → M S B) s :
  (unless b e ≫= k) s = if b then k tt s else (s, Err e).
Proof. by destruct b. Qed.
Lemma run_bind (m : M S A) k s :
  (m ≫= k) s =
    match m s with (s', Ok a) => k a s' | (s', Err e) => (s', Err e) end.
Proof. done. Qed.
Lemma run_bind_ok (m : M S A) k s s' a : m s = (s', Ok a) → (m ≫= k) s = k a s'.
Proof. intros H. unfold mbind, M_bind. by rewrite H. Qed.
Lemma run_bind_err (m : M S A) k s s' e :
  m s = (s', Err e) → (m ≫= k) s = (s', Err e).
Proof. intros H. unfold mbind, M_bind. by rewrite H. Qed.
Lemma run_transaction (m : M S A) s :
  transaction m s =
    match m s with (s', Ok a) => (s', Ok a) | (_, Err e) => (s, Err e) end.
Proof. done. Qed.
Lemma run_try_except (m : M S A) h s :
  try_except m h s =
    match m s with
    | (s', Ok a) => (s', Ok a)
    | (s', Err e) => match h e with Some m' => m' s' | None => (s', Err e) end
    end.
Proof. done. Qed.
Lemma run_fmap (m : M S A) (f : A → B) s :
  (f <$> m) s =
    match m s with (s', Ok a) => (s', Ok (f a)) | (s', Err e) => (s', Err e) end.
Proof. done. Qed.
Lemma run_ret (a : A) s : mret (M := M S) a s = (s, Ok a).
Proof. done. Qed.
Lemma run_gets (f : S → A) s : gets f s = (s, Ok (f s)).
Proof. done. Qed.
Lemma run_raise e s : raise (A := A) e s = (s, Err e).
Proof. done. Qed.
Lemma run_modify (f : S → S) s : modify f s = (f s, Ok tt).
Proof. done. Qed.
Lemma run_unless b e s : unless b e s = (s, if b then Ok tt else Err e).
Proof. by destruct b. Qed.
Lemma run_outcome (o : outcome A) s : from_outcome o s = (s, o).
Proof. done. Qed.
End Run.

Lemma run_bind_assoc {S A B C} (m : M S A) (k : A → M S B) (k' : B → M S C) s :
  ((m ≫= k) ≫= k') s = (m ≫= (λ a, k a ≫= k')) s.
Proof. unfold mbind, M_bind. by destruct (m s) as [s' [a|e]]. Qed.

(** A loop whose body only reads. *)
Lemma collect_reads {S A B} (l : list A) (body : A → M S B) (f : A → outcome B) s :
  (∀ x, x ∈ l → body x s = (s, f x)) → collect l body s = (s, all_ok (f <$> l)).
Proof.
  induction l as [|x l IH]; intros H; [done|]. simpl.
  rewrite run_bind, H by set_solver. destruct (f x); [|done].
  rewrite run_bind, IH by set_solver. by destruct (all_ok _).
Qed.

Create Rewrite HintDb run.
#[export] Hint Rewrite @run_bind_assoc @run_ret_bind @run_gets_bind @run_raise_bind @run_outcome_bind
  @run_modify_bind @run_try_modify_bind @run_unless_bind @run_transaction @run_try_except @run_fmap
  @run_ret @run_gets @run_raise @run_modify @run_try_modify @run_unless @run_outcome : run.

(** [run] executes the known prefix of a computation; [run_cases] also splits on
    the tests it meets. *)
Ltac run := repeat (progress (autorewrite with run; cbn beta iota)).
Ltac case_inner :=
  match goal with
  | |- context [match ?x with _ => _ end] =>
      lazymatch x with
      | context [match _ with _ => _ end] => fail
      | _ => let E := fresh "E" in destruct x eqn:E
      end
  end.
Ltac run_cases := repeat (run; try case_inner; simplify_eq/=); run.
