(* ===== verification/Sqlite.v ===== *)
(** * SQLite tables

    A table is the list of its rows in [rowid] order. The operations are the
    statements the stores issue: [SELECT .. WHERE], [UPDATE .. WHERE],
    [DELETE .. WHERE] and [INSERT] under a uniqueness constraint, with
    [ORDER BY] as a stable sort (rows that compare equal keep their [rowid]
    order). The lemmas are the ones the components share. *)

From S2P Require Import Prelude.

Section Table.
Context {R : Type}.
Implicit Types (t : list R) (p : R → bool) (f : R → R) (r : R).

Definition select p t : list R := List.filter p t.
Definition select_one p t : option R := List.find p t.
Definition exists_row p t : bool := existsb p t.
Definition rowcount p t : nat := length (select p t).
Definition update p f t : list R := map (λ r, if p r then f r else r) t.
Definition delete_rows p t : list R := List.filter (λ r, negb (p r)) t.

(** [clash r r'] holds when the new row [r] and the stored row [r'] violate
    a [PRIMARY KEY] or [UNIQUE] constraint together. *)
Definition insert_row (clash : R → R → bool) r t : option (list R) :=
  if exists_row (clash r) t then None else Some (t ++ [r]).
Definition insert_or_ignore clash r t : list R :=
  match insert_row clash r t with Some t' => t' | None => t end.

Fixpoint insert_by (le : R → R → bool) r t : list R :=
  match t with
  | [] => [r]
  | r' :: t' => if le r r' then r :: r' :: t' else r' :: insert_by le r t'
  end.
Definition order_by (le : R → R → bool) t : list R := foldr (insert_by le) [] t.

Lemma elem_of_select p t r : r ∈ select p t ↔ r ∈ t ∧ p r = true.
Proof. unfold select. rewrite !list_elem_of_In. apply filter_In. Qed.

Lemma select_one_Some p t r : select_one p t = Some r → r ∈ t ∧ p r = true.
Proof. intros H%find_some. by rewrite list_elem_of_In. Qed.

Lemma select_one_None p t : select_one p t = None ↔ ∀ r, r ∈ t → p r = false.
Proof.
  split.
  - intros H r Hr. eapply find_none; [exact H|]. by apply list_elem_of_In.
  - intros H. destruct (select_one p t) as [r|] eqn:E; [|done].
    apply select_one_Some in E as [Hr Hp]. by rewrite H in Hp.
Qed.

Lemma select_one_app p t t' :
  select_one p (t ++ t') =
    match select_one p t with Some r => Some r | None => select_one p t' end.
Proof. induction t as [|r t IH]; simpl; [done|]. by destruct (p r). Qed.

Lemma exists_row_true p t : exists_row p t = true ↔ ∃ r, r ∈ t ∧ p r = true.
Proof.
  unfold exists_row. rewrite existsb_exists.
  by setoid_rewrite list_elem_of_In.
Qed.

Lemma exists_row_false p t : exists_row p t = false ↔ ∀ r, r ∈ t → p r = false.
Proof.
  destruct (exists_row p t) eqn:E.
  - apply exists_row_true in E as (r & Hr & Hp).
    split; [done|]. intros H. by rewrite H in Hp.
  - split; [|done]. intros _ r Hr. destruct (p r) eqn:Hp; [|done].
    exfalso. enough (exists_row p t = true) by congruence.
    apply exists_row_true; eauto.
Qed.

Lemma elem_of_update p f t r :
  r ∈ update p f t ↔ ∃ r0, r0 ∈ t ∧ r = if p r0 then f r0 else r0.
Proof.
  unfold update. change (map ?g t) with (g <$> t). rewrite list_elem_of_fmap.
  split; intros (r0 & H1 & H2); eauto.
Qed.

Lemma elem_of_delete_rows p t r : r ∈ delete_rows p t ↔ r ∈ t ∧ p r = false.
Proof.
  unfold delete_rows. rewrite !list_elem_of_In, filter_In, negb_true_iff. done.
Qed.

Lemma length_update p f t : length (update p f t) = length t.
Proof. apply length_map. Qed.

Lemma Forall_update (P : R → Prop) p f t :
  Forall P t → (∀ r, r ∈ t → p r = true → P r → P (f r)) → Forall P (update p f t).
Proof.
  rewrite !Forall_forall. intros HP Hf r (r0 & Hr0 & ->)%elem_of_update.
  destruct (p r0) eqn:E; eauto.
Qed.

Lemma Forall_delete_rows (P : R → Prop) p t :
  Forall P t → Forall P (delete_rows p t).
Proof.
  rewrite !Forall_forall. intros HP r [? _]%elem_of_delete_rows; auto.
Qed.

(** A column the statement does not write keeps its values. *)
Lemma fmap_update {K} (k : R → K) p f t :
  (∀ r, r ∈ t → p r = true → k (f r) = k r) → k <$> update p f t = k <$> t.
Proof.
  induction t as [|r t IH]; intros H; [done|]. simpl. f_equal.
  - destruct (p r) eqn:E; [|done]. apply H; [set_solver|done].
  - apply IH. set_solver.
Qed.

Lemma update_none p f t : (∀ r, r ∈ t → p r = false) → update p f t = t.
Proof.
  induction t as [|r t IH]; intros H; [done|]. simpl.
  rewrite H by set_solver. f_equal. apply IH. set_solver.
Qed.

(** Two statements that treat the rows of the table alike. *)
Lemma update_ext p q f g t :
  (∀ r, r ∈ t → p r = q r ∧ (p r = true → f r = g r)) → update p f t = update q g t.
Proof.
  intros H. apply map_ext_in. intros r Hr%list_elem_of_In. destruct (H r Hr) as [-> Hfg].
  destruct (q r); auto.
Qed.

Lemma rowcount_ext p q t : (∀ r, r ∈ t → p r = q r) → rowcount p t = rowcount q t.
Proof.
  unfold rowcount, select. induction t as [|r t IH]; intros H; [done|]. simpl.
  rewrite (H r) by set_solver. destruct (q r); simpl; rewrite IH; set_solver.
Qed.

Lemma update_app p f t t' : update p f (t ++ t') = update p f t ++ update p f t'.
Proof. apply map_app. Qed.

(** [SELECT] by a condition the update does not change. *)
Lemma select_one_update p q f t :
  (∀ r, r ∈ t → p r = true → q (f r) = q r) →
  select_one q (update p f t) = (λ r, if p r then f r else r) <$> select_one q t.
Proof.
  induction t as [|r t IH]; intros H; [done|]. simpl.
  destruct (p r) eqn:E.
  - rewrite H; [|set_solver|done]. destruct (q r) eqn:Hq; simpl.
    + by rewrite E.
    + apply IH. set_solver.
  - destruct (q r) eqn:Hq; simpl; [by rewrite E|]. apply IH. set_solver.
Qed.

Lemma rowcount_zero p t : rowcount p t = 0%nat ↔ ∀ r, r ∈ t → p r = false.
Proof.
  unfold rowcount. split.
  - intros H r Hr. destruct (p r) eqn:E; [|done].
    assert (r ∈ select p t) as Hs by by apply elem_of_select.
    apply nil_length_inv in H. rewrite H in Hs. set_solver.
  - intros H. destruct (select p t) as [|r l] eqn:E; [done|].
    assert (r ∈ select p t) as [Hr Hp]%elem_of_select by (rewrite E; set_solver).
    by rewrite H in Hp.
Qed.

Lemma insert_row_Some clash r t t' :
  insert_row clash r t = Some t' →
  t' = t ++ [r] ∧ ∀ r', r' ∈ t → clash r r' = false.
Proof.
  unfold insert_row. destruct (exists_row (clash r) t) eqn:E; intros [= <-].
  split; [done|]. by rewrite exists_row_false in E.
Qed.

Lemma insert_row_ok clash r t :
  (∀ r', r' ∈ t → clash r r' = false) → insert_row clash r t = Some (t ++ [r]).
Proof. intros H. unfold insert_row.
  by rewrite (proj2 (exists_row_false _ _) H). Qed.

Lemma insert_or_ignore_spec clash r t :
  (insert_or_ignore clash r t = t ++ [r] ∧ ∀ r', r' ∈ t → clash r r' = false) ∨
  (insert_or_ignore clash r t = t ∧ ∃ r', r' ∈ t ∧ clash r r' = true).
Proof.
  unfold insert_or_ignore. destruct (insert_row clash r t) eqn:E.
  - apply insert_row_Some in E as [-> ?]; auto.
  - right. split; [done|]. unfold insert_row in E.
    destruct (exists_row (clash r) t) eqn:E'; [|done]. by apply exists_row_true in E'.
Qed.
End Table.

(** ** Keys *)

Section Keys.
Context {R K : Type} `{EqDecision K} (k : R → K).
Implicit Types (t : list R) (r : R).

Definition unique t : Prop := NoDup (k <$> t).

Lemma unique_eq t r r' : unique t → r ∈ t → r' ∈ t → k r = k r' → r = r'.
Proof.
  unfold unique. induction t as [|x t IH]; [set_solver|].
  intros [Hx Ht]%NoDup_cons Hr Hr' Hk.
  apply elem_of_cons in Hr as [->|Hr], Hr' as [->|Hr']; auto.
  - exfalso. apply Hx. rewrite Hk. by apply list_elem_of_fmap_2.
  - exfalso. apply Hx. rewrite <- Hk. by apply list_elem_of_fmap_2.
Qed.

Lemma unique_app t r :
  unique t → (∀ r', r' ∈ t → k r ≠ k r') → unique (t ++ [r]).
Proof.
  unfold unique. intros Ht Hr. rewrite fmap_app. apply NoDup_app.
  split; [done|]. split; [|apply NoDup_singleton].
  intros x (r' & -> & Hr')%list_elem_of_fmap Hx.
  apply list_elem_of_singleton in Hx. by eapply Hr.
Qed.

Lemma unique_select p t : unique t → unique (select p t).
Proof.
  unfold unique, select. induction t as [|x t IH]; [done|].
  intros [Hx Ht]%NoDup_cons. simpl. destruct (p x); simpl; [|by apply IH].
  apply NoDup_cons. split; [|by apply IH].
  contradict Hx. apply list_elem_of_fmap in Hx as (y & -> & Hy).
  apply list_elem_of_fmap_2. by apply elem_of_select in Hy as [??].
Qed.

Lemma unique_delete_rows p t : unique t → unique (delete_rows p t).
Proof. apply unique_select. Qed.

Lemma unique_perm t t' : t ≡ₚ t' → unique t → unique t'.
Proof. unfold unique. by intros ->. Qed.

(** A condition that pins the key meets one row. *)
Lemma rowcount_one p t r :
  unique t → r ∈ t → p r = true → (∀ r', r' ∈ t → p r' = true → k r' = k r) →
  rowcount p t = 1%nat.
Proof.
  unfold unique, rowcount, select. induction t as [|x t IH]; [set_solver|].
  rewrite fmap_cons. intros [Hx Hu]%NoDup_cons Hr Hp Hk. simpl.
  apply elem_of_cons in Hr as [<-|Hr].
  - rewrite Hp. simpl. f_equal. change (length _) with (rowcount p t).
    apply rowcount_zero. intros r' Hr'. destruct (p r') eqn:E; [|done].
    exfalso. apply Hx. rewrite <- (Hk r'); [by apply list_elem_of_fmap_2|set_solver|done].
  - destruct (p x) eqn:E; [|apply IH; [done..|]; intros; apply Hk; [set_solver|done]].
    exfalso. apply Hx. rewrite (Hk x); [by apply list_elem_of_fmap_2|set_solver|done].
Qed.

(** With a unique key, fetching by that key finds the row that has it. *)
Lemma select_one_unique t r :
  unique t → r ∈ t → select_one (λ r', bool_decide (k r' = k r)) t = Some r.
Proof.
  intros Ht Hr.
  destruct (select_one (λ r', bool_decide (k r' = k r)) t) as [r'|] eqn:E.
  - apply select_one_Some in E as [Hr' Hk%bool_decide_eq_true].
    f_equal. by eapply unique_eq.
  - eapply select_one_None in E; [|exact Hr]. by rewrite bool_decide_eq_false in E.
Qed.
End Keys.

(** ** ORDER BY *)

Section Order.
Context {R : Type} (le : R → R → bool).
Hypothesis le_total : ∀ x y, le x y = true ∨ le y x = true.
Implicit Types (t : list R) (r : R).

Lemma insert_by_perm r t : insert_by le r t ≡ₚ r :: t.
Proof.
  induction t as [|x t IH]; simpl; [done|]. destruct (le r x); [done|].
  rewrite IH. apply Permutation_swap.
Qed.

Lemma order_by_perm t : order_by le t ≡ₚ t.
Proof. induction t as [|x t IH]; simpl; [done|]. by rewrite insert_by_perm, IH. Qed.

Lemma insert_by_sorted r t :
  Sorted (λ x y, le x y = true) t → Sorted (λ x y, le x y = true) (insert_by le r t).
Proof.
  induction 1 as [|x t Hs IH Hhd]; simpl; [by repeat constructor|].
  destruct (le r x) eqn:E.
  - repeat (constructor; try done).
  - constructor; [done|]. destruct Hhd as [|y t Hxy]; simpl.
    + constructor. destruct (le_total r x); congruence.
    + destruct (le r y); constructor; [|done].
      destruct (le_total r x); congruence.
Qed.

Lemma order_by_sorted t : Sorted (λ x y, le x y = true) (order_by le t).
Proof. induction t; simpl; [constructor|]. by apply insert_by_sorted. Qed.

Lemma order_by_id t : Sorted (λ x y, le x y = true) t → order_by le t = t.
Proof.
  induction 1 as [|x t Hs IH Hhd]; [done|]. simpl. rewrite IH.
  destruct Hhd as [|y t Hxy]; simpl; [done|]. by rewrite Hxy.
Qed.

(** [ORDER BY .. LIMIT 1] *)
Lemma order_by_head t x :
  (∀ x y z, le x y = true → le y z = true → le x z = true) →
  head (order_by le t) = Some x → x ∈ t ∧ ∀ y, y ∈ t → y = x ∨ le x y = true.
Proof.
  intros Htrans Hx. pose proof (order_by_perm t) as Hp. pose proof (order_by_sorted t) as Hs.
  destruct (order_by le t) as [|x' l]; [done|]. injection Hx as ->. split.
  - rewrite <- Hp. set_solver.
  - intros y. rewrite <- Hp. intros [-> |Hy]%elem_of_cons; [by left|right].
    apply Sorted_StronglySorted in Hs; [|intros ???; apply Htrans].
    apply StronglySorted_inv in Hs as [_ Hs]. by eapply Forall_forall in Hs.
Qed.

Lemma order_by_head_None t : head (order_by le t) = None → t = [].
Proof.
  intros Hx. pose proof (order_by_perm t) as Hp.
  destruct (order_by le t); [|done]. by apply Permutation_nil in Hp.
Qed.
End Order.

(** Two conditions of a [WHERE] clause, one after the other. *)
Lemma select_and {R} (p q : R → bool) (t : list R) :
  select (λ r, p r && q r) t = select q (select p t).
Proof.
  unfold select. induction t as [|r t IH]; [done|]. simpl.
  destruct (p r); simpl; [by rewrite IH|done].
Qed.
