(* ===== verification/PyText.v ===== *)
(** * Python text

    A [str] is a sequence of code points below 256, one [ascii] each. The
    functions are the [str] methods the modelled code calls: [strip],
    [lower], [split] on white space and [join], slices, [startswith],
    [removeprefix] and [removesuffix]; and the identifier checks
    ([_required], [_identifier]) several components share. *)

From S2P Require Import Prelude.
#[local] Open Scope string_scope.
#[local] Arguments String.append : simpl nomatch.

Definition code (c : ascii) : N := N_of_ascii c.

(** [len(s)] *)
Definition len (s : string) : Z := Z.of_nat (String.length s).

(** [c.isspace()] for the code points below 256. *)
Definition py_isspace (c : ascii) : bool :=
  let n := code c in
  ((9 <=? n) && (n <=? 13) || (28 <=? n) && (n <=? 32) || (n =? 133) || (n =? 160))%N.

Fixpoint lstrip (s : string) : string :=
  match s with
  | EmptyString => EmptyString
  | String c s' => if py_isspace c then lstrip s' else s
  end.

Fixpoint rstrip (s : string) : string :=
  match s with
  | EmptyString => EmptyString
  | String c s' =>
      match rstrip s' with
      | EmptyString => if py_isspace c then EmptyString else String c EmptyString
      | r => String c r
      end
  end.

Definition strip (s : string) : string := rstrip (lstrip s).

(** [c.lower()] for the code points below 256. *)
Definition lower_char (c : ascii) : ascii :=
  let n := code c in
  if ((65 <=? n) && (n <=? 90) || (192 <=? n) && (n <=? 222) && negb (n =? 215))%N
  then ascii_of_N (n + 32) else c.

Fixpoint map_chars (f : ascii → ascii) (s : string) : string :=
  match s with
  | EmptyString => EmptyString
  | String c s' => String (f c) (map_chars f s')
  end.

Definition lower (s : string) : string := map_chars lower_char s.

Fixpoint all_chars (p : ascii → bool) (s : string) : bool :=
  match s with
  | EmptyString => true
  | String c s' => p c && all_chars p s'
  end.

(** [s[:n]], [s[n:]] for [n >= 0], and [s[-n:]] for [n > 0]. *)
Definition take_text (n : nat) (s : string) : string := substring 0 n s.
Definition drop_text (n : nat) (s : string) : string :=
  substring n (String.length s - n) s.
Definition last_text (n : nat) (s : string) : string :=
  drop_text (String.length s - n) s.

Definition startswith (p s : string) : bool := String.prefix p s.
Definition removeprefix (p s : string) : string :=
  if startswith p s then drop_text (String.length p) s else s.

(** [s.split(sep)] for a one-character separator. *)
Fixpoint split_char (sep : ascii) (s : string) : list string :=
  match s with
  | EmptyString => [EmptyString]
  | String c s' =>
      if bool_decide (c = sep) then EmptyString :: split_char sep s'
      else match split_char sep s' with
           | [] => [String c EmptyString]
           | w :: ws => String c w :: ws
           end
  end.

(** [s.split()]: the maximal runs of non-space characters. *)
Fixpoint split_words (s : string) : list string :=
  match s with
  | EmptyString => []
  | String c s' =>
      if py_isspace c then split_words s'
      else match s' with
           | EmptyString => [String c EmptyString]
           | String c' _ =>
               if py_isspace c' then String c EmptyString :: split_words s'
               else match split_words s' with
                    | [] => [String c EmptyString]
                    | w :: ws => String c w :: ws
                    end
           end
  end.

Fixpoint join_text (sep : string) (l : list string) : string :=
  match l with
  | [] => EmptyString
  | [w] => w
  | w :: l' => w ++ sep ++ join_text sep l'
  end.

Definition text_le (s t : string) : bool := String.leb s t.

(** ** Lemmas *)

Lemma length_app_text s t : String.length (s ++ t) = (String.length s + String.length t)%nat.
Proof. induction s; simpl; auto. Qed.

Lemma len_nonneg s : 0 <= len s.
Proof. unfold len. lia. Qed.

Lemma len_zero s : len s = 0 ↔ s = "".
Proof. unfold len. destruct s; simpl; split; intros; [done|done|lia|done]. Qed.

Lemma text_app_nil_r s : s ++ "" = s.
Proof. induction s as [|c s IH]; simpl; [done|]. by f_equal. Qed.

Lemma text_app_assoc s t u : (s ++ t) ++ u = s ++ t ++ u.
Proof. induction s as [|c s IH]; simpl; [done|]. by f_equal. Qed.

Lemma text_app_inj_l s t u : s ++ t = s ++ u → t = u.
Proof. induction s; simpl; [done|]. intros [= H]; auto. Qed.

Lemma text_app_inj_r s t u : s ++ u = t ++ u → s = t.
Proof.
  revert t. induction s as [|c s IH]; intros [|d t]; simpl; [done| | |].
  - intros H. apply (f_equal String.length) in H. simpl in H.
    rewrite length_app_text in H. lia.
  - intros H. apply (f_equal String.length) in H. simpl in H.
    rewrite length_app_text in H. lia.
  - intros [= -> H]. f_equal. auto.
Qed.

(** Texts of one length in front determine where they end. *)
Lemma text_app_split s t u v :
  String.length s = String.length t → s ++ u = t ++ v → s = t ∧ u = v.
Proof.
  revert t. induction s as [|c s IH]; intros [|d t]; simpl; try done.
  intros [= Hl] [= -> H]. destruct (IH t Hl H) as [-> ->]. done.
Qed.

Lemma text_le_total s t : text_le s t = true ∨ text_le t s = true.
Proof.
  unfold text_le, String.leb. rewrite (String.compare_antisym t s).
  destruct (String.compare s t); simpl; auto.
Qed.

Lemma take_text_id n s : (String.length s ≤ n)%nat → take_text n s = s.
Proof.
  unfold take_text. revert n. induction s as [|c s IH]; intros [|n] H; simpl in *; try done.
  - lia.
  - f_equal. apply IH. lia.
Qed.

Lemma length_take_text n s :
  String.length (take_text n s) = Nat.min n (String.length s).
Proof.
  unfold take_text. revert n. induction s as [|c s IH]; intros [|n]; simpl; try done.
  by rewrite IH.
Qed.

Lemma drop_text_app s t : drop_text (String.length s) (s ++ t) = t.
Proof.
  unfold drop_text. rewrite length_app_text.
  replace (String.length s + String.length t - String.length s)%nat
    with (String.length t) by lia.
  induction s as [|c s IH]; simpl; [|apply IH].
  induction t as [|d t IH]; simpl; [done|]. by f_equal.
Qed.

Lemma startswith_app p s : startswith p (p ++ s) = true.
Proof.
  unfold startswith. induction p as [|c p IH]; simpl; [by destruct s|].
  by destruct (ascii_dec c c).
Qed.

Lemma removeprefix_app p s : removeprefix p (p ++ s) = s.
Proof. unfold removeprefix. by rewrite startswith_app, drop_text_app. Qed.

Lemma startswith_spec p s : startswith p s = true → ∃ t, s = p ++ t.
Proof.
  unfold startswith. revert s. induction p as [|c p IH]; intros s H.
  - by exists s.
  - destruct s as [|d s]; simpl in H; [done|].
    destruct (ascii_dec c d) as [->|]; [|done].
    destruct (IH _ H) as [t ->]. by exists t.
Qed.

(** *** [strip] *)

Definition stripped (s : string) : Prop := strip s = s.
#[global] Instance stripped_dec s : Decision (stripped s).
Proof. unfold stripped. apply _. Defined.

Definition head_solid (s : string) : Prop :=
  match s with EmptyString => True | String c _ => py_isspace c = false end.

Lemma lstrip_head s : head_solid (lstrip s).
Proof. induction s as [|c s IH]; simpl; [done|]. by destruct (py_isspace c) eqn:E. Qed.

Lemma lstrip_fix s : head_solid s → lstrip s = s.
Proof. destruct s as [|c s]; simpl; [done|]. by intros ->. Qed.

Lemma rstrip_head s : head_solid s → head_solid (rstrip s).
Proof.
  destruct s as [|c s]; simpl; [done|]. intros Hc.
  destruct (rstrip s); simpl; by rewrite ?Hc.
Qed.

Lemma rstrip_idem s : rstrip (rstrip s) = rstrip s.
Proof.
  induction s as [|c s IH]; simpl; [done|].
  destruct (rstrip s) as [|d r] eqn:E.
  - destruct (py_isspace c) eqn:Ec; simpl; [done|]. by rewrite Ec.
  - simpl in IH |- *. by rewrite IH.
Qed.

Lemma strip_stripped s : stripped (strip s).
Proof.
  unfold stripped, strip.
  rewrite (lstrip_fix (rstrip (lstrip s))) by apply rstrip_head, lstrip_head.
  apply rstrip_idem.
Qed.

(** A text without white space is stripped. *)
Lemma solid_stripped p s :
  (∀ c, p c = true → py_isspace c = false) → all_chars p s = true → stripped s.
Proof.
  intros Hp Hs. assert (rstrip s = s) as Hr.
  { induction s as [|c s IH]; [done|]. apply andb_true_iff in Hs as [Hc Hs]. simpl. rewrite (IH Hs).
    destruct s; [|done]. by rewrite (Hp c Hc). }
  unfold stripped, strip. rewrite lstrip_fix; [done|]. destruct s as [|c s]; [done|].
  apply andb_true_iff in Hs as [Hc _]. by apply Hp.
Qed.

Lemma length_lstrip s : (String.length (lstrip s) ≤ String.length s)%nat.
Proof. induction s as [|c s IH]; simpl; [done|]. destruct (py_isspace c); simpl; lia. Qed.

Lemma length_rstrip s : (String.length (rstrip s) ≤ String.length s)%nat.
Proof.
  induction s as [|c s IH]; simpl; [done|].
  destruct (rstrip s) eqn:E; simpl in *; [|lia]. destruct (py_isspace c); simpl; lia.
Qed.

Lemma len_strip s : len (strip s) <= len s.
Proof.
  unfold len, strip. pose proof (length_rstrip (lstrip s)).
  pose proof (length_lstrip s). lia.
Qed.

(** ** Shared checks *)

(** A non-empty, bounded, stripped identifier. *)
Definition identifier_ok (maximum : Z) (s : string) : Prop :=
  stripped s ∧ s ≠ "" ∧ len s <= maximum.
#[global] Instance identifier_ok_dec m s : Decision (identifier_ok m s).
Proof. unfold identifier_ok. apply _. Defined.

(** A pydantic [str] field with [min_length=1], a [max_length] and
    [str_strip_whitespace]: the stripped value, when it satisfies the bounds. *)
Definition bounded_field (maximum : Z) (s : string) : option string :=
  let v := strip s in
  if ((1 <=? len v) && (len v <=? maximum))%Z then Some v else None.

Lemma bounded_field_ok m s : identifier_ok m s → bounded_field m s = Some s.
Proof.
  intros (Hs & Hne & Hm). unfold bounded_field. rewrite Hs.
  assert (len s ≠ 0) by by rewrite len_zero.
  pose proof (len_nonneg s).
  destruct (Z.leb_spec 1 (len s)), (Z.leb_spec (len s) m); simpl; try lia; done.
Qed.

Lemma bounded_field_Some m s v : bounded_field m s = Some v → identifier_ok m v.
Proof.
  unfold bounded_field. destruct (_ && _) eqn:E; intros [= <-].
  apply andb_true_iff in E as [H1%Z.leb_le H2%Z.leb_le].
  split; [apply strip_stripped|]. split; [|done].
  intros H%len_zero. lia.
Qed.

(** A Pydantic text: [str_strip_whitespace], then [min_length] and
    [max_length]. *)
Definition text_field (minimum maximum : Z) (s : string) : option string :=
  let v := strip s in
  if (minimum <=? len v)%Z && (len v <=? maximum)%Z then Some v else None.

Lemma text_field_Some a b s v : text_field a b s = Some v → text_field a b v = Some v.
Proof.
  unfold text_field. destruct (_ && _) eqn:E; intros [= <-]. by rewrite strip_stripped, E.
Qed.

(** [str(value or '').strip()], refused when empty or longer than [maximum]. *)
Definition required (maximum : Z) (field value : string) : outcome string :=
  let safe := strip value in
  if bool_decide (safe = "") then Err (ValueError (field ++ " is required"))
  else if (maximum <? len safe)%Z then Err (ValueError (field ++ " is too long"))
  else Ok safe.

Lemma required_Ok m field value s : required m field value = Ok s ↔ s = strip value ∧ identifier_ok m s.
Proof.
  unfold required, identifier_ok. split.
  - case_bool_decide as Hne; [done|]. destruct (Z.ltb_spec m (len (strip value))); [done|].
    intros [= <-]. by split_and!; [|apply strip_stripped| |].
  - intros (-> & _ & Hne & Hlen). rewrite bool_decide_eq_false_2 by done.
    by destruct (Z.ltb_spec m (len (strip value))); [lia|].
Qed.

(** [repr(s)]: single quotes unless the text has some and no double quote. *)
Definition hex_digit (n : N) : ascii :=
  ascii_of_N (if (n <? 10)%N then 48 + n else 87 + n)%N.

Fixpoint has_char (c : ascii) (s : string) : bool :=
  match s with
  | EmptyString => false
  | String d s' => bool_decide (c = d) || has_char c s'
  end.

Definition single_quote : ascii := ascii_of_N 39.
Definition double_quote : ascii := ascii_of_N 34.
Definition backslash_char : ascii := ascii_of_N 92.

Definition repr_char (delimiter c : ascii) : string :=
  let n := code c in
  if bool_decide (c = delimiter) || bool_decide (c = backslash_char)
  then String backslash_char (String c EmptyString)
  else if (n =? 9)%N then String backslash_char "t"
  else if (n =? 10)%N then String backslash_char "n"
  else if (n =? 13)%N then String backslash_char "r"
  else if ((n <? 32) || (127 <=? n) && (n <? 161) || (n =? 173))%N
  then String backslash_char (String "x" (String (hex_digit (n / 16))
         (String (hex_digit (n mod 16)) EmptyString)))
  else String c EmptyString.

Fixpoint repr_body (delimiter : ascii) (s : string) : string :=
  match s with
  | EmptyString => EmptyString
  | String c s' => repr_char delimiter c ++ repr_body delimiter s'
  end.

Definition repr (s : string) : string :=
  let d := if has_char single_quote s && negb (has_char double_quote s)
           then double_quote else single_quote in
  String d (repr_body d s ++ String d EmptyString).

Example repr_plain : repr "d-1" = "'d-1'".
Proof. reflexivity. Qed.

(** [s.casefold()], up to the letters it sends out of the modelled range. *)
Fixpoint casefold (s : string) : string :=
  match s with
  | EmptyString => EmptyString
  | String c s' =>
      if (code c =? 223)%N then String "s" (String "s" (casefold s'))
      else String (lower_char c) (casefold s')
  end.

(** [str(raw or '').strip()] of each item, empty ones and later case variants
    left out. *)
Fixpoint unique_texts (l seen : list string) : list string :=
  match l with
  | [] => []
  | raw :: l' =>
      let item := strip raw in
      if bool_decide (item = "") || bool_decide (casefold item ∈ seen) then unique_texts l' seen
      else item :: unique_texts l' (casefold item :: seen)
  end.

Lemma unique_texts_idem l seen : unique_texts (unique_texts l seen) seen = unique_texts l seen.
Proof.
  revert seen. induction l as [|raw l IH]; intros seen; [done|]. simpl.
  destruct (_ || _) eqn:E; [apply IH|]. simpl.
  rewrite strip_stripped, E. by rewrite IH.
Qed.
