(* ===== verification/Regex.v ===== *)
(** * Regular expressions ([re])

    The part of Python's [re] the redaction patterns use, as a backtracking
    matcher: alternatives and repetitions are tried in the order [re] tries
    them, so that the first success is the match [re] reports. *)

From S2P Require Import Prelude PyText.
#[local] Open Scope string_scope.
#[local] Open Scope list_scope.

Inductive regex :=
  | RNil
  | RChar (p : ascii → bool)
  | RSeq (a b : regex)
  | RAlt (a b : regex)
  | RStar (greedy : bool) (a : regex)
  | RWordEnd.

(** [str.isalnum] of a character. *)
Definition py_isalnum (c : ascii) : bool :=
  let n := code c in
  (((48 <=? n) && (n <=? 57)) || ((65 <=? n) && (n <=? 90)) || ((97 <=? n) && (n <=? 122)) ||
   ((192 <=? n) && negb (n =? 215) && negb (n =? 247)) ||
   bool_decide (n ∈ [170; 178; 179; 181; 185; 186; 188; 189; 190]))%N.
(** [\w] *)
Definition word_char (c : ascii) : bool := py_isalnum c || (code c =? 95)%N.

Definition after_word (previous : option ascii) : bool := from_option word_char false previous.
Definition before_word (s : string) : bool :=
  match s with String c _ => word_char c | EmptyString => false end.

Section Match.
Context {A : Type}.
Implicit Types (k : option ascii → string → option A).

(** The repetitions of [step], each of which must consume something. *)
Definition star_loop (step : option ascii → string → (option ascii → string → option A) → option A)
    (greedy : bool) k : nat → option ascii → string → option A :=
  fix star n previous s :=
    match n with
    | O => k previous s
    | S n =>
        let shorter q t := if (String.length t <? String.length s)%nat then star n q t else None in
        if greedy then match step previous s shorter with Some x => Some x | None => k previous s end
        else match k previous s with Some x => Some x | None => step previous s shorter end
    end.

(** [r] at a position, followed by what [k] accepts. *)
Fixpoint match_regex (r : regex) (previous : option ascii) (s : string) k : option A :=
  match r with
  | RNil => k previous s
  | RChar p => match s with String c t => if p c then k (Some c) t else None | EmptyString => None end
  | RSeq a b => match_regex a previous s (λ q t, match_regex b q t k)
  | RAlt a b =>
      match match_regex a previous s k with Some x => Some x | None => match_regex b previous s k end
  | RStar greedy a => star_loop (match_regex a) greedy k (String.length s) previous s
  | RWordEnd => if xorb (after_word previous) (before_word s) then k previous s else None
  end.
End Match.

(** [re.search(r, s) is not None] *)
Fixpoint found_from (r : regex) (previous : option ascii) (s : string) : bool :=
  match match_regex r previous s (λ _ _, Some tt) with
  | Some _ => true
  | None => match s with String c t => found_from r (Some c) t | EmptyString => false end
  end.
Definition re_search (r : regex) (s : string) : bool := found_from r None s.

(** [re.sub(r"(group)rest", "\1" + replacement, s)] for a pattern that matches no
    empty text: [skip] characters of the last match are left to pass. *)
Definition match_group (group rest : regex) (previous : option ascii) (s : string) : option (nat * nat) :=
  match_regex group previous s (λ q t, match_regex rest q t (λ _ u,
    Some (String.length s - String.length t, String.length s - String.length u)%nat)).
Fixpoint sub_from (group rest : regex) (replacement : string) (skip : nat) (previous : option ascii)
    (s : string) : string :=
  match s with
  | EmptyString => EmptyString
  | String c t =>
      match skip with
      | S n => sub_from group rest replacement n (Some c) t
      | O =>
          match match_group group rest previous s with
          | Some (kept, S consumed) =>
              take_text kept s +:+ replacement +:+ sub_from group rest replacement consumed (Some c) t
          | _ => String c (sub_from group rest replacement O (Some c) t)
          end
      end
  end.
Definition re_sub (group rest : regex) (replacement s : string) : string :=
  sub_from group rest replacement O None s.

(** ** Writing patterns *)

Definition RPlus (greedy : bool) (a : regex) : regex := RSeq a (RStar greedy a).
Definition ROpt (a : regex) : regex := RAlt a RNil.
Fixpoint rseq (l : list regex) : regex :=
  match l with [] => RNil | [r] => r | r :: l' => RSeq r (rseq l') end.
Fixpoint ralt (l : list regex) : regex :=
  match l with [] => RNil | [r] => r | r :: l' => RAlt r (ralt l') end.
(** A literal, and a literal under [re.IGNORECASE]. *)
Definition rchars (f : ascii → ascii → bool) (s : string) : regex :=
  rseq ((λ c, RChar (f c)) <$> list_ascii_of_string s).
Definition rtext : string → regex := rchars (λ c d, c == d).
Definition rcase : string → regex := rchars (λ c d, lower_char c == lower_char d).
Definition one_of (l : list ascii) (c : ascii) : bool := bool_decide (c ∈ l).
Definition rset (s : string) : regex := RChar (one_of (list_ascii_of_string s)).
Definition rnot (s : string) : regex := RChar (λ c, negb (one_of (list_ascii_of_string s) c)).
Definition rspace : regex := RChar py_isspace.

(** ** The matcher is sound and complete *)

(** [r] leads from one position to another. *)
Inductive matches : regex → option ascii → string → option ascii → string → Prop :=
  | matches_nil p s : matches RNil p s p s
  | matches_char f p c t : f c = true → matches (RChar f) p (String c t) (Some c) t
  | matches_seq a b p s q t o u : matches a p s q t → matches b q t o u → matches (RSeq a b) p s o u
  | matches_left a b p s q t : matches a p s q t → matches (RAlt a b) p s q t
  | matches_right a b p s q t : matches b p s q t → matches (RAlt a b) p s q t
  | matches_stop g a p s : matches (RStar g a) p s p s
  | matches_more g a p s q t o u :
      matches a p s q t → (String.length t < String.length s)%nat → matches (RStar g a) q t o u →
      matches (RStar g a) p s o u
  | matches_word p s : xorb (after_word p) (before_word s) = true → matches RWordEnd p s p s.

Lemma star_loop_sound {A} step g a (k : option ascii → string → option A) :
  (∀ p s k' x, step p s k' = Some x → ∃ q t, matches a p s q t ∧ k' q t = Some x) →
  ∀ n p s x, star_loop step g k n p s = Some x → ∃ q t, matches (RStar g a) p s q t ∧ k q t = Some x.
Proof.
  intros Hstep n. induction n as [|n IH]; intros p s x Hx; simpl in Hx; [eauto using matches_stop|].
  set (shorter := λ q t, _) in Hx.
  assert (∀ y, step p s shorter = Some y → ∃ q t, matches (RStar g a) p s q t ∧ k q t = Some y) as Hmore.
  { intros y (q & t & Ha & Ht)%Hstep. unfold shorter in Ht. destruct (_ <? _)%nat eqn:E; [|done].
    apply Nat.ltb_lt in E. apply IH in Ht as (o & u & H & Hk). eauto using matches_more. }
  destruct g.
  - destruct (step p s shorter) eqn:E; [|eauto using matches_stop]. injection Hx as ->. by apply Hmore.
  - destruct (k p s) eqn:E; [|by apply Hmore]. injection Hx as ->. eauto using matches_stop.
Qed.

Lemma match_regex_sound {A} r : ∀ p s (k : option ascii → string → option A) x,
  match_regex r p s k = Some x → ∃ q t, matches r p s q t ∧ k q t = Some x.
Proof.
  induction r as [|f|a IHa b IHb|a IHa b IHb|g a IHa|]; intros p s k x Hx; simpl in Hx.
  - eauto using matches_nil.
  - destruct s as [|c t]; [done|]. destruct (f c) eqn:E; [|done]. eauto using matches_char.
  - apply IHa in Hx as (q & t & Ha & (o & u & Hb & Hk)%IHb). eauto using matches_seq.
  - destruct (match_regex a p s k) eqn:E.
    + injection Hx as ->. apply IHa in E as (q & t & H & Hk). eauto using matches_left.
    + apply IHb in Hx as (q & t & H & Hk). eauto using matches_right.
  - by eapply star_loop_sound.
  - destruct (xorb _ _) eqn:E; [|done]. eauto using matches_word.
Qed.

Lemma star_loop_complete {A} step g a (k : option ascii → string → option A) :
  (∀ p s k' q t, step p s k' = None → matches a p s q t → k' q t = None) →
  ∀ p s q t, matches (RStar g a) p s q t → ∀ n, (String.length s ≤ n)%nat →
  star_loop step g k n p s = None → k q t = None.
Proof.
  intros Hstep p s q t H. remember (RStar g a) as r eqn:Er.
  induction H as [| | | | |g' a' p s|g' a' p s q t o u Ha _ Ht H IH|]; simplify_eq/=; intros n Hn Hx.
  - destruct n; simpl in Hx; [done|]. by repeat case_match.
  - destruct n as [|n]; [lia|]. simpl in Hx. set (shorter := λ q t, _) in Hx.
    assert (step p s shorter = None) as Hs by by repeat case_match.
    apply (Hstep _ _ _ _ _ Hs) in Ha. unfold shorter in Ha.
    rewrite (proj2 (Nat.ltb_lt _ _) Ht) in Ha. apply (IH eq_refl n); [lia|done].
Qed.

Lemma match_regex_complete {A} r : ∀ p s (k : option ascii → string → option A) q t,
  match_regex r p s k = None → matches r p s q t → k q t = None.
Proof.
  induction r as [|f|a IHa b IHb|a IHa b IHb|g a IHa|]; intros p s k q t Hx H; simpl in Hx;
    try (inversion H; simplify_eq/=; []).
  - done.
  - match goal with E : f _ = true |- _ => by rewrite E in Hx end.
  - match goal with Ha : matches a _ _ _ _ |- _ => apply (IHa _ _ _ _ _ Hx) in Ha end. cbn beta in *. eauto.
  - destruct (match_regex a p s k) eqn:E; [done|]. inversion H; simplify_eq/=; eauto.
  - by apply (star_loop_complete _ _ _ _ (λ p s k q t, IHa p s k q t) _ _ _ _ H _ (Nat.le_refl _)).
  - match goal with E : xorb _ _ = true |- _ => by rewrite E in Hx end.
Qed.

(** A search succeeds when the pattern matches somewhere. *)
Definition last_char (p : option ascii) (s : string) : option ascii :=
  foldl (λ _ c, Some c) p (list_ascii_of_string s).

Lemma found_from_spec r s : ∀ p,
  found_from r p s = true ↔ ∃ a b o u, s = a +:+ b ∧ matches r (last_char p a) b o u.
Proof.
  induction s as [|c s IH]; intros p; cbn [found_from];
    (destruct (match_regex _ _ _ _) as [[]|] eqn:E; [apply match_regex_sound in E as (q & t & H & _); split;
      [intros _; by eexists EmptyString, _, _, _|done]|]).
  - split; [done|]. intros (a & b & o & u & Es & H). destruct a; [|done].
    change (EmptyString +:+ b) with b in Es. subst b.
    by apply (match_regex_complete _ _ _ _ _ _ E) in H.
  - rewrite IH. split.
    + intros (a & b & o & u & -> & H). by eexists (String c a), _, _, _.
    + intros ([|d a] & b & o & u & Es & H).
      * change (EmptyString +:+ b) with b in Es. subst b. by apply (match_regex_complete _ _ _ _ _ _ E) in H.
      * change (String d a +:+ b) with (String d (a +:+ b)) in Es. injection Es as <- ->. eauto 10.
Qed.
