(* ===== verification/Clock.v ===== *)
(** * Calendar texts

    [datetime.isoformat()] of an instant in UTC, for instants in microseconds
    since 1970. Days are turned into the proleptic Gregorian calendar of
    [datetime] by counting 400-year eras; the theorem is that the text tells
    instants apart. *)

From S2P Require Import Prelude PyText.
#[local] Open Scope string_scope.
#[local] Open Scope list_scope.
#[local] Open Scope Z_scope.

(** ** Days and dates *)

Definition days_per_era : Z := 146097.

(** The day of an era starting on a 1st of March, as (year of the era, month,
    day), January and February counting to the next year. *)
Definition date_of_day (doe : Z) : Z * Z * Z :=
  let yoe := (doe - doe / 1460 + doe / 36524 - doe / 146096) / 365 in
  let doy := doe - (365 * yoe + yoe / 4 - yoe / 100) in
  let mp := (5 * doy + 2) / 153 in
  let month := if mp <? 10 then mp + 3 else mp - 9 in
  (if month <=? 2 then yoe + 1 else yoe, month, doy - (153 * mp + 2) / 5 + 1).

Definition day_of_date (date : Z * Z * Z) : Z :=
  let '(y, month, day) := date in
  let yoe := if month <=? 2 then y - 1 else y in
  let mp := if month <=? 2 then month + 9 else month - 3 in
  365 * yoe + yoe / 4 - yoe / 100 + (153 * mp + 2) / 5 + day - 1.

(** Year, month and day of a day since 1970. *)
Definition civil (days : Z) : Z * Z * Z :=
  let z := days + 719468 in
  let '(y, month, day) := date_of_day (z mod days_per_era) in
  (y + 400 * (z / days_per_era), month, day).

(** ** Texts *)

Definition digit (n : Z) : ascii := ascii_of_N (48 + Z.to_N (n mod 10)).
(** The last [n] decimal digits. *)
Fixpoint pad (n : nat) (z : Z) : string :=
  match n with
  | O => EmptyString
  | S n' => pad n' (z / 10) +:+ String (digit z) EmptyString
  end.

Definition microseconds_per_day : Z := 86400000000.

Definition utc_isoformat (instant : Z) : string :=
  let '(year, month, day) := civil (instant / microseconds_per_day) in
  let us := instant mod microseconds_per_day in
  let s := us / 1000000 in
  let fraction := us mod 1000000 in
  pad 4 year +:+ "-" +:+ pad 2 month +:+ "-" +:+ pad 2 day +:+ "T"
  +:+ pad 2 (s / 3600) +:+ ":" +:+ pad 2 (s / 60 mod 60) +:+ ":" +:+ pad 2 (s mod 60)
  +:+ (if fraction =? 0 then "" else "." +:+ pad 6 fraction) +:+ "+00:00".

(** [datetime.replace(second=0, microsecond=0)] *)
Definition minute_start (instant : Z) : Z := instant - instant mod 60000000.

(** The instants [datetime] has: the years 1 to 9999. *)
Definition representable (instant : Z) : Prop := -62135596800000000 <= instant < 253402300800000000.
#[global] Instance representable_dec instant : Decision (representable instant).
Proof. unfold representable. apply _. Defined.

Example isoformat_sample : utc_isoformat 1767225599500000 = "2025-12-31T23:59:59.500000+00:00".
Proof. by vm_compute. Qed.
Example isoformat_leap : utc_isoformat 951782400000000 = "2000-02-29T00:00:00+00:00".
Proof. by vm_compute. Qed.
Example isoformat_first : utc_isoformat (-62135596800000000) = "0001-01-01T00:00:00+00:00".
Proof. by vm_compute. Qed.
Example isoformat_last : utc_isoformat 253402300799000000 = "9999-12-31T23:59:59+00:00".
Proof. by vm_compute. Qed.

(** ** The calendar tells days apart *)

Lemma year_of_era doe :
  0 <= doe < days_per_era →
  let yoe := (doe - doe / 1460 + doe / 36524 - doe / 146096) / 365 in
  0 <= yoe <= 399 ∧ 0 <= doe - (365 * yoe + yoe / 4 - yoe / 100) <= 365.
Proof.
  unfold days_per_era. intros H. cbv zeta. set (q2 := doe / 36524). set (q3 := doe / 146096).
  assert (0 <= q2 <= 4) by (unfold q2; Z.div_mod_to_equations; lia).
  assert (q2 * 36524 <= doe < q2 * 36524 + 36524) by (unfold q2; Z.div_mod_to_equations; lia).
  assert (q3 * 146096 <= doe < q3 * 146096 + 146096) by (unfold q3; Z.div_mod_to_equations; lia).
  assert (0 <= q3 <= 1) by lia. clearbody q2 q3.
  assert (q2 = 0 ∨ q2 = 1 ∨ q2 = 2 ∨ q2 = 3 ∨ q2 = 4) as C by lia.
  assert (q3 = 0 ∨ q3 = 1) as C' by lia.
  destruct C as [->|[->|[->|[->| ->]]]], C' as [->| ->]; try lia; Z.div_mod_to_equations; lia.
Qed.

(** The date of a day of an era, and the day it came from. *)
Lemma date_of_day_spec doe y month day :
  0 <= doe < days_per_era → date_of_day doe = (y, month, day) →
  day_of_date (y, month, day) = doe ∧ 1 <= month <= 12 ∧ 1 <= day <= 31 ∧
  0 <= (if month <=? 2 then y - 1 else y) <= 399 ∧ (doe <= 146036 → y <= 399).
Proof.
  intros H. pose proof (year_of_era doe H) as [Hy Hd]. unfold date_of_day, day_of_date.
  set (yoe := (doe - doe / 1460 + doe / 36524 - doe / 146096) / 365) in *. clearbody yoe.
  set (doy := doe - (365 * yoe + yoe / 4 - yoe / 100)) in *.
  assert (doe = 365 * yoe + yoe / 4 - yoe / 100 + doy) as Hdoe by (unfold doy; lia). clearbody doy.
  set (mp := (5 * doy + 2) / 153).
  assert (0 <= mp <= 11 ∧ 153 * mp <= 5 * doy + 2 < 153 * mp + 153) as [Hmp Hmd]
    by (unfold mp; Z.div_mod_to_equations; lia). clearbody mp.
  destruct (Z.ltb_spec mp 10) as [Hm|Hm]; intros [= <- <- <-].
  - destruct (Z.leb_spec (mp + 3) 2); [lia|]. split_and!; try lia; Z.div_mod_to_equations; lia.
  - destruct (Z.leb_spec (mp - 9) 2); [|lia]. split_and!; try lia; Z.div_mod_to_equations; lia.
Qed.

(** The day a date came from. *)
Definition days_of_civil (date : Z * Z * Z) : Z :=
  let '(year, month, day) := date in
  let start := if month <=? 2 then year - 1 else year in
  day_of_date (year - 400 * (start / 400), month, day) + days_per_era * (start / 400) - 719468.

Lemma civil_spec days year month day :
  civil days = (year, month, day) →
  days_of_civil (year, month, day) = days ∧ 1 <= month <= 12 ∧ 1 <= day <= 31 ∧
  (-719162 <= days <= 2932896 → 0 <= year <= 9999).
Proof.
  unfold civil. set (z := days + 719468).
  pose proof (Z.mod_pos_bound z days_per_era ltac:(done)) as Hb.
  pose proof (Z.div_mod z days_per_era ltac:(done)) as Hz.
  destruct (date_of_day (z mod days_per_era)) as [[y m] dd] eqn:E. intros [= <- <- <-].
  destruct (date_of_day_spec _ _ _ _ Hb E) as (Hday & Hm & Hd & Hy & Hlast).
  set (era := z / days_per_era) in *. split; [|split; [done|split; [done|]]].
  - unfold days_of_civil. assert ((if m <=? 2 then y + 400 * era - 1 else y + 400 * era) / 400 = era) as ->.
    { destruct (m <=? 2); Z.div_mod_to_equations; lia. }
    replace (y + 400 * era - 400 * era) with y by lia. rewrite Hday. unfold z in *. lia.
  - intros Hr. unfold days_per_era in *. assert (0 <= era <= 24) by lia.
    destruct (Z.leb_spec m 2); split; try lia; destruct (decide (era = 24)); lia.
Qed.

(** ** Texts tell numbers apart *)

Lemma length_pad n z : String.length (pad n z) = n.
Proof.
  revert z. induction n as [|n IH]; intros z; [done|]. simpl. rewrite length_app_text, IH. simpl. lia.
Qed.

Lemma digit_inj a b : digit a = digit b → a mod 10 = b mod 10.
Proof.
  intros H%(f_equal N_of_ascii). unfold digit in H.
  pose proof (Z.mod_pos_bound a 10 ltac:(done)). pose proof (Z.mod_pos_bound b 10 ltac:(done)).
  rewrite !N_ascii_embedding in H by lia. lia.
Qed.

Lemma pad_inj n a b : 0 <= a < 10 ^ Z.of_nat n → 0 <= b < 10 ^ Z.of_nat n → pad n a = pad n b → a = b.
Proof.
  revert a b. induction n as [|n IH]; intros a b Ha Hb; [simpl in *; lia|].
  rewrite Nat2Z.inj_succ, Z.pow_succ_r in Ha, Hb by lia. simpl. intros H.
  apply text_app_split in H as [H1 H2]; [|by rewrite !length_pad].
  injection H2 as H2. apply digit_inj in H2. apply IH in H1; Z.div_mod_to_equations; lia.
Qed.

Lemma text_split2 (c : ascii) s t u v :
  String.length s = String.length u → s +:+ String c t = u +:+ String c v → s = u ∧ t = v.
Proof. intros Hl [-> [= ->]]%text_app_split; done. Qed.

(** The text of an instant in UTC determines the instant. *)
Lemma utc_isoformat_inj a b :
  representable a → representable b → utc_isoformat a = utc_isoformat b → a = b.
Proof.
  unfold representable, utc_isoformat. intros Ha Hb.
  destruct (civil (a / microseconds_per_day)) as [[ya ma] da] eqn:Ea.
  destruct (civil (b / microseconds_per_day)) as [[yb mb] db] eqn:Eb.
  apply civil_spec in Ea as (Ea & Hma & Hda & Hya). apply civil_spec in Eb as (Eb & Hmb & Hdb & Hyb).
  assert (-719162 <= a / microseconds_per_day <= 2932896) as Ra by (unfold microseconds_per_day; Z.div_mod_to_equations; lia).
  assert (-719162 <= b / microseconds_per_day <= 2932896) as Rb by (unfold microseconds_per_day; Z.div_mod_to_equations; lia).
  specialize (Hya Ra). specialize (Hyb Rb). cbv zeta.
  pose proof (Z.mod_pos_bound a microseconds_per_day ltac:(done)) as Ua.
  pose proof (Z.mod_pos_bound b microseconds_per_day ltac:(done)) as Ub.
  pose proof (Z.div_mod a microseconds_per_day ltac:(done)) as Va.
  pose proof (Z.div_mod b microseconds_per_day ltac:(done)) as Vb.
  set (ua := a mod microseconds_per_day) in *. set (ub := b mod microseconds_per_day) in *.
  change ("-" +:+ ?x) with (String "-" x). change (":" +:+ ?x) with (String ":" x).
  change ("T" +:+ ?x) with (String "T" x).
  intros H. repeat (apply text_split2 in H as [? H]; [|by rewrite !length_pad]).
  apply text_app_split in H as [Hs H]; [|by rewrite !length_pad].
  unfold microseconds_per_day in *.
  repeat match goal with H : pad _ _ = pad _ _ |- _ =>
    apply pad_inj in H; [|simpl; Z.div_mod_to_equations; lia..] end.
  subst ya ma da. assert (a / 86400000000 = b / 86400000000) as Hday by congruence.
  assert (ua mod 1000000 = ub mod 1000000) as Hf.
  { destruct (Z.eqb_spec (ua mod 1000000) 0), (Z.eqb_spec (ub mod 1000000) 0); try congruence; try done.
    apply text_app_split in H as [H%text_app_inj_l _]; [|by rewrite !length_app_text, !length_pad].
    apply pad_inj in H; [done|simpl; Z.div_mod_to_equations; lia..]. }
  assert (ua / 1000000 = ub / 1000000); [|Z.div_mod_to_equations; lia].
  set (x := ua / 1000000) in *. set (y := ub / 1000000) in *. clearbody x y. Z.div_mod_to_equations. lia.
Qed.

(** ** [datetime.fromisoformat]

    For the texts [isoformat] writes of an aware instant: six digits of a
    fraction or none, and an offset of hours and minutes. *)

Fixpoint read_number (n : nat) (value : Z) (s : string) : option (Z * string) :=
  match n, s with
  | O, _ => Some (value, s)
  | S n', String c s' =>
      if ((48 <=? code c) && (code c <=? 57))%N
      then read_number n' (value * 10 + Z.of_N (code c - 48)) s' else None
  | S _, EmptyString => None
  end.
Definition expect (c : ascii) (s : string) : option string :=
  match s with String c' s' => if c' == c then Some s' else None | EmptyString => None end.

Definition read_date (s : string) : option (Z * Z * Z * string) :=
  '(year, s) ← read_number 4 0 s; s ← expect "-" s;
  '(month, s) ← read_number 2 0 s; s ← expect "-" s;
  '(day, s) ← read_number 2 0 s; Some (year, month, day, s).
Definition read_time (s : string) : option (Z * Z * Z * string) :=
  '(hour, s) ← read_number 2 0 s; s ← expect ":" s;
  '(minute, s) ← read_number 2 0 s; s ← expect ":" s;
  '(second, s) ← read_number 2 0 s; Some (hour, minute, second, s).
Definition read_fraction (s : string) : option (Z * string) :=
  match expect "." s with Some s' => read_number 6 0 s' | None => Some (0, s) end.
Definition read_offset (s : string) : option Z :=
  match s with
  | EmptyString => None
  | String c s =>
      sign ← (if c == "+"%char then Some 1 else if c == "-"%char then Some (-1) else None);
      '(hours, s) ← read_number 2 0 s; s ← expect ":" s;
      '(minutes, s) ← read_number 2 0 s;
      if (s == EmptyString) && (hours <? 24) && (minutes <? 60) then Some (sign * (hours * 60 + minutes)) else None
  end.

Definition from_isoformat (s : string) : option Z :=
  '(year, month, day, s) ← read_date s; s ← expect "T" s;
  '(hour, minute, second, s) ← read_time s;
  '(fraction, s) ← read_fraction s;
  offset ← read_offset s;
  let days := days_of_civil (year, month, day) in
  if (1 <=? year) && (civil days == (year, month, day)) && (hour <? 24) && (minute <? 60) && (second <? 60) then
    Some ((((days * 24 + hour) * 60 + minute - offset) * 60 + second) * 1000000 + fraction)
  else None.

Example from_isoformat_sample : from_isoformat "2025-12-31T23:59:59.500000+00:00" = Some 1767225599500000.
Proof. by vm_compute. Qed.
Example from_isoformat_bad :
  from_isoformat <$> ["2025-02-29T00:00:00+00:00"; "2025-01-01T24:00:00+00:00"; "2025-01-01T00:00:00"] = [None; None; None].
Proof. by vm_compute. Qed.

Lemma read_number_add n m value s :
  read_number (n + m) value s = '(v, s') ← read_number n value s; read_number m v s'.
Proof. revert value s. induction n as [|n IH]; intros value s; [done|]. destruct s as [|c s]; [done|]. simpl. by case_match. Qed.

Lemma read_pad n value z s :
  0 <= z < 10 ^ Z.of_nat n → read_number n value (pad n z +:+ s) = Some (value * 10 ^ Z.of_nat n + z, s).
Proof.
  revert z s. induction n as [|n IH]; intros z s Hz.
  - simpl in *. do 2 f_equal. lia.
  - rewrite Nat2Z.inj_succ, Z.pow_succ_r in Hz |- * by lia.
    replace (S n) with (n + 1)%nat by lia. rewrite read_number_add.
    replace (n + 1)%nat with (S n) by lia. cbn [pad]. rewrite text_app_assoc, IH by (Z.div_mod_to_equations; lia).
    pose proof (Z.mod_pos_bound z 10 ltac:(done)) as Hd. simpl. unfold digit, code.
    rewrite N_ascii_embedding by lia.
    replace ((48 <=? 48 + Z.to_N (z mod 10)) && (48 + Z.to_N (z mod 10) <=? 57))%N with true
      by (symmetry; apply andb_true_iff; split; apply N.leb_le; lia).
    do 2 f_equal. Z.div_mod_to_equations. lia.
Qed.
Lemma expect_char c s : expect c (String c s) = Some s.
Proof. simpl. by rewrite bool_decide_eq_true_2. Qed.

Lemma civil_year days year month day :
  -719162 <= days -> civil days = (year, month, day) → year ≠ 0.
Proof.
  intros H Hc ->. apply civil_spec in Hc as (Hdays & Hm & Hd & _). revert Hdays. unfold days_of_civil, day_of_date, days_per_era.
  destruct (Z.leb_spec month 2); intros Hdays; Z.div_mod_to_equations; lia.
Qed.

Lemma read_pads_char n m y z c s {A} (k : Z → Z → string → option A) :
  0 <= y < 10 ^ Z.of_nat n → 0 <= z < 10 ^ Z.of_nat m →
  ('(a, t) ← read_number n 0 (pad n y +:+ String c (pad m z +:+ s)); t ← expect c t;
   '(b, t) ← read_number m 0 t; k a b t) = k y z s.
Proof.
  intros Hy Hz. rewrite read_pad by done. cbn -[read_number pad expect Z.mul Z.add Z.pow].
  rewrite expect_char. cbn -[read_number pad Z.mul Z.add Z.pow]. rewrite read_pad by done.
  cbn -[Z.mul Z.add Z.pow]. by rewrite !Z.mul_0_l, !Z.add_0_l.
Qed.
Lemma read_date_pad year month day s :
  0 <= year <= 9999 → 0 <= month < 100 → 0 <= day < 100 →
  read_date (pad 4 year +:+ "-" +:+ pad 2 month +:+ "-" +:+ pad 2 day +:+ s) = Some (year, month, day, s).
Proof.
  intros Hy Hm Hd. unfold read_date. change ("-" +:+ ?x) with (String "-" x).
  rewrite (read_pads_char 4 2) by (simpl; lia).
  change ("-" +:+ ?x) with (String "-" x). rewrite expect_char. cbn -[read_number pad].
  by rewrite read_pad by (simpl; lia).
Qed.
Lemma read_time_pad hour minute second s :
  0 <= hour < 100 → 0 <= minute < 100 → 0 <= second < 100 →
  read_time (pad 2 hour +:+ ":" +:+ pad 2 minute +:+ ":" +:+ pad 2 second +:+ s) = Some (hour, minute, second, s).
Proof.
  intros Hy Hm Hd. unfold read_time. change (":" +:+ ?x) with (String ":" x).
  rewrite (read_pads_char 2 2) by (simpl; lia). change (":" +:+ ?x) with (String ":" x).
  rewrite expect_char. cbn -[read_number pad]. by rewrite read_pad by (simpl; lia).
Qed.
Lemma read_fraction_pad fraction s :
  0 <= fraction < 1000000 → expect "." s = None →
  read_fraction ((if fraction =? 0 then "" else "." +:+ pad 6 fraction) +:+ s) = Some (fraction, s).
Proof.
  intros Hf Hs. unfold read_fraction. destruct (Z.eqb_spec fraction 0) as [->|Hne].
  - change ("" +:+ s) with s. by rewrite Hs.
  - rewrite text_app_assoc. change ("." +:+ ?t) with (String "." t). rewrite expect_char.
    by rewrite read_pad by (simpl; lia).
Qed.

(** The instant is read back from the text of it. *)
Lemma from_utc_isoformat t : representable t → from_isoformat (utc_isoformat t) = Some t.
Proof.
  unfold representable. intros Ht. unfold from_isoformat, utc_isoformat.
  destruct (civil (t / microseconds_per_day)) as [[y m] d] eqn:E.
  pose proof E as Hc. apply civil_spec in Hc as (Hdays & Hm & Hd & Hy).
  assert (-719162 <= t / microseconds_per_day <= 2932896) as Hr by (unfold microseconds_per_day; Z.div_mod_to_equations; lia).
  specialize (Hy Hr). pose proof (civil_year _ _ _ _ (proj1 Hr) E) as Hy0. cbv zeta.
  pose proof (Z.mod_pos_bound t microseconds_per_day ltac:(done)) as Hu.
  pose proof (Z.div_mod t microseconds_per_day ltac:(done)) as Hv.
  set (days := t / microseconds_per_day) in *. set (us := t mod microseconds_per_day) in *. clearbody days us.
  unfold microseconds_per_day in *.
  assert (0 <= us mod 1000000 < 1000000) by (apply Z.mod_pos_bound; done).
  assert (us = 1000000 * (us / 1000000) + us mod 1000000) by (apply Z.div_mod; done).
  assert (0 <= us / 1000000 < 86400) by (Z.div_mod_to_equations; lia).
  set (s := us / 1000000) in *. set (f := us mod 1000000) in *. clearbody s f. subst us.
  assert (0 <= s / 3600 < 24) by (Z.div_mod_to_equations; lia).
  assert (0 <= s / 60 mod 60 < 60) by (apply Z.mod_pos_bound; done).
  assert (0 <= s mod 60 < 60) by (apply Z.mod_pos_bound; done).
  rewrite read_date_pad by lia. cbn -[expect read_time read_fraction read_offset civil days_of_civil pad Z.mul Z.add].
  change ("T" +:+ ?x) with (String "T" x). rewrite expect_char. cbn -[read_time read_fraction read_offset civil days_of_civil pad Z.mul Z.add].
  rewrite read_time_pad by lia. cbn -[read_fraction read_offset civil days_of_civil pad Z.mul Z.add].
  rewrite read_fraction_pad by done. cbn -[read_offset civil days_of_civil Z.mul Z.add].
  replace (read_offset "+00:00") with (Some 0) by (by vm_compute). cbn -[civil days_of_civil Z.mul Z.add Z.sub]. rewrite Hdays, E.
  rewrite bool_decide_eq_true_2 by done.
  replace (1 <=? y) with true by (symmetry; apply Z.leb_le; lia). cbn -[Z.mul Z.add].
  rewrite !(proj2 (Z.ltb_lt _ _)) by lia. cbn -[Z.mul Z.add]. f_equal. subst t. Z.div_mod_to_equations. lia.
Qed.
