(* ===== verification/Sha256.v ===== *)
(** * SHA-256

    [hashlib.sha256(data).hexdigest()] on the UTF-8 encoding of a text, over
    32-bit words kept below [2^32]. The digests identify requests and derive
    row identifiers; nothing proved here assumes the function injective. *)

From S2P Require Import Prelude PyText.
#[local] Open Scope N_scope.

Definition word (n : N) : N := n mod 2 ^ 32.
Definition rotr (k n : N) : N :=
  N.lor (N.shiftr n k) (word (N.shiftl n (32 - k))).
Definition add32 (a b : N) : N := word (a + b).

(** The constants, from their definition: the first 32 bits of the fractional
    parts of the cube roots of the first 64 primes, and of the square roots of
    the first 8. *)
Definition prime (n : N) : bool :=
  forallb (λ k, negb (n mod N.of_nat k =? 0)) (seq 2 (N.to_nat (N.sqrt n) - 1)).
Definition primes : list N :=
  Eval vm_compute in take 64 (List.filter prime (N.of_nat <$> seq 2 310)).

(** The greatest [r] with [r ^ 3 <= n], bit by bit from bit [bits - 1] down. *)
Fixpoint cube_root (bits : nat) (n r : N) : N :=
  match bits with
  | O => r
  | S b =>
      let r' := r + 2 ^ N.of_nat b in
      cube_root b n (if r' * r' * r' <=? n then r' else r)
  end.

Definition round_constants : list N :=
  Eval vm_compute in (λ p, word (cube_root 40 (p * 2 ^ 96) 0)) <$> primes.
Definition initial_hash : list N :=
  Eval vm_compute in (λ p, word (N.sqrt (p * 2 ^ 64))) <$> take 8 primes.

(** [s.encode("utf-8")] for code points below 256. *)
Definition utf8_char (c : ascii) : list N :=
  let n := code c in
  if n <? 128 then [n] else [192 + n / 64; 128 + n mod 64].
Fixpoint utf8 (s : string) : list N :=
  match s with
  | EmptyString => []
  | String c s' => (utf8_char c ++ utf8 s')%list
  end.

(** Big-endian bytes of [n], [k] of them. *)
Fixpoint be_bytes (k : nat) (n : N) : list N :=
  match k with
  | O => []
  | S k' => (be_bytes k' (n / 256) ++ [n mod 256])%list
  end.

Definition padding (length_bytes : nat) : list N :=
  let zeros := Z.to_nat ((55 - Z.of_nat length_bytes) mod 64) in
  ((128 :: replicate zeros 0) ++ be_bytes 8 (8 * N.of_nat length_bytes))%list.

Fixpoint words_of (l : list N) : list N :=
  match l with
  | a :: b :: c :: d :: l' =>
      (N.shiftl a 24 + N.shiftl b 16 + N.shiftl c 8 + d) :: words_of l'
  | _ => []
  end.

Definition small_sigma (r1 r2 s : N) (x : N) : N :=
  N.lxor (rotr r1 x) (N.lxor (rotr r2 x) (N.shiftr x s)).
Definition big_sigma (r1 r2 r3 : N) (x : N) : N :=
  N.lxor (rotr r1 x) (N.lxor (rotr r2 x) (rotr r3 x)).

(** The message schedule, newest word first. *)
Fixpoint extend_schedule (fuel : nat) (w : list N) : list N :=
  match fuel with
  | O => w
  | S f =>
      let at_ (i : nat) := nth i w 0 in
      let next := add32 (add32 (small_sigma 17 19 10 (at_ 1%nat)) (at_ 6%nat))
                        (add32 (small_sigma 7 18 3 (at_ 14%nat)) (at_ 15%nat)) in
      extend_schedule f (next :: w)
  end.
Definition schedule (block : list N) : list N :=
  rev (extend_schedule 48 (rev block)).

Definition round (h : list N) (kw : N * N) : list N :=
  match h with
  | [a; b; c; d; e; f; g; hh] =>
      let ch := N.lxor (N.land e f) (N.land (N.lxor e (2 ^ 32 - 1)) g) in
      let maj := N.lxor (N.land a b) (N.lxor (N.land a c) (N.land b c)) in
      let t1 := add32 (add32 (add32 hh (big_sigma 6 11 25 e)) (add32 ch kw.1)) kw.2 in
      let t2 := add32 (big_sigma 2 13 22 a) maj in
      [add32 t1 t2; a; b; c; add32 d t1; e; f; g]
  | _ => h
  end.

Definition compress (h block : list N) : list N :=
  zip_with add32 h (fold_left round (zip round_constants (schedule block)) h).

(** [fuel] bounds the number of 16-word blocks. *)
Fixpoint digest_blocks (fuel : nat) (h : list N) (w : list N) : list N :=
  match fuel, w with
  | O, _ | _, [] => h
  | S f, _ => digest_blocks f (compress h (take 16 w)) (drop 16 w)
  end.

Definition sha256_words (data : list N) : list N :=
  let w := words_of (data ++ padding (length data))%list in
  digest_blocks (length w) initial_hash w.

Fixpoint hex_of (l : list N) : string :=
  match l with
  | [] => EmptyString
  | b :: l' => String (hex_digit (b / 16)) (String (hex_digit (b mod 16)) (hex_of l'))
  end.

(** [hashlib.sha256(text.encode("utf-8")).hexdigest()] *)
Definition sha256_hex (text : string) : string :=
  hex_of (mjoin (be_bytes 4 <$> sha256_words (utf8 text))).

Example sha256_abc :
  sha256_hex "abc" =
  "ba7816bf8f01cfea414140de5dae2223b00361a396177a9cb410ff61f20015ad"%string.
Proof. vm_compute. reflexivity. Qed.

Example sha256_two_blocks :
  sha256_hex "abcdbcdecdefdefgefghfghighijhijkijkljklmklmnlmnomnopnopq" =
  "248d6a61d20638b8e5c026930c3e6039a33ce45964ff2167f6ecedd419db06c1"%string.
Proof. vm_compute. reflexivity. Qed.

(** Eight words come out whatever goes in, so a digest is 64 characters. *)
Lemma length_round h kw : length h = 8%nat → length (round h kw) = 8%nat.
Proof.
  intros H. do 9 (destruct h as [|? h]; simpl in H |- *; try discriminate; try done).
Qed.

Lemma length_rounds l h : length h = 8%nat → length (fold_left round l h) = 8%nat.
Proof.
  revert h. induction l as [|kw l IH]; intros h H; simpl; [done|].
  by apply IH, length_round.
Qed.

Lemma length_compress h b : length h = 8%nat → length (compress h b) = 8%nat.
Proof.
  intros H. unfold compress. rewrite length_zip_with, (length_rounds _ h H). lia.
Qed.

Lemma length_digest_blocks n h w :
  length h = 8%nat → length (digest_blocks n h w) = 8%nat.
Proof.
  revert h w. induction n as [|n IH]; intros h [|x w] H; simpl; try done.
  by apply IH, length_compress.
Qed.

Lemma length_hex_of l : String.length (hex_of l) = (2 * length l)%nat.
Proof. induction l; simpl; lia. Qed.

Lemma length_be_bytes k n : length (be_bytes k n) = k.
Proof. revert n. induction k as [|k IH]; intros n; simpl; [done|]. rewrite length_app, IH. simpl. lia. Qed.

Lemma length_words_bytes l : length (mjoin (be_bytes 4 <$> l)) = (4 * length l)%nat.
Proof.
  induction l as [|x l IH]; [done|]. rewrite fmap_cons.
  change (mjoin (?a :: ?b)) with (a ++ mjoin b)%list.
  rewrite length_app, IH, length_be_bytes. simpl. lia.
Qed.

Lemma length_sha256_hex text : String.length (sha256_hex text) = 64%nat.
Proof.
  unfold sha256_hex. rewrite length_hex_of, length_words_bytes.
  unfold sha256_words. by rewrite length_digest_blocks.
Qed.

(** What holds of the sixteen hexadecimal digits holds of every character of
    a digest. *)
Definition hex_alphabet (p : ascii → bool) : bool :=
  forallb (λ k, p (hex_digit (N.of_nat k))) (seq 0 16).

Lemma hex_digit_alphabet p n : hex_alphabet p = true → n < 16 → p (hex_digit n) = true.
Proof.
  unfold hex_alphabet. rewrite forallb_forall. intros H Hn. specialize (H (N.to_nat n)).
  rewrite List.in_seq, N2Nat.id in H. apply H. lia.
Qed.

Lemma strip_solid s : all_chars (λ c, negb (py_isspace c)) s = true → strip s = s.
Proof.
  unfold strip. intros H.
  assert (lstrip s = s) as ->.
  { destruct s as [|c s]; [done|]. simpl in *. by destruct (py_isspace c). }
  induction s as [|c s IH]; [done|]. simpl in *. apply andb_true_iff in H as [Hc H].
  rewrite IH by done. destruct s; [|done]. by destruct (py_isspace c).
Qed.

Lemma be_bytes_bound k n b : b ∈ be_bytes k n → b < 256.
Proof.
  revert n. induction k as [|k IH]; intros n; simpl; [set_solver|].
  intros [Hb| ->%list_elem_of_singleton]%elem_of_app; [by eapply IH|].
  apply N.mod_lt. lia.
Qed.

Lemma hex_of_alphabet p l :
  hex_alphabet p = true → Forall (λ b, b < 256) l → all_chars p (hex_of l) = true.
Proof.
  intros Hp. induction 1 as [|b l Hb _ IH]; [done|]. simpl.
  rewrite IH, !(hex_digit_alphabet p); [done|done|..|done|].
  - apply N.mod_lt. lia.
  - apply N.Div0.div_lt_upper_bound. lia.
Qed.

Lemma sha256_hex_alphabet p text : hex_alphabet p = true → all_chars p (sha256_hex text) = true.
Proof.
  intros Hp. apply (hex_of_alphabet p); [done|]. generalize (sha256_words (utf8 text)). intros l.
  induction l as [|x l IH]; [constructor|]. rewrite fmap_cons.
  change (mjoin (?a :: ?b)) with (a ++ mjoin b)%list. apply Forall_app. split; [|done].
  apply Forall_forall. intros b. apply be_bytes_bound.
Qed.

(** A digest has no white space, so stripping it changes nothing. *)
Lemma strip_sha256_hex text : strip (sha256_hex text) = sha256_hex text.
Proof. apply strip_solid. by apply (sha256_hex_alphabet (λ c, negb (py_isspace c))). Qed.

Lemma sha256_hex_nonempty text : sha256_hex text ≠ ""%string.
Proof. intros H. apply (f_equal String.length) in H. by rewrite length_sha256_hex in H. Qed.
