(* ===== verification/Base64.v ===== *)
(** * Byte encodings

    [base64.urlsafe_b64encode] and [urlsafe_b64decode] (the scanner of
    [binascii.a2b_base64] in its default mode, which skips foreign characters),
    and decoding of UTF-8 into the texts of the model, with their round
    trips. *)

From S2P Require Import Prelude PyText Sha256.
#[local] Open Scope string_scope.
#[local] Arguments String.append : simpl nomatch.

(** ** URL-safe base64 *)

Section Base64.
Local Open Scope N_scope.

(** The digit of a value below 64. *)
Definition b64_char (v : N) : ascii :=
  ascii_of_N
    (if v <? 26 then 65 + v
     else if v <? 52 then 97 + (v - 26)
     else if v <? 62 then 48 + (v - 52)
     else if v =? 62 then 45 else 95).

Definition pad_char : ascii := ascii_of_N 61.

(** [b64decode] maps [-_] to [+/] first, so both spellings are digits. *)
Definition b64_value (c : ascii) : option N :=
  let n := code c in
  if (65 <=? n) && (n <=? 90) then Some (n - 65)
  else if (97 <=? n) && (n <=? 122) then Some (n - 97 + 26)
  else if (48 <=? n) && (n <=? 57) then Some (n - 48 + 52)
  else if (n =? 45) || (n =? 43) then Some 62
  else if (n =? 95) || (n =? 47) then Some 63
  else None.

Definition digit (v : N) (s : string) : string := String (b64_char v) s.

#[local] Arguments digit : simpl never.

Fixpoint b64encode (s : string) : string :=
  match s with
  | EmptyString => EmptyString
  | String a EmptyString =>
      digit (code a / 4) (digit (code a mod 4 * 16) (String pad_char (String pad_char "")))
  | String a (String b EmptyString) =>
      digit (code a / 4) (digit (code a mod 4 * 16 + code b / 16)
        (digit (code b mod 16 * 4) (String pad_char "")))
  | String a (String b (String c s')) =>
      digit (code a / 4) (digit (code a mod 4 * 16 + code b / 16)
        (digit (code b mod 16 * 4 + code c / 64) (digit (code c mod 64) (b64encode s'))))
  end.

(** [quad]: digits seen in the current group, [left]: the bits carried over,
    [pads]: the padding characters just seen. *)
Fixpoint a2b (s : string) (quad left pads : N) : option string :=
  match s with
  | EmptyString => if quad =? 0 then Some EmptyString else None
  | String c s' =>
      if bool_decide (c = pad_char) then
        if (2 <=? quad) && (4 <=? quad + (pads + 1)) then Some EmptyString
        else a2b s' quad left (if 2 <=? quad then pads + 1 else pads)
      else match b64_value c with
        | None => a2b s' quad left pads
        | Some v =>
            match quad with
            | 0 => a2b s' 1 v 0
            | 1 => String (ascii_of_N (left * 4 + v / 16)) <$> a2b s' 2 (v mod 16) 0
            | 2 => String (ascii_of_N (left * 16 + v / 4)) <$> a2b s' 3 (v mod 4) 0
            | _ => String (ascii_of_N (left * 64 + v)) <$> a2b s' 0 0 0
            end
        end
  end.

(** A non-ASCII text is refused before it is scanned. *)
Definition b64decode (s : string) : option string :=
  if all_chars (λ c, code c <? 128) s then a2b s 0 0 0 else None.

Lemma b64_char_ok v : v < 64 →
  b64_value (b64_char v) = Some v ∧ b64_char v ≠ pad_char ∧ (code (b64_char v) <? 128) = true.
Proof.
  intros Hv.
  assert (forallb (λ n : nat,
    let v := N.of_nat n in
    bool_decide (b64_value (b64_char v) = Some v ∧ b64_char v ≠ pad_char) &&
    (code (b64_char v) <? 128)) (seq 0 64) = true) as H by (vm_compute; done).
  rewrite forallb_forall in H. specialize (H (N.to_nat v)).
  rewrite List.in_seq, N2Nat.id in H. cbn zeta in H.
  apply andb_true_iff in H as [[H1 H2]%bool_decide_eq_true H3]; [done|lia].
Qed.

Lemma a2b_digit v s quad left pads : v < 64 →
  a2b (digit v s) quad left pads =
    match quad with
    | 0 => a2b s 1 v 0
    | 1 => String (ascii_of_N (left * 4 + v / 16)) <$> a2b s 2 (v mod 16) 0
    | 2 => String (ascii_of_N (left * 16 + v / 4)) <$> a2b s 3 (v mod 4) 0
    | _ => String (ascii_of_N (left * 64 + v)) <$> a2b s 0 0 0
    end.
Proof.
  intros Hv. destruct (b64_char_ok v Hv) as (H1 & H2 & _). simpl.
  by rewrite bool_decide_eq_false_2, H1.
Qed.

Lemma code_bound c : code c < 256.
Proof. apply N_ascii_bounded. Qed.

Lemma ascii_code n c : n = code c → ascii_of_N n = c.
Proof. intros ->. apply ascii_N_embedding. Qed.

Lemma three_chars (P : string → Prop) :
  P "" → (∀ a, P (String a "")) → (∀ a b, P (String a (String b ""))) →
  (∀ a b c s, P s → P (String a (String b (String c s)))) → ∀ s, P s.
Proof.
  intros H0 H1 H2 H3 s.
  enough (P s ∧ (∀ a, P (String a s)) ∧ ∀ a b, P (String a (String b s))) by tauto.
  induction s as [|c s (IH1 & IH2 & IH3)]; [auto|]. split_and!; auto.
Qed.

Lemma a2b_two_pads l : a2b (String pad_char (String pad_char "")) 2 l 0 = Some "".
Proof. done. Qed.

Lemma a2b_one_pad l : a2b (String pad_char "") 3 l 0 = Some "".
Proof. done. Qed.

Ltac bits := zify; Z.to_euclidean_division_equations; lia.

Lemma b64_round_trip s : b64decode (b64encode s) = Some s.
Proof.
  unfold b64decode.
  enough (all_chars (λ c, code c <? 128) (b64encode s) = true ∧ a2b (b64encode s) 0 0 0 = Some s)
    as [-> ->] by done.
  assert (∀ v s', v < 64 → all_chars (λ c, code c <? 128) (digit v s') =
    all_chars (λ c, code c <? 128) s') as Hd.
  { intros v s' Hv. destruct (b64_char_ok v Hv) as (_ & _ & H). simpl. by rewrite H. }
  induction s as [|a|a b|a b c s [IH1 IH2]] using three_chars; [done|..].
  all: pose proof (code_bound a); try pose proof (code_bound b); try pose proof (code_bound c).
  all: simpl b64encode; split.
  all: rewrite ?Hd, ?a2b_digit by bits.
  all: rewrite ?IH1, ?IH2, ?a2b_two_pads, ?a2b_one_pad; try done.
  all: cbn -[N.div N.modulo N.add N.mul code].
  all: repeat match goal with
    | |- Some _ = Some _ => f_equal
    | |- String _ _ = String _ _ => f_equal
    | |- ascii_of_N _ = _ => apply ascii_code; bits
    end.
Qed.
End Base64.

Ltac bits := zify; Z.to_euclidean_division_equations; lia.

(** ** UTF-8 *)

(** [text.encode()], one [ascii] per byte. *)
Fixpoint encode (s : string) : string :=
  match s with
  | EmptyString => EmptyString
  | String c s' =>
      let n := code c in
      if (n <? 128)%N then String c (encode s')
      else String (ascii_of_N (192 + n / 64)) (String (ascii_of_N (128 + n mod 64)) (encode s'))
  end.

(** [data.decode()], for encodings of code points below 256. *)
Fixpoint decode (s : string) : option string :=
  match s with
  | EmptyString => Some EmptyString
  | String c s' =>
      let n := code c in
      if (n <? 128)%N then String c <$> decode s'
      else if ((n =? 194) || (n =? 195))%N then
        match s' with
        | String d s'' =>
            let m := code d in
            if ((128 <=? m) && (m <? 192))%N
            then String (ascii_of_N ((n - 192) * 64 + (m - 128))) <$> decode s''
            else None
        | EmptyString => None
        end
      else None
  end.

Lemma utf8_round_trip s : decode (encode s) = Some s.
Proof.
  induction s as [|c s IH]; [done|]. simpl.
  destruct (N.ltb_spec (code c) 128) as [H|H].
  - simpl. destruct (N.ltb_spec (code c) 128); [|lia]. by rewrite IH.
  - pose proof (code_bound c) as Hb. simpl.
    assert (∀ n, (n < 256)%N → code (ascii_of_N n) = n) as Hc by apply N_ascii_embedding.
    rewrite !Hc by bits.
    destruct (N.ltb_spec (192 + code c / 64) 128); [bits|].
    destruct (_ || _)%N eqn:E; [|apply orb_false_iff in E; rewrite !N.eqb_neq in E; bits].
    destruct (_ && _)%N eqn:E'; [|apply andb_false_iff in E';
      rewrite N.leb_gt, N.ltb_ge in E'; bits].
    rewrite IH. simpl. do 2 f_equal. apply ascii_code. bits.
Qed.
