(* ===== verification/Json.v ===== *)
(** * JSON values

    The values [json.dumps] and [json.loads] exchange with the stores, without
    floating-point numbers, and the canonical text
    [json.dumps(v, separators=(",", ":"), sort_keys=True)] that request
    hashes and content digests are taken of. *)

From S2P Require Import Prelude Sqlite PyText Sha256.
From stdpp Require Export pretty.
#[local] Open Scope string_scope.
#[local] Open Scope list_scope.

#[warnings="-register-all"]
Inductive json : Type :=
  | JNull
  | JBool (b : bool)
  | JInt (z : Z)
  | JStr (s : string)
  | JArr (l : list json)
  | JObj (l : list (string * json)).

Section JsonInd.
Variable P : json → Prop.
Hypothesis Hnull : P JNull.
Hypothesis Hbool : ∀ b, P (JBool b).
Hypothesis Hint : ∀ z, P (JInt z).
Hypothesis Hstr : ∀ s, P (JStr s).
Hypothesis Harr : ∀ l, Forall P l → P (JArr l).
Hypothesis Hobj : ∀ l, Forall (λ kv, P kv.2) l → P (JObj l).

Fixpoint json_nested_ind (v : json) : P v :=
  match v with
  | JNull => Hnull
  | JBool b => Hbool b
  | JInt z => Hint z
  | JStr s => Hstr s
  | JArr l =>
      Harr l ((fix go l : Forall P l :=
        match l with
        | [] => List.Forall_nil _
        | x :: l' => List.Forall_cons _ _ _ (json_nested_ind x) (go l')
        end) l)
  | JObj l =>
      Hobj l ((fix go l : Forall (λ kv, P kv.2) l :=
        match l with
        | [] => List.Forall_nil _
        | kv :: l' => List.Forall_cons _ _ _ (json_nested_ind kv.2) (go l')
        end) l)
  end.
End JsonInd.

#[global] Instance json_eq_dec : EqDecision json.
Proof.
  refine (fix go (v w : json) : Decision (v = w) :=
    match v, w with
    | JNull, JNull => left eq_refl
    | JBool b, JBool c => cast_if (decide (b = c))
    | JInt y, JInt z => cast_if (decide (y = z))
    | JStr s, JStr t => cast_if (decide (s = t))
    | JArr l, JArr m =>
        cast_if (@decide (l = m) (@list_eq_dec _ go l m))
    | JObj l, JObj m =>
        cast_if (@decide (l = m)
          (@list_eq_dec _ (@prod_eq_dec _ _ _ go) l m))
    | _, _ => right _
    end); clear go; abstract congruence.
Defined.

(** [d.get(key)] *)
Fixpoint assoc {A} (key : string) (l : list (string * A)) : option A :=
  match l with
  | [] => None
  | (k, v) :: l' => if k == key then Some v else assoc key l'
  end.

(** [d[key] = v]: in place when the key is there, at the end otherwise. *)
Fixpoint assoc_set {A} (key : string) (v : A) (l : list (string * A)) : list (string * A) :=
  match l with
  | [] => [(key, v)]
  | (k, w) :: l' => if k == key then (k, v) :: l' else (k, w) :: assoc_set key v l'
  end.

(** [d.update(patch)] *)
Definition dict_update {A} (d patch : list (string * A)) : list (string * A) :=
  foldl (λ acc kv, assoc_set kv.1 kv.2 acc) d patch.

Definition jget (key : string) (v : json) : option json :=
  match v with JObj l => assoc key l | _ => None end.

(** ** [json.dumps] *)

Definition quote : string := String (ascii_of_N 34) EmptyString.
Definition backslash : string := String (ascii_of_N 92) EmptyString.

Definition unicode_escape (n : N) : string :=
  backslash +:+ "u00" +:+ hex_of [n].

Definition escape_char (ensure_ascii : bool) (c : ascii) : string :=
  let n := code c in
  if (n =? 34)%N then backslash +:+ quote
  else if (n =? 92)%N then backslash +:+ backslash
  else if (n =? 8)%N then backslash +:+ "b"
  else if (n =? 9)%N then backslash +:+ "t"
  else if (n =? 10)%N then backslash +:+ "n"
  else if (n =? 12)%N then backslash +:+ "f"
  else if (n =? 13)%N then backslash +:+ "r"
  else if (n <? 32)%N then unicode_escape n
  else if (ensure_ascii && (126 <? n)%N)%bool then unicode_escape n
  else String c EmptyString.

Fixpoint escape (ensure_ascii : bool) (s : string) : string :=
  match s with
  | EmptyString => EmptyString
  | String c s' => escape_char ensure_ascii c +:+ escape ensure_ascii s'
  end.

Definition dump_text (ensure_ascii : bool) (s : string) : string :=
  quote +:+ escape ensure_ascii s +:+ quote.

(** Members are written in the order of their keys. *)
Definition key_le {A} (x y : string * A) : bool := text_le x.1 y.1.

Fixpoint dumps (ensure_ascii : bool) (v : json) : string :=
  match v with
  | JNull => "null"
  | JBool true => "true"
  | JBool false => "false"
  | JInt z => pretty z
  | JStr s => dump_text ensure_ascii s
  | JArr l => "[" +:+ join_text "," (map (dumps ensure_ascii) l) +:+ "]"
  | JObj l =>
      "{" +:+
      join_text ","
        (map (λ kt, dump_text ensure_ascii kt.1 +:+ ":" +:+ kt.2)
           (order_by key_le
              (map (λ kv, (kv.1, dumps ensure_ascii kv.2)) l)))
      +:+ "}"
  end.

Example dumps_sorted :
  dumps true (JObj [("b", JInt 2); ("a", JArr [JNull; JBool true; JStr "x"])]) =
  "{" +:+ quote +:+ "a" +:+ quote +:+ ":[null,true," +:+ quote +:+ "x" +:+ quote
  +:+ "]," +:+ quote +:+ "b" +:+ quote +:+ ":2}".
Proof. vm_compute. reflexivity. Qed.

(** ** Lemmas *)

Lemma assoc_set_same {A} key (v : A) l : assoc key (assoc_set key v l) = Some v.
Proof.
  induction l as [|[k w] l IH]; simpl.
  - by rewrite bool_decide_eq_true_2.
  - destruct (bool_decide_reflect (k = key)) as [->|Hk]; simpl.
    + by rewrite bool_decide_eq_true_2.
    + by rewrite bool_decide_eq_false_2.
Qed.

Lemma assoc_set_other {A} key key' (v : A) l :
  key ≠ key' → assoc key' (assoc_set key v l) = assoc key' l.
Proof.
  intros Hne. induction l as [|[k w] l IH]; simpl.
  - by rewrite bool_decide_eq_false_2.
  - destruct (bool_decide_reflect (k = key)) as [->|Hk]; simpl.
    + by rewrite !bool_decide_eq_false_2.
    + by rewrite IH.
Qed.

Lemma dict_update_other {A} key (d patch : list (string * A)) :
  assoc key patch = None → assoc key (dict_update d patch) = assoc key d.
Proof.
  unfold dict_update. revert d. induction patch as [|[k w] patch IH]; intros d; simpl; [done|].
  destruct (bool_decide_reflect (k = key)) as [->|Hk]; [done|].
  intros H. rewrite IH by done. by apply assoc_set_other.
Qed.

(** Updating keeps the old keys in place and adds the new ones at the end. *)
Lemma assoc_set_new {A} key (v : A) l : key ∉ l.*1 → assoc_set key v l = l ++ [(key, v)].
Proof.
  induction l as [|[k w] l IH]; simpl; [done|]. intros Hk.
  rewrite bool_decide_eq_false_2 by set_solver. rewrite IH by set_solver. done.
Qed.

Lemma assoc_set_keys {A} key (v : A) l k :
  k ∈ (assoc_set key v l).*1 ↔ k = key ∨ k ∈ l.*1.
Proof.
  induction l as [|[k' w] l IH]; simpl; [set_solver|].
  case_bool_decide as Hk; simpl; set_solver.
Qed.

Lemma assoc_set_NoDup {A} key (v : A) l : NoDup l.*1 → NoDup (assoc_set key v l).*1.
Proof.
  induction l as [|[k w] l IH]; simpl; [intros _; apply NoDup_singleton|].
  intros [Hk Hl]%NoDup_cons. case_bool_decide as Heq; simpl; apply NoDup_cons; [by subst|].
  split; [|by apply IH]. rewrite assoc_set_keys. by intros [?|?].
Qed.

Lemma assoc_set_elem {A} key (v : A) l kv :
  kv ∈ assoc_set key v l → kv = (key, v) ∨ kv ∈ l.
Proof.
  induction l as [|[k w] l IH]; simpl; [set_solver|].
  case_bool_decide; subst; set_solver.
Qed.

Lemma dict_update_NoDup {A} (d patch : list (string * A)) :
  NoDup d.*1 → NoDup (dict_update d patch).*1.
Proof.
  unfold dict_update. revert d. induction patch as [|kv patch IH]; intros d Hd; [done|].
  simpl. by apply IH, assoc_set_NoDup.
Qed.

Lemma dict_update_elem {A} (d patch : list (string * A)) kv :
  kv ∈ dict_update d patch → kv ∈ d ∨ kv ∈ patch.
Proof.
  unfold dict_update. revert d. induction patch as [|[k v] patch IH]; intros d; simpl; [by left|].
  intros [H|H]%IH; [|set_solver]. apply assoc_set_elem in H as [->|H]; set_solver.
Qed.

Lemma dict_update_id {A} (d patch : list (string * A)) :
  NoDup (d ++ patch).*1 → dict_update d patch = d ++ patch.
Proof.
  unfold dict_update. revert d. induction patch as [|[k v] patch IH]; intros d Hd; simpl.
  - by rewrite app_nil_r.
  - assert (k ∉ d.*1) as Hk.
    { rewrite fmap_app in Hd. apply NoDup_app in Hd as (_ & Hd & _). intros Hin.
      by eapply Hd; [exact Hin|apply list_elem_of_here]. }
    rewrite (assoc_set_new _ _ _ Hk), IH; by rewrite <- app_assoc.
Qed.

(** The value [json.loads] reads back from the text with sorted keys. *)
Fixpoint canonical (v : json) : json :=
  match v with
  | JArr l => JArr (map canonical l)
  | JObj l => JObj (order_by key_le (map (λ kv, (kv.1, canonical kv.2)) l))
  | _ => v
  end.

Lemma key_le_total {A} (x y : string * A) : key_le x y = true ∨ key_le y x = true.
Proof. apply text_le_total. Qed.

Lemma canonical_idem v : canonical (canonical v) = canonical v.
Proof.
  induction v as [| | | |l IH|l IH] using json_nested_ind; try done; simpl; f_equal.
  - rewrite map_map. apply map_ext_in. intros x Hx%list_elem_of_In.
    rewrite Forall_forall in IH. auto.
  - set (g := λ kv : string * json, (kv.1, canonical kv.2)).
    assert (∀ kv, kv ∈ order_by key_le (map g l) → g kv = kv) as Hfix.
    { intros kv. rewrite order_by_perm. change (map g l) with (g <$> l).
      rewrite list_elem_of_fmap. intros (kv' & -> & Hkv).
      rewrite Forall_forall in IH. unfold g. simpl. by rewrite IH. }
    rewrite (map_ext_in g id), map_id; [|by intros kv Hkv%list_elem_of_In; apply Hfix].
    apply order_by_id, order_by_sorted, key_le_total.
Qed.

Definition is_object (v : json) : bool := match v with JObj _ => true | _ => false end.

Lemma is_object_canonical v : is_object (canonical v) = is_object v.
Proof. by destruct v. Qed.
