(* ===== verification/JsonParse.v ===== *)
(** * [json.loads]

    Python's scanner for the JSON values of [Json]: white space, literals,
    integers, texts with their escapes, lists, and mappings of which the last
    member of a name counts. A number with a fraction or an exponent and a
    character beyond 255 have no value here. The theorem is the round trip with
    [json.dumps]: what is read back is the value with its keys sorted. *)

From S2P Require Import Prelude Sqlite PyText Sha256 Json.
#[local] Open Scope string_scope.
#[local] Open Scope list_scope.
#[local] Open Scope Z_scope.

(** ** Texts *)

Definition json_space (c : ascii) : bool := bool_decide (code c ∈ [9; 10; 13; 32]%N).
Fixpoint skip_space (s : string) : string :=
  match s with
  | String c s' => if json_space c then skip_space s' else s
  | EmptyString => s
  end.

Definition hex_value (c : ascii) : option N :=
  let n := code c in
  if ((48 <=? n) && (n <=? 57))%N then Some (n - 48)%N
  else if ((97 <=? n) && (n <=? 102))%N then Some (n - 87)%N
  else if ((65 <=? n) && (n <=? 70))%N then Some (n - 55)%N
  else None.
Definition escaped (c : ascii) : option ascii :=
  match code c with
  | 34%N | 92%N | 47%N => Some c
  | 98%N => Some (ascii_of_N 8)
  | 116%N => Some (ascii_of_N 9)
  | 110%N => Some (ascii_of_N 10)
  | 102%N => Some (ascii_of_N 12)
  | 114%N => Some (ascii_of_N 13)
  | _ => None
  end.
Definition read_char (c : option ascii) (rest : option (string * string)) : option (string * string) :=
  match c, rest with Some c, Some (s, r) => Some (String c s, r) | _, _ => None end.

(** A text after its opening quote, up to the closing one. *)
Fixpoint read_text (s : string) : option (string * string) :=
  match s with
  | EmptyString => None
  | String c s1 =>
      if (code c =? 34)%N then Some (EmptyString, s1)
      else if (code c =? 92)%N then
        match s1 with
        | EmptyString => None
        | String e s2 =>
            if (code e =? 117)%N then
              match s2 with
              | String a (String b (String x (String y s6))) =>
                  read_char
                    (a ← hex_value a; b ← hex_value b; x ← hex_value x; y ← hex_value y;
                     let n := (((a * 16 + b) * 16 + x) * 16 + y)%N in
                     if (n <? 256)%N then Some (ascii_of_N n) else None)
                    (read_text s6)
              | _ => None
              end
            else read_char (escaped e) (read_text s2)
        end
      else if (code c <? 32)%N then None
      else read_char (Some c) (read_text s1)
  end.

(** ** Numbers *)

Definition digit_value (c : ascii) : option Z :=
  let n := code c in
  if ((48 <=? n) && (n <=? 57))%N then Some (Z.of_N (n - 48)) else None.
Fixpoint read_digits (n : Z) (s : string) : Z * string :=
  match s with
  | EmptyString => (n, s)
  | String c s' => match digit_value c with Some d => read_digits (n * 10 + d) s' | None => (n, s) end
  end.
(** What cannot follow an integer: a fraction or an exponent. *)
Definition integer_ends (s : string) : bool :=
  match s with String c _ => negb (bool_decide (code c ∈ [46; 69; 101]%N)) | EmptyString => true end.
Definition read_natural (s : string) : option (Z * string) :=
  match s with
  | EmptyString => None
  | String c s' =>
      match digit_value c with
      | None => None
      | Some d =>
          let '(n, rest) := if d =? 0 then (0, s') else read_digits d s' in
          if integer_ends rest then Some (n, rest) else None
      end
  end.

(** ** Values *)

Fixpoint read_value (n : nat) (s : string) : option (json * string) :=
  match n with
  | O => None
  | S n =>
      match s with
      | EmptyString => None
      | String c s1 =>
          if (code c =? 34)%N then '(t, rest) ← read_text s1; Some (JStr t, rest)
          else if (code c =? 123)%N then
            let s2 := skip_space s1 in
            match s2 with
            | String c' rest =>
                if (code c' =? 125)%N then Some (JObj [], rest)
                else '(l, rest) ← read_members n s2; Some (JObj (dict_update [] l), rest)
            | EmptyString => None
            end
          else if (code c =? 91)%N then
            let s2 := skip_space s1 in
            match s2 with
            | String c' rest =>
                if (code c' =? 93)%N then Some (JArr [], rest)
                else '(l, rest) ← read_items n s2; Some (JArr l, rest)
            | EmptyString => None
            end
          else if startswith "null" s then Some (JNull, drop_text 4 s)
          else if startswith "true" s then Some (JBool true, drop_text 4 s)
          else if startswith "false" s then Some (JBool false, drop_text 5 s)
          else if (code c =? 45)%N then '(z, rest) ← read_natural s1; Some (JInt (- z), rest)
          else '(z, rest) ← read_natural s; Some (JInt z, rest)
      end
  end
with read_items (n : nat) (s : string) : option (list json * string) :=
  match n with
  | O => None
  | S n =>
      '(v, s1) ← read_value n s;
      match skip_space s1 with
      | EmptyString => None
      | String c rest =>
          if (code c =? 93)%N then Some ([v], rest)
          else if (code c =? 44)%N then '(l, rest) ← read_items n (skip_space rest); Some (v :: l, rest)
          else None
      end
  end
with read_members (n : nat) (s : string) : option (list (string * json) * string) :=
  match n with
  | O => None
  | S n =>
      match s with
      | EmptyString => None
      | String c s1 =>
          if negb (code c =? 34)%N then None
          else
            '(key, s2) ← read_text s1;
            match skip_space s2 with
            | EmptyString => None
            | String c s3 =>
                if negb (code c =? 58)%N then None
                else
                  '(v, s4) ← read_value n (skip_space s3);
                  match skip_space s4 with
                  | EmptyString => None
                  | String c rest =>
                      if (code c =? 125)%N then Some ([(key, v)], rest)
                      else if (code c =? 44)%N then
                        '(l, rest) ← read_members n (skip_space rest); Some ((key, v) :: l, rest)
                      else None
                  end
            end
      end
  end.

(** [json.loads]; a call of [read_value] and the one it makes take at least one
    character between them. *)
Definition json_loads (s : string) : option json :=
  '(v, rest) ← read_value (2 * S (String.length s)) (skip_space s);
  if skip_space rest == "" then Some v else None.

Example loads_sample :
  json_loads ("{" +:+ quote +:+ "b" +:+ quote +:+ ": [1, -20 ,null]," +:+ quote +:+ "a" +:+ quote +:+ ":{}, " +:+
    quote +:+ "b" +:+ quote +:+ ":true} ") = Some (JObj [("b", JBool true); ("a", JObj [])]).
Proof. vm_compute. reflexivity. Qed.
Example loads_bad : (λ s, json_loads s) <$> ["[1,]"; "01"; "[1"; "1 2"; "nul"] = [None; None; None; None; None].
Proof. vm_compute. reflexivity. Qed.

(** ** Reading back what was written *)

Lemma read_escaped ea c rest : read_text (escape_char ea c +:+ rest) = read_char (Some c) (read_text rest).
Proof. destruct ea, c as [[] [] [] [] [] [] [] []]; reflexivity. Qed.

Lemma read_dumped_text ea s rest : read_text (escape ea s +:+ String double_quote rest) = Some (s, rest).
Proof.
  induction s as [|c s IH]; [reflexivity|]. cbn [escape]. by rewrite text_app_assoc, read_escaped, IH.
Qed.

Lemma digit_value_pretty x : (x < 10)%N → digit_value (pretty_N_char x) = Some (Z.of_N x).
Proof.
  intros H. assert (x ∈ [0; 1; 2; 3; 4; 5; 6; 7; 8; 9]%N) as Hx by (rewrite !elem_of_cons; lia).
  repeat (apply elem_of_cons in Hx as [->|Hx]; [reflexivity|]). by apply elem_of_nil in Hx.
Qed.

(** What may follow a value. *)
Definition ends_number (s : string) : Prop :=
  match s with String c _ => digit_value c = None ∧ integer_ends s = true | EmptyString => True end.

Lemma read_digits_end n s : ends_number s → read_digits n s = (n, s).
Proof. destruct s as [|c s]; [done|]. simpl. intros [H _]. by rewrite H. Qed.
Lemma integer_ends_end s : ends_number s → integer_ends s = true.
Proof. destruct s; [done|]. by intros [_ H]. Qed.

Lemma read_pretty_go x s : read_digits 0 (pretty_N_go x s) = read_digits (Z.of_N x) s.
Proof.
  revert s. induction (N.lt_wf_0 x) as [x _ IH]; intros s. destruct (decide (0 < x)%N) as [Hx|Hx].
  - rewrite pretty_N_go_step, IH by (try apply N.div_lt; lia). simpl.
    rewrite digit_value_pretty by (apply N.mod_lt; lia). f_equal. rewrite (N.div_mod x 10) at 3 by lia. lia.
  - assert (x = 0%N) as -> by lia. by rewrite pretty_N_go_0.
Qed.
Lemma pretty_go_head x s : (0 < x)%N →
  ∃ c t d, pretty_N_go x s = String c t ∧ digit_value c = Some d ∧ d ≠ 0.
Proof.
  revert s. induction (N.lt_wf_0 x) as [x _ IH]; intros s Hx. rewrite pretty_N_go_step by done.
  destruct (decide (0 < x `div` 10)%N) as [Hd|Hd]; [apply IH; [apply N.div_lt; lia|done]|].
  apply N.nlt_ge, N.le_0_r in Hd as E. rewrite E, pretty_N_go_0.
  assert (x < 10)%N by (by apply N.div_small_iff in E).
  rewrite N.mod_small by done. eexists _, _, _. split; [done|]. rewrite digit_value_pretty by done. split; [done|lia].
Qed.
Lemma pretty_go_app x s t : pretty_N_go x s +:+ t = pretty_N_go x (s +:+ t).
Proof.
  revert s. induction (N.lt_wf_0 x) as [x _ IH]; intros s. destruct (decide (0 < x)%N) as [Hx|Hx].
  - rewrite !(pretty_N_go_step x) by done. rewrite IH by (apply N.div_lt; lia). done.
  - assert (x = 0%N) as -> by lia. by rewrite !pretty_N_go_0.
Qed.

Lemma read_natural_go x s : (0 < x)%N → ends_number s → read_natural (pretty_N_go x s) = Some (Z.of_N x, s).
Proof.
  intros Hx Hs. pose proof (read_pretty_go x s) as Hr.
  destruct (pretty_go_head x s Hx) as (c & t & d & Ht & Hd & Hd0). rewrite Ht in *. simpl in *. rewrite Hd in *.
  destruct (Z.eqb_spec d 0); [done|]. change (0 * 10 + d) with d in Hr. rewrite Hr, read_digits_end by done.
  by rewrite integer_ends_end.
Qed.

(** The character a value starts with. *)
Definition starts_value (s : string) : Prop :=
  match s with
  | String c _ => json_space c = false ∧ (code c =? 93)%N = false ∧ (code c =? 125)%N = false
  | EmptyString => False
  end.
Lemma starts_digit c t d : digit_value c = Some d → starts_value (String c t).
Proof.
  unfold starts_value, digit_value, json_space. intros H.
  destruct ((48 <=? code c) && (code c <=? 57))%N eqn:E; [|done]. apply andb_true_iff in E as [E1%N.leb_le E2%N.leb_le].
  split; [apply bool_decide_eq_false_2; rewrite !elem_of_cons, elem_of_nil; lia|]. split; apply N.eqb_neq; lia.
Qed.
Lemma skip_starts s : starts_value s → skip_space s = s.
Proof. destruct s as [|c s]; [done|]. intros [H _]. simpl. by rewrite H. Qed.

Lemma pretty_Z_starts (z : Z) t : starts_value (pretty z +:+ t).
Proof.
  destruct z as [|p|p]; [vm_compute; done| |vm_compute; done].
  change (starts_value (pretty_N_go (N.pos p) "" +:+ t)). rewrite pretty_go_app.
  destruct (pretty_go_head (N.pos p) ("" +:+ t) ltac:(lia)) as (c & u & d & -> & Hd & _). by eapply starts_digit.
Qed.
Lemma dumps_starts ea v t : starts_value (dumps ea v +:+ t).
Proof.
  destruct v as [|[]|z|s|l|l]; simpl dumps; try (vm_compute; done). apply pretty_Z_starts.
Qed.

Lemma read_integer z n rest : ends_number rest → read_value (S n) (pretty z +:+ rest) = Some (JInt z, rest).
Proof.
  intros Hr. destruct z as [|p|p].
  - change (pretty 0) with "0". simpl. by rewrite integer_ends_end.
  - change (pretty (Z.pos p)) with (pretty_N_go (N.pos p) ""). rewrite pretty_go_app.
    pose proof (read_natural_go (N.pos p) rest ltac:(lia) Hr) as Hn. change ("" +:+ rest) with rest in *.
    destruct (pretty_go_head (N.pos p) rest ltac:(lia)) as (c & t & d & Ht & Hd & _). rewrite Ht in *.
    unfold digit_value in Hd. destruct ((48 <=? code c) && (code c <=? 57))%N eqn:E; [|done].
    assert (c ∈ ascii_of_N <$> [48; 49; 50; 51; 52; 53; 54; 55; 56; 57]%N) as Hc.
    { apply andb_true_iff in E as [E1%N.leb_le E2%N.leb_le]. apply list_elem_of_fmap. exists (code c).
      unfold code in *. rewrite ascii_N_embedding, !elem_of_cons, elem_of_nil. split; [done|lia]. }
    cbn [read_value]. change (fmap ascii_of_N _) with (list_ascii_of_string "0123456789") in Hc.
    repeat (apply elem_of_cons in Hc as [->|Hc]; [cbn; cbn in Hn; by rewrite Hn|]). by apply elem_of_nil in Hc.
  - change (pretty (Z.neg p)) with ("-" +:+ pretty_N_go (N.pos p) ""). rewrite text_app_assoc, pretty_go_app.
    change ("" +:+ rest) with rest. pose proof (read_natural_go (N.pos p) rest ltac:(lia) Hr) as Hn.
    revert Hn. generalize (pretty_N_go (N.pos p) rest). intros s Hn.
    change ("-" +:+ s) with (String "-" s). cbn -[read_natural].
    by rewrite Hn.
Qed.

(** Keys of a mapping differ, at every level. *)
#[warnings="-register-all"]
Inductive well_keyed : json → Prop :=
  | keyed_null : well_keyed JNull
  | keyed_bool b : well_keyed (JBool b)
  | keyed_int z : well_keyed (JInt z)
  | keyed_str s : well_keyed (JStr s)
  | keyed_arr l : Forall well_keyed l → well_keyed (JArr l)
  | keyed_obj l : NoDup l.*1 → Forall (λ kv, well_keyed kv.2) l → well_keyed (JObj l).

Lemma order_values {A B} (f : A → B) (l : list (string * A)) :
  order_by key_le (map (λ kv, (kv.1, f kv.2)) l) = map (λ kv, (kv.1, f kv.2)) (order_by key_le l).
Proof.
  assert (∀ x (t : list (string * A)), insert_by key_le (x.1, f x.2) (map (λ kv, (kv.1, f kv.2)) t) =
    map (λ kv, (kv.1, f kv.2)) (insert_by key_le x t)) as Hins.
  { intros x t. induction t as [|y t IH]; [done|]. simpl. rewrite IH. unfold key_le. simpl. by destruct (text_le _ _). }
  induction l as [|x l IH]; [done|]. simpl. by rewrite IH, Hins.
Qed.

Definition reads_back (ea : bool) (v : json) : Prop := ∀ n rest,
  (2 * String.length (dumps ea v) ≤ n)%nat → ends_number rest →
  read_value n (dumps ea v +:+ rest) = Some (canonical v, rest).

Lemma dumps_nonempty ea v : (0 < String.length (dumps ea v))%nat.
Proof.
  pose proof (dumps_starts ea v "") as H. rewrite text_app_nil_r in H. destruct (dumps ea v); [done|simpl; lia].
Qed.

Lemma read_dumped_items ea l n rest :
  l ≠ [] → Forall (reads_back ea) l → (2 * String.length (join_text "," (map (dumps ea) l)) < n)%nat →
  read_items n (join_text "," (map (dumps ea) l) +:+ String "]" rest) = Some (map canonical l, rest).
Proof.
  revert n. induction l as [|v l IH]; intros n Hne Hl Hn; [done|]. apply Forall_cons in Hl as [Hv Hl].
  destruct n as [|n]; [lia|]. cbn [read_items]. destruct l as [|w l].
  - simpl join_text in *. rewrite Hv by (done || lia). reflexivity.
  - change (join_text "," (map (dumps ea) (v :: w :: l))) with
      (dumps ea v +:+ String "," (join_text "," (map (dumps ea) (w :: l)))) in *.
    rewrite length_app_text in Hn. change (String.length (String "," ?t)) with (S (String.length t)) in Hn.
    rewrite text_app_assoc. change (String "," ?t +:+ ?u) with (String "," (t +:+ u)).
    assert (read_items n (join_text "," (map (dumps ea) (w :: l)) +:+ String "]" rest) =
      Some (map canonical (w :: l), rest)) as IH' by (apply IH; (done || lia)).
    assert (starts_value (join_text "," (map (dumps ea) (w :: l)) +:+ String "]" rest)) as Hst.
    { destruct l; simpl join_text; rewrite ?text_app_assoc; apply dumps_starts. }
    revert IH' Hst. generalize (join_text "," (map (dumps ea) (w :: l)) +:+ String "]" rest). intros t IH' Hst.
    rewrite Hv by (done || lia). cbn -[read_items skip_space]. change (skip_space (String "," t)) with (String "," t).
    cbn -[read_items skip_space]. by rewrite skip_starts, IH'.
Qed.

(** A mapping is written in the order of its keys. *)
Definition member_text (ea : bool) (kv : string * json) : string :=
  dump_text ea kv.1 +:+ ":" +:+ dumps ea kv.2.
Definition sorted_members (l : list (string * json)) : list (string * json) := order_by key_le l.

Lemma dumps_object ea l :
  dumps ea (JObj l) = "{" +:+ join_text "," (map (member_text ea) (sorted_members l)) +:+ "}".
Proof.
  cbn [dumps]. do 2 f_equal. rewrite order_values, map_map. done.
Qed.
Lemma canonical_object l :
  canonical (JObj l) = JObj (map (λ kv, (kv.1, canonical kv.2)) (sorted_members l)).
Proof. cbn [canonical]. by rewrite order_values. Qed.

Lemma member_text_app ea k v t :
  member_text ea (k, v) +:+ t =
    String double_quote (escape ea k +:+ String double_quote (String ":" (dumps ea v +:+ t))).
Proof. unfold member_text, dump_text. by rewrite !text_app_assoc. Qed.
Lemma length_member ea k v :
  (2 * String.length (dumps ea v) + 2 < 2 * String.length (member_text ea (k, v)))%nat.
Proof.
  pose proof (f_equal String.length (member_text_app ea k v "")) as E. rewrite text_app_nil_r in E. rewrite E.
  simpl. rewrite length_app_text. simpl. rewrite length_app_text. simpl. lia.
Qed.
Lemma member_starts ea kv t : starts_value (member_text ea kv +:+ t).
Proof. destruct kv. rewrite member_text_app. vm_compute. done. Qed.

(** A member and what follows it. *)
Lemma read_member ea k v n t :
  reads_back ea v → (2 * String.length (dumps ea v) ≤ n)%nat → ends_number t →
  read_members (S n) (member_text ea (k, v) +:+ t) =
    match skip_space t with
    | EmptyString => None
    | String c r =>
        if (code c =? 125)%N then Some ([(k, canonical v)], r)
        else if (code c =? 44)%N then '(l, r) ← read_members n (skip_space r); Some ((k, canonical v) :: l, r)
        else None
    end.
Proof.
  intros Hv Hn Ht. rewrite member_text_app. cbn [read_members].
  change (negb (code double_quote =? 34)%N) with false. cbv iota.
  rewrite read_dumped_text. cbn -[dumps read_value read_members skip_space].
  change (skip_space (String ":" ?u)) with (String ":" u). cbn -[dumps read_value read_members skip_space].
  rewrite skip_starts by apply dumps_starts. by rewrite Hv.
Qed.

Lemma read_dumped_members ea l n rest :
  l ≠ [] → Forall (λ kv, reads_back ea kv.2) l →
  (2 * String.length (join_text "," (map (member_text ea) l)) < n)%nat →
  read_members n (join_text "," (map (member_text ea) l) +:+ String "}" rest) =
    Some (map (λ kv, (kv.1, canonical kv.2)) l, rest).
Proof.
  revert n. induction l as [|[k v] l IH]; intros n Hne Hl Hn; [done|]. apply Forall_cons in Hl as [Hv Hl].
  destruct n as [|n]; [lia|]. simpl in Hv. pose proof (length_member ea k v) as Hk. destruct l as [|kv l].
  - simpl join_text in *. by rewrite read_member by (done || lia).
  - change (join_text "," (map (member_text ea) ((k, v) :: kv :: l))) with
      (member_text ea (k, v) +:+ String "," (join_text "," (map (member_text ea) (kv :: l)))) in *.
    rewrite length_app_text in Hn. change (String.length (String "," ?t)) with (S (String.length t)) in Hn.
    rewrite text_app_assoc. change (String "," ?t +:+ ?u) with (String "," (t +:+ u)).
    rewrite read_member by (done || lia).
    assert (read_members n (join_text "," (map (member_text ea) (kv :: l)) +:+ String "}" rest) =
      Some (map (λ kv, (kv.1, canonical kv.2)) (kv :: l), rest)) as IH' by (apply IH; (done || lia)).
    assert (starts_value (join_text "," (map (member_text ea) (kv :: l)) +:+ String "}" rest)) as Hst.
    { destruct l; simpl join_text; rewrite ?text_app_assoc; apply member_starts. }
    revert IH' Hst. generalize (join_text "," (map (member_text ea) (kv :: l)) +:+ String "}" rest). intros t IH' Hst.
    cbn -[read_members skip_space]. change (skip_space (String "," t)) with (String "," t).
    cbn -[read_members skip_space]. by rewrite skip_starts, IH'.
Qed.

Lemma Forall_sorted {A} (P : string * A → Prop) l : Forall P l → Forall P (order_by key_le l).
Proof. intros H. by rewrite (order_by_perm _ l). Qed.

Lemma read_array n t l r :
  starts_value t → read_items n t = Some (l, r) → read_value (S n) (String "[" t) = Some (JArr l, r).
Proof.
  intros Hst Ht. cbn -[read_items read_members skip_space]. rewrite (skip_starts t Hst).
  destruct t as [|c t]; [done|]. destruct Hst as (_ & E & _). cbn -[read_items read_members N.eqb] in *. by rewrite E, Ht.
Qed.
Lemma read_object n t l r :
  starts_value t → read_members n t = Some (l, r) → NoDup l.*1 → read_value (S n) (String "{" t) = Some (JObj l, r).
Proof.
  intros Hst Ht Hl. cbn -[read_items read_members skip_space]. rewrite (skip_starts t Hst).
  destruct t as [|c t]; [done|]. destruct Hst as (_ & _ & E). cbn -[read_items read_members N.eqb] in *. rewrite E, Ht.
  cbn. by rewrite (dict_update_id [] l).
Qed.

Lemma read_dumped_array ea l : Forall (reads_back ea) l → reads_back ea (JArr l).
Proof.
  intros Hl n rest Hn Hr. cbn [dumps] in *. rewrite !length_app_text in Hn.
  change (String.length "[") with 1%nat in Hn. change (String.length "]") with 1%nat in Hn. destruct n as [|n]; [lia|].
  destruct l as [|v l]; [reflexivity|]. rewrite !text_app_assoc. change ("[" +:+ ?t) with (String "[" t).
  apply read_array.
  - destruct l; simpl join_text; rewrite ?text_app_assoc; apply dumps_starts.
  - apply read_dumped_items; (done || lia).
Qed.
Lemma read_dumped_object ea l : NoDup l.*1 → Forall (λ kv, reads_back ea kv.2) l → reads_back ea (JObj l).
Proof.
  intros Hk Hl n rest Hn Hr. rewrite canonical_object. rewrite dumps_object in *.
  rewrite !length_app_text in Hn.
  change (String.length "{") with 1%nat in Hn. change (String.length "}") with 1%nat in Hn. destruct n as [|n]; [lia|].
  rewrite !text_app_assoc. change ("{" +:+ ?t) with (String "{" t).
  assert (NoDup (sorted_members l).*1) as Hk' by (by unfold sorted_members; rewrite (order_by_perm _ l)).
  assert (Forall (λ kv, reads_back ea kv.2) (sorted_members l)) as Hl' by (by apply Forall_sorted).
  revert Hk' Hl' Hn. generalize (sorted_members l). clear l Hk Hl. intros l Hk Hl Hn.
  destruct l as [|kv l]; [reflexivity|]. apply read_object.
  - destruct l; simpl join_text; rewrite ?text_app_assoc; apply member_starts.
  - apply read_dumped_members; (done || lia).
  - change (map (λ kv, (kv.1, canonical kv.2)) (kv :: l)) with ((λ kv, (kv.1, canonical kv.2)) <$> (kv :: l)).
    rewrite <- list_fmap_compose. exact Hk.
Qed.

Lemma read_literal w v n rest :
  (w, v) ∈ [("null", JNull); ("true", JBool true); ("false", JBool false)] →
  read_value (S n) (w +:+ rest) = Some (v, rest).
Proof.
  intros H. pose proof (startswith_app w rest) as H0. pose proof (drop_text_app w rest) as H1.
  repeat (apply elem_of_cons in H as [[= -> ->]|H];
    [cbn -[startswith drop_text] in *; rewrite ?H0; cbn -[drop_text]; by rewrite H1|]).
  by apply elem_of_nil in H.
Qed.

(** Every text [json.dumps] writes is read back, whatever follows it. *)
Lemma read_dumped ea v : well_keyed v → reads_back ea v.
Proof.
  induction v as [|b|z|s|l IH|l IH] using json_nested_ind; intros Hw.
  5: { inversion Hw; subst. apply read_dumped_array. rewrite Forall_forall in *. auto. }
  5: { inversion Hw; subst. apply read_dumped_object; [done|]. rewrite Forall_forall in *. auto. }
  all: intros n rest Hn Hr; destruct n as [|n];
    [match goal with H : (2 * String.length (dumps ?ea ?v) ≤ 0)%nat |- _ => pose proof (dumps_nonempty ea v); lia end|].
  - apply (read_literal "null" JNull). rewrite !elem_of_cons. auto.
  - destruct b; [apply (read_literal "true" (JBool true))|apply (read_literal "false" (JBool false))];
      rewrite !elem_of_cons; auto.
  - cbn [dumps]. by apply read_integer.
  - cbn [dumps canonical]. unfold dump_text. rewrite !text_app_assoc. change (quote +:+ ?t) with (String double_quote t).
    cbn -[escape].
    change (quote +:+ rest) with (String double_quote rest). by rewrite read_dumped_text.
Qed.

(** [json.loads(json.dumps(v))] is [v] with its keys sorted. *)
Lemma loads_dumps ea v : well_keyed v → json_loads (dumps ea v) = Some (canonical v).
Proof.
  intros Hw. unfold json_loads. pose proof (dumps_starts ea v "") as Hs. rewrite text_app_nil_r in Hs.
  rewrite skip_starts by done. rewrite <- (text_app_nil_r (dumps ea v)) at 2.
  rewrite read_dumped by (done || lia). reflexivity.
Qed.
