(* ===== verification/PyJson.v ===== *)
(** * JSON values as Python's values

    The truth value and the text of a value [json.loads] returned, what the
    code reads from a mapping with them, and the equality [==] of values. *)

From S2P Require Import Prelude PyText Json.
#[local] Open Scope string_scope.
#[local] Open Scope list_scope.
#[local] Open Scope Z_scope.

(** [bool(v)], [str(v)] and [a or b] *)
Definition py_true (v : json) : bool :=
  match v with
  | JNull => false
  | JBool b => b
  | JInt z => negb (z =? 0)
  | JStr s => negb (s == "")
  | JArr l => negb (bool_decide (l = []))
  | JObj l => negb (bool_decide (l = []))
  end.
Fixpoint py_repr (v : json) : string :=
  match v with
  | JNull => "None"
  | JBool b => if b then "True" else "False"
  | JInt z => pretty z
  | JStr s => repr s
  | JArr l => "[" +:+ join_text ", " (map py_repr l) +:+ "]"
  | JObj l => "{" +:+ join_text ", " (map (λ kv, repr kv.1 +:+ ": " +:+ py_repr kv.2) l) +:+ "}"
  end.
Definition py_str (v : json) : string := match v with JStr s => s | _ => py_repr v end.
Definition py_or (o : option json) (other : json) : json :=
  match o with Some v => if py_true v then v else other | None => other end.
(** [str(d.get(key) or other)] *)
Definition text_or (key other : string) (v : json) : string := py_str (py_or (jget key v) (JStr other)).

(** Python's equality of JSON values: [True == 1], and the order of members
    does not matter. *)
Fixpoint as_numbers (v : json) : json :=
  match v with
  | JBool b => JInt (if b then 1 else 0)
  | JArr l => JArr (map as_numbers l)
  | JObj l => JObj (map (λ kv, (kv.1, as_numbers kv.2)) l)
  | _ => v
  end.
Definition same_dict (a b : list (string * json)) : bool :=
  canonical (as_numbers (JObj a)) == canonical (as_numbers (JObj b)).
