(* ===== verification/Redaction.v ===== *)
(** * Redaction of secret values ([secrets/vault.py], [_redact_text])

    Replacing every stored value of a tenant in a text, longest first, and the
    proof that no value survives in a text, and in a payload only in its keys,
    which are kept. A value that shares characters with the
    replacement marker can reappear in it; [marker_free] is the condition that
    excludes those. *)

From S2P Require Import Prelude Sqlite PyText Json.
#[local] Open Scope string_scope.
#[local] Open Scope list_scope.
#[local] Open Scope Z_scope.

(** ** Substrings *)

(** [text.replace(old, new)] for a non-empty [old]: [skip] counts the
    characters of the current occurrence still to be dropped. *)
Fixpoint replace_from (skip : nat) (old new s : string) : string :=
  match s with
  | EmptyString => EmptyString
  | String c s' =>
      match skip with
      | S k => replace_from k old new s'
      | O =>
          if startswith old s
          then new +:+ replace_from (String.length old - 1) old new s'
          else String c (replace_from 0 old new s')
      end
  end.
Definition replace (old new s : string) : string := replace_from 0 old new s.

(** [needle in s] *)
Fixpoint contains (needle s : string) : bool :=
  startswith needle s || match s with String _ s' => contains needle s' | EmptyString => false end.

(** ** Redaction *)

Definition marker : string := "[redacted]".

Definition redact_text (text : string) (values : list string) : string :=
  foldl (λ t v, if v == "" then t else replace v marker t) text
    (order_by (λ x y, len y <=? len x) values).

(** Payloads are JSON values; keys are kept as they are. *)
Fixpoint redact_payload (v : json) (values : list string) : json :=
  match v with
  | JStr s => JStr (redact_text s values)
  | JObj l => JObj (map (λ kv, (kv.1, redact_payload kv.2 values)) l)
  | JArr l => JArr (map (λ x, redact_payload x values) l)
  | _ => v
  end.

(** ** Values that the marker cannot bring back *)

Definition open_bracket : ascii := "["%char.
Definition close_bracket : ascii := "]"%char.
Definition marker_free (v : string) : bool :=
  negb (v == "") && negb (has_char open_bracket v) && negb (has_char close_bracket v)
  && negb (contains v "redacted").

(** Some text or key of the payload contains [needle]; some key does. *)
Fixpoint payload_contains (needle : string) (v : json) : bool :=
  match v with
  | JStr s => contains needle s
  | JObj l => existsb (λ kv, contains needle kv.1 || payload_contains needle kv.2) l
  | JArr l => existsb (payload_contains needle) l
  | _ => false
  end.
Fixpoint keys_contain (needle : string) (v : json) : bool :=
  match v with
  | JObj l => existsb (λ kv, contains needle kv.1 || keys_contain needle kv.2) l
  | JArr l => existsb (keys_contain needle) l
  | _ => false
  end.

(** ** Substring lemmas *)

Lemma contains_cons needle c s :
  contains needle (String c s) = startswith needle (String c s) || contains needle s.
Proof. done. Qed.

Lemma contains_startswith needle s : contains needle s = false → startswith needle s = false.
Proof. destruct s; cbn [contains]; by intros [? _]%orb_false_iff. Qed.

Lemma contains_tail needle c s : contains needle (String c s) = false → contains needle s = false.
Proof. rewrite contains_cons. by intros [_ ?]%orb_false_iff. Qed.

Lemma startswith_nil s : startswith "" s = true.
Proof. by destruct s. Qed.

Lemma startswith_cons c d p s : startswith (String c p) (String d s) = (c == d) && startswith p s.
Proof.
  unfold startswith. simpl. destruct (ascii_dec c d) as [->|].
  - by rewrite bool_decide_eq_true_2.
  - by rewrite bool_decide_eq_false_2.
Qed.

Lemma startswith_true_nil p : startswith p "" = true → p = "".
Proof. by destruct p. Qed.

(** A text without the marker's first character that starts the redacted text
    starts the original one. *)
Lemma replace_from_startswith w v s :
  has_char open_bracket w = false →
  startswith w (replace_from 0 v marker s) = true → startswith w s = true.
Proof.
  revert w. induction s as [|c s IH]; intros w Hw; [done|]. cbn [replace_from].
  destruct w as [|d w]; [by rewrite startswith_nil|].
  simpl in Hw. apply orb_false_iff in Hw as [Hd Hw].
  destruct (startswith v (String c s)).
  - change (startswith (String d w) (String open_bracket (("redacted]" +:+
      replace_from (String.length v - 1) v marker s)%string)) = true → startswith (String d w) (String c s) = true).
    rewrite startswith_cons. intros [Hx _]%andb_true_iff. apply bool_decide_eq_true in Hx. subst d.
    exfalso. revert Hd. by vm_compute.
  - rewrite !startswith_cons. intros [-> H]%andb_true_iff. simpl. by apply IH.
Qed.

Lemma startswith_before w p out :
  has_char close_bracket w = false →
  startswith w (p +:+ String close_bracket out) = true → startswith w p = true.
Proof.
  revert p. induction w as [|d w IH]; intros p Hw; [by intros _; apply startswith_nil|].
  simpl in Hw. apply orb_false_iff in Hw as [Hd Hw]. destruct p as [|c p].
  - change ("" +:+ ?x) with x. rewrite startswith_cons. intros [Hx _]%andb_true_iff. apply bool_decide_eq_true in Hx. subst d.
    exfalso. revert Hd. by vm_compute.
  - change (String c p +:+ ?x) with (String c (p +:+ x)). rewrite !startswith_cons.
    intros [-> H]%andb_true_iff. simpl. by apply IH.
Qed.

Lemma contains_before w p out :
  w ≠ "" → has_char close_bracket w = false →
  contains w (p +:+ String close_bracket out) = true → contains w p = true ∨ contains w out = true.
Proof.
  intros Hne Hw. induction p as [|c p IH];
    [change ("" +:+ ?x) with x|change (String c p +:+ ?x) with (String c (p +:+ x))];
    rewrite contains_cons; intros [H|H]%orb_true_iff.
  - apply (startswith_before w "" out) in H; [|done]. by apply startswith_true_nil in H.
  - by right.
  - left. apply (startswith_before w (String c p) out) in H; [|done]. by rewrite contains_cons, H.
  - rewrite contains_cons. destruct (IH H) as [->| ->]; [|by right]. left. apply orb_true_r.
Qed.

Lemma marker_contains w out :
  marker_free w = true → contains w (marker +:+ out) = true → contains w out = true.
Proof.
  unfold marker_free. rewrite !andb_true_iff, !negb_true_iff, bool_decide_eq_false.
  intros [[[Hne Ho] Hc] Hr].
  change (marker +:+ out) with (String open_bracket ("redacted" +:+ String close_bracket out)).
  rewrite contains_cons. intros [H|H]%orb_true_iff.
  - destruct w as [|d w]; [done|]. rewrite startswith_cons in H.
    apply andb_true_iff in H as [Hx _]. apply bool_decide_eq_true in Hx. subst d.
    exfalso. revert Ho. by vm_compute.
  - destruct (contains_before w "redacted" out Hne Hc H) as [H'|H']; [|done].
    by rewrite Hr in H'.
Qed.

(** Replacing [v] brings back no other value, and removes [v] itself. *)
Lemma replace_from_absent k v w s :
  marker_free w = true → (w = v ∨ contains w s = false) →
  contains w (replace_from k v marker s) = false.
Proof.
  intros Hw. assert (has_char open_bracket w = false) as Ho.
  { revert Hw. unfold marker_free. rewrite !andb_true_iff, !negb_true_iff. by intros [[[_ ?] _] _]. }
  assert (w ≠ "") as Hne by (by intros ->).
  revert k. induction s as [|c s IH]; intros k Hv.
  { simpl. destruct w; [done|]. done. }
  assert (w = v ∨ contains w s = false) as Hv'.
  { destruct Hv as [?|H]; [by left|right; by eapply contains_tail]. }
  cbn [replace_from]. destruct k as [|k]; [|by apply IH].
  destruct (startswith v (String c s)) eqn:E.
  - destruct (contains w (marker +:+ _)) eqn:Hc; [|done].
    apply marker_contains in Hc; [|done]. by rewrite IH in Hc.
  - rewrite contains_cons, IH by done. rewrite orb_false_r.
    destruct (startswith w _) eqn:Hs; [|done].
    assert (startswith w (String c s) = true) as Hx.
    { destruct w as [|d w]; [done|]. rewrite startswith_cons in *.
      apply andb_true_iff in Hs as [-> Hs]. simpl. eapply replace_from_startswith; [|done].
      simpl in Ho. by apply orb_false_iff in Ho as [_ ?]. }
    destruct Hv as [->|Hv]; [congruence|].
    apply contains_startswith in Hv. congruence.
Qed.

Lemma redact_fold_absent w values text :
  marker_free w = true → w ∈ values ∨ contains w text = false →
  contains w (foldl (λ t v, if v == "" then t else replace v marker t) text values) = false.
Proof.
  intros Hw. revert text. induction values as [|v values IH]; intros text H; simpl.
  { destruct H as [H|H]; [by apply elem_of_nil in H|done]. }
  apply IH. destruct (decide (w = v)) as [<-|Hne].
  - right. case_bool_decide as Hv; [by subst|]. apply replace_from_absent; [done|by left].
  - destruct H as [[?|?]%elem_of_cons|H]; [done|by left|right].
    case_bool_decide; [done|]. apply replace_from_absent; [done|by right].
Qed.

Lemma redact_text_absent w values text :
  marker_free w = true → w ∈ values → contains w (redact_text text values) = false.
Proof.
  intros Hw Hin. apply redact_fold_absent; [done|]. left. by rewrite order_by_perm.
Qed.

Lemma existsb_map_eq {A} (f : A → A) (p q : A → bool) l :
  Forall (λ x, p (f x) = q x) l → existsb p (map f l) = existsb q l.
Proof. induction 1 as [|x l E _ IH]; simpl; congruence. Qed.

(** What is left of a value in a redacted payload stands in its keys. *)
Lemma redact_payload_keys w values v :
  marker_free w = true → w ∈ values → payload_contains w (redact_payload v values) = keys_contain w v.
Proof.
  intros Hw Hin. induction v as [| | | |l IH|l IH] using json_nested_ind; simpl; try done.
  - by apply redact_text_absent.
  - by apply existsb_map_eq.
  - apply existsb_map_eq. eapply Forall_impl; [exact IH|]. intros kv H. simpl. by rewrite H.
Qed.
