(* ===== verification/Langfuse.v ===== *)
(** * Redaction of what is published ([logging/langfuse.py])

    [redact_for_langfuse], which every event, text and approval of an agent run
    passes before it is stored for the clients to read. *)

From S2P Require Import Prelude Sqlite PyText Regex Json.
#[local] Open Scope string_scope.
#[local] Open Scope list_scope.

Definition newline_text : string := String (ascii_of_N 13) (String (ascii_of_N 10) EmptyString).
Definition quotes_text : string := String double_quote (String single_quote EmptyString).
Definition credential_words : list regex :=
  [rseq [rcase "api"; ROpt (rset "_-"); rcase "key"]; rcase "secret"; rcase "token"; rcase "password"; rcase "passwd"].

(** [_SECRET_KEY_RE] *)
Definition secret_key_re : regex :=
  ralt [rcase "authorization"; rseq [rcase "api"; ROpt (rset "_-"); rcase "key"]; rcase "secret"; rcase "token";
        rcase "password"; rcase "passwd"; rcase "cookie"; rcase "set-cookie"; rcase "bearer"].
(** [_INLINE_AUTHORIZATION_RE] and [_INLINE_COOKIE_RE] *)
Definition header_value : regex := RPlus true (rnot (newline_text +:+ quotes_text)).
Definition header_re (name : regex) : regex :=
  rseq [RWordEnd; name; RWordEnd; RStar true rspace; rtext ":"; RStar true rspace].
Definition authorization_re : regex := header_re (rcase "authorization").
Definition cookie_re : regex := header_re (ralt [rcase "cookie"; rcase "set-cookie"]).
(** [_INLINE_BEARER_RE] *)
Definition bearer_re : regex := rseq [RWordEnd; rcase "bearer"; RPlus true rspace].
Definition bearer_value : regex :=
  RPlus true (RChar (λ c, negb (py_isspace c) && negb (one_of (list_ascii_of_string (quotes_text +:+ "`,;")) c))).
(** [_INLINE_SECRET_ASSIGNMENT_RE] and [_INLINE_SECRET_VALUE_RE] *)
Definition quoted (delimiter : ascii) : regex :=
  let d := String delimiter EmptyString in rseq [rtext d; RStar true (rnot (d +:+ newline_text)); rtext d].
Definition secret_value : regex :=
  ralt [quoted double_quote; quoted single_quote;
        RPlus true (RChar (λ c, negb (py_isspace c) && negb (one_of (list_ascii_of_string ",;&") c)))].
Definition name_part : regex := RChar (λ c, word_char c || one_of (list_ascii_of_string ".-") c).
Definition assignment_re : regex :=
  rseq [RWordEnd; RStar true name_part; ralt credential_words; RStar true name_part; RStar true rspace;
        rset "=:"; RStar true rspace].
Definition statement_re : regex :=
  rseq [RWordEnd; ralt credential_words; RWordEnd; RPlus true rspace;
        ROpt (rseq [ralt [rcase "is"; rcase "was"]; RPlus true rspace]);
        ROpt (rseq [rset "-=:."; RStar true rspace])].
(** [_PRIVATE_KEY_BLOCK_RE] *)
Definition key_label : regex :=
  RStar true (RChar (λ c, ((65 <=? code c) && (code c <=? 90) || (48 <=? code c) && (code c <=? 57) || (code c =? 32))%N)).
Definition private_key_re : regex :=
  rseq [rtext "-----BEGIN "; key_label; rtext "PRIVATE KEY-----"; RStar false (RChar (λ _, true));
        rtext "-----END "; key_label; rtext "PRIVATE KEY-----"].

(** [text.partition(sep)[0]] *)
Definition before_text (sep s : string) : string :=
  match String.index 0 sep s with Some n => take_text n s | None => s end.
Definition contains_text (sep s : string) : bool :=
  match String.index 0 sep s with Some _ => true | None => false end.

Definition max_string_chars : Z := 12000.
Definition max_sequence_items : nat := 50.
Definition max_depth : nat := 8.

Definition redact_inline (s : string) : string :=
  let s := re_sub authorization_re header_value "[redacted]" s in
  let s := re_sub cookie_re header_value "[redacted]" s in
  let s := re_sub bearer_re bearer_value "[redacted]" s in
  let s := re_sub assignment_re secret_value "[redacted]" s in
  let s := re_sub statement_re secret_value "[redacted]" s in
  re_sub RNil private_key_re "[redacted-private-key]" s.

(** [_redact_string] *)
Definition redact_string (s : string) : string :=
  if startswith "data:" (lower s) then
    if contains_text ";base64," s then before_text ";base64," s +:+ ";base64,[redacted]"
    else before_text "," s +:+ ",[redacted]"
  else
    let s := redact_inline s in
    if (max_string_chars <? len s)%Z then
      take_text (Z.to_nat max_string_chars) s +:+ "...[truncated " +:+ pretty (len s - max_string_chars)%Z +:+ " chars]"
    else s.

Definition secret_key (key : string) : bool := re_search secret_key_re key.
Definition inline_audio (l : list (string * json)) : bool :=
  match assoc "type" l with Some (JStr t) => strip t == "input_audio" | _ => false end.

(** What a value becomes before its contents are looked at. *)
Definition redact_leaf (depth : nat) (v : json) : json :=
  if (max_depth <? depth)%nat then JStr "[max_depth]"
  else match v with JStr s => JStr (redact_string s) | _ => v end.

(** [redact_for_langfuse] *)
Fixpoint redact_at (depth : nat) (v : json) : json :=
  if (max_depth <? depth)%nat then JStr "[max_depth]"
  else
    match v with
    | JStr s => JStr (redact_string s)
    | JNull | JBool _ | JInt _ => v
    | JObj l =>
        let audio := inline_audio l in
        JObj (map (λ kv,
          (kv.1, if secret_key kv.1 then JStr "[redacted]"
                 else if audio && (kv.1 == "data") then redact_leaf (S depth) (JStr "[redacted-inline-media]")
                 else redact_at (S depth) kv.2)) l)
    | JArr l =>
        let redacted := map (redact_at (S depth)) l in
        if (max_sequence_items <? length l)%nat then
          JArr (take max_sequence_items redacted ++
                [JStr ("[truncated " +:+ pretty (Z.of_nat (length l - max_sequence_items)) +:+ " items]")])
        else JArr redacted
    end.
Definition redact_for_langfuse (v : json) : json := redact_at 0 v.

(** [_public_text] *)
Definition public_text (s : string) : string := redact_string s.

(** ** Which names are taken for credentials *)

(** Up to case, [r] matches exactly the words [l]. *)
Definition spells (r : regex) (l : list string) : Prop :=
  (∀ p s q t, matches r p s q t → ∃ u, s = u +:+ t ∧ lower u ∈ l) ∧
  (∀ p u t, lower u ∈ l → ∃ q, matches r p (u +:+ t) q t).

Lemma lower_app s t : lower (s +:+ t) = lower s +:+ lower t.
Proof.
  induction s as [|c s IH]; [done|]. change (lower (String c s +:+ t)) with (String (lower_char c) (lower (s +:+ t))).
  by rewrite IH.
Qed.

Lemma lower_split x : ∀ u y, lower u = x +:+ y → ∃ u1 u2, u = u1 +:+ u2 ∧ lower u1 = x ∧ lower u2 = y.
Proof.
  induction x as [|c x IH]; intros u y H; [by exists EmptyString, u|].
  change (String c x +:+ y) with (String c (x +:+ y)) in H. destruct u as [|d u]; [done|]. injection H as <- H.
  apply IH in H as (u1 & u2 & -> & <- & <-). by exists (String d u1), u2.
Qed.

Lemma spells_nil : spells RNil [EmptyString].
Proof.
  split.
  - intros p s q t H. inversion H; subst. exists EmptyString. split; [done|set_solver].
  - intros p u t Hu%list_elem_of_singleton. destruct u; [|done]. eexists. constructor.
Qed.

Lemma spells_char f (l : list ascii) :
  (∀ c, f c = true ↔ lower_char c ∈ l) → spells (RChar f) ((λ c, String c EmptyString) <$> l).
Proof.
  intros Hf. split.
  - intros p s q t H. inversion H as [|? ? c ? Hc| | | | | |]; subst. exists (String c EmptyString). split; [done|].
    change (lower _) with (String (lower_char c) EmptyString).
    apply (list_elem_of_fmap_2 (λ c, String c EmptyString)). by apply Hf.
  - intros p u t (c & Hu & Hc)%list_elem_of_fmap. destruct u as [|d [|]]; [done| |done]. injection Hu as <-.
    eexists. constructor. by apply Hf.
Qed.

Lemma spells_seq a b la lb : spells a la → spells b lb → spells (RSeq a b) (x ← la; y ← lb; [x +:+ y]).
Proof.
  intros [Ha Ha'] [Hb Hb']. split.
  - intros p s o u H. inversion H as [| |? ? ? ? ? t ? ? H1 H2| | | | |]; subst.
    apply Ha in H1 as (v & -> & Hv). apply Hb in H2 as (w & -> & Hw). exists (v +:+ w).
    split; [by rewrite text_app_assoc|]. rewrite lower_app. apply list_elem_of_bind. exists (lower v). split; [|done].
    apply list_elem_of_bind. exists (lower w). split; [set_solver|done].
  - intros p u t (x & (y & H%list_elem_of_singleton & Hy)%list_elem_of_bind & Hx)%list_elem_of_bind.
    apply lower_split in H as (u1 & u2 & -> & <- & <-). rewrite text_app_assoc.
    destruct (Ha' p u1 (u2 +:+ t) Hx) as [q H1]. destruct (Hb' q u2 t Hy) as [o H2]. eauto using matches_seq.
Qed.

Lemma spells_alt a b la lb : spells a la → spells b lb → spells (RAlt a b) (la ++ lb).
Proof.
  intros [Ha Ha'] [Hb Hb']. split.
  - intros p s q t H. inversion H; subst.
    + destruct (Ha p s q t) as (u & ? & ?); [done|]. exists u. set_solver.
    + destruct (Hb p s q t) as (u & ? & ?); [done|]. exists u. set_solver.
  - intros p u t [Hu|Hu]%elem_of_app.
    + destruct (Ha' p u t Hu). eauto using matches_left.
    + destruct (Hb' p u t Hu). eauto using matches_right.
Qed.

Lemma spells_case w : spells (rcase w) [lower w].
Proof.
  assert (∀ c, spells (RChar (λ d, lower_char c == lower_char d)) [String (lower_char c) EmptyString]) as Hc.
  { intros c. apply (spells_char _ [lower_char c]). intros d. rewrite bool_decide_eq_true. set_solver. }
  induction w as [|c [|d w] IH]; [apply spells_nil|apply Hc|].
  change (rcase (String c (String d w)))
    with (RSeq (RChar (λ d, lower_char c == lower_char d)) (rcase (String d w))).
  apply (spells_seq _ _ _ _ (Hc c) IH).
Qed.

Definition credential_names : list string :=
  ["authorization"; "api_key"; "api-key"; "apikey"; "secret"; "token"; "password"; "passwd"; "cookie"; "set-cookie";
   "bearer"].

Lemma spells_secret_key : spells secret_key_re credential_names.
Proof.
  assert (spells (ROpt (rset "_-")) ["_"; "-"; ""]) as Hopt.
  { apply (spells_alt _ _ ["_"; "-"] [""]); [|apply spells_nil].
    apply (spells_char _ (list_ascii_of_string "_-")). intros [[] [] [] [] [] [] [] []]; vm_compute; set_solver. }
  pose proof (spells_seq _ _ _ _ (spells_case "api") (spells_seq _ _ _ _ Hopt (spells_case "key"))) as Hkey.
  exact (spells_alt _ _ _ _ (spells_case "authorization") (spells_alt _ _ _ _ Hkey
    (spells_alt _ _ _ _ (spells_case "secret") (spells_alt _ _ _ _ (spells_case "token")
    (spells_alt _ _ _ _ (spells_case "password") (spells_alt _ _ _ _ (spells_case "passwd")
    (spells_alt _ _ _ _ (spells_case "cookie") (spells_alt _ _ _ _ (spells_case "set-cookie")
    (spells_case "bearer"))))))))).
Qed.

(** A name with one of those words in it, in any case. *)
Definition names_credential (key : string) : Prop :=
  ∃ a w b, lower key = a +:+ w +:+ b ∧ w ∈ credential_names.

Lemma secret_key_spec key : secret_key key = true ↔ names_credential key.
Proof.
  unfold secret_key, re_search. rewrite found_from_spec. destruct spells_secret_key as [Hsound Hcomplete]. split.
  - intros (a & b & o & u & -> & (w & -> & Hw)%Hsound). exists (lower a), (lower w), (lower u).
    by rewrite !lower_app.
  - intros (a & w & b & H & Hw). apply lower_split in H as (a' & v & -> & <- & H).
    apply lower_split in H as (w' & b' & -> & <- & <-). destruct (Hcomplete (last_char None a') w' b' Hw). eauto 10.
Qed.

(** ** What is published *)

(** A published value: at most [n] levels, at most fifty-one items to a list,
    and nothing under a name that looks like a credential. *)
#[warnings="-register-all"]
Inductive published : nat → json → Prop :=
  | published_null n : published n JNull
  | published_bool n b : published n (JBool b)
  | published_int n z : published n (JInt z)
  | published_str n s : published n (JStr s)
  | published_arr n l : (length l ≤ S max_sequence_items)%nat → Forall (published n) l → published (S n) (JArr l)
  | published_obj n l :
      Forall (λ kv, (names_credential kv.1 → kv.2 = JStr "[redacted]") ∧ published n kv.2) l →
      published (S n) (JObj l).

Lemma published_leaf n depth s : published n (redact_leaf depth (JStr s)).
Proof. unfold redact_leaf. case_match; constructor. Qed.

Lemma redact_published v : ∀ depth n, (max_depth < depth + n)%nat → published n (redact_at depth v).
Proof.
  induction v as [| | | |l IH|l IH] using json_nested_ind; intros depth n Hn; simpl;
    (case_match eqn:E; [constructor|]); apply Nat.ltb_ge in E; try constructor;
    (destruct n as [|n]; [lia|]).
  - assert (Forall (published n) (map (redact_at (S depth)) l)) as Hl.
    { apply Forall_map. eapply Forall_impl; [apply IH|]. intros v Hv. apply Hv. lia. }
    case_match eqn:E'; constructor; try done.
    + rewrite length_app, length_take. cbn [length]. lia.
    + apply Forall_app. split; [by apply Forall_take|]. repeat constructor.
    + apply Nat.ltb_ge in E'. rewrite length_map. lia.
  - constructor. apply Forall_map. eapply Forall_impl; [apply IH|]. intros [key v] Hv. simpl in *.
    rewrite <- secret_key_spec. destruct (secret_key key); [split; [done|constructor]|].
    split; [done|]. case_match; [apply published_leaf|]. apply Hv. lia.
Qed.

(** Storing a value keeps what is published of it. *)
Lemma canonical_published v : ∀ n, published n v → published n (canonical v).
Proof.
  induction v as [| | | |l IH|l IH] using json_nested_ind; intros n H; try done; simpl;
    inversion H as [| | | |m ? Hlen Hl|m ? Hl]; subst; rewrite Forall_forall in IH, Hl.
  - constructor; [by rewrite length_map|]. apply Forall_map, Forall_forall. auto.
  - constructor. rewrite order_by_perm. apply Forall_map, Forall_forall. intros [key v] Hkv. simpl.
    destruct (Hl _ Hkv) as [Hkey Hv]. simpl in *. split; [|by apply (IH _ Hkv)].
    intros Hc. by rewrite (Hkey Hc).
Qed.

Example redact_header : public_text "Authorization: Bearer abc" = "Authorization: [redacted]".
Proof. vm_compute. reflexivity. Qed.
Example redact_assignment : public_text "set MY_API_KEY=abc123, then go" = "set MY_API_KEY=[redacted], then go".
Proof. vm_compute. reflexivity. Qed.
Example redact_statement : public_text "my password is hunter2 ok" = "my password is [redacted] ok".
Proof. vm_compute. reflexivity. Qed.

(** A text that starts like a data URI keeps all it says before a comma. *)
Example redact_data_uri : public_text "data:audio/wav;base64,UklGRg==" = "data:audio/wav;base64,[redacted]".
Proof. vm_compute. reflexivity. Qed.
Lemma data_text_not_redacted :
  public_text "my password is hunter2" = "my password is [redacted]" ∧
  public_text "data: my password is hunter2" = "data: my password is hunter2,[redacted]".
Proof. vm_compute. done. Qed.

(** A statement with a colon after its verb loses the verb, not the value. *)
Lemma statement_colon_not_redacted :
  public_text "password is: hunter2" = "password [redacted] hunter2".
Proof. vm_compute. reflexivity. Qed.

(** C7: Whatever value the service publishes, however deep and wide it is, what
    [redact_for_langfuse] makes of it has at most nine levels, at most fifty
    items and their note to a list, and under every name that contains one of
    the credential words, in any case, nothing but the redaction mark; the
    column the event is stored in, read back, keeps that. *)
Theorem redaction_published v :
  published (S max_depth) (redact_for_langfuse v) ∧ published (S max_depth) (canonical (redact_for_langfuse v)).
Proof.
  assert (published (S max_depth) (redact_for_langfuse v)) as H by (apply redact_published; lia).
  split; [done|by apply canonical_published].
Qed.
