(* ===== verification/Protocol.v ===== *)
(** * Identifier contracts ([specs/protocol.py])

    The constrained texts the Pydantic models of several components share:
    identifiers, slugs and dotted scopes, each stripped before it is checked,
    their JSON, and that checking a checked value changes nothing. *)

From S2P Require Import Prelude PyText Json.
#[local] Open Scope string_scope.
#[local] Open Scope list_scope.
#[local] Open Scope Z_scope.

(** ** Slugs *)

Definition is_lower (c : ascii) : bool := let n := code c in ((97 <=? n) && (n <=? 122))%N.
Definition is_digit (c : ascii) : bool := let n := code c in ((48 <=? n) && (n <=? 57))%N.
Definition is_char (n : N) (c : ascii) : bool := (code c =? n)%N.

(** [^[a-z][..]{0,maximum}$] *)
Definition matches (tail : ascii → bool) (maximum : Z) (s : string) : bool :=
  match s with
  | EmptyString => false
  | String c s' => is_lower c && all_chars tail s' && (len s' <=? maximum)
  end.
Definition slug_char (c : ascii) : bool :=
  is_lower c || is_digit c || is_char 95 c || is_char 45 c.

(** [ProtocolSlug] and [ProtocolId] *)
Definition slug (s : string) : option string :=
  let v := strip s in if matches slug_char 63 v then Some v else None.
Definition protocol_id (s : string) : option string := bounded_field 200 s.

(** ** Secret scopes *)

(** [SecretScope]: names joined by dots. *)
Definition name_char (c : ascii) : bool := is_lower c || is_digit c || is_char 95 c.
Definition scope_name (s : string) : bool :=
  match s with EmptyString => false | String c s' => is_lower c && all_chars name_char s' end.
Definition secret_scope (s : string) : option string :=
  let v := strip s in if forallb scope_name (split_char "." v) then Some v else None.

Definition scopes_field (l : list string) : option (list string) :=
  let n := Z.of_nat (length l) in
  if (1 <=? n) && (n <=? 100) then mapM secret_scope l else None.

(** ** Protocol references *)

Record agent_spec_ref := AgentSpecRef {
  ar_tenant : string;
  ar_spec : string;
  ar_revision : Z;
}.
#[global] Instance agent_spec_ref_eq_dec : EqDecision agent_spec_ref.
Proof. solve_decision. Defined.

Definition validate_ref (r : agent_spec_ref) : option agent_spec_ref :=
  match protocol_id (ar_tenant r), slug (ar_spec r) with
  | Some tenant, Some spec =>
      if 1 <=? ar_revision r then Some (AgentSpecRef tenant spec (ar_revision r)) else None
  | _, _ => None
  end.

(** [AgentRunBinding]: the reviewed identity an ingress runs an agent as. *)
Inductive trust_class := OwnerTrust | BackgroundTrust | ExternalTrust.
#[global] Instance trust_class_eq_dec : EqDecision trust_class.
Proof. solve_decision. Defined.

Record run_binding := AgentRunBinding {
  rb_agent : agent_spec_ref;
  rb_kind : string;
  rb_trust : trust_class;
}.
#[global] Instance run_binding_eq_dec : EqDecision run_binding.
Proof. solve_decision. Defined.

Definition validate_binding (b : run_binding) : option run_binding :=
  match validate_ref (rb_agent b), slug (rb_kind b) with
  | Some a, Some k =>
      if negb (Bool.eqb (rb_trust b == OwnerTrust) (k == "owner")) then None
      else if negb (rb_trust b == OwnerTrust) && (ar_spec a == "owner") then None
      else Some (AgentRunBinding a k (rb_trust b))
  | _, _ => None
  end.

(** ** Run contexts *)

(** A thread identifier. *)
Definition protocol_thread_id (s : string) : option string := bounded_field 8192 s.

Definition optional_field {A} (check : A → option A) (o : option A) : option (option A) :=
  match o with Some a => Some <$> check a | None => Some None end.

Record origin_ref := OriginRef {
  or_interface : string;
  or_source : string;
  or_conversation : option string;
  or_message : option string;
}.
#[global] Instance origin_ref_eq_dec : EqDecision origin_ref.
Proof. solve_decision. Defined.

Definition validate_origin (o : origin_ref) : option origin_ref :=
  interface ← slug (or_interface o);
  source ← protocol_id (or_source o);
  conversation ← optional_field protocol_id (or_conversation o);
  message ← optional_field protocol_id (or_message o);
  Some (OriginRef interface source conversation message).

Record run_context := AgentRunContext {
  rx_tenant : string;
  rx_actor : string;
  rx_thread : string;
  rx_channel : string;
  rx_kind : string;
  rx_correlation : string;
  rx_origin : origin_ref;
  rx_agent : agent_spec_ref;
  rx_trust : trust_class;
}.
#[global] Instance run_context_eq_dec : EqDecision run_context.
Proof. solve_decision. Defined.

Definition validate_context (c : run_context) : option run_context :=
  tenant ← protocol_id (rx_tenant c);
  actor ← protocol_id (rx_actor c);
  thread ← protocol_thread_id (rx_thread c);
  channel ← slug (rx_channel c);
  kind ← slug (rx_kind c);
  correlation ← protocol_thread_id (rx_correlation c);
  origin ← validate_origin (rx_origin c);
  agent ← validate_ref (rx_agent c);
  if ar_tenant agent == tenant
  then Some (AgentRunContext tenant actor thread channel kind correlation origin agent (rx_trust c))
  else None.

(** ** As JSON ([model_dump(mode="json")]) *)

Definition optional_json {A} (f : A → json) (o : option A) : json :=
  match o with Some a => f a | None => JNull end.
Definition trust_text (t : trust_class) : string :=
  match t with OwnerTrust => "owner" | BackgroundTrust => "background" | ExternalTrust => "external" end.
Definition ref_json (r : agent_spec_ref) : json :=
  JObj [("tenant_id", JStr (ar_tenant r)); ("spec_id", JStr (ar_spec r));
        ("revision", JInt (ar_revision r))].
Definition origin_json (o : origin_ref) : json :=
  JObj [("interface", JStr (or_interface o)); ("source_id", JStr (or_source o));
        ("conversation_id", optional_json JStr (or_conversation o));
        ("message_id", optional_json JStr (or_message o))].

(** ** Checked values check to themselves *)

Lemma slug_Some s v : slug s = Some v → slug v = Some v.
Proof.
  unfold slug. destruct (matches _ _ _) eqn:E; intros [= <-]. by rewrite strip_stripped, E.
Qed.

Lemma protocol_id_Some s v : protocol_id s = Some v → protocol_id v = Some v.
Proof. intros H%bounded_field_Some. by apply bounded_field_ok. Qed.

Lemma mapM_fixed {A} (f : A → option A) l l' :
  (∀ a b, f a = Some b → f b = Some b) → mapM f l = Some l' → mapM f l' = Some l'.
Proof.
  intros Hf Hl%mapM_Some_1. apply mapM_Some_2.
  induction Hl as [|a b l l' Hab Hl IH]; constructor; eauto.
Qed.

Lemma validate_ref_Some r r' : validate_ref r = Some r' → validate_ref r' = Some r'.
Proof.
  unfold validate_ref. destruct (protocol_id _) as [t|] eqn:E1; [|done].
  destruct (slug _) as [s|] eqn:E2; [|done]. destruct (1 <=? _) eqn:E3; [|done].
  intros [= <-]. simpl. by rewrite (protocol_id_Some _ _ E1), (slug_Some _ _ E2), E3.
Qed.

Lemma validate_binding_Some b b' : validate_binding b = Some b' → validate_binding b' = Some b'.
Proof.
  unfold validate_binding. destruct (validate_ref _) as [a|] eqn:E1; [|done].
  destruct (slug _) as [k|] eqn:E2; [|done]. destruct (negb (Bool.eqb _ _)) eqn:E3; [done|].
  destruct (negb (_ == _) && _) eqn:E4; [done|]. intros [= <-]. simpl.
  by rewrite (validate_ref_Some _ _ E1), (slug_Some _ _ E2), E3, E4.
Qed.

Lemma secret_scope_Some s v : secret_scope s = Some v → secret_scope v = Some v.
Proof.
  unfold secret_scope. destruct (forallb _ _) eqn:E; intros [= <-]. by rewrite strip_stripped, E.
Qed.

Lemma scopes_field_Some l v : scopes_field l = Some v → scopes_field v = Some v.
Proof.
  unfold scopes_field. destruct (_ && _) eqn:E; [|done]. intros H.
  rewrite <- (length_mapM _ _ _ H), E. eapply mapM_fixed; [apply secret_scope_Some|done].
Qed.

Lemma optional_field_Some {A} (f : A → option A) o o' :
  (∀ a b, f a = Some b → f b = Some b) → optional_field f o = Some o' → optional_field f o' = Some o'.
Proof.
  intros Hf. destruct o as [a|]; simpl; [|by intros [= <-]].
  destruct (f a) as [b|] eqn:E; [|done]. intros [= <-]. simpl. by rewrite (Hf _ _ E).
Qed.

Lemma thread_id_Some s v : protocol_thread_id s = Some v → protocol_thread_id v = Some v.
Proof. intros H%bounded_field_Some. by apply bounded_field_ok. Qed.

Lemma validate_origin_Some o o' : validate_origin o = Some o' → validate_origin o' = Some o'.
Proof.
  unfold validate_origin. destruct (slug _) as [i|] eqn:E1; [|done]. simpl.
  destruct (protocol_id _) as [s|] eqn:E2; [|done]. simpl.
  destruct (optional_field _ (or_conversation o)) as [c|] eqn:E3; [|done]. simpl.
  destruct (optional_field _ (or_message o)) as [m|] eqn:E4; [|done]. simpl. intros [= <-]. simpl.
  rewrite (slug_Some _ _ E1); simpl. rewrite (protocol_id_Some _ _ E2); simpl.
  rewrite (optional_field_Some _ _ _ protocol_id_Some E3); simpl.
  by rewrite (optional_field_Some _ _ _ protocol_id_Some E4).
Qed.

(** A checked context is its checked fields. *)
Lemma validate_context_fields c c' :
  validate_context c = Some c' ↔
  (protocol_id (rx_tenant c) = Some (rx_tenant c') ∧ protocol_id (rx_actor c) = Some (rx_actor c') ∧
   protocol_thread_id (rx_thread c) = Some (rx_thread c') ∧ slug (rx_channel c) = Some (rx_channel c') ∧
   slug (rx_kind c) = Some (rx_kind c') ∧ protocol_thread_id (rx_correlation c) = Some (rx_correlation c') ∧
   validate_origin (rx_origin c) = Some (rx_origin c') ∧ validate_ref (rx_agent c) = Some (rx_agent c')) ∧
  ar_tenant (rx_agent c') = rx_tenant c' ∧ rx_trust c' = rx_trust c.
Proof.
  unfold validate_context. split.
  - destruct (protocol_id (rx_tenant c)) as [t|]; [|done]. simpl.
    destruct (protocol_id (rx_actor c)) as [a|]; [|done]. simpl.
    destruct (protocol_thread_id (rx_thread c)) as [th|]; [|done]. simpl.
    destruct (slug (rx_channel c)) as [ch|]; [|done]. simpl.
    destruct (slug (rx_kind c)) as [k|]; [|done]. simpl.
    destruct (protocol_thread_id (rx_correlation c)) as [co|]; [|done]. simpl.
    destruct (validate_origin _) as [o|]; [|done]. simpl.
    destruct (validate_ref _) as [r|]; [|done]. simpl.
    case_bool_decide as E9; [|done]. by intros [= <-].
  - destruct c'. simpl. intros [(-> & -> & -> & -> & -> & -> & -> & ->) [E1 ->]]. simpl.
    by rewrite bool_decide_eq_true_2.
Qed.

Lemma validate_context_Some c c' : validate_context c = Some c' → validate_context c' = Some c'.
Proof.
  intros [(E1 & E2 & E3 & E4 & E5 & E6 & E7 & E8) [E9 _]]%validate_context_fields.
  apply validate_context_fields. split; [|done].
  split_and!; eauto using protocol_id_Some, thread_id_Some, slug_Some, validate_origin_Some, validate_ref_Some.
Qed.
