(* ===== verification/InferenceModels.v ===== *)
(** * Inference contracts ([inference/models.py])

    The model selection of a tenant and the plan a run is resolved to, which
    carries the digest of what it was resolved from. *)

From S2P Require Import Prelude PyText Sha256 Json Protocol.
#[local] Open Scope string_scope.
#[local] Open Scope list_scope.
#[local] Open Scope Z_scope.

Inductive provider := ApiProvider | CodexProvider.
#[global] Instance provider_eq_dec : EqDecision provider.
Proof. solve_decision. Defined.
Definition provider_text (p : provider) : string :=
  match p with ApiProvider => "api" | CodexProvider => "codex" end.

Record inference_selection := InferenceSelection {
  is_provider : provider;
  is_model : string;
  is_effort : option string;
  is_tier : option string;
  is_fallback : bool;
}.
#[global] Instance inference_selection_eq_dec : EqDecision inference_selection.
Proof. solve_decision. Defined.
#[global] Instance inference_selection_fields : Fields inference_selection := λ s,
  InferenceSelection (is_provider s) (is_model s) (is_effort s) (is_tier s) (is_fallback s).

(** [validate_identifier], after [str_strip_whitespace] and the length limits. *)
Definition inference_identifier (least most : Z) (s : string) : option string :=
  let v := strip s in
  if (least <=? len v) && (len v <=? most) && negb (v == "") && all_chars (λ c, (32 <=? code c)%N) v
  then Some v else None.
Definition validate_selection_model (s : inference_selection) : option inference_selection :=
  model ← inference_identifier 1 300 (is_model s);
  effort ← optional_field (inference_identifier 0 50) (is_effort s);
  tier ← optional_field (inference_identifier 0 50) (is_tier s);
  Some (InferenceSelection (is_provider s) model effort tier (is_fallback s)).

Definition selection_json (s : inference_selection) : json :=
  JObj [("provider", JStr (provider_text (is_provider s))); ("model", JStr (is_model s));
        ("reasoning_effort", optional_json JStr (is_effort s)); ("service_tier", optional_json JStr (is_tier s));
        ("fallback_to_api", JBool (is_fallback s))].

Record inference_plan := ResolvedInferencePlan {
  ip_primary : inference_selection;
  ip_revision : Z;
  ip_digest : string;
}.
#[global] Instance inference_plan_eq_dec : EqDecision inference_plan.
Proof. solve_decision. Defined.

(** [ResolvedInferencePlan.resolve] *)
Definition resolve_plan (s : inference_selection) (revision : Z) : inference_plan :=
  ResolvedInferencePlan s revision
    (sha256_hex (dumps true (JObj [("primary", selection_json s); ("preference_revision", JInt revision)]))).

(** ** Checked values check to themselves *)

Lemma inference_identifier_Some a b s v :
  inference_identifier a b s = Some v → inference_identifier a b v = Some v.
Proof.
  unfold inference_identifier. destruct (_ && _) eqn:E; intros [= <-]. by rewrite strip_stripped, E.
Qed.

Lemma validate_selection_Some s s' :
  validate_selection_model s = Some s' → validate_selection_model s' = Some s'.
Proof.
  unfold validate_selection_model. destruct (inference_identifier 1 300 _) as [m|] eqn:E1; [|done]. simpl.
  destruct (optional_field _ (is_effort s)) as [e|] eqn:E2; [|done]. simpl.
  destruct (optional_field _ (is_tier s)) as [t|] eqn:E3; [|done]. intros [= <-]. simpl.
  rewrite (inference_identifier_Some _ _ _ _ E1). simpl.
  rewrite (optional_field_Some _ _ _ (inference_identifier_Some _ _) E2). simpl.
  by rewrite (optional_field_Some _ _ _ (inference_identifier_Some _ _) E3).
Qed.
