(* ===== verification/Contracts.v ===== *)
(** * Contracts of an agent run ([deep_agent/contracts.py])

    The values the agent service exchanges with the dispatcher and the
    interfaces: requests, snapshots, approvals, decisions and events. *)

From S2P Require Import Prelude PyText Json Protocol InferenceModels.
#[local] Open Scope string_scope.
#[local] Open Scope list_scope.
#[local] Open Scope Z_scope.

Inductive run_status :=
  | SnapRunning | SnapInterrupted | SnapResumePending | SnapCompleted | SnapFailed | SnapCancelled.
#[global] Instance run_status_eq_dec : EqDecision run_status.
Proof. solve_decision. Defined.
Definition run_status_text (s : run_status) : string :=
  match s with
  | SnapRunning => "running" | SnapInterrupted => "interrupted" | SnapResumePending => "resume_pending"
  | SnapCompleted => "completed" | SnapFailed => "failed" | SnapCancelled => "cancelled"
  end.
Inductive approval_status := ApprovalPending | ApprovalApprove | ApprovalEdit | ApprovalReject.
#[global] Instance approval_status_eq_dec : EqDecision approval_status.
Proof. solve_decision. Defined.
Inductive event_type :=
  | RunStarted | MessageDelta | ToolStarted | ToolCompleted | ApprovalRequired | ArtifactReady
  | RunCompleted | RunFailed.
#[global] Instance event_type_eq_dec : EqDecision event_type.
Proof. solve_decision. Defined.

Record approval := AgentApproval {
  ap_id : string;
  ap_tool : string;
  ap_description : string;
  ap_arguments : list (string * json);
  ap_decisions : list string;
  ap_status : approval_status;
  ap_edited : option (list (string * json));
  ap_message : option string;
}.
#[global] Instance approval_eq_dec : EqDecision approval.
Proof. solve_decision. Defined.
#[global] Instance approval_fields : Fields approval := λ a,
  AgentApproval (ap_id a) (ap_tool a) (ap_description a) (ap_arguments a) (ap_decisions a)
    (ap_status a) (ap_edited a) (ap_message a).

(** ** Decisions *)

Inductive decision_kind := DecideApprove | DecideEdit | DecideReject.
#[global] Instance decision_kind_eq_dec : EqDecision decision_kind.
Proof. solve_decision. Defined.
Definition decision_text (k : decision_kind) : string :=
  match k with DecideApprove => "approve" | DecideEdit => "edit" | DecideReject => "reject" end.
Definition decision_status (k : decision_kind) : approval_status :=
  match k with DecideApprove => ApprovalApprove | DecideEdit => ApprovalEdit | DecideReject => ApprovalReject end.

Record decision := ApprovalDecision {
  de_approval : string;
  de_kind : decision_kind;
  de_edited : option (list (string * json));
  de_message : option string;
}.
(** [ApprovalDecision.__post_init__] *)
Definition check_decision (d : decision) : outcome decision :=
  match de_kind d, de_edited d with
  | DecideEdit, None => Err (ValueError "edited_arguments are required for edit decisions")
  | _, _ => Ok d
  end.

(** ** Requests *)

Record run_request := AgentRunRequest {
  rq_context : run_context;
  rq_text : string;
  rq_files : list string;
  rq_key : option string;
}.
#[global] Instance run_request_eq_dec : EqDecision run_request.
Proof. solve_decision. Defined.

(** [AgentRunRequest.__post_init__] *)
Definition check_request (r : run_request) : outcome run_request :=
  if strip (rq_text r) == "" then Err (ValueError "text is required")
  else match rq_key r with
  | None => Ok r
  | Some key =>
      let key := strip key in
      if (key == "") || (300 <? len key) || negb (all_chars (λ c, (32 <=? code c)%N) key)
      then Err (ValueError "idempotency_key is invalid")
      else Ok r
  end.

Lemma check_request_Ok r r' : check_request r = Ok r' → r' = r.
Proof. unfold check_request. repeat case_match; congruence. Qed.

(** ** Snapshots and events *)

Record snapshot := AgentRunSnapshot {
  sn_run : string;
  sn_context : run_context;
  sn_status : run_status;
  sn_text : string;
  sn_error : string;
  sn_approvals : list approval;
  sn_created : string;
  sn_updated : string;
  sn_plan : option inference_plan;
}.

Record run_event := AgentRunEvent {
  en_type : event_type;
  en_run : string;
  en_sequence : Z;
  en_timestamp : string;
  en_data : json;
}.
