(* ===== verification/Checkpoints.v ===== *)
(** * Identifiers of runs and checkpoints

    The label of a tenant ([persistence/tenant_namespace.py]), the checkpoint
    thread a run context continues and the digest an idempotency key is bound
    to ([deep_agent/service.py]), and that contexts of different authority
    never continue one another's checkpoints. *)

From S2P Require Import Prelude PyText Sha256 Json Protocol Contracts.
#[local] Open Scope string_scope.
#[local] Open Scope list_scope.
#[local] Open Scope Z_scope.

(** ** Identifiers *)

(** [re.sub("[^a-z0-9_-]+", "-", s)] *)
Fixpoint dash_runs (in_run : bool) (s : string) : string :=
  match s with
  | EmptyString => EmptyString
  | String c s' =>
      if slug_char c then String c (dash_runs false s')
      else if in_run then dash_runs true s' else String (ascii_of_N 45) (dash_runs true s')
  end.

(** [s.strip("-_")] *)
Definition dash_char (c : ascii) : bool := is_char 45 c || is_char 95 c.
Fixpoint lstrip_dashes (s : string) : string :=
  match s with
  | String c s' => if dash_char c then lstrip_dashes s' else s
  | EmptyString => EmptyString
  end.
Fixpoint rstrip_dashes (s : string) : string :=
  match s with
  | EmptyString => EmptyString
  | String c s' =>
      match rstrip_dashes s' with
      | EmptyString => if dash_char c then EmptyString else String c EmptyString
      | t => String c t
      end
  end.
Definition strip_dashes (s : string) : string := rstrip_dashes (lstrip_dashes s).

(** [tenant_namespace_label] *)
Definition tenant_namespace_label (tenant_id : string) : outcome string :=
  let tenant := strip tenant_id in
  if tenant == "" then Err (ValueError "tenant_id is required")
  else
    let slug := take_text 32 (strip_dashes (dash_runs false (casefold tenant))) in
    let digest := take_text 24 (sha256_hex tenant) in
    Ok ("ot-" +:+ (if slug == "" then "tenant" else slug) +:+ "-" +:+ digest).

Definition nul_text : string := String (ascii_of_N 0) EmptyString.
Definition owner_shared (c : run_context) : bool :=
  (rx_trust c == OwnerTrust) && (rx_kind c == "owner") && (ar_spec (rx_agent c) == "owner").
Definition authority_scope (c : run_context) : string :=
  if owner_shared c then "owner-shared"
  else trust_text (rx_trust c) +:+ "-" +:+
    take_text 16 (sha256_hex (join_text nul_text
      [rx_actor c; or_interface (rx_origin c); or_source (rx_origin c); trust_text (rx_trust c)])).

(** [_checkpoint_thread_id] *)
Definition checkpoint_thread_id (c : run_context) : outcome string :=
  label ← tenant_namespace_label (rx_tenant c);
  Ok (label +:+ ":spec-" +:+ ar_spec (rx_agent c) +:+ "-r" +:+ pretty (ar_revision (rx_agent c)) +:+ ":"
      +:+ authority_scope c +:+ ":" +:+ rx_kind c +:+ ":" +:+ take_text 32 (sha256_hex (rx_thread c))).

(** [_request_digest] *)
Definition request_digest (r : run_request) : string :=
  let c := rq_context r in
  sha256_hex (dumps false (JObj
    [("actor_id", JStr (rx_actor c)); ("thread_id", JStr (rx_thread c)); ("channel", JStr (rx_channel c));
     ("run_kind", JStr (rx_kind c)); ("origin", origin_json (rx_origin c)); ("agent_spec", ref_json (rx_agent c));
     ("trust_class", JStr (trust_text (rx_trust c))); ("text", JStr (rq_text r));
     ("file_ids", JArr (JStr <$> rq_files r))])).

(** ** Taking identifiers apart *)

Lemma all_chars_app p s t : all_chars p (s +:+ t) = all_chars p s && all_chars p t.
Proof.
  induction s as [|c s IH]; [done|]. change (String c s +:+ t) with (String c (s +:+ t)). simpl.
  by rewrite IH, andb_assoc.
Qed.
Lemma all_chars_impl p q s : (∀ c, p c = true → q c = true) → all_chars p s = true → all_chars q s = true.
Proof.
  intros H. induction s as [|c s IH]; [done|]. simpl. intros [Hc Hs]%andb_true_iff.
  by rewrite (H _ Hc), IH.
Qed.
Lemma all_chars_take p n s : all_chars p s = true → all_chars p (take_text n s) = true.
Proof.
  unfold take_text. revert n. induction s as [|c s IH]; intros [|n]; try done. simpl.
  intros [Hc Hs]%andb_true_iff. by rewrite Hc, IH.
Qed.

(** A separator that only occurs once on the left, or on the right. *)
Definition without (sep : ascii) (s : string) : Prop := all_chars (λ c, negb (c == sep)) s = true.
Lemma split_left sep s t u v :
  without sep s → without sep t → s +:+ String sep u = t +:+ String sep v → s = t ∧ u = v.
Proof.
  unfold without. revert t. induction s as [|c s IH]; intros [|d t] Hs Ht H.
  - by injection H.
  - injection H as <- _. simpl in Ht. by rewrite bool_decide_eq_true_2 in Ht.
  - injection H as -> _. simpl in Hs. by rewrite bool_decide_eq_true_2 in Hs.
  - simpl in Hs, Ht. apply andb_true_iff in Hs as [_ Hs], Ht as [_ Ht]. injection H as <- H.
    by destruct (IH t Hs Ht H) as [-> ->].
Qed.
Lemma absent_middle sep s u v : without sep v → s +:+ String sep u ≠ v.
Proof.
  unfold without. intros Hv <-. rewrite all_chars_app in Hv. simpl in Hv.
  by rewrite bool_decide_eq_true_2, andb_false_r in Hv.
Qed.
Lemma split_right sep s t u v :
  without sep u → without sep v → s +:+ String sep u = t +:+ String sep v → s = t ∧ u = v.
Proof.
  intros Hu Hv. revert t. induction s as [|c s IH]; intros [|d t] H.
  - by injection H.
  - injection H as _ H. exfalso. by eapply (absent_middle sep t v u).
  - injection H as _ H. exfalso. by eapply (absent_middle sep s u v).
  - injection H as <- H. by destruct (IH t H) as [-> ->].
Qed.

Lemma digits_go x : ∀ s, all_chars is_digit s = true → all_chars is_digit (pretty_N_go x s) = true.
Proof.
  induction x as [x IH] using (well_founded_induction N.lt_wf_0). intros s Hs.
  destruct (decide (x = 0)%N) as [->|Hx]; [by rewrite pretty_N_go_0|].
  rewrite pretty_N_go_step by lia. apply IH; [apply N.div_lt; lia|]. simpl. rewrite Hs, andb_true_r.
  assert (x `mod` 10 < 10)%N as Hm by (apply N.mod_lt; lia). revert Hm. generalize (x `mod` 10)%N. intros n Hn.
  unfold pretty_N_char. by repeat case_match.
Qed.
Lemma digits_pretty z : 0 <= z → all_chars is_digit (pretty z) = true.
Proof.
  intros Hz. destruct z as [|p|p]; [done| |lia]. change (pretty (Z.pos p)) with (pretty (N.pos p)).
  unfold pretty, pretty_N. destruct (decide _); [done|]. by apply digits_go.
Qed.

Lemma slug_chars s : slug s = Some s → all_chars slug_char s = true.
Proof.
  unfold slug. destruct (matches _ _ _) eqn:E; [|done]. intros [= Hs]. rewrite Hs in E. unfold matches in E.
  destruct s as [|c s]; [done|]. apply andb_true_iff in E as [[Hc E]%andb_true_iff _]. simpl.
  unfold slug_char at 1. by rewrite Hc, E.
Qed.

Lemma dash_runs_chars s : ∀ b, all_chars slug_char (dash_runs b s) = true.
Proof. induction s as [|c s IH]; intros b; [done|]. simpl. destruct (slug_char c) eqn:E; [simpl; by rewrite E, IH|]. by destruct b; simpl; rewrite IH. Qed.
Lemma lstrip_dashes_chars p s : all_chars p s = true → all_chars p (lstrip_dashes s) = true.
Proof.
  induction s as [|c s IH]; [done|]. simpl. intros H. destruct (dash_char c); [|done]. apply andb_true_iff in H as [_ H]. auto.
Qed.
Lemma rstrip_dashes_chars p s : all_chars p s = true → all_chars p (rstrip_dashes s) = true.
Proof.
  induction s as [|c s IH]; [done|]. simpl. intros [Hc H%IH]%andb_true_iff.
  destruct (rstrip_dashes s); [destruct (dash_char c)|]; simpl; rewrite ?Hc; done.
Qed.

(** What a digest is cut to. *)
Definition fingerprint (n : nat) (s : string) : string := take_text n (sha256_hex s).
Lemma length_fingerprint n s : (n ≤ 64)%nat → String.length (fingerprint n s) = n.
Proof. intros H. unfold fingerprint. rewrite length_take_text, length_sha256_hex. lia. Qed.
Lemma fingerprint_chars p n s : hex_alphabet p = true → all_chars p (fingerprint n s) = true.
Proof. intros H. by apply all_chars_take, sha256_hex_alphabet. Qed.

Definition label_slug (tenant : string) : string :=
  let slug := take_text 32 (strip_dashes (dash_runs false (casefold (strip tenant)))) in
  if slug == "" then "tenant" else slug.
Lemma tenant_label_Ok tenant label : tenant_namespace_label tenant = Ok label →
  label = "ot-" +:+ label_slug tenant +:+ "-" +:+ fingerprint 24 (strip tenant) ∧ all_chars slug_char label = true.
Proof.
  unfold tenant_namespace_label. case_bool_decide; [done|]. intros Hl.
  assert (∀ x y : string, Ok x = Ok y → x = y) as Hinj by congruence. apply Hinj in Hl. subst label. split; [done|]. rewrite !all_chars_app.
  change (take_text 24 (sha256_hex ?t)) with (fingerprint 24 t). rewrite (fingerprint_chars slug_char) by done. case_bool_decide; [done|].
  rewrite all_chars_take; [done|]. apply rstrip_dashes_chars, lstrip_dashes_chars, dash_runs_chars.
Qed.

(** ** Isolation *)

Lemma authority_scope_chars c : all_chars slug_char (authority_scope c) = true.
Proof.
  unfold authority_scope. destruct (owner_shared c); [done|]. rewrite !all_chars_app.
  change (take_text 16 (sha256_hex ?s)) with (fingerprint 16 s). rewrite (fingerprint_chars slug_char) by done.
  by destruct (rx_trust c).
Qed.

Definition colon : ascii := ascii_of_N 58.
Lemma slug_without_colon s : all_chars slug_char s = true → without colon s.
Proof. apply all_chars_impl. intros c. unfold slug_char. by destruct c as [[] [] [] [] [] [] [] []]. Qed.

(** The authority a context acts under, when it is not the owner's shared one. *)
Definition authority_text (c : run_context) : string :=
  join_text nul_text [rx_actor c; or_interface (rx_origin c); or_source (rx_origin c); trust_text (rx_trust c)].

Lemma authority_scope_eq c c' : authority_scope c = authority_scope c' →
  rx_trust c = rx_trust c' ∧ owner_shared c = owner_shared c' ∧
  (owner_shared c = false → fingerprint 16 (authority_text c) = fingerprint 16 (authority_text c')).
Proof.
  unfold authority_scope. fold (authority_text c). fold (authority_text c').
  change (take_text 16 (sha256_hex ?t)) with (fingerprint 16 t).
  assert (∀ t, String.length (fingerprint 16 t) = 16%nat) as Hl by (intros t; apply length_fingerprint; lia).
  destruct (owner_shared c) eqn:E, (owner_shared c') eqn:E'; intros H.
  - unfold owner_shared in E, E'. repeat (apply andb_true_iff in E as [E _]; apply andb_true_iff in E' as [E' _]).
    apply bool_decide_eq_true in E, E'. split_and!; [congruence|done|done].
  - exfalso. apply (f_equal String.length) in H. rewrite !length_app_text, Hl in H. by destruct (rx_trust c').
  - exfalso. apply (f_equal String.length) in H. rewrite !length_app_text, Hl in H. by destruct (rx_trust c).
  - rewrite <- !text_app_assoc in H.
    assert (rx_trust c = rx_trust c') as Ht.
    { apply (f_equal String.length) in H as Hn. rewrite !length_app_text, !Hl in Hn.
      destruct (rx_trust c), (rx_trust c'); try done; simpl in Hn; try lia. }
    split_and!; [done|done|]. intros _. rewrite Ht in H. by apply text_app_inj_l in H.
Qed.

Definition spec_text (r : agent_spec_ref) : string := "spec-" +:+ ar_spec r +:+ "-r" +:+ pretty (ar_revision r).
Lemma spec_text_inj r r' :
  1 <= ar_revision r → 1 <= ar_revision r' → spec_text r = spec_text r' →
  ar_spec r = ar_spec r' ∧ ar_revision r = ar_revision r'.
Proof.
  assert (∀ r, spec_text r = ("spec-" +:+ ar_spec r +:+ "-") +:+ String (ascii_of_N 114) (pretty (ar_revision r))) as Hr.
  { intros x. unfold spec_text. by rewrite !text_app_assoc. }
  assert (∀ z, 1 <= z → without (ascii_of_N 114) (pretty z)) as Hd.
  { intros z Hz. eapply all_chars_impl; [|apply digits_pretty; lia].
    intros ch. by destruct ch as [[] [] [] [] [] [] [] []]. }
  intros H1 H2 H. rewrite !Hr in H. apply split_right in H as [H Hz]; [|by apply Hd..]. split.
  - apply text_app_inj_l in H. by apply text_app_inj_r in H.
  - by apply (inj pretty).
Qed.

Lemma checkpoint_parts c k : validate_context c = Some c → checkpoint_thread_id c = Ok k →
  ∃ label, tenant_namespace_label (rx_tenant c) = Ok label ∧
  k = label +:+ String colon (spec_text (rx_agent c) +:+
        String colon (authority_scope c +:+ String colon (rx_kind c +:+ String colon (fingerprint 32 (rx_thread c))))) ∧
  all_chars slug_char label = true ∧ without colon (spec_text (rx_agent c)) ∧
  1 <= ar_revision (rx_agent c) ∧ all_chars slug_char (rx_kind c) = true.
Proof.
  intros Hv. unfold checkpoint_thread_id. destruct (tenant_namespace_label (rx_tenant c)) as [label|] eqn:E; [|done].
  simpl. intros H. assert (∀ x y : string, Ok x = Ok y → x = y) as Hinj by congruence. apply Hinj in H. subst k.
  exists label. apply tenant_label_Ok in E as [_ Hl].
  apply validate_context_fields in Hv as [(_ & _ & _ & _ & Hk & _ & _ & Hr) _].
  unfold validate_ref in Hr. destruct (protocol_id _); [|done]. destruct (slug (ar_spec _)) as [v|] eqn:Es; [|done].
  destruct (1 <=? _) eqn:Er; [|done]. apply Z.leb_le in Er. injection Hr as Hr.
  assert (v = ar_spec (rx_agent c)) as -> by by rewrite <- Hr.
  split_and!; try done; [unfold spec_text; by rewrite !text_app_assoc| |by apply slug_chars].
  unfold without, spec_text. rewrite !all_chars_app. apply slug_chars, slug_without_colon in Es. rewrite Es.
  eapply all_chars_impl; [|apply digits_pretty; lia]. intros ch. by destruct ch as [[] [] [] [] [] [] [] []].
Qed.

(** C8: runs share a checkpoint thread only under the same agent specification,
    revision, run kind, trust and authority, and for what hashes to the same
    tenant and thread. *)
Theorem checkpoint_isolated c c' k :
  validate_context c = Some c → validate_context c' = Some c' →
  checkpoint_thread_id c = Ok k → checkpoint_thread_id c' = Ok k →
  ar_spec (rx_agent c) = ar_spec (rx_agent c') ∧ ar_revision (rx_agent c) = ar_revision (rx_agent c') ∧
  rx_kind c = rx_kind c' ∧ rx_trust c = rx_trust c' ∧ owner_shared c = owner_shared c' ∧
  fingerprint 24 (strip (rx_tenant c)) = fingerprint 24 (strip (rx_tenant c')) ∧
  fingerprint 32 (rx_thread c) = fingerprint 32 (rx_thread c') ∧
  (owner_shared c = false → fingerprint 16 (authority_text c) = fingerprint 16 (authority_text c')).
Proof.
  intros Hv Hv' Hk Hk'.
  destruct (checkpoint_parts c k Hv Hk) as (l & Hlab & -> & Hl & Hs & Hr & Hki).
  destruct (checkpoint_parts c' _ Hv' Hk') as (l' & Hlab' & H & Hl' & Hs' & Hr' & Hki').
  apply split_left in H as [-> H]; [|by apply slug_without_colon..].
  apply split_left in H as [Hspec H]; [|done..].
  apply split_left in H as [Hscope H]; [|by apply slug_without_colon, authority_scope_chars..].
  apply split_left in H as [Hkind H]; [|by apply slug_without_colon..].
  apply spec_text_inj in Hspec as [Hsp Hrev]; [|done..]. apply authority_scope_eq in Hscope as (Ht & Hsh & Hau).
  split_and!; try done. apply tenant_label_Ok in Hlab as [-> _], Hlab' as [E _].
  rewrite <- !text_app_assoc in E. apply text_app_split in E as [_ E]; [done|].
  apply (f_equal String.length) in E. rewrite !length_app_text, !length_fingerprint in E by lia.
  rewrite !length_app_text. lia.
Qed.

Abbreviation sample_external thread :=
  (AgentRunContext "tenant_1" "visitor_1" thread "web" "intake" "corr_1" (OriginRef "web" "form" None None)
     (AgentSpecRef "tenant_1" "intake-agent" 2) ExternalTrust).
Lemma checkpoint_isolated_witness :
  ∃ k, checkpoint_thread_id (sample_external "thread_1") = Ok k ∧
    fingerprint 16 (authority_text (sample_external "thread_1")) =
    fingerprint 16 (authority_text (sample_external "thread_1")).
Proof.
  destruct (checkpoint_thread_id (sample_external "thread_1")) as [k|] eqn:E; [|exfalso; revert E; vm_compute; discriminate].
  exists k. split; [reflexivity|].
  destruct (checkpoint_isolated (sample_external "thread_1") (sample_external "thread_1") k) as (_ & _ & _ & _ & _ & _ & _ & H);
    [vm_compute; reflexivity|vm_compute; reflexivity|exact E|exact E|].
  apply H. vm_compute. reflexivity.
Defined.
