(* ===== verification/AgentRuns.v ===== *)
(** * The run ledger of the agent service ([deep_agent/service.py])

    The database [agent_runs.db] of [DeepAgentService]: runs with their status,
    approvals and idempotency keys, the numbered event log of each run, and the
    threads of the owner's client. One definition per method that reads or
    writes it. The tasks that drive the runs are in [AgentService]. *)

From S2P Require Import Prelude Sqlite PyText Clock Sha256 Json PyJson Langfuse Protocol InferenceModels Contracts.
From S2P Require Import Checkpoints.
#[local] Open Scope string_scope.
#[local] Open Scope list_scope.
#[local] Open Scope Z_scope.

(** ** Tables *)

Definition active_status (s : run_status) : bool :=
  match s with SnapRunning | SnapInterrupted | SnapResumePending => true | _ => false end.
Definition terminal_status (s : run_status) : bool := negb (active_status s).

Record thread_row := ThreadRow {
  th_tenant : string;
  th_id : string;
  th_title : string;
  th_channel : string;
  th_archived : bool;
  th_created : Z;
  th_updated : Z;
}.
#[global] Instance thread_row_fields : Fields thread_row := λ t,
  ThreadRow (th_tenant t) (th_id t) (th_title t) (th_channel t) (th_archived t) (th_created t) (th_updated t).

Record event_entry := EventEntry {
  ee_run : string;
  ee_sequence : Z;
  ee_type : event_type;
  ee_timestamp : Z;
  ee_data : json;
}.

Record run_row := RunRow {
  rn_id : string;
  rn_tenant : string;
  rn_actor : string;
  rn_thread : string;
  rn_checkpoint : string;
  rn_channel : string;
  rn_kind : string;
  rn_origin : origin_ref;
  rn_spec : string;
  rn_spec_revision : Z;
  rn_trust : trust_class;
  rn_correlation : string;
  rn_key : option string;
  rn_status : run_status;
  rn_text : string;
  rn_error : string;
  rn_approvals : list approval;
  rn_created : Z;
  rn_updated : Z;
  rn_sequence : Z;
  rn_digest : string;
  rn_generation : Z;
  rn_dynamic : string;
  rn_request : string;
  rn_files : list string;
  rn_plan : inference_plan;
}.
#[global] Instance run_row_fields : Fields run_row := λ r,
  RunRow (rn_id r) (rn_tenant r) (rn_actor r) (rn_thread r) (rn_checkpoint r) (rn_channel r) (rn_kind r)
    (rn_origin r) (rn_spec r) (rn_spec_revision r) (rn_trust r) (rn_correlation r) (rn_key r) (rn_status r)
    (rn_text r) (rn_error r) (rn_approvals r) (rn_created r) (rn_updated r) (rn_sequence r) (rn_digest r)
    (rn_generation r) (rn_dynamic r) (rn_request r) (rn_files r) (rn_plan r).

(** [ld_observed] are the snapshots the run observer was called with. *)
Record ledger := Ledger {
  ld_runs : list run_row;
  ld_events : list event_entry;
  ld_threads : list thread_row;
  ld_observed : list (snapshot);
}.
#[global] Instance ledger_fields : Fields ledger := λ d,
  Ledger (ld_runs d) (ld_events d) (ld_threads d) (ld_observed d).
Definition no_runs : ledger := Ledger [] [] [] [].

Definition run_at (id : string) (r : run_row) : bool := rn_id r == id.
Definition find_run (id : string) (d : ledger) : option run_row := select_one (run_at id) (ld_runs d).
Definition keyed (tenant key : string) (r : run_row) : bool := (rn_tenant r == tenant) && (rn_key r == Some key).
Definition live_at (checkpoint : string) (r : run_row) : bool :=
  (rn_checkpoint r == checkpoint) && active_status (rn_status r).

Definition not_found (id : string) : exn := KeyError ("agent run not found: " +:+ id).
Definition key_conflict : exn :=
  AgentRunIdempotencyConflictError "the idempotency key belongs to a different agent run request".
Definition checkpoint_conflict : exn :=
  AgentRunCheckpointConflictError "the checkpoint thread already has an unresolved agent run".

(** [_snapshot_from_row] *)
Definition row_context (r : run_row) : run_context :=
  AgentRunContext (rn_tenant r) (rn_actor r) (rn_thread r) (rn_channel r) (rn_kind r) (rn_correlation r)
    (rn_origin r)
    (AgentSpecRef (rn_tenant r) (if rn_spec r == "" then rn_kind r else rn_spec r) (Z.max 1 (rn_spec_revision r)))
    (rn_trust r).
Definition snapshot_from_row (r : run_row) : outcome (snapshot) :=
  match validate_context (row_context r) with
  | Some c => Ok (AgentRunSnapshot (rn_id r) c (rn_status r) (rn_text r) (rn_error r) (rn_approvals r)
                    (utc_isoformat (rn_created r)) (utc_isoformat (rn_updated r)) (Some (rn_plan r)))
  | None => Err (ValidationError "AgentRunContext")
  end.

Definition get_run (id : string) : M ledger (option (snapshot)) :=
  row ← gets (find_run id);
  match row with
  | None => mret None
  | Some r => s ← from_outcome (snapshot_from_row r); mret (Some s)
  end.
Definition run_status_of (id : string) : M ledger run_status :=
  row ← gets (find_run id);
  match row with None => raise (not_found id) | Some r => mret (rn_status r) end.
Definition last_sequence (id : string) : M ledger Z :=
  row ← gets (find_run id);
  match row with None => raise (not_found id) | Some r => mret (rn_sequence r) end.

(** ** Admission *)

(** The run a tenant's idempotency key belongs to. *)
Definition existing_run (r : run_request) (d : ledger) : option run_row :=
  match rq_key r with
  | Some key => select_one (keyed (rx_tenant (rq_context r)) key) (ld_runs d)
  | None => None
  end.
Definition idempotent_run_id (r : run_request) (digest : string) : M ledger (option string) :=
  existing ← gets (existing_run r);
  match existing with
  | None => mret None
  | Some e => unless (rn_digest e == digest) key_conflict;; mret (Some (rn_id e))
  end.

Definition require_checkpoint_available (r : run_request) (allowed : option string) : M ledger unit :=
  checkpoint ← from_outcome (checkpoint_thread_id (rq_context r));
  active ← gets (λ d, select_one (live_at checkpoint) (ld_runs d));
  match active with
  | None => mret tt
  | Some a => unless (rn_id a == default "" allowed) checkpoint_conflict
  end.

(** The title of a thread from its first request. *)
Definition normalize_thread_title (value : string) : string := take_text 120 (join_text " " (split_words value)).
Definition thread_title (request : string) : string :=
  let text := join_text " " (split_words request) in
  if (text == "") || (text == "/regenerate") then "New session" else normalize_thread_title (take_text 80 text).

Definition thread_at (tenant id : string) (t : thread_row) : bool := (th_tenant t == tenant) && (th_id t == id).
Definition upsert_thread (t : thread_row) : M ledger unit :=
  modify (λ d, d <| ld_threads :=
    if exists_row (thread_at (th_tenant t) (th_id t)) (ld_threads d) then
      update (thread_at (th_tenant t) (th_id t))
        (λ o, o <| th_title := if bool_decide (th_title o ∈ ["New session"; "Previous session"])
                                  && negb (th_title t == "New session") then th_title t else th_title o |>
                <| th_channel := th_channel t |> <| th_archived := false |> <| th_updated := th_updated t |>)
        (ld_threads d)
    else ld_threads d ++ [t] |>).

(** [PRIMARY KEY (run_id)] and the unique index on (tenant_id, idempotency_key). *)
Definition run_clash (r r' : run_row) : bool :=
  run_at (rn_id r) r' || match rn_key r with Some key => keyed (rn_tenant r) key r' | None => false end.
Definition add_run (r : run_row) : M ledger unit :=
  try_modify (λ d, t ← insert_row run_clash r (ld_runs d); Some (d <| ld_runs := t |>))
    (IntegrityError "UNIQUE constraint failed").

Definition new_run (id checkpoint : string) (r : run_request) (digest : string) (generation : Z)
    (dynamic : string) (plan : inference_plan) (now : Z) : run_row :=
  let c := rq_context r in
  RunRow id (rx_tenant c) (rx_actor c) (rx_thread c) checkpoint (rx_channel c) (rx_kind c) (rx_origin c)
    (ar_spec (rx_agent c)) (ar_revision (rx_agent c)) (rx_trust c) (rx_correlation c) (rq_key r)
    SnapRunning "" "" [] now now 0 digest generation dynamic (public_text (rq_text r)) (rq_files r) plan.

(** [_insert_run]; the identifier of the run that has the key, old or new. *)
Definition insert_run (id checkpoint : string) (r : run_request) (digest : string) (generation : Z)
    (dynamic : string) (plan : inference_plan) (now : Z) : M ledger string :=
  let c := rq_context r in
  transaction (
    existing ← gets (existing_run r);
    match existing with
    | Some e => unless (rn_digest e == digest) key_conflict;; mret (rn_id e)
    | None =>
        active ← gets (λ d, exists_row (live_at checkpoint) (ld_runs d));
        unless (negb active) checkpoint_conflict;;
        upsert_thread (ThreadRow (rx_tenant c) (rx_thread c) (thread_title (public_text (rq_text r)))
                         (rx_channel c) false now now);;
        add_run (new_run id checkpoint r digest generation dynamic plan now);;
        mret id
    end).

(** [open_stream], up to the start of the run's task: the run and whether it was
    created. [fresh] is the identifier drawn for it, [before] the caller's hook,
    [replaced] the run it may take the thread from. *)
Definition open_stream (r : run_request) (transform : option (string → string)) (before : option (M ledger unit))
    (replaced : option string) (fresh : string) (generation : Z) (dynamic : string) (plan : inference_plan) (now : Z) :
    M ledger (string * bool) :=
  let digest := request_digest r in
  existing ← idempotent_run_id r digest;
  match existing with
  | Some id => mret (id, false)
  | None =>
      require_checkpoint_available r replaced;;
      prepared ← from_outcome (match transform with
                               | Some f => check_request (AgentRunRequest (rq_context r) (f (rq_text r)) (rq_files r) (rq_key r))
                               | None => Ok r
                               end);
      match before with
      | Some hook => hook;; require_checkpoint_available r None
      | None => mret tt
      end;;
      checkpoint ← from_outcome (checkpoint_thread_id (rq_context r));
      id ← insert_run fresh checkpoint prepared digest generation dynamic plan now;
      mret (id, id == fresh)
  end.

(** ** Events and transitions *)

Definition touch_thread (r : run_row) (now : Z) : M ledger unit :=
  modify (λ d, d <| ld_threads :=
    update (thread_at (rn_tenant r) (rn_thread r)) (λ t, t <| th_updated := now |>) (ld_threads d) |>).
Definition add_event (e : event_entry) : M ledger unit :=
  try_modify (λ d, t ← insert_row (λ x y, (ee_run y == ee_run x) && (ee_sequence y =? ee_sequence x)) e (ld_events d);
                   Some (d <| ld_events := t |>)) (IntegrityError "UNIQUE constraint failed").
Definition write_run (id : string) (f : run_row → run_row) : M ledger unit :=
  modify (λ d, d <| ld_runs := update (run_at id) f (ld_runs d) |>).

(** [_append_event] *)
Definition append_event (id : string) (type : event_type) (data : json) (now : Z) : M ledger (option run_event) :=
  transaction (
    row ← gets (find_run id);
    match row with
    | None => raise (not_found id)
    | Some r =>
        if terminal_status (rn_status r) then mret None
        else
          let sequence := rn_sequence r + 1 in
          add_event (EventEntry id sequence type now (canonical (redact_for_langfuse data)));;
          write_run id (λ r, r <| rn_sequence := sequence |> <| rn_updated := now |>);;
          touch_thread r now;;
          mret (Some (AgentRunEvent type id sequence (utc_isoformat now) (redact_for_langfuse data)))
    end).

(** [_transition_with_event] *)
Definition transition_with_event (id : string) (allowed : list run_status) (status : run_status) (type : event_type)
    (data : json) (text error : option string) (approvals : option (list approval)) (now : Z) :
    M ledger (option run_event) :=
  transaction (
    row ← gets (find_run id);
    match row with
    | None => raise (not_found id)
    | Some r =>
        if negb (bool_decide (rn_status r ∈ allowed)) then mret None
        else
          let sequence := rn_sequence r + 1 in
          write_run id (λ r, r <| rn_status := status |> <| rn_sequence := sequence |> <| rn_updated := now |>
            <| rn_text := from_option public_text (rn_text r) text |> <| rn_error := default (rn_error r) error |>
            <| rn_approvals := default (rn_approvals r) approvals |>);;
          touch_thread r now;;
          add_event (EventEntry id sequence type now (canonical (redact_for_langfuse data)));;
          mret (Some (AgentRunEvent type id sequence (utc_isoformat now) (redact_for_langfuse data)))
    end).

(** [_update_run]; whether the row was updated. *)
Definition update_run (id : string) (status : option run_status) (text error : option string)
    (approvals : option (list approval)) (allowed : list run_status) (now : Z) : M ledger bool :=
  let p r := run_at id r && bool_decide (rn_status r ∈ allowed) in
  count ← gets (λ d, rowcount p (ld_runs d));
  modify (λ d, d <| ld_runs := update p (λ r, r <| rn_updated := now |>
      <| rn_status := default (rn_status r) status |> <| rn_text := from_option public_text (rn_text r) text |>
      <| rn_error := default (rn_error r) error |> <| rn_approvals := default (rn_approvals r) approvals |>)
    (ld_runs d) |>);;
  mret (count =? 1)%nat.

(** [_observe_run]; what the observer raises is swallowed. *)
Definition observe_run (id : string) : M ledger unit :=
  s ← get_run id;
  match s with
  | Some s => if terminal_status (sn_status s) then modify (λ d, d <| ld_observed := ld_observed d ++ [s] |>) else mret tt
  | None => mret tt
  end.

Definition run_cancelled_message : string := "The agent run was cancelled before completion.".
Definition run_interrupted_message : string :=
  "OpenTulpa restarted while this agent run was active. The in-flight run was stopped, and tool or shell actions were not replayed automatically. Send the request again if you still want it done.".
Definition failure_data (code message : string) (retryable : bool) : json :=
  JObj [("code", JStr code); ("message", JStr message); ("retryable", JBool retryable)].

(** A transition to a settled status and the observer's call, as every caller makes them. *)
Definition settle_run (id : string) (allowed : list run_status) (status : run_status) (type : event_type)
    (data : json) (text error : option string) (approvals : option (list approval)) (now : Z) :
    M ledger (option run_event) :=
  event ← transition_with_event id allowed status type data text error approvals now;
  match event with Some e => observe_run id;; mret (Some e) | None => mret None end.

(** [_cancel_with_event] and [_fail_restart_interrupted_run] *)
Definition cancel_with_event (id : string) (allowed : list run_status) (now : Z) : M ledger unit :=
  settle_run id allowed SnapCancelled RunFailed
    (failure_data "agent_run_cancelled" run_cancelled_message false) None (Some run_cancelled_message) None now;;
  mret tt.
Definition fail_restart_interrupted_run (id : string) (allowed : list run_status) (now : Z) : M ledger unit :=
  settle_run id allowed SnapFailed RunFailed
    (failure_data "agent_run_interrupted_by_restart" run_interrupted_message true) None
    (Some run_interrupted_message) None now;;
  mret tt.

(** [_reconcile_stale_running_runs] *)
Definition oldest (r r' : run_row) : bool := rn_created r <=? rn_created r'.
Definition reconcile_stale_running_runs (now : Z) : M ledger unit :=
  rows ← gets (λ d, order_by oldest (select (λ r, rn_status r == SnapRunning) (ld_runs d)));
  for_each (rn_id <$> rows) (λ id, fail_restart_interrupted_run id [SnapRunning] now).

(** [cancel]; [active] tells whether the run's task is still running, which when
    cancelled cancels its run itself. *)
Definition cancel (id : string) (active : bool) (now : Z) : M ledger (snapshot) :=
  found ← get_run id;
  match found with
  | None => raise (not_found id)
  | Some s =>
      if terminal_status (sn_status s) then mret s
      else
        (if active then try_except (cancel_with_event id [SnapRunning] now) (λ _, Some (mret tt)) else mret tt);;
        status ← run_status_of id;
        (if terminal_status status then mret tt
         else cancel_with_event id [SnapRunning; SnapInterrupted; SnapResumePending] now);;
        updated ← get_run id;
        match updated with Some s => mret s | None => raise AssertionError end
  end.
Definition newest_run (r r' : run_row) : bool := rn_created r' <=? rn_created r.
Definition cancel_thread (tenant thread : string) (active : string → bool) (now : Z) :
    M ledger (option (snapshot)) :=
  row ← gets (λ d, head (order_by newest_run (select
    (λ r, (rn_tenant r == tenant) && (rn_thread r == thread) && active_status (rn_status r)) (ld_runs d))));
  match row with
  | None => mret None
  | Some r => s ← cancel (rn_id r) (active (rn_id r)) now; mret (Some s)
  end.

(** ** Approvals *)

(** [_approval_json] and the value of the column [approvals_json] *)
Definition approval_status_text (s : approval_status) : string :=
  match s with
  | ApprovalPending => "pending" | ApprovalApprove => "approve" | ApprovalEdit => "edit" | ApprovalReject => "reject"
  end.
Definition approval_json (a : approval) : json :=
  JObj [("id", JStr (ap_id a)); ("tool_name", JStr (ap_tool a)); ("description", JStr (ap_description a));
        ("arguments", JObj (ap_arguments a)); ("allowed_decisions", JArr (JStr <$> ap_decisions a));
        ("status", JStr (approval_status_text (ap_status a))); ("edited_arguments", optional_json JObj (ap_edited a));
        ("message", optional_json JStr (ap_message a))].
Definition serialize_approvals (l : list approval) : json := canonical (JArr (approval_json <$> l)).

(** [_approval_matches_decision]; dicts are compared as Python compares them. *)
Definition same_arguments (x y : option (list (string * json))) : bool :=
  match x, y with
  | Some a, Some b => same_dict a b
  | None, None => true
  | _, _ => false
  end.
Definition approval_matches_decision (a : approval) (d : decision) : bool :=
  (ap_status a == decision_status (de_kind d)) && same_arguments (ap_edited a) (de_edited d) &&
  (ap_message a == de_message d).
Example one_is_true :
  approval_matches_decision
    (AgentApproval "a" "tool" "" [] [] ApprovalEdit (Some [("n", JInt 1)]) None)
    (ApprovalDecision "a" DecideEdit (Some [("n", JBool true)]) None) = true.
Proof. reflexivity. Qed.

(** The approvals with the decision, [None] when it had been taken already. *)
Fixpoint decide_approvals (d : decision) (l : list approval) : outcome (option (list approval)) :=
  match l with
  | [] => Err (KeyError ("approval not found: " +:+ de_approval d))
  | a :: l' =>
      if negb (ap_id a == de_approval d) then
        match decide_approvals d l' with Ok o => Ok (cons a <$> o) | Err e => Err e end
      else if negb (ap_status a == ApprovalPending) then
        if approval_matches_decision a d then Ok None
        else Err (ValueError ("approval already decided differently: " +:+ ap_id a))
      else if negb (bool_decide (decision_text (de_kind d) ∈ ap_decisions a)) then
        Err (ValueError ("decision " +:+ repr (decision_text (de_kind d)) +:+ " is not allowed for " +:+ ap_tool a))
      else Ok (Some ((a <| ap_status := decision_status (de_kind d) |> <| ap_edited := de_edited d |>
                        <| ap_message := de_message d |>) :: l'))
  end.

Definition pending_approval (a : approval) : bool := ap_status a == ApprovalPending.
Definition decided_status (l : list approval) : run_status :=
  if existsb pending_approval l then SnapInterrupted else SnapResumePending.

(** The compare-and-swap of a run's approvals. *)
Definition write_decision (id : string) (before after : list approval) (now : Z) : M ledger unit :=
  let p r := run_at id r && ((rn_status r == SnapInterrupted) &&
                             (serialize_approvals (rn_approvals r) == serialize_approvals before)) in
  count ← gets (λ d, rowcount p (ld_runs d));
  modify (λ d, d <| ld_runs := update p (λ r, r <| rn_approvals := after |> <| rn_status := decided_status after |>
                     <| rn_updated := now |>) (ld_runs d) |>);;
  unless (count =? 1)%nat (ValueError "approval state changed; reload the run before retrying").

(** [_claim_approval_decision]; [others] is what happens to the ledger between
    reading the run and writing the decision. *)
Definition claim_approval_decision (id : string) (d : decision) (others : M ledger unit) (now : Z) :
    M ledger (snapshot * list approval) :=
  found ← get_run id;
  match found with
  | None => raise (not_found id)
  | Some s =>
      unless (bool_decide (sn_status s ∈ [SnapInterrupted; SnapResumePending]))
        (ValueError ("agent run is not awaiting approval: " +:+ run_status_text (sn_status s)));;
      decided ← from_outcome (decide_approvals d (sn_approvals s));
      match decided with
      | None => mret (s, sn_approvals s)
      | Some l => others;; write_decision id (sn_approvals s) l now;; mret (s, l)
      end
  end.

(** [_verified_dynamic_snapshot]: the run's dynamic tools are the current ones. *)
Definition verify_dynamic (id : string) (current : Z * string) : M ledger unit :=
  row ← gets (find_run id);
  match row with
  | None => raise (not_found id)
  | Some r => unless ((rn_generation r, rn_dynamic r) == current)
                (AgentRunCapabilityConflictError "The approved capability changed before the agent run could continue.")
  end.

(** ** Reading *)

(** One round of [events]: what follows a cursor, in order. *)
Definition sequence_le (e e' : event_entry) : bool := ee_sequence e <=? ee_sequence e'.
Definition events_after (id : string) (after : Z) (d : ledger) : list event_entry :=
  order_by sequence_le (select (λ e, (ee_run e == id) && (Z.max 0 after <? ee_sequence e)) (ld_events d)).

(** ** Threads *)

Definition add_thread (t : thread_row) : M ledger unit :=
  try_modify (λ d, l ← insert_row (λ x, thread_at (th_tenant x) (th_id x)) t (ld_threads d);
                   Some (d <| ld_threads := l |>)) (IntegrityError "UNIQUE constraint failed").
Definition create_thread (tenant channel : string) (title : option string) (fresh : string) (now : Z) :
    M ledger thread_row :=
  let normalized := normalize_thread_title (default "" title) in
  let t := ThreadRow tenant fresh (if normalized == "" then "New session" else normalized) channel false now now in
  add_thread t;; mret t.
Definition ensure_thread (tenant thread channel : string) (now : Z) : M ledger unit :=
  modify (λ d, d <| ld_threads := insert_or_ignore (λ x, thread_at (th_tenant x) (th_id x))
    (ThreadRow tenant thread "New session" channel false now now) (ld_threads d) |>).
Definition update_thread (tenant thread : string) (title : option string) (archived : option bool) (now : Z) :
    M ledger (option thread_row) :=
  let normalized := normalize_thread_title <$> title in
  unless (negb (normalized == Some "")) (ValueError "thread title cannot be empty");;
  count ← gets (λ d, rowcount (thread_at tenant thread) (ld_threads d));
  modify (λ d, d <| ld_threads := update (thread_at tenant thread)
    (λ t, t <| th_updated := now |> <| th_title := default (th_title t) normalized |>
            <| th_archived := default (th_archived t) archived |>) (ld_threads d) |>);;
  if (count =? 1)%nat then gets (λ d, select_one (thread_at tenant thread) (ld_threads d)) else mret None.

(** ** The invariant of the ledger

    A run keeps what identifies it; its events are numbered from one without a
    gap, and the one that closes it is the last one of a settled run. *)

Definition run_identity (r : run_row) : run_row :=
  r <| rn_status := SnapRunning |> <| rn_text := "" |> <| rn_error := "" |> <| rn_approvals := [] |>
    <| rn_updated := 0 |> <| rn_sequence := 0 |>.
Definition closing_type (t : event_type) : bool := match t with RunCompleted | RunFailed => true | _ => false end.
Definition run_events (id : string) (l : list event_entry) : list event_entry := select (λ e, ee_run e == id) l.
Definition thread_key (t : thread_row) : string * string := (th_tenant t, th_id t).

Definition approvals_fit (s : run_status) (l : list approval) : Prop :=
  match s with
  | SnapRunning | SnapCompleted => l = []
  | SnapInterrupted => existsb pending_approval l = true
  | SnapResumePending => l ≠ [] ∧ existsb pending_approval l = false
  | SnapFailed | SnapCancelled => True
  end.

Record run_ok (events : list event_entry) (threads : list thread_row) (r : run_row) : Prop := {
  ro_context : validate_context (row_context r) = Some (row_context r);
  ro_checkpoint : checkpoint_thread_id (row_context r) = Ok (rn_checkpoint r);
  ro_sequence : 0 ≤ rn_sequence r;
  ro_closed : terminal_status (rn_status r) = true → 1 ≤ rn_sequence r;
  ro_numbered : ee_sequence <$> run_events (rn_id r) events = seqZ 1 (rn_sequence r);
  ro_closing : ∀ e, e ∈ run_events (rn_id r) events →
    closing_type (ee_type e) = terminal_status (rn_status r) && (ee_sequence e =? rn_sequence r);
  ro_approvals : approvals_fit (rn_status r) (rn_approvals r);
  ro_thread : (rn_tenant r, rn_thread r) ∈ thread_key <$> threads;
}.

Record ledger_ok (d : ledger) : Prop := {
  lo_ids : unique rn_id (ld_runs d);
  lo_keys : ∀ r r' key, r ∈ ld_runs d → r' ∈ ld_runs d → rn_tenant r = rn_tenant r' →
    rn_key r = Some key → rn_key r' = Some key → r = r';
  lo_live : ∀ r r', r ∈ ld_runs d → r' ∈ ld_runs d → rn_checkpoint r = rn_checkpoint r' →
    active_status (rn_status r) = true → active_status (rn_status r') = true → r = r';
  lo_rows : ∀ r, r ∈ ld_runs d → run_ok (ld_events d) (ld_threads d) r;
  lo_owned : ∀ e, e ∈ ld_events d → ee_run e ∈ rn_id <$> ld_runs d ∧ published 9 (ee_data e);
  lo_threads : unique thread_key (ld_threads d);
  lo_reports : unique sn_run (ld_observed d);
  lo_observed : ∀ s, s ∈ ld_observed d → ∃ r, r ∈ ld_runs d ∧ terminal_status (rn_status r) = true ∧
    snapshot_from_row r = Ok s;
}.

(** What later operations never undo. *)
Record ledger_advance (d d' : ledger) : Prop := {
  la_runs : ∀ r, r ∈ ld_runs d → ∃ r', r' ∈ ld_runs d' ∧ run_identity r' = run_identity r ∧
    rn_sequence r ≤ rn_sequence r' ∧ (terminal_status (rn_status r) = true → r' = r);
  la_events : ld_events d `prefix_of` ld_events d';
  la_threads : thread_key <$> ld_threads d `prefix_of` thread_key <$> ld_threads d';
  la_observed : ld_observed d `prefix_of` ld_observed d';
}.

Lemma ledger_advance_refl d : ledger_advance d d.
Proof.
  split; try done.
  intros r Hr. exists r. split_and!; done || lia.
Qed.

Lemma ledger_advance_trans d d' d'' : ledger_advance d d' → ledger_advance d' d'' → ledger_advance d d''.
Proof.
  intros [A1 A2 A3 A4] [B1 B2 B3 B4]. split; [|by etrans..]. intros r Hr.
  destruct (A1 r Hr) as (r' & Hr' & Hi & Hs & Ht). destruct (B1 r' Hr') as (r'' & Hr'' & Hi' & Hs' & Ht').
  exists r''. split_and!; [done|congruence|lia|]. intros H. rewrite (Ht H) in Ht'. by rewrite (Ht' H).
Qed.

Lemma empty_ledger_ok : ledger_ok no_runs.
Proof. split; try by intros; set_solver. all: by constructor. Qed.

Lemma find_agent_run_Some id d r : find_run id d = Some r → r ∈ ld_runs d ∧ rn_id r = id.
Proof. intros [Hr Hid%bool_decide_eq_true]%select_one_Some. done. Qed.

Lemma find_agent_run_in d r : ledger_ok d → r ∈ ld_runs d → find_run (rn_id r) d = Some r.
Proof. intros Hd Hr. exact (select_one_unique rn_id _ _ (lo_ids _ Hd) Hr). Qed.

Lemma snapshot_of_row d r : ledger_ok d → r ∈ ld_runs d → ∃ s, snapshot_from_row r = Ok s ∧
  sn_run s = rn_id r ∧ sn_context s = row_context r ∧ sn_status s = rn_status r ∧ sn_approvals s = rn_approvals r.
Proof.
  intros Hd Hr. unfold snapshot_from_row. rewrite (ro_context _ _ _ (lo_rows _ Hd _ Hr)). eauto 10.
Qed.

(** *** One run moves *)

(** The run [r] in place of the one that has its identifier, with new events and threads. *)
Definition put_run (r : run_row) (events : list event_entry) (threads : list thread_row) (d : ledger) : ledger :=
  Ledger (update (run_at (rn_id r)) (λ _, r) (ld_runs d)) (ld_events d ++ events) threads (ld_observed d).

Lemma run_events_app id l l' : run_events id (l ++ l') = run_events id l ++ run_events id l'.
Proof. apply List.filter_app. Qed.

Lemma run_events_other id l : (∀ e, e ∈ l → ee_run e ≠ id) → run_events id l = [].
Proof.
  intros H. unfold run_events. induction l as [|e l IH]; [done|]. simpl.
  rewrite bool_decide_eq_false_2 by (apply H; set_solver). apply IH. set_solver.
Qed.

Lemma run_ok_frame events threads events' threads' r :
  run_ok events threads r → run_events (rn_id r) events' = run_events (rn_id r) events →
  thread_key <$> threads `prefix_of` thread_key <$> threads' → run_ok events' threads' r.
Proof.
  intros [] He [l Hl]. split; rewrite ?He, ?Hl; auto. apply elem_of_app. by left.
Qed.

Lemma in_put_run r r' events threads d :
  r ∈ ld_runs (put_run r' events threads d) ↔
  (r = r' ∧ rn_id r' ∈ rn_id <$> ld_runs d) ∨ (r ∈ ld_runs d ∧ rn_id r ≠ rn_id r').
Proof.
  simpl. rewrite elem_of_update. unfold run_at. split.
  - intros (o & Ho & ->). case_bool_decide as E; [left|by right].
    split; [done|]. rewrite <- E. by apply list_elem_of_fmap_2.
  - intros [[-> (o & -> & Ho)%list_elem_of_fmap]|[Hr Hne]].
    + exists o. by rewrite bool_decide_eq_true_2.
    + exists r. by rewrite bool_decide_eq_false_2.
Qed.

Record run_step (d : ledger) (r r' : run_row) (events : list event_entry) (threads : list thread_row) : Prop := {
  rs_found : r ∈ ld_runs d;
  rs_active : active_status (rn_status r) = true;
  rs_identity : run_identity r' = run_identity r;
  rs_sequence : rn_sequence r ≤ rn_sequence r';
  rs_events : ∀ e, e ∈ events → ee_run e = rn_id r ∧ published 9 (ee_data e);
  rs_threads : thread_key <$> threads = thread_key <$> ld_threads d;
  rs_ok : run_ok (ld_events d ++ events) threads r';
}.

Lemma put_run_ok d r r' events threads :
  ledger_ok d → run_step d r r' events threads →
  ledger_ok (put_run r' events threads d) ∧ ledger_advance d (put_run r' events threads d).
Proof.
  intros Hd [Hr Ha Hi Hs He Ht Hok]. pose proof (f_equal rn_id Hi) as Hid. cbn in Hid.
  pose proof (f_equal rn_tenant Hi) as Htenant. pose proof (f_equal rn_key Hi) as Hkey.
  pose proof (f_equal rn_checkpoint Hi) as Hcheck. cbn in Htenant, Hkey, Hcheck.
  assert (rn_id r' ∈ rn_id <$> ld_runs d) as Hmem by (rewrite Hid; by apply list_elem_of_fmap_2).
  assert (∀ o, o ∈ ld_runs d → rn_id o ≠ rn_id r' → run_ok (ld_events d ++ events) threads o) as Hother.
  { intros o Ho Hne. apply (run_ok_frame (ld_events d) (ld_threads d)); [by apply Hd| |by rewrite Ht].
    rewrite run_events_app, (run_events_other _ events), app_nil_r; [done|].
    intros e [-> _]%He. congruence. }
  split; split.
  - unfold unique, put_run. simpl. rewrite fmap_update; [apply Hd|].
    intros o _ H%bool_decide_eq_true. by rewrite H.
  - intros x y key Hx%in_put_run Hy%in_put_run Hxy Kx Ky.
    destruct Hx as [[-> _]|[Hx Nx]], Hy as [[-> _]|[Hy Ny]]; [done| | |by eapply (lo_keys _ Hd)]; exfalso.
    + apply Ny. rewrite Hid. f_equal. by eapply (lo_keys _ Hd); eauto; congruence.
    + apply Nx. rewrite Hid. f_equal. by eapply (lo_keys _ Hd); eauto; congruence.
  - intros x y Hx%in_put_run Hy%in_put_run Hxy Ax Ay.
    destruct Hx as [[-> _]|[Hx Nx]], Hy as [[-> _]|[Hy Ny]]; [done| | |by eapply (lo_live _ Hd)]; exfalso.
    + apply Ny. rewrite Hid. f_equal. by eapply (lo_live _ Hd); eauto; congruence.
    + apply Nx. rewrite Hid. f_equal. by eapply (lo_live _ Hd); eauto; congruence.
  - intros x Hx%in_put_run. destruct Hx as [[-> _]|[Hx Nx]]; [done|]. by apply Hother.
  - intros e Hx. assert (rn_id <$> ld_runs (put_run r' events threads d) = rn_id <$> ld_runs d) as ->.
    { apply fmap_update. intros o _ H%bool_decide_eq_true. by rewrite H. }
    apply elem_of_app in Hx as [Hx|[-> Hp]%He]; [by apply (lo_owned _ Hd)|].
    split; [by apply list_elem_of_fmap_2|done].
  - unfold unique. simpl. rewrite Ht. apply Hd.
  - apply Hd.
  - intros s (o & Ho & Hterm & Hsn)%(lo_observed _ Hd). exists o. split; [|done]. apply in_put_run. right.
    split; [done|]. intros E. rewrite Hid in E. assert (o = r) as -> by by eapply (unique_eq rn_id); [apply Hd| ..].
    unfold terminal_status in Hterm. by rewrite Ha in Hterm.
  - intros o Ho. destruct (decide (rn_id o = rn_id r')) as [E|Hne].
    + rewrite Hid in E. assert (o = r) as -> by by eapply (unique_eq rn_id); [apply Hd| ..].
      exists r'. split_and!; [apply in_put_run; by left|done|done|].
      unfold terminal_status. by rewrite Ha.
    + exists o. split_and!; [apply in_put_run; by right|done|lia|done].
  - by eexists.
  - simpl. by rewrite Ht.
  - done.
Qed.

(** *** A run with one more event, and without *)

Lemma seqZ_snoc n : 0 ≤ n → seqZ 1 (n + 1) = seqZ 1 n ++ [n + 1].
Proof. intros H. rewrite seqZ_app by lia. repeat f_equal. rewrite Z.add_comm. done. Qed.

Definition touched (r : run_row) (now : Z) (d : ledger) : list thread_row :=
  update (thread_at (rn_tenant r) (rn_thread r)) (λ t, t <| th_updated := now |>) (ld_threads d).
Lemma touched_keys r now d : thread_key <$> touched r now d = thread_key <$> ld_threads d.
Proof. by apply fmap_update. Qed.

Lemma event_step d r r' type now data :
  ledger_ok d → r ∈ ld_runs d → active_status (rn_status r) = true → run_identity r' = run_identity r →
  rn_sequence r' = rn_sequence r + 1 → closing_type type = terminal_status (rn_status r') →
  approvals_fit (rn_status r') (rn_approvals r') →
  run_step d r r' [EventEntry (rn_id r) (rn_sequence r + 1) type now (canonical (redact_for_langfuse data))]
    (touched r now d).
Proof.
  intros Hd Hr Ha Hi Hs Hc Hf. destruct (lo_rows _ Hd _ Hr) as [H1 H2 H3 H4 H5 H6 H7 H8].
  assert (rn_id r' = rn_id r) as Hid by exact (f_equal rn_id Hi).
  assert (run_events (rn_id r') (ld_events d ++ [EventEntry (rn_id r) (rn_sequence r + 1) type now
    (canonical (redact_for_langfuse data))]) = run_events (rn_id r) (ld_events d) ++ [EventEntry (rn_id r)
    (rn_sequence r + 1) type now (canonical (redact_for_langfuse data))]) as Hev.
  { rewrite run_events_app, Hid. simpl. by rewrite bool_decide_eq_true_2. }
  split; try done; [lia| |apply touched_keys|split].
  - intros e ->%list_elem_of_singleton. split; [done|]. apply canonical_published, redact_published. vm_compute; lia.
  - by change (row_context r') with (row_context (run_identity r')); rewrite Hi.
  - change (row_context r') with (row_context (run_identity r')).
    change (rn_checkpoint r') with (rn_checkpoint (run_identity r')). by rewrite Hi.
  - lia.
  - lia.
  - by rewrite Hev, fmap_app, H5, Hs, seqZ_snoc.
  - intros e. rewrite Hev, Hs. intros [He| ->%list_elem_of_singleton]%elem_of_app.
    + rewrite (H6 e He). unfold terminal_status at 1. rewrite Ha. simpl.
      assert (ee_sequence e ∈ seqZ 1 (rn_sequence r)) as Hin%elem_of_seqZ by (rewrite <- H5; by apply list_elem_of_fmap_2).
      symmetry. apply andb_false_iff. right. apply Z.eqb_neq. lia.
    + simpl. by rewrite Z.eqb_refl, andb_true_r.
  - done.
  - rewrite touched_keys. change (rn_tenant r') with (rn_tenant (run_identity r')).
    change (rn_thread r') with (rn_thread (run_identity r')). by rewrite Hi.
Qed.

(** *** Computations that keep the invariant and undo nothing *)

Definition kept (d0 d : ledger) : Prop := ledger_ok d ∧ ledger_advance d0 d.
Definition keeps {A} (m : M ledger A) : Prop := ∀ d0, preserves (kept d0) m.

Lemma keeps_intro {A} (m : M ledger A) : (∀ d, ledger_ok d → kept d (m d).1) → keeps m.
Proof.
  intros H d0 d [Hd Hadv]. destruct (H d Hd) as [Hd' Hadv']. split; [done|]. by eapply ledger_advance_trans.
Qed.
Lemma keeps_elim {A} (m : M ledger A) d : keeps m → ledger_ok d → kept d (m d).1.
Proof. intros H Hd. apply H. split; [done|apply ledger_advance_refl]. Qed.
Lemma kept_refl d : ledger_ok d → kept d d.
Proof. intros Hd. split; [done|apply ledger_advance_refl]. Qed.
Lemma keeps_reads {A} (m : M ledger A) : (∀ d, (m d).1 = d) → keeps m.
Proof. intros H. apply keeps_intro. intros d Hd. rewrite H. by apply kept_refl. Qed.
Lemma keeps_bind {A B} (m : M ledger A) (k : A → M ledger B) :
  keeps m → (∀ a, keeps (k a)) → keeps (m ≫= k).
Proof. intros Hm Hk d0. apply preserves_bind; [apply Hm|]. intros a. apply Hk. Qed.
Lemma keeps_ret {A} (a : A) : keeps (mret a).
Proof. intros d0. apply preserves_ret. Qed.
Lemma keeps_raise {A} e : keeps (raise (A := A) e).
Proof. intros d0. apply preserves_raise. Qed.
Lemma keeps_unless b e : keeps (unless b e).
Proof. intros d0. apply preserves_unless. Qed.
Lemma keeps_gets {A} (f : ledger → A) : keeps (gets f).
Proof. intros d0. apply preserves_gets. Qed.
Lemma keeps_outcome {A} (o : outcome A) : keeps (from_outcome o).
Proof. intros d0. apply preserves_from_outcome. Qed.
Lemma keeps_for_each {A} (l : list A) body : (∀ x, keeps (body x)) → keeps (for_each l body).
Proof. intros H d0. apply preserves_for_each. intros x _. apply H. Qed.
Lemma keeps_try {A} (m : M ledger A) h :
  keeps m → (∀ e m', h e = Some m' → keeps m') → keeps (try_except m h).
Proof. intros Hm Hh d0. apply preserves_try_except; [apply Hm|]. intros e m' He. by apply (Hh e m' He). Qed.

Create HintDb ledger.
#[export] Hint Resolve keeps_ret keeps_raise keeps_unless keeps_gets keeps_outcome keeps_bind keeps_for_each : ledger.

(** *** What each operation does *)

Lemma update_run_row (g : run_row → bool) (f : run_row → run_row) d r :
  ledger_ok d → r ∈ ld_runs d → rn_id (f r) = rn_id r →
  update (λ x, run_at (rn_id r) x && g x) f (ld_runs d) =
    if g r then update (run_at (rn_id (f r))) (λ _, f r) (ld_runs d) else ld_runs d.
Proof.
  intros Hd Hr Hid. assert (∀ x, x ∈ ld_runs d → run_at (rn_id r) x = true → x = r) as Hone.
  { intros x Hx H%bool_decide_eq_true. by eapply (unique_eq rn_id); [apply Hd|..]. }
  destruct (g r) eqn:Hg.
  - rewrite Hid. apply update_ext. intros x Hx. destruct (run_at (rn_id r) x) eqn:E; [|done].
    rewrite (Hone x Hx E), Hg. done.
  - apply update_none. intros x Hx. destruct (run_at (rn_id r) x) eqn:E; [|done]. by rewrite (Hone x Hx E).
Qed.

Lemma rowcount_run (g : run_row → bool) d r :
  ledger_ok d → r ∈ ld_runs d → (rowcount (λ x, run_at (rn_id r) x && g x) (ld_runs d) =? 1)%nat = g r.
Proof.
  intros Hd Hr. destruct (g r) eqn:Hg.
  - rewrite (rowcount_one rn_id _ _ r); [done|apply Hd|done| |].
    + unfold run_at. by rewrite bool_decide_eq_true_2, Hg.
    + intros x Hx [H%bool_decide_eq_true _]%andb_true_iff. done.
  - rewrite (proj2 (rowcount_zero _ _)); [done|]. intros x Hx. destruct (run_at (rn_id r) x) eqn:E; [|done].
    apply bool_decide_eq_true in E. by rewrite (unique_eq rn_id _ _ _ (lo_ids _ Hd) Hx Hr E).
Qed.

Lemma write_run_row (f : run_row → run_row) d r :
  ledger_ok d → r ∈ ld_runs d → rn_id (f r) = rn_id r →
  update (run_at (rn_id r)) f (ld_runs d) = update (run_at (rn_id (f r))) (λ _, f r) (ld_runs d).
Proof.
  intros Hd Hr Hid. rewrite <- (update_run_row (λ _, true) f d r Hd Hr Hid). apply update_ext.
  intros x _. by rewrite andb_true_r.
Qed.

Lemma write_put (f : run_row → run_row) d r events threads :
  ledger_ok d → r ∈ ld_runs d → rn_id (f r) = rn_id r →
  Ledger (update (run_at (rn_id r)) f (ld_runs d)) (ld_events d ++ events) threads (ld_observed d) =
    put_run (f r) events threads d.
Proof. intros Hd Hr Hid. unfold put_run. by rewrite (write_run_row f). Qed.

Definition entry (r : run_row) (type : event_type) (data : json) (now : Z) : event_entry :=
  EventEntry (rn_id r) (rn_sequence r + 1) type now (canonical (redact_for_langfuse data)).
Definition emitted (r : run_row) (type : event_type) (data : json) (now : Z) : run_event :=
  AgentRunEvent type (rn_id r) (rn_sequence r + 1) (utc_isoformat now) (redact_for_langfuse data).

Lemma entry_fresh d r type data now e :
  ledger_ok d → r ∈ ld_runs d → e ∈ ld_events d →
  (ee_run e == ee_run (entry r type data now)) && (ee_sequence e =? ee_sequence (entry r type data now)) = false.
Proof.
  intros Hd Hr He. simpl. destruct (ee_run e == rn_id r) eqn:E; [|done]. apply Z.eqb_neq. intros Hs.
  assert (ee_sequence e ∈ seqZ 1 (rn_sequence r)) as Hin.
  { rewrite <- (ro_numbered _ _ _ (lo_rows _ Hd _ Hr)). apply list_elem_of_fmap_2. by apply elem_of_select. }
  apply elem_of_seqZ in Hin. lia.
Qed.

Definition appended (r : run_row) (now : Z) : run_row :=
  r <| rn_sequence := rn_sequence r + 1 |> <| rn_updated := now |>.
Definition moved (r : run_row) (status : run_status) (text error : option string)
    (approvals : option (list approval)) (now : Z) : run_row :=
  r <| rn_status := status |> <| rn_sequence := rn_sequence r + 1 |> <| rn_updated := now |>
    <| rn_text := from_option public_text (rn_text r) text |> <| rn_error := default (rn_error r) error |>
    <| rn_approvals := default (rn_approvals r) approvals |>.
Definition with_entry (r r' : run_row) (type : event_type) (data : json) (now : Z) (d : ledger) : ledger :=
  put_run r' [entry r type data now] (touched r now d) d.

Lemma add_entry_bind {A} d r type data now (k : unit → M ledger A) d' :
  ledger_ok d → r ∈ ld_runs d → ld_events d' = ld_events d →
  (add_event (entry r type data now) ≫= k) d' = k tt (d' <| ld_events := ld_events d ++ [entry r type data now] |>).
Proof.
  intros Hd Hr He. unfold add_event. rewrite run_try_modify_bind, He.
  by rewrite insert_row_ok by (intros e; by apply (entry_fresh d)).
Qed.

Lemma agent_append_event_run d r type data now :
  ledger_ok d → r ∈ ld_runs d →
  append_event (rn_id r) type data now d =
    if terminal_status (rn_status r) then (d, Ok None)
    else (with_entry r (appended r now) type data now d, Ok (Some (emitted r type data now))).
Proof.
  intros Hd Hr. unfold append_event. rewrite run_transaction, run_gets_bind, (find_agent_run_in d r Hd Hr).
  destruct (terminal_status (rn_status r)); [done|].
  cbv zeta. change (EventEntry _ _ _ _ _) with (entry r type data now). rewrite (add_entry_bind d r) by done.
  unfold write_run, touch_thread. run. f_equal.
  by apply (write_put (λ x, x <| rn_sequence := rn_sequence r + 1 |> <| rn_updated := now |>) d r).
Qed.

Lemma transition_run d r allowed status type data text error approvals now :
  ledger_ok d → r ∈ ld_runs d →
  transition_with_event (rn_id r) allowed status type data text error approvals now d =
    if bool_decide (rn_status r ∈ allowed)
    then (with_entry r (moved r status text error approvals now) type data now d, Ok (Some (emitted r type data now)))
    else (d, Ok None).
Proof.
  intros Hd Hr. unfold transition_with_event. rewrite run_transaction, run_gets_bind, (find_agent_run_in d r Hd Hr).
  destruct (bool_decide _); [|done]. cbn [negb]. cbv zeta. unfold write_run, touch_thread. run.
  change (EventEntry _ _ _ _ _) with (entry r type data now). rewrite (add_entry_bind d r) by done.
  run. f_equal.
  by apply (write_put (λ x, x <| rn_status := status |> <| rn_sequence := rn_sequence r + 1 |>
    <| rn_updated := now |> <| rn_text := from_option public_text (rn_text x) text |>
    <| rn_error := default (rn_error x) error |> <| rn_approvals := default (rn_approvals x) approvals |>) d r).
Qed.

Definition changed (r : run_row) (status : option run_status) (text error : option string)
    (approvals : option (list approval)) (now : Z) : run_row :=
  r <| rn_updated := now |> <| rn_status := default (rn_status r) status |>
    <| rn_text := from_option public_text (rn_text r) text |> <| rn_error := default (rn_error r) error |>
    <| rn_approvals := default (rn_approvals r) approvals |>.

Lemma put_quiet (f : run_row → run_row) g d r :
  ledger_ok d → r ∈ ld_runs d → rn_id (f r) = rn_id r → g r = true →
  d <| ld_runs := update (λ x, run_at (rn_id r) x && g x) f (ld_runs d) |> = put_run (f r) [] (ld_threads d) d.
Proof.
  intros Hd Hr Hid Hg. rewrite (update_run_row g f d r Hd Hr Hid), Hg. unfold put_run. cbn.
  by rewrite app_nil_r.
Qed.
Lemma put_nothing (f : run_row → run_row) g d r :
  ledger_ok d → r ∈ ld_runs d → rn_id (f r) = rn_id r → g r = false →
  d <| ld_runs := update (λ x, run_at (rn_id r) x && g x) f (ld_runs d) |> = d.
Proof. intros Hd Hr Hid Hg. rewrite (update_run_row g f d r Hd Hr Hid), Hg. by destruct d. Qed.
Lemma put_absent (f : run_row → run_row) g d id :
  find_run id d = None → d <| ld_runs := update (λ x, run_at id x && g x) f (ld_runs d) |> = d.
Proof.
  intros Hn. rewrite update_none; [by destruct d|]. intros x Hx. by rewrite (proj1 (select_one_None _ _) Hn x Hx).
Qed.

Lemma update_run_run d r status text error approvals allowed now :
  ledger_ok d → r ∈ ld_runs d →
  update_run (rn_id r) status text error approvals allowed now d =
    if bool_decide (rn_status r ∈ allowed)
    then (put_run (changed r status text error approvals now) [] (ld_threads d) d, Ok true)
    else (d, Ok false).
Proof.
  intros Hd Hr. unfold update_run. run. pose (g := λ x : run_row, bool_decide (rn_status x ∈ allowed)).
  pose proof (rowcount_run g d r Hd Hr) as Hcount. unfold g in Hcount. rewrite Hcount.
  destruct (bool_decide (rn_status r ∈ allowed)) eqn:E; f_equal.
  - by apply (put_quiet (λ x, changed x status text error approvals now) g).
  - by apply (put_nothing (λ x, changed x status text error approvals now) g).
Qed.

(** A step that writes no event. *)
Lemma quiet_step d r r' :
  ledger_ok d → r ∈ ld_runs d → active_status (rn_status r) = true → active_status (rn_status r') = true →
  run_identity r' = run_identity r → rn_sequence r' = rn_sequence r →
  approvals_fit (rn_status r') (rn_approvals r') → run_step d r r' [] (ld_threads d).
Proof.
  intros Hd Hr Ha Ha' Hi Hs Hf. destruct (lo_rows _ Hd _ Hr) as [H1 H2 H3 H4 H5 H6 H7 H8].
  assert (rn_id r' = rn_id r) as Hid by exact (f_equal rn_id Hi).
  split; try done; [lia|set_solver|]. rewrite app_nil_r. split; rewrite ?Hid, ?Hs; try done.
  - by change (row_context r') with (row_context (run_identity r')); rewrite Hi.
  - change (row_context r') with (row_context (run_identity r')).
    change (rn_checkpoint r') with (rn_checkpoint (run_identity r')). by rewrite Hi.
  - unfold terminal_status. by rewrite Ha'.
  - intros e He. rewrite (H6 e He). unfold terminal_status. by rewrite Ha, Ha'.
  - change (rn_tenant r') with (rn_tenant (run_identity r')).
    change (rn_thread r') with (rn_thread (run_identity r')). by rewrite Hi.
Qed.

Lemma keeps_quiet (id : string) g (f : run_row → run_row) :
  (∀ r, g r = true → active_status (rn_status r) = true ∧ active_status (rn_status (f r)) = true) →
  (∀ r, run_identity (f r) = run_identity r ∧ rn_sequence (f r) = rn_sequence r) →
  (∀ r, g r = true → approvals_fit (rn_status r) (rn_approvals r) →
    approvals_fit (rn_status (f r)) (rn_approvals (f r))) →
  keeps (modify (λ d, d <| ld_runs := update (λ x, run_at id x && g x) f (ld_runs d) |>)).
Proof.
  intros Ha Hi Hf. apply keeps_intro. intros d Hd. rewrite run_modify. simpl.
  destruct (find_run id d) as [r|] eqn:E; [|rewrite put_absent by done; by apply kept_refl].
  apply find_agent_run_Some in E as [Hr <-]. destruct (Hi r) as [Hid Hs].
  assert (rn_id (f r) = rn_id r) as Hn by exact (f_equal rn_id Hid).
  destruct (g r) eqn:Hg; [|rewrite put_nothing by done; by apply kept_refl].
  rewrite put_quiet by done. destruct (Ha r Hg). eapply put_run_ok, quiet_step; try done.
  apply Hf; [done|]. apply (lo_rows _ Hd _ Hr).
Qed.

Lemma keeps_update id status text error approvals allowed now :
  (∀ s, s ∈ allowed → active_status s = true ∧ active_status (default s status) = true) →
  (∀ s l, s ∈ allowed → approvals_fit s l → approvals_fit (default s status) (default l approvals)) →
  keeps (update_run id status text error approvals allowed now).
Proof.
  intros Ha Hf. unfold update_run. apply keeps_bind; [apply keeps_gets|]. intros n.
  apply keeps_bind; [|auto with ledger].
  apply (keeps_quiet id (λ r, bool_decide (rn_status r ∈ allowed)) (λ r, changed r status text error approvals now)).
  - intros r H%bool_decide_eq_true. by apply Ha.
  - done.
  - intros r H%bool_decide_eq_true. by apply Hf.
Qed.

Lemma keeps_append id type data now : closing_type type = false → keeps (append_event id type data now).
Proof.
  intros Ht. apply keeps_intro. intros d Hd. destruct (find_run id d) as [r|] eqn:E.
  - apply find_agent_run_Some in E as [Hr <-]. rewrite agent_append_event_run by done. unfold terminal_status.
    destruct (active_status (rn_status r)) eqn:Ha; [|by apply kept_refl]. simpl.
    eapply put_run_ok, event_step; try done.
    + rewrite Ht. unfold terminal_status. change (rn_status (appended r now)) with (rn_status r). by rewrite Ha.
    + apply (lo_rows _ Hd _ Hr).
  - unfold append_event. rewrite run_transaction, run_gets_bind, E. by apply kept_refl.
Qed.

Lemma snapshot_identity r r' : run_identity r' = run_identity r → row_context r' = row_context r.
Proof. intros Hi. change (row_context (run_identity r') = row_context (run_identity r)). by rewrite Hi. Qed.

(** What the settlement of a run leaves and returns. *)
Definition settlement (r : run_row) (status : run_status) (type : event_type) (data : json)
    (text error : option string) (approvals : option (list approval)) (now : Z) (d : ledger) : ledger :=
  let r' := moved r status text error approvals now in
  let d' := with_entry r r' type data now d in
  d' <| ld_observed := ld_observed d' ++ match snapshot_from_row r' with Ok s => [s] | Err _ => [] end |>.

Lemma settle_kept d r status type data text error approvals now :
  ledger_ok d → r ∈ ld_runs d → active_status (rn_status r) = true → terminal_status status = true →
  closing_type type = true → (status = SnapCompleted → approvals = Some []) →
  kept d (with_entry r (moved r status text error approvals now) type data now d) ∧
  kept d (settlement r status type data text error approvals now d).
Proof.
  intros Hd Hr Ha Ht Hc Hf. set (r' := moved r status text error approvals now).
  assert (run_step d r r' [entry r type data now] (touched r now d)) as Hstep.
  { apply event_step; try done.
    - rewrite Hc. symmetry. exact Ht.
    - simpl. unfold terminal_status in Ht. destruct status; try done. by rewrite Hf. }
  destruct (put_run_ok _ _ _ _ _ Hd Hstep) as [Hok Hadv]. split; [by split|].
  unfold settlement. fold r'. unfold with_entry. set (d' := put_run r' _ _ d) in *.
  assert (r' ∈ ld_runs d') as Hr' by (by apply in_put_run; left; split; [|apply (list_elem_of_fmap_2 rn_id _ r)]).
  destruct (snapshot_of_row d' r' Hok Hr') as (s & Hs & Hrun & _). rewrite Hs.
  split; [|destruct Hadv as [A1 A2 A3 A4]; split; [done..|]; by eexists].
  destruct Hok as [B1 B2 B3 B4 B5 B6 B7 B8]. split; try done.
  - apply unique_app; [done|]. intros s' (o & Ho & Hterm & Hsn)%(lo_observed _ Hd) E.
    destruct (snapshot_of_row d o Hd Ho) as (s'' & Hs'' & Hid & _). rewrite Hs'' in Hsn. injection Hsn as ->.
    assert (o = r) as ->. { eapply (unique_eq rn_id); [apply Hd|done|done|]. rewrite <- Hid, <- E. done. }
    unfold terminal_status in Hterm. by rewrite Ha in Hterm.
  - intros s' [H|H%list_elem_of_singleton]%elem_of_app; [by apply B8|]. subst s'. exists r'. done.
Qed.

Lemma settle_run_run d r allowed status type data text error approvals now :
  ledger_ok d → r ∈ ld_runs d → (∀ s, s ∈ allowed → active_status s = true) → terminal_status status = true →
  closing_type type = true → (status = SnapCompleted → approvals = Some []) →
  settle_run (rn_id r) allowed status type data text error approvals now d =
    if bool_decide (rn_status r ∈ allowed)
    then (settlement r status type data text error approvals now d, Ok (Some (emitted r type data now)))
    else (d, Ok None).
Proof.
  intros Hd Hr Hall Ht Hc Hf. unfold settle_run. rewrite run_bind, transition_run by done.
  case_bool_decide as Hin; [|done]. set (r' := moved r status text error approvals now).
  destruct (settle_kept d r status type data text error approvals now Hd Hr (Hall _ Hin) Ht Hc Hf) as [[Hok _] _].
  fold r' in Hok. set (d' := with_entry r r' type data now d) in *.
  assert (r' ∈ ld_runs d') as Hr' by (by apply in_put_run; left; split; [|apply (list_elem_of_fmap_2 rn_id _ r)]).
  destruct (snapshot_of_row d' r' Hok Hr') as (s & Hs & _ & _ & Hst & _).
  unfold observe_run, get_run. rewrite !run_bind_assoc, run_gets_bind.
  change (rn_id r) with (rn_id r'). rewrite (find_agent_run_in d' r' Hok Hr').
  run. rewrite Hs. run. rewrite Hst. change (rn_status r') with status. rewrite Ht. run.
  unfold settlement. fold r'. fold d'. by rewrite Hs.
Qed.

Lemma keeps_settle id allowed status type data text error approvals now :
  (∀ s, s ∈ allowed → active_status s = true) → terminal_status status = true → closing_type type = true →
  (status = SnapCompleted → approvals = Some []) →
  keeps (settle_run id allowed status type data text error approvals now).
Proof.
  intros Hall Ht Hc Hf. apply keeps_intro. intros d Hd. destruct (find_run id d) as [r|] eqn:E.
  - apply find_agent_run_Some in E as [Hr <-]. rewrite settle_run_run by done.
    case_bool_decide as Hin; [|by apply kept_refl]. apply settle_kept; auto.
  - unfold settle_run, transition_with_event. rewrite run_bind, run_transaction, run_gets_bind, E.
    by apply kept_refl.
Qed.

(** *** Settling, deciding and admitting runs *)

Definition live_statuses : list run_status := [SnapRunning; SnapInterrupted; SnapResumePending].
Lemma live_active l : forallb active_status l = true → ∀ s, s ∈ l → active_status s = true.
Proof. intros H s Hs%list_elem_of_In. by apply (proj1 (forallb_forall _ _) H). Qed.

Lemma keeps_cancel_with_event id allowed now :
  forallb active_status allowed = true → keeps (cancel_with_event id allowed now).
Proof.
  intros Hl. unfold cancel_with_event. apply keeps_bind; [|auto with ledger].
  apply keeps_settle; try done. by apply live_active.
Qed.
Lemma keeps_fail_restart id allowed now :
  forallb active_status allowed = true → keeps (fail_restart_interrupted_run id allowed now).
Proof.
  intros Hl. unfold fail_restart_interrupted_run. apply keeps_bind; [|auto with ledger].
  apply keeps_settle; try done. by apply live_active.
Qed.
Lemma keeps_get_run id : keeps (get_run id).
Proof. unfold get_run. apply keeps_bind; [apply keeps_gets|]. intros [r|]; auto with ledger. Qed.
Lemma keeps_run_status id : keeps (run_status_of id).
Proof. unfold run_status_of. apply keeps_bind; [apply keeps_gets|]. intros [r|]; auto with ledger. Qed.
#[export] Hint Resolve keeps_get_run keeps_run_status : ledger.

Lemma keeps_reconcile now : keeps (reconcile_stale_running_runs now).
Proof.
  unfold reconcile_stale_running_runs. apply keeps_bind; [apply keeps_gets|]. intros rows.
  apply keeps_for_each. intros id. by apply keeps_fail_restart.
Qed.

Lemma keeps_cancel id active now : keeps (cancel id active now).
Proof.
  unfold cancel. apply keeps_bind; [auto with ledger|]. intros [s|]; [|auto with ledger].
  destruct (terminal_status _); [auto with ledger|]. apply keeps_bind.
  { destruct active; [|auto with ledger]. apply keeps_try; [by apply keeps_cancel_with_event|].
    intros e m' [= <-]. auto with ledger. }
  intros _. apply keeps_bind; [auto with ledger|]. intros st. apply keeps_bind.
  { destruct (terminal_status st); [auto with ledger|]. by apply keeps_cancel_with_event. }
  intros _. apply keeps_bind; [auto with ledger|]. intros [x|]; auto with ledger.
Qed.

Lemma keeps_cancel_thread tenant thread active now : keeps (cancel_thread tenant thread active now).
Proof.
  unfold cancel_thread. apply keeps_bind; [apply keeps_gets|]. intros [r|]; [|auto with ledger].
  apply keeps_bind; [apply keeps_cancel|]. auto with ledger.
Qed.

Lemma decide_approvals_Some d l l' : decide_approvals d l = Ok (Some l') → l' ≠ [].
Proof.
  destruct l as [|a l]; simpl; [done|]. destruct (negb (ap_id a == de_approval d)).
  - destruct (decide_approvals d l) as [[l''|]|]; simpl; congruence.
  - repeat case_match; congruence.
Qed.

Lemma keeps_write_decision id before after now : after ≠ [] → keeps (write_decision id before after now).
Proof.
  intros Hne. unfold write_decision. apply keeps_bind; [apply keeps_gets|]. intros n.
  apply keeps_bind; [|auto with ledger].
  pose (g r := (rn_status r == SnapInterrupted) && (serialize_approvals (rn_approvals r) == serialize_approvals before)).
  assert (∀ r, g r = true → rn_status r = SnapInterrupted) as Hg.
  { by intros r [H%bool_decide_eq_true _]%andb_true_iff. }
  apply (keeps_quiet id g (λ r, r <| rn_approvals := after |> <| rn_status := decided_status after |>
    <| rn_updated := now |>)).
  - intros r ->%Hg. split; [done|]. simpl. unfold decided_status. by case_match.
  - done.
  - intros r _ _. simpl. unfold decided_status. by destruct (existsb pending_approval after) eqn:E.
Qed.

Lemma keeps_outcome_bind {A B} (o : outcome A) (k : A → M ledger B) :
  (∀ a, o = Ok a → keeps (k a)) → keeps (from_outcome o ≫= k).
Proof. intros H d0 d Hd. rewrite run_outcome_bind. destruct o as [a|e]; [by apply (H a)|done]. Qed.

Lemma keeps_claim id d others now : keeps others → keeps (claim_approval_decision id d others now).
Proof.
  intros Ho. unfold claim_approval_decision. apply keeps_bind; [auto with ledger|]. intros [s|]; [|auto with ledger].
  apply keeps_bind; [auto with ledger|]. intros _. apply keeps_outcome_bind. intros [l|] Hl; [|auto with ledger].
  apply keeps_bind; [done|]. intros _. apply keeps_bind; [|auto with ledger].
  by apply keeps_write_decision, (decide_approvals_Some d (sn_approvals s)).
Qed.

(** Rows of an admitted run. *)
Definition request_valid (r : run_request) : Prop := validate_context (rq_context r) = Some (rq_context r).

Lemma new_run_context id checkpoint r digest generation dynamic plan now :
  request_valid r → row_context (new_run id checkpoint r digest generation dynamic plan now) = rq_context r.
Proof.
  unfold request_valid. intros [(_ & _ & _ & _ & _ & _ & _ & H) [Ht _]]%validate_context_fields.
  unfold row_context, new_run. simpl. destruct (rq_context r) as [te ac th ch ki co og [at_ sp re] tr]. simpl in *.
  subst at_. unfold validate_ref in H. simpl in H. destruct (protocol_id te); [|done].
  destruct (slug sp) as [v|] eqn:Es; [|done]. destruct (1 <=? re) eqn:Er; [|done]. injection H as -> ->.
  apply Z.leb_le in Er. rewrite Z.max_r by lia.
  assert (sp ≠ EmptyString) as Hne by (intros ->; done).
  by rewrite bool_decide_eq_false_2.
Qed.

Lemma keeps_transaction {A} (m : M ledger A) : keeps m → keeps (transaction m).
Proof. intros H d0. apply preserves_transaction, H. Qed.

Definition same_but_threads (d d' : ledger) : Prop :=
  ld_runs d' = ld_runs d ∧ ld_events d' = ld_events d ∧ ld_observed d' = ld_observed d.

Lemma threads_kept d d' :
  ledger_ok d → same_but_threads d d' → thread_key <$> ld_threads d `prefix_of` thread_key <$> ld_threads d' →
  unique thread_key (ld_threads d') → kept d d'.
Proof.
  intros [A1 A2 A3 A4 A5 A6 A7 A8] (E1 & E2 & E3) Hp Hu. split.
  - split; rewrite ?E1, ?E2, ?E3; try done.
    intros r Hr. by apply (run_ok_frame (ld_events d) (ld_threads d)); [apply A4| |].
  - split; rewrite ?E1, ?E2, ?E3; try done. intros r Hr. exists r. split_and!; done || lia.
Qed.

Lemma thread_at_key t o : thread_at (th_tenant t) (th_id t) o = true ↔ thread_key o = thread_key t.
Proof.
  unfold thread_at, thread_key. rewrite andb_true_iff, !bool_decide_eq_true. split; [by intros [-> ->]|by intros [= H1 H2]].
Qed.

Lemma add_thread_row d t :
  ledger_ok d → (∀ o, o ∈ ld_threads d → thread_at (th_tenant t) (th_id t) o = false) →
  kept d (d <| ld_threads := ld_threads d ++ [t] |>).
Proof.
  intros Hd Hf. apply threads_kept; [done|done| |].
  - simpl. rewrite fmap_app. by eexists.
  - simpl. apply unique_app; [apply Hd|]. intros o Ho E. specialize (Hf o Ho).
    rewrite (proj2 (thread_at_key t o)) in Hf; done.
Qed.

Lemma upsert_thread_kept t d :
  ledger_ok d → ∃ d', upsert_thread t d = (d', Ok tt) ∧ kept d d' ∧ same_but_threads d d' ∧
    thread_key t ∈ thread_key <$> ld_threads d'.
Proof.
  intros Hd. unfold upsert_thread. rewrite run_modify. eexists. split; [done|].
  destruct (exists_row _ _) eqn:E.
  - apply exists_row_true in E as (o & Ho & Hk%thread_at_key).
    set (l := update _ _ _). assert (thread_key <$> l = thread_key <$> ld_threads d) as Hl by by apply fmap_update.
    split_and!; [|done|].
    + apply threads_kept; [done|done| |]; simpl; unfold unique; rewrite Hl; [done|apply Hd].
    + simpl. rewrite Hl, <- Hk. by apply list_elem_of_fmap_2.
  - pose proof (proj1 (exists_row_false _ _) E) as Hf. split_and!; [by apply add_thread_row|done|].
    simpl. rewrite fmap_app. set_solver.
Qed.

Lemma add_run_kept d r :
  ledger_ok d → rn_id r ∉ rn_id <$> ld_runs d →
  (∀ key o, rn_key r = Some key → o ∈ ld_runs d → rn_tenant o = rn_tenant r → rn_key o ≠ Some key) →
  (∀ o, o ∈ ld_runs d → rn_checkpoint o = rn_checkpoint r → active_status (rn_status o) = false) →
  validate_context (row_context r) = Some (row_context r) →
  checkpoint_thread_id (row_context r) = Ok (rn_checkpoint r) →
  rn_sequence r = 0 → rn_status r = SnapRunning → rn_approvals r = [] →
  (rn_tenant r, rn_thread r) ∈ thread_key <$> ld_threads d →
  kept d (d <| ld_runs := ld_runs d ++ [r] |>).
Proof.
  intros Hd Hid Hkey Hlive Hctx Hcp Hseq Hst Hap Hth.
  assert (run_events (rn_id r) (ld_events d) = []) as Hev.
  { apply run_events_other. intros e He Hx. apply Hid. rewrite <- Hx. by apply (lo_owned _ Hd). }
  split; split; simpl; try apply Hd; try done.
  - apply unique_app; [apply Hd|]. intros o Ho E. apply Hid. rewrite E. by apply list_elem_of_fmap_2.
  - intros x y key [Hx|Hx%list_elem_of_singleton]%elem_of_app [Hy|Hy%list_elem_of_singleton]%elem_of_app Ht Kx Ky;
      subst; [by eapply (lo_keys _ Hd)| | |done]; exfalso; by eapply Hkey.
  - intros x y [Hx|Hx%list_elem_of_singleton]%elem_of_app [Hy|Hy%list_elem_of_singleton]%elem_of_app Hc Ax Ay;
      subst; [by apply (lo_live _ Hd)| | |done]; exfalso; [rewrite (Hlive x) in Ax|rewrite (Hlive y) in Ay]; done.
  - intros x [Hx|Hx%list_elem_of_singleton]%elem_of_app; [by apply Hd|]. subst x.
    split; rewrite ?Hev, ?Hseq, ?Hst, ?Hap; try done; intros; set_solver.
  - intros e [H1 H2]%(lo_owned _ Hd). split; [|done]. rewrite fmap_app. set_solver.
  - intros s (o & Ho & H)%(lo_observed _ Hd). exists o. set_solver.
  - intros o Ho. exists o. split_and!; [set_solver|done|lia|done].
Qed.

Lemma keyed_true tenant key r : keyed tenant key r = true ↔ rn_tenant r = tenant ∧ rn_key r = Some key.
Proof. unfold keyed. by rewrite andb_true_iff, !bool_decide_eq_true. Qed.

Lemma keyed_run d r key :
  ledger_ok d → r ∈ ld_runs d → rn_key r = Some key →
  select_one (keyed (rn_tenant r) key) (ld_runs d) = Some r.
Proof.
  intros Hd Hr Hk. destruct (select_one _ _) as [o|] eqn:E.
  - apply select_one_Some in E as [Ho [Ht Hk']%keyed_true]. f_equal. by eapply (lo_keys _ Hd).
  - apply (proj1 (select_one_None _ _)) with (r := r) in E; [|done].
    assert (keyed (rn_tenant r) key r = true) by by apply keyed_true. congruence.
Qed.

(** An admitted run is in the ledger under its request. *)
Definition admitted (id : string) (r : run_request) (digest : string) (d : ledger) : Prop :=
  ∃ o, o ∈ ld_runs d ∧ rn_id o = id ∧ rn_tenant o = rx_tenant (rq_context r) ∧ rn_key o = rq_key r ∧
    rn_digest o = digest.

Lemma existing_run_Some r d e : existing_run r d = Some e →
  e ∈ ld_runs d ∧ rn_tenant e = rx_tenant (rq_context r) ∧ rn_key e = rq_key r.
Proof.
  unfold existing_run. destruct (rq_key r) as [key|] eqn:E; [|done].
  intros [He [Ht Hk]%keyed_true]%select_one_Some. done.
Qed.
Lemma existing_run_None r d key o : existing_run r d = None → rq_key r = Some key → o ∈ ld_runs d →
  rn_tenant o = rx_tenant (rq_context r) → rn_key o ≠ Some key.
Proof.
  unfold existing_run. intros H Hr Ho Ht Hk. rewrite Hr in H. apply (proj1 (select_one_None _ _)) with (r := o) in H; [|done].
  assert (keyed (rx_tenant (rq_context r)) key o = true) by by apply keyed_true. congruence.
Qed.
Lemma admitted_existing id r digest key d :
  ledger_ok d → rq_key r = Some key → admitted id r digest d →
  ∃ e, existing_run r d = Some e ∧ rn_id e = id ∧ rn_digest e = digest.
Proof.
  intros Hd Hk (o & Ho & Hid & Ht & Hok & Hdg). exists o. unfold existing_run. rewrite Hk, <- Ht.
  split; [|done]. apply keyed_run; congruence.
Qed.
Lemma admitted_later id r digest d d' : ledger_advance d d' → admitted id r digest d → admitted id r digest d'.
Proof.
  intros Hadv (o & Ho & Hid & Ht & Hok & Hdg). destruct (la_runs _ _ Hadv o Ho) as (o' & Ho' & Hi & _).
  exists o'. rewrite <- Hid, <- Ht, <- Hok, <- Hdg. split; [done|].
  split_and!; [exact (f_equal rn_id Hi)|exact (f_equal rn_tenant Hi)|exact (f_equal rn_key Hi)|exact (f_equal rn_digest Hi)].
Qed.

Lemma insert_run_kept id checkpoint r digest generation dynamic plan now d :
  ledger_ok d → request_valid r → checkpoint_thread_id (rq_context r) = Ok checkpoint →
  let result := insert_run id checkpoint r digest generation dynamic plan now d in
  kept d result.1 ∧ ∀ id', result.2 = Ok id' → admitted id' r digest result.1.
Proof.
  intros Hd Hv Hc. unfold insert_run. rewrite run_transaction, run_gets_bind.
  destruct (existing_run r d) as [e|] eqn:Hex.
  - apply existing_run_Some in Hex as (He & Ht & Hk). run. destruct (rn_digest e == digest) eqn:E.
    + run. split; [by apply kept_refl|]. intros id' [= <-]. exists e. apply bool_decide_eq_true in E. done.
    + split; [by apply kept_refl|done].
  - run. destruct (exists_row (live_at checkpoint) (ld_runs d)) eqn:Elive; [by split; [apply kept_refl|]|]. cbn [negb]. run.
    set (t := ThreadRow _ _ _ _ _ _ _).
    destruct (upsert_thread_kept t d Hd) as (d1 & E1 & [Hd1 Hadv1] & (Hruns & _ & _) & Ht1).
    rewrite (run_bind_ok _ _ _ _ _ E1). unfold add_run. rewrite run_try_modify_bind.
    set (row := new_run id checkpoint r digest generation dynamic plan now).
    destruct (insert_row run_clash row (ld_runs d1)) as [l|] eqn:E2; [|by split; [apply kept_refl|]].
    apply insert_row_Some in E2 as [-> Hclash]. cbn [mbind option_bind]. run.
    assert (row_context row = rq_context r) as Hctx by by apply new_run_context.
    assert (kept d1 (d1 <| ld_runs := ld_runs d1 ++ [row] |>)) as [Hd2 Hadv2].
    { apply add_run_kept; rewrite ?Hctx; try done; rewrite ?Hruns in *.
      - intros (o & E & Ho)%list_elem_of_fmap. specialize (Hclash o Ho). unfold run_clash, run_at in Hclash.
        by rewrite <- E, bool_decide_eq_true_2 in Hclash.
      - intros key o Hkey Ho Ht Hk. by apply (existing_run_None r d key o).
      - intros o Ho Ho'. pose proof (proj1 (exists_row_false _ _) Elive o Ho) as Hn. unfold live_at in Hn.
        by rewrite bool_decide_eq_true_2 in Hn. }
    split; [split; [done|by eapply ledger_advance_trans]|].
    intros id' [= <-]. exists row. simpl. split_and!; [set_solver|done..].
Qed.

Lemma keeps_idempotent r digest : keeps (idempotent_run_id r digest).
Proof. apply keeps_bind; [apply keeps_gets|]. intros [e|]; auto with ledger. Qed.
Lemma keeps_available r allowed : keeps (require_checkpoint_available r allowed).
Proof.
  apply keeps_bind; [apply keeps_outcome|]. intros c. apply keeps_bind; [apply keeps_gets|].
  intros [a|]; auto with ledger.
Qed.
#[export] Hint Resolve keeps_idempotent keeps_available : ledger.

Lemma kept_trans d d' d'' : kept d d' → kept d' d'' → kept d d''.
Proof. intros [_ H] [? H']. split; [done|by eapply ledger_advance_trans]. Qed.

(** What [open_stream] leaves: the invariant, and the run admitted under its key. *)
Definition opened (d : ledger) (r : run_request) (result : ledger * outcome (string * bool)) : Prop :=
  kept d result.1 ∧ ∀ id created, result.2 = Ok (id, created) → admitted id r (request_digest r) result.1.

Lemma opened_bind {A} (m : M ledger A) k d r d1 :
  kept d d1 → keeps m → (∀ a d', kept d d' → opened d r (k a d')) → opened d r ((m ≫= k) d1).
Proof.
  intros Hd Hm Hk. pose proof (kept_trans _ _ _ Hd (keeps_elim m d1 Hm (proj1 Hd))) as Hd'. rewrite run_bind.
  destruct (m d1) as [d' [a|e]]; [by apply Hk|]. by split.
Qed.
Lemma opened_outcome {A} (o : outcome A) k d r d1 :
  kept d d1 → (∀ a, o = Ok a → opened d r (k a d1)) → opened d r ((from_outcome o ≫= k) d1).
Proof. intros Hd H. rewrite run_outcome_bind. destruct o; [by apply H|by split]. Qed.

Lemma insert_run_opened id checkpoint r r' digest generation dynamic plan now d d1 :
  kept d d1 → request_valid r → rq_context r' = rq_context r → rq_key r' = rq_key r → digest = request_digest r →
  checkpoint_thread_id (rq_context r) = Ok checkpoint →
  opened d r ((id' ← insert_run id checkpoint r' digest generation dynamic plan now; mret (id', id' == id)) d1).
Proof.
  intros Hd Hv Hc Hk -> Hcp. rewrite run_bind.
  destruct (insert_run_kept id checkpoint r' (request_digest r) generation dynamic plan now d1 (proj1 Hd))
    as [Hd' Hadm]; [by unfold request_valid; rewrite Hc|by rewrite Hc|].
  destruct (insert_run _ _ _ _ _ _ _ _ d1) as [d2 [id'|e]]; (split; [by eapply kept_trans|]); [|done].
  intros i c [= <- _]. destruct (Hadm id' eq_refl) as (o & H). rewrite Hc, Hk in H. by exists o.
Qed.

Lemma open_stream_opened r transform before replaced fresh generation dynamic plan now d :
  ledger_ok d → request_valid r → (∀ hook, before = Some hook → keeps hook) →
  opened d r (open_stream r transform before replaced fresh generation dynamic plan now d).
Proof.
  intros Hd Hv Hb. pose proof (kept_refl d Hd) as Hk. unfold open_stream. cbv zeta.
  unfold idempotent_run_id at 1. rewrite run_bind_assoc, run_gets_bind.
  destruct (existing_run r d) as [e|] eqn:Hex.
  { apply existing_run_Some in Hex as (He & Ht & Hkey). run. case_bool_decide as E; [|by split].
    split; [done|]. intros id c [= <- _]. by exists e. }
  rewrite run_ret_bind. apply opened_bind; [done|apply keeps_available|]. intros _ d1 H1.
  apply opened_outcome; [done|]. intros r' Hr'. apply opened_bind; [done| |].
  { destruct before as [hook|]; [|auto with ledger]. apply keeps_bind; [by apply Hb|]. auto with ledger. }
  intros _ d2 H2. apply opened_outcome; [done|]. intros checkpoint Hcp.
  assert (rq_context r' = rq_context r ∧ rq_key r' = rq_key r) as [Hc Hkey].
  { destruct transform; [by apply check_request_Ok in Hr' as ->|by injection Hr' as <-]. }
  by apply insert_run_opened.
Qed.

(** *** Threads *)

Lemma keeps_ensure_thread tenant thread channel now : keeps (ensure_thread tenant thread channel now).
Proof.
  apply keeps_intro. intros d Hd. unfold ensure_thread. rewrite run_modify. simpl.
  destruct (insert_or_ignore_spec (λ x, thread_at (th_tenant x) (th_id x))
    (ThreadRow tenant thread "New session" channel false now now) (ld_threads d)) as [[-> Hf]|[-> _]].
  - by apply add_thread_row.
  - destruct d. by apply kept_refl.
Qed.

Lemma keeps_create_thread tenant channel title fresh now : keeps (create_thread tenant channel title fresh now).
Proof.
  apply keeps_intro. intros d Hd. unfold create_thread, add_thread. rewrite run_try_modify_bind.
  set (t := ThreadRow _ _ _ _ _ _ _). destruct (insert_row _ t (ld_threads d)) as [l|] eqn:E; [|by apply kept_refl].
  apply insert_row_Some in E as [-> Hf]. by apply add_thread_row.
Qed.

Lemma keeps_update_thread tenant thread title archived now : keeps (update_thread tenant thread title archived now).
Proof.
  unfold update_thread. cbv zeta. apply keeps_bind; [auto with ledger|]. intros _.
  apply keeps_bind; [auto with ledger|]. intros n. apply keeps_bind.
  - apply keeps_intro. intros d Hd. rewrite run_modify. simpl.
    set (l := update _ _ _). assert (thread_key <$> l = thread_key <$> ld_threads d) as Hl by by apply fmap_update.
    apply threads_kept; [done|done| |]; simpl; unfold unique; rewrite Hl; [done|apply Hd].
  - intros _. case_match; auto with ledger.
Qed.

(** *** Histories

    The steps the service takes: what the interfaces call, and what the task of
    a run writes while its graph runs. *)

Definition task_statuses : list run_status := [SnapRunning; SnapResumePending].
Definition replacing (replaced : option (string * bool)) (now : Z) : option (M ledger unit) :=
  (λ p, cancel p.1 p.2 now;; mret tt) <$> replaced.

Inductive ledger_step : ledger → ledger → Prop :=
  | step_open d r transform replaced fresh generation dynamic plan now :
      request_valid r →
      ledger_step d (open_stream r transform (replacing replaced now) (fst <$> replaced) fresh generation dynamic
                       plan now d).1
  | step_event d id type data now :
      closing_type type = false → ledger_step d (append_event id type data now d).1
  | step_interrupt d id text approvals now :
      existsb pending_approval approvals = true →
      ledger_step d (update_run id (Some SnapInterrupted) text None (Some approvals) task_statuses now d).1
  | step_approved d id text approvals now :
      approvals ≠ [] → existsb pending_approval approvals = false →
      ledger_step d (update_run id (Some SnapResumePending) text None (Some approvals) task_statuses now d).1
  | step_complete d id text now :
      ledger_step d (settle_run id task_statuses SnapCompleted RunCompleted (JObj [("text", JStr text)]) (Some text)
                       None (Some []) now d).1
  | step_fail d id data message now :
      ledger_step d (settle_run id task_statuses SnapFailed RunFailed data None (Some message) None now d).1
  | step_decide d id decision now : ledger_step d (claim_approval_decision id decision (mret tt) now d).1
  | step_cancel d id active now : ledger_step d (cancel id active now d).1
  | step_cancel_thread d tenant thread active now : ledger_step d (cancel_thread tenant thread active now d).1
  | step_abandon d id now : ledger_step d (cancel_with_event id [SnapRunning] now d).1
  | step_restart d now : ledger_step d (reconcile_stale_running_runs now d).1
  | step_create_thread d tenant channel title fresh now :
      ledger_step d (create_thread tenant channel title fresh now d).1
  | step_ensure_thread d tenant thread channel now : ledger_step d (ensure_thread tenant thread channel now d).1
  | step_update_thread d tenant thread title archived now :
      ledger_step d (update_thread tenant thread title archived now d).1.

Lemma keeps_replacing replaced now hook : replacing replaced now = Some hook → keeps hook.
Proof.
  destruct replaced as [p|]; [|done]. intros [= <-]. apply keeps_bind; [apply keeps_cancel|]. auto with ledger.
Qed.

Lemma task_statuses_active s : s ∈ task_statuses → active_status s = true.
Proof. by apply live_active. Qed.

Lemma ledger_step_kept d d' : ledger_ok d → ledger_step d d' → kept d d'.
Proof.
  intros Hd Hs. destruct Hs as [d r transform replaced fresh generation dynamic plan now Hv| | | | | | | | | | | | |].
  - apply open_stream_opened; [done..|]. intros hook. apply keeps_replacing.
  - apply keeps_elim; [by apply keeps_append|done].
  - apply keeps_elim; [|done]. apply keeps_update; [|done]. intros s Hs%task_statuses_active. done.
  - apply keeps_elim; [|done]. apply keeps_update; [|done]. intros s Hs%task_statuses_active. done.
  - apply keeps_elim; [|done]. apply keeps_settle; try done. apply task_statuses_active.
  - apply keeps_elim; [|done]. apply keeps_settle; try done. apply task_statuses_active.
  - apply keeps_elim; [|done]. apply keeps_claim, keeps_ret.
  - apply keeps_elim; [apply keeps_cancel|done].
  - apply keeps_elim; [apply keeps_cancel_thread|done].
  - apply keeps_elim; [|done]. by apply keeps_cancel_with_event.
  - apply keeps_elim; [apply keeps_reconcile|done].
  - apply keeps_elim; [apply keeps_create_thread|done].
  - apply keeps_elim; [apply keeps_ensure_thread|done].
  - apply keeps_elim; [apply keeps_update_thread|done].
Qed.

Lemma ledger_steps_kept d d' : ledger_ok d → rtc ledger_step d d' → kept d d'.
Proof.
  intros Hd Hs. revert Hd. induction Hs as [d|d d1 d' Hs _ IH]; intros Hd; [by apply kept_refl|].
  pose proof (ledger_step_kept _ _ Hd Hs) as H1. eapply kept_trans; [exact H1|]. apply IH, H1.
Qed.
