(* ===== verification/AgentLedger.v ===== *)
(** * What the run ledger guarantees

    The theorems on [AgentRuns]: admission, settlement, replay of the events,
    approvals, restart and the isolation of checkpoints, over all histories of
    the service. *)

From S2P Require Import Prelude Sqlite PyText Clock Sha256 Json Langfuse Protocol InferenceModels Contracts.
From S2P Require Import PyJson Checkpoints AgentRuns.
#[local] Open Scope string_scope.
#[local] Open Scope list_scope.
#[local] Open Scope Z_scope.

Lemma ledger_reachable_ok d : rtc ledger_step no_runs d → ledger_ok d.
Proof. intros H. by apply (ledger_steps_kept no_runs d empty_ledger_ok). Qed.

(** ** Events *)

Lemma same_run d d' r r' :
  ledger_ok d' → ledger_advance d d' → r ∈ ld_runs d → find_run (rn_id r) d' = Some r' →
  run_identity r' = run_identity r ∧ rn_sequence r ≤ rn_sequence r' ∧
  (terminal_status (rn_status r) = true → r' = r).
Proof.
  intros Hd' Hadv Hr Hf. destruct (la_runs _ _ Hadv r Hr) as (o & Ho & Hi & H).
  apply find_agent_run_Some in Hf as [Hr' Hid].
  assert (r' = o) as ->; [|done]. eapply (unique_eq rn_id); [apply Hd'|done..|].
  rewrite Hid. symmetry. exact (f_equal rn_id Hi).
Qed.

Lemma sorted_seqZ (l : list event_entry) a n :
  ee_sequence <$> l = seqZ a n → Sorted (λ x y, sequence_le x y = true) l.
Proof.
  revert a n. induction l as [|e l IH]; intros a n H; [constructor|].
  destruct (decide (0 < n)); [|by rewrite seqZ_nil in H by lia].
  rewrite seqZ_cons in H by lia. injection H as He Hl. constructor; [by eapply IH|].
  destruct l as [|e' l]; [constructor|]. destruct (decide (0 < Z.pred n)); [|by rewrite seqZ_nil in Hl by lia].
  rewrite seqZ_cons in Hl by lia. injection Hl as He' _. constructor. unfold sequence_le. apply Z.leb_le. lia.
Qed.

Lemma select_events_after (l : list event_entry) after : ∀ a n,
  ee_sequence <$> l = seqZ a n →
  select (λ e, after <? ee_sequence e) l = drop (Z.to_nat (after - (a - 1))) l.
Proof.
  induction l as [|e l IH]; intros a n H; [by rewrite drop_nil|].
  destruct (decide (0 < n)); [|by rewrite seqZ_nil in H by lia].
  rewrite seqZ_cons in H by lia. injection H as He Hl. simpl. rewrite He.
  change (List.filter (λ e, after <? ee_sequence e) l) with (select (λ e, after <? ee_sequence e) l).
  rewrite (IH _ _ Hl). destruct (after <? a) eqn:E.
  - apply Z.ltb_lt in E. replace (Z.to_nat (after - (a - 1))) with 0%nat by lia.
    by replace (Z.to_nat (after - (Z.succ a - 1))) with 0%nat by lia.
  - apply Z.ltb_ge in E.
    by replace (Z.to_nat (after - (a - 1))) with (S (Z.to_nat (after - (Z.succ a - 1)))) by lia.
Qed.

Lemma drop_seqZ k a n : drop k (seqZ a n) = seqZ (a + Z.of_nat k) (n - Z.of_nat k).
Proof.
  apply list_eq. intros i. rewrite lookup_drop. apply option_eq. intros x. rewrite !lookup_seqZ. lia.
Qed.

(** The events a client gets after a cursor are what follows it in the log of the run. *)
Lemma events_after_run d r after :
  ledger_ok d → r ∈ ld_runs d →
  events_after (rn_id r) after d = drop (Z.to_nat after) (run_events (rn_id r) (ld_events d)).
Proof.
  intros Hd Hr. pose proof (ro_numbered _ _ _ (lo_rows _ Hd _ Hr)) as Hn. unfold events_after.
  rewrite select_and. change (select (λ e, ee_run e == rn_id r) (ld_events d)) with (run_events (rn_id r) (ld_events d)).
  rewrite (select_events_after _ _ _ _ Hn). replace (Z.to_nat (Z.max 0 after - (1 - 1))) with (Z.to_nat after) by lia.
  apply order_by_id, (sorted_seqZ _ (1 + Z.of_nat (Z.to_nat after)) (rn_sequence r - Z.of_nat (Z.to_nat after))).
  rewrite fmap_drop, Hn. apply drop_seqZ.
Qed.

Lemma run_events_later d d' id :
  ledger_advance d d' → ∃ l, run_events id (ld_events d') = run_events id (ld_events d) ++ l.
Proof. intros Hadv. destruct (la_events _ _ Hadv) as [l ->]. rewrite run_events_app. eauto. Qed.

Lemma length_run_events d r :
  ledger_ok d → r ∈ ld_runs d → Z.of_nat (length (run_events (rn_id r) (ld_events d))) = rn_sequence r.
Proof.
  intros Hd Hr. pose proof (lo_rows _ Hd _ Hr) as H.
  rewrite <- (length_fmap ee_sequence), (ro_numbered _ _ _ H), length_seqZ. pose proof (ro_sequence _ _ _ H). lia.
Qed.

(** C1: the invariant of the run ledger. *)
Theorem run_ledger_invariant d d' :
  rtc ledger_step no_runs d → rtc ledger_step d d' → ledger_ok d' ∧ ledger_advance d d'.
Proof. intros H%ledger_reachable_ok H'. by apply ledger_steps_kept. Qed.

(** C9: a client that follows a run sees its events once each, in order and without a gap. *)
Theorem events_replayed_once d d' r after :
  rtc ledger_step no_runs d → rtc ledger_step d d' → r ∈ ld_runs d → 0 <= after <= rn_sequence r →
  ee_sequence <$> events_after (rn_id r) after d = seqZ (after + 1) (rn_sequence r - after) ∧
  events_after (rn_id r) after d' = events_after (rn_id r) after d ++ events_after (rn_id r) (rn_sequence r) d'.
Proof.
  intros H%ledger_reachable_ok H' Hr Ha. destruct (ledger_steps_kept _ _ H H') as [Hd' Hadv].
  destruct (la_runs _ _ Hadv r Hr) as (r' & Hr' & Hi & Hs & _).
  assert (rn_id r' = rn_id r) as Hid by exact (f_equal rn_id Hi).
  pose proof (events_after_run d' r' after Hd' Hr') as E1. pose proof (events_after_run d' r' (rn_sequence r) Hd' Hr') as E2.
  rewrite Hid in E1, E2. rewrite E1, E2, !events_after_run by done.
  pose proof (ro_numbered _ _ _ (lo_rows _ H _ Hr)) as Hn. pose proof (length_run_events d r H Hr) as Hlen. split.
  - rewrite fmap_drop, Hn, drop_seqZ. f_equal; lia.
  - destruct (run_events_later d d' (rn_id r) Hadv) as [l ->].
    rewrite (drop_app_le _ _ (Z.to_nat after)) by lia.
    rewrite drop_app_length' by lia. done.
Qed.

(** ** Admission *)

Lemma open_stream_known r transform before replaced fresh generation dynamic plan now d e :
  existing_run r d = Some e →
  open_stream r transform before replaced fresh generation dynamic plan now d =
    (d, if rn_digest e == request_digest r then Ok (rn_id e, false) else Err key_conflict).
Proof. intros H. unfold open_stream, idempotent_run_id. run. rewrite H. run. by case_bool_decide. Qed.

(** C2: a key admits one run: whatever happened since, submitting the request
    again joins it, and another request under the key is refused. *)
Theorem run_submitted_once d r transform replaced fresh generation dynamic plan now id created key d1 d2
    r' transform' before' replaced' fresh' generation' dynamic' plan' now' :
  rtc ledger_step no_runs d → request_valid r → rq_key r = Some key →
  open_stream r transform (replacing replaced now) (fst <$> replaced) fresh generation dynamic plan now d
    = (d1, Ok (id, created)) →
  rtc ledger_step d1 d2 → rq_key r' = Some key → rx_tenant (rq_context r') = rx_tenant (rq_context r) →
  open_stream r' transform' before' replaced' fresh' generation' dynamic' plan' now' d2 =
    (d2, if request_digest r' == request_digest r then Ok (id, false) else Err key_conflict).
Proof.
  intros Hd%ledger_reachable_ok Hv Hk Hopen Hs Hk' Ht.
  destruct (open_stream_opened r transform (replacing replaced now) (fst <$> replaced) fresh generation dynamic plan
    now d Hd Hv (keeps_replacing replaced now)) as [[Hd1 _] Hadm].
  rewrite Hopen in Hd1, Hadm. specialize (Hadm id created eq_refl). simpl in Hd1, Hadm.
  destruct (ledger_steps_kept _ _ Hd1 Hs) as [Hd2 Hadv].
  destruct (admitted_existing id r _ key d2 Hd2 Hk (admitted_later _ _ _ _ _ Hadv Hadm)) as (e & He & Hid & Hdg).
  assert (existing_run r' d2 = Some e) as He' by (unfold existing_run in *; by rewrite Hk', Ht, <- Hk, Hk in *).
  rewrite (open_stream_known _ _ _ _ _ _ _ _ _ _ _ He'), Hid, Hdg.
  by rewrite (bool_decide_ext (request_digest r = request_digest r') (request_digest r' = request_digest r)).
Qed.

(** ** Settled runs *)

Lemma unique_filter {R} (k : R → string) l a : unique k l → (length (filter (λ x, k x = a) l) ≤ 1)%nat.
Proof.
  unfold unique. induction l as [|x l IH]; [simpl; lia|]. rewrite fmap_cons. intros [Hx Hl]%NoDup_cons.
  destruct (decide (k x = a)) as [<-|Hne]; [|rewrite filter_cons_False by done; auto].
  rewrite filter_cons_True by done. simpl. enough (filter (λ y, k y = k x) l = []) as -> by (simpl; lia).
  destruct (filter _ l) as [|y l'] eqn:E; [done|]. exfalso.
  assert (y ∈ filter (λ y, k y = k x) l) as [Hy Hin]%list_elem_of_filter by (rewrite E; set_solver).
  apply Hx. rewrite <- Hy. by apply list_elem_of_fmap_2.
Qed.

(** The log of a settled run ends with the event that closed it. *)
Lemma settled_log d r :
  ledger_ok d → r ∈ ld_runs d → terminal_status (rn_status r) = true →
  ∃ l e, run_events (rn_id r) (ld_events d) = l ++ [e] ∧ closing_type (ee_type e) = true ∧
    ∀ e', e' ∈ l → closing_type (ee_type e') = false.
Proof.
  intros Hd Hr Ht. destruct (lo_rows _ Hd _ Hr) as [_ _ _ Hc Hn Hcl _ _]. specialize (Hc Ht). rewrite Ht in Hcl.
  destruct (run_events (rn_id r) (ld_events d)) as [|e l _] eqn:E using rev_ind.
  { by rewrite (seqZ_cons 1) in Hn by lia. }
  replace (rn_sequence r) with (rn_sequence r - 1 + 1) in Hn by lia. rewrite seqZ_snoc in Hn by lia.
  rewrite fmap_app in Hn. apply app_inj_tail in Hn as [Hl He]. exists l, e. split_and!; [done| |].
  - rewrite Hcl by set_solver. apply Z.eqb_eq. lia.
  - intros e' He'. rewrite Hcl by set_solver. apply Z.eqb_neq.
    assert (ee_sequence e' ∈ seqZ 1 (rn_sequence r - 1)) as Hin%elem_of_seqZ by (rewrite <- Hl; by apply list_elem_of_fmap_2).
    lia.
Qed.

(** C4: a settled run is final: its row and its log stay as they are, the log
    ends with the only event that closes it, and it is reported at most once. *)
Theorem settled_run_final d d' r :
  rtc ledger_step no_runs d → rtc ledger_step d d' → r ∈ ld_runs d → terminal_status (rn_status r) = true →
  find_run (rn_id r) d' = Some r ∧
  run_events (rn_id r) (ld_events d') = run_events (rn_id r) (ld_events d) ∧
  (∃ l e, run_events (rn_id r) (ld_events d') = l ++ [e] ∧ closing_type (ee_type e) = true ∧
     ∀ e', e' ∈ l → closing_type (ee_type e') = false) ∧
  (length (filter (λ s, sn_run s = rn_id r) (ld_observed d')) ≤ 1)%nat.
Proof.
  intros H%ledger_reachable_ok H' Hr Ht. destruct (ledger_steps_kept _ _ H H') as [Hd' Hadv].
  assert (r ∈ ld_runs d') as Hr'.
  { destruct (la_runs _ _ Hadv r Hr) as (o & Ho & _ & _ & E). by rewrite <- (E Ht). }
  split_and!; [by apply find_agent_run_in| |by apply settled_log|apply unique_filter, Hd'].
  pose proof (length_run_events d r H Hr) as L. pose proof (length_run_events d' r Hd' Hr') as L'.
  destruct (run_events_later d d' (rn_id r) Hadv) as [l E]. rewrite E, length_app in L'.
  destruct l; [by rewrite E, app_nil_r|]. simpl in L'. lia.
Qed.

(** ** Restart *)

Definition restart_data : json := failure_data "agent_run_interrupted_by_restart" run_interrupted_message true.
Definition restarted (r : run_row) (now : Z) : run_row :=
  moved r SnapFailed None (Some run_interrupted_message) None now.

Lemma fail_restart_run d id now :
  ledger_ok d → id ∈ rn_id <$> ld_runs d → ∃ d', fail_restart_interrupted_run id [SnapRunning] now d = (d', Ok tt) ∧
  kept d d' ∧ rn_id <$> ld_runs d' = rn_id <$> ld_runs d ∧
  (∀ r, r ∈ ld_runs d → rn_id r = id → rn_status r = SnapRunning →
     restarted r now ∈ ld_runs d' ∧ entry r RunFailed restart_data now ∈ ld_events d') ∧
  (∀ r, r ∈ ld_runs d → rn_id r ≠ id ∨ rn_status r ≠ SnapRunning → r ∈ ld_runs d').
Proof.
  intros Hd (r & -> & Hr)%list_elem_of_fmap. unfold fail_restart_interrupted_run. rewrite run_bind.
  rewrite settle_run_run by (try done; by apply live_active). fold restart_data.
  assert (∀ o, o ∈ ld_runs d → rn_id o = rn_id r → o = r) as Hone.
  { intros o Ho E. by eapply (unique_eq rn_id); [apply Hd|..]. }
  case_bool_decide as Hs; rewrite list_elem_of_singleton in Hs.
  - eexists. split; [done|].
    assert (kept d (settlement r SnapFailed RunFailed restart_data None (Some run_interrupted_message) None now d)) as Hk.
    { apply settle_kept; try done. by rewrite Hs. }
    split_and!; [done| | |].
    + unfold settlement, with_entry, put_run. simpl. apply fmap_update. by intros o _ H%bool_decide_eq_true.
    + intros o Ho E _. rewrite (Hone o Ho E). split.
      * apply (in_put_run (restarted r now) (restarted r now)). left. split; [done|].
        by apply (list_elem_of_fmap_2 rn_id _ r).
      * unfold settlement, with_entry, put_run. simpl. set_solver.
    + intros o Ho Hne. apply (in_put_run o (restarted r now)). right. split; [done|]. intros E.
      destruct Hne as [Hne|Hne]; [done|]. by rewrite (Hone o Ho E) in Hne.
  - exists d. split_and!; [done|by apply kept_refl|done| |done].
    intros o Ho E Hst. by rewrite (Hone o Ho E) in Hst.
Qed.

Lemma fail_restart_all ids now : ∀ d,
  ledger_ok d → (∀ id, id ∈ ids → id ∈ rn_id <$> ld_runs d) →
  ∃ d', for_each ids (λ id, fail_restart_interrupted_run id [SnapRunning] now) d = (d', Ok tt) ∧
  kept d d' ∧ rn_id <$> ld_runs d' = rn_id <$> ld_runs d ∧
  (∀ r, r ∈ ld_runs d → rn_id r ∈ ids → rn_status r = SnapRunning →
     restarted r now ∈ ld_runs d' ∧ entry r RunFailed restart_data now ∈ ld_events d') ∧
  (∀ r, r ∈ ld_runs d → rn_id r ∉ ids ∨ rn_status r ≠ SnapRunning → r ∈ ld_runs d').
Proof.
  induction ids as [|id ids IH]; intros d Hd Hin; simpl.
  { exists d. split_and!; [done|by apply kept_refl|done|set_solver|done]. }
  destruct (fail_restart_run d id now Hd) as (d1 & E1 & [Hd1 Hadv1] & Hids & Hhit & Hmiss); [set_solver|].
  rewrite (run_bind_ok _ _ _ _ _ E1).
  destruct (IH d1 Hd1) as (d2 & E2 & H2 & Hids2 & Hhit2 & Hmiss2); [rewrite Hids; set_solver|].
  exists d2. split_and!; [done|by apply (kept_trans d d1 d2)|congruence| |].
  - intros r Hr Hid Hs. destruct (decide (rn_id r = id)) as [E|Hne].
    + destruct (Hhit r Hr E Hs) as [Hr1 He1]. split.
      * apply Hmiss2; [done|by right].
      * destruct H2 as [_ Hadv2]. destruct (la_events _ _ Hadv2) as [l ->]. set_solver.
    + apply Hhit2; [|set_solver|done]. apply Hmiss; auto.
  - intros r Hr Hid. apply Hmiss2; [apply Hmiss; [done|]|]; set_solver.
Qed.

(** What a start makes of a ledger: every run found in flight fails, with its event. *)
Lemma reconciled d now :
  ledger_ok d → ∃ d', reconcile_stale_running_runs now d = (d', Ok tt) ∧ kept d d' ∧
  (∀ r, r ∈ ld_runs d' → rn_status r ≠ SnapRunning) ∧
  (∀ r, r ∈ ld_runs d → rn_status r = SnapRunning →
     restarted r now ∈ ld_runs d' ∧ entry r RunFailed restart_data now ∈ ld_events d') ∧
  (∀ r, r ∈ ld_runs d → rn_status r ≠ SnapRunning → r ∈ ld_runs d').
Proof.
  intros Hd. unfold reconcile_stale_running_runs. rewrite run_gets_bind.
  set (ids := rn_id <$> _).
  assert (∀ r, r ∈ ld_runs d → rn_status r = SnapRunning → rn_id r ∈ ids) as Hin.
  { intros r Hr Hs. apply list_elem_of_fmap_2. rewrite order_by_perm. apply elem_of_select. split; [done|].
    by rewrite bool_decide_eq_true. }
  destruct (fail_restart_all ids now d Hd) as (d' & E & [Hd' Hadv] & Hids & Hhit & Hmiss).
  { intros id (r & -> & Hr)%list_elem_of_fmap. rewrite order_by_perm in Hr. apply elem_of_select in Hr as [Hr _].
    by apply list_elem_of_fmap_2. }
  exists d'. split_and!; [done|done| |by auto|by auto]. intros r Hr Hs.
  assert (rn_id r ∈ rn_id <$> ld_runs d) as (o & Eo & Ho)%list_elem_of_fmap.
  { rewrite <- Hids. by apply list_elem_of_fmap_2. }
  destruct (decide (rn_status o = SnapRunning)) as [Hrun|Hno].
  - destruct (Hhit o Ho (Hin o Ho Hrun) Hrun) as [Ho' _].
    by rewrite (unique_eq rn_id _ _ _ (lo_ids _ Hd') Hr Ho' Eo) in Hs.
  - assert (o ∈ ld_runs d') as Ho' by auto. by rewrite (unique_eq rn_id _ _ _ (lo_ids _ Hd') Hr Ho' Eo) in Hs.
Qed.

(** A run found in flight is failed by the next start, whichever it is. *)
Lemma start_settles d now r :
  ledger_ok d → r ∈ ld_runs d →
  ∃ d' r', reconcile_stale_running_runs now d = (d', Ok tt) ∧ find_run (rn_id r) d' = Some r' ∧
    (rn_status r = SnapRunning → rn_status r' = SnapFailed) ∧ (rn_status r ≠ SnapRunning → r' = r).
Proof.
  intros Hd Hr. destruct (reconciled d now Hd) as (d' & E & [Hd' _] & _ & Hhit & Hmiss). exists d'.
  destruct (decide (rn_status r = SnapRunning)) as [Hs|Hs].
  - exists (restarted r now). split_and!; [done| |done|done].
    change (rn_id r) with (rn_id (restarted r now)). by apply find_agent_run_in; [|apply Hhit].
  - exists r. split_and!; [done| |done|done]. apply find_agent_run_in; auto.
Qed.

(** C11: a restart settles every run it finds in flight, with the event that says
    so, and touches no other run. *)
Theorem restart_settles_running d now :
  rtc ledger_step no_runs d → ∃ d', reconcile_stale_running_runs now d = (d', Ok tt) ∧
  (∀ r, r ∈ ld_runs d' → rn_status r ≠ SnapRunning) ∧
  (∀ r, r ∈ ld_runs d → rn_status r = SnapRunning →
     restarted r now ∈ ld_runs d' ∧ entry r RunFailed restart_data now ∈ ld_events d') ∧
  (∀ r, r ∈ ld_runs d → rn_status r ≠ SnapRunning → r ∈ ld_runs d').
Proof.
  intros Hd%ledger_reachable_ok. destruct (reconciled d now Hd) as (d' & E & _ & H). by exists d'.
Qed.

(** ** Cancellation *)

Definition cancel_data : json := failure_data "agent_run_cancelled" run_cancelled_message false.
Definition cancelled_row (r : run_row) (now : Z) : run_row :=
  moved r SnapCancelled None (Some run_cancelled_message) None now.
Definition cancelled (r : run_row) (now : Z) (d : ledger) : ledger :=
  settlement r SnapCancelled RunFailed cancel_data None (Some run_cancelled_message) None now d.

Lemma cancelled_kept r now d : ledger_ok d → r ∈ ld_runs d → active_status (rn_status r) = true → kept d (cancelled r now d).
Proof.
  intros Hd Hr Ha.
  by destruct (settle_kept d r SnapCancelled RunFailed cancel_data None (Some run_cancelled_message) None now Hd Hr Ha).
Qed.

Lemma in_cancelled r now d o :
  r ∈ ld_runs d →
  o ∈ ld_runs (cancelled r now d) ↔ o = cancelled_row r now ∨ (o ∈ ld_runs d ∧ rn_id o ≠ rn_id r).
Proof.
  intros Hr. etrans; [apply (in_put_run o (cancelled_row r now))|]. split; [tauto|].
  intros [H|H]; [left|by right]. split; [done|]. by apply (list_elem_of_fmap_2 rn_id _ r).
Qed.

Lemma cancel_with_event_run d r allowed now :
  ledger_ok d → r ∈ ld_runs d → forallb active_status allowed = true →
  cancel_with_event (rn_id r) allowed now d =
    (if bool_decide (rn_status r ∈ allowed) then cancelled r now d else d, Ok tt).
Proof.
  intros Hd Hr Hl. unfold cancel_with_event. rewrite run_bind, settle_run_run by (try done; by apply live_active).
  by case_bool_decide.
Qed.

Lemma get_run_row d r : ledger_ok d → r ∈ ld_runs d → ∃ s, get_run (rn_id r) d = (d, Ok (Some s)) ∧
  snapshot_from_row r = Ok s ∧ sn_status s = rn_status r ∧ sn_approvals s = rn_approvals r.
Proof.
  intros Hd Hr. destruct (snapshot_of_row d r Hd Hr) as (s & Hs & _ & _ & Hst & Hap). exists s.
  unfold get_run. rewrite run_gets_bind, (find_agent_run_in d r Hd Hr). run. by rewrite Hs.
Qed.
Lemma run_status_row d r : ledger_ok d → r ∈ ld_runs d → run_status_of (rn_id r) d = (d, Ok (rn_status r)).
Proof. intros Hd Hr. unfold run_status_of. by rewrite run_gets_bind, (find_agent_run_in d r Hd Hr). Qed.

Lemma cancel_run d r active now :
  ledger_ok d → r ∈ ld_runs d →
  ∃ s, cancel (rn_id r) active now d = (if active_status (rn_status r) then cancelled r now d else d, Ok s) ∧
  snapshot_from_row (if active_status (rn_status r) then cancelled_row r now else r) = Ok s.
Proof.
  intros Hd Hr. unfold cancel. destruct (get_run_row d r Hd Hr) as (s & Hg & Hs & Hst & _).
  rewrite (run_bind_ok _ _ _ _ _ Hg), Hst. unfold terminal_status at 1.
  destruct (active_status (rn_status r)) eqn:Ha; [|by exists s]. cbn [negb].
  destruct (cancelled_kept r now d Hd Hr Ha) as [Hd' _].
  assert (cancelled_row r now ∈ ld_runs (cancelled r now d)) as Hr' by (apply in_cancelled; auto).
  destruct (get_run_row _ _ Hd' Hr') as (s' & Hg' & Hs' & _).
  change (rn_id (cancelled_row r now)) with (rn_id r) in Hg'. exists s'. split; [|done].
  assert (∀ k : unit → M ledger snapshot, k tt (cancelled r now d) = (cancelled r now d, Ok s') →
    (status ← run_status_of (rn_id r);
     (if terminal_status status then mret tt else cancel_with_event (rn_id r) live_statuses now) ≫= k) d
     = (cancelled r now d, Ok s')) as Hlate.
  { intros k Hk. rewrite (run_bind_ok _ _ _ _ _ (run_status_row d r Hd Hr)). unfold terminal_status. rewrite Ha.
    cbn [negb]. rewrite run_bind, cancel_with_event_run by done. rewrite bool_decide_eq_true_2; [done|].
    unfold live_statuses. destruct (rn_status r); try done; set_solver. }
  destruct active.
  - rewrite run_bind, run_try_except, cancel_with_event_run by done.
    case_bool_decide as Hin; [|apply Hlate; by rewrite (run_bind_ok _ _ _ _ _ Hg')].
    rewrite (run_bind_ok _ _ _ _ _ (run_status_row _ _ Hd' Hr')).
    change (terminal_status _) with true. cbn iota. by rewrite run_ret_bind, (run_bind_ok _ _ _ _ _ Hg').
  - rewrite run_ret_bind. apply Hlate. by rewrite (run_bind_ok _ _ _ _ _ Hg').
Qed.

(** C12: a run that is cancelled ends settled, once, and what is returned is its row. *)
Theorem cancel_settles d r active now :
  rtc ledger_step no_runs d → r ∈ ld_runs d →
  ∃ d' r' s, cancel (rn_id r) active now d = (d', Ok s) ∧ find_run (rn_id r) d' = Some r' ∧
  snapshot_from_row r' = Ok s ∧ terminal_status (rn_status r') = true ∧
  (terminal_status (rn_status r) = true → d' = d) ∧
  (terminal_status (rn_status r) = false →
     r' = cancelled_row r now ∧ last (run_events (rn_id r) (ld_events d')) = Some (entry r RunFailed cancel_data now)) ∧
  (∀ o, o ∈ ld_runs d → rn_id o ≠ rn_id r → o ∈ ld_runs d').
Proof.
  intros Hd%ledger_reachable_ok Hr. destruct (cancel_run d r active now Hd Hr) as (s & Hc & Hs). rewrite Hc.
  unfold terminal_status. destruct (active_status (rn_status r)) eqn:Ha.
  - destruct (cancelled_kept r now d Hd Hr Ha) as [Hd' _].
    assert (cancelled_row r now ∈ ld_runs (cancelled r now d)) as Hr' by (apply in_cancelled; auto).
    exists (cancelled r now d), (cancelled_row r now), s. split_and!; try done.
    + by apply (find_agent_run_in _ _ Hd' Hr').
    + intros _. split; [done|]. unfold cancelled, settlement, with_entry, put_run. simpl.
      rewrite run_events_app. simpl. by rewrite bool_decide_eq_true_2, last_snoc.
    + intros o Ho Hne. apply in_cancelled; auto.
  - exists d, r, s. rewrite Ha. split_and!; try done. by apply find_agent_run_in.
Qed.

(** ** Approvals *)

Definition decided (a : approval) (d : decision) : approval :=
  a <| ap_status := decision_status (de_kind d) |> <| ap_edited := de_edited d |> <| ap_message := de_message d |>.
(** The approvals [l1 ++ a :: l2] with [a] the one the decision names. *)
Definition names_approval (d : decision) (l1 : list approval) (a : approval) : Prop :=
  ap_id a = de_approval d ∧ ∀ b, b ∈ l1 → ap_id b ≠ de_approval d.

Lemma decide_approvals_at d l1 a l2 :
  names_approval d l1 a →
  decide_approvals d (l1 ++ a :: l2) =
    if negb (ap_status a == ApprovalPending) then
      if approval_matches_decision a d then Ok None
      else Err (ValueError ("approval already decided differently: " +:+ ap_id a))
    else if negb (bool_decide (decision_text (de_kind d) ∈ ap_decisions a)) then
      Err (ValueError ("decision " +:+ repr (decision_text (de_kind d)) +:+ " is not allowed for " +:+ ap_tool a))
    else Ok (Some (l1 ++ decided a d :: l2)).
Proof.
  intros [Ha Hl]. induction l1 as [|b l1 IH]; simpl.
  - rewrite Ha, (bool_decide_eq_true_2 (de_approval d = _)) by done. cbn [negb]. by rewrite <- Ha.
  - rewrite (bool_decide_eq_false_2 (ap_id b = _)) by (apply Hl; set_solver). cbn [negb].
    rewrite IH by set_solver. by repeat case_match; simplify_eq/=.
Qed.

Lemma decide_approvals_Ok d l o : decide_approvals d l = Ok o →
  ∃ l1 a l2, l = l1 ++ a :: l2 ∧ names_approval d l1 a ∧
    match o with
    | None => ap_status a ≠ ApprovalPending ∧ approval_matches_decision a d = true
    | Some l' => ap_status a = ApprovalPending ∧ decision_text (de_kind d) ∈ ap_decisions a ∧
                 l' = l1 ++ decided a d :: l2
    end.
Proof.
  revert o. induction l as [|b l IH]; intros o; [done|]. simpl.
  destruct (ap_id b == de_approval d) eqn:E; [apply bool_decide_eq_true in E|apply bool_decide_eq_false in E]; cbn [negb].
  - intros H. exists [], b, l. split; [done|]. split; [split; [done|set_solver]|].
    destruct (ap_status b == ApprovalPending) eqn:Es; cbn [negb] in H.
    + apply bool_decide_eq_true in Es. case_bool_decide as Ed; [|done]. by injection H as <-.
    + apply bool_decide_eq_false in Es. destruct (approval_matches_decision b d) eqn:Em; [|done]. by injection H as <-.
  - destruct (decide_approvals d l) as [o'|]; [|done]. intros [= <-].
    destruct (IH o' eq_refl) as (l1 & a & l2 & -> & [Ha Hl] & H). exists (b :: l1), a, l2.
    split; [done|]. split; [split; [done|set_solver]|].
    destruct o' as [l'|]; simpl; [|done]. destruct H as (? & ? & ->). done.
Qed.

Lemma decided_matches a d : approval_matches_decision (decided a d) d = true.
Proof.
  unfold approval_matches_decision, decided. simpl. rewrite !bool_decide_eq_true_2 by done.
  destruct (de_edited d); [|done]. unfold same_arguments, same_dict. by rewrite bool_decide_eq_true_2.
Qed.
Lemma decided_settled a d : ap_status (decided a d) ≠ ApprovalPending.
Proof. simpl. by destruct (de_kind d). Qed.

Lemma write_decision_Ok d id before after now d' :
  ledger_ok d → write_decision id before after now d = (d', Ok tt) →
  ∃ r, r ∈ ld_runs d ∧ rn_id r = id ∧ rn_status r = SnapInterrupted ∧
    serialize_approvals (rn_approvals r) = serialize_approvals before ∧
    let r' := r <| rn_approvals := after |> <| rn_status := decided_status after |> <| rn_updated := now |> in
    r' ∈ ld_runs d' ∧ (∀ o, o ∈ ld_runs d → rn_id o ≠ id → o ∈ ld_runs d').
Proof.
  intros Hd. unfold write_decision. run.
  pose (g r := (rn_status r == SnapInterrupted) && (serialize_approvals (rn_approvals r) == serialize_approvals before)).
  destruct (find_run id d) as [r|] eqn:E.
  - apply find_agent_run_Some in E as [Hr <-]. pose proof (rowcount_run g d r Hd Hr) as Hcount. unfold g in Hcount. rewrite Hcount.
    destruct ((rn_status r == SnapInterrupted) && _) eqn:Hg; [|done]. intros [= <-].
    apply andb_true_iff in Hg as [Hs%bool_decide_eq_true Hap%bool_decide_eq_true].
    exists r. split_and!; try done.
    + simpl. apply elem_of_update. exists r. split; [done|]. unfold run_at. by rewrite !bool_decide_eq_true_2.
    + intros o Ho Hne. simpl. apply elem_of_update. exists o. split; [done|]. unfold run_at.
      by rewrite (bool_decide_eq_false_2 (rn_id o = _)).
  - rewrite (proj2 (rowcount_zero _ _)); [done|]. intros o Ho. by rewrite (proj1 (select_one_None _ _) E o Ho).
Qed.

Lemma agent_claim_run d r de others now :
  ledger_ok d → r ∈ ld_runs d →
  ∃ s, snapshot_from_row r = Ok s ∧
  claim_approval_decision (rn_id r) de others now d =
    if bool_decide (rn_status r ∈ [SnapInterrupted; SnapResumePending]) then
      match decide_approvals de (rn_approvals r) with
      | Err e => (d, Err e)
      | Ok None => (d, Ok (s, rn_approvals r))
      | Ok (Some l) => (others;; write_decision (rn_id r) (rn_approvals r) l now;; mret (s, l)) d
      end
    else (d, Err (ValueError ("agent run is not awaiting approval: " +:+ run_status_text (rn_status r)))).
Proof.
  intros Hd Hr. destruct (get_run_row d r Hd Hr) as (s & Hg & Hs & Hst & Hap). exists s. split; [done|].
  unfold claim_approval_decision. rewrite (run_bind_ok _ _ _ _ _ Hg), Hst, run_unless_bind, Hap.
  case_bool_decide; [|done]. rewrite run_outcome_bind. by destruct (decide_approvals _ _) as [[l|]|].
Qed.

(** The run [r] holds [l], in which the decision [de] is taken. *)
Definition decision_taken (de : decision) (r : run_row) (l1 : list approval) (a : approval) (l2 : list approval) : Prop :=
  rn_approvals r = l1 ++ a :: l2 ∧ names_approval de l1 a ∧ ap_status a ≠ ApprovalPending ∧
  approval_matches_decision a de = true ∧ rn_status r ∈ [SnapInterrupted; SnapResumePending].

Lemma claim_Ok d id de others now d' s l :
  ledger_ok d → keeps others → claim_approval_decision id de others now d = (d', Ok (s, l)) →
  ∃ r l1 a l2, r ∈ ld_runs d' ∧ rn_id r = id ∧ l = rn_approvals r ∧ decision_taken de r l1 a l2.
Proof.
  intros Hd Ho H. destruct (find_run id d) as [r|] eqn:E.
  2: { unfold claim_approval_decision, get_run in H. revert H. rewrite run_bind, run_gets_bind, E. done. }
  apply find_agent_run_Some in E as [Hr <-]. destruct (agent_claim_run d r de others now Hd Hr) as (s0 & Hs0 & Hc).
  rewrite Hc in H. clear Hc. case_bool_decide as Hst; [|done].
  destruct (decide_approvals de (rn_approvals r)) as [[l'|]|] eqn:Edec; [| |done].
  - apply decide_approvals_Ok in Edec as (l1 & a & l2 & Hap & [Ha Hl1] & _ & _ & ->).
    destruct (others d) as [d1 [[]|]] eqn:Eo; [|by rewrite (run_bind_err _ _ _ _ _ Eo) in H].
    rewrite (run_bind_ok _ _ _ _ _ Eo), run_bind in H.
    pose proof (keeps_elim others d Ho Hd) as [Hd1 _]. rewrite Eo in Hd1. simpl in Hd1.
    destruct (write_decision _ _ _ _ d1) as [d2 [[]|]] eqn:Ew; [|done]. injection H as <- <- <-.
    destruct (write_decision_Ok _ _ _ _ _ _ Hd1 Ew) as (r1 & Hr1 & Hid & _ & _ & Hr' & _).
    eexists _, l1, (decided a de), l2. split; [exact Hr'|]. split_and!; [exact Hid|done|]. split_and!; [done| | | |].
    + by split.
    + apply decided_settled.
    + apply decided_matches.
    + simpl. unfold decided_status. case_match; set_solver.
  - injection H as <- <- <-. apply decide_approvals_Ok in Edec as (l1 & a & l2 & Hap & Hn & Hp & Hm).
    by exists r, l1, a, l2.
Qed.


(** ** A history *)

Definition sample_context : run_context :=
  AgentRunContext "tenant_1" "owner_1" "thread_1" "web" "owner" "corr_1" (OriginRef "web" "console" None None)
    (AgentSpecRef "tenant_1" "owner" 1) OwnerTrust.
Abbreviation sample_submission := (AgentRunRequest sample_context "send the report" [] (Some "key_1")).
Definition sample_plan : inference_plan :=
  ResolvedInferencePlan (InferenceSelection ApiProvider "model-a" None None false) 0 "".
Abbreviation sample_open_call :=
  (open_stream sample_submission None (replacing None 1000) None "run_1" 0 "" sample_plan 1000).
Definition sample_open : ledger := Eval vm_compute in (sample_open_call no_runs).1.
Definition sample_approval : approval :=
  AgentApproval "approval_1" "artifact_deliver" "Approval required" [] ["approve"; "reject"] ApprovalPending None None.
Definition sample_interrupted : ledger :=
  Eval vm_compute in (update_run "run_1" (Some SnapInterrupted) (Some "") None (Some [sample_approval]) task_statuses 2000
    (append_event "run_1" RunStarted (JObj [("api_key", JStr "abc")]) 1500 sample_open).1).1.
Definition sample_decision : decision := ApprovalDecision "approval_1" DecideApprove None None.
Definition sample_refusal : decision := ApprovalDecision "approval_1" DecideReject None None.
Abbreviation sample_claim := (claim_approval_decision "run_1" sample_decision (mret tt) 3000).
Definition sample_decided : ledger := Eval vm_compute in (sample_claim sample_interrupted).1.
Definition sample_done : ledger :=
  Eval vm_compute in (settle_run "run_1" task_statuses SnapCompleted RunCompleted (JObj [("text", JStr "sent")])
    (Some "sent") None (Some []) 4000 sample_decided).1.

Lemma sample_opened : sample_open_call no_runs = (sample_open, Ok ("run_1", true)).
Proof. vm_compute. reflexivity. Qed.
Lemma sample_valid : request_valid sample_submission.
Proof. vm_compute. reflexivity. Qed.
Lemma sample_open_steps : rtc ledger_step no_runs sample_open.
Proof.
  apply rtc_once. replace sample_open with (sample_open_call no_runs).1 by by rewrite sample_opened.
  exact (step_open no_runs sample_submission None None "run_1" 0 "" sample_plan 1000 sample_valid).
Qed.
Lemma sample_interrupted_steps : rtc ledger_step sample_open sample_interrupted.
Proof.
  eapply rtc_l; [by apply (step_event sample_open "run_1" RunStarted (JObj [("api_key", JStr "abc")]) 1500)|].
  eapply rtc_l; [|reflexivity].
  exact (step_interrupt _ "run_1" (Some "") [sample_approval] 2000 eq_refl).
Qed.
Lemma sample_decided_steps : rtc ledger_step sample_interrupted sample_decided.
Proof. apply rtc_once. exact (step_decide sample_interrupted "run_1" sample_decision 3000). Qed.
Lemma sample_done_steps : rtc ledger_step sample_decided sample_done.
Proof. apply rtc_once. exact (step_complete sample_decided "run_1" "sent" 4000). Qed.

Lemma run_ledger_invariant_witness :
  ∃ d, rtc ledger_step no_runs d ∧ length (ld_events d) = 2%nat ∧ ledger_ok d ∧ ledger_advance sample_open d.
Proof.
  exists sample_done.
  assert (rtc ledger_step sample_open sample_done) as H.
  { etrans; [apply sample_interrupted_steps|]. etrans; [apply sample_decided_steps|apply sample_done_steps]. }
  split; [etrans; [apply sample_open_steps|exact H]|]. split; [reflexivity|].
  exact (run_ledger_invariant sample_open sample_done sample_open_steps H).
Defined.

Abbreviation sample_run := (List.hd (new_run "" "" sample_submission "" 0 "" sample_plan 0) (ld_runs sample_open)).
Abbreviation sample_settled := (List.hd (new_run "" "" sample_submission "" 0 "" sample_plan 0) (ld_runs sample_done)).

Lemma sample_history : rtc ledger_step sample_open sample_done.
Proof. etrans; [apply sample_interrupted_steps|]. etrans; [apply sample_decided_steps|apply sample_done_steps]. Qed.
Lemma sample_interrupted_reachable : rtc ledger_step no_runs sample_interrupted.
Proof. etrans; [apply sample_open_steps|apply sample_interrupted_steps]. Qed.
Lemma sample_reachable : rtc ledger_step no_runs sample_done.
Proof. etrans; [apply sample_open_steps|apply sample_history]. Qed.

Lemma events_replayed_once_witness :
  ∃ d r, r ∈ ld_runs d ∧ length (events_after (rn_id r) 1 d) = 1%nat ∧
    ee_sequence <$> events_after (rn_id r) 1 d = seqZ (1 + 1) (rn_sequence r - 1).
Proof.
  exists sample_done, sample_settled. split; [by apply list_elem_of_here|]. split; [reflexivity|].
  exact (proj1 (events_replayed_once sample_done sample_done sample_settled 1 sample_reachable (rtc_refl _ _)
    (list_elem_of_here _ _) ltac:(vm_compute; split; discriminate))).
Defined.

Lemma run_submitted_once_witness :
  ∃ d, length (ld_events d) = 2%nat ∧
    open_stream sample_submission None None None "run_2" 0 "" sample_plan 5000 d = (d, Ok ("run_1", false)).
Proof.
  exists sample_done. split; [reflexivity|].
  pose proof (run_submitted_once no_runs sample_submission None None "run_1" 0 "" sample_plan 1000 "run_1" true "key_1"
    sample_open sample_done sample_submission None None None "run_2" 0 "" sample_plan 5000
    (rtc_refl _ _) sample_valid eq_refl sample_opened sample_history eq_refl eq_refl) as H.
  rewrite bool_decide_eq_true_2 in H by reflexivity. exact H.
Defined.

Lemma settled_run_final_witness :
  ∃ d r, terminal_status (rn_status r) = true ∧ find_run (rn_id r) d = Some r ∧
    (length (filter (λ s, sn_run s = rn_id r) (ld_observed d)) ≤ 1)%nat.
Proof.
  exists sample_done, sample_settled. split; [reflexivity|].
  destruct (settled_run_final sample_done sample_done sample_settled sample_reachable (rtc_refl _ _)
    (list_elem_of_here _ _) eq_refl) as (H1 & _ & _ & H4).
  exact (conj H1 H4).
Defined.

Lemma restart_settles_running_witness :
  ∃ r d', rn_status r = SnapRunning ∧ r ∈ ld_runs sample_open ∧
    reconcile_stale_running_runs 9000 sample_open = (d', Ok tt) ∧ restarted r 9000 ∈ ld_runs d'.
Proof.
  destruct (restart_settles_running sample_open 9000 sample_open_steps) as (d' & H1 & _ & H3 & _).
  exists sample_run, d'. split; [reflexivity|]. split; [by apply list_elem_of_here|]. split; [exact H1|].
  by apply H3; [apply list_elem_of_here|].
Defined.

Lemma cancel_settles_witness :
  ∃ d' r' s, cancel "run_1" true 9000 sample_open = (d', Ok s) ∧ find_run "run_1" d' = Some r' ∧
    terminal_status (rn_status r') = true.
Proof.
  destruct (cancel_settles sample_open sample_run true 9000 sample_open_steps (list_elem_of_here _ _))
    as (d' & r' & s & H1 & H2 & _ & H4 & _).
  exists d', r', s. exact (conj H1 (conj H2 H4)).
Defined.

