(* ===== verification/AgentEvents.v ===== *)
(** * What an agent run publishes ([deep_agent/service.py])

    The pure part of the agent service: the events a message of the graph
    stands for, the bounded values they carry, the approvals an interrupt asks
    for and the failures told to the owner. Adding message chunks is the graph
    library's; a tool's answer carries what [json.loads] makes of its text. *)

From S2P Require Import Prelude Sqlite PyText Sha256 Json PyJson Langfuse Contracts AgentRuns.
#[local] Open Scope string_scope.
#[local] Open Scope list_scope.
#[local] Open Scope Z_scope.

(** [json.dumps(v, ensure_ascii=False, sort_keys=True)], with its spaces. *)
Fixpoint dumps_spaced (v : json) : string :=
  match v with
  | JArr l => "[" +:+ join_text ", " (map dumps_spaced l) +:+ "]"
  | JObj l =>
      "{" +:+ join_text ", " (map (λ kt, dump_text false kt.1 +:+ ": " +:+ kt.2)
                (order_by key_le (map (λ kv, (kv.1, dumps_spaced kv.2)) l))) +:+ "}"
  | _ => dumps false v
  end.

(** ** Bounded values *)

Definition trace_hidden_keys : list string :=
  ["actor_id"; "checkpoint_thread_id"; "customer_id"; "tenant_id"; "thread_id"].
Definition trace_path_keys : list string := ["path"; "uri"].
Definition is_path (v : json) : bool :=
  match v with JStr s => startswith "/" s || startswith "file:" s | _ => false end.

(** [_sanitize_trace_value] *)
Fixpoint sanitize_trace_value (v : json) : json :=
  match v with
  | JObj l =>
      JObj (map (λ kv,
        let normalized := casefold (strip kv.1) in
        (kv.1, if bool_decide (normalized ∈ trace_hidden_keys) then JStr "[redacted]"
               else if bool_decide (normalized ∈ trace_path_keys) && is_path kv.2 then JStr "[redacted-path]"
               else sanitize_trace_value kv.2)) l)
  | JArr l => JArr (map sanitize_trace_value l)
  | _ => v
  end.

Definition trace_tool_value_chars : nat := 4000.
(** [_bounded_trace_value] *)
Definition bounded_trace_value (v : json) : json :=
  let safe := sanitize_trace_value (redact_for_langfuse v) in
  let encoded := dumps_spaced safe in
  if (len encoded <=? Z.of_nat trace_tool_value_chars) then safe
  else JObj [("preview", JStr (take_text trace_tool_value_chars encoded)); ("truncated", JBool true)].

(** [_trace_text_preview] *)
Definition trace_text_preview (s : string) : string :=
  let safe := public_text s in
  if len safe <=? 500 then safe else take_text 500 safe +:+ "...[truncated]".

(** ** Messages *)

(** [ai_calls] are the tool calls of a message, dicts with a name, an id and arguments. *)
Record ai_message := AIMessage {
  ai_content : json;
  ai_calls : list json;
}.
(** [tm_parsed] is what [json.loads] makes of a textual content. *)
Record tool_message := ToolMessage {
  tm_name : string;
  tm_call : string;
  tm_failed : bool;
  tm_content : json;
  tm_parsed : option json;
}.
Inductive message :=
  | AIFull (m : ai_message)
  | AIChunk (m : ai_message) (last : bool)
  | ToolAnswer (m : tool_message)
  | OtherMessage.

(** [_message_text] *)
Definition block_text (v : json) : string :=
  match v with
  | JStr s => s
  | JObj _ =>
      if bool_decide (jget "type" v ∈ [Some (JStr "text"); Some (JStr "output_text")]) then text_or "text" "" v else ""
  | _ => ""
  end.
Definition message_text (content : json) : string :=
  match content with JStr s => s | JArr l => join_text "" (block_text <$> l) | _ => "" end.

(** An event of a message, with the text it adds to the answer. *)
Record message_event := MessageEvent { me_type : event_type; me_data : json; me_text : string }.

(** [_tool_start_events] *)
Definition tool_start_event (call : json) : option message_event :=
  let name := strip (text_or "name" "" call) in
  let id := strip (text_or "id" "" call) in
  if (name == "") || (id == "") || (casefold id == "none") then None
  else Some (MessageEvent ToolStarted
    (JObj [("name", JStr (take_text 200 name)); ("call_id", JStr (take_text 200 id));
           ("arguments", bounded_trace_value (default (JObj []) (jget "args" call)))]) "").
Definition tool_start_events (m : ai_message) : list message_event := omap tool_start_event (ai_calls m).

(** [_artifact_events] *)
Definition raw_artifact (events : bool) (raw : json) : option json :=
  if negb (is_object raw) then None
  else if events then
    if negb (jget "event_type" raw == Some (JStr "artifact.ready")) then None
    else
      match jget "payload" raw with
      | Some (JObj l) =>
          match assoc "artifact" l with Some (JObj a) => Some (JObj a) | _ => Some (JObj l) end
      | _ => None
      end
  else Some raw.
Definition artifact_event (raw : json) : option message_event :=
  let artifact := strip (py_str (py_or (jget "id" raw) (py_or (jget "artifact_id" raw) (JStr "")))) in
  let job := strip (text_or "job_id" "" raw) in
  let name := strip (text_or "name" "" raw) in
  if (artifact == "") || (job == "") || (name == "") then None
  else Some (MessageEvent ArtifactReady
    (JObj [("artifact_id", JStr artifact); ("job_id", JStr job); ("name", JStr (take_text 300 name));
           ("media_type", JStr (take_text 200 (text_or "media_type" "" raw)));
           ("size_bytes", match jget "size_bytes" raw with Some (JInt z) => JInt z | Some (JBool b) => JBool b | _ => JNull end)]) "").
Definition artifact_events (m : tool_message) : list message_event :=
  if negb (bool_decide (tm_name m ∈ ["job_events"; "job_artifacts"])) then []
  else
    match tm_content m, tm_parsed m with
    | JStr _, Some (JObj envelope) =>
        if negb (assoc "status" envelope == Some (JStr "ok")) then []
        else
          match assoc "data" envelope with
          | Some (JArr items) => omap (λ raw, raw ← raw_artifact (tm_name m == "job_events") raw; artifact_event raw) items
          | _ => []
          end
    | _, _ => []
    end.

(** [_message_events] *)
Definition tool_completed (m : tool_message) : message_event :=
  let result := match tm_content m with JStr s => default (JStr s) (tm_parsed m) | v => v end in
  MessageEvent ToolCompleted
    (JObj [("name", JStr (take_text 200 (tm_name m))); ("call_id", JStr (take_text 200 (tm_call m)));
           ("ok", JBool (negb (tm_failed m)));
           (if tm_failed m then "error" else "result", bounded_trace_value result)]) "".
Definition delta_events (m : ai_message) : list message_event :=
  let text := message_text (ai_content m) in
  if text == "" then [] else [MessageEvent MessageDelta (JObj [("text", JStr text)]) text].
Definition message_events (m : message) : list message_event :=
  match m with
  | AIFull m => delta_events m ++ tool_start_events m
  | AIChunk m _ => delta_events m
  | ToolAnswer m => tool_completed m :: artifact_events m
  | OtherMessage => []
  end.

(** [_last_ai_text] *)
Definition last_ai_text (messages : list message) : string :=
  default "" (head (omap (λ m,
    match m with
    | AIFull a | AIChunk a _ =>
        let text := strip (message_text (ai_content a)) in if text == "" then None else Some text
    | _ => None
    end) (reverse messages))).

(** ** Approvals *)

(** The data of a streamed part: dicts and lists around the interrupts of the graph. *)
#[warnings="-register-all"]
Inductive stream_data :=
  | SDict (l : list (string * stream_data))
  | SList (l : list stream_data)
  | SInterrupt (id : string) (value : json)
  | SOpaque.

Record interrupt := Interrupt { it_id : string; it_value : json }.

(** [collect] of [_approvals_from_stream]: what stands under [__interrupt__]. *)
Definition interrupts_of (v : stream_data) : list stream_data := match v with SList l => l | _ => [v] end.
Fixpoint collect_interrupts (v : stream_data) : list stream_data :=
  match v with
  | SDict l => flat_map (λ kv, if kv.1 == "__interrupt__" then interrupts_of kv.2 else collect_interrupts kv.2) l
  | SList l => flat_map collect_interrupts l
  | _ => []
  end.

Definition default_decisions : list string := ["approve"; "edit"; "reject"].
Definition texts_of (v : json) : list string :=
  match v with JArr l => omap (λ x, match x with JStr s => Some s | _ => None end) l | _ => [] end.
Definition config_at (configs : json) (index : nat) : json :=
  match configs with
  | JArr l => match l !! index with Some (JObj c) => JObj c | _ => JObj [] end
  | _ => JObj []
  end.
Definition args_of (action : json) : list (string * json) :=
  match py_or (jget "args" action) (JObj []) with JObj l => l | _ => [] end.

Definition approval_id (run interrupt : string) (index : nat) (tool : string) (action : json) : string :=
  "approval_" +:+ run +:+ "_" +:+ take_text 32 (sha256_hex (dumps false (JObj
    [("interrupt_id", JStr interrupt); ("index", JInt (Z.of_nat index)); ("tool_name", JStr tool);
     ("arguments", py_or (jget "args" action) (JObj []))]))).
Definition approval_of (run interrupt : string) (configs : json) (index : nat) (action : json) : option approval :=
  if negb (is_object action) then None
  else
    let config := config_at configs index in
    let tool := strip (py_str (py_or (jget "name" action) (py_or (jget "action_name" config) (JStr "")))) in
    Some (AgentApproval (approval_id run interrupt index tool action) tool
            (text_or "description" "Approval required" action) (args_of action)
            (texts_of (py_or (jget "allowed_decisions" config) (JArr (JStr <$> default_decisions))))
            ApprovalPending None None).
(** The approvals of the actions of one interrupt, in order. *)
Fixpoint action_approvals (run interrupt : string) (configs : json) (index : nat) (actions : list json) : list approval :=
  match actions with
  | [] => []
  | a :: l =>
      match approval_of run interrupt configs index a with
      | Some x => x :: action_approvals run interrupt configs (S index) l
      | None => action_approvals run interrupt configs (S index) l
      end
  end.
Definition interrupt_approvals (run : string) (v : stream_data) : list approval :=
  match v with
  | SInterrupt id (JObj value) =>
      match py_or (assoc "action_requests" value) (JArr []) with
      | JArr actions =>
          action_approvals run (strip id) (py_or (assoc "review_configs" value) (JArr [])) 0 actions
      | _ => []
      end
  | _ => []
  end.
(** The first approval of each identifier. *)
Fixpoint first_approvals (seen : list string) (l : list approval) : list approval :=
  match l with
  | [] => []
  | a :: l' =>
      if bool_decide (ap_id a ∈ seen) then first_approvals seen l' else a :: first_approvals (ap_id a :: seen) l'
  end.
(** [_approvals_from_stream] *)
Definition approvals_from_stream (run : string) (data : stream_data) : list approval :=
  first_approvals [] (flat_map (interrupt_approvals run) (collect_interrupts data)).

(** [_public_approval] *)
Definition public_approval (a : approval) : json :=
  JObj [("approval_id", JStr (ap_id a)); ("tool_name", JStr (ap_tool a)); ("description", JStr (ap_description a));
        ("arguments", redact_for_langfuse (JObj (ap_arguments a))); ("allowed_decisions", JArr (JStr <$> ap_decisions a))].

(** [_resume_decision] *)
Definition resume_decision (a : approval) : outcome json :=
  match ap_status a with
  | ApprovalApprove => Ok (JObj [("type", JStr "approve")])
  | ApprovalEdit =>
      Ok (JObj [("type", JStr "edit");
                ("edited_action", JObj [("name", JStr (ap_tool a)); ("args", JObj (default [] (ap_edited a)))])])
  | ApprovalReject =>
      Ok (JObj (("type", JStr "reject") ::
                match ap_message a with Some m => if m == "" then [] else [("message", JStr m)] | None => [] end))
  | ApprovalPending => Err (ValueError ("approval decision is incomplete: " +:+ ap_id a))
  end.

(** ** Failures

    The exceptions of the graph and the providers are told apart by
    [_is_provider_rejection] and [_is_model_provider_failure]. *)

Record failure := Failure { fl_rejection : bool; fl_provider : bool; fl_diagnostic : json }.
Record public_failure := PublicFailure { pf_code : string; pf_message : string; pf_retryable : bool }.
(** [_public_run_failure]; a rejection is a provider failure too. *)
Definition public_run_failure (f : failure) : public_failure :=
  if fl_rejection f then PublicFailure "model_provider_rejected"
    "The model provider rejected this conversation. Start a new thread or use a different model/provider." false
  else if fl_provider f then PublicFailure "model_provider_failed"
    "No configured model provider could complete this request. Try again later." true
  else PublicFailure "agent_run_failed" "The agent run could not be completed." false.

(** [_latest_tool_error]: the name of the tool and the message of its error. *)
Definition newest_event (e e' : event_entry) : bool := ee_sequence e' <=? ee_sequence e.
Definition tool_error (data : json) : json :=
  match data with
  | JObj l =>
      let raw := if assoc "ok" l == Some (JBool false) then default JNull (assoc "error" l) else JNull in
      match assoc "result" l with
      | Some (JObj r) => if assoc "status" r == Some (JStr "error") then default JNull (assoc "error" r) else raw
      | _ => raw
      end
  | _ => JNull
  end.
Definition latest_tool_error (id : string) (d : ledger) : option (string * string) :=
  match head (order_by newest_event (select (λ e, (ee_run e == id) && (ee_type e == ToolCompleted)) (ld_events d))) with
  | None => None
  | Some e =>
      if negb (is_object (ee_data e)) then None
      else
        let raw := tool_error (ee_data e) in
        let message := strip (match raw with
                              | JObj _ => text_or "message" "" raw
                              | v => if py_true v then py_str v else ""
                              end) in
        if message == "" then None
        else Some (take_text 200 (text_or "name" "tool" (ee_data e)), take_text 600 (public_text message))
  end.

(** ** Properties *)

Lemma first_approvals_spec l : ∀ seen,
  NoDup (ap_id <$> first_approvals seen l) ∧
  (∀ a, a ∈ first_approvals seen l → a ∈ l ∧ ap_id a ∉ seen) ∧
  (∀ a, a ∈ l → ap_id a ∈ seen ∨ ap_id a ∈ ap_id <$> first_approvals seen l).
Proof.
  induction l as [|a l IH]; intros seen; simpl; [by repeat split; try constructor; set_solver|].
  case_bool_decide as Ha.
  - destruct (IH seen) as (H1 & H2 & H3). split_and!; [done|set_solver|].
    intros x [->|Hx]%elem_of_cons; [by left|auto].
  - destruct (IH (ap_id a :: seen)) as (H1 & H2 & H3). rewrite fmap_cons. split_and!.
    + constructor; [|done]. intros (x & Ex & Hx)%list_elem_of_fmap. apply H2 in Hx as [_ Hx]. set_solver.
    + intros x [->|Hx]%elem_of_cons; [set_solver|]. apply H2 in Hx. set_solver.
    + intros x [->|Hx]%elem_of_cons; [set_solver|]. destruct (H3 x Hx) as [Hs|Hs]; set_solver.
Qed.

Lemma approval_of_pending run it configs index action a :
  approval_of run it configs index action = Some a → ap_status a = ApprovalPending.
Proof. unfold approval_of. destruct (negb _); [done|]. by intros [= <-]. Qed.

Lemma approvals_from_stream_pending run data a : a ∈ approvals_from_stream run data → ap_status a = ApprovalPending.
Proof.
  unfold approvals_from_stream. intros Ha. destruct (first_approvals_spec (flat_map (interrupt_approvals run)
    (collect_interrupts data)) []) as (_ & H & _). apply H in Ha as [Ha _]. clear H.
  apply list_elem_of_In, in_flat_map in Ha as (v & _ & Ha%list_elem_of_In). destruct v as [| |id [| | | | |value]|]; simpl in Ha; try set_solver.
  destruct (py_or _ _) as [| | | |actions|]; try set_solver. revert Ha. generalize 0%nat.
  induction actions as [|x actions IH]; intros n; simpl; [set_solver|].
  destruct (approval_of _ _ _ _ x) eqn:E; [|by apply IH].
  intros [->|Ha]%elem_of_cons; [by eapply approval_of_pending|by eapply IH].
Qed.
