(* ===== verification/AgentService.v ===== *)
(** * The tasks of the agent service ([deep_agent/service.py])

    The task that drives a run through its graph and the ones that resume it
    after an approval, over the run ledger. The graph is a list of streamed
    parts and the way it ends; other tasks act on the ledger between any two of
    a task's own accesses, as a schedule says. *)

From S2P Require Import Prelude Sqlite PyText Clock Json Langfuse Protocol InferenceModels Contracts.
From S2P Require Import Checkpoints AgentRuns AgentLedger AgentEvents.
#[local] Open Scope string_scope.
#[local] Open Scope list_scope.
#[local] Open Scope Z_scope.

(** ** A task among others

    [tk_schedule] are the coming accesses to the ledger: the time of each, and
    what the other tasks do before it. [tk_resumes] are the runs a resume was
    scheduled for, [tk_stream] the local variables of [_stream_graph]. *)
Record stream_state := StreamState {
  ss_texts : list string;
  ss_chunk : option ai_message;
  ss_interrupted : bool;
}.
#[global] Instance stream_fields : Fields stream_state := λ s,
  StreamState (ss_texts s) (ss_chunk s) (ss_interrupted s).
Definition stream_text (s : stream_state) : string := strip (join_text "" (ss_texts s)).

Record task := Task {
  tk_ledger : ledger;
  tk_now : Z;
  tk_schedule : list (Z * M ledger unit);
  tk_resumes : list string;
  tk_stream : stream_state;
}.
#[global] Instance task_fields : Fields task := λ t,
  Task (tk_ledger t) (tk_now t) (tk_schedule t) (tk_resumes t) (tk_stream t).

Definition on_ledger {A} (m : Z → M ledger A) : M task A := λ t,
  let '(now, others, rest) := match tk_schedule t with
                              | [] => (tk_now t, mret tt, [])
                              | (now, o) :: l => (now, o, l)
                              end in
  let '(d, r) := m now (others (tk_ledger t)).1 in
  (Task d now rest (tk_resumes t) (tk_stream t), r).

(** [try: m finally: f] *)
Definition finally {A} (m : M task A) (f : M task unit) : M task A := λ t,
  let '(t', r) := m t in
  match f t' with
  | (t'', Ok _) => (t'', r)
  | (t'', Err e) => (t'', Err e)
  end.
(** [except Exception] *)
Definition except_exception {A} (m : M task A) (h : exn → M task A) : M task A :=
  try_except m (λ e, match e with CancelledError => None | _ => Some (h e) end).

(** ** Streaming a graph *)

(** A streamed part: a message, whether it comes from summarization, and the
    data the interrupts are in; and how the stream ends. *)
Inductive graph_part :=
  | PartMessage (m : message) (summarization : bool) (data : stream_data)
  | PartOther (data : stream_data).
Inductive graph_ending :=
  | GraphDone (messages : list message)
  | GraphRaised (e : exn).
Record graph_run := GraphRun {
  gr_setup : outcome unit;
  gr_dynamic : Z * string;
  gr_parts : list graph_part;
  gr_ending : graph_ending;
}.

Section Service.
(** Adding message chunks, and what the service makes of an exception. *)
Variable add_chunks : ai_message → ai_message → ai_message.
Variable failure_of : exn → failure.

Definition status_of_run (id : string) : M task run_status := on_ledger (λ _, run_status_of id).
Definition append (id : string) (type : event_type) (data : json) : M task (option run_event) :=
  on_ledger (append_event id type data).
(** The events one after the other, until the run no longer takes them. *)
Fixpoint append_all (id : string) (l : list (event_type * json)) : M task bool :=
  match l with
  | [] => mret true
  | (type, data) :: l' =>
      e ← append id type data;
      match e with Some _ => append_all id l' | None => mret false end
  end.
Definition approval_events (l : list approval) : list (event_type * json) :=
  (λ a, (ApprovalRequired, public_approval a)) <$> l.

(** [_schedule_pending_resume] *)
Definition schedule_pending_resume (id : string) : M task unit :=
  modify (λ t, t <| tk_resumes := if bool_decide (id ∈ tk_resumes t) then tk_resumes t else tk_resumes t ++ [id] |>).

(** The events of a message, and the chunk that is still being received. *)
Definition part_events (chunk : option ai_message) (m : message) : list message_event * option ai_message :=
  match m with
  | AIChunk c last =>
      let whole := match chunk with Some p => add_chunks p c | None => c end in
      if last then (message_events m ++ tool_start_events whole, None) else (message_events m, Some whole)
  | ToolAnswer _ =>
      match chunk with
      | Some p => (tool_start_events p ++ message_events m, None)
      | None => (message_events m, None)
      end
  | _ => (message_events m, chunk)
  end.

Definition on_stream (f : stream_state → stream_state) : M task unit :=
  modify (λ t, t <| tk_stream := f (tk_stream t) |>).
Definition current_text : M task string := gets (λ t, stream_text (tk_stream t)).

Fixpoint append_message (id : string) (l : list message_event) : M task bool :=
  match l with
  | [] => mret true
  | e :: l' =>
      (if me_text e == "" then mret tt else on_stream (λ s, s <| ss_texts := ss_texts s ++ [me_text e] |>));;
      event ← append id (me_type e) (me_data e);
      match event with Some _ => append_message id l' | None => mret false end
  end.

(** The approvals a part asks for; whether the stream goes on. *)
Definition activates_source (a : approval) : bool := ap_tool a == "source_activate".
Definition approve_activation (a : approval) : approval :=
  if activates_source a then a <| ap_status := ApprovalApprove |> else a.
Definition ask_approvals (id : string) (owner : bool) (l : list approval) : M task bool :=
  on_stream (λ s, s <| ss_interrupted := true |>);;
  text ← current_text;
  if owner && existsb activates_source l then
    let decided := approve_activation <$> l in
    let pending := List.filter pending_approval decided in
    updated ← on_ledger (update_run id
      (Some (if bool_decide (pending = []) then SnapResumePending else SnapInterrupted)) (Some text) None
      (Some decided) task_statuses);
    if negb updated then mret false
    else
      (if bool_decide (pending = []) then schedule_pending_resume id else mret tt);;
      append_all id (approval_events pending);;
      mret false
  else
    updated ← on_ledger (update_run id (Some SnapInterrupted) (Some text) None (Some l) task_statuses);
    if negb updated then mret false else append_all id (approval_events l).

(** One part of the stream, and all of them. *)
Definition stream_approvals (id : string) (owner : bool) (data : stream_data) : M task bool :=
  match approvals_from_stream id data with
  | [] => mret true
  | l => ask_approvals id owner l
  end.
Definition stream_part (id : string) (owner : bool) (p : graph_part) : M task bool :=
  status ← status_of_run id;
  if terminal_status status then mret false
  else
    match p with
    | PartOther data => stream_approvals id owner data
    | PartMessage m summarization data =>
        if summarization then mret true
        else
          chunk ← gets (λ t, ss_chunk (tk_stream t));
          let '(events, chunk) := part_events chunk m in
          on_stream (λ s, s <| ss_chunk := chunk |>);;
          going ← append_message id events;
          if (going : bool) then stream_approvals id owner data else mret false
    end.
Fixpoint stream_parts (id : string) (owner : bool) (l : list graph_part) : M task bool :=
  match l with
  | [] => mret true
  | p :: l' => going ← stream_part id owner p; if (going : bool) then stream_parts id owner l' else mret false
  end.

Definition complete_run (id text : string) : M task (option run_event) :=
  on_ledger (settle_run id task_statuses SnapCompleted RunCompleted (JObj [("text", JStr text)]) (Some text) None (Some [])).

(** The graph, up to its end: the body of the [try]. *)
Definition stream_body (id : string) (owner : bool) (g : graph_run) : M task unit :=
  on_ledger (λ _, verify_dynamic id (gr_dynamic g));;
  from_outcome (gr_setup g);;
  going ← stream_parts id owner (gr_parts g);
  if negb going then mret tt
  else
    match gr_ending g with
    | GraphRaised e => raise e
    | GraphDone messages =>
        interrupted ← gets (λ t, ss_interrupted (tk_stream t));
        if (interrupted : bool) then mret tt
        else
          status ← status_of_run id;
          if terminal_status status then mret tt
          else
            text ← current_text;
            complete_run id (if text == "" then last_ai_text messages else text);;
            mret tt
    end.

(** What the service tells of a failure. *)
Definition failed_message (public : public_failure) (last : option (string * string)) : string :=
  match last with
  | Some (_, message) => pf_message public +:+ " The last operation also failed: " +:+ message
  | None => pf_message public
  end.
Definition failed_data (public : public_failure) (f : failure) (last : option (string * string)) : json :=
  JObj ([("code", JStr (pf_code public)); ("message", JStr (failed_message public last));
         ("retryable", JBool (pf_retryable public)); ("diagnostic", fl_diagnostic f)] ++
        match last with
        | Some (name, message) => [("last_tool_error", JObj [("tool_name", JStr name); ("message", JStr message)])]
        | None => []
        end).
Definition fail_run (id : string) (e : exn) : M task unit :=
  let f := failure_of e in
  text ← current_text;
  if fl_provider f && negb (text == "") then complete_run id text;; mret tt
  else
    let public := public_run_failure f in
    last ← (if pf_code public == "model_provider_failed" then on_ledger (λ _, gets (latest_tool_error id)) else mret None);
    on_ledger (settle_run id task_statuses SnapFailed RunFailed (failed_data public f last) None
      (Some (failed_message public last)) None);;
    mret tt.

(** [_stream_graph] *)
Definition started_data (c : run_context) (resumed : bool) (plan : inference_plan) (summary : option string) : json :=
  JObj ([("thread_id", JStr (rx_thread c)); ("resumed", JBool resumed);
         ("provider", JStr (provider_text (is_provider (ip_primary plan)))); ("model", JStr (is_model (ip_primary plan)));
         ("reasoning_effort", optional_json JStr (is_effort (ip_primary plan)));
         ("service_tier", optional_json JStr (is_tier (ip_primary plan)));
         ("inference_plan_digest", JStr (ip_digest plan)); ("preference_revision", JInt (ip_revision plan))] ++
        match summary with Some s => [("input_summary", JStr (trace_text_preview s))] | None => [] end).
Definition stream_graph (id : string) (c : run_context) (resumed : bool) (plan : inference_plan)
    (summary : option string) (g : graph_run) : M task unit :=
  on_stream (λ _, StreamState [] None false);;
  started ← append id RunStarted (started_data c resumed plan summary);
  match started with
  | None => mret tt
  | Some _ => except_exception (stream_body id (rx_kind c == "owner") g) (fail_run id)
  end.

(** [_finalize_abandoned_run] *)
Definition finalize_abandoned_run (shutting_down : bool) (id : string) : M task unit :=
  if shutting_down then mret tt
  else except_exception (on_ledger (cancel_with_event id [SnapRunning])) (λ _, mret tt).

(** [_run_prepared]; [staged] is the staging of the attachments. *)
Definition run_prepared (shutting_down : bool) (id : string) (c : run_context) (plan : inference_plan)
    (staged : outcome string) (g : graph_run) : M task unit :=
  finally (summary ← from_outcome staged; stream_graph id c false plan (Some summary) g)
    (finalize_abandoned_run shutting_down id).
(** ** Resuming after approvals *)

(** The state of a checkpoint: the interrupts of its tasks, whether the graph has
    a next step, and its messages. *)
Record checkpoint_state := CheckpointState {
  cs_interrupts : list stream_data;
  cs_next : bool;
  cs_messages : list message;
}.

Definition capability_changed : exn :=
  AgentRunCapabilityConflictError "The approved capability changed before the agent run could continue.".
Definition run_of (id : string) : M task (option snapshot) := on_ledger (λ _, get_run id).
Definition required_run (id : string) : M task snapshot :=
  s ← run_of id;
  match s with Some s => mret s | None => raise (not_found id) end.

(** [_resume_input_from_checkpoint]: the decisions the graph resumes with,
    [None] when there is nothing to resume. *)
Definition same_ids (l l' : list approval) : bool :=
  forallb (λ a, bool_decide (ap_id a ∈ ap_id <$> l')) l && forallb (λ a, bool_decide (ap_id a ∈ ap_id <$> l)) l'.
Definition checkpoint_approvals (id : string) (c : checkpoint_state) : list approval :=
  approvals_from_stream id (SDict [("__interrupt__", SList (cs_interrupts c))]).
Definition resume_input_from_checkpoint (id : string) (s : snapshot) (c : checkpoint_state)
    (approvals : list approval) : M task (option (list json)) :=
  let asked := checkpoint_approvals id c in
  if negb (bool_decide (asked = [])) && negb (same_ids asked approvals) then
    updated ← on_ledger (update_run id (Some SnapInterrupted) (Some (sn_text s)) None (Some asked) [SnapResumePending]);
    (if updated : bool then append_all id (approval_events asked);; mret tt else mret tt);;
    mret None
  else if negb (cs_next c) then
    let text := last_ai_text (cs_messages c) in
    let final := if text == "" then sn_text s else text in
    on_ledger (settle_run id [SnapResumePending] SnapCompleted RunCompleted (JObj [("text", JStr final)]) (Some final)
      None (Some []));;
    mret None
  else if bool_decide (asked = []) then mret (Some [])
  else decisions ← from_outcome (all_ok (resume_decision <$> approvals)); mret (Some decisions).

(** [_resume_claimed_run]; [resumed] is the graph run on the decisions. *)
Definition resume_claimed_run (id : string) (approvals : list approval) (dynamic current : Z * string)
    (plan : inference_plan) (c : checkpoint_state) (resumed : list json → graph_run) : M task unit :=
  s ← required_run id;
  match sn_status s with
  | SnapCompleted | SnapFailed | SnapCancelled | SnapInterrupted => mret tt
  | SnapRunning => raise (ValueError ("agent run cannot resume from status: " +:+ run_status_text (sn_status s)))
  | SnapResumePending =>
      on_ledger (λ _, verify_dynamic id current);;
      unless (current == dynamic) capability_changed;;
      input ← resume_input_from_checkpoint id s c approvals;
      match input with
      | None => mret tt
      | Some decisions => stream_graph id (sn_context s) true (default plan (sn_plan s)) None (resumed decisions)
      end
  end.

(** [_recover_pending_resume] *)
Definition capability_data : json :=
  failure_data "agent_capability_changed" "The approved capability changed before the agent run could continue." false.
Definition recover_pending_resume (id : string) (current : Z * string) (plan : inference_plan) (c : checkpoint_state)
    (resumed : list json → graph_run) : M task unit :=
  found ← run_of id;
  match found with
  | None => mret tt
  | Some s =>
      if negb (sn_status s == SnapResumePending) then mret tt
      else if existsb pending_approval (sn_approvals s) then
        on_ledger (update_run id (Some SnapInterrupted) None None None [SnapResumePending]);; mret tt
      else
        except_exception
          (on_ledger (λ _, verify_dynamic id current);;
           resume_claimed_run id (sn_approvals s) current current plan c resumed)
          (λ e, match e with
                | AgentRunCapabilityConflictError _ =>
                    on_ledger (settle_run id [SnapResumePending] SnapFailed RunFailed capability_data None
                      (Some "The approved capability changed before the agent run could continue.") None);;
                    mret tt
                | _ => mret tt
                end)
  end.

(** [open_resume]: the approvals that are still pending, or the run to resume
    with its approvals and the cursor its events are followed from. *)
Inductive resume_reply :=
  | StillPending (l : list approval)
  | Resuming (s : snapshot) (l : list approval) (cursor : Z).
Definition claim_decision (id : string) (d : decision) : M task (snapshot * list approval) := λ t,
  match tk_schedule t with
  | [] => on_ledger (claim_approval_decision id d (mret tt)) t
  | (now, others) :: l => on_ledger (claim_approval_decision id d others) (t <| tk_now := now |> <| tk_schedule := l |>)
  end.
Definition open_resume (id : string) (d : decision) (current : Z * string) : M task resume_reply :=
  s ← required_run id;
  unless (bool_decide (sn_status s ∈ [SnapInterrupted; SnapResumePending]))
    (ValueError ("agent run is not awaiting approval: " +:+ run_status_text (sn_status s)));;
  on_ledger (λ _, verify_dynamic id current);;
  claimed ← claim_decision id d;
  let '(s, l) := claimed in
  let pending := List.filter pending_approval l in
  if negb (bool_decide (pending = [])) then mret (StillPending pending)
  else
    cursor ← on_ledger (λ _, last_sequence id);
    schedule_pending_resume id;;
    mret (Resuming s l cursor).
End Service.

(** ** Tasks keep the ledger *)

Definition task_ok (t : task) : Prop := ledger_ok (tk_ledger t) ∧ Forall (λ p, keeps p.2) (tk_schedule t).
Definition task_kept (t0 t : task) : Prop := task_ok t ∧ ledger_advance (tk_ledger t0) (tk_ledger t).
Definition safe {A} (m : M task A) : Prop := ∀ t0, preserves (task_kept t0) m.

Section Safe.
Context {A : Type}.

Lemma safe_on_ledger (m : Z → M ledger A) : (∀ now, keeps (m now)) → safe (on_ledger m).
Proof.
  intros Hm t0 t [[Hd Hs] Hadv]. unfold on_ledger. destruct (tk_schedule t) as [|[now o] l].
  - pose proof (keeps_elim _ _ (Hm (tk_now t)) Hd) as Hk. cbn. destruct (m (tk_now t) (tk_ledger t)) as [d r].
    destruct Hk as [Hd' Hadv']. split; [split; [done|constructor]|]. by eapply ledger_advance_trans.
  - apply Forall_cons in Hs as [Ho Hl]. pose proof (keeps_elim o _ Ho Hd) as Hk.
    pose proof (kept_trans _ _ _ Hk (keeps_elim _ _ (Hm now) (proj1 Hk))) as Hk'. cbn.
    destruct (m now (o (tk_ledger t)).1) as [d r]. destruct Hk' as [Hd' Hadv'].
    split; [by split|]. by eapply ledger_advance_trans.
Qed.
Lemma safe_ret (a : A) : safe (mret a).
Proof. intros t0. apply preserves_ret. Qed.
Lemma safe_raise e : safe (raise (A := A) e).
Proof. intros t0. apply preserves_raise. Qed.
Lemma safe_gets (f : task → A) : safe (gets f).
Proof. intros t0. apply preserves_gets. Qed.
Lemma safe_outcome (o : outcome A) : safe (from_outcome o).
Proof. intros t0. apply preserves_from_outcome. Qed.
Lemma safe_bind {B} (m : M task A) (k : A → M task B) : safe m → (∀ a, safe (k a)) → safe (m ≫= k).
Proof. intros Hm Hk t0. apply preserves_bind; [apply Hm|]. intros a. apply Hk. Qed.
Lemma safe_finally (m : M task A) f : safe m → safe f → safe (finally m f).
Proof.
  intros Hm Hf t0 t Ht. specialize (Hm t0 t Ht). unfold finally. destruct (m t) as [t1 r]. specialize (Hf t0 t1 Hm).
  by destruct (f t1) as [t2 [|]].
Qed.
Lemma safe_except (m : M task A) h : safe m → (∀ e, safe (h e)) → safe (except_exception m h).
Proof.
  intros Hm Hh t0. apply preserves_try_except; [apply Hm|]. intros e m' He. destruct e; simplify_eq; apply Hh.
Qed.
End Safe.

Lemma safe_stream f : safe (on_stream f).
Proof. intros t0. by apply preserves_modify. Qed.
Lemma safe_schedule id : safe (schedule_pending_resume id).
Proof. intros t0. by apply preserves_modify. Qed.
Lemma safe_unless b e : safe (unless b e).
Proof. intros t0. apply preserves_unless. Qed.
#[export] Hint Resolve safe_ret safe_raise safe_gets safe_outcome safe_bind safe_stream safe_schedule safe_unless : ledger.

Lemma safe_status id : safe (status_of_run id).
Proof. apply safe_on_ledger. auto with ledger. Qed.
Lemma safe_append id type data : closing_type type = false → safe (append id type data).
Proof. intros H. apply safe_on_ledger. intros now. by apply keeps_append. Qed.
#[export] Hint Resolve safe_status : ledger.

Lemma safe_append_all id l : Forall (λ p, closing_type p.1 = false) l → safe (append_all id l).
Proof.
  induction 1 as [|[type data] l H _ IH]; simpl; [auto with ledger|].
  apply safe_bind; [by apply safe_append|]. intros [e|]; auto with ledger.
Qed.
Lemma safe_approval_events id l : safe (append_all id (approval_events l)).
Proof. apply safe_append_all, Forall_fmap, Forall_forall. done. Qed.
Lemma safe_append_message id l : Forall (λ e, closing_type (me_type e) = false) l → safe (append_message id l).
Proof.
  induction 1 as [|e l H _ IH]; simpl; [auto with ledger|]. apply safe_bind; [case_match; auto with ledger|].
  intros _. apply safe_bind; [by apply safe_append|]. intros [x|]; auto with ledger.
Qed.

Definition opening (e : message_event) : Prop := closing_type (me_type e) = false.
Lemma tool_start_opening m : Forall opening (tool_start_events m).
Proof.
  apply Forall_forall. intros e (c & _ & H)%list_elem_of_omap. unfold tool_start_event in H. by case_match; simplify_eq.
Qed.
Lemma artifact_opening m : Forall opening (artifact_events m).
Proof.
  apply Forall_forall. intros e. unfold artifact_events. destruct (negb _); [set_solver|].
  destruct (tm_content m); try set_solver. destruct (tm_parsed m) as [[| | | | |l]|]; try set_solver.
  destruct (negb _); [set_solver|]. destruct (assoc _ _) as [[| | | |items|]|]; try set_solver.
  intros (raw & _ & H)%list_elem_of_omap. destruct (raw_artifact _ raw) as [a|]; [|done]. simpl in H.
  unfold artifact_event in H. by case_match; simplify_eq.
Qed.
Lemma message_opening m : Forall opening (message_events m).
Proof.
  assert (∀ a, Forall opening (delta_events a)) as Hd by (intros a; unfold delta_events; case_match; by repeat constructor).
  destruct m; simpl; [apply Forall_app; split; [done|apply tool_start_opening]|done| |constructor].
  constructor; [done|apply artifact_opening].
Qed.

Section Tasks.
Variable add_chunks : ai_message → ai_message → ai_message.
Variable failure_of : exn → failure.

Lemma part_opening chunk m : Forall opening (part_events add_chunks chunk m).1.
Proof.
  destruct m as [a|a []|a|]; simpl; try apply (message_opening (AIFull a)); try apply (message_opening (AIChunk a false)).
  - apply Forall_app. split; [apply (message_opening (AIChunk a true))|apply tool_start_opening].
  - destruct chunk; simpl; [apply Forall_app; split; [apply tool_start_opening|]|]; apply (message_opening (ToolAnswer a)).
  - constructor.
Qed.

Lemma filter_pending_nil l : List.filter pending_approval l = [] ↔ existsb pending_approval l = false.
Proof. induction l as [|a l IH]; simpl; [done|]. by destruct (pending_approval a). Qed.

Lemma safe_update id status text l allowed :
  active_status status = true → approvals_fit status l → forallb active_status allowed = true →
  safe (on_ledger (update_run id (Some status) (Some text) None (Some l) allowed)).
Proof.
  intros Ha Hf Hall. apply safe_on_ledger. intros now. apply keeps_update; [|done].
  intros s Hs%(live_active _ Hall). done.
Qed.

Lemma safe_ask id owner l : l ≠ [] → Forall (λ a, ap_status a = ApprovalPending) l → safe (ask_approvals id owner l).
Proof.
  intros Hl Hp. unfold ask_approvals. apply safe_bind; [auto with ledger|]. intros _.
  apply safe_bind; [apply safe_gets|]. intros text. destruct (owner && existsb activates_source l).
  - set (decided := approve_activation <$> l). apply safe_bind.
    + case_bool_decide as E.
      * apply safe_update; [done| |done]. split; [by destruct l|by apply filter_pending_nil].
      * apply safe_update; [done| |done]. destruct (existsb pending_approval decided) eqn:E'; [done|]. by rewrite <- filter_pending_nil in E'.
    + intros [|]; simpl; [|auto with ledger]. apply safe_bind; [case_match; auto with ledger|]. intros _.
      apply safe_bind; [apply safe_approval_events|]. auto with ledger.
  - apply safe_bind.
    + apply safe_update; [done| |done]. destruct Hp as [|a l Ha _]; [done|]. simpl. unfold pending_approval at 1.
      by rewrite Ha, bool_decide_eq_true_2.
    + intros [|]; simpl; [|auto with ledger]. apply safe_approval_events.
Qed.

Lemma safe_stream_approvals id owner data : safe (stream_approvals id owner data).
Proof.
  unfold stream_approvals. destruct (approvals_from_stream id data) as [|a l] eqn:E; [auto with ledger|].
  apply safe_ask; [done|]. rewrite <- E. apply Forall_forall. intros x. apply approvals_from_stream_pending.
Qed.

Lemma safe_stream_parts id owner l : safe (stream_parts add_chunks id owner l).
Proof.
  induction l as [|p l IH]; simpl; [auto with ledger|]. apply safe_bind; [|intros []; auto with ledger].
  unfold stream_part. apply safe_bind; [auto with ledger|]. intros status.
  destruct (terminal_status status); [auto with ledger|]. destruct p as [m [] data|data]; [auto with ledger| |apply safe_stream_approvals].
  apply safe_bind; [apply safe_gets|]. intros chunk. pose proof (part_opening chunk m) as Ho.
  destruct (part_events _ chunk m) as [events chunk']. apply safe_bind; [auto with ledger|]. intros _.
  apply safe_bind; [by apply safe_append_message|]. intros []; [apply safe_stream_approvals|auto with ledger].
Qed.

Lemma safe_complete id text : safe (complete_run id text).
Proof. apply safe_on_ledger. intros now. apply keeps_settle; try done. apply task_statuses_active. Qed.

Lemma keeps_verify id current : keeps (verify_dynamic id current).
Proof. unfold verify_dynamic. apply keeps_bind; [apply keeps_gets|]. intros [r|]; auto with ledger. Qed.

Lemma safe_stream_body id owner g : safe (stream_body add_chunks id owner g).
Proof.
  unfold stream_body. apply safe_bind; [apply safe_on_ledger; intros _; apply keeps_verify|]. intros _.
  apply safe_bind; [auto with ledger|]. intros _. apply safe_bind; [apply safe_stream_parts|].
  intros []; cbn [negb]; [|auto with ledger].
  destruct (gr_ending g) as [messages|e]; [|auto with ledger]. apply safe_bind; [apply safe_gets|]. intros [|]; [auto with ledger|].
  apply safe_bind; [auto with ledger|]. intros status. destruct (terminal_status status); [auto with ledger|].
  apply safe_bind; [apply safe_gets|]. intros text. apply safe_bind; [apply safe_complete|]. auto with ledger.
Qed.

Lemma safe_fail id e : safe (fail_run failure_of id e).
Proof.
  unfold fail_run. cbv zeta. apply safe_bind; [apply safe_gets|]. intros text. destruct (_ && _).
  - apply safe_bind; [apply safe_complete|]. auto with ledger.
  - apply safe_bind; [case_match; [apply safe_on_ledger; auto with ledger|auto with ledger]|]. intros last.
    apply safe_bind; [|auto with ledger]. apply safe_on_ledger. intros now. apply keeps_settle; try done.
    apply task_statuses_active.
Qed.

Lemma safe_stream_graph id c resumed plan summary g : safe (stream_graph add_chunks failure_of id c resumed plan summary g).
Proof.
  unfold stream_graph. apply safe_bind; [auto with ledger|]. intros _. apply safe_bind; [by apply safe_append|].
  intros [e|]; [|auto with ledger]. apply safe_except; [apply safe_stream_body|]. intros x. apply safe_fail.
Qed.

Lemma safe_finalize b id : safe (finalize_abandoned_run b id).
Proof.
  unfold finalize_abandoned_run. destruct b; [auto with ledger|]. apply safe_except; [|auto with ledger].
  apply safe_on_ledger. intros now. by apply keeps_cancel_with_event.
Qed.

Lemma safe_run_prepared b id c plan staged g : safe (run_prepared add_chunks failure_of b id c plan staged g).
Proof.
  apply safe_finally; [|apply safe_finalize]. apply safe_bind; [auto with ledger|]. intros s. apply safe_stream_graph.
Qed.
End Tasks.

(** ** No task leaves its run running *)

Lemma run_later d d' id : ledger_ok d' → ledger_advance d d' → id ∈ rn_id <$> ld_runs d →
  ∃ r, r ∈ ld_runs d' ∧ rn_id r = id.
Proof.
  intros Hd' Hadv (r & -> & Hr)%list_elem_of_fmap. destruct (la_runs _ _ Hadv r Hr) as (r' & Hr' & Hi & _).
  exists r'. split; [done|]. exact (f_equal rn_id Hi).
Qed.

Lemma abandoned_settled d id now : ledger_ok d → id ∈ rn_id <$> ld_runs d →
  ∃ d' r, cancel_with_event id [SnapRunning] now d = (d', Ok tt) ∧ find_run id d' = Some r ∧ rn_status r ≠ SnapRunning.
Proof.
  intros Hd (r & -> & Hr)%list_elem_of_fmap. rewrite cancel_with_event_run by done.
  case_bool_decide as E; rewrite list_elem_of_singleton in E.
  - assert (active_status (rn_status r) = true) as Ha by by rewrite E.
    exists (cancelled r now d), (cancelled_row r now). split; [done|]. split; [|done].
    change (rn_id r) with (rn_id (cancelled_row r now)).
    apply (find_agent_run_in _ _ (proj1 (cancelled_kept r now d Hd Hr Ha))). apply in_cancelled; auto.
  - exists d, r. split; [done|]. split; [by apply find_agent_run_in|done].
Qed.

Lemma finalized t id : task_ok t → id ∈ rn_id <$> ld_runs (tk_ledger t) →
  ∃ t' r, finalize_abandoned_run false id t = (t', Ok tt) ∧
    find_run id (tk_ledger t') = Some r ∧ rn_status r ≠ SnapRunning.
Proof.
  intros [Hd Hs] Hid. unfold finalize_abandoned_run, except_exception, on_ledger. rewrite run_try_except.
  destruct (tk_schedule t) as [|[now o] l].
  - destruct (abandoned_settled (tk_ledger t) id (tk_now t) Hd Hid) as (d' & r & E & Hr). cbn. rewrite E. eauto.
  - apply Forall_cons in Hs as [Ho _]. destruct (keeps_elim o _ Ho Hd) as [Hd1 Hadv]. cbn.
    destruct (run_later _ _ _ Hd1 Hadv Hid) as (r1 & Hr1 & Hid1).
    destruct (abandoned_settled (o (tk_ledger t)).1 id now Hd1) as (d' & r & E & Hr).
    { rewrite <- Hid1. by apply list_elem_of_fmap_2. }
    rewrite E. eauto.
Qed.

Lemma finalized_any stopping t id : task_ok t → id ∈ rn_id <$> ld_runs (tk_ledger t) →
  ∃ t' r, finalize_abandoned_run stopping id t = (t', Ok tt) ∧ find_run id (tk_ledger t') = Some r ∧
    (rn_status r = SnapRunning → stopping = true).
Proof.
  destruct stopping; intros Ht Hid.
  - apply list_elem_of_fmap in Hid as (r & -> & Hr). exists t, r.
    split; [reflexivity|]. split; [apply (find_agent_run_in _ _ (proj1 Ht) Hr)|done].
  - destruct (finalized t id Ht Hid) as (t' & r & E & Hr & Hs). exists t', r. by split_and!.
Qed.

(** C3: whatever the graph streams or raises, whatever the staging raises and
    whatever other tasks do meanwhile, when the task of a run ends the run is
    running only if the service is shutting down ([stopping]), and the ledger has
    kept its invariant and its history. The reconciliation of the next start then
    fails a run the shutdown left running, and leaves as it is a run the task
    settled or left to wait or to be resumed. *)
Theorem run_task_settles add_chunks failure_of stopping t id c plan staged g :
  task_ok t → id ∈ rn_id <$> ld_runs (tk_ledger t) →
  let t' := (run_prepared add_chunks failure_of stopping id c plan staged g t).1 in
  task_ok t' ∧ ledger_advance (tk_ledger t) (tk_ledger t') ∧
  ∃ r, find_run id (tk_ledger t') = Some r ∧ (rn_status r = SnapRunning → stopping = true) ∧
  ∀ start, ∃ d' r', reconcile_stale_running_runs start (tk_ledger t') = (d', Ok tt) ∧ find_run id d' = Some r' ∧
    (rn_status r = SnapRunning → rn_status r' = SnapFailed) ∧ (rn_status r ≠ SnapRunning → r' = r).
Proof.
  intros Ht Hid. cbv zeta.
  pose proof (safe_run_prepared add_chunks failure_of stopping id c plan staged g t t
    (conj Ht (ledger_advance_refl _))) as [H1 H2].
  split_and!; [done|done|]. unfold run_prepared, finally in H1 |- *. set (m := _ ≫= _) in H1 |- *. assert (safe m) as Hs.
  { apply safe_bind; [auto with ledger|]. intros s. apply safe_stream_graph. }
  specialize (Hs t t (conj Ht (ledger_advance_refl _))). destruct (m t) as [t1 o]. destruct Hs as [Ht1 Hadv].
  destruct (run_later _ _ _ (proj1 Ht1) Hadv Hid) as (r1 & Hr1 & Hid1).
  destruct (finalized_any stopping t1 id Ht1) as (t2 & r & E & Hr & Hst).
  { rewrite <- Hid1. by apply list_elem_of_fmap_2. }
  rewrite E in H1 |- *. exists r. split_and!; [done|done|]. intros start.
  apply find_agent_run_Some in Hr as [Hr <-]. by apply start_settles; [apply H1|].
Qed.

(** ** Resuming keeps the ledger *)

Lemma on_ledger_run {A} (m : Z → M ledger A) t : task_ok t → ∃ d now rest,
  on_ledger m t = (Task (m now d).1 now rest (tk_resumes t) (tk_stream t), (m now d).2) ∧
  kept (tk_ledger t) d ∧ Forall (λ p, keeps p.2) rest.
Proof.
  intros [Hd Hs]. unfold on_ledger. destruct (tk_schedule t) as [|[now o] l].
  - exists (tk_ledger t), (tk_now t), []. cbn. destruct (m (tk_now t) (tk_ledger t)). split_and!; [done|by apply kept_refl|done].
  - apply Forall_cons in Hs as [Ho Hl]. exists (o (tk_ledger t)).1, now, l. cbn. destruct (m now _).
    split_and!; [done|by apply keeps_elim|done].
Qed.

(** Reading a run gives the snapshot of its row in the ledger it is read from. *)
Definition of_row (d : ledger) (id : string) (s : snapshot) : Prop :=
  ∃ r, r ∈ ld_runs d ∧ rn_id r = id ∧ snapshot_from_row r = Ok s ∧ sn_status s = rn_status r ∧
    sn_approvals s = rn_approvals r.
Lemma run_of_run id t : task_ok t → ∃ t' found, run_of id t = (t', Ok found) ∧ task_kept t t' ∧
  ∀ s, found = Some s → of_row (tk_ledger t') id s.
Proof.
  intros Ht. unfold run_of. destruct (on_ledger_run (λ _, get_run id) t Ht) as (d & now & rest & E & [Hd Hadv] & Hrest).
  rewrite E. destruct (find_run id d) as [r|] eqn:Ef.
  - apply find_agent_run_Some in Ef as [Hr <-]. destruct (get_run_row d r Hd Hr) as (s & Hg & Hs & Hst & Hap). rewrite Hg.
    eexists _, _. split; [done|]. split; [split; [by split|done]|]. intros s' [= <-]. by exists r.
  - unfold get_run. rewrite run_gets_bind, Ef. eexists _, _. split; [done|]. split; [split; [by split|done]|done].
Qed.

Definition fits (s : snapshot) : Prop := approvals_fit (sn_status s) (sn_approvals s).
Lemma of_row_fits d id s : ledger_ok d → of_row d id s → fits s.
Proof. intros Hd (r & Hr & _ & _ & Hst & Hap). unfold fits. rewrite Hst, Hap. apply (lo_rows _ Hd _ Hr). Qed.

Lemma safe_run_of {B} id (k : option snapshot → M task B) :
  (∀ found, (∀ s, found = Some s → fits s) → safe (k found)) → safe (run_of id ≫= k).
Proof.
  intros Hk t0 t [Ht Hadv]. destruct (run_of_run id t Ht) as (t' & found & E & [Ht' Hadv'] & Hf).
  rewrite (run_bind_ok _ _ _ _ _ E). apply Hk.
  - intros s Hs. apply (of_row_fits (tk_ledger t') id); [apply Ht'|by apply Hf].
  - split; [done|by eapply ledger_advance_trans].
Qed.
Section Resuming.
Variable add_chunks : ai_message → ai_message → ai_message.
Variable failure_of : exn → failure.

Lemma safe_verify id current : safe (on_ledger (λ _, verify_dynamic id current)).
Proof. apply safe_on_ledger. intros _. apply keeps_verify. Qed.

Lemma all_pending_existsb l : l ≠ [] → Forall (λ a, ap_status a = ApprovalPending) l → existsb pending_approval l = true.
Proof.
  intros Hl Hp. destruct Hp as [|a l' Ha _]; [done|]. simpl. unfold pending_approval at 1.
  by rewrite Ha, bool_decide_eq_true_2.
Qed.

Lemma safe_settle_task id allowed status type data text error approvals :
  forallb active_status allowed = true → terminal_status status = true → closing_type type = true →
  (status = SnapCompleted → approvals = Some []) →
  safe (on_ledger (settle_run id allowed status type data text error approvals)).
Proof. intros Hall Ht Hc Hf. apply safe_on_ledger. intros now. apply keeps_settle; try done. by apply live_active. Qed.

Lemma safe_resume_input id s c approvals : safe (resume_input_from_checkpoint id s c approvals).
Proof.
  unfold resume_input_from_checkpoint. set (asked := checkpoint_approvals _ _). destruct (negb _ && negb _) eqn:E.
  - apply andb_true_iff in E as [E _]. apply negb_true_iff, bool_decide_eq_false in E.
    apply safe_bind.
    + apply safe_update; [done| |done]. apply all_pending_existsb; [done|]. apply Forall_forall. intros a.
      apply approvals_from_stream_pending.
    + intros []; [|auto with ledger]. apply safe_bind; [|auto with ledger]. apply safe_bind; [apply safe_approval_events|].
      auto with ledger.
  - destruct (cs_next c); cbn [negb]; [case_bool_decide; auto with ledger|].
    apply safe_bind; [by apply safe_settle_task|]. auto with ledger.
Qed.

Lemma safe_resume_claimed id approvals dynamic current plan c resumed :
  safe (resume_claimed_run add_chunks failure_of id approvals dynamic current plan c resumed).
Proof.
  unfold resume_claimed_run. apply safe_bind; [apply safe_bind; [apply safe_on_ledger; auto with ledger|]; intros [s|]; auto with ledger|].
  intros s. destruct (sn_status s); try by auto with ledger.
  apply safe_bind; [apply safe_verify|]. intros _. apply safe_bind; [auto with ledger|]. intros _.
  apply safe_bind; [apply safe_resume_input|]. intros [l|]; [apply safe_stream_graph|auto with ledger].
Qed.

Lemma safe_recover id current plan c resumed :
  safe (recover_pending_resume add_chunks failure_of id current plan c resumed).
Proof.
  unfold recover_pending_resume. apply safe_run_of. intros [s|] Hs; [|auto with ledger].
  destruct (negb _) eqn:E; [auto with ledger|]. apply negb_false_iff, bool_decide_eq_true in E.
  destruct (existsb _ _) eqn:Ep.
  - specialize (Hs s eq_refl). unfold fits in Hs. rewrite E in Hs. destruct Hs as [_ Hs]. congruence.
  - apply safe_except.
    + apply safe_bind; [apply safe_verify|]. intros _. apply safe_resume_claimed.
    + intros e. destruct e; auto with ledger. apply safe_bind; [by apply safe_settle_task|]. auto with ledger.
Qed.
End Resuming.

Lemma safe_claim id d : safe (claim_decision id d).
Proof.
  intros t0 t [[Hd Hs] Hadv]. unfold claim_decision. destruct (tk_schedule t) as [|[now o] l] eqn:E.
  - apply (safe_on_ledger (claim_approval_decision id d (mret tt))); [intros n; apply keeps_claim, keeps_ret|].
    split; [by split; [|rewrite E]|done].
  - apply Forall_cons in Hs as [Ho Hl].
    apply (safe_on_ledger (claim_approval_decision id d o)); [intros n; by apply keeps_claim|].
    split; [by split|done].
Qed.

(** ** A run nobody disturbs *)

Definition logged (id : string) (t : task) : list (event_type * json) :=
  (λ e, (ee_type e, ee_data e)) <$> run_events id (ld_events (tk_ledger t)).
(** An event as the log keeps it. *)
Definition stored (p : event_type * json) : event_type * json := (p.1, canonical (redact_for_langfuse p.2)).

(** The task alone with its run [r], which takes events. *)
Record alone (t : task) (r : run_row) : Prop := {
  al_ok : ledger_ok (tk_ledger t);
  al_schedule : tk_schedule t = [];
  al_run : r ∈ ld_runs (tk_ledger t);
  al_active : active_status (rn_status r) = true;
}.
(** [t] went on to [t'] by logging [l] for the run. *)
Record went_on (t : task) (r : run_row) (l : list (event_type * json)) (t' : task) (r' : run_row) : Prop := {
  wo_alone : alone t' r';
  wo_identity : run_identity r' = run_identity r;
  wo_status : rn_status r' = rn_status r;
  wo_now : tk_now t' = tk_now t;
  wo_logged : logged (rn_id r) t' = logged (rn_id r) t ++ (stored <$> l);
}.

Lemma went_on_refl t r : alone t r → went_on t r [] t r.
Proof. intros H. split; try done. simpl. by rewrite app_nil_r. Qed.
Lemma went_on_trans t r l t1 r1 l1 t2 r2 :
  went_on t r l t1 r1 → went_on t1 r1 l1 t2 r2 → went_on t r (l ++ l1) t2 r2.
Proof.
  intros [A1 A2 A3 A4 A5] [B1 B2 B3 B4 B5]. assert (rn_id r1 = rn_id r) as Hid by exact (f_equal rn_id A2).
  split; [done|congruence|congruence|congruence|]. rewrite <- Hid, B5, Hid, A5, fmap_app. by rewrite app_assoc.
Qed.
Lemma went_on_stream t r l t' r' f :
  went_on t r l t' r' → went_on t r l (t' <| tk_stream := f (tk_stream t') |>) r'.
Proof. intros [[H1 H2 H3 H4] A2 A3 A4 A5]. by split; [split|..]. Qed.

Lemma alone_access {A} (m : Z → M ledger A) t r :
  alone t r → on_ledger m t = (t <| tk_ledger := (m (tk_now t) (tk_ledger t)).1 |>, (m (tk_now t) (tk_ledger t)).2).
Proof.
  intros [_ Hs _ _]. unfold on_ledger. destruct t as [d now sch re st]. simpl in Hs. subst sch. cbn.
  by destruct (m now d).
Qed.

Lemma logged_entry r r' type data now d :
  rn_id r' = rn_id r →
  (λ e, (ee_type e, ee_data e)) <$> run_events (rn_id r) (ld_events (with_entry r r' type data now d)) =
  ((λ e, (ee_type e, ee_data e)) <$> run_events (rn_id r) (ld_events d)) ++ [stored (type, data)].
Proof.
  intros Hid. unfold with_entry, put_run. simpl. rewrite run_events_app. simpl.
  by rewrite bool_decide_eq_true_2, fmap_app.
Qed.

Lemma append_alone t r type data :
  alone t r → closing_type type = false →
  ∃ t' r' e, append (rn_id r) type data t = (t', Ok (Some e)) ∧ went_on t r [(type, data)] t' r' ∧
    tk_stream t' = tk_stream t.
Proof.
  intros Ha Ht. pose proof Ha as [Hd Hs Hr Hact]. unfold append. rewrite (alone_access _ t r Ha).
  rewrite agent_append_event_run by done. unfold terminal_status. rewrite Hact. cbn [negb]. simpl.
  set (r' := appended r (tk_now t)). set (d' := with_entry r r' type data (tk_now t) (tk_ledger t)).
  assert (run_step (tk_ledger t) r r' [entry r type data (tk_now t)] (touched r (tk_now t) (tk_ledger t))) as Hstep.
  { apply event_step; try done.
    - rewrite Ht. unfold terminal_status. change (rn_status r') with (rn_status r). by rewrite Hact.
    - apply (lo_rows _ Hd _ Hr). }
  destruct (put_run_ok _ _ _ _ _ Hd Hstep) as [Hd' _].
  eexists (t <| tk_ledger := d' |>), r', _. split; [done|]. split; [|done]. split; try done.
  - split; [done|done| |done]. apply in_put_run. left. split; [done|]. by apply (list_elem_of_fmap_2 rn_id _ r).
  - unfold logged. simpl. by apply (logged_entry r r').
Qed.

Definition event_pair (e : message_event) : event_type * json := (me_type e, me_data e).
Definition answer_texts (l : list message_event) : list string := List.filter (λ s, negb (s == "")) (me_text <$> l).

Lemma append_message_alone l : Forall opening l → ∀ t r, alone t r →
  ∃ t' r', append_message (rn_id r) l t = (t', Ok true) ∧ went_on t r (event_pair <$> l) t' r' ∧
    tk_stream t' = tk_stream t <| ss_texts := ss_texts (tk_stream t) ++ answer_texts l |>.
Proof.
  induction 1 as [|e l He _ IH]; intros t r Ha; simpl.
  { exists t, r. split; [done|]. split; [by apply went_on_refl|]. rewrite app_nil_r. by destruct (tk_stream t). }
  set (f := λ s, s <| ss_texts := ss_texts s ++ answer_texts [e] |>).
  set (t0 := t <| tk_stream := f (tk_stream t) |>).
  assert (∀ k : unit → M task bool, ((if me_text e == "" then mret tt
    else on_stream (λ s, s <| ss_texts := ss_texts s ++ [me_text e] |>)) ≫= k) t = k tt t0) as Htext.
  { intros k. unfold t0, f, answer_texts. simpl. destruct (me_text e == ""); [|done].
    rewrite run_ret_bind. f_equal. simpl. rewrite app_nil_r. destruct t as [? ? ? ? []]. done. }
  rewrite Htext. clear Htext.
  assert (went_on t r [] t0 r) as H0 by by apply went_on_stream, went_on_refl.
  destruct (append_alone t0 r (me_type e) (me_data e) (wo_alone _ _ _ _ _ H0) He) as (t1 & r1 & ev & E & H1 & Hs1).
  rewrite (run_bind_ok _ _ _ _ _ E).
  destruct (IH t1 r1 (wo_alone _ _ _ _ _ H1)) as (t2 & r2 & E2 & H2 & Hs2).
  assert (rn_id r1 = rn_id r) as Hid by exact (f_equal rn_id (wo_identity _ _ _ _ _ H1)). rewrite Hid in E2.
  exists t2, r2. split; [done|]. split.
  - exact (went_on_trans _ _ _ _ _ _ _ _ H0 (went_on_trans _ _ _ _ _ _ _ _ H1 H2)).
  - rewrite Hs2, Hs1. unfold t0, f, answer_texts. simpl. destruct (tk_stream t). cbn.
    by destruct (negb (me_text e == "")); simpl; rewrite <- ?app_assoc, ?app_nil_r.
Qed.

(** A part that asks for no approval. *)
Definition silent (id : string) (p : graph_part) : Prop :=
  match p with
  | PartMessage _ true _ => True
  | PartMessage _ false data | PartOther data => approvals_from_stream id data = []
  end.

Section Undisturbed.
Variable add_chunks : ai_message → ai_message → ai_message.
Variable failure_of : exn → failure.

(** The events the messages of a stream stand for. *)
Fixpoint parts_events (chunk : option ai_message) (l : list graph_part) : list message_event :=
  match l with
  | [] => []
  | PartMessage m false _ :: l' =>
      let p := part_events add_chunks chunk m in p.1 ++ parts_events p.2 l'
  | _ :: l' => parts_events chunk l'
  end.
Lemma answer_texts_app l l' : answer_texts (l ++ l') = answer_texts l ++ answer_texts l'.
Proof. unfold answer_texts. by rewrite fmap_app, List.filter_app. Qed.

Lemma status_alone t r : alone t r → status_of_run (rn_id r) t = (t, Ok (rn_status r)).
Proof.
  intros Ha. pose proof Ha as [Hd _ Hr _]. unfold status_of_run. rewrite (alone_access _ t r Ha), run_status_row by done.
  by destruct t.
Qed.

(** Where a stream stands: the texts and the chunk it has, with no approval asked for. *)
Definition streaming (t : task) (texts : list string) (chunk : option ai_message) : Prop :=
  ss_texts (tk_stream t) = texts ∧ ss_chunk (tk_stream t) = chunk ∧ ss_interrupted (tk_stream t) = false.

Lemma stream_parts_alone owner id l : ∀ t r texts chunk,
  alone t r → rn_id r = id → streaming t texts chunk → Forall (silent id) l →
  ∃ t' r' chunk', stream_parts add_chunks id owner l t = (t', Ok true) ∧
    went_on t r (event_pair <$> parts_events chunk l) t' r' ∧
    streaming t' (texts ++ answer_texts (parts_events chunk l)) chunk'.
Proof.
  induction l as [|p l IH]; intros t r texts chunk Ha Hid Hst Hs.
  { exists t, r, chunk. split; [done|]. split; [by apply went_on_refl|]. simpl. by rewrite app_nil_r. }
  apply Forall_cons in Hs as [Hp Hs]. cbn [stream_parts]. unfold stream_part. rewrite run_bind_assoc.
  pose proof (status_alone t r Ha) as E0. rewrite Hid in E0. rewrite (run_bind_ok _ _ _ _ _ E0). unfold terminal_status.
  rewrite (al_active _ _ Ha). cbn [negb]. destruct p as [m [] data|data]; simpl in Hp.
  - rewrite run_ret_bind. by apply IH.
  - rewrite run_bind_assoc, run_gets_bind. destruct Hst as (H1 & H2 & H3). rewrite H2. simpl parts_events.
    pose proof (part_opening add_chunks chunk m) as Ho. destruct (part_events add_chunks chunk m) as [events chunk'].
    simpl in Ho. rewrite run_bind_assoc. unfold on_stream. rewrite run_modify_bind.
    set (t0 := t <| tk_stream := _ |>). assert (went_on t r [] t0 r) as H0 by by apply (went_on_stream _ _ _ _ _ _ (went_on_refl t r Ha)).
    destruct (append_message_alone events Ho t0 r (wo_alone _ _ _ _ _ H0)) as (t1 & r1 & E1 & G1 & Hs1).
    rewrite Hid in E1. rewrite run_bind_assoc, (run_bind_ok _ _ _ _ _ E1). unfold stream_approvals. rewrite Hp, run_ret_bind.
    assert (rn_id r1 = id) as Hid1 by (rewrite <- Hid; exact (f_equal rn_id (wo_identity _ _ _ _ _ G1))).
    destruct (IH t1 r1 (texts ++ answer_texts events) chunk' (wo_alone _ _ _ _ _ G1) Hid1) as (t2 & r2 & c2 & E2 & G2 & S2).
    { unfold streaming. rewrite Hs1. unfold t0. simpl. by rewrite H1. }
    { done. }
    exists t2, r2, c2. split; [done|]. split.
    + rewrite fmap_app. exact (went_on_trans _ _ _ _ _ _ _ _ H0 (went_on_trans _ _ _ _ _ _ _ _ G1 G2)).
    + by rewrite answer_texts_app, app_assoc.
  - unfold stream_approvals. rewrite Hp, run_ret_bind. by apply IH.
Qed.

Lemma settle_alone t r allowed status type data text error approvals :
  alone t r → forallb active_status allowed = true → rn_status r ∈ allowed → terminal_status status = true →
  closing_type type = true → (status = SnapCompleted → approvals = Some []) →
  ∃ t' e, on_ledger (settle_run (rn_id r) allowed status type data text error approvals) t = (t', Ok (Some e)) ∧
    find_run (rn_id r) (tk_ledger t') = Some (moved r status text error approvals (tk_now t)) ∧
    logged (rn_id r) t' = logged (rn_id r) t ++ [stored (type, data)].
Proof.
  intros Ha Hall Hin Ht Hc Hf. pose proof Ha as [Hd Hs Hr Hact]. rewrite (alone_access _ t r Ha).
  rewrite settle_run_run by (try done; by apply live_active). rewrite bool_decide_eq_true_2 by done. simpl.
  set (r' := moved r status text error approvals (tk_now t)).
  destruct (settle_kept (tk_ledger t) r status type data text error approvals (tk_now t)) as [_ [Hd' _]]; try done.
  eexists _, _. split; [done|]. split.
  - change (rn_id r) with (rn_id r'). apply (find_agent_run_in _ _ Hd'). apply (in_put_run r' r'). left. split; [done|].
    by apply (list_elem_of_fmap_2 rn_id _ r).
  - exact (logged_entry r r' type _ _ _ eq_refl).
Qed.

Lemma verify_alone t r : alone t r →
  on_ledger (λ _, verify_dynamic (rn_id r) (rn_generation r, rn_dynamic r)) t = (t, Ok tt).
Proof.
  intros Ha. rewrite (alone_access _ t r Ha). unfold verify_dynamic. rewrite run_gets_bind.
  rewrite (find_agent_run_in _ _ (al_ok _ _ Ha) (al_run _ _ Ha)), bool_decide_eq_true_2 by done. by destruct t.
Qed.

(** C10: left alone, a run whose graph ends without asking for an approval
    completes: its log gains exactly the start, the events of the streamed
    messages and the completion, redacted and in order, and its text is what
    the messages said, or the last answer of the checkpoint. *)
Theorem stream_completes t r c resumed plan summary g messages :
  alone t r → rn_status r ∈ task_statuses → gr_dynamic g = (rn_generation r, rn_dynamic r) → gr_setup g = Ok tt →
  Forall (silent (rn_id r)) (gr_parts g) → gr_ending g = GraphDone messages →
  let events := parts_events None (gr_parts g) in
  let said := strip (join_text "" (answer_texts events)) in
  let text := if said == "" then last_ai_text messages else said in
  ∃ t' r', stream_graph add_chunks failure_of (rn_id r) c resumed plan summary g t = (t', Ok tt) ∧
    find_run (rn_id r) (tk_ledger t') = Some r' ∧ rn_status r' = SnapCompleted ∧ rn_text r' = public_text text ∧
    logged (rn_id r) t' = logged (rn_id r) t ++
      (stored <$> (RunStarted, started_data c resumed plan summary) :: (event_pair <$> events) ++
                  [(RunCompleted, JObj [("text", JStr text)])]).
Proof.
  intros Ha Hin Hdyn Hset Hsil Hend events said text. unfold stream_graph, on_stream. rewrite run_modify_bind.
  set (t0 := t <| tk_stream := _ |>). assert (went_on t r [] t0 r) as H0 by by apply (went_on_stream _ _ _ _ _ _ (went_on_refl t r Ha)).
  destruct (append_alone t0 r RunStarted (started_data c resumed plan summary) (wo_alone _ _ _ _ _ H0) eq_refl)
    as (t1 & r1 & e & E1 & G1 & S1). rewrite (run_bind_ok _ _ _ _ _ E1).
  assert (rn_id r1 = rn_id r) as Hid1 by exact (f_equal rn_id (wo_identity _ _ _ _ _ G1)).
  assert ((rn_generation r1, rn_dynamic r1) = (rn_generation r, rn_dynamic r)) as Hdyn1.
  { pose proof (wo_identity _ _ _ _ _ G1) as Hi. f_equal; [exact (f_equal rn_generation Hi)|exact (f_equal rn_dynamic Hi)]. }
  unfold except_exception. rewrite run_try_except. unfold stream_body.
  pose proof (verify_alone t1 r1 (wo_alone _ _ _ _ _ G1)) as Hv. rewrite Hid1, Hdyn1 in Hv. rewrite Hdyn.
  rewrite (run_bind_ok _ _ _ _ _ Hv), Hset, run_outcome_bind.
  destruct (stream_parts_alone (rx_kind c == "owner") (rn_id r) (gr_parts g) t1 r1 [] None (wo_alone _ _ _ _ _ G1) Hid1)
    as (t2 & r2 & c2 & E2 & G2 & S2).
  { unfold streaming. by rewrite S1. }
  { done. }
  destruct S2 as (T1 & _ & T3). rewrite (run_bind_ok _ _ _ _ _ E2), Hend. cbn [negb]. rewrite run_gets_bind, T3.
  pose proof (went_on_trans _ _ _ _ _ _ _ _ H0 (went_on_trans _ _ _ _ _ _ _ _ G1 G2)) as G.
  pose proof (wo_alone _ _ _ _ _ G) as Ha2. pose proof (status_alone t2 r2 Ha2) as E3.
  assert (rn_id r2 = rn_id r) as Hid2 by exact (f_equal rn_id (wo_identity _ _ _ _ _ G)).
  rewrite Hid2 in E3. rewrite (run_bind_ok _ _ _ _ _ E3). unfold terminal_status. rewrite (al_active _ _ Ha2). cbn [negb].
  unfold current_text. rewrite run_gets_bind. unfold stream_text. rewrite T1, app_nil_l. fold events. fold said. fold text.
  destruct (settle_alone t2 r2 task_statuses SnapCompleted RunCompleted (JObj [("text", JStr text)]) (Some text) None
    (Some []) Ha2) as (t3 & e3 & E4 & Hf & Hlog); [done|by rewrite (wo_status _ _ _ _ _ G)|done..|].
  rewrite Hid2 in E4, Hf, Hlog. unfold complete_run. rewrite (run_bind_ok _ _ _ _ _ E4), run_ret.
  eexists t3, _. split_and!; try done.
  rewrite Hlog, (wo_logged _ _ _ _ _ G), <- app_assoc. f_equal.
  change [stored ?y] with (stored <$> [y]). by rewrite <- fmap_app.
Qed.

(** The recovery of a run whose approved tools have changed since, when the run is
    [resume_pending] and no other task is at work, does not resume it: the run
    fails, and its log says why. *)
Theorem changed_capability_fails t r current plan c resumed :
  alone t r → rn_status r = SnapResumePending → current ≠ (rn_generation r, rn_dynamic r) →
  ∃ t', recover_pending_resume add_chunks failure_of (rn_id r) current plan c resumed t = (t', Ok tt) ∧
    find_run (rn_id r) (tk_ledger t') = Some (moved r SnapFailed None
      (Some "The approved capability changed before the agent run could continue.") None (tk_now t)) ∧
    logged (rn_id r) t' = logged (rn_id r) t ++ [stored (RunFailed, capability_data)].
Proof.
  intros Ha Hst Hdyn. pose proof Ha as [Hd _ Hr _]. unfold recover_pending_resume.
  destruct (get_run_row _ r Hd Hr) as (s & Hg & _ & Hs & Hap).
  assert (run_of (rn_id r) t = (t, Ok (Some s))) as E.
  { unfold run_of. rewrite (alone_access _ t r Ha), Hg. by destruct t. }
  rewrite (run_bind_ok _ _ _ _ _ E), Hs, Hst, bool_decide_eq_true_2 by done. cbn [negb].
  pose proof (ro_approvals _ _ _ (lo_rows _ Hd _ Hr)) as Hfit. rewrite Hst in Hfit. destruct Hfit as [_ Hfit].
  rewrite Hap, Hfit. unfold except_exception. rewrite run_try_except.
  assert (on_ledger (λ _, verify_dynamic (rn_id r) current) t = (t, Err capability_changed)) as Ev.
  { rewrite (alone_access _ t r Ha). unfold verify_dynamic. rewrite run_gets_bind, (find_agent_run_in _ _ Hd Hr).
    rewrite bool_decide_eq_false_2 by congruence. by destruct t. }
  rewrite (run_bind_err _ _ _ _ _ Ev). unfold capability_changed. cbn beta iota.
  destruct (settle_alone t r [SnapResumePending] SnapFailed RunFailed capability_data None
    (Some "The approved capability changed before the agent run could continue.") None Ha)
    as (t' & e & E' & Hf & Hlog); [done|rewrite Hst; set_solver|done..|].
  rewrite (run_bind_ok _ _ _ _ _ E'), run_ret. by exists t'.
Qed.
End Undisturbed.

(** ** Resuming *)

Lemma all_decided l : List.filter pending_approval l = [] →
  ∃ decisions, all_ok (resume_decision <$> l) = Ok decisions ∧ length decisions = length l.
Proof.
  induction l as [|a l IH]; intros H; [by exists []|]. simpl in H. unfold pending_approval at 1 in H.
  case_bool_decide as E; [done|]. destruct (IH H) as (ds & Hds & Hlen).
  assert (∃ j, resume_decision a = Ok j) as [j Hj] by (unfold resume_decision; destruct (ap_status a); eauto; done).
  exists (j :: ds). rewrite fmap_cons. cbn [all_ok length]. by rewrite Hj, Hds, Hlen.
Qed.

Lemma claim_decision_Ok id d t t' s l : task_ok t → claim_decision id d t = (t', Ok (s, l)) →
  task_ok t' ∧ tk_resumes t' = tk_resumes t ∧ ∃ r l1 a l2, l = rn_approvals r ∧ decision_taken d r l1 a l2.
Proof.
  intros [Hd Hs] H. unfold claim_decision in H.
  set (others := match tk_schedule t with [] => mret tt | p :: _ => p.2 end).
  set (t0 := match tk_schedule t with [] => t | (now, _) :: l => t <| tk_now := now |> <| tk_schedule := l |> end).
  assert (keeps others ∧ task_ok t0 ∧ tk_resumes t0 = tk_resumes t ∧
    on_ledger (claim_approval_decision id d others) t0 = (t', Ok (s, l))) as (Ho & Ht0 & Hres & E).
  { unfold others, t0. destruct (tk_schedule t) as [|[now o] rest] eqn:Esch.
    - split_and!; [apply keeps_ret|split; [done|by rewrite Esch]|done|done].
    - apply Forall_cons in Hs as [Ho Hrest]. by split_and!. }
  destruct (on_ledger_run (claim_approval_decision id d others) t0 Ht0) as (d1 & now & rest & E1 & [Hd1 _] & Hrest).
  rewrite E1 in E. injection E as <- E. destruct (claim_approval_decision id d others now d1) as [d2 o] eqn:Ec.
  simpl in E. subst o. destruct (claim_Ok d1 id d others now d2 s l Hd1 Ho Ec) as (r & l1 & a & l2 & _ & _ & Hl & Htak).
  pose proof (keeps_elim _ d1 (keeps_claim id d others now Ho) Hd1) as [Hd2 _]. rewrite Ec in Hd2.
  split; [by split|]. split; [done|]. by exists r, l1, a, l2.
Qed.

(** The input of a resumed graph: the decisions on the approvals, or nothing when
    the checkpoint asks for none. *)
Lemma resume_input_given id s c l t t' input :
  resume_input_from_checkpoint id s c l t = (t', Ok (Some input)) →
  all_ok (resume_decision <$> l) = Ok input ∧ same_ids (checkpoint_approvals id c) l = true ∨
  input = [] ∧ checkpoint_approvals id c = [].
Proof.
  unfold resume_input_from_checkpoint. set (asked := checkpoint_approvals id c). intros H.
  destruct (negb (bool_decide (asked = [])) && negb (same_ids asked l)) eqn:E.
  { rewrite run_bind in H. destruct (on_ledger _ t) as [t1 [[]|]]; [..|done].
    - rewrite run_bind_assoc, run_bind in H. destruct (append_all _ _ t1) as [t2 [|]]; [|done].
      by rewrite run_ret_bind, run_ret in H.
    - by rewrite run_ret_bind, run_ret in H. }
  destruct (negb (cs_next c)).
  { cbv zeta in H. rewrite run_bind in H. destruct (on_ledger _ t) as [t1 [|]]; [|done]. by rewrite run_ret in H. }
  case_bool_decide as Ea.
  - rewrite run_ret in H. injection H as _ <-. by right.
  - left. rewrite run_outcome_bind in H. destruct (all_ok _) as [ds|]; [|done]. rewrite run_ret in H. injection H as _ <-.
    split; [done|]. simpl in E. by destruct (same_ids asked l).
Qed.

Section Resumed.
Variable add_chunks : ai_message → ai_message → ai_message.
Variable failure_of : exn → failure.

(** The resumption of a run left alone: its graph is given the decisions. *)
Lemma resumed_alone t r s l decisions plan c resumed :
  alone t r → rn_status r = SnapResumePending → snapshot_from_row r = Ok s →
  all_ok (resume_decision <$> l) = Ok decisions → cs_next c = true →
  checkpoint_approvals (rn_id r) c ≠ [] → same_ids (checkpoint_approvals (rn_id r) c) l = true →
  let current := (rn_generation r, rn_dynamic r) in
  resume_claimed_run add_chunks failure_of (rn_id r) l current current plan c resumed t =
  stream_graph add_chunks failure_of (rn_id r) (sn_context s) true (default plan (sn_plan s)) None (resumed decisions) t.
Proof.
  intros Ha Hst Hs Hds Hn Hne Hsame. cbv zeta. pose proof Ha as [Hd _ Hr _]. unfold resume_claimed_run, required_run.
  destruct (get_run_row _ r Hd Hr) as (s' & Hg & Hs' & Hst' & _). rewrite Hs in Hs'. injection Hs' as <-.
  assert (run_of (rn_id r) t = (t, Ok (Some s))) as E.
  { unfold run_of. rewrite (alone_access _ t r Ha), Hg. by destruct t. }
  rewrite run_bind_assoc, (run_bind_ok _ _ _ _ _ E), run_ret_bind, Hst', Hst.
  rewrite (run_bind_ok _ _ _ _ _ (verify_alone t r Ha)), run_unless_bind, bool_decide_eq_true_2 by done.
  unfold resume_input_from_checkpoint. rewrite Hsame, bool_decide_eq_false_2, Hn, Hds by done.
  cbn [negb andb]. by rewrite run_bind_assoc, run_outcome_bind, run_ret_bind.
Qed.
End Resumed.


(** ** Samples *)

Definition join_chunks (a b : ai_message) : ai_message :=
  AIMessage (JStr (message_text (ai_content a) +:+ message_text (ai_content b))) (ai_calls a ++ ai_calls b).
Definition plain_failure (e : exn) : failure := Failure false false JNull.
Abbreviation sample_task d := (Task d 5000 [] [] (StreamState [] None false)).
Definition sample_graph : graph_run :=
  GraphRun (Ok tt) (0, "") [PartMessage (AIChunk (AIMessage (JStr "on ") []) false) false (SList []);
                            PartMessage (AIChunk (AIMessage (JStr "it") []) true) false (SList [])] (GraphDone []).

Lemma alone_sample d r :
  rtc ledger_step no_runs d → r ∈ ld_runs d → active_status (rn_status r) = true → alone (sample_task d) r.
Proof. intros Hd Hr Ha. split; [by apply ledger_reachable_ok|done|done|done]. Qed.

Lemma run_task_settles_witness :
  ∃ t', t' = (run_prepared join_chunks plain_failure true "run_1" sample_context sample_plan (Ok "send")
                (GraphRun (Ok tt) (0, "") [] (GraphRaised CancelledError))
                (Task sample_open 5000 [(5000, ensure_thread "tenant_1" "t" "web" 5000)] [] (StreamState [] None false))).1 ∧
    ∃ r, find_run "run_1" (tk_ledger t') = Some r ∧ rn_status r = SnapRunning ∧
    ∃ d' r', reconcile_stale_running_runs 9000 (tk_ledger t') = (d', Ok tt) ∧ find_run "run_1" d' = Some r' ∧
      rn_status r' = SnapFailed.
Proof.
  eexists. split; [reflexivity|].
  destruct (run_task_settles join_chunks plain_failure true (Task sample_open 5000
    [(5000, ensure_thread "tenant_1" "t" "web" 5000)] [] (StreamState [] None false)) "run_1" sample_context sample_plan
    (Ok "send") (GraphRun (Ok tt) (0, "") [] (GraphRaised CancelledError))) as (_ & _ & r & Hr & _ & Hstart).
  - split; [apply ledger_reachable_ok, sample_open_steps|]. apply Forall_singleton, keeps_ensure_thread.
  - apply list_elem_of_here.
  - exists r. split; [exact Hr|]. assert (rn_status r = SnapRunning) as Hs.
    { vm_compute in Hr. injection Hr as <-. reflexivity. }
    split; [exact Hs|]. destruct (Hstart 9000) as (d' & r' & H1 & H2 & H3 & _).
    exists d', r'. exact (conj H1 (conj H2 (H3 Hs))).
Defined.

Lemma stream_completes_witness :
  ∃ t' r', stream_graph join_chunks plain_failure "run_1" sample_context false sample_plan None sample_graph
      (sample_task sample_open) = (t', Ok tt) ∧
    find_run "run_1" (tk_ledger t') = Some r' ∧ rn_status r' = SnapCompleted.
Proof.
  destruct (stream_completes join_chunks plain_failure (sample_task sample_open) sample_run sample_context false
    sample_plan None sample_graph []) as (t' & r' & H1 & H2 & H3 & _).
  - apply alone_sample; [apply sample_open_steps|apply list_elem_of_here|reflexivity].
  - apply list_elem_of_here.
  - reflexivity.
  - reflexivity.
  - repeat constructor.
  - reflexivity.
  - exists t', r'. exact (conj H1 (conj H2 H3)).
Defined.

Abbreviation sample_awaiting := (List.hd (new_run "" "" sample_submission "" 0 "" sample_plan 0) (ld_runs sample_decided)).
Lemma sample_decided_reachable : rtc ledger_step no_runs sample_decided.
Proof. etrans; [apply sample_interrupted_reachable|apply sample_decided_steps]. Qed.

Lemma changed_capability_fails_witness :
  ∃ t' r', recover_pending_resume join_chunks plain_failure "run_1" (1, "other") sample_plan
      (CheckpointState [] true []) (λ _, sample_graph) (sample_task sample_decided) = (t', Ok tt) ∧
    find_run "run_1" (tk_ledger t') = Some r' ∧ rn_status r' = SnapFailed.
Proof.
  destruct (changed_capability_fails join_chunks plain_failure (sample_task sample_decided) sample_awaiting (1, "other")
    sample_plan (CheckpointState [] true []) (λ _, sample_graph)) as (t' & H1 & H2 & _).
  - apply alone_sample; [apply sample_decided_reachable|apply list_elem_of_here|reflexivity].
  - reflexivity.
  - discriminate.
  - eexists t', _. split; [exact H1|]. split; [exact H2|reflexivity].
Defined.

(** A run that waits for the approval its checkpoint asks for, decided. *)
Definition sample_checkpoint : checkpoint_state :=
  CheckpointState [SInterrupt "int_1" (JObj [("action_requests", JArr [JObj [("name", JStr "artifact_deliver")]])])] true [].
Definition asked_approval : approval :=
  Eval vm_compute in List.hd sample_approval (checkpoint_approvals "run_1" sample_checkpoint).
Definition sample_waiting : ledger :=
  Eval vm_compute in (update_run "run_1" (Some SnapInterrupted) (Some "") None (Some [asked_approval]) task_statuses 2000
    sample_open).1.
Lemma sample_waiting_ok : ledger_ok sample_waiting.
Proof.
  apply ledger_reachable_ok. etrans; [apply sample_open_steps|]. apply rtc_once.
  exact (step_interrupt sample_open "run_1" (Some "") [asked_approval] 2000 eq_refl).
Qed.
Definition asked_decision : decision := ApprovalDecision (ap_id asked_approval) DecideApprove None None.
Definition asked_decisions : list json := Eval vm_compute in
  match all_ok (resume_decision <$> [decided asked_approval asked_decision]) with Ok l => l | Err _ => [] end.
Abbreviation sample_resume := (open_resume "run_1" asked_decision (0, "") (sample_task sample_waiting)).
Definition sample_resumed : task := Eval vm_compute in sample_resume.1.
Definition sample_resumption : run_row :=
  Eval vm_compute in List.hd (new_run "" "" sample_submission "" 0 "" sample_plan 0) (ld_runs (tk_ledger sample_resumed)).
Definition sample_reply : snapshot * list approval * Z := Eval vm_compute in
  match sample_resume.2 with
  | Ok (Resuming s l cursor) => (s, l, cursor)
  | _ => (AgentRunSnapshot "" sample_context SnapFailed "" "" [] "" "" None, [], 0)
  end.
Definition sample_later : snapshot := Eval vm_compute in
  match snapshot_from_row sample_resumption with Ok s => s | Err _ => sample_reply.1.1 end.

