(* ===== verification/Cipher.v ===== *)
(** * The host key cipher ([secrets/cipher.py])

    The interface [HostKeySecretCipher] the host configuration and the secret
    vault are written against, the law they rely on, and the AES-GCM
    implementation, which discharges it from that of the AESGCM primitive. *)

From S2P Require Import Prelude PyText.
#[local] Open Scope string_scope.
#[local] Open Scope list_scope.
#[local] Open Scope Z_scope.

(** ** The cipher boundary *)

Record encrypted_secret := EncryptedSecret {
  en_key_id : string;
  en_nonce : string;
  en_ciphertext : string;
}.

(** The nonce [encrypt] draws is its first argument. *)
Class HostKeySecretCipher := {
  cipher_encrypt : string → string → string → encrypted_secret;
  cipher_decrypt : encrypted_secret → string → outcome string;
}.
Class CipherLaws (C : HostKeySecretCipher) : Prop := {
  cipher_round_trip : ∀ nonce plaintext ad,
    cipher_decrypt (cipher_encrypt nonce plaintext ad) ad = Ok plaintext;
}.

Section AesGcm.
(** [AESGCM(key).encrypt(nonce, data, ad)] and [decrypt], of the
    [cryptography] package; [None] is [InvalidTag]. *)
Variable aes_encrypt : string → string → string → string.
Variable aes_decrypt : string → string → string → option string.
Hypothesis aes_round_trip : ∀ nonce data ad,
  aes_decrypt nonce (aes_encrypt nonce data ad) ad = Some data.
Variable key_id : string.

Definition aes_gcm_encrypt (nonce plaintext ad : string) : encrypted_secret :=
  EncryptedSecret key_id nonce (aes_encrypt nonce plaintext ad).

Definition aes_gcm_decrypt (value : encrypted_secret) (ad : string) : outcome string :=
  if en_key_id value == key_id then
    match aes_decrypt (en_nonce value) (en_ciphertext value) ad with
    | Some data => Ok data
    | None => Err (OtherException "SecretCipherError" "secret ciphertext failed authentication")
    end
  else Err (OtherException "SecretCipherError"
         "secret was encrypted by an unavailable host key").

Definition aes_gcm_cipher : HostKeySecretCipher :=
  {| cipher_encrypt := aes_gcm_encrypt; cipher_decrypt := aes_gcm_decrypt |}.

#[local] Instance aes_gcm_laws : CipherLaws aes_gcm_cipher.
Proof.
  split. intros nonce plaintext ad. simpl. unfold aes_gcm_decrypt, aes_gcm_encrypt. simpl.
  by rewrite bool_decide_eq_true_2, aes_round_trip.
Qed.
End AesGcm.

(** ** A cipher that computes

    The associated data is the authentication tag of a toy primitive. *)

Definition sample_cipher : HostKeySecretCipher :=
  aes_gcm_cipher (λ _ data ad, data +:+ ad)
    (λ _ sealed ad, Some (take_text (String.length sealed - String.length ad) sealed)) "host-v1".

Lemma take_app_text s t : take_text (String.length (s +:+ t) - String.length t) (s +:+ t) = s.
Proof.
  unfold take_text. rewrite length_app_text.
  replace (String.length s + String.length t - String.length t)%nat with (String.length s) by lia.
  induction s as [|c s IH]; simpl; [by destruct t|]. f_equal. apply IH.
Qed.

#[global] Instance sample_cipher_laws : CipherLaws sample_cipher.
Proof. apply aes_gcm_laws. intros nonce data ad. by rewrite take_app_text. Qed.
