(* ===== verification/InferenceStore.v ===== *)
(** * Codex credentials and device logins ([inference/store.py])

    The encrypted credential of a tenant with its revision, the epochs that
    count a tenant's credentials across disconnections, and the device logins.
    A credential is sealed as the JSON text the store writes and is read back
    with [json.loads] and [datetime.fromisoformat]; the sealed columns of a
    login hold the login itself, whose polling interval is a number JSON writes
    as a fraction. *)

From S2P Require Import Prelude Sqlite PyText Clock Base64 Json JsonParse PyJson Protocol Cipher.
#[local] Open Scope string_scope.
#[local] Open Scope list_scope.
#[local] Open Scope Z_scope.

(** ** Tables keyed by a text

    [INSERT .. ON CONFLICT (key) DO UPDATE] of all columns. *)
Section Keyed.
Context {R : Type} (key : R → string).

Definition has_key (k : string) (r : R) : bool := key r == k.
Definition row_at (k : string) (t : list R) : option R := select_one (has_key k) t.
Definition upsert (r : R) (t : list R) : list R :=
  if exists_row (has_key (key r)) t then update (has_key (key r)) (λ _, r) t else t ++ [r].

Lemma has_key_true k r : has_key k r = true ↔ key r = k.
Proof. unfold has_key. by rewrite bool_decide_eq_true. Qed.
Lemma has_key_false k r : key r ≠ k → has_key k r = false.
Proof. apply bool_decide_eq_false_2. Qed.
Lemma row_at_Some k t r : row_at k t = Some r → r ∈ t ∧ key r = k.
Proof. intros [Hr Hk]%select_one_Some. by rewrite has_key_true in Hk. Qed.
Lemma row_at_None k t : row_at k t = None ↔ k ∉ key <$> t.
Proof.
  unfold row_at. rewrite select_one_None. split.
  - intros H (r & -> & Hr)%list_elem_of_fmap. specialize (H r Hr). unfold has_key in H.
    by rewrite bool_decide_eq_true_2 in H.
  - intros H r Hr. apply not_true_iff_false. rewrite has_key_true. intros <-. apply H, list_elem_of_fmap. eauto.
Qed.

Lemma row_at_upsert r t : row_at (key r) (upsert r t) = Some r.
Proof.
  assert (has_key (key r) r = true) as Hr by (by rewrite has_key_true). unfold row_at, upsert.
  destruct (exists_row (has_key (key r)) t) eqn:E.
  - apply exists_row_true in E as (x & Hx & Hk). induction t as [|y t IH]; [by apply elem_of_nil in Hx|].
    simpl. destruct (has_key (key r) y) eqn:Ey; simpl; [by rewrite Hr|]. rewrite Ey. apply IH.
    apply elem_of_cons in Hx as [->|Hx]; [congruence|done].
  - rewrite select_one_app, (proj2 (select_one_None _ _) (proj1 (exists_row_false _ _) E)). simpl. by rewrite Hr.
Qed.
Lemma row_at_upsert_other k r t : key r ≠ k → row_at k (upsert r t) = row_at k t.
Proof.
  intros Hne. assert (has_key k r = false) as Hr by (by apply bool_decide_eq_false_2).
  unfold row_at, upsert. destruct (exists_row (has_key (key r)) t).
  - induction t as [|y t IH]; [done|]. simpl. destruct (has_key (key r) y) eqn:Ey.
    + apply has_key_true in Ey. by rewrite Hr, IH, (has_key_false k y) by congruence.
    + by rewrite IH.
  - rewrite select_one_app. simpl. rewrite Hr. by destruct (select_one _ t).
Qed.
Lemma row_at_deleted k t : row_at k (delete_rows (has_key k) t) = None.
Proof. apply select_one_None. by intros r [_ H]%elem_of_delete_rows. Qed.
Lemma row_at_deleted_other k k' t : k ≠ k' → row_at k' (delete_rows (has_key k) t) = row_at k' t.
Proof.
  intros Hne. unfold row_at. induction t as [|y t IH]; [done|]. simpl.
  destruct (has_key k y) eqn:Ey; simpl; [|by rewrite IH].
  apply has_key_true in Ey. by rewrite (has_key_false k' y), IH by congruence.
Qed.

Lemma in_upsert x r t : x ∈ upsert r t → x = r ∨ x ∈ t.
Proof.
  unfold upsert. destruct (exists_row _ t); [|set_solver].
  intros (y & Hy & ->)%elem_of_update. destruct (has_key _ y); auto.
Qed.
Lemma unique_upsert r t : unique key t → unique key (upsert r t).
Proof.
  intros Ht. unfold upsert. destruct (exists_row (has_key (key r)) t) eqn:E.
  - unfold unique. rewrite fmap_update; [done|]. intros x _ Hx%has_key_true. done.
  - apply unique_app; [done|]. intros x Hx Heq. pose proof (proj1 (exists_row_false _ _) E x Hx) as H.
    apply not_true_iff_false in H. by apply H, has_key_true.
Qed.
Lemma delete_absent k t : row_at k t = None → delete_rows (has_key k) t = t.
Proof.
  intros H. assert (∀ r, r ∈ t → has_key k r = false) as Hn by by apply select_one_None.
  clear H. induction t as [|x t IH]; [done|]. unfold delete_rows in *. simpl. rewrite (Hn x) by set_solver. simpl.
  f_equal. apply IH. set_solver.
Qed.
Lemma rowcount_key k t : unique key t →
  rowcount (has_key k) t = match row_at k t with Some _ => 1%nat | None => 0%nat end.
Proof.
  intros Ht. destruct (row_at k t) as [r|] eqn:E.
  - apply row_at_Some in E as [Hr <-]. apply (rowcount_one key _ _ r); [done|done|by rewrite has_key_true|].
    intros x _. by rewrite has_key_true.
  - apply rowcount_zero. by apply select_one_None.
Qed.
End Keyed.

(** ** Credentials and logins *)

Record codex_credential := CodexCredential {
  cc_access : string;
  cc_refresh : string;
  cc_id : option string;
  cc_account : option string;
  cc_expires : Z;
  cc_revision : Z;
}.
#[global] Instance codex_credential_eq_dec : EqDecision codex_credential.
Proof. solve_decision. Defined.
#[global] Instance codex_credential_fields : Fields codex_credential := λ c,
  CodexCredential (cc_access c) (cc_refresh c) (cc_id c) (cc_account c) (cc_expires c) (cc_revision c).

(** [CodexCredential.__post_init__] *)
Definition check_credential (c : codex_credential) : outcome codex_credential :=
  if (cc_access c == "") || (cc_refresh c == "") then Err (ValueError "Codex credential is missing a token")
  else Ok c.
Definition expires_soon (c : codex_credential) (now : Z) : bool := cc_expires c - 300000000 <=? now.

Inductive login_status := LoginPending | LoginExpired | LoginFailed | LoginAuthorized.
#[global] Instance login_status_eq_dec : EqDecision login_status.
Proof. solve_decision. Defined.
(** [dl_interval] is in microseconds. *)
Record device_login := DeviceLogin {
  dl_id : string;
  dl_tenant : string;
  dl_status : login_status;
  dl_url : string;
  dl_code : string;
  dl_auth : string;
  dl_interval : Z;
  dl_next : Z;
  dl_expires : Z;
  dl_error : option string;
}.
#[global] Instance device_login_fields : Fields device_login := λ l,
  DeviceLogin (dl_id l) (dl_tenant l) (dl_status l) (dl_url l) (dl_code l) (dl_auth l) (dl_interval l) (dl_next l)
    (dl_expires l) (dl_error l).

Record credential_row := CredentialRow {
  cw_tenant : string;
  cw_revision : Z;
  cw_sealed : encrypted_secret;
  cw_expires : Z;
  cw_updated : Z;
}.
Record epoch_row := EpochRow { ew_tenant : string; ew_revision : Z }.
Record login_row := LoginRow { lw_login : device_login; lw_updated : Z }.
Definition lw_id (r : login_row) : string := dl_id (lw_login r).

Record inference_db := InferenceDb {
  id_credentials : list credential_row;
  id_epochs : list epoch_row;
  id_logins : list login_row;
}.
#[global] Instance inference_db_fields : Fields inference_db := λ d,
  InferenceDb (id_credentials d) (id_epochs d) (id_logins d).
Definition no_inference : inference_db := InferenceDb [] [] [].

(** ** Operations *)

Definition connected (tenant : string) (d : inference_db) : bool :=
  exists_row (has_key cw_tenant tenant) (id_credentials d).
(** The epoch of a tenant, 0 before its first credential. *)
Definition credential_revision (tenant : string) (d : inference_db) : Z :=
  from_option ew_revision 0 (row_at ew_tenant tenant (id_epochs d)).

Definition credential_aad (tenant : string) : string := encode ("opentulpa:codex-credential:" +:+ tenant).
Definition credential_payload (c : codex_credential) : json :=
  JObj [("access_token", JStr (cc_access c)); ("refresh_token", JStr (cc_refresh c));
        ("id_token", optional_json JStr (cc_id c)); ("account_id", optional_json JStr (cc_account c));
        ("expires_at", JStr (utc_isoformat (cc_expires c)))].

Section Store.
Context `{HostKeySecretCipher}.

Definition encrypt_payload (nonce : string) (payload : json) (ad : string) : encrypted_secret :=
  cipher_encrypt nonce (encode (dumps true payload)) ad.
Definition decrypt_payload (e : encrypted_secret) (ad : string) : outcome json :=
  raw ← cipher_decrypt e ad;
  match text ← decode raw; json_loads text with
  | None => Err (ValueError "invalid JSON")
  | Some v => if is_object v then Ok v else Err (RuntimeError "encrypted inference record is invalid")
  end.

(** [_credential_from_row] *)
Definition member (key : string) (v : json) : outcome json :=
  match jget key v with Some x => Ok x | None => Err (KeyError key) end.
Definition optional_text (key : string) (v : json) : option string :=
  match jget key v with Some x => if py_true x then Some (py_str x) else None | None => None end.
Definition credential_from_row (tenant : string) (r : credential_row) : outcome codex_credential :=
  payload ← decrypt_payload (cw_sealed r) (credential_aad tenant);
  access ← member "access_token" payload;
  refresh ← member "refresh_token" payload;
  expires ← member "expires_at" payload;
  match from_isoformat (py_str expires) with
  | None => Err (ValueError "Invalid isoformat string")
  | Some at_ =>
      check_credential (CodexCredential (py_str access) (py_str refresh) (optional_text "id_token" payload)
        (optional_text "account_id" payload) at_ (cw_revision r))
  end.

Definition load_credential (tenant : string) : M inference_db (option codex_credential) :=
  row ← gets (λ d, row_at cw_tenant tenant (id_credentials d));
  match row with
  | None => mret None
  | Some r => c ← from_outcome (credential_from_row tenant r); mret (Some c)
  end.

(** [_write_credential] *)
Definition write_credential (tenant : string) (c : codex_credential) (nonce : string) (now : Z) : M inference_db unit :=
  let sealed := encrypt_payload nonce (credential_payload c) (credential_aad tenant) in
  modify (λ d, d <| id_credentials :=
    upsert cw_tenant (CredentialRow tenant (cc_revision c) sealed (cc_expires c) now) (id_credentials d) |>);;
  modify (λ d, d <| id_epochs := upsert ew_tenant (EpochRow tenant (cc_revision c)) (id_epochs d) |>).

Definition save_credential (tenant : string) (c : codex_credential) (nonce : string) (now : Z) :
    M inference_db codex_credential :=
  transaction (
    current ← gets (credential_revision tenant);
    saved ← from_outcome (check_credential (c <| cc_revision := current + 1 |>));
    write_credential tenant saved nonce now;;
    mret saved).

(** [refresh_credential]; [refresh] is the provider's answer to the tokens it is asked with. *)
Definition refresh_credential (tenant : string) (refresh : codex_credential → outcome codex_credential)
    (force : bool) (nonce : string) (now : Z) : M inference_db codex_credential :=
  transaction (
    row ← gets (λ d, row_at cw_tenant tenant (id_credentials d));
    match row with
    | None => raise (OtherException "FileNotFoundError" "Codex is not connected")
    | Some r =>
        current ← from_outcome (credential_from_row tenant r);
        if negb force && negb (expires_soon current now) then mret current
        else
          refreshed ← from_outcome (refresh current);
          saved ← from_outcome (check_credential (refreshed <| cc_revision := cc_revision current + 1 |>));
          write_credential tenant saved nonce now;;
          mret saved
    end).

Definition delete_credential (tenant : string) : M inference_db bool :=
  transaction (
    current ← gets (credential_revision tenant);
    count ← gets (λ d, rowcount (has_key cw_tenant tenant) (id_credentials d));
    modify (λ d, d <| id_credentials := delete_rows (has_key cw_tenant tenant) (id_credentials d) |>);;
    (if (count =? 1)%nat then
       modify (λ d, d <| id_epochs := upsert ew_tenant (EpochRow tenant (current + 1)) (id_epochs d) |>)
     else mret tt);;
    mret (count =? 1)%nat).
End Store.

Definition login_at (tenant id : string) (r : login_row) : bool :=
  (dl_tenant (lw_login r) == tenant) && (lw_id r == id).
Definition create_device_login (l : device_login) (now : Z) : M inference_db unit :=
  try_modify (λ d, t ← insert_row (λ x y, lw_id x == lw_id y) (LoginRow l now) (id_logins d);
                   Some (d <| id_logins := t |>)) (IntegrityError "UNIQUE constraint failed").
Definition load_device_login (tenant id : string) (d : inference_db) : option device_login :=
  lw_login <$> select_one (login_at tenant id) (id_logins d).
Definition update_device_login (l : device_login) (now : Z) : M inference_db unit :=
  let p := login_at (dl_tenant l) (dl_id l) in
  count ← gets (λ d, rowcount p (id_logins d));
  modify (λ d, d <| id_logins := update p (λ _, LoginRow l now) (id_logins d) |>);;
  unless (count =? 1)%nat (KeyError "device login not found").
Definition delete_device_login (tenant id : string) : M inference_db bool :=
  let p := login_at tenant id in
  count ← gets (λ d, rowcount p (id_logins d));
  modify (λ d, d <| id_logins := delete_rows p (id_logins d) |>);;
  mret (count =? 1)%nat.

(** ** Invariant and progress

    A credential carries the epoch of its tenant; an epoch is never counted
    down, and what a tenant is connected with changes only with its epoch. *)

Record inference_ok (d : inference_db) : Prop := {
  io_credentials : unique cw_tenant (id_credentials d);
  io_epochs : unique ew_tenant (id_epochs d);
  io_logins : unique lw_id (id_logins d);
  io_revision r : r ∈ id_credentials d → credential_revision (cw_tenant r) d = cw_revision r;
  io_positive e : e ∈ id_epochs d → 1 <= ew_revision e;
}.
Definition credential_at (tenant : string) (d : inference_db) : option credential_row :=
  row_at cw_tenant tenant (id_credentials d).
Definition inference_advance (d d' : inference_db) : Prop := ∀ tenant,
  credential_revision tenant d <= credential_revision tenant d' ∧
  (credential_revision tenant d = credential_revision tenant d' → credential_at tenant d' = credential_at tenant d).

Lemma inference_advance_refl d : inference_advance d d.
Proof. by split. Qed.
Lemma inference_advance_trans a b c : inference_advance a b → inference_advance b c → inference_advance a c.
Proof.
  intros Hab Hbc tenant. destruct (Hab tenant) as [H1 H2], (Hbc tenant) as [H3 H4]. split; [lia|].
  intros Heq. rewrite H4, H2 by lia. done.
Qed.
Lemma no_inference_ok : inference_ok no_inference.
Proof. split; try constructor; intros ? []%elem_of_nil. Qed.

Lemma credential_revision_nonneg tenant d : inference_ok d → 0 <= credential_revision tenant d.
Proof.
  intros Hd. unfold credential_revision. destruct (row_at _ _ _) as [e|] eqn:E; simpl; [|lia].
  apply row_at_Some in E as [He _]. apply (io_positive d Hd) in He. lia.
Qed.
Lemma connected_at tenant d : connected tenant d = bool_decide (is_Some (credential_at tenant d)).
Proof.
  unfold connected, credential_at. destruct (row_at cw_tenant tenant _) as [r|] eqn:E.
  - rewrite bool_decide_eq_true_2 by eauto. apply row_at_Some in E as [Hr Hk].
    apply exists_row_true. exists r. by rewrite has_key_true.
  - rewrite bool_decide_eq_false_2 by (intros [? ?]; done). by apply exists_row_false, select_one_None.
Qed.

(** The database with the row of a tenant and its epoch replaced. *)
Definition with_epoch (e : epoch_row) (l : list credential_row) (d : inference_db) : inference_db :=
  d <| id_credentials := l |> <| id_epochs := upsert ew_tenant e (id_epochs d) |>.
Lemma revision_with_epoch e l d tenant :
  credential_revision tenant (with_epoch e l d) =
    if ew_tenant e == tenant then ew_revision e else credential_revision tenant d.
Proof.
  unfold credential_revision. simpl. case_bool_decide as E.
  - subst tenant. by rewrite row_at_upsert.
  - by rewrite row_at_upsert_other.
Qed.
Lemma with_epoch_kept e l d :
  inference_ok d → ew_revision e = credential_revision (ew_tenant e) d + 1 → unique cw_tenant l →
  (∀ tenant, tenant ≠ ew_tenant e → row_at cw_tenant tenant l = credential_at tenant d) →
  (∀ r, row_at cw_tenant (ew_tenant e) l = Some r → cw_revision r = ew_revision e) →
  inference_ok (with_epoch e l d) ∧ inference_advance d (with_epoch e l d).
Proof.
  intros Hd He Hl Hother Hown. pose proof (credential_revision_nonneg (ew_tenant e) d Hd) as Hpos. split.
  - split; simpl; [done|by apply unique_upsert, Hd|apply Hd| |].
    + intros r Hr. rewrite revision_with_epoch.
      assert (row_at cw_tenant (cw_tenant r) l = Some r) as Hrow.
      { destruct (row_at cw_tenant (cw_tenant r) l) as [r'|] eqn:E.
        - apply row_at_Some in E as [Hr' Hk]. f_equal. by apply (unique_eq cw_tenant l).
        - apply row_at_None in E. exfalso. apply E, list_elem_of_fmap. eauto. }
      case_bool_decide as E; [symmetry; apply Hown; by rewrite E|].
      rewrite Hother in Hrow by congruence. apply row_at_Some in Hrow as [Hrow _]. by apply Hd.
    + intros x [Hx|Hx]%in_upsert; [subst x; lia|by apply Hd].
  - intros tenant. rewrite revision_with_epoch. case_bool_decide as E; [subst tenant; split; lia|].
    split; [done|]. intros _. unfold credential_at. simpl. by rewrite Hother.
Qed.

Section Steps.
Context `{HostKeySecretCipher}.

Lemma credential_from_row_Ok tenant r c :
  credential_from_row tenant r = Ok c → cc_revision c = cw_revision r ∧ check_credential c = Ok c.
Proof.
  unfold credential_from_row. destruct (decrypt_payload _ _) as [v|]; [|done]. cbn [mbind outcome_mbind].
  destruct (member "access_token" v), (member "refresh_token" v), (member "expires_at" v); try done. cbn [mbind outcome_mbind].
  destruct (from_isoformat _); [|done]. unfold check_credential. case_match eqn:E; [done|]. intros [= <-].
  simpl in *. by rewrite E.
Qed.

Definition written (tenant : string) (c : codex_credential) (nonce : string) (now : Z) (d : inference_db) : inference_db :=
  with_epoch (EpochRow tenant (cc_revision c))
    (upsert cw_tenant (CredentialRow tenant (cc_revision c)
       (encrypt_payload nonce (credential_payload c) (credential_aad tenant)) (cc_expires c) now) (id_credentials d)) d.
Lemma write_credential_run tenant c nonce now d : write_credential tenant c nonce now d = (written tenant c nonce now d, Ok tt).
Proof. done. Qed.
Lemma written_kept tenant c nonce now d :
  inference_ok d → cc_revision c = credential_revision tenant d + 1 →
  inference_ok (written tenant c nonce now d) ∧ inference_advance d (written tenant c nonce now d).
Proof.
  intros Hd Hc. apply with_epoch_kept; simpl; [done|done|by apply unique_upsert, Hd| |].
  - intros t Ht. by apply row_at_upsert_other.
  - intros r Hr. pose proof (row_at_upsert cw_tenant (CredentialRow tenant (cc_revision c)
      (encrypt_payload nonce (credential_payload c) (credential_aad tenant)) (cc_expires c) now) (id_credentials d)) as E.
    simpl in E. rewrite E in Hr. by injection Hr as <-.
Qed.

(** What each operation does. *)
Lemma save_credential_run tenant c nonce now d :
  save_credential tenant c nonce now d =
    let saved := c <| cc_revision := credential_revision tenant d + 1 |> in
    match check_credential saved with
    | Ok _ => (written tenant saved nonce now d, Ok saved)
    | Err e => (d, Err e)
    end.
Proof.
  unfold save_credential. rewrite run_transaction, run_gets_bind, run_outcome_bind. cbv zeta.
  destruct (check_credential _) as [s|e] eqn:E; [|done]. unfold check_credential in E. case_match; [done|].
  by injection E as <-.
Qed.
Lemma refresh_credential_run tenant refresh force nonce now d :
  refresh_credential tenant refresh force nonce now d =
    match credential_at tenant d with
    | None => (d, Err (OtherException "FileNotFoundError" "Codex is not connected"))
    | Some r =>
        match credential_from_row tenant r with
        | Err e => (d, Err e)
        | Ok current =>
            if negb force && negb (expires_soon current now) then (d, Ok current)
            else
              match refresh current with
              | Err e => (d, Err e)
              | Ok refreshed =>
                  let saved := refreshed <| cc_revision := cc_revision current + 1 |> in
                  match check_credential saved with
                  | Ok _ => (written tenant saved nonce now d, Ok saved)
                  | Err e => (d, Err e)
                  end
              end
        end
    end.
Proof.
  unfold refresh_credential. rewrite run_transaction, run_gets_bind. unfold credential_at.
  destruct (row_at cw_tenant tenant _) as [r|]; [|done]. rewrite run_outcome_bind.
  destruct (credential_from_row tenant r) as [current|]; [|done]. destruct (negb force && _); [done|].
  rewrite run_outcome_bind. destruct (refresh current) as [refreshed|]; [|done]. rewrite run_outcome_bind. cbv zeta.
  destruct (check_credential _) as [s|e] eqn:E; [|done]. unfold check_credential in E. case_match; [done|].
  by injection E as <-.
Qed.
Lemma delete_credential_run tenant d :
  inference_ok d →
  delete_credential tenant d =
    if connected tenant d then
      (with_epoch (EpochRow tenant (credential_revision tenant d + 1))
         (delete_rows (has_key cw_tenant tenant) (id_credentials d)) d, Ok true)
    else (d, Ok false).
Proof.
  intros Hd. unfold delete_credential. rewrite run_transaction, !run_gets_bind, run_modify_bind, run_bind.
  rewrite rowcount_key by apply Hd. rewrite connected_at. unfold credential_at.
  destruct (row_at cw_tenant tenant (id_credentials d)) as [r|] eqn:E.
  - rewrite bool_decide_eq_true_2 by eauto. done.
  - rewrite bool_decide_eq_false_2 by (intros [? ?]; done). rewrite delete_absent by done. by destruct d.
Qed.
Lemma deleted_kept tenant d :
  inference_ok d →
  let d' := with_epoch (EpochRow tenant (credential_revision tenant d + 1))
              (delete_rows (has_key cw_tenant tenant) (id_credentials d)) d in
  inference_ok d' ∧ inference_advance d d'.
Proof.
  intros Hd. apply with_epoch_kept; simpl; [done|done|by apply unique_delete_rows, Hd| |].
  - intros t Ht. by apply row_at_deleted_other.
  - intros r. by rewrite row_at_deleted.
Qed.
End Steps.

(** ** Histories *)

Section Histories.
Context `{HostKeySecretCipher}.

(** A call of the store, with any arguments and any answer of the provider. *)
Inductive inference_step : inference_db → inference_db → Prop :=
  | step_save tenant c nonce now d : inference_step d (save_credential tenant c nonce now d).1
  | step_refresh tenant refresh force nonce now d :
      inference_step d (refresh_credential tenant refresh force nonce now d).1
  | step_delete tenant d : inference_step d (delete_credential tenant d).1
  | step_create_login l now d : inference_step d (create_device_login l now d).1
  | step_update_login l now d : inference_step d (update_device_login l now d).1
  | step_delete_login tenant id d : inference_step d (delete_device_login tenant id d).1.

Lemma logins_kept l d :
  inference_ok d → unique lw_id l → inference_ok (d <| id_logins := l |>) ∧ inference_advance d (d <| id_logins := l |>).
Proof. intros [] Hl. split; [by split|by split]. Qed.

Lemma inference_step_kept d d' : inference_step d d' → inference_ok d → inference_ok d' ∧ inference_advance d d'.
Proof.
  assert (∀ d, inference_ok d → inference_ok d ∧ inference_advance d d) as Hrefl.
  { intros x Hx. split; [done|apply inference_advance_refl]. }
  intros [tenant c nonce now x|tenant refresh force nonce now x|tenant x|l now x|l now x|tenant id x] Hd.
  - rewrite save_credential_run. cbv zeta. destruct (check_credential _); [|by apply Hrefl]. by apply written_kept.
  - rewrite refresh_credential_run. destruct (credential_at tenant x) as [r|] eqn:Er; [|by apply Hrefl].
    destruct (credential_from_row tenant r) as [current|] eqn:Ec; [|by apply Hrefl]. case_match; [by apply Hrefl|].
    destruct (refresh current) as [new|]; [|by apply Hrefl]. cbv zeta.
    destruct (check_credential _); [|by apply Hrefl]. apply written_kept; [done|]. simpl.
    apply credential_from_row_Ok in Ec as [-> _]. apply row_at_Some in Er as [Hr <-]. by rewrite (io_revision x Hd r Hr).
  - rewrite delete_credential_run by done. case_match; [by apply deleted_kept|by apply Hrefl].
  - unfold create_device_login, try_modify. destruct (insert_row _ _ _) as [t|] eqn:E; [|by apply Hrefl].
    apply insert_row_Some in E as [-> Hc]. apply logins_kept; [done|]. apply unique_app; [apply Hd|].
    intros r Hr Heq. specialize (Hc r Hr). by rewrite bool_decide_eq_true_2 in Hc.
  - unfold update_device_login. run. apply logins_kept; [done|]. unfold unique. rewrite fmap_update; [apply Hd|].
    intros r _ [_ Hr%bool_decide_eq_true]%andb_true_iff. done.
  - apply logins_kept; [done|]. apply unique_delete_rows, Hd.
Qed.
Lemma inference_steps_kept d d' :
  rtc inference_step d d' → inference_ok d → inference_ok d' ∧ inference_advance d d'.
Proof.
  induction 1 as [d|d d1 d' Hs _ IH]; intros Hd; [split; [done|apply inference_advance_refl]|].
  destruct (inference_step_kept _ _ Hs Hd) as [Hd1 H1]. destruct (IH Hd1) as [Hd' H2].
  split; [done|by eapply inference_advance_trans].
Qed.
End Histories.

(** ** What the store promises *)

Section Promises.
Context `{CipherLaws}.

Lemma payload_keyed c : well_keyed (credential_payload c).
Proof.
  constructor; [simpl; refine (bool_decide_eq_true_1 _ _); vm_compute; reflexivity|].
  repeat constructor; simpl; unfold optional_json; case_match; constructor.
Qed.
Lemma payload_canonical c :
  canonical (credential_payload c) =
    JObj [("access_token", JStr (cc_access c)); ("account_id", optional_json JStr (cc_account c));
          ("expires_at", JStr (utc_isoformat (cc_expires c))); ("id_token", optional_json JStr (cc_id c));
          ("refresh_token", JStr (cc_refresh c))].
Proof. destruct c as [a r [i|] [n|] e v]; reflexivity. Qed.
Lemma decrypt_payload_round_trip nonce v ad :
  well_keyed v → is_object v = true → decrypt_payload (encrypt_payload nonce v ad) ad = Ok (canonical v).
Proof.
  intros Hv Ho. unfold decrypt_payload, encrypt_payload. rewrite cipher_round_trip. cbn [mbind outcome_mbind].
  rewrite utf8_round_trip. cbn [mbind option_bind]. rewrite loads_dumps by done. by rewrite is_object_canonical, Ho.
Qed.
Lemma optional_text_read key o v :
  jget key v = Some (optional_json JStr o) → o ≠ Some "" → optional_text key v = o.
Proof.
  intros Hj Ho. unfold optional_text. rewrite Hj. destruct o as [s|]; [|done]. simpl.
  by rewrite bool_decide_eq_false_2 by congruence.
Qed.

(** A credential that can be written: its instant is one of [datetime], and no text of it is empty. *)
Definition writable (c : codex_credential) : Prop :=
  check_credential c = Ok c ∧ representable (cc_expires c) ∧ cc_id c ≠ Some "" ∧ cc_account c ≠ Some "".

Lemma credential_read_back tenant c nonce now :
  writable c →
  credential_from_row tenant (CredentialRow tenant (cc_revision c)
    (encrypt_payload nonce (credential_payload c) (credential_aad tenant)) (cc_expires c) now) = Ok c.
Proof.
  intros (Hc & Hr & Hi & Ha). unfold credential_from_row. cbn [cw_sealed cw_revision].
  rewrite decrypt_payload_round_trip by (done || apply payload_keyed). rewrite payload_canonical. cbn [mbind outcome_mbind].
  set (v := JObj _).
  replace (member "access_token" v) with (Ok (JStr (cc_access c))) by reflexivity.
  replace (member "refresh_token" v) with (Ok (JStr (cc_refresh c))) by reflexivity.
  replace (member "expires_at" v) with (Ok (JStr (utc_isoformat (cc_expires c)))) by reflexivity.
  cbn [mbind outcome_mbind py_str]. rewrite from_utc_isoformat by done.
  rewrite (optional_text_read "id_token" (cc_id c)), (optional_text_read "account_id" (cc_account c)) by done.
  by destruct c.
Qed.
Lemma written_row tenant c nonce now d :
  row_at cw_tenant tenant (id_credentials (written tenant c nonce now d)) =
    Some (CredentialRow tenant (cc_revision c)
      (encrypt_payload nonce (credential_payload c) (credential_aad tenant)) (cc_expires c) now).
Proof. apply (row_at_upsert cw_tenant (CredentialRow _ _ _ _ _)). Qed.
Lemma written_loads tenant c nonce now d :
  writable c → load_credential tenant (written tenant c nonce now d) = (written tenant c nonce now d, Ok (Some c)).
Proof.
  intros Hc. unfold load_credential. rewrite run_gets_bind, written_row, run_outcome_bind. by rewrite credential_read_back.
Qed.
Lemma written_others tenant other c nonce now d :
  tenant ≠ other → (load_credential other (written tenant c nonce now d)).2 = (load_credential other d).2.
Proof.
  intros Hne. unfold load_credential. rewrite !run_gets_bind.
  assert (row_at cw_tenant other (id_credentials (written tenant c nonce now d)) =
    row_at cw_tenant other (id_credentials d)) as -> by by apply row_at_upsert_other.
  destruct (row_at cw_tenant other _); [|done]. rewrite !run_outcome_bind. by destruct (credential_from_row _ _).
Qed.

(** C14: Over every history of the store, the revision of a tenant is never
    counted down, a connected tenant's credential carries it, and as long as it
    stays what it is the tenant is connected with the same sealed credential:
    a revision names one credential, also across disconnections. *)
Theorem credential_epochs d d' tenant :
  rtc inference_step no_inference d → rtc inference_step d d' →
  credential_revision tenant d <= credential_revision tenant d' ∧
  (∀ r, credential_at tenant d = Some r → cw_revision r = credential_revision tenant d) ∧
  (credential_revision tenant d = credential_revision tenant d' → credential_at tenant d' = credential_at tenant d).
Proof.
  intros Hd Hd'. destruct (inference_steps_kept _ _ Hd no_inference_ok) as [Hok _].
  destruct (inference_steps_kept _ _ Hd' Hok) as [_ Ha]. destruct (Ha tenant) as [H1 H2]. split_and!; [done| |done].
  intros r [Hr <-]%row_at_Some. by rewrite (io_revision d Hok r Hr).
Qed.

(** A credential that is saved, its optional texts not empty and its expiry one
    that [datetime] represents, is the one read back, whatever the cipher's nonce: through the JSON text, its UTF-8, the cipher under
    the tenant's associated data and the text of its expiry. It has the next
    revision, and every other tenant's credential stays as it was. *)
Theorem saved_credential_loads tenant c nonce now d d' saved :
  save_credential tenant c nonce now d = (d', Ok saved) → representable (cc_expires c) →
  cc_id c ≠ Some "" → cc_account c ≠ Some "" →
  saved = c <| cc_revision := credential_revision tenant d + 1 |> ∧
  load_credential tenant d' = (d', Ok (Some saved)) ∧ credential_revision tenant d' = cc_revision saved ∧
  ∀ other, tenant ≠ other → (load_credential other d').2 = (load_credential other d).2.
Proof.
  rewrite save_credential_run. cbv zeta. set (s := c <| cc_revision := _ |>).
  destruct (check_credential s) as [s'|] eqn:Es; [|done]. intros [= <- <-] Hr Hi Ha.
  assert (s' = s) as -> by (unfold check_credential in Es; case_match; congruence).
  split; [done|]. split; [apply written_loads; by split|]. split.
  - unfold written. rewrite revision_with_epoch. by rewrite bool_decide_eq_true_2.
  - intros other Hne. by apply written_others.
Qed.

(** Refreshing asks the provider with the tokens that are stored and no
    others, once they expire or when forced: without a credential, or when the
    provider refuses, nothing changes; otherwise what it answered is stored
    with the next revision and is what the next refresh asks with. *)
Theorem refresh_rotates tenant refresh force nonce now d current :
  load_credential tenant d = (d, Ok (Some current)) →
  refresh_credential tenant refresh force nonce now d =
    (if negb force && negb (cc_expires current - 300000000 <=? now) then (d, Ok current)
     else match refresh current with
          | Err e => (d, Err e)
          | Ok new =>
              if (cc_access new == "") || (cc_refresh new == "") then (d, Err (ValueError "Codex credential is missing a token"))
              else let saved := new <| cc_revision := cc_revision current + 1 |> in (written tenant saved nonce now d, Ok saved)
          end) ∧
  ∀ new, refresh current = Ok new → writable (new <| cc_revision := cc_revision current + 1 |>) →
    negb force && negb (cc_expires current - 300000000 <=? now) = false →
    load_credential tenant (refresh_credential tenant refresh force nonce now d).1 =
      ((refresh_credential tenant refresh force nonce now d).1, Ok (Some (new <| cc_revision := cc_revision current + 1 |>))).
Proof.
  intros Hl. rewrite refresh_credential_run. unfold load_credential in Hl. rewrite run_gets_bind in Hl.
  unfold credential_at. destruct (row_at cw_tenant tenant _) as [r|]; [|done]. rewrite run_outcome_bind in Hl.
  destruct (credential_from_row tenant r) as [c|]; [|done]. injection Hl as ->. split.
  - unfold expires_soon. case_match; [done|]. destruct (refresh current) as [new|]; [|done]. cbv zeta.
    unfold check_credential. simpl cc_access. simpl cc_refresh.
    by destruct ((cc_access new == "") || (cc_refresh new == "")).
  - intros new Hnew Hw Hb. unfold expires_soon. rewrite Hb, Hnew. cbv zeta. rewrite (proj1 Hw).
    apply (written_loads tenant _ nonce now d Hw).
Qed.
End Promises.

(** ** A tenant that connects, refreshes, disconnects and connects again *)

#[local] Existing Instance sample_cipher.
Definition sample_credential : codex_credential :=
  CodexCredential "access-1" "refresh-1" None (Some "account") 1767225600000000 1.
Definition sample_connected : inference_db :=
  Eval vm_compute in (save_credential "tenant_1" sample_credential "nonce-1" 1767225000000000 no_inference).1.
Definition sample_rotation (c : codex_credential) : outcome codex_credential :=
  Ok (c <| cc_access := "access-2" |> <| cc_refresh := cc_refresh c +:+ "+" |> <| cc_expires := 1767229200000000 |>).
Definition sample_reconnected : inference_db :=
  Eval vm_compute in (save_credential "tenant_1" sample_credential "nonce-2" 1767225002000000
    (delete_credential "tenant_1" sample_connected).1).1.

Lemma sample_connected_steps : rtc inference_step no_inference sample_connected.
Proof. apply rtc_once. exact (step_save "tenant_1" sample_credential "nonce-1" 1767225000000000 no_inference). Qed.
Lemma sample_reconnected_steps : rtc inference_step sample_connected sample_reconnected.
Proof.
  eapply rtc_l; [exact (step_delete "tenant_1" sample_connected)|]. apply rtc_once.
  exact (step_save "tenant_1" sample_credential "nonce-2" 1767225002000000 (delete_credential "tenant_1" sample_connected).1).
Qed.

Lemma credential_epochs_witness :
  credential_revision "tenant_1" sample_connected = 1 ∧ credential_revision "tenant_1" sample_reconnected = 3 ∧
  credential_revision "tenant_1" sample_connected <= credential_revision "tenant_1" sample_reconnected.
Proof.
  split_and!; [reflexivity..|].
  apply (credential_epochs sample_connected sample_reconnected "tenant_1" sample_connected_steps sample_reconnected_steps).
Defined.
Lemma saved_credential_loads_witness :
  save_credential "tenant_1" sample_credential "nonce-1" 1767225000000000 no_inference = (sample_connected, Ok sample_credential) ∧
  load_credential "tenant_1" sample_connected = (sample_connected, Ok (Some sample_credential)).
Proof.
  split; [vm_compute; reflexivity|].
  apply (saved_credential_loads "tenant_1" sample_credential "nonce-1" 1767225000000000 no_inference sample_connected
    sample_credential); [vm_compute; reflexivity|unfold representable; simpl; lia|done|done].
Defined.
Lemma refresh_rotates_witness :
  load_credential "tenant_1" sample_connected = (sample_connected, Ok (Some sample_credential)) ∧
  refresh_credential "tenant_1" sample_rotation false "nonce-3" 1767225000000000 sample_connected =
    (sample_connected, Ok sample_credential) ∧
  (refresh_credential "tenant_1" sample_rotation false "nonce-3" 1767225400000000 sample_connected).2 =
    Ok (CodexCredential "access-2" "refresh-1+" None (Some "account") 1767229200000000 2).
Proof.
  split; [vm_compute; reflexivity|].
  destruct (refresh_rotates "tenant_1" sample_rotation false "nonce-3" 1767225000000000 sample_connected sample_credential)
    as [-> _]; [vm_compute; reflexivity|]. split; [reflexivity|].
  destruct (refresh_rotates "tenant_1" sample_rotation false "nonce-3" 1767225400000000 sample_connected sample_credential)
    as [-> _]; [vm_compute; reflexivity|]. reflexivity.
Defined.
