(* ===== verification/InferenceService.v ===== *)
(** * Providers and device logins ([inference/service.py])

    The service over the credential store: the model catalog of a connected
    account, the selections it accepts, the cache of models, and the device
    login from its start to the credential. What the provider answers is an
    argument, and so is what happens to the service while an answer is waited
    for. Polling intervals are in microseconds. *)

From S2P Require Import Prelude Sqlite PyText Clock Json PyJson Cipher InferenceModels InferenceStore.
#[local] Open Scope string_scope.
#[local] Open Scope list_scope.
#[local] Open Scope Z_scope.

(** ** The model catalog *)

Record service_tier := InferenceServiceTier { it_id : string; it_name : string; it_description : string }.
#[global] Instance service_tier_eq_dec : EqDecision service_tier.
Proof. solve_decision. Defined.
Record inference_model := InferenceModel {
  im_provider : provider;
  im_id : string;
  im_efforts : list string;
  im_default_effort : option string;
  im_tiers : list service_tier;
  im_default_tier : option string;
}.
#[global] Instance inference_model_eq_dec : EqDecision inference_model.
Proof. solve_decision. Defined.

(** The length limits of the two models. *)
Definition check_tier (t : service_tier) : outcome service_tier :=
  if (len (it_id t) <=? 50) && (len (it_name t) <=? 80) && (len (it_description t) <=? 500) then Ok t
  else Err (ValidationError "InferenceServiceTier").
Definition check_model (m : inference_model) : outcome inference_model :=
  if len (im_id m) <=? 300 then Ok m else Err (ValidationError "InferenceModel").

(** [int(v)]: a text is a signed decimal number with single underscores inside. *)
Fixpoint int_digits (after_digit : bool) (n : Z) (s : string) : option Z :=
  match s with
  | EmptyString => if after_digit then Some n else None
  | String c s' =>
      if ((48 <=? code c) && (code c <=? 57))%N then int_digits true (n * 10 + Z.of_N (code c - 48)) s'
      else if (code c =? 95)%N && after_digit then int_digits false n s' else None
  end.
Definition int_text (s : string) : option Z :=
  match strip s with
  | String c s' =>
      if (code c =? 45)%N then Z.opp <$> int_digits false 0 s'
      else if (code c =? 43)%N then int_digits false 0 s'
      else int_digits false 0 (String c s')
  | EmptyString => None
  end.
Definition py_int (v : json) : option Z :=
  match v with
  | JInt z => Some z
  | JBool b => Some (if b then 1 else 0)
  | JStr s => int_text s
  | _ => None
  end.
Example int_texts : int_text <$> [" 1_000 "; "-7"; "1__0"; "x"; "_1"] = [Some 1000; Some (-7); None; None; None].
Proof. vm_compute. reflexivity. Qed.

(** [for item in v] *)
Definition iterate (v : json) : outcome (list json) :=
  match v with
  | JArr l => Ok l
  | JObj l => Ok ((λ kv, JStr kv.1) <$> l)
  | JStr s => Ok ((λ c, JStr (String c EmptyString)) <$> list_ascii_of_string s)
  | _ => Err (TypeError "object is not iterable")
  end.

(** [_reasoning_efforts] *)
Definition effort_text (item : json) : string :=
  match item with
  | JObj _ => strip (py_str (py_or (jget "reasoning_effort" item) (py_or (jget "effort" item) (JStr ""))))
  | _ => strip (py_str (py_or (Some item) (JStr "")))
  end.
Definition distinct_efforts : list string → list string :=
  foldl (λ efforts effort, if (effort == "") || bool_decide (effort ∈ efforts) then efforts else efforts ++ [effort]) [].
Definition reasoning_efforts (raw : json) : list string :=
  let value := py_or (jget "supported_reasoning_levels" raw)
                 (py_or (jget "supported_reasoning_efforts" raw) (py_or (jget "reasoning_efforts" raw) (JArr []))) in
  match value with
  | JArr l => distinct_efforts (effort_text <$> l)
  | JObj l => distinct_efforts ((λ kv, effort_text (JStr kv.1)) <$> l)
  | _ => []
  end.
Example efforts_of_any_case :
  reasoning_efforts (JObj [("reasoning_efforts", JArr [JStr "low"; JStr " Low"; JStr ""; JStr "low "])]) = ["low"; "Low"].
Proof. vm_compute. reflexivity. Qed.

(** [_service_tiers] *)
Fixpoint tiers_of (seen : list string) (l : list json) : outcome (list service_tier) :=
  match l with
  | [] => Ok []
  | item :: l' =>
      match item with
      | JObj _ =>
          let id := strip (text_or "id" "" item) in
          let name := strip (text_or "name" id item) in
          let description := strip (text_or "description" "" item) in
          if (id == "") || (name == "") || bool_decide (id ∈ seen) then tiers_of seen l'
          else
            tier ← check_tier (InferenceServiceTier id name description);
            tiers ← tiers_of (id :: seen) l';
            Ok (tier :: tiers)
      | _ => tiers_of seen l'
      end
  end.
Definition service_tiers (raw : json) : outcome (list service_tier) :=
  match py_or (jget "service_tiers" raw) (JArr []) with JArr l => tiers_of [] l | _ => Ok [] end.

(** An account's model with its priority; [None] for what is not offered. *)
Definition nonempty_text (s : string) : option string := if s == "" then None else Some s.
Definition ranked_model (raw : json) : outcome (option (Z * inference_model)) :=
  match raw with
  | JObj _ =>
      let id := strip (py_str (py_or (jget "slug" raw) (py_or (jget "id" raw) (JStr "")))) in
      let visibility := casefold (strip (text_or "visibility" "" raw)) in
      if (id == "") || bool_decide (visibility ∈ ["hide"; "hidden"]) then Ok None
      else
        let efforts := reasoning_efforts raw in
        let effort := nonempty_text (strip (py_str (py_or (jget "default_reasoning_level" raw)
                        (py_or (jget "default_reasoning_effort" raw) (JStr ""))))) in
        let effort := match effort with
                      | Some e => if negb (bool_decide (efforts = [])) && negb (bool_decide (e ∈ efforts)) then None else Some e
                      | None => None
                      end in
        tiers ← service_tiers raw;
        let tier := nonempty_text (strip (text_or "default_service_tier" "" raw)) in
        let tier := match tier with Some t => if bool_decide (t ∈ it_id <$> tiers) then Some t else None | None => None end in
        let priority := match jget "priority" raw with Some p => default 10000 (py_int p) | None => 10000 end in
        model ← check_model (InferenceModel CodexProvider id efforts effort tiers tier);
        Ok (Some (priority, model))
  | _ => Ok None
  end.
Definition model_order (a b : Z * inference_model) : bool :=
  (a.1 <? b.1) || ((a.1 =? b.1) && text_le (im_id a.2) (im_id b.2)).
Definition codex_catalog (payload : json) : outcome (list inference_model) :=
  raws ← (match payload with JObj _ => iterate (default (JArr []) (jget "models" payload)) | _ => Ok [] end);
  ranked ← all_ok (ranked_model <$> raws);
  match snd <$> order_by model_order (omap id ranked) with
  | [] => Err (OtherException "CodexProviderError" "Codex returned no available models for this account")
  | l => Ok l
  end.

Example catalog_sample :
  codex_catalog (JObj [("models", JArr [JObj [("slug", JStr "b")]; JStr "x"; JObj [("id", JStr "c"); ("visibility", JStr "HIDE")];
      JObj [("id", JStr "a "); ("priority", JStr "5"); ("supported_reasoning_levels", JArr [JStr "low"; JObj [("effort", JStr "high")]; JStr "low"]);
            ("default_reasoning_level", JStr "low"); ("service_tiers", JArr [JObj [("id", JStr "fast")]])]])]) =
  Ok [InferenceModel CodexProvider "a" ["low"; "high"] (Some "low") [InferenceServiceTier "fast" "fast" ""] None;
      InferenceModel CodexProvider "b" [] None [] None].
Proof. vm_compute. reflexivity. Qed.

(** ** The service *)

Record model_key := ModelKey {
  mk_tenant : string;
  mk_revision : Z;
  mk_model : string;
  mk_effort : option string;
  mk_tier : option string;
  mk_fallback : bool;
}.
#[global] Instance model_key_eq_dec : EqDecision model_key.
Proof. solve_decision. Defined.
(** What [build_codex_model] is called with, and the tenant of its token provider. *)
Record resolved_model := ResolvedModel {
  rm_tenant : string;
  rm_model : string;
  rm_effort : option string;
  rm_tier : option string;
  rm_buffered : bool;
}.
Definition build_model (tenant : string) (s : inference_selection) : resolved_model :=
  ResolvedModel tenant (is_model s) (is_effort s) (is_tier s) (is_fallback s).

(** The caches are ordered by their last use; [sv_catalogs] has the time each catalog was fetched. *)
Record service := Service {
  sv_db : inference_db;
  sv_models : list (model_key * resolved_model);
  sv_catalogs : list (string * Z * (Z * list inference_model));
}.
#[global] Instance service_fields : Fields service := λ s, Service (sv_db s) (sv_models s) (sv_catalogs s).
Definition new_service : service := Service no_inference [] [].

Definition unavailable : exn := OtherException "InferenceUnavailableError" "Codex is not connected".
Definition model_cache_limit : nat := 24.
Definition catalog_ttl : Z := 300000000.
Definition on_store {A} (m : M inference_db A) : M service A := zoom sv_db (λ d s, s <| sv_db := d |>) m.

(** [resolve_model] *)
Definition cache_lookup (k : model_key) (l : list (model_key * resolved_model)) : option resolved_model :=
  snd <$> select_one (λ e, e.1 == k) l.
Definition cache_without (k : model_key) (l : list (model_key * resolved_model)) : list (model_key * resolved_model) :=
  delete_rows (λ e, e.1 == k) l.
Definition resolve_model (tenant : string) (s : inference_selection) : M service resolved_model :=
  unless (is_provider s == CodexProvider) (ValueError "API models are resolved by the configured model factory");;
  revision ← gets (λ v, credential_revision tenant (sv_db v));
  is_connected ← gets (λ v, connected tenant (sv_db v));
  unless is_connected unavailable;;
  let k := ModelKey tenant revision (is_model s) (is_effort s) (is_tier s) (is_fallback s) in
  cached ← gets (λ v, cache_lookup k (sv_models v));
  match cached with
  | Some m => modify (λ v, v <| sv_models := cache_without k (sv_models v) ++ [(k, m)] |>);; mret m
  | None =>
      let m := build_model tenant s in
      modify (λ v, v <| sv_models := cache_without k (sv_models v) ++ [(k, m)] |>);;
      modify (λ v, v <| sv_models := drop (length (sv_models v) - model_cache_limit) (sv_models v) |>);;
      mret m
  end.

(** What the catalog's provider answers: to a refresh with the current
    credential, and to the request with a token, first and after a forced
    refresh; [Err] is what the HTTP client raised, and what decoding the body
    as JSON did. *)
Record catalog_answers := CatalogAnswers {
  ca_refresh : codex_credential → outcome codex_credential;
  ca_nonce : string;
  ca_request : bool → codex_credential → outcome (Z * outcome json);
}.
Definition authentication_error (message : string) : exn := OtherException "CodexAuthenticationError" message.
Definition provider_error (message : string) : exn := OtherException "CodexProviderError" message.
(** [except (TypeError, ValueError, httpx.HTTPError)]; an exception of another class is named. *)
Definition is_class (cls : string) (e : exn) : bool := match e with OtherException c _ => c == cls | _ => false end.
Definition http_failure (e : exn) : bool :=
  match e with TypeError _ | ValueError _ => true | e => is_class "HTTPError" e end.
Definition discovery_error (e : exn) : exn :=
  if http_failure e then provider_error "Codex model discovery failed" else e.

Section Service.
Context `{HostKeySecretCipher}.

(** [CodexTokenProvider.get_token] and [force_refresh] *)
Definition refreshed_token (tenant : string) (a : catalog_answers) (force : bool) (now : Z) : M service codex_credential :=
  try_except (on_store (refresh_credential tenant (ca_refresh a) force (ca_nonce a) now))
    (λ e, if is_class "FileNotFoundError" e then Some (raise (authentication_error "Codex is not connected")) else None).

(** [_codex_models] *)
Definition request_catalog (tenant : string) (a : catalog_answers) (now : Z) : M service json :=
  token ← refreshed_token tenant a false now;
  first ← from_outcome (ca_request a false token);
  answer ← (if first.1 =? 401 then
              refreshed_token tenant a true now;;
              token ← refreshed_token tenant a false now;
              from_outcome (ca_request a true token)
            else mret first);
  unless (negb (answer.1 =? 401)) (authentication_error "Codex authorization must be renewed");;
  unless (answer.1 <? 400) (provider_error "Codex model discovery failed");;
  from_outcome answer.2.
Definition catalog_at (k : string * Z) (v : service) : option (Z * list inference_model) :=
  snd <$> select_one (λ e, e.1 == k) (sv_catalogs v).
Definition fetch_catalog (tenant : string) (revision : Z) (a : catalog_answers) (now : Z) :
    M service (list inference_model) :=
  payload ← try_except (request_catalog tenant a now) (λ e, Some (raise (discovery_error e)));
  models ← from_outcome (codex_catalog payload);
  modify (λ v, v <| sv_catalogs := delete_rows (λ e, e.1 == (tenant, revision)) (sv_catalogs v) ++
                                     [((tenant, revision), (now, models))] |>);;
  mret models.
Definition codex_models (tenant : string) (a : catalog_answers) (now : Z) : M service (list inference_model) :=
  is_connected ← gets (λ v, connected tenant (sv_db v));
  unless is_connected unavailable;;
  revision ← gets (λ v, credential_revision tenant (sv_db v));
  cached ← gets (catalog_at (tenant, revision));
  match cached with
  | Some (fetched, models) =>
      if now - fetched <? catalog_ttl then mret models else fetch_catalog tenant revision a now
  | None => fetch_catalog tenant revision a now
  end.

(** [validate_selection] *)
Definition validate_selection (tenant : string) (s : inference_selection) (a : catalog_answers) (now : Z) :
    M service inference_selection :=
  if is_provider s == CodexProvider then
    is_connected ← gets (λ v, connected tenant (sv_db v));
    unless is_connected unavailable;;
    models ← codex_models tenant a now;
    match select_one (λ m, im_id m == is_model s) models with
    | None => raise (ValueError "Codex model is not available for this account")
    | Some m =>
        unless (match is_effort s with Some e => bool_decide (e ∈ im_efforts m) | None => true end)
          (ValueError "reasoning effort is not supported by this Codex model");;
        unless (match is_tier s with Some t => bool_decide (t ∈ it_id <$> im_tiers m) | None => true end)
          (ValueError "service tier is not supported by this Codex model");;
        mret s
    end
  else mret (s <| is_fallback := false |> <| is_tier := None |>).

(** [delete_credential] *)
Definition forget_tenant (tenant : string) : M service unit :=
  modify (λ v, v <| sv_catalogs := delete_rows (λ e, e.1.1 == tenant) (sv_catalogs v) |>
                 <| sv_models := delete_rows (λ e, mk_tenant e.1 == tenant) (sv_models v) |>).
Definition disconnect (tenant : string) : M service bool :=
  deleted ← on_store (delete_credential tenant);
  forget_tenant tenant;;
  mret deleted.

(** ** Device logins *)

(** [start_device_login]: the answer's payload, and what [float] and
    [fromisoformat] make of its interval and expiry. *)
Definition start_device_login (tenant fresh : string) (answer : outcome json) (interval expiry : option Z) (now : Z) :
    M service device_login :=
  payload ← from_outcome answer;
  unless (is_object payload) (provider_error "Codex returned an invalid device login response");;
  let auth := strip (text_or "device_auth_id" "" payload) in
  let user_code := strip (text_or "user_code" "" payload) in
  unless (negb (auth == "") && negb (user_code == "")) (provider_error "Codex returned an incomplete device login response");;
  let interval := match interval with Some i => Z.max 3000000 i | None => 5000000 end in
  let expires := match expiry with
                 | Some e => if now <? e then e else now + 30000000
                 | None => now + 900000000
                 end in
  let login := DeviceLogin fresh tenant LoginPending "https://auth.openai.com/codex/device" user_code auth interval now
                 expires None in
  on_store (create_device_login login now);;
  mret login.

(** What the provider answers to a poll: nothing, or a status and a payload;
    to the exchange, the credential it stands for. *)
Record login_answers := LoginAnswers {
  la_poll : option (Z * json);
  la_polled : Z;
  la_exchange : outcome codex_credential;
  la_exchanged : Z;
  la_nonce : string;
}.
Definition oauth_error_code (payload : json) : string :=
  match jget "error" payload with
  | Some (JObj l) => strip (py_str (py_or (assoc "code" l) (py_or (assoc "type" l) (JStr ""))))
  | o => strip (py_str (py_or o (JStr "")))
  end.
Definition save_login (l : device_login) (now : Z) : M service device_login :=
  on_store (update_device_login l now);; mret l.

(** [_exchange_device_login]; the exceptions it takes for a refusal. *)
Definition exchange_refused (e : exn) : bool := http_failure e || is_class "CodexAuthenticationError" e.
Definition failed_login (l : device_login) : device_login :=
  l <| dl_status := LoginFailed |> <| dl_error := Some "authorization_failed" |>.
Definition exchange_device_login (l : device_login) (a : login_answers) (others : M service unit) : M service device_login :=
  saved ← try_except
    ((λ v, ((others v).1, Ok tt)) ;;
     c ← from_outcome (la_exchange a);
     on_store (save_credential (dl_tenant l) c (la_nonce a) (la_exchanged a));;
     mret true)
    (λ e, if exchange_refused e then Some (mret false) else None);
  if negb saved then save_login (failed_login l) (la_exchanged a)
  else
    l' ← save_login (l <| dl_status := LoginAuthorized |> <| dl_error := None |>) (la_exchanged a);
    forget_tenant (dl_tenant l);;
    mret l'.

(** [_poll_device_login] *)
Definition poll_device_login (l : device_login) (a : login_answers) (others others' : M service unit) :
    M service device_login :=
  (λ v, ((others v).1, Ok tt)) ;;
  match la_poll a with
  | None => save_login (l <| dl_next := la_polled a + dl_interval l |>) (la_polled a)
  | Some (status, payload) =>
      let payload := if is_object payload then payload else JObj [] in
      let authorization := strip (text_or "authorization_code" "" payload) in
      let verifier := strip (text_or "code_verifier" "" payload) in
      if (status =? 200) && negb (authorization == "") && negb (verifier == "") then exchange_device_login l a others'
      else
        let error := oauth_error_code payload in
        let interval := dl_interval l + (if (status =? 429) || (error == "slow_down") then 5000000 else 0) in
        if bool_decide (status ∈ [403; 404; 429]) || bool_decide (error ∈ ["authorization_pending"; "slow_down"]) then
          save_login (l <| dl_interval := interval |> <| dl_next := la_polled a + interval |>) (la_polled a)
        else save_login (failed_login l) (la_polled a)
  end.

Definition expired_login (l : device_login) : device_login :=
  l <| dl_status := LoginExpired |> <| dl_error := Some "expired" |>.
(** [get_device_login]; [others] is what happens while the provider is polled, [others'] while the code is exchanged. *)
Definition get_device_login (tenant id : string) (a : login_answers) (others others' : M service unit) (now : Z) :
    M service (option device_login) :=
  found ← gets (λ v, load_device_login tenant id (sv_db v));
  match found with
  | None => mret None
  | Some l =>
      if negb (dl_status l == LoginPending) then mret (Some l)
      else if dl_expires l <=? now then
        l' ← save_login (expired_login l) now;
        mret (Some l')
      else if now <? dl_next l then mret (Some l)
      else l' ← poll_device_login l a others others'; mret (Some l')
  end.
Definition cancel_device_login (tenant id : string) : M service bool := on_store (delete_device_login tenant id).
End Service.

(** ** What the service keeps *)

Definition key_model (k : model_key) : resolved_model :=
  ResolvedModel (mk_tenant k) (mk_model k) (mk_effort k) (mk_tier k) (mk_fallback k).
(** A cached model is the one its key stands for, of a revision its tenant had. *)
Record service_ok (v : service) : Prop := {
  so_db : inference_ok (sv_db v);
  so_keys : NoDup (sv_models v).*1;
  so_bound : (length (sv_models v) ≤ model_cache_limit)%nat;
  so_models e : e ∈ sv_models v → e.2 = key_model e.1 ∧ mk_revision e.1 <= credential_revision (mk_tenant e.1) (sv_db v);
}.
Definition serves {A} (m : M service A) : Prop := preserves service_ok m.

Lemma new_service_ok : service_ok new_service.
Proof.
  split; simpl; [apply no_inference_ok|constructor|unfold model_cache_limit; lia|intros e []%elem_of_nil].
Qed.
Lemma service_ok_db v d :
  service_ok v → inference_ok d → inference_advance (sv_db v) d → service_ok (v <| sv_db := d |>).
Proof.
  intros [Hv Hk Hb Hm] Hd Ha. split; simpl; [done..|]. intros e He. destruct (Hm e He) as [H1 H2]. split; [done|].
  destruct (Ha (mk_tenant e.1)) as [H3 _]. lia.
Qed.
Lemma service_ok_models v l :
  service_ok v → NoDup l.*1 → (length l ≤ model_cache_limit)%nat →
  (∀ e, e ∈ l → e ∈ sv_models v ∨
    e.2 = key_model e.1 ∧ mk_revision e.1 <= credential_revision (mk_tenant e.1) (sv_db v)) →
  service_ok (v <| sv_models := l |>).
Proof. intros [Hv Hk Hb Hm] Hl Hn He. split; simpl; [done..|]. intros e H. destruct (He e H) as [?|?]; [by apply Hm|done]. Qed.
Lemma service_ok_catalogs v l : service_ok v → service_ok (v <| sv_catalogs := l |>).
Proof. intros [Hv Hk Hb Hm]. by split. Qed.

Create HintDb serves.
Lemma serves_ret {A} (a : A) : serves (mret a).
Proof. apply preserves_ret. Qed.
Lemma serves_raise {A} e : serves (raise (A := A) e).
Proof. apply preserves_raise. Qed.
Lemma serves_gets {A} (f : service → A) : serves (gets f).
Proof. apply preserves_gets. Qed.
Lemma serves_outcome {A} (o : outcome A) : serves (from_outcome o).
Proof. apply preserves_from_outcome. Qed.
Lemma serves_unless b e : serves (unless b e).
Proof. apply preserves_unless. Qed.
Lemma serves_bind {A B} (m : M service A) (k : A → M service B) : serves m → (∀ a, serves (k a)) → serves (m ≫= k).
Proof. intros Hm Hk. apply preserves_bind; auto. Qed.
Lemma serves_others (m : M service unit) : serves m → serves (λ v, ((m v).1, Ok tt)).
Proof. intros Hm v Hv. by apply Hm. Qed.
#[export] Hint Resolve serves_ret serves_raise serves_gets serves_outcome serves_unless serves_others : serves.

(** ** The model cache *)

Lemma cache_lookup_in k l m : cache_lookup k l = Some m → (k, m) ∈ l.
Proof.
  unfold cache_lookup. destruct (select_one _ l) as [[k' m']|] eqn:E; [|done]. intros [= <-].
  apply select_one_Some in E as [Hin Hk]. apply bool_decide_eq_true in Hk. simpl in Hk. by subst k'.
Qed.
Lemma cache_without_in k l e : e ∈ cache_without k l → e ∈ l ∧ e.1 ≠ k.
Proof. intros [He Hk]%elem_of_delete_rows. split; [done|]. by apply bool_decide_eq_false in Hk. Qed.
Lemma cache_put_keys k m l : NoDup l.*1 → NoDup (cache_without k l ++ [(k, m)]).*1.
Proof.
  intros Hl. rewrite fmap_app. apply NoDup_app. split; [by apply (unique_delete_rows fst)|]. split; [|apply NoDup_singleton].
  intros x (e & -> & He)%list_elem_of_fmap Hx%list_elem_of_singleton. by apply cache_without_in in He as [_ He].
Qed.
Lemma cache_without_length k l :
  (length (cache_without k l) ≤ length l)%nat ∧ (∀ m, (k, m) ∈ l → (length (cache_without k l) < length l)%nat).
Proof.
  unfold cache_without, delete_rows. induction l as [|e l [IH1 IH2]]; simpl; [split; [done|intros m []%elem_of_nil]|].
  split; [destruct (e.1 == k); simpl; lia|]. intros m [<-|Hm]%elem_of_cons.
  - simpl. rewrite bool_decide_eq_true_2 by done. simpl. lia.
  - specialize (IH2 m Hm). destruct (e.1 == k); simpl; lia.
Qed.
Lemma drop_keys {A B} n (l : list (A * B)) : NoDup l.*1 → NoDup (drop n l).*1.
Proof. intros H. rewrite <- (take_drop n l), fmap_app in H. by apply NoDup_app in H as (_ & _ & ?). Qed.

Lemma drop_in {A} n (l : list A) e : e ∈ drop n l → e ∈ l.
Proof. intros H. rewrite <- (take_drop n l). apply elem_of_app. by right. Qed.

Lemma length_delete_rows {R} p (t : list R) : (length (delete_rows p t) ≤ length t)%nat.
Proof. unfold delete_rows. induction t as [|r t IH]; simpl; [done|]. destruct (negb (p r)); simpl; lia. Qed.

Definition current_key (tenant : string) (s : inference_selection) (v : service) : model_key :=
  ModelKey tenant (credential_revision tenant (sv_db v)) (is_model s) (is_effort s) (is_tier s) (is_fallback s).
Definition with_model (k : model_key) (m : resolved_model) (v : service) : service :=
  v <| sv_models := drop (length (cache_without k (sv_models v)) + 1 - model_cache_limit)
                      (cache_without k (sv_models v) ++ [(k, m)]) |>.

Lemma resolve_model_run tenant s v :
  service_ok v →
  resolve_model tenant s v =
    if negb (is_provider s == CodexProvider) then
      (v, Err (ValueError "API models are resolved by the configured model factory"))
    else if negb (connected tenant (sv_db v)) then (v, Err unavailable)
    else (with_model (current_key tenant s v) (build_model tenant s) v, Ok (build_model tenant s)).
Proof.
  intros Hv. unfold resolve_model. rewrite run_unless_bind. destruct (is_provider s == CodexProvider); [|done]. cbn [negb].
  rewrite !run_gets_bind, run_unless_bind. destruct (connected tenant (sv_db v)); [|done]. cbn [negb].
  rewrite run_gets_bind. change (ModelKey _ _ _ _ _ _) with (current_key tenant s v). set (k := current_key tenant s v).
  unfold with_model. destruct (cache_lookup k (sv_models v)) as [m|] eqn:E.
  - apply cache_lookup_in in E as Hin. pose proof (proj1 (so_models v Hv _ Hin)) as Hm. simpl in Hm. subst m.
    rewrite run_modify_bind. change (key_model k) with (build_model tenant s). f_equal.
    pose proof (proj2 (cache_without_length k (sv_models v)) _ Hin) as Hlt. pose proof (so_bound v Hv).
    replace (_ - model_cache_limit)%nat with 0%nat by lia. done.
  - rewrite !run_modify_bind. simpl. by rewrite length_app.
Qed.
Lemma with_model_ok tenant s v :
  service_ok v → service_ok (with_model (current_key tenant s v) (build_model tenant s) v).
Proof.
  intros Hv. apply service_ok_models; [done|by apply drop_keys, cache_put_keys, Hv| |].
  - rewrite length_drop, length_app. simpl. unfold model_cache_limit. lia.
  - intros e He%drop_in. apply elem_of_app in He as [He|He].
    + left. by apply cache_without_in in He as [He _].
    + apply list_elem_of_singleton in He as ->. right. simpl. split; [done|lia].
Qed.
Lemma serves_resolve tenant s : serves (resolve_model tenant s).
Proof.
  intros v Hv. rewrite resolve_model_run by done. case_match; [done|]. case_match; [done|]. by apply with_model_ok.
Qed.

(** ** Histories of the service *)

Section Histories.
Context `{HostKeySecretCipher}.

Lemma serves_store {A} (m : M inference_db A) : (∀ d, inference_step d (m d).1) → serves (on_store m).
Proof.
  intros Hm v Hv. unfold on_store, zoom. specialize (Hm (sv_db v)). destruct (m (sv_db v)) as [d r].
  destruct (inference_step_kept _ _ Hm (so_db v Hv)) as [Hd Ha]. by apply service_ok_db.
Qed.
Lemma serves_forget tenant : serves (forget_tenant tenant).
Proof.
  apply preserves_modify. intros v [Hv Hk Hb Hm]. split; simpl; [done|by apply (unique_delete_rows fst)| |].
  - etrans; [apply length_delete_rows|done].
  - intros e [He _]%elem_of_delete_rows. by apply Hm.
Qed.
Lemma serves_token tenant a force now : serves (refreshed_token tenant a force now).
Proof.
  apply preserves_try_except; [apply serves_store; constructor|]. intros e m' E. case_match; [|done].
  injection E as <-. apply serves_raise.
Qed.
Lemma serves_request tenant a now : serves (request_catalog tenant a now).
Proof.
  unfold request_catalog. apply serves_bind; [apply serves_token|intros token]. apply serves_bind; [auto with serves|intros first].
  apply serves_bind; [|intros answer; repeat (apply serves_bind; [auto with serves|intros _]); auto with serves].
  case_match; [|auto with serves]. repeat (apply serves_bind; [apply serves_token|intros ?]). auto with serves.
Qed.
Lemma serves_catalog tenant a now : serves (codex_models tenant a now).
Proof.
  assert (∀ revision, serves (fetch_catalog tenant revision a now)) as Hf.
  { intros revision. unfold fetch_catalog. apply serves_bind; [|intros payload].
    - apply preserves_try_except; [apply serves_request|]. intros e m' [= <-]. apply serves_raise.
    - apply serves_bind; [auto with serves|intros models]. apply serves_bind; [|auto with serves].
      apply preserves_modify. intros v. apply service_ok_catalogs. }
  unfold codex_models. repeat (apply serves_bind; [auto with serves|intros ?]). repeat case_match; auto with serves.
Qed.
Lemma serves_validate tenant s a now : serves (validate_selection tenant s a now).
Proof.
  unfold validate_selection. case_match; [|auto with serves].
  repeat (apply serves_bind; [auto using serves_catalog with serves|intros ?]). case_match; [|auto with serves].
  repeat (apply serves_bind; [auto with serves|intros ?]). auto with serves.
Qed.
Lemma serves_disconnect tenant : serves (disconnect tenant).
Proof.
  unfold disconnect. apply serves_bind; [apply serves_store; constructor|intros b].
  apply serves_bind; [apply serves_forget|auto with serves].
Qed.
Lemma serves_start tenant fresh answer interval expiry now : serves (start_device_login tenant fresh answer interval expiry now).
Proof.
  unfold start_device_login. do 3 (apply serves_bind; [auto with serves|intros ?]).
  apply serves_bind; [apply serves_store; constructor|auto with serves].
Qed.
Lemma serves_save_login l now : serves (save_login l now).
Proof. apply serves_bind; [apply serves_store; constructor|auto with serves]. Qed.
Lemma serves_exchange l a others : serves others → serves (exchange_device_login l a others).
Proof.
  intros Ho. unfold exchange_device_login. apply serves_bind; [|intros saved].
  - apply preserves_try_except; [|intros e m'; case_match; [|done]; intros [= <-]; apply serves_ret].
    apply serves_bind; [auto with serves|intros _]. apply serves_bind; [auto with serves|intros c].
    apply serves_bind; [apply serves_store; constructor|auto with serves].
  - case_match; [apply serves_save_login|]. apply serves_bind; [apply serves_save_login|intros l'].
    apply serves_bind; [apply serves_forget|auto with serves].
Qed.
Lemma serves_login tenant id a others others' now :
  serves others → serves others' → serves (get_device_login tenant id a others others' now).
Proof.
  intros Ho Ho'. unfold get_device_login. apply serves_bind; [auto with serves|intros found].
  destruct found as [l|]; [|auto with serves]. case_match; [auto with serves|].
  case_match; [apply serves_bind; [apply serves_save_login|auto with serves]|]. case_match; [auto with serves|].
  apply serves_bind; [|auto with serves]. unfold poll_device_login. apply serves_bind; [auto with serves|intros _].
  repeat case_match; first [apply serves_save_login|by apply serves_exchange].
Qed.
Lemma serves_cancel tenant id : serves (cancel_device_login tenant id).
Proof. apply serves_store. constructor. Qed.

(** A call of the service; while it waits for the provider, others call it. *)
Inductive service_step : service → service → Prop :=
  | step_resolve tenant s v : service_step v (resolve_model tenant s v).1
  | step_validate tenant s a now v : service_step v (validate_selection tenant s a now v).1
  | step_disconnect tenant v : service_step v (disconnect tenant v).1
  | step_start tenant fresh answer interval expiry now v :
      service_step v (start_device_login tenant fresh answer interval expiry now v).1
  | step_login tenant id a others others' now v :
      serves others → serves others' → service_step v (get_device_login tenant id a others others' now v).1
  | step_cancel tenant id v : service_step v (cancel_device_login tenant id v).1.
Lemma service_steps_ok v v' : rtc service_step v v' → service_ok v → service_ok v'.
Proof.
  induction 1 as [|v v1 v' Hs _ IH]; intros Hv; [done|]. apply IH.
  destruct Hs; [by apply serves_resolve|by apply serves_validate|by apply serves_disconnect|by apply serves_start|
    by apply serves_login|by apply serves_cancel].
Qed.
Lemma service_reachable v : rtc service_step new_service v → service_ok v.
Proof. intros H'. apply (service_steps_ok _ _ H'), new_service_ok. Qed.
End Histories.

(** ** What the service promises *)

Section Promises.
Context `{CipherLaws}.

(** C18: In every history of the service, resolving a selection returns the
    model built for that tenant and selection and no other, whether the cache
    had it or not; the cache holds it last, under the tenant's current
    revision, and has at most twenty-four entries with distinct keys. *)
Theorem cached_models_current v v' tenant s m :
  rtc service_step new_service v → resolve_model tenant s v = (v', Ok m) →
  m = build_model tenant s ∧ is_provider s = CodexProvider ∧ connected tenant (sv_db v) = true ∧ sv_db v' = sv_db v ∧
  last (sv_models v') = Some (current_key tenant s v, m) ∧
  (length (sv_models v') ≤ model_cache_limit)%nat ∧ NoDup (sv_models v').*1.
Proof.
  intros Hv%service_reachable Hr. pose proof (serves_resolve tenant s v Hv) as Hv'. rewrite Hr in Hv'.
  rewrite resolve_model_run in Hr by done. destruct (is_provider s == CodexProvider) eqn:Hp; [|done].
  destruct (connected tenant (sv_db v)); [|done]. injection Hr as <- <-. apply bool_decide_eq_true in Hp.
  split_and!; [done..| |by apply Hv'|by apply Hv'].
  simpl. rewrite drop_app_le by (unfold model_cache_limit; lia). by rewrite last_snoc.
Qed.

Lemma load_login_in tenant id d l :
  load_device_login tenant id d = Some l → ∃ r, r ∈ id_logins d ∧ lw_login r = l ∧ dl_tenant l = tenant ∧ dl_id l = id.
Proof.
  unfold load_device_login. destruct (select_one _ _) as [r|] eqn:E; [|done]. intros [= <-].
  apply select_one_Some in E as [Hr [Ht%bool_decide_eq_true Hi%bool_decide_eq_true]%andb_true_iff]. by exists r.
Qed.
(** Writing a login that is there. *)
Lemma save_login_run l l' now v :
  service_ok v → load_device_login (dl_tenant l) (dl_id l) (sv_db v) = Some l' →
  ∃ v', save_login l now v = (v', Ok l) ∧ sv_models v' = sv_models v ∧
    id_credentials (sv_db v') = id_credentials (sv_db v) ∧ id_epochs (sv_db v') = id_epochs (sv_db v) ∧
    load_device_login (dl_tenant l) (dl_id l) (sv_db v') = Some l.
Proof.
  intros Hv Hl. set (p := login_at (dl_tenant l) (dl_id l)).
  exists (v <| sv_db := (sv_db v) <| id_logins := update p (λ _, LoginRow l now) (id_logins (sv_db v)) |> |>).
  destruct (load_login_in _ _ _ _ Hl) as (r & Hr & <- & Ht & Hi).
  assert (rowcount p (id_logins (sv_db v)) = 1%nat) as Hc.
  { apply (rowcount_one lw_id _ _ r); [apply (so_db v Hv)|done| |].
    - unfold p, login_at, lw_id. by rewrite Ht, Hi, !bool_decide_eq_true_2.
    - intros r' _ [_ Hi'%bool_decide_eq_true]%andb_true_iff. unfold lw_id in *. congruence. }
  split_and!; [|done|done|done|].
  - unfold save_login, on_store, update_device_login. rewrite run_bind. unfold zoom. rewrite run_gets_bind, run_modify_bind.
    fold p. by rewrite Hc.
  - unfold load_device_login. simpl. fold p.
    assert (p (LoginRow l now) = true) as Hp by (unfold p, login_at, lw_id; simpl; by rewrite !bool_decide_eq_true_2).
    rewrite select_one_update by (intros; by rewrite Hp). unfold load_device_login in Hl. fold p in Hl.
    destruct (select_one p _) as [x|] eqn:E; [|done]. simpl. apply select_one_Some in E as [_ E]. by rewrite E.
Qed.

(** A write that does not raise has found the login. *)
Lemma save_login_Ok l now v v' l' :
  service_ok v → save_login l now v = (v', Ok l') →
  l' = l ∧ id_credentials (sv_db v') = id_credentials (sv_db v) ∧ id_epochs (sv_db v') = id_epochs (sv_db v) ∧
  load_device_login (dl_tenant l) (dl_id l) (sv_db v') = Some l.
Proof.
  intros Hv. destruct (load_device_login (dl_tenant l) (dl_id l) (sv_db v)) as [l0|] eqn:El.
  - destruct (save_login_run l l0 now v Hv El) as (v1 & -> & _ & Hs). by intros [= <- <-].
  - unfold save_login, on_store, update_device_login. rewrite run_bind. unfold zoom. rewrite run_gets_bind, run_modify_bind.
    assert (rowcount (login_at (dl_tenant l) (dl_id l)) (id_logins (sv_db v)) = 0%nat) as ->; [|done].
    apply rowcount_zero. unfold load_device_login in El. destruct (select_one _ _) as [x|] eqn:E; [done|].
    intros r Hr. by apply select_one_None with (r := r) in E.
Qed.

(** The credential an exchange stores, in the state its answer comes to. *)
Definition exchanged (l : device_login) (a : login_answers) (v : service) : outcome codex_credential :=
  c ← la_exchange a; check_credential (c <| cc_revision := credential_revision (dl_tenant l) (sv_db v) + 1 |>).
Definition authorized_login (l : device_login) : device_login :=
  l <| dl_status := LoginAuthorized |> <| dl_error := None |>.
Definition with_credential (l : device_login) (a : login_answers) (c : codex_credential) (v : service) : service :=
  v <| sv_db := written (dl_tenant l) c (la_nonce a) (la_exchanged a) (sv_db v) |>.

Lemma with_credential_db l a c v :
  sv_db (with_credential l a c v) = written (dl_tenant l) c (la_nonce a) (la_exchanged a) (sv_db v).
Proof. done. Qed.
Lemma check_credential_same c c' : check_credential c = Ok c' → c' = c.
Proof. unfold check_credential. case_match; congruence. Qed.
Lemma exchange_run l a others v :
  exchange_device_login l a others v = let v0 := (others v).1 in
    match exchanged l a v0 with
    | Ok c => (l' ← save_login (authorized_login l) (la_exchanged a); forget_tenant (dl_tenant l);; mret l') (with_credential l a c v0)
    | Err e => if exchange_refused e then save_login (failed_login l) (la_exchanged a) v0 else (v0, Err e)
    end.
Proof.
  unfold exchange_device_login, exchanged. rewrite run_bind, run_try_except, !run_bind. cbn [fst].
  rewrite run_outcome. set (v0 := (others v).1). cbv zeta.
  destruct (la_exchange a) as [c|e]; cbn [mbind outcome_mbind]; [|by destruct (exchange_refused e)].
  rewrite run_bind. unfold on_store, zoom. rewrite save_credential_run. cbv zeta.
  destruct (check_credential _) as [c'|e] eqn:E; [|by destruct v0, (exchange_refused e)].
  by apply check_credential_same in E as ->.
Qed.
Lemma exchange_cases l a others v v' l' :
  let v0 := (others v).1 in service_ok v0 → exchange_device_login l a others v = (v', Ok l') →
  load_device_login (dl_tenant l) (dl_id l) (sv_db v') = Some l' ∧
  ((l' = failed_login l ∧ id_credentials (sv_db v') = id_credentials (sv_db v0)) ∨
   ∃ c, l' = authorized_login l ∧ exchanged l a v0 = Ok c ∧
     id_credentials (sv_db v') = id_credentials (sv_db (with_credential l a c v0)) ∧
     id_epochs (sv_db v') = id_epochs (sv_db (with_credential l a c v0))).
Proof.
  intros v0 Hv. rewrite exchange_run. fold v0. cbv zeta. destruct (exchanged l a v0) as [c|e] eqn:Ec.
  - assert (service_ok (with_credential l a c v0)) as Hv'.
    { unfold exchanged in Ec. destruct (la_exchange a) as [c0|]; [|done]. apply check_credential_same in Ec as ->.
      apply service_ok_db; [done|by apply written_kept; [apply Hv|]..]. }
    rewrite run_bind. destruct (save_login _ _ _) as [v1 [x|]] eqn:Hs; [|done].
    apply save_login_Ok in Hs as (-> & Hc & He & Hl'); [|done].
    unfold forget_tenant. rewrite run_modify_bind. intros [= <- <-]. split; [done|]. right. by exists c.
  - destruct (exchange_refused e); [|done]. intros Hs. apply save_login_Ok in Hs as (-> & Hc & _ & Hl'); [|done].
    split; [done|]. by left.
Qed.

Lemma poll_cases l a others others' v v' l' :
  let v1 := (others v).1 in let v2 := (others' v1).1 in
  service_ok v1 → service_ok v2 → poll_device_login l a others others' v = (v', Ok l') →
  load_device_login (dl_tenant l) (dl_id l) (sv_db v') = Some l' ∧
  ((dl_status l' = dl_status l ∨ dl_status l' = LoginFailed) ∧
     (∃ v0, (v0 = v1 ∨ v0 = v2) ∧ id_credentials (sv_db v') = id_credentials (sv_db v0)) ∨
   ∃ c, dl_status l' = LoginAuthorized ∧ exchanged l a v2 = Ok c ∧
     id_credentials (sv_db v') = id_credentials (sv_db (with_credential l a c v2)) ∧
     id_epochs (sv_db v') = id_epochs (sv_db (with_credential l a c v2))).
Proof.
  intros v1 v2 Hv1 Hv2. unfold poll_device_login. rewrite run_bind. cbn [fst]. fold v1.
  assert (∀ x now, dl_tenant x = dl_tenant l → dl_id x = dl_id l → (dl_status x = dl_status l ∨ dl_status x = LoginFailed) →
    save_login x now v1 = (v', Ok l') →
    load_device_login (dl_tenant l) (dl_id l) (sv_db v') = Some l' ∧
    ((dl_status l' = dl_status l ∨ dl_status l' = LoginFailed) ∧
     ∃ v0, (v0 = v1 ∨ v0 = v2) ∧ id_credentials (sv_db v') = id_credentials (sv_db v0))) as Hsave.
  { intros x now <- <- Hx Hs. apply save_login_Ok in Hs as (-> & Hc & _ & Hl'); [|done].
    split; [done|]. split; [done|]. exists v1. split; [by left|done]. }
  destruct (la_poll a) as [[status payload]|].
  - match goal with |- (if ?b then exchange_device_login _ _ _ else _) _ = _ → _ => destruct b end.
    + intros H'. destruct (exchange_cases _ _ _ _ _ _ Hv2 H') as [H1 [[-> H2]|(c & -> & H2)]]; (split; [done|]).
      * left. split; [by right|]. exists v2. split; [by right|done].
      * right. by exists c.
    + match goal with |- (if ?b then save_login _ _ else _) _ = _ → _ => destruct b end; intros H';
        (apply Hsave in H' as [H1 H2]; [split; [done|by left]|done|done|by (left + right)]).
  - intros H'. apply Hsave in H' as [H1 H2]; [|done|done|by left]. split; [done|by left].
Qed.

(** C17: Asking for a device login answers what is then stored of it, whatever
    else happens to the service while the provider is polled ([others]) and while
    the code is exchanged ([others']). A login that is no longer pending stays
    what it is and changes nothing; a pending one becomes authorized only with
    the credential its code was exchanged for, which is then the tenant's, under
    the revision after the tenant's last one, and is read back when it is one
    the row can hold ([writable]: its tokens and its optional texts not empty, its
    expiry representable); with any other answer the request leaves the credentials as it
    finds them when it writes. *)
Theorem device_login_outcome v v' tenant id a others others' now l l' :
  rtc service_step new_service v → serves others → serves others' →
  load_device_login tenant id (sv_db v) = Some l →
  get_device_login tenant id a others others' now v = (v', Ok (Some l')) →
  let v1 := (others v).1 in let v2 := (others' v1).1 in
  load_device_login tenant id (sv_db v') = Some l' ∧
  (dl_status l ≠ LoginPending → v' = v ∧ l' = l) ∧
  (dl_status l = LoginPending → dl_status l' = LoginAuthorized → ∃ c,
     let c' := c <| cc_revision := credential_revision tenant (sv_db v2) + 1 |> in
     la_exchange a = Ok c ∧ dl_next l <= now < dl_expires l ∧
     credential_revision tenant (sv_db v') = credential_revision tenant (sv_db v2) + 1 ∧
     (writable c' → (load_credential tenant (sv_db v')).2 = Ok (Some c'))) ∧
  (dl_status l = LoginPending → dl_status l' ≠ LoginAuthorized →
     ∃ v0, (v0 = v ∨ v0 = v1 ∨ v0 = v2) ∧ id_credentials (sv_db v') = id_credentials (sv_db v0)).
Proof.
  intros Hv%service_reachable Ho Ho' Hl. destruct (load_login_in _ _ _ _ Hl) as (_ & _ & _ & <- & <-).
  intros H' v1 v2. revert H'. unfold get_device_login. rewrite run_gets_bind, Hl.
  pose proof (Ho v Hv) as Hv1. fold v1 in Hv1.
  pose proof (Ho' v1 Hv1) as Hv2. fold v2 in Hv2.
  destruct (dl_status l == LoginPending) eqn:Ep; cbn [negb].
  2: { apply bool_decide_eq_false in Ep. intros [= <- <-]. split_and!; try done; by intros. }
  apply bool_decide_eq_true in Ep. destruct (Z.leb_spec (dl_expires l) now) as [Hx|Hx].
  { destruct (save_login_run (expired_login l) l now v Hv Hl)
      as (v3 & Hs & _ & Hc & _ & Hl').
    rewrite (run_bind_ok _ _ _ _ _ Hs). intros [= <- <-].
    split_and!; [done|done|done|]. intros. exists v. split; [by left|done]. }
  destruct (Z.ltb_spec now (dl_next l)) as [Hn|Hn].
  { intros [= <- <-]. split_and!; [done|congruence|congruence|]. intros. exists v. split; [by left|done]. }
  destruct (poll_device_login l a others others' v) as [v3 [x|e]] eqn:Hp; [|by rewrite (run_bind_err _ _ _ _ _ Hp)].
  rewrite (run_bind_ok _ _ _ _ _ Hp). intros [= <- <-].
  destruct (poll_cases _ _ _ _ _ _ _ Hv1 Hv2 Hp) as [H1 [[H2 H3]|(c & H2 & H3 & H4 & H5)]]; split_and!; try done.
  - destruct H2; congruence.
  - intros _ _. destruct H3 as (v0 & H3 & H4). exists v0. split; [|done]. destruct H3; [by right; left|by right; right].
  - intros _ _. fold v1 in H3. fold v2 in H3. unfold exchanged in H3.
    destruct (la_exchange a) as [c0|]; [|done]. apply check_credential_same in H3 as ->.
    exists c0. split_and!; [done|done|done| |].
    + assert (∀ d d', id_epochs d = id_epochs d' → credential_revision (dl_tenant l) d = credential_revision (dl_tenant l) d')
        as He by (intros d d' E; unfold credential_revision; by rewrite E).
      rewrite (He _ _ H5), with_credential_db. unfold written. rewrite revision_with_epoch. by rewrite bool_decide_eq_true_2.
    + intros Hw. unfold load_credential. rewrite run_gets_bind, H4, with_credential_db, written_row, run_outcome_bind.
      by rewrite credential_read_back.
Qed.
End Promises.

(** ** A device login, and one that is cancelled too late *)

#[local] Existing Instance sample_cipher.
Definition sample_started : service :=
  Eval vm_compute in (start_device_login "tenant_1" "login_1"
    (Ok (JObj [("device_auth_id", JStr "auth"); ("user_code", JStr "CODE")])) None None 1767225000000000 new_service).1.
Definition sample_login : device_login :=
  DeviceLogin "login_1" "tenant_1" LoginPending "https://auth.openai.com/codex/device" "CODE" "auth" 5000000
    1767225000000000 1767225900000000 None.
Definition sample_answers : login_answers :=
  LoginAnswers (Some (200, JObj [("authorization_code", JStr "code"); ("code_verifier", JStr "verifier")])) 1767225006000000
    (Ok sample_credential) 1767225007000000 "nonce-1".
Definition sample_authorized : service :=
  Eval vm_compute in (get_device_login "tenant_1" "login_1" sample_answers (mret tt) (mret tt) 1767225005000000 sample_started).1.
Definition sample_selection : inference_selection := InferenceSelection CodexProvider "gpt" None None false.

Lemma sample_started_steps : rtc service_step new_service sample_started.
Proof.
  apply rtc_once. exact (step_start "tenant_1" "login_1" (Ok (JObj [("device_auth_id", JStr "auth"); ("user_code", JStr "CODE")]))
    None None 1767225000000000 new_service).
Qed.
Lemma sample_authorized_steps : rtc service_step new_service sample_authorized.
Proof.
  eapply rtc_r; [apply sample_started_steps|].
  exact (step_login "tenant_1" "login_1" sample_answers (mret tt) (mret tt) 1767225005000000 sample_started
    (serves_ret tt) (serves_ret tt)).
Qed.

Lemma device_login_outcome_witness :
  load_device_login "tenant_1" "login_1" (sv_db sample_started) = Some sample_login ∧
  load_device_login "tenant_1" "login_1" (sv_db sample_authorized) = Some (authorized_login sample_login) ∧
  credential_revision "tenant_1" (sv_db sample_authorized) = 1.
Proof.
  split; [vm_compute; reflexivity|].
  destruct (device_login_outcome sample_started sample_authorized "tenant_1" "login_1" sample_answers (mret tt) (mret tt)
    1767225005000000 sample_login (authorized_login sample_login) sample_started_steps (serves_ret tt) (serves_ret tt))
    as (Hl & _ & Hc & _);
    [vm_compute; reflexivity|vm_compute; reflexivity|].
  split; [exact Hl|]. destruct (Hc eq_refl eq_refl) as (c & _ & _ & Hr & _). rewrite Hr. reflexivity.
Defined.
Lemma cached_models_current_witness :
  ∃ v, resolve_model "tenant_1" sample_selection sample_authorized =
    (v, Ok (ResolvedModel "tenant_1" "gpt" None None false)) ∧ (length (sv_models v) ≤ model_cache_limit)%nat.
Proof.
  eexists. split; [vm_compute; reflexivity|].
  apply (cached_models_current sample_authorized _ "tenant_1" sample_selection (ResolvedModel "tenant_1" "gpt" None None false)
    sample_authorized_steps). vm_compute. reflexivity.
Defined.

(** The owner cancels the login while its code is exchanged: the login is gone,
    the call raises, and the account is connected all the same. *)
Lemma cancelled_login_connects :
  let late := cancel_device_login "tenant_1" "login_1" ;; mret tt in
  let '(v, r) := get_device_login "tenant_1" "login_1" sample_answers (mret tt) late 1767225005000000 sample_started in
  r = Err (KeyError "device login not found") ∧ load_device_login "tenant_1" "login_1" (sv_db v) = None ∧
  connected "tenant_1" (sv_db v) = true.
Proof. vm_compute. done. Qed.
