(* ===== verification/InferencePreferences.v ===== *)
(** * The owner's choice of model ([deep_agent/service.py], [api/routes/v2_inference.py])

    The preference of a tenant with its revision, the plan a run is resolved
    to from it, and the request that disconnects the account. The column
    [selection_json] holds the selection it encodes; whether the service of
    [InferenceService] is configured, the model the API serves by default and
    the reasoning efforts of the default and of a spec's own model are settings. *)

From S2P Require Import Prelude Sqlite Json Cipher InferenceModels Contracts AgentRuns InferenceStore InferenceService.
#[local] Open Scope string_scope.
#[local] Open Scope list_scope.
#[local] Open Scope Z_scope.

Record preference_row := PreferenceRow {
  pw_tenant : string;
  pw_revision : Z;
  pw_selection : option inference_selection;
  pw_updated : Z;
}.
#[global] Instance preference_row_fields : Fields preference_row := λ r,
  PreferenceRow (pw_tenant r) (pw_revision r) (pw_selection r) (pw_updated r).
Record thread_preference_row := ThreadPreferenceRow {
  tw_tenant : string;
  tw_thread : string;
  tw_revision : Z;
  tw_selection : option inference_selection;
  tw_updated : Z;
}.
#[global] Instance thread_preference_row_fields : Fields thread_preference_row := λ r,
  ThreadPreferenceRow (tw_tenant r) (tw_thread r) (tw_revision r) (tw_selection r) (tw_updated r).

Record preferences := Preferences {
  pr_service : service;
  pr_threads : list thread_row;
  pr_tenants : list preference_row;
  pr_legacy : list thread_preference_row;
}.
#[global] Instance preferences_fields : Fields preferences := λ d,
  Preferences (pr_service d) (pr_threads d) (pr_tenants d) (pr_legacy d).

Definition preference_of (tenant : string) (d : preferences) : option preference_row := row_at pw_tenant tenant (pr_tenants d).
Definition preference_revision (tenant : string) (d : preferences) : Z := from_option pw_revision 0 (preference_of tenant d).
Definition preferred (tenant : string) (d : preferences) : option inference_selection := preference_of tenant d ≫= pw_selection.
Definition on_service {A} (m : M service A) : M preferences A := zoom pr_service (λ s d, d <| pr_service := s |>) m.

Definition preference_changed : exn := OtherException "InferenceConflictError" "owner inference preference changed".
Definition codex_unavailable : exn := OtherException "InferenceUnavailableError" "Codex inference is unavailable".
Definition selects_codex (s : option inference_selection) : bool :=
  match s with Some s => is_provider s == CodexProvider | None => false end.

Section Preferences.
Context `{HostKeySecretCipher}.
Variable configured : bool.
Variable api_model : string.
Variables api_effort spec_effort : option string.

(** [_default_inference_plan] *)
Definition default_selection : inference_selection := InferenceSelection ApiProvider api_model api_effort None false.
Definition default_inference_plan : inference_plan := resolve_plan default_selection 0.

(** [get_owner_inference]: the revision, the selection and the one in effect. *)
Definition get_owner_inference (tenant : string) (d : preferences) : Z * option inference_selection * inference_selection :=
  (preference_revision tenant d, preferred tenant d, default default_selection (preferred tenant d)).

(** [update_owner_inference]; [others] is what happens while the selection is validated. *)
Definition write_preference (tenant : string) (expected : Z) (selection : option inference_selection) (now : Z) :
    M preferences unit :=
  transaction (
    revision ← gets (preference_revision tenant);
    unless (revision =? expected) preference_changed;;
    modify (λ d, d <| pr_tenants := upsert pw_tenant (PreferenceRow tenant (revision + 1) selection now) (pr_tenants d) |>)).
Definition update_owner_inference (tenant : string) (expected : Z) (selection : option inference_selection)
    (a : catalog_answers) (others : M preferences unit) (now : Z) :
    M preferences (Z * option inference_selection * inference_selection) :=
  checked ← match selection with
            | None => mret None
            | Some s =>
                if configured then s ← on_service (validate_selection tenant s a now); mret (Some s)
                else unless (is_provider s == ApiProvider) codex_unavailable;; mret (Some s)
            end;
  (λ d, ((others d).1, Ok tt)) ;;
  write_preference tenant expected checked now;;
  gets (get_owner_inference tenant).

(** [get_thread_inference] and [update_thread_inference] *)
Definition get_thread_inference (tenant thread : string) (d : preferences) :
    option (Z * option inference_selection * inference_selection) :=
  if exists_row (thread_at tenant thread) (pr_threads d) then Some (get_owner_inference tenant d) else None.
Definition update_thread_inference (tenant thread : string) (expected : Z) (selection : option inference_selection)
    (a : catalog_answers) (others : M preferences unit) (now : Z) :
    M preferences (option (Z * option inference_selection * inference_selection)) :=
  exists_ ← gets (λ d, exists_row (thread_at tenant thread) (pr_threads d));
  if (exists_ : bool) then r ← update_owner_inference tenant expected selection a others now; mret (Some r) else mret None.

(** [codex_preference_count] and [reset_codex_preferences] *)
Definition prefers_codex (tenant : string) (r : preference_row) : bool := (pw_tenant r == tenant) && selects_codex (pw_selection r).
Definition codex_preference_count (tenant : string) (d : preferences) : Z := Z.of_nat (rowcount (prefers_codex tenant) (pr_tenants d)).
Definition reset_codex_preferences (tenant : string) (now : Z) : M preferences Z :=
  changed ← gets (codex_preference_count tenant);
  modify (λ d, d <| pr_tenants := update (prefers_codex tenant)
    (λ r, r <| pw_revision := pw_revision r + 1 |> <| pw_selection := None |> <| pw_updated := now |>) (pr_tenants d) |>);;
  modify (λ d, d <| pr_legacy := update (λ r, (tw_tenant r == tenant) && selects_codex (tw_selection r))
    (λ r, r <| tw_revision := tw_revision r + 1 |> <| tw_selection := None |> <| tw_updated := now |>) (pr_legacy d) |>);;
  mret changed.

(** [_resolve_inference_plan] and [_effective_spec_plan]; [alias] is the model
    alias of the stored spec the run names, if there is one. *)
Definition effective_spec_plan (alias : string) (plan : inference_plan) : inference_plan :=
  if alias == "default" then plan
  else resolve_plan (InferenceSelection ApiProvider alias spec_effort None false) (ip_revision plan).
Definition resolve_inference_plan (tenant : string) (alias : option string) (d : preferences) : inference_plan :=
  let plan := match preference_of tenant d with
              | Some r => resolve_plan (default default_selection (pw_selection r)) (pw_revision r)
              | None => default_inference_plan
              end in
  match alias with Some alias => effective_spec_plan alias plan | None => plan end.

(** [delete_codex_credential] of the routes; [others] is what happens after the
    preferences are counted. *)
Definition delete_codex_credential (tenant : string) (reset_threads : bool) (others : M preferences unit) (now : Z) :
    M preferences (bool * Z) :=
  count ← gets (codex_preference_count tenant);
  unless ((count =? 0) || reset_threads)
    (OtherException "HTTPException" "Codex is selected globally; confirm reset_threads");;
  (λ d, ((others d).1, Ok tt)) ;;
  reset ← (if count =? 0 then mret 0 else reset_codex_preferences tenant now);
  disconnected ← on_service (disconnect tenant);
  mret (disconnected, reset).

(** ** Reading and writing *)

Lemma write_preference_run tenant expected selection now d :
  write_preference tenant expected selection now d =
    if preference_revision tenant d =? expected then
      (d <| pr_tenants := upsert pw_tenant (PreferenceRow tenant (expected + 1) selection now) (pr_tenants d) |>, Ok tt)
    else (d, Err preference_changed).
Proof.
  unfold write_preference. rewrite run_transaction, run_gets_bind, run_unless_bind.
  destruct (Z.eqb_spec (preference_revision tenant d) expected) as [->|]; done.
Qed.
Lemma preference_written tenant other r d :
  pw_tenant r = tenant →
  preference_of other (d <| pr_tenants := upsert pw_tenant r (pr_tenants d) |>) =
    if tenant == other then Some r else preference_of other d.
Proof.
  intros <-. unfold preference_of. simpl. case_bool_decide as E; [subst other; apply row_at_upsert|].
  by apply row_at_upsert_other.
Qed.

(** The preference of a tenant is changed by compare-and-swap: whatever
    other tasks do while the selection is validated, an update succeeds only
    if the revision is still the expected one when it writes, then it has the
    next revision and its own selection, which is what a run of the tenant is
    resolved to, and no other tenant's preference changed; otherwise it writes
    nothing. *)
Theorem preference_compare_and_swap tenant expected selection a others now d d' r :
  update_owner_inference tenant expected selection a others now d = (d', r) →
  ∃ d1, (d1 = d ∨ ∃ d0, d1 = (others d0).1) ∧
  match r with
  | Ok (revision, chosen, effective) =>
      preference_revision tenant d1 = expected ∧ revision = expected + 1 ∧ preference_revision tenant d' = revision ∧
      (selection = None ↔ chosen = None) ∧ effective = default default_selection chosen ∧
      resolve_inference_plan tenant None d' = resolve_plan effective revision ∧
      (∀ other, tenant ≠ other → preference_of other d' = preference_of other d1) ∧ pr_service d' = pr_service d1
  | Err e => e = preference_changed ∧ preference_revision tenant d1 ≠ expected ∧ d' = d1 ∨
             pr_tenants d' = pr_tenants d ∧ pr_legacy d' = pr_legacy d
  end.
Proof.
  unfold update_owner_inference. set (check := match selection with None => _ | Some _ => _ end).
  assert (∀ d, pr_tenants (check d).1 = pr_tenants d ∧ pr_legacy (check d).1 = pr_legacy d ∧
    match (check d).2 with Ok chosen => selection = None ↔ chosen = None | Err _ => True end) as Hcheck.
  { intros x. unfold check. destruct selection as [s|]; [|done]. destruct configured.
    - unfold on_service, zoom. rewrite run_bind. destruct (validate_selection tenant s a now (pr_service x)) as [v [y|e]]; done.
    - rewrite run_unless_bind. destruct (is_provider s == ApiProvider); done. }
  destruct (Hcheck d) as (Ht & Hg & Hc). destruct (check d) as [d0 [chosen|e]] eqn:E; cycle 1.
  { rewrite (run_bind_err _ _ _ _ _ E). intros [= <- <-]. exists d. split; [by left|]. by right. }
  rewrite (run_bind_ok _ _ _ _ _ E). rewrite run_bind. cbn [fst]. set (d1 := (others d0).1). rewrite run_bind, write_preference_run.
  intros H'. exists d1. split; [right; by exists d0|]. revert H'.
  destruct (Z.eqb_spec (preference_revision tenant d1) expected) as [He|He]; [|intros [= <- <-]; by left].
  rewrite run_gets. intros [= <- <-]. set (row := PreferenceRow tenant (expected + 1) chosen now).
  set (d2 := d1 <| pr_tenants := _ |>). assert (preference_of tenant d2 = Some row) as Hrow.
  { unfold d2. rewrite (preference_written tenant tenant row) by done. by rewrite bool_decide_eq_true_2. }
  assert (preference_revision tenant d2 = expected + 1) as Hrev by (unfold preference_revision; by rewrite Hrow).
  assert (preferred tenant d2 = chosen) as Hsel by (unfold preferred; by rewrite Hrow).
  unfold get_owner_inference. rewrite Hrev, Hsel. split_and!; try done.
  - unfold resolve_inference_plan. by rewrite Hrow.
  - intros other Hne. unfold d2. rewrite (preference_written tenant other row) by done. by rewrite bool_decide_eq_false_2.
Qed.

(** ** Disconnecting *)

Lemma reset_run tenant now d :
  ∃ d', reset_codex_preferences tenant now d = (d', Ok (codex_preference_count tenant d)) ∧
    pr_service d' = pr_service d ∧ codex_preference_count tenant d' = 0.
Proof.
  eexists. split; [reflexivity|]. split; [done|]. unfold codex_preference_count. simpl.
  rewrite (proj2 (rowcount_zero _ _)); [done|]. intros r (r0 & Hr & ->)%elem_of_update.
  destruct (prefers_codex tenant r0) eqn:E; [|done]. unfold prefers_codex. simpl. apply andb_false_r.
Qed.
Lemma count_zero_api tenant d s :
  codex_preference_count tenant d = 0 → preferred tenant d = Some s → is_provider s = ApiProvider.
Proof.
  unfold codex_preference_count, preferred, preference_of. intros Hc.
  assert (rowcount (prefers_codex tenant) (pr_tenants d) = 0%nat) as Hz by lia.
  pose proof (proj1 (rowcount_zero _ _) Hz) as Hn.
  destruct (row_at pw_tenant tenant (pr_tenants d)) as [r|] eqn:E; [|done]. apply row_at_Some in E as [Hr Ht].
  specialize (Hn r Hr). unfold prefers_codex in Hn. rewrite Ht, bool_decide_eq_true_2 in Hn by done. simpl.
  intros Hs. rewrite Hs in Hn. simpl in Hn. apply bool_decide_eq_false in Hn. by destruct (is_provider s).
Qed.
Lemma resolved_api tenant alias d :
  codex_preference_count tenant d = 0 → is_provider (ip_primary (resolve_inference_plan tenant alias d)) = ApiProvider.
Proof.
  intros Hc. unfold resolve_inference_plan, effective_spec_plan.
  assert (is_provider (ip_primary (match preference_of tenant d with
    | Some r => resolve_plan (default default_selection (pw_selection r)) (pw_revision r)
    | None => default_inference_plan end)) = ApiProvider) as Hplan.
  { destruct (preference_of tenant d) as [r|] eqn:E; [|done]. simpl. destruct (pw_selection r) as [s|] eqn:Es; [|done].
    apply (count_zero_api tenant d s Hc). unfold preferred. by rewrite E. }
  destruct alias as [alias|]; [|done]. by destruct (alias == "default").
Qed.

Lemma disconnect_run tenant v :
  service_ok v → ∃ v', disconnect tenant v = (v', Ok (connected tenant (sv_db v))) ∧
    connected tenant (sv_db v') = false ∧
    (∀ e, e ∈ sv_models v' → mk_tenant e.1 ≠ tenant) ∧ (∀ e, e ∈ sv_catalogs v' → e.1.1 ≠ tenant).
Proof.
  intros Hv. unfold disconnect, on_store, zoom. rewrite run_bind, delete_credential_run by apply Hv.
  assert (∀ d (b : bool), connected tenant d = false → ∃ v',
    (forget_tenant tenant;; mret b) (v <| sv_db := d |>) = (v', Ok b) ∧ connected tenant (sv_db v') = false ∧
    (∀ e, e ∈ sv_models v' → mk_tenant e.1 ≠ tenant) ∧ (∀ e, e ∈ sv_catalogs v' → e.1.1 ≠ tenant)) as Hforget.
  { intros d b Hd. unfold forget_tenant. rewrite run_modify_bind. eexists. split; [reflexivity|]. split; [done|].
    split; simpl; intros e [_ He%bool_decide_eq_false]%elem_of_delete_rows; done. }
  destruct (connected tenant (sv_db v)) eqn:E; apply Hforget; [|done].
  rewrite connected_at. apply bool_decide_eq_false_2. unfold credential_at. simpl. rewrite row_at_deleted. by intros [? ?].
Qed.

Lemma resolved_as tenant alias d d' :
  preference_of tenant d' = preference_of tenant d →
  resolve_inference_plan tenant alias d' = resolve_inference_plan tenant alias d.
Proof. unfold resolve_inference_plan. by intros ->. Qed.

(** C16: Disconnecting the account is refused, and nothing happens, while the
    preference selects it, unless the request says to reset it. When it is
    carried out, whatever the service and the tenants do between the count of the
    preferences and the deletion ([others], after which the state is [d0]), the
    tenant has no credential, no cached model and no cached catalog. If the
    preferences were reset, or none selects the account in [d0], no preference of
    the tenant selects the account, and every run resolved while the tenant's
    preference stays as the request left it is resolved to the API. *)
Theorem disconnected_uses_api tenant reset_threads (others : M preferences unit) now d :
  rtc service_step new_service (pr_service d) → rtc service_step (pr_service d) (pr_service (others d).1) →
  let d0 := (others d).1 in
  ∃ d' r, delete_codex_credential tenant reset_threads others now d = (d', r) ∧
  match r with
  | Err e => d' = d ∧ reset_threads = false ∧ codex_preference_count tenant d ≠ 0
  | Ok (disconnected, reset) =>
      (reset_threads = true ∨ codex_preference_count tenant d = 0) ∧
      disconnected = connected tenant (sv_db (pr_service d0)) ∧
      reset = (if codex_preference_count tenant d =? 0 then 0 else codex_preference_count tenant d0) ∧
      connected tenant (sv_db (pr_service d')) = false ∧
      (∀ e, e ∈ sv_models (pr_service d') → mk_tenant e.1 ≠ tenant) ∧
      (∀ e, e ∈ sv_catalogs (pr_service d') → e.1.1 ≠ tenant) ∧
      (codex_preference_count tenant d ≠ 0 ∨ codex_preference_count tenant d0 = 0 →
        codex_preference_count tenant d' = 0 ∧
        ∀ alias later, preference_of tenant later = preference_of tenant d' →
          is_provider (ip_primary (resolve_inference_plan tenant alias later)) = ApiProvider)
  end.
Proof.
  intros Hd Hothers d0. assert (service_ok (pr_service d0)) as Hv by (apply service_reachable; by etrans).
  unfold delete_codex_credential. rewrite run_gets_bind, run_unless_bind.
  destruct (Z.eqb_spec (codex_preference_count tenant d) 0) as [Hc|Hc]; simpl orb; cbv iota.
  - rewrite run_bind. cbn [fst]. fold d0. rewrite run_ret_bind.
    unfold on_service, zoom. rewrite run_bind. destruct (disconnect_run tenant (pr_service d0) Hv) as (v' & -> & H1 & H2 & H3).
    eexists _, _. split; [reflexivity|]. split_and!; try done; [by right|]. intros [|H0]; [done|]. split; [done|].
    intros alias later Hl. rewrite (resolved_as _ _ _ _ Hl). by apply resolved_api.
  - destruct reset_threads; [|by eexists _, _]. rewrite run_bind. cbn [fst]. fold d0.
    destruct (reset_run tenant now d0) as (d1 & Hr & Hs & Hz). rewrite (run_bind_ok _ _ _ _ _ Hr).
    unfold on_service, zoom. rewrite run_bind, Hs.
    destruct (disconnect_run tenant (pr_service d0) Hv) as (v' & -> & H1 & H2 & H3).
    eexists _, _. split; [reflexivity|]. split_and!; try done; [by left|]. intros _. split; [done|].
    intros alias later Hl. rewrite (resolved_as _ _ _ _ Hl). by apply resolved_api.
Qed.
End Preferences.

(** ** A preference for the account, and its end *)

#[local] Existing Instance sample_cipher.
Definition sample_preferences : preferences := Preferences sample_authorized [] [] [].
Abbreviation sample_catalog := (CatalogAnswers (λ c, Ok c) "nonce-2"
  (λ _ _, Ok (200, Ok (JObj [("models", JArr [JObj [("slug", JStr "gpt")]])])))).
Definition sample_preferring : preferences :=
  Eval vm_compute in (update_owner_inference true "model-a" None "tenant_1" 0 (Some sample_selection) sample_catalog (mret tt)
    1767225010000000 sample_preferences).1.

Lemma preference_compare_and_swap_witness :
  update_owner_inference true "model-a" None "tenant_1" 0 (Some sample_selection) sample_catalog (mret tt)
    1767225010000000 sample_preferences = (sample_preferring, Ok (1, Some sample_selection, sample_selection)) ∧
  resolve_inference_plan "model-a" None None "tenant_1" None sample_preferring = resolve_plan sample_selection 1.
Proof.
  assert (update_owner_inference true "model-a" None "tenant_1" 0 (Some sample_selection) sample_catalog (mret tt)
    1767225010000000 sample_preferences = (sample_preferring, Ok (1, Some sample_selection, sample_selection))) as H
    by (vm_compute; reflexivity).
  split; [exact H|].
  destruct (preference_compare_and_swap true "model-a" None None _ _ _ _ _ _ _ _ _ H) as (d1 & _ & _ & _ & _ & _ & _ & Hp & _).
  exact Hp.
Defined.
Abbreviation sample_disconnection := (delete_codex_credential "tenant_1" true (mret tt) 1767225020000000 sample_preferring).
Lemma disconnected_uses_api_witness :
  codex_preference_count "tenant_1" sample_preferring = 1 ∧
  (delete_codex_credential "tenant_1" false (mret tt) 1767225020000000 sample_preferring).2 =
    Err (OtherException "HTTPException" "Codex is selected globally; confirm reset_threads") ∧
  sample_disconnection.2 = Ok (true, 1) ∧
  connected "tenant_1" (sv_db (pr_service sample_disconnection.1)) = false ∧
  ∀ alias, is_provider (ip_primary (resolve_inference_plan "model-a" None None "tenant_1" alias sample_disconnection.1)) =
    ApiProvider.
Proof.
  assert (sample_disconnection.2 = Ok (true, 1)) as E by (vm_compute; reflexivity).
  split_and!; [reflexivity|vm_compute; reflexivity|exact E|..];
    (destruct (disconnected_uses_api "model-a" None None "tenant_1" true (mret tt) 1767225020000000 sample_preferring)
      as (d & r & H & Hr);
     [eapply rtc_r; [apply sample_authorized_steps|];
      exact (step_validate "tenant_1" sample_selection sample_catalog 1767225010000000 sample_authorized)
     |apply rtc_refl|]; rewrite H in E |- *; cbn [fst snd] in E |- *; subst r).
  - apply Hr.
  - destruct Hr as (_ & _ & _ & _ & _ & _ & Hr). destruct Hr as [_ Hr]; [by left|]. intros alias. by apply Hr.
Defined.

(** A preference for the account that is chosen between the count and the
    deletion stays, though the account is gone. *)
Lemma late_choice_stays :
  let late := update_owner_inference true "model-a" None "tenant_1" 0 (Some sample_selection) sample_catalog (mret tt)
                1767225010000000 ;; mret tt in
  let '(d, r) := delete_codex_credential "tenant_1" false late 1767225020000000 sample_preferences in
  r = Ok (true, 0) ∧ connected "tenant_1" (sv_db (pr_service d)) = false ∧
  preferred "tenant_1" d = Some sample_selection.
Proof. vm_compute. done. Qed.
