(* ===== verification/InferenceCodex.v ===== *)
(** * Requests to the Codex provider ([inference/codex.py])

    The repair of a message history an interrupted tool call left without
    outputs, the retry of a stream before its first chunk, which errors are
    transient, and the tokens a request is made with. The answers of the
    provider and the parser of its token responses are arguments. *)

From S2P Require Import Prelude Sqlite PyText Clock Json JsonParse PyJson Redaction Cipher InferenceStore InferenceService.
From stdpp Require Import gmultiset.
#[local] Open Scope string_scope.
#[local] Open Scope list_scope.
#[local] Open Scope Z_scope.

(** ** Missing outputs of function calls

    A [Counter] is a multiset: the difference of two counters keeps the
    positive counts only, as that of multisets does. *)

Definition is_item (type : string) (item : json) : bool :=
  is_object item && (jget "type" item == Some (JStr type)).
Definition call_ids (type : string) (items : list json) : gmultiset string :=
  list_to_set_disj (omap (λ item, if is_item type item then optional_text "call_id" item else None) items).
Abbreviation calls := (call_ids "function_call").
Abbreviation outputs := (call_ids "function_call_output").

Definition cancelled_output (name id : string) : json :=
  JObj [("type", JStr "function_call_output"); ("call_id", JStr id);
        ("output", JStr ("Tool call " +:+ name +:+ " with id " +:+ id +:+
                         " was cancelled before it could be completed."))].

(** The loop over the items, with the outputs still missing and those to be
    written after the run of calls. *)
Fixpoint repair_items (missing : gmultiset string) (pending items : list json) : list json :=
  match items with
  | [] => pending
  | item :: items' =>
      if is_item "function_call" item then
        let id := py_str (py_or (jget "call_id" item) (JStr "")) in
        if (id == "") || (multiplicity id missing <=? 0)%nat then item :: repair_items missing pending items'
        else item :: repair_items (missing ∖ {[+ id +]}) (pending ++ [cancelled_output (text_or "name" "unknown" item) id]) items'
      else pending ++ item :: repair_items missing [] items'
  end.

(** [_repair_missing_function_call_outputs] *)
Definition repair_missing_function_call_outputs (payload : list (string * json)) : list (string * json) :=
  match jget "input" (JObj payload) with
  | Some (JArr items) =>
      let missing := calls items ∖ outputs items in
      if bool_decide (missing = ∅) then payload else assoc_set "input" (JArr (repair_items missing [] items)) payload
  | _ => payload
  end.
Definition input_items (payload : list (string * json)) : list json :=
  match jget "input" (JObj payload) with Some (JArr items) => items | _ => [] end.

(** A history in which an output answers a call made before it and not yet
    answered; [waiting] are the calls before it. *)
Fixpoint in_order (waiting : gmultiset string) (items : list json) : Prop :=
  match items with
  | [] => True
  | item :: items' =>
      match optional_text "call_id" item with
      | None => in_order waiting items'
      | Some id =>
          if is_item "function_call" item then in_order (waiting ⊎ {[+ id +]}) items'
          else if is_item "function_call_output" item then id ∈ waiting ∧ in_order (waiting ∖ {[+ id +]}) items'
          else in_order waiting items'
      end
  end.

(** ** The repaired history *)

Lemma cancelled_is_output name id : is_item "function_call_output" (cancelled_output name id) = true.
Proof. done. Qed.
Lemma cancelled_is_no_call name id : is_item "function_call" (cancelled_output name id) = false.
Proof. done. Qed.
Lemma cancelled_id name id : id ≠ "" → optional_text "call_id" (cancelled_output name id) = Some id.
Proof.
  intros H. unfold optional_text. assert (jget "call_id" (cancelled_output name id) = Some (JStr id)) as -> by done.
  simpl. by rewrite bool_decide_eq_false_2.
Qed.

(** The ids an item contributes to a counter. *)
Definition item_ids (type : string) (item : json) : gmultiset string :=
  match (if is_item type item then optional_text "call_id" item else None) with Some id => {[+ id +]} | None => ∅ end.
Lemma call_ids_cons type item items : call_ids type (item :: items) = item_ids type item ⊎ call_ids type items.
Proof.
  unfold call_ids, item_ids. simpl. destruct (is_item type item); [destruct (optional_text "call_id" item)|]; simpl.
  - done.
  - by rewrite (left_id_L ∅ (⊎)).
  - by rewrite (left_id_L ∅ (⊎)).
Qed.
Lemma call_ids_nil type : call_ids type [] = ∅.
Proof. done. Qed.
Lemma call_ids_app type l l' : call_ids type (l ++ l') = call_ids type l ⊎ call_ids type l'.
Proof. unfold call_ids. by rewrite omap_app, list_to_set_disj_app. Qed.
Lemma is_item_once type type' item : is_item type item = true → type ≠ type' → is_item type' item = false.
Proof.
  unfold is_item. intros [-> H%bool_decide_eq_true]%andb_true_iff Hne. rewrite H.
  apply bool_decide_eq_false_2. congruence.
Qed.

Lemma truthy_text v : py_true v = true → py_str v ≠ "".
Proof.
  destruct v as [|[]|z|s|l|l]; try done; simpl.
  - intros _ Hz. pose proof (pretty_Z_starts z "") as H. by rewrite Hz in H.
  - by intros H%negb_true_iff%bool_decide_eq_false.
Qed.
Lemma call_id_text item : py_str (py_or (jget "call_id" item) (JStr "")) = default "" (optional_text "call_id" item).
Proof.
  unfold py_or, optional_text. destruct (jget "call_id" item) as [v|]; [|done]. by destruct (py_true v).
Qed.
Lemma optional_text_nonempty key item : optional_text key item ≠ Some "".
Proof.
  unfold optional_text. destruct (jget key item) as [v|]; [|done].
  destruct (py_true v) eqn:E; [|done]. intros [= H]. by apply truthy_text in E.
Qed.

(** What one item adds: a call that has an id still missing consumes it. *)
Lemma repair_items_cons missing pending item items :
  repair_items missing pending (item :: items) =
    if is_item "function_call" item then
      match optional_text "call_id" item with
      | Some id =>
          if decide (id ∈ missing)
          then item :: repair_items (missing ∖ {[+ id +]}) (pending ++ [cancelled_output (text_or "name" "unknown" item) id]) items
          else item :: repair_items missing pending items
      | None => item :: repair_items missing pending items
      end
    else pending ++ item :: repair_items missing [] items.
Proof.
  cbn [repair_items]. destruct (is_item "function_call" item); [|done]. rewrite call_id_text.
  destruct (optional_text "call_id" item) as [id|] eqn:E; simpl; [|done].
  rewrite bool_decide_eq_false_2 by (intros ->; by apply optional_text_nonempty in E). simpl.
  destruct (decide (id ∈ missing)) as [H|H]; [rewrite elem_of_multiplicity in H|rewrite not_elem_of_multiplicity in H].
  - by rewrite (proj2 (Nat.leb_gt _ _) H).
  - by rewrite H.
Qed.

Lemma not_missing_call id missing items : id ∉ missing → missing ⊆ {[+ id +]} ⊎ calls items → missing ⊆ calls items.
Proof. intros ? ?. multiset_solver. Qed.

(** Every call missing an output gets one, the calls and the items stay. *)
Lemma repair_items_outputs items : ∀ missing pending, missing ⊆ calls items →
  outputs (repair_items missing pending items) = outputs pending ⊎ outputs items ⊎ missing.
Proof.
  induction items as [|item items IH]; intros missing pending Hm.
  - assert (missing = ∅) as -> by (rewrite call_ids_nil in Hm; multiset_solver).
    simpl. rewrite call_ids_nil. generalize (outputs pending). intros P. multiset_solver.
  - rewrite repair_items_cons. rewrite !call_ids_cons in *. unfold item_ids in Hm at 1.
    destruct (is_item "function_call" item) eqn:Ec.
    + assert (item_ids "function_call_output" item = ∅) as ->.
      { unfold item_ids. by rewrite (is_item_once _ _ _ Ec). }
      destruct (optional_text "call_id" item) as [id|] eqn:E.
      * destruct (decide (id ∈ missing)) as [Hid|Hid].
        -- rewrite call_ids_cons, IH by multiset_solver. rewrite call_ids_app.
           unfold item_ids. rewrite (is_item_once _ _ _ Ec) by done.
           rewrite call_ids_cons. unfold item_ids. rewrite cancelled_is_output, cancelled_id.
           ++ rewrite call_ids_nil. generalize (outputs pending), (outputs items). intros P O. multiset_solver.
           ++ intros ->. by apply optional_text_nonempty in E.
        -- rewrite call_ids_cons, IH by (by eapply not_missing_call).
           unfold item_ids. rewrite (is_item_once _ _ _ Ec) by done. multiset_solver.
      * rewrite call_ids_cons, IH by multiset_solver.
        unfold item_ids. rewrite (is_item_once _ _ _ Ec) by done. multiset_solver.
    + rewrite call_ids_app, call_ids_cons, IH by multiset_solver.
      rewrite call_ids_nil. multiset_solver.
Qed.
Lemma repair_items_calls items : ∀ missing pending, calls pending = ∅ →
  calls (repair_items missing pending items) = calls items.
Proof.
  induction items as [|item items IH]; intros missing pending Hp; [done|].
  rewrite repair_items_cons, call_ids_cons. destruct (is_item "function_call" item).
  - destruct (optional_text "call_id" item) as [id|]; [destruct (decide (id ∈ missing))|];
      rewrite call_ids_cons, IH; try done.
    rewrite call_ids_app, Hp, call_ids_cons. unfold item_ids. rewrite cancelled_is_no_call. done.
  - by rewrite call_ids_app, call_ids_cons, IH, Hp, (left_id_L ∅ (⊎)).
Qed.
Lemma repair_items_sublist items : ∀ missing pending, sublist items (repair_items missing pending items).
Proof.
  induction items as [|item items IH]; intros missing pending; [apply sublist_nil_l|].
  rewrite repair_items_cons. destruct (is_item "function_call" item).
  - destruct (optional_text "call_id" item) as [id|]; [destruct (decide (id ∈ missing))|]; by apply sublist_skip.
  - apply sublist_inserts_l. by apply sublist_skip.
Qed.
Lemma repair_items_none items : repair_items ∅ [] items = items.
Proof.
  induction items as [|item items IH]; [done|]. rewrite repair_items_cons. simpl. rewrite IH.
  destruct (is_item "function_call" item); [|done]. by destruct (optional_text "call_id" item).
Qed.

(** The outputs written after a run of calls answer calls that wait. *)
Definition cancelled (o : json) : Prop := ∃ name id, id ≠ "" ∧ o = cancelled_output name id.
Lemma flush_in_order pending rest : ∀ waiting, Forall cancelled pending → outputs pending ⊆ waiting →
  in_order (waiting ∖ outputs pending) rest → in_order waiting (pending ++ rest).
Proof.
  induction pending as [|o pending IH]; intros waiting Hp Hw Hr.
  - rewrite call_ids_nil in Hr. assert (waiting ∖ ∅ = waiting) as E by multiset_solver. by rewrite E in Hr.
  - apply Forall_cons_iff in Hp as [(name & id & Hid & ->) Hp]. rewrite call_ids_cons in Hw, Hr.
    unfold item_ids in Hw at 1, Hr at 1. rewrite cancelled_is_output, cancelled_id in Hw, Hr by done.
    cbn [in_order app]. rewrite cancelled_id, cancelled_is_no_call, cancelled_is_output by done.
    generalize dependent (outputs pending). intros P IH Hw Hr. split; [multiset_solver|].
    apply IH; [done|multiset_solver|].
    assert (waiting ∖ {[+ id +]} ∖ P = waiting ∖ ({[+ id +]} ⊎ P)) as -> by multiset_solver. done.
Qed.

Lemma outputs_cancelled pending name id : id ≠ "" →
  outputs (pending ++ [cancelled_output name id]) = outputs pending ⊎ {[+ id +]}.
Proof.
  intros Hid. rewrite call_ids_app, call_ids_cons, call_ids_nil. unfold item_ids.
  by rewrite cancelled_is_output, cancelled_id, (right_id_L ∅ (⊎)).
Qed.

(** The order is kept when what was written is of no later output:
    [answered] are the calls whose missing output was already written. *)
Definition no_output_of (items : list json) (ids : gmultiset string) : Prop := ∀ id, id ∈ outputs items → id ∉ ids.
Lemma no_output_cons item items ids : no_output_of (item :: items) ids → no_output_of items ids.
Proof. intros H id Hid. apply H. rewrite call_ids_cons, gmultiset_elem_of_disj_union. by right. Qed.
Lemma no_output_union items ids ids' :
  no_output_of items (ids ⊎ ids') ↔ no_output_of items ids ∧ no_output_of items ids'.
Proof.
  unfold no_output_of. setoid_rewrite gmultiset_elem_of_disj_union.
  split; [intros H; split; intros id Hid Hin; apply (H id Hid); tauto|].
  intros [H H'] id Hid [Hin|Hin]; [by apply (H id)|by apply (H' id)].
Qed.
Lemma no_output_mono items ids ids' : ids' ⊆ ids → no_output_of items ids → no_output_of items ids'.
Proof. intros Hs H id Hid Hin. apply (H id Hid). by eapply gmultiset_elem_of_subseteq. Qed.

Lemma no_output_nil items : no_output_of items (outputs []).
Proof. intros id _. apply gmultiset_not_elem_of_empty. Qed.
#[local] Hint Resolve no_output_nil : core.

Lemma repair_items_in_order items : ∀ waiting answered missing pending,
  Forall cancelled pending → outputs pending ⊆ waiting → in_order (waiting ⊎ answered) items →
  no_output_of items answered → no_output_of items (outputs pending) → no_output_of items missing →
  in_order waiting (repair_items missing pending items).
Proof.
  induction items as [|item items IH]; intros w x missing pending Hp Hw Hi Hx Ho Hm.
  { simpl. rewrite <-(app_nil_r pending). by apply flush_in_order. }
  rewrite repair_items_cons. cbn [in_order] in Hi.
  pose proof (no_output_cons _ _ _ Hx) as Hx'. pose proof (no_output_cons _ _ _ Ho) as Ho'.
  pose proof (no_output_cons _ _ _ Hm) as Hm'. destruct (is_item "function_call" item) eqn:Ec.
  - destruct (optional_text "call_id" item) as [id|] eqn:E.
    + assert (id ≠ "") as Hne by (intros ->; by apply optional_text_nonempty in E).
      assert (w ⊎ x ⊎ {[+ id +]} = w ⊎ {[+ id +]} ⊎ x) as Ew by multiset_solver. rewrite Ew in Hi.
      destruct (decide (id ∈ missing)) as [Hid|Hid]; cbn [in_order]; rewrite E, Ec; apply (IH _ x); try done.
      * apply Forall_app. split; [done|]. apply Forall_singleton. by exists (text_or "name" "unknown" item), id.
      * rewrite outputs_cancelled by done. by apply gmultiset_disj_union_mono.
      * rewrite outputs_cancelled by done. apply no_output_union. split; [done|].
        apply (no_output_mono _ missing); [|done]. multiset_solver.
      * apply (no_output_mono _ missing); [|done]. multiset_solver.
      * etrans; [exact Hw|]. multiset_solver.
    + cbn [in_order]. rewrite E. by apply (IH _ x).
  - apply flush_in_order; [done|done|]. cbn [in_order]. rewrite Ec.
    assert (w ∖ outputs pending ⊎ (x ⊎ outputs pending) = w ⊎ x) as Ew.
    { revert Hw. generalize (outputs pending). intros P HP. multiset_solver. }
    assert (no_output_of items (x ⊎ outputs pending)) as Hxp by (by apply no_output_union).
    destruct (optional_text "call_id" item) as [id|] eqn:E; [destruct (is_item "function_call_output" item) eqn:Eo|].
    + destruct Hi as [Hid Hi].
      assert (id ∈ outputs (item :: items)) as Hin.
      { rewrite call_ids_cons, gmultiset_elem_of_disj_union. left. unfold item_ids. rewrite Eo, E.
        by apply gmultiset_elem_of_singleton. }
      specialize (Hx _ Hin). specialize (Ho _ Hin).
      assert (id ∈ w ∖ outputs pending) as Hid'.
      { revert Hid Hx Ho. rewrite !elem_of_multiplicity, !multiplicity_disj_union, multiplicity_difference. lia. }
      split; [done|]. apply (IH _ (x ⊎ outputs pending)); try done.
      * by rewrite call_ids_nil; apply gmultiset_empty_subseteq.
      * assert (w ∖ outputs pending ∖ {[+ id +]} ⊎ (x ⊎ outputs pending) = (w ⊎ x) ∖ {[+ id +]}) as ->; [|done].
        rewrite <-Ew. revert Hid'. generalize (w ∖ outputs pending), (x ⊎ outputs pending). intros A B HA. multiset_solver.
    + apply (IH _ (x ⊎ outputs pending)); try done; [apply gmultiset_empty_subseteq|by rewrite Ew].
    + apply (IH _ (x ⊎ outputs pending)); try done; [apply gmultiset_empty_subseteq|by rewrite Ew].
Qed.

(** The history a request carries is complete once repaired: every call
    has at least as many outputs as calls, no more are written than were
    missing, every item of the history stays in its place among the others,
    and so does every other field of the request. What is repaired needs no
    repair. A history whose outputs answer earlier calls is repaired to such a
    history when no call id is used twice. *)
Theorem history_repaired payload items
    (Hin : jget "input" (JObj payload) = Some (JArr items)) :
  let payload' := repair_missing_function_call_outputs payload in
  let items' := input_items payload' in
  jget "input" (JObj payload') = Some (JArr items') ∧
  (∀ key, key ≠ "input" → jget key (JObj payload') = jget key (JObj payload)) ∧
  sublist items items' ∧ calls items' = calls items ∧ outputs items' = outputs items ∪ calls items ∧
  repair_missing_function_call_outputs payload' = payload' ∧
  (in_order ∅ items → (∀ id, (multiplicity id (calls items) ≤ 1)%nat) → in_order ∅ items').
Proof.
  assert (∃ items', let payload' := repair_missing_function_call_outputs payload in
    jget "input" (JObj payload') = Some (JArr items') ∧
    (∀ key, key ≠ "input" → jget key (JObj payload') = jget key (JObj payload)) ∧
    items' = repair_items (calls items ∖ outputs items) [] items) as (items' & H1 & H2 & H3).
  { unfold repair_missing_function_call_outputs. rewrite Hin. case_bool_decide as E; cbn -[repair_items].
    - exists items. split_and!; [done|done|]. rewrite E. symmetry. apply repair_items_none.
    - eexists. rewrite assoc_set_same. split_and!; [done| |done]. intros key Hk. by apply assoc_set_other. }
  assert (outputs items' = outputs items ∪ calls items) as Ho.
  { rewrite H3, repair_items_outputs by multiset_solver. rewrite call_ids_nil. multiset_solver. }
  assert (calls items' = calls items) as Hc by (rewrite H3; by apply repair_items_calls).
  cbn zeta. unfold input_items. rewrite H1. split_and!; try done.
  - rewrite H3. apply repair_items_sublist.
  - unfold repair_missing_function_call_outputs at 1. rewrite H1, Hc, Ho.
    rewrite bool_decide_eq_true_2; [done|multiset_solver].
  - intros Hi Hu. rewrite H3. apply (repair_items_in_order _ _ ∅); auto.
    intros id Hid. rewrite elem_of_multiplicity in Hid.
      rewrite elem_of_multiplicity, multiplicity_difference. specialize (Hu id). lia.
Qed.

(** ** Streams retried before their first chunk *)

Section Stream.
Context {Chunk E : Type} (transient : E → bool).

(** One attempt: the chunks it emitted, and the error that ended it. *)
Record stream_attempt := StreamAttempt { at_chunks : list Chunk; at_error : option E }.
(** What reached the client, how it ended, and the pauses before retries, in microseconds. *)
Record streamed := Streamed { st_chunks : list Chunk; st_error : option E; st_pauses : list Z }.
Definition initial_stream_attempts : Z := 3.
Definition retry_pause (attempt : Z) : Z := 500000 * 2 ^ attempt.

(** [_stream] and [_astream]: [for attempt in range] with the attempts of the base class. *)
Fixpoint retry_stream (range : list Z) (attempts : Z → stream_attempt) : streamed :=
  match range with
  | [] => Streamed [] None []
  | attempt :: range' =>
      let a := attempts attempt in
      match at_error a with
      | None => Streamed (at_chunks a) None []
      | Some e =>
          let emitted := match at_chunks a with [] => false | _ => true end in
          if emitted || negb (transient e) || (attempt =? initial_stream_attempts - 1)
          then Streamed (at_chunks a) (Some e) []
          else
            let rest := retry_stream range' attempts in
            Streamed (at_chunks a ++ st_chunks rest) (st_error rest) (retry_pause attempt :: st_pauses rest)
      end
  end.
Definition stream : (Z → stream_attempt) → streamed := retry_stream (seqZ 0 initial_stream_attempts).

(** An attempt that failed before a client saw anything of it. *)
Definition silent (a : stream_attempt) : Prop := ∃ e, a = StreamAttempt [] (Some e) ∧ transient e = true.

Lemma retry_stream_last attempts start count : 0 <= start → 0 < count → start + count = initial_stream_attempts →
  ∃ k, start <= k < initial_stream_attempts ∧ (∀ j, start <= j < k → silent (attempts j)) ∧
    (¬ silent (attempts k) ∨ k = initial_stream_attempts - 1) ∧
    retry_stream (seqZ start count) attempts =
      Streamed (at_chunks (attempts k)) (at_error (attempts k)) (retry_pause <$> seqZ start (k - start)).
Proof.
  intros Hs Hc. remember (Z.to_nat count) as n eqn:Hn. revert start count Hs Hc Hn.
  induction n as [|n IH]; intros start count Hs Hc Hn Hsum; [lia|].
  assert (∀ j, start <= j < start → silent (attempts j)) as Hnone by lia.
  assert (retry_pause <$> seqZ start (start - start) = []) as Hpauses by (by rewrite Z.sub_diag).
  rewrite seqZ_cons by lia. cbn [retry_stream].
  destruct (attempts start) as [chunks [e|]] eqn:Ea; cbn [at_chunks at_error].
  - destruct chunks as [|c chunks]; simpl.
    + destruct (transient e) eqn:Et; simpl.
      * destruct (start =? _) eqn:El.
        -- apply Z.eqb_eq in El. exists start. rewrite Ea, Hpauses. split_and!; [lia|lia|done|by right|done].
        -- apply Z.eqb_neq in El. unfold initial_stream_attempts in *.
           destruct (IH (Z.succ start) (Z.pred count)) as (k & Hk & Hsilent & Hlast & ->); [lia..|].
           exists k. split_and!; [lia|lia| |done|].
           ++ intros j Hj. destruct (decide (j = start)) as [->|]; [by exists e|apply Hsilent; lia].
           ++ rewrite (seqZ_cons start) by lia. simpl. by replace (Z.pred (k - start)) with (k - Z.succ start) by lia.
      * exists start. rewrite Ea, Hpauses. unfold initial_stream_attempts in *. split_and!; [lia|lia|done| |done].
        left. intros (e' & [= ->] & Ht). congruence.
    + exists start. rewrite Ea, Hpauses. unfold initial_stream_attempts in *. split_and!; [lia|lia|done| |done].
      left. by intros (e' & ? & _).
  - exists start. rewrite Ea, Hpauses. unfold initial_stream_attempts in *. split_and!; [lia|lia|done| |done].
    left. by intros (e' & ? & _).
Qed.

(** A client sees the chunks of one attempt and how that attempt ended, all
    attempts before it failed with a transient error and without a chunk; an
    attempt that did is the one seen only when it is the third. The pauses
    before the retries double from half a second and are never longer than a
    second and a half together. *)
Theorem stream_shows_one_attempt (attempts : Z → stream_attempt) :
  ∃ k, 0 <= k < 3 ∧ (∀ j, 0 <= j < k → silent (attempts j)) ∧ (silent (attempts k) → k = 2) ∧
    stream attempts = Streamed (at_chunks (attempts k)) (at_error (attempts k)) (retry_pause <$> seqZ 0 k) ∧
    foldr Z.add 0 (st_pauses (stream attempts)) <= 1500000.
Proof.
  destruct (retry_stream_last attempts 0 3) as (k & Hk & Hsilent & Hlast & Heq); [lia..|done|].
  unfold initial_stream_attempts in *. exists k.
  assert (stream attempts = Streamed (at_chunks (attempts k)) (at_error (attempts k)) (retry_pause <$> seqZ 0 k)) as ->.
  { change (stream attempts) with (retry_stream (seqZ 0 3) attempts). by rewrite Heq, Z.sub_0_r. }
  split_and!; [lia|lia|done|intros ?; destruct Hlast; [done|lia]|done|].
  assert (k = 0 ∨ k = 1 ∨ k = 2) as [->|[->| ->]] by lia; vm_compute; congruence.
Qed.
End Stream.

(** ** Transient errors

    An exception is a number, its identity: the exceptions of a program are a
    list, and what raised an exception may form a cycle. *)

Record error := Error {
  er_network : bool;
  er_status : Z;
  er_response_status : Z;
  er_message : string;
  er_body : option json;
  er_cause : option nat;
  er_context : option nat;
}.
Definition overload_codes : list string := ["overloaded"; "overloaded_error"; "rate_limit_exceeded"; "server_error"].
(** One round of the loop of [is_transient]. *)
Definition transient_error (e : error) : bool :=
  let status := if er_status e =? 0 then er_response_status e else er_status e in
  let message := casefold (er_message e) in
  er_network e
  || ((status =? 429) || ((500 <=? status) && (status <? 600)))
  || ((contains "server" message && (contains "overload" message || contains "temporarily unavailable" message))
      || contains "try again later" message)
  || match er_body e with
     | Some (JObj l) =>
         bool_decide (casefold (py_str (py_or (Json.assoc "code" l) (py_or (Json.assoc "type" l) (JStr "")))) ∈ overload_codes)
     | _ => false
     end.
(** [current.__cause__ or current.__context__] *)
Definition raised_from (errors : list error) (n : nat) : option nat :=
  e ← errors !! n; match er_cause e with Some c => Some c | None => er_context e end.

Fixpoint transient_from (fuel : nat) (errors : list error) (visited : list nat) (current : option nat) : bool :=
  match fuel, current with
  | S fuel', Some n =>
      if bool_decide (n ∈ visited) then false
      else match errors !! n with
           | None => false
           | Some e =>
               if transient_error e then true
               else transient_from fuel' errors (n :: visited) (raised_from errors n)
           end
  | _, _ => false
  end.
Definition is_transient (errors : list error) (n : nat) : bool :=
  transient_from (S (length errors)) errors [] (Some n).
(** [is_unauthorized] *)
Definition is_unauthorized (e : error) : bool := (er_status e =? 401) || (er_response_status e =? 401).

(** The exceptions an exception was raised from, itself among them. *)
Definition in_chain (errors : list error) : nat → nat → Prop := rtc (λ a b, raised_from errors a = Some b).

Lemma transient_from_sound fuel errors : ∀ visited n,
  transient_from fuel errors visited (Some n) = true →
  ∃ m e, in_chain errors n m ∧ errors !! m = Some e ∧ transient_error e = true.
Proof.
  induction fuel as [|fuel IH]; intros visited n; simpl; [done|].
  case_bool_decide; [done|]. destruct (errors !! n) as [e|] eqn:En; [|done].
  destruct (transient_error e) eqn:Et; intros H'.
  - exists n, e. split_and!; [apply rtc_refl|done|done].
  - destruct (raised_from errors n) as [n'|] eqn:Er; [|by destruct fuel].
    destruct (IH _ _ H') as (m & e' & Hm & He). exists m, e'. split; [by eapply rtc_l|done].
Qed.

(** What was visited is not transient, and the loop is at what was raised from it. *)
Definition visited_ok (errors : list error) (visited : list nat) (current : nat) : Prop :=
  NoDup visited ∧ (∀ v, v ∈ visited → ∃ e, errors !! v = Some e ∧ transient_error e = false) ∧
  ∀ v v', v ∈ visited → raised_from errors v = Some v' → v' ∈ visited ∨ v' = current.
Lemma visited_closed errors visited current a m : visited_ok errors visited current → current ∈ visited →
  a ∈ visited → in_chain errors a m → m ∈ visited.
Proof.
  intros (_ & _ & Hc) Hin Ha Hm. revert Ha. induction Hm as [a|a b c Hab _ IH]; [done|].
  intros Ha. apply IH. by destruct (Hc a b Ha Hab) as [?| ->].
Qed.
Lemma transient_from_complete fuel errors : ∀ visited n m e,
  visited_ok errors visited n → (length errors < fuel + length visited)%nat →
  in_chain errors n m → errors !! m = Some e → transient_error e = true →
  transient_from fuel errors visited (Some n) = true.
Proof.
  induction fuel as [|fuel IH]; intros visited n m e Hv Hf Hm He Ht.
  - exfalso. destruct Hv as (Hnd & Hin & _).
    enough (length visited ≤ length errors)%nat by (simpl in Hf; lia).
    replace (length errors) with (length (seq 0 (length errors))) by apply length_seq. apply submseteq_length, NoDup_submseteq; [done|].
    intros v (e' & Hl & _)%Hin. apply elem_of_seq. apply lookup_lt_Some in Hl. lia.
  - simpl. case_bool_decide as Hin.
    + exfalso. pose proof (visited_closed _ _ _ n m Hv Hin Hin Hm) as Hmv.
      destruct Hv as (_ & Hv & _). destruct (Hv m Hmv) as (e' & He' & Ht'). congruence.
    + inversion Hm as [|a b c Hstep Hrest]; subst.
      * rewrite He, Ht. done.
      * rewrite Hstep. unfold raised_from in Hstep at 1. destruct (errors !! n) as [en|] eqn:En; [|done].
        destruct (transient_error en) eqn:Etn; [done|].
        apply (IH _ _ m e); [|simpl; lia|done..]. destruct Hv as (Hnd & Hv & Hc). split_and!.
        -- by constructor.
        -- intros v [->|Hv']%elem_of_cons; [by exists en|by apply Hv].
        -- intros v v' [->|Hv']%elem_of_cons Hr.
           ++ right. unfold raised_from in Hr. rewrite En in Hr. simpl in Hstep, Hr. congruence.
           ++ left. destruct (Hc v v' Hv' Hr) as [?| ->]; apply elem_of_cons; auto.
Qed.

(** An error is transient exactly when it, or one of the exceptions it was
    raised from, is a network failure, an overload or a rate limit; the search
    ends also when the exceptions were raised from each other in a circle. *)
Theorem transient_by_chain errors n :
  is_transient errors n = true ↔ ∃ m e, in_chain errors n m ∧ errors !! m = Some e ∧ transient_error e = true.
Proof.
  split; [apply transient_from_sound|]. intros (m & e & Hm & He & Ht).
  apply (transient_from_complete _ _ _ _ m e); try done; [|simpl; lia].
  split_and!; [constructor|intros v Hv; by apply elem_of_nil in Hv|intros v v' Hv; by apply elem_of_nil in Hv].
Qed.

(** ** Tokens *)

(** What the token endpoint answers: nothing, or a status and what the body is as JSON. *)
Inductive token_answer := NoAnswer (message : string) | Answered (status : Z) (body : outcome json).

Section Tokens.
Context `{HostKeySecretCipher}.
Context (token_from_response : json → string → outcome codex_credential).

(** [_refresh]; [post] is the answer to a request with a refresh token. *)
Definition refresh_error (e : exn) : exn :=
  if http_failure e || (match e with ValidationError _ => true | _ => false end)
  then provider_error "Codex token refresh failed" else e.
Definition request_refresh (post : string → token_answer) (current : codex_credential) : outcome codex_credential :=
  match post (cc_refresh current) with
  | NoAnswer message => Err (OtherException "HTTPError" message)
  | Answered status body =>
      if (status =? 429) || (500 <=? status) then Err (provider_error "Codex token refresh is temporarily unavailable")
      else if 400 <=? status then Err (authentication_error "Codex authorization must be renewed")
      else
        payload ← body;
        if is_object payload then
          token ← token_from_response payload (cc_refresh current);
          check_credential (token <| cc_revision := 1 |>)
        else Err (authentication_error "Codex returned an invalid refresh response")
  end.
Definition codex_refresh (post : string → token_answer) (current : codex_credential) : outcome codex_credential :=
  match request_refresh post current with Ok c => Ok c | Err e => Err (refresh_error e) end.
End Tokens.

Section TokenPromises.
Context `{CipherLaws}.
Context (token_from_response : json → string → outcome codex_credential).

Lemma refreshed_token_run tenant a force now v current :
  load_credential tenant (sv_db v) = (sv_db v, Ok (Some current)) →
  refreshed_token tenant a force now v =
    if negb force && negb (expires_soon current now) then (v, Ok current)
    else match ca_refresh a current with
         | Err e => (v, Err (if is_class "FileNotFoundError" e then authentication_error "Codex is not connected" else e))
         | Ok new =>
             let saved := new <| cc_revision := cc_revision current + 1 |> in
             match check_credential saved with
             | Ok _ => (v <| sv_db := written tenant saved (ca_nonce a) now (sv_db v) |>, Ok saved)
             | Err e => (v, Err e)
             end
         end.
Proof.
  intros Hl. unfold load_credential in Hl. rewrite run_gets_bind in Hl.
  unfold refreshed_token. rewrite run_try_except. unfold on_store, zoom. rewrite refresh_credential_run.
  unfold credential_at. destruct (row_at cw_tenant tenant _) as [r|]; [|done]. rewrite run_outcome_bind in Hl.
  destruct (credential_from_row tenant r) as [c|]; [|done]. injection Hl as ->.
  assert (v <| sv_db := sv_db v |> = v) as Hv by by destruct v.
  destruct (negb force && _); [by rewrite Hv|].
  destruct (ca_refresh a current) as [new|e]; cbv zeta.
  - destruct (check_credential _) as [s|e] eqn:E; [done|]. rewrite Hv. unfold check_credential in E.
    case_match; [|done]. by injection E as <-.
  - rewrite Hv. by destruct (is_class _ e).
Qed.

(** C13: the token of a connected tenant, whose credential can be read, with nothing
    else happening to the store while the provider answers. A token that lives
    for more than five minutes is served without a request; otherwise, or when the
    caller forces it, the token is renewed. A renewal that gets no answer, or one
    that says the provider is busy, is a failure of the provider; one refused with
    another status from 400 on asks for a new login; none of them changes what is
    stored. A renewal that is granted, with an object from which a token is read
    that the row can hold, stores the new token under the revision after the
    current one before it serves it, and no other tenant's credential changes. *)
Theorem token_renewal tenant post nonce request now v current
    (Hl : load_credential tenant (sv_db v) = (sv_db v, Ok (Some current))) :
  let renew force :=
    refreshed_token tenant (CatalogAnswers (codex_refresh token_from_response post) nonce request) force now v in
  (now < cc_expires current - 300000000 → renew false = (v, Ok current)) ∧
  (cc_expires current - 300000000 <= now → renew false = renew true) ∧
  match post (cc_refresh current) with
  | NoAnswer _ => renew true = (v, Err (provider_error "Codex token refresh failed"))
  | Answered status body =>
      if (status =? 429) || (500 <=? status)
      then renew true = (v, Err (provider_error "Codex token refresh is temporarily unavailable"))
      else if 400 <=? status then renew true = (v, Err (authentication_error "Codex authorization must be renewed"))
      else ∀ payload new, body = Ok payload → is_object payload = true →
        token_from_response payload (cc_refresh current) = Ok new →
        let saved := new <| cc_revision := cc_revision current + 1 |> in writable saved →
        ∃ v', renew true = (v', Ok saved) ∧ load_credential tenant (sv_db v') = (sv_db v', Ok (Some saved)) ∧
          ∀ other, other ≠ tenant → (load_credential other (sv_db v')).2 = (load_credential other (sv_db v)).2
  end.
Proof.
  cbv zeta. split_and!.
  - intros Hn. rewrite (refreshed_token_run _ _ _ _ _ _ Hl). unfold expires_soon.
    by rewrite (proj2 (Z.leb_gt _ _) Hn).
  - intros Hn. rewrite !(refreshed_token_run _ _ _ _ _ _ Hl). unfold expires_soon.
    by rewrite (proj2 (Z.leb_le _ _) Hn).
  - rewrite (refreshed_token_run _ _ _ _ _ _ Hl). cbn [negb andb ca_refresh ca_nonce]. unfold codex_refresh, request_refresh.
    destruct (post (cc_refresh current)) as [m|status body]; [done|].
    destruct ((status =? 429) || (500 <=? status)); [done|]. destruct (400 <=? status); [done|].
    intros payload new -> Ho Hnew Hw. cbn [mbind outcome_mbind]. rewrite Ho, Hnew. cbn [mbind outcome_mbind].
    assert (check_credential (new <| cc_revision := 1 |>) = Ok (new <| cc_revision := 1 |>)) as ->.
    { destruct Hw as [Hw _]. unfold check_credential in *. simpl in *. by destruct ((cc_access new == "") || _). }
    cbn [mbind outcome_mbind]. destruct (Hw) as [Hc _].
    destruct (check_credential (_ <| cc_revision := _ |>)) eqn:E in |- *; [|by pose proof (eq_trans (eq_sym E) Hc)].
    eexists. split_and!; [done|by apply written_loads|]. intros other Hne. by apply written_others.
Qed.
End TokenPromises.

(** ** Samples *)

Definition sample_call (id : string) : json :=
  JObj [("type", JStr "function_call"); ("call_id", JStr id); ("name", JStr "search")].
Definition sample_output (id : string) : json :=
  JObj [("type", JStr "function_call_output"); ("call_id", JStr id); ("output", JStr "done")].
Definition sample_message : json := JObj [("type", JStr "message"); ("role", JStr "user")].
(** Two calls in parallel, of which one was answered, and the owner's next message. *)
Definition sample_history : list json := [sample_call "a"; sample_call "b"; sample_output "b"; sample_message].
Definition sample_request : list (string * json) := [("model", JStr "codex"); ("input", JArr sample_history)].

Example sample_repaired :
  input_items (repair_missing_function_call_outputs sample_request) =
    [sample_call "a"; sample_call "b"; cancelled_output "search" "a"; sample_output "b"; sample_message].
Proof. vm_compute. reflexivity. Qed.
Example calls_stay_together :
  repair_items (calls [sample_call "a"; sample_call "b"]) [] [sample_call "a"; sample_call "b"; sample_message] =
    [sample_call "a"; sample_call "b"; cancelled_output "search" "a"; cancelled_output "search" "b"; sample_message].
Proof. vm_compute. reflexivity. Qed.

Lemma history_repaired_witness :
  jget "input" (JObj sample_request) = Some (JArr sample_history) ∧
  in_order ∅ (input_items (repair_missing_function_call_outputs sample_request)).
Proof.
  split; [reflexivity|].
  apply (history_repaired sample_request sample_history ltac:(reflexivity)).
  - cbn -[bool_decide]. split; [|done]. by vm_compute.
  - intros id. assert (calls sample_history = {[+ "a"; "b" +]}) as -> by (vm_compute; reflexivity).
    rewrite multiplicity_disj_union, !multiplicity_singleton.
    destruct (decide (id = "a")) as [->|]; [by destruct (decide ("a" = "b"))|]. destruct (decide (id = "b")); simpl; lia.
Defined.

(** A call id used again after its output: the output that is missing is
    written after the first call, and the first output is then before the call
    it is left to. *)
Lemma reused_id_out_of_order :
  let items := [sample_call "a"; sample_output "a"; sample_call "a"] in
  in_order ∅ items ∧
  repair_items (calls items ∖ outputs items) [] items =
    [sample_call "a"; cancelled_output "search" "a"; sample_output "a"; sample_call "a"] ∧
  ¬ in_order ∅ (repair_items (calls items ∖ outputs items) [] items).
Proof.
  cbn zeta. split; [cbn -[bool_decide]; split; [by vm_compute|done]|].
  assert (repair_items (calls [sample_call "a"; sample_output "a"; sample_call "a"] ∖
    outputs [sample_call "a"; sample_output "a"; sample_call "a"]) [] [sample_call "a"; sample_output "a"; sample_call "a"] =
    [sample_call "a"; cancelled_output "search" "a"; sample_output "a"; sample_call "a"]) as -> by (vm_compute; reflexivity).
  split; [done|]. intros (_ & H & _). apply elem_of_multiplicity in H. vm_compute in H. lia.
Qed.

(** A rate limit wrapped in an error that was raised from itself. *)
Definition sample_errors : list error :=
  [Error false 0 0 "Codex request failed" None (Some 1%nat) None;
   Error false 429 0 "" None None (Some 0%nat);
   Error false 0 400 "invalid request" None None (Some 2%nat)].
Example sample_transient : is_transient sample_errors <$> [0%nat; 1%nat; 2%nat] = [true; true; false].
Proof. vm_compute. reflexivity. Qed.

#[local] Existing Instance sample_cipher.
Definition sample_session : service := new_service <| sv_db := sample_connected |>.
Definition sample_parse (payload : json) (fallback : string) : outcome codex_credential :=
  access ← member "access_token" payload;
  Ok (CodexCredential (py_str access) (text_or "refresh_token" fallback payload) None (Some "account") 1767229200000000 1).
Definition sample_post (refresh_token : string) : token_answer :=
  if refresh_token == "refresh-1" then Answered 200 (Ok (JObj [("access_token", JStr "access-2")]))
  else Answered 401 (Ok (JObj [])).

Lemma token_renewal_witness :
  load_credential "tenant_1" sample_connected = (sample_connected, Ok (Some sample_credential)) ∧
  ∃ v', refreshed_token "tenant_1" (CatalogAnswers (codex_refresh sample_parse sample_post) "nonce-3" (λ _ _, Err AssertionError))
          true 1767225400000000 sample_session =
    (v', Ok (CodexCredential "access-2" "refresh-1" None (Some "account") 1767229200000000 2)).
Proof.
  split; [vm_compute; reflexivity|].
  destruct (token_renewal sample_parse "tenant_1" sample_post "nonce-3" (λ _ _, Err AssertionError) 1767225400000000
    sample_session sample_credential) as (_ & _ & H); [vm_compute; reflexivity|].
  destruct (H (JObj [("access_token", JStr "access-2")])
    (CodexCredential "access-2" "refresh-1" None (Some "account") 1767229200000000 1)) as (v' & Hv & _);
    [reflexivity..| |by exists v'].
  split_and!; [reflexivity|unfold representable; simpl; lia|done|done].
Defined.
