(* ===== verification/Notifications.v ===== *)
(** * Owner notifications ([notifications/models.py], [store.py], [service.py])

    The notifications a tenant's interfaces read: a log that is written once
    under each key, listed in order to every consumer until it acknowledges.
    The columns hold JSON texts, which are read back and validated again. *)

From S2P Require Import Prelude Sqlite PyText Clock Sha256 Json JsonParse Contracts.
From stdpp Require Import gmap.
#[local] Open Scope string_scope.
#[local] Open Scope list_scope.
#[local] Open Scope Z_scope.

(** ** Contracts *)

Record notification_origin := NotificationOrigin {
  no_interface : option string;
  no_source : option string;
  no_conversation : option string;
  no_message : option string;
  no_channel : option string;
  no_correlation : option string;
}.
Record notification_approval := NotificationApproval {
  na_id : string;
  na_tool : string;
  na_description : string;
  na_decisions : list decision_kind;
}.
Record notification_write := NotificationWrite {
  nw_kind : string;
  nw_text : string;
  nw_status : string;
  nw_thread : option string;
  nw_run : option string;
  nw_origin : option notification_origin;
  nw_approvals : list notification_approval;
}.
Record owner_notification := OwnerNotification {
  on_id : Z;
  on_tenant : string;
  on_key : string;
  on_write : notification_write;
  on_created : Z;
}.
#[global] Instance notification_origin_eq_dec : EqDecision notification_origin.
Proof. solve_decision. Defined.
#[global] Instance notification_approval_eq_dec : EqDecision notification_approval.
Proof. solve_decision. Defined.
#[global] Instance notification_write_eq_dec : EqDecision notification_write.
Proof. solve_decision. Defined.
#[global] Instance owner_notification_eq_dec : EqDecision owner_notification.
Proof. solve_decision. Defined.

(** [model_dump(mode="json")] *)
Definition nullable_text (o : option string) : json := match o with Some s => JStr s | None => JNull end.
Definition origin_json (o : notification_origin) : json :=
  JObj [("interface", nullable_text (no_interface o)); ("source_id", nullable_text (no_source o));
        ("conversation_id", nullable_text (no_conversation o)); ("message_id", nullable_text (no_message o));
        ("channel", nullable_text (no_channel o)); ("correlation_id", nullable_text (no_correlation o))].
Definition notification_approval_json (a : notification_approval) : json :=
  JObj [("approval_id", JStr (na_id a)); ("tool_name", JStr (na_tool a)); ("description", JStr (na_description a));
        ("allowed_decisions", JArr ((λ k, JStr (decision_text k)) <$> na_decisions a))].
Definition approvals_json (l : list notification_approval) : json := JArr (notification_approval_json <$> l).
Definition write_json (w : notification_write) : json :=
  JObj [("kind", JStr (nw_kind w)); ("text", JStr (nw_text w)); ("status", JStr (nw_status w));
        ("thread_id", nullable_text (nw_thread w)); ("run_id", nullable_text (nw_run w));
        ("origin", match nw_origin w with Some o => origin_json o | None => JNull end);
        ("approvals", approvals_json (nw_approvals w))].

(** *** Validation

    A mapping with fields of the model only; a field that is not there has its
    default. *)
Definition only_fields (names : list string) (v : json) : bool :=
  match v with JObj l => forallb (λ kv, bool_decide (kv.1 ∈ names)) l | _ => false end.
Definition text_value (v : option json) : option string := match v with Some (JStr s) => Some s | _ => None end.
Definition optional_value (check : string → option string) (v : option json) : option (option string) :=
  match v with
  | None | Some JNull => Some None
  | Some (JStr s) => Some <$> check s
  | _ => None
  end.
(** [any(ord(character) < 32 for character in value)] *)
Definition no_control (s : string) : bool := all_chars (λ c, (32 <=? code c)%N) s.
Definition safe_text (maximum : Z) (s : string) : option string :=
  t ← text_field 1 maximum s; if no_control t then Some t else None.
(** [^[a-z][a-z0-9_.-]{0,99}$] on the stripped text. *)
Definition name_char (c : ascii) : bool :=
  ((97 <=? code c) && (code c <=? 122) || (48 <=? code c) && (code c <=? 57))%N ||
  bool_decide (c ∈ ["_"%char; "."%char; "-"%char]).
Definition notification_name (s : string) : option string :=
  match strip s with
  | String c t =>
      if (97 <=? code c)%N && (code c <=? 122)%N && all_chars name_char t && (len t <=? 99) then Some (String c t) else None
  | EmptyString => None
  end.

Definition origin_fields : list string := ["interface"; "source_id"; "conversation_id"; "message_id"; "channel"; "correlation_id"].
Definition validate_origin (v : json) : option notification_origin :=
  if only_fields origin_fields v then
    interface ← optional_value (safe_text 64) (jget "interface" v);
    source ← optional_value (safe_text 200) (jget "source_id" v);
    conversation ← optional_value (safe_text 200) (jget "conversation_id" v);
    message ← optional_value (safe_text 200) (jget "message_id" v);
    channel ← optional_value (safe_text 64) (jget "channel" v);
    correlation ← optional_value (safe_text 300) (jget "correlation_id" v);
    if existsb (λ o : option string, bool_decide (is_Some o)) [interface; source; conversation; message; channel; correlation]
    then Some (NotificationOrigin interface source conversation message channel correlation) else None
  else None.

Definition decision_value (v : json) : option decision_kind :=
  match v with
  | JStr s => List.find (λ k, decision_text k == s) [DecideApprove; DecideEdit; DecideReject]
  | _ => None
  end.
Definition approval_fields : list string := ["approval_id"; "tool_name"; "description"; "allowed_decisions"].
Definition validate_approval (v : json) : option notification_approval :=
  if only_fields approval_fields v then
    id ← text_value (jget "approval_id" v) ≫= safe_text 300;
    tool ← text_value (jget "tool_name" v) ≫= safe_text 200;
    description ← match jget "description" v with
                  | None => Some "Approval required."
                  | Some d => text_value (Some d) ≫= text_field 0 2000
                  end;
    decisions ← match jget "allowed_decisions" v with Some (JArr l) => mapM decision_value l | _ => None end;
    if (1 <=? length decisions)%nat && (length decisions <=? 3)%nat && bool_decide (NoDup decisions)
    then Some (NotificationApproval id tool description decisions) else None
  else None.

Definition write_fields : list string := ["kind"; "text"; "status"; "thread_id"; "run_id"; "origin"; "approvals"].
Definition validate_write (v : json) : option notification_write :=
  if only_fields write_fields v then
    kind ← text_value (jget "kind" v) ≫= notification_name;
    text ← text_value (jget "text" v) ≫= text_field 1 50000;
    status ← match jget "status" v with None => Some "info" | Some s => text_value (Some s) ≫= notification_name end;
    thread ← optional_value (text_field 1 8192) (jget "thread_id" v);
    run ← optional_value (safe_text 300) (jget "run_id" v);
    origin ← match jget "origin" v with None | Some JNull => Some None | Some o => Some <$> validate_origin o end;
    approvals ← match jget "approvals" v with
                | None => Some []
                | Some (JArr l) => if (length l <=? 100)%nat then mapM validate_approval l else None
                | _ => None
                end;
    if negb (bool_decide (approvals = [])) && negb (bool_decide (is_Some run)) then None
    else Some (NotificationWrite kind text status thread run origin approvals)
  else None.

(** ** The store *)

Record notification_row := NotificationRow {
  nr_id : Z;
  nr_tenant : string;
  nr_key : string;
  nr_hash : string;
  nr_kind : string;
  nr_text : string;
  nr_status : string;
  nr_thread : option string;
  nr_run : option string;
  nr_origin : option string;
  nr_approvals : string;
  nr_created : string;
}.
Record ack_row := AckRow { ak_tenant : string; ak_consumer : string; ak_notification : Z; ak_at : string }.
(** [nd_sequence] is the last identifier [AUTOINCREMENT] gave. *)
Record notifications := Notifications {
  nd_rows : list notification_row;
  nd_acks : list ack_row;
  nd_sequence : Z;
}.
#[global] Instance notifications_fields : Fields notifications := λ d,
  Notifications (nd_rows d) (nd_acks d) (nd_sequence d).
Definition no_notifications : notifications := Notifications [] [] 0.

Definition dedupe_conflict : exn :=
  OtherException "NotificationDedupeConflictError" "notification dedupe key is bound to a different payload".
Definition notification_not_found (id : Z) : exn := OtherException "NotificationNotFoundError" (pretty id).

(** [_identity] and [_positive_id] *)
Definition identity (label : string) (maximum : Z) (value : string) : outcome string :=
  let safe := strip value in
  if (safe == "") || (maximum <? len safe) || negb (no_control safe) then Err (ValueError (label +:+ " is invalid"))
  else Ok safe.
Definition positive_id (id : Z) : outcome Z :=
  if id <? 1 then Err (ValueError "notification_id must be positive") else Ok id.

(** The digest of the payload, and the row it is written as. *)
Definition payload_hash (w : notification_write) : string := sha256_hex (dumps false (write_json w)).
Definition row_of (id : Z) (tenant key : string) (w : notification_write) (created : Z) : notification_row :=
  NotificationRow id tenant key (payload_hash w) (nw_kind w) (nw_text w) (nw_status w) (nw_thread w) (nw_run w)
    ((λ o, dumps false (origin_json o)) <$> nw_origin w) (dumps false (approvals_json (nw_approvals w)))
    (utc_isoformat created).

(** [_notification] *)
Definition loads (s : string) : outcome json :=
  match json_loads s with Some v => Ok v | None => Err (ValueError "invalid JSON") end.
Definition notification (r : notification_row) : outcome owner_notification :=
  origin ← match nr_origin r with
           | Some s => if s == "" then Ok JNull else loads s
           | None => Ok JNull
           end;
  approvals ← loads (nr_approvals r);
  let write := validate_write (JObj [("kind", JStr (nr_kind r)); ("text", JStr (nr_text r)); ("status", JStr (nr_status r));
                 ("thread_id", nullable_text (nr_thread r)); ("run_id", nullable_text (nr_run r));
                 ("origin", origin); ("approvals", approvals)]) in
  match write, text_field 1 200 (nr_tenant r), text_field 1 300 (nr_key r), from_isoformat (nr_created r) with
  | Some w, Some tenant, Some key, Some created =>
      if 1 <=? nr_id r then Ok (OwnerNotification (nr_id r) tenant key w created)
      else Err (ValidationError "OwnerNotification")
  | _, _, _, _ => Err (ValidationError "OwnerNotification")
  end.

Definition has_dedupe (tenant key : string) (r : notification_row) : bool := (nr_tenant r == tenant) && (nr_key r == key).
Definition is_notification (tenant : string) (id : Z) (r : notification_row) : bool :=
  (nr_tenant r == tenant) && (nr_id r == id).
Definition notification_clash (x y : notification_row) : bool :=
  (nr_id x == nr_id y) || has_dedupe (nr_tenant x) (nr_key x) y.

(** [NotificationStore.append]; the answer is read after the transaction. *)
Definition append_row (tenant key : string) (w : notification_write) (created : Z) :
    M notifications (notification_row * bool) :=
  transaction (
    existing ← gets (λ d, select_one (has_dedupe tenant key) (nd_rows d));
    match existing with
    | Some r => unless (nr_hash r == payload_hash w) dedupe_conflict;; mret (r, false)
    | None =>
        id ← gets (λ d, nd_sequence d + 1);
        let r := row_of id tenant key w created in
        try_modify (λ d, rows ← insert_row notification_clash r (nd_rows d);
                         Some (d <| nd_rows := rows |> <| nd_sequence := id |>))
          (IntegrityError "UNIQUE constraint failed");;
        mret (r, true)
    end).
Definition append (tenant_id dedupe_key : string) (w : notification_write) (created : Z) :
    M notifications (owner_notification * bool) :=
  tenant ← from_outcome (identity "tenant_id" 200 tenant_id);
  key ← from_outcome (identity "dedupe_key" 300 dedupe_key);
  r ← append_row tenant key w created;
  n ← from_outcome (notification r.1);
  mret (n, r.2).

Definition get (tenant_id : string) (id : Z) : M notifications owner_notification :=
  tenant ← from_outcome (identity "tenant_id" 200 tenant_id);
  id ← from_outcome (positive_id id);
  row ← gets (λ d, select_one (is_notification tenant id) (nd_rows d));
  match row with
  | None => raise (notification_not_found id)
  | Some r => from_outcome (notification r)
  end.

Definition acked (tenant consumer : string) (id : Z) (a : ack_row) : bool :=
  (ak_tenant a == tenant) && (ak_consumer a == consumer) && (ak_notification a == id).
Definition ack_clash (x y : ack_row) : bool := acked (ak_tenant x) (ak_consumer x) (ak_notification x) y.
Definition by_id (x y : notification_row) : bool := nr_id x <=? nr_id y.
(** The join with the acknowledgements of the consumer keeps the rows that have none. *)
Definition unacked_rows (tenant consumer : string) (after : Z) (d : notifications) : list notification_row :=
  order_by by_id (select (λ r, (nr_tenant r == tenant) && (after <? nr_id r) &&
    negb (exists_row (acked (nr_tenant r) consumer (nr_id r)) (nd_acks d))) (nd_rows d)).
Definition list_unacked (tenant_id consumer_id : string) (after_id limit : Z) :
    M notifications (list owner_notification) :=
  tenant ← from_outcome (identity "tenant_id" 200 tenant_id);
  consumer ← from_outcome (identity "consumer_id" 300 consumer_id);
  rows ← gets (unacked_rows tenant consumer (Z.max 0 after_id));
  from_outcome (all_ok (notification <$> take (Z.to_nat (Z.max 1 (Z.min limit 100))) rows)).

Definition acknowledge (tenant_id consumer_id : string) (id acked_at : Z) : M notifications bool :=
  tenant ← from_outcome (identity "tenant_id" 200 tenant_id);
  consumer ← from_outcome (identity "consumer_id" 300 consumer_id);
  id ← from_outcome (positive_id id);
  transaction (
    owned ← gets (λ d, exists_row (is_notification tenant id) (nd_rows d));
    unless owned (notification_not_found id);;
    let a := AckRow tenant consumer id (utc_isoformat acked_at) in
    fresh ← gets (λ d, negb (exists_row (ack_clash a) (nd_acks d)));
    modify (λ d, d <| nd_acks := insert_or_ignore ack_clash a (nd_acks d) |>);;
    mret fresh).

(** [NotificationService]: the clock's instant is an argument. *)
Definition publish (tenant key : string) (w : notification_write) (now : Z) : M notifications owner_notification :=
  fst <$> append tenant key w now.

(** ** What is written is read back *)

(** A payload the contract accepted. *)
Definition valid_write (w : notification_write) : Prop := validate_write (write_json w) = Some w.
#[global] Instance valid_write_dec w : Decision (valid_write w).
Proof. unfold valid_write. apply _. Defined.

Lemma identity_Ok label maximum value t : identity label maximum value = Ok t → strip t = t ∧ text_field 1 maximum t = Some t.
Proof.
  unfold identity. destruct ((_ == "") || _ || _) eqn:E; intros [= <-].
  apply orb_false_iff in E as [[E1%bool_decide_eq_false E2%Z.ltb_ge]%orb_false_iff _].
  split; [apply strip_stripped|]. unfold text_field. rewrite strip_stripped.
  assert (len (strip value) ≠ 0) by by rewrite len_zero. pose proof (len_nonneg (strip value)).
  assert (1 <= len (strip value)) as E3%Z.leb_le by lia. by rewrite E3, (proj2 (Z.leb_le _ maximum) E2).
Qed.
Lemma identity_id label label' maximum value t : identity label maximum value = Ok t → identity label' maximum t = Ok t.
Proof.
  intros H. destruct (identity_Ok _ _ _ _ H) as [Hs _]. revert H. unfold identity. rewrite Hs.
  destruct ((strip value == "") || _ || _) eqn:E; [done|]. intros [= <-]. by rewrite E.
Qed.

Lemma canonical_nullable o : canonical (nullable_text o) = nullable_text o.
Proof. by destruct o. Qed.
Lemma canonical_origin o : canonical (origin_json o) =
  JObj [("channel", nullable_text (no_channel o)); ("conversation_id", nullable_text (no_conversation o));
        ("correlation_id", nullable_text (no_correlation o)); ("interface", nullable_text (no_interface o));
        ("message_id", nullable_text (no_message o)); ("source_id", nullable_text (no_source o))].
Proof. unfold origin_json. simpl canonical. by rewrite !canonical_nullable. Qed.
Lemma origin_read_back o : validate_origin (canonical (origin_json o)) = validate_origin (origin_json o).
Proof. rewrite canonical_origin. reflexivity. Qed.

Lemma canonical_decisions l :
  map canonical ((λ k, JStr (decision_text k)) <$> l) = (λ k, JStr (decision_text k)) <$> l.
Proof. induction l as [|k l IH]; [done|]. simpl. by f_equal. Qed.
Lemma approval_read_back a :
  validate_approval (canonical (notification_approval_json a)) = validate_approval (notification_approval_json a).
Proof.
  assert (canonical (notification_approval_json a) =
    JObj [("allowed_decisions", JArr ((λ k, JStr (decision_text k)) <$> na_decisions a)); ("approval_id", JStr (na_id a));
          ("description", JStr (na_description a)); ("tool_name", JStr (na_tool a))]) as ->; [|reflexivity].
  rewrite <-(canonical_decisions (na_decisions a)). reflexivity.
Qed.
Lemma approvals_read_back l :
  mapM validate_approval (map canonical (notification_approval_json <$> l)) =
  mapM validate_approval (notification_approval_json <$> l).
Proof. induction l as [|a l IH]; [done|]. cbn [fmap list_fmap map mapM]. by rewrite approval_read_back, IH. Qed.

Lemma nullable_keyed o : well_keyed (nullable_text o).
Proof. destruct o; constructor. Qed.
Lemma origin_keyed o : well_keyed (origin_json o).
Proof.
  constructor; [simpl; refine (bool_decide_eq_true_1 _ _); vm_compute; reflexivity|].
  repeat constructor; apply nullable_keyed.
Qed.
Lemma approvals_keyed l : well_keyed (approvals_json l).
Proof.
  constructor. apply Forall_fmap, Forall_true. intros a. simpl.
  constructor; [simpl; refine (bool_decide_eq_true_1 _ _); vm_compute; reflexivity|].
  repeat constructor. simpl. apply Forall_fmap, Forall_true. intros k. constructor.
Qed.
Lemma loads_written v : well_keyed v → loads (dumps false v) = Ok (canonical v).
Proof. intros Hv. unfold loads. by rewrite loads_dumps. Qed.

(** The mapping [_notification] validates. *)
Definition write_object (w : notification_write) (origin approvals : json) : json :=
  JObj [("kind", JStr (nw_kind w)); ("text", JStr (nw_text w)); ("status", JStr (nw_status w));
        ("thread_id", nullable_text (nw_thread w)); ("run_id", nullable_text (nw_run w)); ("origin", origin);
        ("approvals", approvals)].
Lemma validate_write_object w origin approvals :
  validate_write (write_object w origin approvals) =
    (kind ← notification_name (nw_kind w);
     text ← text_field 1 50000 (nw_text w);
     status ← notification_name (nw_status w);
     thread ← optional_value (text_field 1 8192) (Some (nullable_text (nw_thread w)));
     run ← optional_value (safe_text 300) (Some (nullable_text (nw_run w)));
     origin ← match origin with JNull => Some None | o => Some <$> validate_origin o end;
     approvals ← match approvals with
                 | JArr l => if (length l <=? 100)%nat then mapM validate_approval l else None
                 | _ => None
                 end;
     if negb (bool_decide (approvals = [])) && negb (bool_decide (is_Some run)) then None
     else Some (NotificationWrite kind text status thread run origin approvals)).
Proof. destruct approvals; reflexivity. Qed.
Lemma write_read_back w origin :
  (match origin with JNull => Some None | o => Some <$> validate_origin o end) =
    match nw_origin w with Some o => Some <$> validate_origin (origin_json o) | None => Some None end →
  validate_write (write_object w origin (canonical (approvals_json (nw_approvals w)))) = validate_write (write_json w).
Proof.
  intros Ho. change (write_json w) with (write_object w
    (match nw_origin w with Some o => origin_json o | None => JNull end) (approvals_json (nw_approvals w))).
  rewrite !validate_write_object, Ho. unfold approvals_json. cbn [canonical].
  rewrite length_map, approvals_read_back. by destruct (nw_origin w).
Qed.

Lemma row_read_back id tenant key w created :
  valid_write w → text_field 1 200 tenant = Some tenant → text_field 1 300 key = Some key → representable created → 1 <= id →
  notification (row_of id tenant key w created) = Ok (OwnerNotification id tenant key w created).
Proof.
  intros Hw Ht Hk Hc Hid. unfold notification, row_of. cbn [nr_origin nr_approvals nr_kind nr_text nr_status nr_thread nr_run
    nr_tenant nr_key nr_created nr_id]. rewrite Ht, Hk, from_utc_isoformat, (proj2 (Z.leb_le 1 id) Hid) by done.
  rewrite (loads_written (approvals_json _)) by apply approvals_keyed.
  assert (∃ origin, (match (λ o, dumps false (origin_json o)) <$> nw_origin w with
                     | Some s => if s == "" then Ok JNull else loads s | None => Ok JNull end) = Ok origin ∧
    (match origin with JNull => Some None | o => Some <$> validate_origin o end) =
      match nw_origin w with Some o => Some <$> validate_origin (origin_json o) | None => Some None end)
    as (origin & -> & Ho).
  { destruct (nw_origin w) as [o|]; cbn [fmap option_fmap option_map]; [|by exists JNull]. exists (canonical (origin_json o)).
    rewrite (loads_written (origin_json o)) by apply origin_keyed.
    rewrite bool_decide_eq_false_2.
    - split; [done|]. rewrite <-origin_read_back. by rewrite canonical_origin.
    - intros E. pose proof (dumps_nonempty false (origin_json o)) as H. rewrite E in H. simpl in H. lia. }
  cbn [mbind outcome_mbind].
  change (JObj (("kind", JStr (nw_kind w)) :: ?l)) with (write_object w origin (canonical (approvals_json (nw_approvals w)))).
  by rewrite write_read_back, Hw by done.
Qed.

(** ** The inbox

    What the store promises: a log of notifications, numbered from 1, and who
    acknowledged which. *)

Record inbox := Inbox { ib_log : list owner_notification; ib_acked : gset (string * string * Z) }.
#[global] Instance inbox_fields : Fields inbox := λ s, Inbox (ib_log s) (ib_acked s).
Definition empty_inbox : inbox := Inbox [] ∅.

Definition under_key (tenant key : string) (n : owner_notification) : bool := (on_tenant n == tenant) && (on_key n == key).
Definition inbox_append (tenant_id dedupe_key : string) (w : notification_write) (created : Z) :
    M inbox (owner_notification * bool) :=
  tenant ← from_outcome (identity "tenant_id" 200 tenant_id);
  key ← from_outcome (identity "dedupe_key" 300 dedupe_key);
  existing ← gets (λ s, select_one (under_key tenant key) (ib_log s));
  match existing with
  | Some n => if payload_hash (on_write n) == payload_hash w then mret (n, false) else raise dedupe_conflict
  | None =>
      n ← gets (λ s, OwnerNotification (Z.of_nat (length (ib_log s)) + 1) tenant key w created);
      modify (λ s, s <| ib_log := ib_log s ++ [n] |>);;
      mret (n, true)
  end.
Definition owned_by (tenant : string) (id : Z) (n : owner_notification) : bool := (on_tenant n == tenant) && (on_id n == id).
Definition inbox_get (tenant_id : string) (id : Z) : M inbox owner_notification :=
  tenant ← from_outcome (identity "tenant_id" 200 tenant_id);
  id ← from_outcome (positive_id id);
  found ← gets (λ s, select_one (owned_by tenant id) (ib_log s));
  match found with Some n => mret n | None => raise (notification_not_found id) end.
Definition pending (tenant consumer : string) (after : Z) (s : inbox) : list owner_notification :=
  select (λ n, (on_tenant n == tenant) && (after <? on_id n) &&
    negb (bool_decide ((tenant, consumer, on_id n) ∈ ib_acked s))) (ib_log s).
Definition inbox_list (tenant_id consumer_id : string) (after_id limit : Z) : M inbox (list owner_notification) :=
  tenant ← from_outcome (identity "tenant_id" 200 tenant_id);
  consumer ← from_outcome (identity "consumer_id" 300 consumer_id);
  gets (λ s, take (Z.to_nat (Z.max 1 (Z.min limit 100))) (pending tenant consumer (Z.max 0 after_id) s)).
Definition inbox_acknowledge (tenant_id consumer_id : string) (id : Z) : M inbox bool :=
  tenant ← from_outcome (identity "tenant_id" 200 tenant_id);
  consumer ← from_outcome (identity "consumer_id" 300 consumer_id);
  id ← from_outcome (positive_id id);
  owned ← gets (λ s, exists_row (owned_by tenant id) (ib_log s));
  unless owned (notification_not_found id);;
  fresh ← gets (λ s, negb (bool_decide ((tenant, consumer, id) ∈ ib_acked s)));
  modify (λ s, s <| ib_acked := {[(tenant, consumer, id)]} ∪ ib_acked s |>);;
  mret fresh.

(** ** The store implements the inbox *)

Definition row_from (n : owner_notification) : notification_row :=
  row_of (on_id n) (on_tenant n) (on_key n) (on_write n) (on_created n).
Definition log_key (n : owner_notification) : string * string := (on_tenant n, on_key n).
Record represents (d : notifications) (s : inbox) : Prop := {
  rp_rows : nd_rows d = row_from <$> ib_log s;
  rp_read n : n ∈ ib_log s → notification (row_from n) = Ok n;
  rp_ids : on_id <$> ib_log s = seqZ 1 (Z.of_nat (length (ib_log s)));
  rp_keys : NoDup (log_key <$> ib_log s);
  rp_sequence : nd_sequence d = Z.of_nat (length (ib_log s));
  rp_acked t c i : exists_row (acked t c i) (nd_acks d) = bool_decide ((t, c, i) ∈ ib_acked s);
}.
(** A computation of the store does what one of the inbox does. *)
Definition implements {A} (m : M notifications A) (m' : M inbox A) : Prop := ∀ d s, represents d s →
  represents (m d).1 (m' s).1 ∧ (m d).2 = (m' s).2.

Lemma implements_outcome {A B} (o : outcome A) (k : A → M notifications B) (k' : A → M inbox B) :
  (∀ a, o = Ok a → implements (k a) (k' a)) → implements (from_outcome o ≫= k) (from_outcome o ≫= k').
Proof.
  intros Hk d s Hr. rewrite !run_outcome_bind. destruct o as [a|e]; [by apply Hk|done].
Qed.

Lemma select_rows (p : notification_row → bool) (q : owner_notification → bool) l :
  (∀ n, n ∈ l → p (row_from n) = q n) → select p (row_from <$> l) = row_from <$> select q l.
Proof.
  intros H. induction l as [|n l IH]; [done|]. specialize (IH ltac:(set_solver)).
  unfold select in *. rewrite fmap_cons. cbn [List.filter]. rewrite (H n), IH by set_solver. by destruct (q n).
Qed.
Lemma select_one_rows (p : notification_row → bool) (q : owner_notification → bool) l :
  (∀ n, n ∈ l → p (row_from n) = q n) → select_one p (row_from <$> l) = row_from <$> select_one q l.
Proof.
  intros H. induction l as [|n l IH]; [done|]. specialize (IH ltac:(set_solver)).
  unfold select_one in *. rewrite fmap_cons. cbn [List.find]. rewrite (H n), IH by set_solver. by destruct (q n).
Qed.
Lemma exists_rows (p : notification_row → bool) (q : owner_notification → bool) l :
  (∀ n, n ∈ l → p (row_from n) = q n) → exists_row p (row_from <$> l) = exists_row q l.
Proof.
  intros H. induction l as [|n l IH]; [done|]. specialize (IH ltac:(set_solver)).
  unfold exists_row in *. rewrite fmap_cons. cbn [existsb]. by rewrite (H n), IH by set_solver.
Qed.
Lemma all_ok_read l : (∀ n, n ∈ l → notification (row_from n) = Ok n) → all_ok (notification <$> (row_from <$> l)) = Ok l.
Proof.
  intros H. induction l as [|n l IH]; [done|]. cbn [fmap list_fmap all_ok]. rewrite (H n) by set_solver.
  cbn [mbind outcome_mbind]. by rewrite IH by set_solver.
Qed.

(** The log is in the order of its numbers. *)
Lemma log_ascending (l : list owner_notification) n : on_id <$> l = seqZ n (Z.of_nat (length l)) →
  StronglySorted (λ x y, on_id x < on_id y) l.
Proof.
  revert n. induction l as [|x l IH]; intros n H; [constructor|].
  cbn [length] in H. rewrite Nat2Z.inj_succ, seqZ_cons, fmap_cons, Z.pred_succ in H by lia. injection H as Hx Hl.
  constructor; [by apply (IH (Z.succ n))|]. apply List.Forall_forall. intros y Hy%list_elem_of_In.
  assert (on_id y ∈ seqZ (Z.succ n) (Z.of_nat (length l))) as Hin%elem_of_seqZ; [|lia].
  rewrite <-Hl. by apply list_elem_of_fmap_2.
Qed.
Lemma sorted_rows l : StronglySorted (λ x y, on_id x < on_id y) l → Sorted (λ x y, by_id x y = true) (row_from <$> l).
Proof.
  intros H. apply StronglySorted_Sorted. induction H as [|x l _ IH Hx]; [constructor|]. rewrite fmap_cons.
  constructor; [done|]. apply Forall_fmap. eapply Forall_impl; [exact Hx|]. intros y Hy. apply Z.leb_le. change (on_id x <= on_id y). by apply Z.lt_le_incl.
Qed.
Lemma select_strongly {R} (le : R → R → Prop) (p : R → bool) l : StronglySorted le l → StronglySorted le (select p l).
Proof.
  unfold select. induction 1 as [|x l _ IH Hx]; [constructor|]. simpl. destruct (p x); [|done]. constructor; [done|].
  apply List.Forall_forall. intros y [Hy _]%List.filter_In. revert y Hy. by apply List.Forall_forall.
Qed.

(** A notification under a new key joins the log. *)
Lemma represents_new d s n : represents d s → on_id n = Z.of_nat (length (ib_log s)) + 1 →
  select_one (under_key (on_tenant n) (on_key n)) (ib_log s) = None → notification (row_from n) = Ok n →
  insert_row notification_clash (row_from n) (nd_rows d) = Some ((row_from <$> ib_log s) ++ [row_from n]) ∧
  represents (Notifications ((row_from <$> ib_log s) ++ [row_from n]) (nd_acks d) (on_id n))
    (Inbox (ib_log s ++ [n]) (ib_acked s)).
Proof.
  intros Hr Hid E Hread. rewrite (rp_rows d s Hr). pose proof (proj1 (select_one_None _ _) E) as Hnew. split.
  - apply insert_row_ok. intros r (x & -> & Hx)%list_elem_of_fmap. apply orb_false_iff. split.
    + apply bool_decide_eq_false_2. cbn [row_from row_of nr_id]. intros Heq.
      assert (on_id x ∈ seqZ 1 (Z.of_nat (length (ib_log s)))) as Hin%elem_of_seqZ; [|lia].
      rewrite <-(rp_ids d s Hr). apply list_elem_of_fmap. eauto.
    + exact (Hnew x Hx).
  - split; cbn [nd_rows nd_acks nd_sequence ib_log ib_acked].
    + by rewrite fmap_app.
    + intros x [Hx|Hx]%elem_of_app; [by apply (rp_read d s Hr)|]. by apply list_elem_of_singleton in Hx as ->.
    + rewrite fmap_app, length_app, Nat2Z.inj_add, (rp_ids d s Hr), seqZ_app by lia.
      f_equal. cbn [fmap list_fmap]. by rewrite Hid, Z.add_comm.
    + rewrite fmap_app. apply NoDup_app. split; [apply Hr|]. split; [|apply NoDup_singleton].
      intros k (x & -> & Hx)%list_elem_of_fmap Hk%list_elem_of_singleton. specialize (Hnew x Hx).
      unfold log_key in Hk. injection Hk as H1 H2. unfold under_key in Hnew. rewrite H1, H2, !bool_decide_eq_true_2 in Hnew; done.
    + rewrite length_app, Hid. cbn [length]. lia.
    + apply Hr.
Qed.

Lemma append_implements tenant_id dedupe_key w created : valid_write w → representable created →
  implements (append tenant_id dedupe_key w created) (inbox_append tenant_id dedupe_key w created).
Proof.
  intros Hw Hc. apply implements_outcome. intros tenant Ht. apply implements_outcome. intros key Hk d s Hr.
  rewrite run_bind. unfold append_row. rewrite run_transaction, !run_gets_bind.
  rewrite (rp_rows d s Hr), (select_one_rows _ (under_key tenant key)) by done.
  destruct (select_one _ (ib_log s)) as [n|] eqn:E; cbn [fmap option_fmap option_map].
  - apply select_one_Some in E as [Hn _]. rewrite run_unless_bind. cbn [row_from row_of nr_hash].
    case_bool_decide; [|done]. cbn [mret M_ret fst snd]. rewrite run_outcome_bind, (rp_read d s Hr n Hn). done.
  - rewrite run_gets_bind. set (n := OwnerNotification (Z.of_nat (length (ib_log s)) + 1) tenant key w created).
    rewrite (rp_sequence d s Hr). change (row_of _ tenant key w created) with (row_from n).
    assert (notification (row_from n) = Ok n) as Hread.
    { apply row_read_back; [done|by eapply identity_Ok|by eapply identity_Ok|done|simpl; lia]. }
    destruct (represents_new d s n Hr eq_refl E Hread) as [Hi Hr'].
    rewrite run_try_modify_bind, Hi. cbn [mbind option_bind mret M_ret]. cbn [fst snd]. by rewrite run_outcome_bind, Hread.
Qed.
Lemma get_implements tenant_id id : implements (get tenant_id id) (inbox_get tenant_id id).
Proof.
  apply implements_outcome. intros tenant _. apply implements_outcome. intros i _ d s Hr. rewrite !run_gets_bind.
  rewrite (rp_rows d s Hr), (select_one_rows _ (owned_by tenant i)) by done.
  destruct (select_one _ _) as [n|] eqn:E; [|done]. apply select_one_Some in E as [Hn _].
  cbn [fmap option_fmap option_map]. by rewrite run_outcome, (rp_read d s Hr n Hn).
Qed.
Lemma list_implements tenant_id consumer_id after_id limit :
  implements (list_unacked tenant_id consumer_id after_id limit) (inbox_list tenant_id consumer_id after_id limit).
Proof.
  apply implements_outcome. intros tenant _. apply implements_outcome. intros consumer _ d s Hr.
  rewrite run_gets_bind, run_outcome, run_gets. split; [done|]. cbn [snd].
  assert (unacked_rows tenant consumer (Z.max 0 after_id) d = row_from <$> pending tenant consumer (Z.max 0 after_id) s) as ->.
  { unfold unacked_rows. rewrite (rp_rows d s Hr).
    rewrite (select_rows _ (λ n, (on_tenant n == tenant) && (Z.max 0 after_id <? on_id n) &&
      negb (bool_decide ((tenant, consumer, on_id n) ∈ ib_acked s)))).
    - rewrite order_by_id; [done|]. by eapply sorted_rows, select_strongly, log_ascending, Hr.
    - intros n Hn. cbn [row_from row_of nr_tenant nr_id]. rewrite (rp_acked d s Hr). case_bool_decide as Ht; [by subst|done]. }
  rewrite <-fmap_take. apply all_ok_read. intros n Hn. apply (rp_read d s Hr).
  apply (subseteq_take _ (pending tenant consumer (Z.max 0 after_id) s)) in Hn. by apply elem_of_select in Hn as [? _].
Qed.
Lemma acknowledge_implements tenant_id consumer_id id acked_at :
  implements (acknowledge tenant_id consumer_id id acked_at) (inbox_acknowledge tenant_id consumer_id id).
Proof.
  apply implements_outcome. intros tenant _. apply implements_outcome. intros consumer _.
  apply implements_outcome. intros i _ d s Hr. rewrite run_transaction, !run_gets_bind.
  rewrite (rp_rows d s Hr), (exists_rows _ (owned_by tenant i)) by done. rewrite !run_unless_bind.
  destruct (exists_row _ _); [|done]. rewrite !run_gets_bind, !run_modify_bind, !run_ret.
  set (a := AckRow tenant consumer i (utc_isoformat acked_at)).
  assert (exists_row (ack_clash a) (nd_acks d) = bool_decide ((tenant, consumer, i) ∈ ib_acked s)) as Hx by apply (rp_acked d s Hr).
  split; [|cbn [snd]; by rewrite Hx]. cbn [fst].
  change (represents (Notifications (nd_rows d) (insert_or_ignore ack_clash a (nd_acks d)) (nd_sequence d))
    (Inbox (ib_log s) ({[(tenant, consumer, i)]} ∪ ib_acked s))).
  split; [apply Hr|apply Hr|apply Hr|apply Hr|apply Hr|]. cbn [nd_acks ib_acked].
  intros t c j. unfold insert_or_ignore, insert_row. rewrite Hx. case_bool_decide as Hin.
  - rewrite (rp_acked d s Hr). apply bool_decide_ext. set_solver.
  - unfold exists_row in *. rewrite existsb_app. pose proof (rp_acked d s Hr t c j) as Hj. unfold exists_row in Hj.
    rewrite Hj. cbn [existsb]. rewrite orb_false_r.
    destruct (decide ((t, c, j) = (tenant, consumer, i))) as [[= -> -> ->]|Hne].
    + rewrite (bool_decide_eq_true_2 (_ ∈ _ ∪ _)) by (apply elem_of_union; left; by apply elem_of_singleton).
      replace (acked tenant consumer i a) with true; [apply orb_true_r|]. symmetry. unfold acked.
      rewrite !andb_true_iff, !bool_decide_eq_true. done.
    + rewrite (bool_decide_ext ((t, c, j) ∈ {[(tenant, consumer, i)]} ∪ ib_acked s) ((t, c, j) ∈ ib_acked s)).
      * replace (acked t c j a) with false; [apply orb_false_r|]. symmetry. apply not_true_iff_false. unfold acked.
        rewrite !andb_true_iff, !bool_decide_eq_true. cbn [ak_tenant ak_consumer ak_notification a].
        intros [[-> ->] ->]. by apply Hne.
      * rewrite elem_of_union, elem_of_singleton. tauto.
Qed.

(** ** Histories

    The requests of the interfaces with their answers. *)

Inductive request :=
  | Append (tenant key : string) (w : notification_write) (created : Z)
  | Get (tenant : string) (id : Z)
  | ListUnacked (tenant consumer : string) (after limit : Z)
  | Acknowledge (tenant consumer : string) (id acked_at : Z).
Inductive answer :=
  | Appended (n : owner_notification) (fresh : bool)
  | Got (n : owner_notification)
  | Listed (l : list owner_notification)
  | Acknowledged (fresh : bool).
Definition store_request (r : request) : M notifications answer :=
  match r with
  | Append tenant key w created => (λ x, Appended x.1 x.2) <$> append tenant key w created
  | Get tenant id => Got <$> get tenant id
  | ListUnacked tenant consumer after limit => Listed <$> list_unacked tenant consumer after limit
  | Acknowledge tenant consumer id acked_at => Acknowledged <$> acknowledge tenant consumer id acked_at
  end.
Definition inbox_request (r : request) : M inbox answer :=
  match r with
  | Append tenant key w created => (λ x, Appended x.1 x.2) <$> inbox_append tenant key w created
  | Get tenant id => Got <$> inbox_get tenant id
  | ListUnacked tenant consumer after limit => Listed <$> inbox_list tenant consumer after limit
  | Acknowledge tenant consumer id _ => Acknowledged <$> inbox_acknowledge tenant consumer id
  end.
(** A payload is a validated contract and an instant one of [datetime]. *)
Definition request_valid (r : request) : Prop :=
  match r with Append _ _ w created => valid_write w ∧ representable created | _ => True end.

Fixpoint serve {S} (handle : request → M S answer) (requests : list request) (s : S) : S * list (request * outcome answer) :=
  match requests with
  | [] => (s, [])
  | r :: requests' =>
      let (s', a) := handle r s in
      let (s'', history) := serve handle requests' s' in
      (s'', (r, a) :: history)
  end.

Lemma implements_fmap {A B} (f : A → B) (m : M notifications A) (m' : M inbox A) :
  implements m m' → implements (f <$> m) (f <$> m').
Proof.
  intros Hm d s Hr. destruct (Hm d s Hr) as [H1 H2]. rewrite !run_fmap.
  destruct (m d) as [d' [a|e]], (m' s) as [s' [a'|e']]; simpl in *; try done; by injection H2 as <-.
Qed.
Lemma request_implements r : request_valid r → implements (store_request r) (inbox_request r).
Proof.
  destruct r; intros Hr; apply implements_fmap.
  - by apply append_implements; apply Hr.
  - apply get_implements.
  - apply list_implements.
  - apply acknowledge_implements.
Qed.
Lemma serve_implements requests : Forall request_valid requests → ∀ d s, represents d s →
  represents (serve store_request requests d).1 (serve inbox_request requests s).1 ∧
  (serve store_request requests d).2 = (serve inbox_request requests s).2.
Proof.
  induction 1 as [|r requests Hr _ IH]; intros d s Hd; [done|]. simpl.
  destruct (request_implements r Hr d s Hd) as [H1 H2].
  destruct (store_request r d) as [d' a], (inbox_request r s) as [s' a']. simpl in H1, H2. subst a'.
  destruct (IH d' s' H1) as [H3 H4].
  destruct (serve store_request requests d') as [d'' h], (serve inbox_request requests s') as [s'' h'].
  simpl in *. by subst h'.
Qed.
Lemma represents_empty : represents no_notifications empty_inbox.
Proof. split; try done; [intros n Hn; by apply elem_of_nil in Hn|constructor]. Qed.

(** What a history published, and what it acknowledged. *)
Definition published (history : list (request * outcome answer)) (n : owner_notification) : Prop :=
  ∃ r fresh, (r, Ok (Appended n fresh)) ∈ history.
Definition acknowledged (history : list (request * outcome answer)) (tenant consumer : string) (id : Z) : Prop :=
  ∃ tenant_id consumer_id acked_at fresh,
    (Acknowledge tenant_id consumer_id id acked_at, Ok (Acknowledged fresh)) ∈ history ∧
    strip tenant_id = tenant ∧ strip consumer_id = consumer.

(** What one request adds to the inbox. *)
Lemma inbox_append_run t k w c s :
  inbox_append t k w c s =
    match identity "tenant_id" 200 t, identity "dedupe_key" 300 k with
    | Ok tenant, Ok key =>
        match select_one (under_key tenant key) (ib_log s) with
        | Some n => (s, if payload_hash (on_write n) == payload_hash w then Ok (n, false) else Err dedupe_conflict)
        | None =>
            let n := OwnerNotification (Z.of_nat (length (ib_log s)) + 1) tenant key w c in
            (Inbox (ib_log s ++ [n]) (ib_acked s), Ok (n, true))
        end
    | Err e, _ | Ok _, Err e => (s, Err e)
    end.
Proof.
  unfold inbox_append. rewrite run_outcome_bind. destruct (identity "tenant_id" 200 t); [|done].
  rewrite run_outcome_bind. destruct (identity _ _ k); [|done]. rewrite run_gets_bind.
  destruct (select_one _ _); [|done]. by case_bool_decide.
Qed.
Lemma inbox_acknowledge_run t c i s :
  inbox_acknowledge t c i s =
    match identity "tenant_id" 200 t, identity "consumer_id" 300 c, positive_id i with
    | Ok tenant, Ok consumer, Ok id =>
        if exists_row (owned_by tenant id) (ib_log s)
        then (Inbox (ib_log s) ({[(tenant, consumer, id)]} ∪ ib_acked s),
              Ok (negb (bool_decide ((tenant, consumer, id) ∈ ib_acked s))))
        else (s, Err (notification_not_found id))
    | Err e, _, _ | Ok _, Err e, _ | Ok _, Ok _, Err e => (s, Err e)
    end.
Proof.
  unfold inbox_acknowledge. rewrite run_outcome_bind. destruct (identity _ _ t); [|done].
  rewrite run_outcome_bind. destruct (identity _ _ c); [|done].
  rewrite run_outcome_bind. destruct (positive_id i); [|done]. rewrite run_gets_bind, run_unless_bind.
  by destruct (exists_row _ _).
Qed.
Lemma positive_id_Ok i j : positive_id i = Ok j → i = j.
Proof. unfold positive_id. destruct (i <? 1); [done|]. by intros [= <-]. Qed.
Lemma identity_strip label m v t : identity label m v = Ok t → t = strip v.
Proof. unfold identity. destruct (_ || _ || _); [done|]. by intros [= <-]. Qed.

(** The inbox is what its history says. *)
Record recorded (history : list (request * outcome answer)) (s : inbox) : Prop := {
  rc_log n : n ∈ ib_log s ↔ published history n;
  rc_acked t c i : (t, c, i) ∈ ib_acked s ↔ acknowledged history t c i;
}.
Lemma recorded_same history s x : recorded history s →
  (∀ n fresh, x.2 = Ok (Appended n fresh) → n ∈ ib_log s) → (∀ fresh, x.2 ≠ Ok (Acknowledged fresh)) →
  recorded (history ++ [x]) s.
Proof.
  intros [Hl Ha] Hx Hn. split.
  - intros n. rewrite Hl. split.
    + intros (r & fresh & H). exists r, fresh. apply elem_of_app. by left.
    + intros (r & fresh & [H|H]%elem_of_app); [by exists r, fresh|]. apply list_elem_of_singleton in H as <-. by apply Hl, (Hx n fresh).
  - intros t c i. rewrite Ha. split.
    + intros (t' & c' & at_ & fresh & H & Hs). exists t', c', at_, fresh. split; [|done]. apply elem_of_app. by left.
    + intros (t' & c' & at_ & fresh & [H|H]%elem_of_app & Hs); [by exists t', c', at_, fresh|].
      apply list_elem_of_singleton in H as <-. by destruct (Hn fresh).
Qed.
Lemma recorded_step history s r : recorded history s →
  recorded (history ++ [(r, (inbox_request r s).2)]) (inbox_request r s).1.
Proof.
  intros Hrec. destruct r as [t k w c|t i|t c a l|t c i at_]; unfold inbox_request; rewrite run_fmap.
  - rewrite inbox_append_run. destruct (identity _ _ t) as [tenant|]; [|by apply recorded_same].
    destruct (identity _ _ k) as [key|]; [|by apply recorded_same].
    destruct (select_one _ _) as [n|] eqn:E.
    + apply select_one_Some in E as [Hn _]. case_bool_decide; [|by apply recorded_same].
      apply recorded_same; [done| |done]. by intros n' fresh [= <- _].
    + cbn zeta iota beta. set (n := OwnerNotification _ _ _ _ _). cbn [fst snd]. destruct Hrec as [Hl Ha]. split.
      * cbn [ib_log]. intros x. rewrite elem_of_app, list_elem_of_singleton, Hl. split.
        -- intros [(r & fresh & H)| ->]; [exists r, fresh|exists (Append t k w c), true]; apply elem_of_app;
             [by left|right; by apply list_elem_of_singleton].
        -- intros (r & fresh & [H|H]%elem_of_app); [left; by exists r, fresh|].
           apply list_elem_of_singleton in H as [= _ -> _]. by right.
      * cbn [ib_acked]. intros t' c' i. rewrite Ha. unfold acknowledged. setoid_rewrite elem_of_app.
        setoid_rewrite list_elem_of_singleton. naive_solver.
  - assert ((inbox_get t i s).1 = s) as Hs.
    { unfold inbox_get. rewrite run_outcome_bind. destruct (identity _ _ t); [|done].
      rewrite run_outcome_bind. destruct (positive_id i); [|done]. rewrite run_gets_bind. by destruct (select_one _ _). }
    destruct (inbox_get t i s) as [s' [x|e]]; simpl in Hs |- *; subst s'; by apply recorded_same.
  - assert ((inbox_list t c a l s).1 = s) as Hs.
    { unfold inbox_list. rewrite run_outcome_bind. destruct (identity _ _ t); [|done].
      rewrite run_outcome_bind. by destruct (identity _ _ c). }
    destruct (inbox_list t c a l s) as [s' [x|e]]; simpl in Hs |- *; subst s'; by apply recorded_same.
  - rewrite inbox_acknowledge_run. destruct (identity _ _ t) as [tenant|] eqn:Et; [|by apply recorded_same].
    destruct (identity _ _ c) as [consumer|] eqn:Ec; [|by apply recorded_same].
    destruct (positive_id i) as [id|] eqn:Ei; [|by apply recorded_same].
    apply identity_strip in Et, Ec. apply positive_id_Ok in Ei as ->.
    destruct (exists_row _ _); [|by apply recorded_same]. cbn [fst snd]. destruct Hrec as [Hl Ha]. split.
    + cbn [ib_log]. intros n. rewrite Hl. unfold published. setoid_rewrite elem_of_app.
      setoid_rewrite list_elem_of_singleton. naive_solver.
    + cbn [ib_acked]. intros t' c' j. rewrite elem_of_union, elem_of_singleton, Ha. unfold acknowledged.
      setoid_rewrite elem_of_app. setoid_rewrite list_elem_of_singleton. naive_solver.
Qed.
Lemma recorded_serve requests : ∀ history s, recorded history s →
  recorded (history ++ (serve inbox_request requests s).2) (serve inbox_request requests s).1.
Proof.
  induction requests as [|r requests IH]; intros history s Hr; simpl; [by rewrite app_nil_r|].
  pose proof (recorded_step _ _ r Hr) as H. destruct (inbox_request r s) as [s' a]. simpl in H.
  specialize (IH _ _ H). destruct (serve inbox_request requests s') as [s'' h]. simpl in *.
  by rewrite <-app_assoc in IH.
Qed.
Lemma recorded_empty : recorded [] empty_inbox.
Proof.
  split; [intros n|intros t c i]; split.
  - by intros ?%elem_of_nil.
  - intros (? & ? & H). by apply elem_of_nil in H.
  - by intros ?%elem_of_empty.
  - intros (? & ? & ? & ? & H & _). by apply elem_of_nil in H.
Qed.
(** The store after a history, with the inbox it represents. *)
Lemma served requests : Forall request_valid requests →
  ∃ s, represents (serve store_request requests no_notifications).1 s ∧
    recorded (serve store_request requests no_notifications).2 s.
Proof.
  intros H. destruct (serve_implements requests H _ _ represents_empty) as [H1 H2].
  exists (serve inbox_request requests empty_inbox).1. split; [done|]. rewrite H2.
  apply (recorded_serve requests [] empty_inbox recorded_empty).
Qed.

(** C40: the store is an inbox. Every sequence of requests (a write as its model
    makes it, a time [datetime] represents) gets from the store, which keeps rows
    of JSON texts in a database, the answers it gets from the inbox, which is a
    log and a set of acknowledgements. After it a consumer whose names pass the
    checks of a listing is listed what was published for its tenant and not
    acknowledged by it, all of it and nothing else, in the order of publication
    and from the cursor on; a page is the first part of it, of at least one and at
    most a hundred notifications, and listing changes nothing. *)
Theorem listed_until_acknowledged requests tenant_id consumer_id after_id limit tenant consumer
    (Hv : Forall request_valid requests)
    (Ht : identity "tenant_id" 200 tenant_id = Ok tenant) (Hc : identity "consumer_id" 300 consumer_id = Ok consumer) :
  let d := (serve store_request requests no_notifications).1 in
  let history := (serve store_request requests no_notifications).2 in
  history = (serve inbox_request requests empty_inbox).2 ∧
  ∃ l, list_unacked tenant_id consumer_id after_id limit d = (d, Ok (take (Z.to_nat (Z.max 1 (Z.min limit 100))) l)) ∧
    StronglySorted (λ x y, on_id x < on_id y) l ∧
    ∀ n, n ∈ l ↔ published history n ∧ on_tenant n = tenant ∧ Z.max 0 after_id < on_id n ∧
                 ¬ acknowledged history tenant consumer (on_id n).
Proof.
  destruct (served requests Hv) as (s & Hs & Hr). cbn zeta. split; [apply (serve_implements requests Hv _ _ represents_empty)|]. set (d := (serve store_request _ _).1) in *.
  set (history := (serve store_request _ _).2) in *. exists (pending tenant consumer (Z.max 0 after_id) s). split_and!.
  - destruct (list_implements tenant_id consumer_id after_id limit d s Hs) as [_ H2].
    assert ((list_unacked tenant_id consumer_id after_id limit d).1 = d) as H1.
    { unfold list_unacked. rewrite run_outcome_bind. destruct (identity _ _ tenant_id); [|done].
      rewrite run_outcome_bind. by destruct (identity _ _ consumer_id). }
    destruct (list_unacked _ _ _ _ d) as [d' a]. simpl in H1, H2. subst d' a. f_equal.
    unfold inbox_list. rewrite Ht, Hc. done.
  - apply select_strongly, (log_ascending _ 1), Hs.
  - intros n. unfold pending. rewrite elem_of_select, !andb_true_iff, negb_true_iff, !bool_decide_eq_true,
      bool_decide_eq_false, Z.ltb_lt, (rc_log _ _ Hr), (rc_acked _ _ Hr). tauto.
Qed.

(** A key of a tenant names one notification: whatever was answered under
    it is that notification, with the payload of the first request; a request
    with another payload is refused and changes nothing, and numbers are never
    given twice. *)
Theorem published_once requests n n' tenant_id dedupe_key w created
    (Hv : Forall request_valid requests)
    (Hn : published (serve store_request requests no_notifications).2 n)
    (Hn' : published (serve store_request requests no_notifications).2 n') :
  ((on_tenant n, on_key n) = (on_tenant n', on_key n') ∨ on_id n = on_id n' → n = n') ∧
  let d := (serve store_request requests no_notifications).1 in
  (identity "tenant_id" 200 tenant_id = Ok (on_tenant n) → identity "dedupe_key" 300 dedupe_key = Ok (on_key n) →
   valid_write w → representable created →
   append tenant_id dedupe_key w created d =
     (d, if payload_hash (on_write n) == payload_hash w then Ok (n, false) else Err dedupe_conflict)).
Proof.
  destruct (served requests Hv) as (s & Hs & Hr). apply (rc_log _ _ Hr) in Hn, Hn'.
  pose proof (rp_keys _ _ Hs) as Hk. split.
  - intros [H|H].
    + by apply (unique_eq log_key (ib_log s)).
    + apply (unique_eq on_id (ib_log s)); [|done..]. unfold unique. rewrite (rp_ids _ _ Hs). apply NoDup_seqZ.
  - cbn zeta. set (d := (serve store_request _ _).1) in *. intros Ht Hd Hw Hc.
    assert (select_one (under_key (on_tenant n) (on_key n)) (ib_log s) = Some n) as E.
    { destruct (select_one _ _) as [x|] eqn:E.
      - apply select_one_Some in E as [Hx [H1%bool_decide_eq_true H2%bool_decide_eq_true]%andb_true_iff].
        f_equal. apply (unique_eq log_key (ib_log s)); [done..|]. unfold log_key. by rewrite H1, H2.
      - rewrite select_one_None in E. specialize (E n Hn). unfold under_key in E. by rewrite !bool_decide_eq_true_2 in E. }
    unfold append. rewrite run_outcome_bind, Ht, run_outcome_bind, Hd, run_bind. unfold append_row.
    rewrite run_transaction, run_gets_bind, (rp_rows d s Hs), (select_one_rows _ (under_key (on_tenant n) (on_key n))), E by done.
    cbn [fmap option_fmap option_map]. rewrite run_unless_bind. cbn [row_from row_of nr_hash].
    case_bool_decide; [|done]. cbn [mret M_ret fst snd]. by rewrite run_outcome_bind, (rp_read d s Hs n Hn).
Qed.

(** ** Waiting ([NotificationService.wait])

    A poll lists the notifications and reads the loop's clock, once for the
    test and once for the pause; times are in microseconds. *)
Record poll := Poll { po_listed : list owner_notification; po_tested : Z; po_paused : Z }.
Definition wait_timeout (wait_seconds : Z) : Z := Z.max 0 (Z.min wait_seconds 30000000).
Definition poll_pause (interval deadline : Z) (p : poll) : Z := Z.min interval (Z.max 0 (deadline - po_paused p)).
(** What the polls answer, with the pauses made; nothing while the wait goes on. *)
Fixpoint wait_polls (interval deadline : Z) (polls : list poll) : option (list owner_notification) * list Z :=
  match polls with
  | [] => (None, [])
  | p :: polls' =>
      if negb (bool_decide (po_listed p = [])) || (deadline <=? po_tested p) then (Some (po_listed p), [])
      else let (result, pauses) := wait_polls interval deadline polls' in (result, poll_pause interval deadline p :: pauses)
  end.
Definition wait (interval wait_seconds start : Z) (polls : list poll) : option (list owner_notification) * list Z :=
  wait_polls interval (start + wait_timeout wait_seconds) polls.

(** The clock goes on during a pause at least as long as the pause. *)
Fixpoint clock_runs (interval deadline from : Z) (polls : list poll) : Prop :=
  match polls with
  | [] => True
  | p :: polls' =>
      from <= po_tested p <= po_paused p ∧
      clock_runs interval deadline (po_paused p + poll_pause interval deadline p) polls'
  end.
Lemma wait_polls_ends interval deadline polls : ∀ from, 0 < interval →
  clock_runs interval deadline from polls → deadline - from <= interval * (Z.of_nat (length polls) - 1) → polls ≠ [] →
  ∃ l, (wait_polls interval deadline polls).1 = Some l.
Proof.
  induction polls as [|p polls IH]; intros from Hi Hr Hd Hne; [done|]. destruct Hr as [Hp Hr]. simpl.
  destruct (negb _); [by eexists|]. cbn [orb]. destruct (deadline <=? po_tested p) eqn:Et; [by eexists|]. apply Z.leb_gt in Et.
  cbn [length] in Hd. rewrite Nat2Z.inj_succ in Hd. destruct polls as [|q polls]; [simpl in Hd; lia|].
  assert (deadline - (po_paused p + poll_pause interval deadline p) <= interval * (Z.of_nat (length (q :: polls)) - 1)) as Hd'.
  { unfold poll_pause. cbn [length] in *. rewrite Nat2Z.inj_succ in *. nia. }
  destruct (IH _ Hi Hr Hd' ltac:(done)) as [l Hl]. exists l. by destruct (wait_polls interval deadline (q :: polls)).
Qed.
Lemma wait_answers interval wait_seconds start polls :
  0 < interval → clock_runs interval (start + wait_timeout wait_seconds) start polls →
  30000000 <= interval * (Z.of_nat (length polls) - 1) →
  ∃ l, (wait interval wait_seconds start polls).1 = Some l.
Proof.
  intros Hi Hr Hl. apply (wait_polls_ends interval _ polls start Hi Hr).
  - unfold wait_timeout. nia.
  - intros ->. simpl in Hl. nia.
Qed.

(** ** A tenant with two interfaces *)

Definition sample_write : notification_write :=
  NotificationWrite "run.approval" "Approve the import?" "info" (Some "thread_1") (Some "run_1")
    (Some (NotificationOrigin (Some "telegram") None (Some "chat_7") None None None))
    [NotificationApproval "approval_1" "import_rows" "Approval required." [DecideApprove; DecideReject]].
Definition sample_other : notification_write := NotificationWrite "run.done" "Done." "info" None None None [].
Definition sample_requests : list request :=
  [Append "tenant_1" "run_1:approval" sample_write 1767225600000000;
   Append " tenant_1 " "run_1:approval" sample_write 1767225700000000;
   Append "tenant_1" "run_1:approval" sample_other 1767225700000000;
   Append "tenant_1" "run_1:done" sample_other 1767225800000000;
   ListUnacked "tenant_1" "web" 0 100;
   Acknowledge "tenant_1" "web" 1 1767225900000000;
   Acknowledge "tenant_1" "web" 1 1767225900000001;
   Acknowledge "tenant_2" "web" 1 1767225900000002;
   ListUnacked "tenant_1" "web" 0 100;
   ListUnacked "tenant_1" "telegram" 0 1;
   Get "tenant_1" 2].
Definition sample_first : owner_notification := OwnerNotification 1 "tenant_1" "run_1:approval" sample_write 1767225600000000.
Definition sample_second : owner_notification := OwnerNotification 2 "tenant_1" "run_1:done" sample_other 1767225800000000.

Lemma sample_requests_valid : Forall request_valid sample_requests.
Proof.
  unfold sample_requests. repeat (apply List.Forall_cons; 
    [first [exact I|split; [vm_compute; reflexivity|unfold representable; lia]]|]).
  constructor.
Qed.
Example sample_answers :
  snd <$> (serve store_request sample_requests no_notifications).2 =
    [Ok (Appended sample_first true); Ok (Appended sample_first false); Err dedupe_conflict;
     Ok (Appended sample_second true); Ok (Listed [sample_first; sample_second]); Ok (Acknowledged true);
     Ok (Acknowledged false); Err (notification_not_found 1); Ok (Listed [sample_second]); Ok (Listed [sample_first]);
     Ok (Got sample_second)].
Proof. vm_compute. reflexivity. Qed.

Lemma listed_until_acknowledged_witness :
  ∃ l, list_unacked "tenant_1" "web" 0 100 (serve store_request sample_requests no_notifications).1 =
    ((serve store_request sample_requests no_notifications).1, Ok (take 100 l)).
Proof.
  destruct (listed_until_acknowledged sample_requests "tenant_1" "web" 0 100 "tenant_1" "web" sample_requests_valid
    ltac:(reflexivity) ltac:(reflexivity)) as (_ & l & Hl & _). exists l. exact Hl.
Defined.
Lemma sample_published : published (serve store_request sample_requests no_notifications).2 sample_first.
Proof.
  exists (Append "tenant_1" "run_1:approval" sample_write 1767225600000000), true.
  apply list_elem_of_lookup. exists 0%nat. vm_compute. reflexivity.
Qed.
Lemma published_once_witness :
  append "tenant_1" "run_1:approval" sample_other 1767225900000000 (serve store_request sample_requests no_notifications).1 =
    ((serve store_request sample_requests no_notifications).1, Err dedupe_conflict).
Proof.
  destruct (published_once sample_requests sample_first sample_first "tenant_1" "run_1:approval" sample_other 1767225900000000
    sample_requests_valid sample_published sample_published) as [_ H].
  rewrite H; [vm_compute; reflexivity|reflexivity|reflexivity|vm_compute; reflexivity|unfold representable; lia].
Defined.
