(* ===== verification/Journal.v ===== *)
(** * The activation journal ([host/evolution.py], [_ActivationJournal])

    The SQLite journal of releases and activation attempts: its three tables
    with their constraints, and every method that reads or writes them. The
    [*_json] columns hold the JSON value they encode; [now] is the clock
    reading of the call, in microseconds. *)

From S2P Require Import Prelude Sqlite PyText Sha256 Json.
#[local] Open Scope string_scope.
#[local] Open Scope list_scope.

(** ** Commit identities *)

Definition is_hex_lower (c : ascii) : bool :=
  let n := code c in ((48 <=? n) && (n <=? 57) || (97 <=? n) && (n <=? 102))%N.

(** [_COMMIT_RE.fullmatch] *)
Definition commit_syntax (s : string) : bool :=
  all_chars is_hex_lower s && ((len s =? 40)%Z || (len s =? 64)%Z).

Definition parse_commit (value : string) : outcome string :=
  let commit := lower (strip value) in
  if commit_syntax commit then Ok commit
  else Err (SourceEvolutionError "source commit identity is invalid").

(** ** Tables *)

Record release_row := Release {
  rel_id : string;
  rel_source_commit : string;
  rel_created_at : Z;
}.

Record state_row := SourceState {
  st_active : string;
  st_previous : option string;
  st_last_good : string;
  st_updated_at : Z;
}.

Inductive activation_kind := KActivate | KRollback.
Inductive activation_status := Preparing | Active | Failed | RolledBack.

Record activation := Activation {
  act_id : string;
  act_tenant : string;
  act_key : string;
  act_hash : string;
  act_kind : activation_kind;
  act_target : string;
  act_previous : string;
  act_status : activation_status;
  act_reason : string;
  act_review : string;
  act_plan : option json;
  act_audit : json;
  act_result : option json;
  act_notified : bool;
  act_created_at : Z;
  act_updated_at : Z;
}.

Record journal := Journal {
  j_releases : list release_row;
  j_state : option state_row;
  j_activations : list activation;
}.

#[global] Instance release_row_eq_dec : EqDecision release_row.
Proof. solve_decision. Defined.
#[global] Instance state_row_eq_dec : EqDecision state_row.
Proof. solve_decision. Defined.
#[global] Instance activation_kind_eq_dec : EqDecision activation_kind.
Proof. solve_decision. Defined.
#[global] Instance activation_status_eq_dec : EqDecision activation_status.
Proof. solve_decision. Defined.
#[global] Instance activation_eq_dec : EqDecision activation.
Proof. solve_decision. Defined.
#[global] Instance activation_fields : Fields activation := λ r,
  Activation (act_id r) (act_tenant r) (act_key r) (act_hash r) (act_kind r)
    (act_target r) (act_previous r) (act_status r) (act_reason r) (act_review r)
    (act_plan r) (act_audit r) (act_result r) (act_notified r)
    (act_created_at r) (act_updated_at r).
#[global] Instance journal_fields : Fields journal := λ j,
  Journal (j_releases j) (j_state j) (j_activations j).

Definition empty_journal : journal := Journal [] None [].

(** [id TEXT PRIMARY KEY, source_commit TEXT NOT NULL UNIQUE] *)
Definition release_clash (r r' : release_row) : bool :=
  (rel_id r == rel_id r') || (rel_source_commit r == rel_source_commit r').

(** [id TEXT PRIMARY KEY], [UNIQUE (tenant_id, idempotency_key)] and the
    partial unique index on [status = 'preparing']. *)
Definition activation_clash (r r' : activation) : bool :=
  (act_id r == act_id r')
  || (act_tenant r == act_tenant r') && (act_key r == act_key r')
  || (act_status r == Preparing) && (act_status r' == Preparing).

Definition release_exists (id : string) (j : journal) : bool :=
  exists_row (λ r, rel_id r == id) (j_releases j).

(** The foreign keys of [source_state]. *)
Definition state_references_ok (s : state_row) (j : journal) : bool :=
  release_exists (st_active s) j && release_exists (st_last_good s) j
  && match st_previous s with None => true | Some p => release_exists p j end.

Definition integrity : exn := IntegrityError "constraint failed".

Definition write_state (s : state_row) : M journal unit :=
  try_modify
    (λ j, if state_references_ok s j then Some (j <| j_state := Some s |>) else None)
    integrity.

Definition insert_activation (r : activation) : M journal unit :=
  try_modify
    (λ j, if release_exists (act_target r) j && release_exists (act_previous r) j then
            t ← insert_row activation_clash r (j_activations j);
            Some (j <| j_activations := t |>)
          else None)
    integrity.

Definition update_activations (p : activation → bool) (f : activation → activation) :
    M journal unit :=
  modify (λ j, j <| j_activations := update p f (j_activations j) |>).

(** ** Releases *)

Definition release_id_of (commit : string) : string := "release_" +:+ take_text 64 commit.

Definition release_by_id (id : string) (j : journal) : option release_row :=
  select_one (λ r, rel_id r == id) (j_releases j).

Definition release_for_commit (source_commit : string) (now : Z) : M journal release_row :=
  commit ← from_outcome (parse_commit source_commit);
  let release_id := release_id_of commit in
  modify (λ j, j <| j_releases :=
    insert_or_ignore release_clash (Release release_id commit now) (j_releases j) |>);;
  row ← gets (release_by_id release_id);
  let conflict :=
    SourceEvolutionError "source release identity conflicts with persisted history" in
  match row with
  | None => raise conflict
  | Some r => unless (rel_source_commit r == commit) conflict;; mret r
  end.

Definition release (release_id : option string) : M journal (option release_row) :=
  match release_id with
  | None => mret None
  | Some id => gets (release_by_id id)
  end.

Definition state : M journal state_row :=
  row ← gets j_state;
  match row with
  | None => raise (SourceEvolutionError "source activation state is unavailable")
  | Some s => mret s
  end.

(** [INSERT OR IGNORE] keeps an existing state row; the ignored conflict does
    not cover the foreign keys. *)
Definition initialize (source_commit : string) (now now' : Z) : M journal state_row :=
  rel ← release_for_commit source_commit now;
  present ← gets j_state;
  match present with
  | None => write_state (SourceState (rel_id rel) None (rel_id rel) now')
  | Some _ => mret tt
  end;;
  state.

(** ** Activations *)

Definition activation_id (tenant_id idempotency_key : string) : string :=
  "activation_" +:+
  take_text 48 (sha256_hex (tenant_id +:+ String (ascii_of_N 0) idempotency_key)).

Definition activation_by_id (id : string) (j : journal) : option activation :=
  select_one (λ r, act_id r == id) (j_activations j).
Definition activation_by_key (tenant key : string) (j : journal) : option activation :=
  select_one (λ r, (act_tenant r == tenant) && (act_key r == key)) (j_activations j).

Definition operation (id : string) : M journal (option activation) :=
  gets (activation_by_id id).
Definition find_activation (tenant key : string) : M journal (option activation) :=
  gets (activation_by_key tenant key).

Definition key_reused : exn := SourceEvolutionError
  "source activation idempotency key was used for another request".

Record begin_args := BeginArgs {
  ba_tenant : string;
  ba_key : string;
  ba_hash : string;
  ba_kind : activation_kind;
  ba_target : string;
  ba_previous : string;
  ba_reason : string;
  ba_audit : json;
  ba_review : string;
  ba_plan : option json;
}.

Definition new_activation (a : begin_args) (now : Z) : activation :=
  Activation (activation_id (ba_tenant a) (ba_key a)) (ba_tenant a) (ba_key a)
    (ba_hash a) (ba_kind a) (ba_target a) (ba_previous a) Preparing
    (ba_reason a) (ba_review a) (ba_plan a) (ba_audit a) None false now now.

Definition begin (a : begin_args) (now : Z) : M journal (activation * bool) :=
  try_except
    (transaction (
      existing ← gets (activation_by_key (ba_tenant a) (ba_key a));
      match existing with
      | Some op => unless (act_hash op == ba_hash a) key_reused;; mret (op, true)
      | None =>
          st ← gets j_state;
          let changed := SourceEvolutionError "active source changed before activation" in
          match st with
          | None => raise changed
          | Some s => unless (st_active s == ba_previous a) changed
          end;;
          insert_activation (new_activation a now);;
          row ← gets (activation_by_id (activation_id (ba_tenant a) (ba_key a)));
          match row with
          | None => raise AssertionError
          | Some r => mret (r, false)
          end
      end))
    (λ e, match e with
          | IntegrityError _ =>
              Some (raise (SourceEvolutionError "another source activation is already running"))
          | _ => None
          end).

Definition created_le (x y : activation) : bool :=
  (act_created_at x <=? act_created_at y)%Z.
Definition pending : M journal (list activation) :=
  gets (λ j, order_by created_le
    (select (λ r, act_status r == Preparing) (j_activations j))).

(** [ORDER BY created_at DESC, id DESC], and the same on [updated_at]. *)
Definition newest_first (at_ : activation → Z) (x y : activation) : bool :=
  (at_ y <? at_ x)%Z || (at_ x =? at_ y)%Z && text_le (act_id y) (act_id x).

Definition latest : M journal (option activation) :=
  gets (λ j, head (order_by (newest_first act_created_at) (j_activations j))).

Definition disappeared : exn := SourceEvolutionError "source activation disappeared".

Definition complete_success (id : string) (result : json) (now : Z) : M journal activation :=
  transaction (
    row ← gets (activation_by_id id);
    match row with
    | None => raise disappeared
    | Some op =>
        if negb (act_status op == Preparing) then mret op
        else
          st ← gets j_state;
          let changed := SourceEvolutionError "active source changed during activation" in
          match st with
          | None => raise changed
          | Some s => unless (st_active s == act_previous op) changed
          end;;
          write_state (SourceState (act_target op) (Some (act_previous op)) (act_target op) now);;
          update_activations
            (λ r, (act_id r == id) && (act_status r == Preparing))
            (λ r, r <| act_status := Active |> <| act_result := Some result |>
                    <| act_updated_at := now |>);;
          updated ← gets (activation_by_id id);
          match updated with
          | None => raise AssertionError
          | Some r => mret r
          end
    end).

Definition complete_failure (id : string) (rolled_back : bool) (result : json) (now : Z) :
    M journal activation :=
  let status := if rolled_back then RolledBack else Failed in
  update_activations
    (λ r, (act_id r == id) && (act_status r == Preparing))
    (λ r, r <| act_status := status |> <| act_result := Some result |>
            <| act_updated_at := now |>);;
  row ← operation id;
  match row with
  | None => raise disappeared
  | Some op => mret op
  end.

(** ** Recovery of a release that fails at run time *)

(** The most recently updated successful activation of a release. *)
Definition latest_active_for (target : string) (j : journal) : option activation :=
  head (order_by (newest_first act_updated_at)
    (select (λ r, (act_target r == target) && (act_status r == Active)) (j_activations j))).

Definition has_pending (j : journal) : bool :=
  exists_row (λ r, act_status r == Preparing) (j_activations j).

Definition recovery_candidate_of (failed_commit : string) (allow_pending : bool)
    (j : journal) : option release_row :=
  match j_state j with
  | None => None
  | Some s =>
      match release_by_id (st_active s) j, st_previous s with
      | Some active, Some previous =>
          if negb (rel_source_commit active == failed_commit) then None
          else if negb allow_pending && has_pending j then None
          else if match latest_active_for (st_active s) j with
                  | Some op => act_kind op == KRollback
                  | None => false
                  end then None
          else match release_by_id previous j with
               | Some candidate =>
                   if rel_source_commit candidate == failed_commit then None
                   else Some candidate
               | None => None
               end
      | _, _ => None
      end
  end.

Definition recovery_candidate (failed_source_commit : string) (allow_pending : bool) :
    M journal (option release_row) :=
  failed_commit ← from_outcome (parse_commit failed_source_commit);
  gets (recovery_candidate_of failed_commit allow_pending).

Definition recovery_result (selected failed : string) : json :=
  JObj [("status", JStr "rolled_back");
        ("reason", JStr "runtime source failed operational checks");
        ("active_release_id", JStr selected);
        ("failed_release_id", JStr failed)].

Definition complete_recovery (failed selected : string) (invalidate_pending : bool) (now : Z) :
    M journal unit :=
  let encoded := recovery_result selected failed in
  transaction (
    st ← gets j_state;
    let changed := SourceEvolutionError "active source changed during runtime recovery" in
    match st with
    | None => raise changed
    | Some s =>
        unless (st_active s == failed) changed;;
        unless (default "" (st_previous s) == selected)
          (SourceEvolutionError "runtime recovery source changed before activation")
    end;;
    pend ← gets has_pending;
    unless (negb pend || invalidate_pending)
      (SourceEvolutionError "source activation changed during runtime recovery");;
    write_state (SourceState selected None selected now);;
    subject ← gets (latest_active_for failed);
    match subject with
    | None => mret tt
    | Some op =>
        update_activations (λ r, act_id r == act_id op)
          (λ r, r <| act_status := RolledBack |> <| act_result := Some encoded |>
                  <| act_updated_at := now |>)
    end;;
    if invalidate_pending then
      update_activations
        (λ r, (act_status r == Preparing) && (act_previous r == failed))
        (λ r, r <| act_status := Failed |> <| act_result := Some encoded |>
                <| act_updated_at := now |>)
    else mret tt).

(** ** Notification state *)

Definition updated_le (x y : activation) : bool :=
  (act_updated_at x <=? act_updated_at y)%Z.
Definition pending_notifications : M journal (list activation) :=
  gets (λ j, order_by updated_le
    (select (λ r, negb (act_status r == Preparing) && negb (act_notified r)
                  && match act_result r with Some _ => true | None => false end)
       (j_activations j))).

Definition mark_notified (id : string) (now : Z) : M journal unit :=
  update_activations (λ r, act_id r == id)
    (λ r, r <| act_notified := true |> <| act_updated_at := now |>).

(** ** The invariant *)

Definition settled (r : activation) : bool := negb (act_status r == Preparing).

(** The columns no method rewrites. *)
Definition identity (r : activation) :=
  (act_id r, act_tenant r, act_key r, act_hash r, act_kind r, act_target r,
   act_previous r, (act_reason r, act_review r, act_plan r, act_audit r, act_created_at r)).

Record journal_ok (j : journal) : Prop := {
  jo_release_ids : unique rel_id (j_releases j);
  jo_release_shape : ∀ r, r ∈ j_releases j →
    commit_syntax (rel_source_commit r) = true ∧
    rel_id r = release_id_of (rel_source_commit r);
  jo_state : match j_state j with
             | None => j_activations j = []
             | Some s => state_references_ok s j = true ∧ st_last_good s = st_active s
             end;
  jo_ids : unique act_id (j_activations j);
  jo_keys : unique (λ r, (act_tenant r, act_key r)) (j_activations j);
  jo_id_shape : ∀ r, r ∈ j_activations j → act_id r = activation_id (act_tenant r) (act_key r);
  jo_references : ∀ r, r ∈ j_activations j →
    release_exists (act_target r) j = true ∧ release_exists (act_previous r) j = true;
  jo_single : ∀ r r', r ∈ j_activations j → r' ∈ j_activations j →
    act_status r = Preparing → act_status r' = Preparing → r = r';
  jo_pending : ∀ s r, j_state j = Some s → r ∈ j_activations j →
    act_status r = Preparing → act_previous r = st_active s;
  jo_result : ∀ r, r ∈ j_activations j → act_result r = None ↔ act_status r = Preparing;
}.

(** *** Commit and release identities *)

Lemma commit_syntax_length c : commit_syntax c = true → (String.length c ≤ 64)%nat.
Proof.
  unfold commit_syntax, len. intros [_ H]%andb_true_iff.
  apply orb_true_iff in H as [H|H]; apply Z.eqb_eq in H; lia.
Qed.

Lemma parse_commit_syntax v c : parse_commit v = Ok c → commit_syntax c = true.
Proof. unfold parse_commit. destruct (commit_syntax _) eqn:E; by intros [= <-]. Qed.

Lemma release_id_of_inj c c' :
  commit_syntax c = true → commit_syntax c' = true →
  release_id_of c = release_id_of c' → c = c'.
Proof.
  intros Hc%commit_syntax_length Hc'%commit_syntax_length H. unfold release_id_of in H.
  apply text_app_inj_l in H. by rewrite !take_text_id in H.
Qed.

Lemma release_exists_true id j :
  release_exists id j = true ↔ ∃ r, r ∈ j_releases j ∧ rel_id r = id.
Proof.
  unfold release_exists. rewrite exists_row_true. by setoid_rewrite bool_decide_eq_true.
Qed.

Lemma release_by_id_Some id j r :
  release_by_id id j = Some r → r ∈ j_releases j ∧ rel_id r = id.
Proof. intros [? ?%bool_decide_eq_true]%select_one_Some. done. Qed.

Lemma release_by_id_exists id j :
  release_exists id j = true → ∃ r, release_by_id id j = Some r.
Proof.
  intros (r & Hr & Hid)%release_exists_true. unfold release_by_id.
  destruct (select_one _ _) eqn:E; [eauto|].
  eapply select_one_None in E; [|exact Hr]. by rewrite bool_decide_eq_false in E.
Qed.

Lemma release_by_id_in r j :
  journal_ok j → r ∈ j_releases j → release_by_id (rel_id r) j = Some r.
Proof. intros Hj Hr. apply select_one_unique; [apply Hj|done]. Qed.

Lemma activation_by_id_Some id j r :
  activation_by_id id j = Some r → r ∈ j_activations j ∧ act_id r = id.
Proof. intros [? ?%bool_decide_eq_true]%select_one_Some. done. Qed.

Lemma activation_by_id_in r j :
  journal_ok j → r ∈ j_activations j → activation_by_id (act_id r) j = Some r.
Proof. intros Hj Hr. apply select_one_unique; [apply Hj|done]. Qed.

Lemma activation_by_key_Some t k j r :
  activation_by_key t k j = Some r → r ∈ j_activations j ∧ act_tenant r = t ∧ act_key r = k.
Proof.
  intros [? H]%select_one_Some.
  apply andb_true_iff in H as [?%bool_decide_eq_true ?%bool_decide_eq_true]. done.
Qed.

Lemma activation_by_key_None t k j r :
  activation_by_key t k j = None → r ∈ j_activations j →
  ¬ (act_tenant r = t ∧ act_key r = k).
Proof.
  intros H Hr [<- <-]. eapply select_one_None in H; [|exact Hr].
  by rewrite !bool_decide_eq_true_2 in H.
Qed.

Lemma activation_by_key_in r j :
  journal_ok j → r ∈ j_activations j →
  activation_by_key (act_tenant r) (act_key r) j = Some r.
Proof.
  intros Hj Hr. destruct (activation_by_key _ _ j) as [r'|] eqn:E.
  - apply activation_by_key_Some in E as (Hr' & Ht & Hk). f_equal.
    apply (unique_eq (λ r, (act_tenant r, act_key r)) (j_activations j)); [apply Hj|done..|].
    by rewrite Ht, Hk.
  - by eapply activation_by_key_None in E; [destruct E|exact Hr].
Qed.

(** *** Changes that keep the invariant *)

Lemma state_references_releases s j j' :
  (∀ id, release_exists id j = true → release_exists id j' = true) →
  state_references_ok s j = true → state_references_ok s j' = true.
Proof.
  intros H. unfold state_references_ok. rewrite !andb_true_iff.
  intros [[H1 H2] H3]. repeat split; auto. destruct (st_previous s); auto.
Qed.

Lemma journal_ok_releases j rows :
  journal_ok j →
  (∀ r, r ∈ j_releases j → r ∈ rows) →
  unique rel_id rows →
  (∀ r, r ∈ rows → commit_syntax (rel_source_commit r) = true ∧
                   rel_id r = release_id_of (rel_source_commit r)) →
  journal_ok (j <| j_releases := rows |>).
Proof.
  intros Hj Hsub Hu Hs.
  assert (∀ id, release_exists id j = true →
    release_exists id (j <| j_releases := rows |>) = true) as Hex.
  { intros id (r & Hr & Hid)%release_exists_true. apply release_exists_true; eauto. }
  destruct Hj. split; simpl; auto.
  - destruct (j_state j); [|done].
    destruct jo_state0. split; [|done]. by eapply state_references_releases.
  - intros r Hr. destruct (jo_references0 r Hr). auto.
Qed.

Lemma journal_ok_update j p f :
  journal_ok j →
  (∀ r, identity (f r) = identity r) →
  (∀ r, r ∈ j_activations j → p r = true →
        (act_status (f r) = Preparing → act_status r = Preparing) ∧
        (act_result (f r) = None ↔ act_status (f r) = Preparing)) →
  journal_ok (j <| j_activations := update p f (j_activations j) |>).
Proof.
  intros Hj Hid Hst.
  assert (∀ r, r ∈ update p f (j_activations j) → ∃ r0, r0 ∈ j_activations j ∧
    identity r = identity r0 ∧ (act_status r = Preparing → act_status r0 = Preparing) ∧
    (act_result r = None ↔ act_status r = Preparing) ∧
    r = if p r0 then f r0 else r0) as Hrow.
  { intros r (r0 & Hr0 & ->)%elem_of_update. exists r0. split; [done|].
    destruct (p r0) eqn:E; [destruct (Hst r0 Hr0 E); auto|].
    split_and!; auto; apply Hj; done. }
  destruct Hj. split; simpl; auto.
  - destruct (j_state j); [done|]. by rewrite jo_state0.
  - unfold unique. rewrite fmap_update; [done|]. intros r _ _.
    specialize (Hid r). unfold identity in Hid. congruence.
  - unfold unique. rewrite (fmap_update (λ r, (act_tenant r, act_key r))); [done|].
    intros r _ _. specialize (Hid r). unfold identity in Hid. congruence.
  - intros r (r0 & Hr0 & Hi & _)%Hrow. unfold identity in Hi. simplify_eq/=.
    destruct r, r0; simpl in *; simplify_eq. apply (jo_id_shape0 _ Hr0).
  - intros r (r0 & Hr0 & Hi & _)%Hrow. destruct (jo_references0 _ Hr0).
    unfold identity in Hi. destruct r, r0; simpl in *; simplify_eq. done.
  - intros r r' (r0 & Hr0 & _ & Hp & _ & Er)%Hrow (r1 & Hr1 & _ & Hp1 & _ & Er1)%Hrow H1 H2.
    assert (r0 = r1) as -> by eauto. congruence.
  - intros s r Hs (r0 & Hr0 & Hi & Hp & _)%Hrow H.
    rewrite <- (jo_pending0 s r0); auto. unfold identity in Hi.
    destruct r, r0; simpl in *; simplify_eq. done.
  - by intros r (r0 & _ & _ & _ & ? & _)%Hrow.
Qed.

Lemma journal_ok_state j s :
  journal_ok j →
  state_references_ok s j = true → st_last_good s = st_active s →
  (∀ r, r ∈ j_activations j → act_status r ≠ Preparing) →
  journal_ok (j <| j_state := Some s |>).
Proof.
  intros [] Hr Hg Hnone. split; simpl; auto.
  intros s' r _ Hr' Hp. by destruct (Hnone r Hr').
Qed.

Lemma journal_ok_insert j r s :
  journal_ok j → j_state j = Some s →
  (∀ r', r' ∈ j_activations j → activation_clash r r' = false) →
  act_id r = activation_id (act_tenant r) (act_key r) →
  release_exists (act_target r) j = true → release_exists (act_previous r) j = true →
  act_status r = Preparing → act_previous r = st_active s → act_result r = None →
  journal_ok (j <| j_activations := j_activations j ++ [r] |>).
Proof.
  intros Hj Hs Hc Hid Ht Hp Hst Hprev Hres.
  assert (∀ r', r' ∈ j_activations j → act_id r ≠ act_id r' ∧
    (act_tenant r, act_key r) ≠ (act_tenant r', act_key r') ∧ act_status r' ≠ Preparing) as Hne.
  { intros r' Hr'. specialize (Hc r' Hr'). unfold activation_clash in Hc.
    rewrite Hst, (bool_decide_eq_true_2 (Preparing = Preparing)) in Hc by done.
    apply orb_false_iff in Hc as [Hc H3%bool_decide_eq_false].
    apply orb_false_iff in Hc as [H1%bool_decide_eq_false H2].
    split_and!; auto. intros [= E1 E2]. by rewrite E1, E2, !bool_decide_eq_true_2 in H2. }
  destruct Hj. split; simpl; auto.
  - by rewrite Hs in *.
  - apply unique_app; [done|]. intros r' Hr'. apply (Hne r' Hr').
  - apply (unique_app (λ r, (act_tenant r, act_key r))); [done|].
    intros r' Hr'. apply (Hne r' Hr').
  - intros r' [?| ->%list_elem_of_singleton]%elem_of_app; auto.
  - intros r' [?| ->%list_elem_of_singleton]%elem_of_app; [by apply jo_references0|done].
  - intros r1 r2 [H1| ->%list_elem_of_singleton]%elem_of_app
      [H2| ->%list_elem_of_singleton]%elem_of_app E1 E2; auto.
    + by destruct (Hne r1 H1) as (_ & _ & ?).
    + by destruct (Hne r2 H2) as (_ & _ & ?).
  - intros s' r' Hs' [H1| ->%list_elem_of_singleton]%elem_of_app E; [eauto|].
    by simplify_eq.
  - intros r' [?| ->%list_elem_of_singleton]%elem_of_app; auto. by rewrite Hres, Hst.
Qed.

(** *** Every method keeps it *)

Lemma run_journal_ok {A} (I : journal → Prop) (m : M journal A) j :
  preserves I m → I j → I (m j).1.
Proof. intros H Hj. by apply H. Qed.

Lemma release_for_commit_ok c now : preserves journal_ok (release_for_commit c now).
Proof.
  intros j Hj. unfold release_for_commit. rewrite run_outcome_bind.
  destruct (parse_commit c) as [commit|] eqn:Hc; [|done]. run.
  apply parse_commit_syntax in Hc.
  assert (journal_ok (j <| j_releases := insert_or_ignore release_clash
    (Release (release_id_of commit) commit now) (j_releases j) |>)) as Hj'.
  { destruct (insert_or_ignore_spec release_clash
      (Release (release_id_of commit) commit now) (j_releases j)) as [[-> Hn]|[-> _]].
    - apply journal_ok_releases; [done| | |].
      + set_solver.
      + apply unique_app; [apply Hj|]. intros r Hr. specialize (Hn r Hr).
        apply orb_false_iff in Hn as [Hn%bool_decide_eq_false _]. done.
      + intros r [?| ->%list_elem_of_singleton]%elem_of_app; [by apply Hj|done].
    - destruct Hj; by split. }
  run_cases; exact Hj'.
Qed.

Lemma initialize_ok c now now' : preserves journal_ok (initialize c now now').
Proof.
  intros j Hj. unfold initialize. rewrite run_bind.
  pose proof (release_for_commit_ok c now j Hj) as H.
  destruct (release_for_commit c now j) as [j1 [r|e]]; [|done]. simpl in H. run.
  destruct (j_state j1) as [s|] eqn:Es; unfold state, write_state.
  - by run_cases.
  - assert (∀ s0, state_references_ok s0 j1 = true → st_last_good s0 = st_active s0 →
      journal_ok (j1 <| j_state := Some s0 |>)) as Hw.
    { intros s0 H1 H2. apply journal_ok_state; auto. intros r' Hr'.
      destruct H. rewrite Es in jo_state0. rewrite jo_state0 in Hr'. set_solver. }
    run_cases; auto; by rewrite Es in *.
Qed.

Lemma journal_ok_active_row j r :
  journal_ok j → r ∈ j_activations j → ∃ s, j_state j = Some s.
Proof.
  intros [] Hr. destruct (j_state j) as [s|]; [eauto|].
  rewrite jo_state0 in Hr. set_solver.
Qed.

Lemma begin_ok a now : preserves journal_ok (begin a now).
Proof.
  intros j Hj. unfold begin, insert_activation.
  run_cases; try done;
    apply andb_true_iff in E2 as [H1 H2];
    apply bind_Some in E3 as (t & Ei & [= <-]);
    apply insert_row_Some in Ei as [-> Hc];
    apply bool_decide_eq_true in E1;
    (eapply journal_ok_insert; [done|done|exact Hc|done..]).
Qed.

Definition succeed (id : string) (result : json) (now : Z) (j : journal) : list activation :=
  update (λ r, (act_id r == id) && (act_status r == Preparing))
    (λ r, r <| act_status := Active |> <| act_result := Some result |>
            <| act_updated_at := now |>) (j_activations j).

(** The state row and the activation advance together. *)
Lemma complete_success_run id result now j op :
  journal_ok j → activation_by_id id j = Some op → act_status op = Preparing →
  complete_success id result now j =
    (j <| j_state := Some (SourceState (act_target op) (Some (act_previous op))
                             (act_target op) now) |>
       <| j_activations := succeed id result now j |>,
     Ok (op <| act_status := Active |> <| act_result := Some result |>
            <| act_updated_at := now |>)).
Proof.
  intros Hj Hop Hst. pose proof (activation_by_id_Some _ _ _ Hop) as [Hin Hid].
  destruct (journal_ok_active_row _ _ Hj Hin) as [s Hs].
  pose proof (jo_pending _ Hj s op Hs Hin Hst) as Hprev.
  destruct (jo_references _ Hj op Hin) as [Ht Hp].
  unfold complete_success, write_state, update_activations.
  run. rewrite Hop. cbn beta iota. rewrite Hst, bool_decide_eq_true_2 by done.
  cbn [negb]. run. rewrite Hs. cbn beta iota.
  rewrite Hprev, bool_decide_eq_true_2 by done. run.
  unfold state_references_ok at 1. cbn [st_active st_previous st_last_good].
  rewrite Ht, <- Hprev, Hp. cbn [andb]. run. unfold activation_by_id at 1.
  cbn [j_activations modify_field].
  rewrite select_one_update by done.
  change (select_one _ (j_activations j)) with (activation_by_id id j) at 1.
  rewrite Hop. cbn. by rewrite Hid, Hst, !bool_decide_eq_true_2.
Qed.

Lemma complete_success_ok id result now : preserves journal_ok (complete_success id result now).
Proof.
  intros j Hj. destruct (activation_by_id id j) as [op|] eqn:Hop.
  2: { unfold complete_success. run. by rewrite Hop. }
  destruct (decide (act_status op = Preparing)) as [Hst|Hst].
  2: { unfold complete_success. run. by rewrite Hop, bool_decide_eq_false_2. }
  rewrite (complete_success_run _ _ _ _ _ Hj Hop Hst).
  apply activation_by_id_Some in Hop as [Hin Hid].
  destruct (jo_references _ Hj op Hin) as [Ht Hp].
  change (journal_ok ((j <| j_activations := succeed id result now j |>)
    <| j_state := Some (SourceState (act_target op) (Some (act_previous op))
                          (act_target op) now) |>)).
  apply journal_ok_state.
  - by apply journal_ok_update.
  - unfold state_references_ok. cbn. rewrite andb_true_iff, andb_true_iff. done.
  - done.
  - intros r (r0 & Hr0 & ->)%elem_of_update.
    destruct (_ && _) eqn:E; [done|]. intros Hr.
    assert (r0 = op) as -> by (eapply (jo_single _ Hj); done).
    by rewrite Hid, Hst, !bool_decide_eq_true_2 in E.
Qed.

Lemma complete_failure_ok id rb result now :
  preserves journal_ok (complete_failure id rb result now).
Proof.
  intros j Hj. unfold complete_failure, update_activations, operation.
  assert (journal_ok (j <| j_activations := update
    (λ r, (act_id r == id) && (act_status r == Preparing))
    (λ r, r <| act_status := if rb then RolledBack else Failed |>
            <| act_result := Some result |> <| act_updated_at := now |>)
    (j_activations j) |>)).
  { apply journal_ok_update; [done|done|]. intros r _ _; simpl. by destruct rb. }
  run_cases; done.
Qed.

Lemma mark_notified_ok id now : preserves journal_ok (mark_notified id now).
Proof.
  intros j Hj. apply journal_ok_update; [done|done|].
  intros r Hr _. simpl. split; [done|]. by apply Hj.
Qed.

Lemma latest_active_for_Some target j r :
  latest_active_for target j = Some r →
  r ∈ j_activations j ∧ act_target r = target ∧ act_status r = Active.
Proof.
  unfold latest_active_for. intros Hr%head_Some_elem_of.
  rewrite order_by_perm in Hr. apply elem_of_select in Hr as [Hr H].
  apply andb_true_iff in H as [?%bool_decide_eq_true ?%bool_decide_eq_true]. done.
Qed.

Definition mark_rolled_back (failed : string) (result : json) (now : Z) (j : journal) : journal :=
  match latest_active_for failed j with
  | None => j
  | Some op => j <| j_activations := update (λ r, act_id r == act_id op)
      (λ r, r <| act_status := RolledBack |> <| act_result := Some result |>
              <| act_updated_at := now |>) (j_activations j) |>
  end.

Definition fail_pending (failed : string) (result : json) (now : Z) (j : journal) : journal :=
  j <| j_activations := update
      (λ r, (act_status r == Preparing) && (act_previous r == failed))
      (λ r, r <| act_status := Failed |> <| act_result := Some result |>
              <| act_updated_at := now |>) (j_activations j) |>.

(** What a recovery writes, when its checks pass. *)
Definition recovered (failed selected : string) (invalidate : bool) (now : Z) (j : journal) :
    journal :=
  let result := recovery_result selected failed in
  let j' := mark_rolled_back failed result now
              (j <| j_state := Some (SourceState selected None selected now) |>) in
  if invalidate then fail_pending failed result now j' else j'.

Lemma complete_recovery_run failed selected invalidate now j s :
  journal_ok j → j_state j = Some s → st_active s = failed →
  st_previous s = Some selected → (invalidate = true ∨ has_pending j = false) →
  complete_recovery failed selected invalidate now j =
    (recovered failed selected invalidate now j, Ok tt).
Proof.
  intros Hj Hs Ha Hp Hi. unfold complete_recovery, write_state, update_activations.
  run. rewrite Hs. cbn beta iota. rewrite Ha, Hp, bool_decide_eq_true_2 by done. run.
  rewrite ?bool_decide_eq_true_2 by done. run.
  assert (negb (has_pending j) || invalidate = true) as ->.
  { destruct Hi as [-> | ->]; [apply orb_true_r|done]. }
  cbn iota. run. unfold state_references_ok at 1. cbn [st_active st_previous st_last_good].
  pose proof (jo_state _ Hj) as Hst. rewrite Hs in Hst. destruct Hst as [Hst _].
  unfold state_references_ok in Hst. rewrite Hp in Hst.
  apply andb_true_iff in Hst as [_ ->]. cbn [andb]. run.
  unfold recovered, mark_rolled_back.
  destruct (latest_active_for failed _) eqn:E; run; destruct invalidate; by run.
Qed.

Lemma recovered_settled failed selected invalidate now j s :
  journal_ok j → j_state j = Some s → st_active s = failed →
  (invalidate = true ∨ has_pending j = false) →
  ∀ r, r ∈ j_activations (recovered failed selected invalidate now j) →
       act_status r ≠ Preparing.
Proof.
  intros Hj Hs Ha Hi r Hr Hprep. unfold recovered in Hr.
  set (res := recovery_result selected failed) in *.
  set (j1 := j <| j_state := Some (SourceState selected None selected now) |>) in *.
  assert (∀ r, r ∈ j_activations (mark_rolled_back failed res now j1) →
    act_status r = Preparing → r ∈ j_activations j) as Hback.
  { unfold mark_rolled_back. destruct (latest_active_for failed j1) as [op|]; [|done].
    intros r1 (r0 & Hr0 & ->)%elem_of_update. by destruct (bool_decide _). }
  destruct Hi as [-> | Hi].
  - apply elem_of_update in Hr as (r0 & Hr0 & ->).
    destruct (_ && _) eqn:E; [done|]. specialize (Hback r0 Hr0 Hprep).
    rewrite Hprep, (jo_pending _ Hj s r0), Ha, !bool_decide_eq_true_2 in E; done.
  - assert (r ∈ j_activations (mark_rolled_back failed res now j1)) as Hr'.
    { destruct invalidate; [|done]. apply elem_of_update in Hr as (r0 & Hr0 & ->).
      by destruct (_ && _). }
    unfold has_pending in Hi. rewrite exists_row_false in Hi.
    specialize (Hi r (Hback r Hr' Hprep)). by rewrite Hprep in Hi.
Qed.

Lemma recovered_ok failed selected invalidate now j s :
  journal_ok j → j_state j = Some s → st_active s = failed →
  st_previous s = Some selected → (invalidate = true ∨ has_pending j = false) →
  journal_ok (recovered failed selected invalidate now j).
Proof.
  intros Hj Hs Ha Hp Hi. set (res := recovery_result selected failed).
  set (st' := SourceState selected None selected now).
  pose proof (recovered_settled failed selected invalidate now j s Hj Hs Ha Hi) as Hsettled.
  assert (journal_ok (mark_rolled_back failed res now j)) as H1.
  { unfold mark_rolled_back. destruct (latest_active_for failed j); [|done].
    by apply journal_ok_update. }
  assert (recovered failed selected invalidate now j =
    (if invalidate then fail_pending failed res now (mark_rolled_back failed res now j)
     else mark_rolled_back failed res now j) <| j_state := Some st' |>) as E.
  { unfold recovered, mark_rolled_back, fail_pending. fold res st'.
    change (latest_active_for failed (j <| j_state := Some st' |>))
      with (latest_active_for failed j).
    destruct (latest_active_for failed j), invalidate; done. }
  rewrite E in *. apply journal_ok_state; [| |done|exact Hsettled].
  - destruct invalidate; [|done]. by apply journal_ok_update.
  - pose proof (jo_state _ Hj) as Hst. rewrite Hs in Hst. destruct Hst as [Hst _].
    unfold state_references_ok in Hst. rewrite Hp in Hst.
    apply andb_true_iff in Hst as [_ Hsel].
    unfold state_references_ok, st'. cbn [st_active st_previous st_last_good].
    replace (release_exists selected _) with (release_exists selected j); [by rewrite Hsel|].
    unfold mark_rolled_back, fail_pending.
    destruct (latest_active_for failed j), invalidate; done.
Qed.

(** A recovery that succeeds passed its checks. *)
Lemma complete_recovery_checks failed selected invalidate now j j' :
  journal_ok j → complete_recovery failed selected invalidate now j = (j', Ok tt) →
  ∃ s, j_state j = Some s ∧ st_active s = failed ∧ st_previous s = Some selected ∧
    (invalidate = true ∨ has_pending j = false).
Proof.
  intros Hj. unfold complete_recovery, write_state, update_activations. run.
  destruct (j_state j) as [s|] eqn:Hs; [|by run]. run.
  destruct (bool_decide_reflect (st_active s = failed)) as [Ha|]; [|by run].
  destruct (bool_decide_reflect (default "" (st_previous s) = selected)) as [Hp|]; [|by run].
  destruct (negb (has_pending j) || invalidate) eqn:Hi; [|by run]. run.
  intros E. exists s. split_and!; [done|done| |].
  - pose proof (jo_state _ Hj) as Hst. rewrite Hs in Hst.
    destruct (st_previous s) as [p|] eqn:Hp'; [by subst|]. exfalso. simpl in Hp. subst selected.
    destruct (state_references_ok _ j) eqn:Href; [|done].
    unfold state_references_ok in Href. simpl in Href.
    apply andb_true_iff in Href as [[Href _]%andb_true_iff _].
    apply release_exists_true in Href as (r & Hr & Hid).
    destruct (jo_release_shape _ Hj r Hr) as [_ Hsh]. by rewrite Hid in Hsh.
  - apply orb_true_iff in Hi as [Hi|Hi]; [right; by destruct (has_pending j)|by left].
Qed.

Lemma complete_recovery_ok failed selected invalidate now :
  preserves journal_ok (complete_recovery failed selected invalidate now).
Proof.
  intros j Hj.
  destruct (complete_recovery failed selected invalidate now j) as [j' [[]|e]] eqn:E.
  2: { by apply transaction_rollback in E as ->. }
  destruct (complete_recovery_checks _ _ _ _ _ _ Hj E) as (s & Hs & Ha & Hp & Hi).
  rewrite (complete_recovery_run _ _ _ _ _ s) in E by done. simplify_eq/=.
  by apply (recovered_ok _ _ _ _ _ s).
Qed.

(** ** Reachable journals *)

Inductive journal_op :=
  | OInitialize (commit : string) (now now' : Z)
  | ORelease (commit : string) (now : Z)
  | OBegin (a : begin_args) (now : Z)
  | OSuccess (id : string) (result : json) (now : Z)
  | OFailure (id : string) (rolled_back : bool) (result : json) (now : Z)
  | ORecovery (failed selected : string) (invalidate : bool) (now : Z)
  | ONotified (id : string) (now : Z).

Definition run_op (o : journal_op) (j : journal) : journal :=
  match o with
  | OInitialize c n n' => (initialize c n n' j).1
  | ORelease c n => (release_for_commit c n j).1
  | OBegin a n => (begin a n j).1
  | OSuccess id r n => (complete_success id r n j).1
  | OFailure id rb r n => (complete_failure id rb r n j).1
  | ORecovery f s i n => (complete_recovery f s i n j).1
  | ONotified id n => (mark_notified id n j).1
  end.

Definition run_ops (ops : list journal_op) (j : journal) : journal :=
  foldl (λ j o, run_op o j) j ops.

#[export] Hint Resolve initialize_ok release_for_commit_ok begin_ok complete_success_ok
  complete_failure_ok complete_recovery_ok mark_notified_ok : tulpa.

Lemma run_op_ok o j : journal_ok j → journal_ok (run_op o j).
Proof.
  intros Hj. destruct o; cbn [run_op];
    apply (run_journal_ok journal_ok _ j); auto with tulpa.
Qed.

Lemma run_ops_ok ops j : journal_ok j → journal_ok (run_ops ops j).
Proof.
  unfold run_ops. revert j. induction ops as [|o ops IH]; intros j Hj; simpl; [done|].
  by apply IH, run_op_ok.
Qed.

Lemma empty_journal_ok : journal_ok empty_journal.
Proof. split; simpl; try set_solver; try apply NoDup_nil_2. Qed.

(** The statuses an activation may go through. *)
Definition status_step (s s' : activation_status) : Prop :=
  s = s' ∨ s = Preparing ∨ (s = Active ∧ s' = RolledBack).

Definition evolves (j j' : journal) : Prop := ∀ r, r ∈ j_activations j →
  ∃ r', r' ∈ j_activations j' ∧ identity r' = identity r ∧
        status_step (act_status r) (act_status r').

Lemma evolves_refl j : evolves j j.
Proof. intros r Hr. exists r. unfold status_step. auto. Qed.

Lemma evolves_trans j1 j2 j3 : evolves j1 j2 → evolves j2 j3 → evolves j1 j3.
Proof.
  intros H12 H23 r Hr. destruct (H12 r Hr) as (r2 & Hr2 & Hi2 & Hs2).
  destruct (H23 r2 Hr2) as (r3 & Hr3 & Hi3 & Hs3). exists r3.
  split_and!; [done|congruence|]. unfold status_step in *.
  destruct Hs2 as [-> |[-> |[-> Hs2]]]; auto.
  rewrite Hs2 in Hs3. destruct Hs3 as [<- |[?|[? _]]]; auto; congruence.
Qed.

Lemma evolves_incl j j' :
  (∀ r, r ∈ j_activations j → r ∈ j_activations j') → evolves j j'.
Proof. intros H r Hr. exists r. unfold status_step. auto. Qed.

Lemma evolves_update j j' p f :
  j_activations j' = update p f (j_activations j) →
  (∀ r, identity (f r) = identity r) →
  (∀ r, r ∈ j_activations j → p r = true → status_step (act_status r) (act_status (f r))) →
  evolves j j'.
Proof.
  intros Hj' Hid Hst r Hr. exists (if p r then f r else r). split_and!.
  - rewrite Hj'. apply elem_of_update; eauto.
  - destruct (p r); auto.
  - destruct (p r) eqn:E; auto. by left.
Qed.

Lemma release_for_commit_acts c now j :
  j_activations (release_for_commit c now j).1 = j_activations j.
Proof. unfold release_for_commit. run_cases; done. Qed.

Lemma initialize_acts c now now' j :
  j_activations (initialize c now now' j).1 = j_activations j.
Proof.
  unfold initialize. rewrite run_bind. pose proof (release_for_commit_acts c now j) as H.
  destruct (release_for_commit c now j) as [j1 [r|e]]; [|done]. simpl in H. rewrite <- H.
  unfold state, write_state. run_cases; done.
Qed.

Lemma complete_recovery_evolves f s i now j :
  journal_ok j → evolves j (complete_recovery f s i now j).1.
Proof.
  intros Hj. destruct (complete_recovery f s i now j) as [j' [[]|e]] eqn:E.
  2: { apply transaction_rollback in E as ->. apply evolves_refl. }
  destruct (complete_recovery_checks _ _ _ _ _ _ Hj E) as (st & Hs & Ha & Hp & Hi).
  rewrite (complete_recovery_run _ _ _ _ _ st) in E by done. injection E as <-. simpl.
  set (j1 := j <| j_state := Some (SourceState s None s now) |>).
  set (res := recovery_result s f).
  apply (evolves_trans _ (mark_rolled_back f res now j1)).
  - unfold mark_rolled_back. destruct (latest_active_for f j1) as [op|] eqn:Eop.
    2: { by apply evolves_incl. }
    eapply evolves_update; [done|done|]. intros r Hr Hid%bool_decide_eq_true.
    apply latest_active_for_Some in Eop as (Hop & _ & Hact). right; right.
    split; [|done]. rewrite (unique_eq act_id (j_activations j) r op); try done. apply Hj.
  - unfold recovered. fold res j1. destruct i; [|apply evolves_refl].
    eapply evolves_update; [done|done|].
    intros r _ [?%bool_decide_eq_true _]%andb_true_iff. by right; left.
Qed.

Lemma run_op_evolves o j : journal_ok j → evolves j (run_op o j).
Proof.
  intros Hj. destruct o; cbn [run_op].
  - apply evolves_incl. by rewrite initialize_acts.
  - apply evolves_incl. by rewrite release_for_commit_acts.
  - apply evolves_incl. intros r Hr. unfold begin, insert_activation.
    run_cases; try done. all: apply bind_Some in E3 as (t & Ei & [= <-]);
      apply insert_row_Some in Ei as [-> _]; simpl; set_solver.
  - destruct (activation_by_id id j) as [op|] eqn:Hop.
    2: { unfold complete_success. run. rewrite Hop. apply evolves_refl. }
    destruct (decide (act_status op = Preparing)) as [Hst|Hst].
    2: { unfold complete_success. run. rewrite Hop, bool_decide_eq_false_2 by done.
         apply evolves_refl. }
    rewrite (complete_success_run _ _ _ _ _ Hj Hop Hst).
    eapply evolves_update; [done|done|].
    intros r _ [_ ?%bool_decide_eq_true]%andb_true_iff. by right; left.
  - eapply (evolves_update _ _
      (λ r, (act_id r == id) && (act_status r == Preparing))
      (λ r, r <| act_status := if rolled_back then RolledBack else Failed |>
              <| act_result := Some result |> <| act_updated_at := now |>)); [|done|].
    + unfold complete_failure, update_activations, operation. run_cases; done.
    + intros r _ [_ ?%bool_decide_eq_true]%andb_true_iff. by right; left.
  - by apply complete_recovery_evolves.
  - eapply evolves_update; [done|done|]. by left.
Qed.

Lemma run_ops_evolves ops j : journal_ok j → evolves j (run_ops ops j).
Proof.
  unfold run_ops. revert j. induction ops as [|o ops IH]; intros j Hj; simpl.
  - apply evolves_refl.
  - eapply evolves_trans; [by apply run_op_evolves|]. by apply IH, run_op_ok.
Qed.

(** ** Theorems *)

(** C19: Whatever sequence of journal methods is called, starting from the empty
    database, with whatever arguments, the journal stays coherent: release
    identifiers are determined by their commits, the state row names existing
    releases and its last-good release is the active one, activation
    identifiers and idempotency keys are unique, at most one activation is in
    progress, the one in progress was begun against the release that is still
    active, and an activation has a result exactly when it is over. *)
Theorem journal_invariant ops : journal_ok (run_ops ops empty_journal).
Proof. apply run_ops_ok, empty_journal_ok. Qed.

(** No sequence of journal methods rewrites history: every recorded
    activation keeps its identity, key, request hash, kind, releases, reason,
    instructions, plan, audit and creation time, and its status only moves
    from in progress to a final one, or from active to rolled back. *)
Theorem journal_history ops j r :
  journal_ok j → r ∈ j_activations j →
  ∃ r', r' ∈ j_activations (run_ops ops j) ∧ identity r' = identity r ∧
        status_step (act_status r) (act_status r').
Proof. intros Hj. by apply run_ops_evolves. Qed.

Lemma begin_recorded a now j j' op b :
  journal_ok j → begin a now j = (j', Ok (op, b)) →
  journal_ok j' ∧ op ∈ j_activations j' ∧ act_tenant op = ba_tenant a ∧
  act_key op = ba_key a ∧ act_hash op = ba_hash a.
Proof.
  intros Hj E. pose proof (begin_ok a now j Hj) as Hj'. rewrite E in Hj'. split; [done|].
  revert E. unfold begin, insert_activation. run_cases; intros [= <- <- <-].
  - apply activation_by_key_Some in E as (? & ? & ?).
    apply bool_decide_eq_true in E0. done.
  - apply bind_Some in E3 as (t & Ei & [= <-]).
    apply insert_row_Some in Ei as [-> _]. simpl in *.
    apply activation_by_id_Some in E4 as [Hop Hid]. split; [done|].
    assert (a0 = new_activation a now) as ->; [|done].
    apply (unique_eq act_id (j_activations j ++ [new_activation a now])); [apply Hj'|done| |].
    + apply elem_of_app. right. by apply list_elem_of_singleton.
    + by rewrite Hid.
Qed.

(** Idempotency of [begin]: once a request has been accepted, repeating it
    under the same tenant and key returns the recorded activation and changes
    nothing, however much later and whatever happened in between; a different
    request under the key is refused and changes nothing either. *)
Theorem begin_idempotent a now j j1 op b ops a' now' :
  journal_ok j → begin a now j = (j1, Ok (op, b)) →
  ba_tenant a' = ba_tenant a → ba_key a' = ba_key a →
  let j2 := run_ops ops j1 in
  if decide (ba_hash a' = ba_hash a)
  then ∃ op', begin a' now' j2 = (j2, Ok (op', true)) ∧ identity op' = identity op
  else begin a' now' j2 = (j2, Err key_reused).
Proof.
  intros Hj Hb Ht Hk j2.
  destruct (begin_recorded _ _ _ _ _ _ Hj Hb) as (Hj1 & Hop & Hot & Hok & Hoh).
  destruct (run_ops_evolves ops j1 Hj1 op Hop) as (op' & Hop' & Hid & _). fold j2 in Hop'.
  assert (act_tenant op' = ba_tenant a' ∧ act_key op' = ba_key a' ∧ act_hash op' = ba_hash a)
    as (Ht' & Hk' & Hh').
  { unfold identity in Hid. simplify_eq/=. split_and!; congruence. }
  pose proof (activation_by_key_in op' j2 (run_ops_ok ops j1 Hj1) Hop') as Hf.
  rewrite Ht', Hk' in Hf. unfold begin. run. rewrite Hf. run. rewrite Hh'.
  case_decide as E; [exists op'|].
  - by rewrite bool_decide_eq_true_2.
  - rewrite bool_decide_eq_false_2 by congruence. done.
Qed.

Lemma clash_in_progress r r' :
  act_status r = Preparing → act_status r' = Preparing → activation_clash r r' = true.
Proof.
  intros H H'. unfold activation_clash.
  rewrite H, H', (bool_decide_eq_true_2 (Preparing = Preparing)) by done. apply orb_true_r.
Qed.

Lemma insert_activation_in_progress r op j :
  op ∈ j_activations j → act_status op = Preparing → act_status r = Preparing →
  insert_activation r j = (j, Err integrity).
Proof.
  intros Hop H H'. unfold insert_activation. run. destruct (_ && _); [|done].
  destruct (insert_row _ _ _) as [t|] eqn:E; [|done].
  apply insert_row_Some in E as [_ E]. specialize (E op Hop).
  by rewrite clash_in_progress in E by done.
Qed.

(** Single flight: while an activation is in progress, a request under a new
    key is refused, whatever it asks for, and the journal does not change. *)
Theorem begin_single_flight a now j op :
  op ∈ j_activations j → act_status op = Preparing →
  activation_by_key (ba_tenant a) (ba_key a) j = None →
  ∃ message, begin a now j = (j, Err (SourceEvolutionError message)).
Proof.
  intros Hop Hst Hnew. unfold begin. run. rewrite Hnew. run.
  destruct (j_state j) as [s|]; run; [|eauto].
  destruct (_ == _); run; [|eauto].
  rewrite (run_bind_err _ _ _ j integrity); [run; eauto|].
  by eapply insert_activation_in_progress.
Qed.

(** Completing the activation in progress always succeeds on a reachable
    journal: in one transaction its target becomes the active and last-good
    release, the release it replaced becomes the previous one, and the
    activation is recorded active with its result; every other activation and
    every release row is as before. *)
Theorem complete_success_advances id result now j op :
  journal_ok j → activation_by_id id j = Some op → act_status op = Preparing →
  let op' := op <| act_status := Active |> <| act_result := Some result |>
                <| act_updated_at := now |> in
  ∃ j', complete_success id result now j = (j', Ok op') ∧
    j_state j' = Some (SourceState (act_target op) (Some (act_previous op)) (act_target op) now) ∧
    j_releases j' = j_releases j ∧
    (∀ r, act_id r ≠ id → r ∈ j_activations j' ↔ r ∈ j_activations j) ∧
    activation_by_id id j' = Some op' ∧ has_pending j' = false.
Proof.
  intros Hj Hop Hst op'. rewrite (complete_success_run _ _ _ _ _ Hj Hop Hst).
  eexists. split; [done|]. split; [done|]. split; [done|].
  apply activation_by_id_Some in Hop as Hin. destruct Hin as [Hin Hid]. split_and!.
  - intros r Hr. simpl. unfold succeed. rewrite elem_of_update. split.
    + intros (r0 & Hr0 & ->). destruct (_ && _) eqn:E; [|done].
      apply andb_true_iff in E as [E%bool_decide_eq_true _]. simpl in Hr. done.
    + intros H. exists r. by rewrite bool_decide_eq_false_2.
  - unfold activation_by_id, succeed. simpl. rewrite select_one_update by done.
    change (select_one _ (j_activations j)) with (activation_by_id id j) at 1.
    rewrite Hop. simpl. by rewrite Hid, Hst, !bool_decide_eq_true_2.
  - apply exists_row_false. intros r (r0 & Hr0 & ->)%elem_of_update.
    destruct (_ && _) eqn:E; [done|]. apply bool_decide_eq_false. intros Hr.
    assert (r0 = op) as -> by (eapply (jo_single _ Hj); done).
    by rewrite Hid, Hst, !bool_decide_eq_true_2 in E.
Qed.

(** An activation that is over stays as it was completed: neither a later
    success nor a later failure report changes the journal, and both answer
    with the recorded activation. *)
Theorem settled_is_final id rb result now j op :
  activation_by_id id j = Some op → act_status op ≠ Preparing → journal_ok j →
  complete_success id result now j = (j, Ok op) ∧
  complete_failure id rb result now j = (j, Ok op).
Proof.
  intros Hop Hst Hj. split.
  - unfold complete_success. run. by rewrite Hop, bool_decide_eq_false_2.
  - unfold complete_failure, update_activations, operation. run.
    apply activation_by_id_Some in Hop as Hin. destruct Hin as [Hin Hid].
    rewrite update_none.
    + assert (j <| j_activations := j_activations j |> = j) as -> by by destruct j.
      by rewrite Hop.
    + intros r Hr. destruct (bool_decide_reflect (act_id r = id)) as [E|E]; [|done].
      rewrite (unique_eq act_id (j_activations j) r op); [|apply Hj|congruence..].
      by apply bool_decide_eq_false.
Qed.

(** *** Releases *)

Lemma hex_char_solid c : is_hex_lower c = true → py_isspace c = false ∧ lower_char c = c.
Proof.
  unfold is_hex_lower, py_isspace, lower_char. generalize (code c); intros n H.
  apply orb_true_iff in H.
  rewrite !andb_true_iff, !N.leb_le in H.
  assert ((9 <=? n) && (n <=? 13) = false)%N as -> by (apply andb_false_iff; rewrite !N.leb_gt; lia).
  assert ((28 <=? n) && (n <=? 32) = false)%N as -> by (apply andb_false_iff; rewrite !N.leb_gt; lia).
  assert ((n =? 133) = false)%N as -> by (apply N.eqb_neq; lia).
  assert ((n =? 160) = false)%N as -> by (apply N.eqb_neq; lia).
  assert ((65 <=? n) && (n <=? 90) = false)%N as -> by (apply andb_false_iff; rewrite !N.leb_gt; lia).
  assert ((192 <=? n) && (n <=? 222) = false)%N as -> by (apply andb_false_iff; rewrite !N.leb_gt; lia).
  done.
Qed.

Lemma hex_text_fixed s :
  all_chars is_hex_lower s = true → lstrip s = s ∧ rstrip s = s ∧ lower s = s.
Proof.
  unfold lower. induction s as [|c s IH]; simpl; [done|].
  intros [[Hsp Hlo]%hex_char_solid (_ & Hr & Hl)%IH]%andb_true_iff.
  rewrite Hsp, Hr, Hlo, Hl. split_and!; [done| |done]. by destruct s.
Qed.

Lemma parse_commit_id c : commit_syntax c = true → parse_commit c = Ok c.
Proof.
  intros Hc. pose proof Hc as [Hh _]%andb_true_iff.
  destruct (hex_text_fixed c Hh) as (H1 & H2 & H3).
  unfold parse_commit, strip. by rewrite H1, H2, H3, Hc.
Qed.

(** A release is identified by its commit: for a well-formed commit the
    lookup always succeeds on a reachable journal, with the row whose commit is
    the normalized one; the first registration stays, and asking again changes
    nothing. *)
Theorem release_for_commit_total c commit now j :
  journal_ok j → parse_commit c = Ok commit →
  ∃ j' r, release_for_commit c now j = (j', Ok r) ∧
    rel_source_commit r = commit ∧ rel_id r = release_id_of commit ∧
    r ∈ j_releases j' ∧ (∀ r0, r0 ∈ j_releases j → r0 ∈ j_releases j') ∧
    ∀ now', release_for_commit commit now' j' = (j', Ok r).
Proof.
  intros Hj Hc. pose proof (parse_commit_syntax _ _ Hc) as Hsyn.
  set (rows := insert_or_ignore release_clash
    (Release (release_id_of commit) commit now) (j_releases j)).
  set (j' := j <| j_releases := rows |>).
  assert (∃ r, r ∈ rows ∧ rel_id r = release_id_of commit ∧ rel_source_commit r = commit)
    as (r & Hr & Hid & Hcm).
  { destruct (insert_or_ignore_spec release_clash
      (Release (release_id_of commit) commit now) (j_releases j)) as [[E _]|[E (r & Hr & Hx)]];
      unfold rows; rewrite E.
    - eexists. split; [apply elem_of_app; right; by apply list_elem_of_singleton|done].
    - exists r. split; [done|]. destruct (jo_release_shape _ Hj r Hr) as [Hs Hsh].
      assert (commit = rel_source_commit r) as Heq; [|split; congruence].
      apply orb_true_iff in Hx as [Hx|Hx]; apply bool_decide_eq_true in Hx; [|done].
      apply release_id_of_inj; [done..|]. by rewrite <- Hsh. }
  assert (journal_ok j') as Hj'.
  { pose proof (release_for_commit_ok c now j Hj) as H. revert H.
    unfold release_for_commit. rewrite run_outcome_bind, Hc. run. fold rows j'. run_cases; done. }
  assert (∀ v now', parse_commit v = Ok commit → ∀ j0 : journal,
    j0 <| j_releases := insert_or_ignore release_clash
            (Release (release_id_of commit) commit now') (j_releases j0) |> = j' →
    release_for_commit v now' j0 = (j', Ok r)) as Hrun.
  { intros v now' Hv j0 E. unfold release_for_commit. rewrite run_outcome_bind, Hv. run.
    rewrite E, <- Hid. rewrite (release_by_id_in r j' Hj' Hr). run.
    by rewrite Hcm, bool_decide_eq_true_2. }
  exists j', r. split_and!; try done.
  - by apply Hrun.
  - intros r0 Hr0. simpl. unfold rows.
    destruct (insert_or_ignore_spec release_clash
      (Release (release_id_of commit) commit now) (j_releases j)) as [[-> _]|[-> _]]; set_solver.
  - intros now'. apply Hrun; [by apply parse_commit_id|].
    destruct (insert_or_ignore_spec release_clash
      (Release (release_id_of commit) commit now') (j_releases j')) as [[_ Hn]|[-> _]].
    + specialize (Hn r Hr). unfold release_clash in Hn. simpl in Hn.
      by rewrite Hid, bool_decide_eq_true_2 in Hn.
    + by destruct j'.
Qed.

(** *** Recovery *)

Lemma recovery_candidate_Some failed allow j cand :
  recovery_candidate_of failed allow j = Some cand →
  ∃ s active, j_state j = Some s ∧ release_by_id (st_active s) j = Some active ∧
    rel_source_commit active = failed ∧ st_previous s = Some (rel_id cand) ∧
    release_by_id (rel_id cand) j = Some cand ∧ rel_source_commit cand ≠ failed ∧
    (allow = true ∨ has_pending j = false) ∧
    ∀ op, latest_active_for (st_active s) j = Some op → act_kind op ≠ KRollback.
Proof.
  unfold recovery_candidate_of. destruct (j_state j) as [s|] eqn:Hs; [|done].
  destruct (release_by_id (st_active s) j) as [active|] eqn:Ha; [|done].
  destruct (st_previous s) as [p|] eqn:Hp; [|done].
  destruct (bool_decide_reflect (rel_source_commit active = failed)) as [Hf|]; [|done].
  destruct (negb allow && has_pending j) eqn:Hallow; [done|]. cbn [negb].
  destruct (latest_active_for (st_active s) j) as [op|] eqn:Hop;
    [destruct (bool_decide_reflect (act_kind op = KRollback)) as [|Hk]; [done|]|];
    (destruct (release_by_id p j) as [c|] eqn:Hc; [|done]);
    (destruct (bool_decide_reflect (rel_source_commit c = failed)) as [|Hne]; [done|]);
    intros [= <-]; apply release_by_id_Some in Hc as Hc'; destruct Hc' as [_ Hcid];
    exists s, active; rewrite Hcid; (split_and!; [done..|congruence|done|done| |naive_solver]);
    apply andb_false_iff in Hallow as [Ha'|Ha']; auto; left; by destruct allow.
Qed.

(** When the active release fails at run time and the journal offers a
    recovery candidate, completing the recovery with it succeeds: the candidate
    (whose commit differs from the failed one) becomes the active and last-good
    release, no activation is left in progress, and no candidate is offered for
    the new release, whatever commit is reported, so recovery never bounces
    back to the release that failed. *)
Theorem recovery_switches_once failed allow now j s cand :
  journal_ok j → j_state j = Some s →
  recovery_candidate failed allow j = (j, Ok (Some cand)) →
  ∃ j', complete_recovery (st_active s) (rel_id cand) allow now j = (j', Ok tt) ∧
    parse_commit failed ≠ Ok (rel_source_commit cand) ∧
    j_state j' = Some (SourceState (rel_id cand) None (rel_id cand) now) ∧
    has_pending j' = false ∧
    ∀ commit allow', recovery_candidate_of commit allow' j' = None.
Proof.
  intros Hj Hs Hc. unfold recovery_candidate in Hc. rewrite run_outcome_bind in Hc.
  destruct (parse_commit failed) as [fc|]; [|done]. rewrite run_gets in Hc.
  injection Hc as Hc. apply recovery_candidate_Some in Hc
    as (s' & active & Hs' & Ha & Hac & Hp & Hcand & Hne & Hal & _).
  simplify_eq. exists (recovered (st_active s) (rel_id cand) allow now j).
  pose proof (recovered_ok (st_active s) (rel_id cand) allow now j s Hj Hs eq_refl Hp Hal) as Hj'.
  assert (j_state (recovered (st_active s) (rel_id cand) allow now j) =
    Some (SourceState (rel_id cand) None (rel_id cand) now)) as Hs'.
  { unfold recovered, mark_rolled_back. destruct (latest_active_for _ _), allow; done. }
  split_and!.
  - by apply (complete_recovery_run _ _ _ _ _ s).
  - congruence.
  - done.
  - apply exists_row_false. intros r Hr. apply bool_decide_eq_false.
    exact (recovered_settled _ _ _ _ _ s Hj Hs eq_refl Hal r Hr).
  - intros commit allow'. unfold recovery_candidate_of. rewrite Hs'.
    cbn [st_active st_previous]. by case_match.
Qed.

(** The active release moves only by a completed activation, to its target,
    or by a recovery, to the recorded previous release: every other method, and
    every failed call, leaves the state row as it is. *)
Theorem active_release_moves o j s :
  journal_ok j → j_state j = Some s →
  j_state (run_op o j) = Some s ∨
  (∃ id result now op, o = OSuccess id result now ∧ activation_by_id id j = Some op ∧
     act_status op = Preparing ∧ act_previous op = st_active s ∧
     j_state (run_op o j) =
       Some (SourceState (act_target op) (Some (st_active s)) (act_target op) now)) ∨
  (∃ selected invalidate now, o = ORecovery (st_active s) selected invalidate now ∧
     st_previous s = Some selected ∧
     j_state (run_op o j) = Some (SourceState selected None selected now)).
Proof.
  intros Hj Hs. destruct o; cbn [run_op].
  - left. unfold initialize. rewrite run_bind.
    assert (j_state (release_for_commit commit now j).1 = j_state j) as H.
    { unfold release_for_commit. run_cases; done. }
    destruct (release_for_commit commit now j) as [j1 [r|e]]; simpl in H |- *; [|congruence].
    unfold state, write_state. run. rewrite H, Hs. run. rewrite H, Hs. run. simpl. congruence.
  - left. unfold release_for_commit. run_cases; done.
  - left. unfold begin, insert_activation. run_cases; try done;
      apply bind_Some in E3 as (t & _ & [= <-]); simpl; congruence.
  - destruct (activation_by_id id j) as [op|] eqn:Hop.
    2: { left. unfold complete_success. run. by rewrite Hop. }
    destruct (decide (act_status op = Preparing)) as [Hst|Hst].
    2: { left. unfold complete_success. run. by rewrite Hop, bool_decide_eq_false_2. }
    right; left. exists id, result, now, op.
    apply activation_by_id_Some in Hop as Hin. destruct Hin as [Hin _].
    rewrite (jo_pending _ Hj s op Hs Hin Hst) in *.
    rewrite (complete_success_run _ _ _ _ _ Hj Hop Hst). simpl.
    by rewrite (jo_pending _ Hj s op Hs Hin Hst).
  - left. unfold complete_failure, update_activations, operation. run_cases; done.
  - destruct (complete_recovery failed selected invalidate now j) as [j' [[]|e]] eqn:E.
    2: { left. by apply transaction_rollback in E as ->. }
    destruct (complete_recovery_checks _ _ _ _ _ _ Hj E) as (s' & Hs' & Ha & Hp & Hi).
    simplify_eq. right; right. exists selected, invalidate, now. split_and!; [done|done|].
    rewrite (complete_recovery_run _ _ _ _ _ s) in E by done. simplify_eq/=.
    unfold recovered, mark_rolled_back. destruct (latest_active_for _ _), invalidate; done.
  - by left.
Qed.

(** ** A concrete journal *)

Fixpoint repeat_text (n : nat) (s : string) : string :=
  match n with O => "" | S n' => s +:+ repeat_text n' s end.

Definition commit_a : string := repeat_text 40 "a".
Definition commit_b : string := repeat_text 40 "b".

Definition sample_args : begin_args :=
  BeginArgs "owner" "key-1" "hash-1" KActivate (release_id_of commit_b)
    (release_id_of commit_a) "reason" (JObj []) "review" None.

(** Release [a] is active and the activation of [b] is in progress. *)
Definition sample_pending : journal :=
  run_ops [OInitialize commit_a 1 1; ORelease commit_b 2; OBegin sample_args 3] empty_journal.
Definition sample_op : activation := new_activation sample_args 3.
(** ... and after it succeeded. *)
Definition sample_active : journal :=
  run_ops [OSuccess (act_id sample_op) JNull 4] sample_pending.

Lemma sample_pending_ok : journal_ok sample_pending.
Proof. apply run_ops_ok, empty_journal_ok. Qed.
Lemma sample_active_ok : journal_ok sample_active.
Proof. apply run_ops_ok, sample_pending_ok. Qed.
Lemma sample_op_in : sample_op ∈ j_activations sample_pending.
Proof. vm_compute. left. Qed.

(** ** Witnesses *)

Lemma journal_history_witness :
  ∃ r', r' ∈ j_activations (run_ops [OSuccess (act_id sample_op) JNull 4] sample_pending) ∧
        identity r' = identity sample_op ∧ status_step Preparing (act_status r').
Proof.
  exact (journal_history [OSuccess (act_id sample_op) JNull 4] sample_pending sample_op
           sample_pending_ok sample_op_in).
Defined.

Definition sample_ready : journal :=
  run_ops [OInitialize commit_a 1 1; ORelease commit_b 2] empty_journal.

Lemma begin_idempotent_witness :
  ∃ op', begin sample_args 9 sample_active = (sample_active, Ok (op', true)) ∧
         identity op' = identity sample_op.
Proof.
  refine (begin_idempotent sample_args 3 sample_ready sample_pending sample_op false
            [OSuccess (act_id sample_op) JNull 4] sample_args 9 _ _ eq_refl eq_refl).
  - apply run_ops_ok, empty_journal_ok.
  - vm_compute. reflexivity.
Defined.

Lemma begin_single_flight_witness :
  ∃ message, begin (BeginArgs "owner" "key-2" "h" KActivate "t" "p" "" JNull "" None) 5
    sample_pending = (sample_pending, Err (SourceEvolutionError message)).
Proof.
  apply (begin_single_flight _ 5 sample_pending sample_op sample_op_in eq_refl).
  vm_compute. reflexivity.
Defined.

Lemma complete_success_advances_witness :
  ∃ j', complete_success (act_id sample_op) JNull 4 sample_pending =
      (j', Ok (sample_op <| act_status := Active |> <| act_result := Some JNull |>
                 <| act_updated_at := 4%Z |>)) ∧
    (st_active <$> j_state j') = Some (release_id_of commit_b).
Proof.
  destruct (complete_success_advances (act_id sample_op) JNull 4 sample_pending sample_op
              sample_pending_ok) as (j' & H & Hs & _).
  - vm_compute. reflexivity.
  - reflexivity.
  - exists j'. split; [exact H|]. by rewrite Hs.
Defined.

Definition sample_done : activation :=
  sample_op <| act_status := Active |> <| act_result := Some JNull |> <| act_updated_at := 4%Z |>.

Lemma settled_is_final_witness :
  complete_success (act_id sample_op) JNull 7 sample_active = (sample_active, Ok sample_done) ∧
  complete_failure (act_id sample_op) true JNull 7 sample_active = (sample_active, Ok sample_done).
Proof.
  apply (settled_is_final (act_id sample_op) true JNull 7 sample_active sample_done);
    [vm_compute; reflexivity | discriminate | apply sample_active_ok].
Defined.

Lemma release_for_commit_total_witness :
  ∃ j' r, release_for_commit (" " +:+ commit_b) 6 sample_active = (j', Ok r) ∧
    rel_source_commit r = commit_b.
Proof.
  destruct (release_for_commit_total (" " +:+ commit_b) commit_b 6 sample_active
              sample_active_ok) as (j' & r & H & Hc & _).
  - vm_compute. reflexivity.
  - exists j', r. split; [exact H|exact Hc].
Defined.

Lemma recovery_switches_once_witness :
  ∃ j', complete_recovery (release_id_of commit_b) (release_id_of commit_a) false 8
          sample_active = (j', Ok tt) ∧ has_pending j' = false.
Proof.
  destruct (recovery_switches_once commit_b false 8 sample_active
    (SourceState (release_id_of commit_b) (Some (release_id_of commit_a))
       (release_id_of commit_b) 4)
    (Release (release_id_of commit_a) commit_a 1) sample_active_ok) as (j' & H & _ & _ & Hp & _).
  - vm_compute. reflexivity.
  - vm_compute. reflexivity.
  - exists j'. split; [exact H|exact Hp].
Defined.

Lemma active_release_moves_witness :
  j_state (run_op (ONotified "x" 5) sample_active) = j_state sample_active ∨
  (st_active <$> j_state sample_active) = Some (release_id_of commit_b).
Proof.
  destruct (active_release_moves (ONotified "x" 5) sample_active
    (SourceState (release_id_of commit_b) (Some (release_id_of commit_a))
       (release_id_of commit_b) 4) sample_active_ok) as [H|H].
  - vm_compute. reflexivity.
  - left. rewrite H. vm_compute. reflexivity.
  - right. vm_compute. reflexivity.
Defined.
