(* ===== verification/Jobs.v ===== *)
(** * Background jobs ([jobs/store.py], [jobs/models.py])

    The tenant-owned job store: the [jobs], [job_events] and [job_artifacts]
    tables and every method of [JobStore]. Each method is one transaction
    followed, where the code does it, by reading the job back; a row is read
    back through the field constraints of the [Job] model. *)

From S2P Require Import Prelude Sqlite PyText Json.
#[local] Open Scope string_scope.
#[local] Open Scope list_scope.
#[local] Open Scope Z_scope.

(** ** Data *)

Inductive job_status :=
  | Queued | Running | CancelRequested | Succeeded | JobFailed | Cancelled.

Inductive event_type :=
  | EvQueued | EvRecovered | EvRunning | EvProgress | EvCancelRequested
  | EvCancelled | EvArtifactReady | EvCompleted | EvFailed.

#[global] Instance job_status_eq_dec : EqDecision job_status.
Proof. solve_decision. Defined.
#[global] Instance event_type_eq_dec : EqDecision event_type.
Proof. solve_decision. Defined.

Definition terminal (s : job_status) : bool :=
  match s with Succeeded | JobFailed | Cancelled => true | _ => false end.

Record job_error := JobError {
  je_code : string;
  je_message : string;
  je_retryable : bool;
}.

Record artifact_write := ArtifactWrite {
  aw_name : string;
  aw_media_type : string;
  aw_uri : string;
  aw_size : option Z;
  aw_sha256 : option string;
  aw_metadata : json;
}.

Record handler_result := HandlerResult {
  hr_summary : string;
  hr_data : json;
  hr_artifacts : list artifact_write;
}.

(** A row of [jobs]. *)
Record job_row := JobRow {
  jr_tenant : string;
  jr_id : string;
  jr_handler : string;
  jr_version : Z;
  jr_status : job_status;
  jr_arguments : json;
  jr_result : option handler_result;
  jr_error : option job_error;
  jr_key : string;
  jr_hash : string;
  jr_attempts : Z;
  jr_created_at : Z;
  jr_updated_at : Z;
  jr_started_at : option Z;
  jr_finished_at : option Z;
}.

(** The [Job] model a row is read back as: the row without its request hash. *)
Record job := Job {
  job_tenant : string;
  job_id : string;
  job_handler : string;
  job_version : Z;
  job_status_of : job_status;
  job_arguments : json;
  job_result : option handler_result;
  job_error_of : option job_error;
  job_key : string;
  job_attempts : Z;
  job_created_at : Z;
  job_updated_at : Z;
  job_started_at : option Z;
  job_finished_at : option Z;
}.

Record event_row := EventRow {
  ev_tenant : string;
  ev_job : string;
  ev_sequence : Z;
  ev_type : event_type;
  ev_payload : json;
  ev_created_at : Z;
}.

Record artifact_row := ArtifactRow {
  ar_tenant : string;
  ar_job : string;
  ar_id : string;
  ar_write : artifact_write;
  ar_created_at : Z;
}.

Record job_db := JobDb {
  d_jobs : list job_row;
  d_events : list event_row;
  d_artifacts : list artifact_row;
}.

#[global] Instance job_row_fields : Fields job_row := λ r,
  JobRow (jr_tenant r) (jr_id r) (jr_handler r) (jr_version r) (jr_status r)
    (jr_arguments r) (jr_result r) (jr_error r) (jr_key r) (jr_hash r)
    (jr_attempts r) (jr_created_at r) (jr_updated_at r) (jr_started_at r)
    (jr_finished_at r).
#[global] Instance job_db_fields : Fields job_db := λ d,
  JobDb (d_jobs d) (d_events d) (d_artifacts d).

Definition empty_jobs : job_db := JobDb [] [] [].

(** [Job.model_validate]: the constraints the model declares on the columns. *)
Definition row_to_job (r : job_row) : outcome job :=
  match bounded_field 100 (jr_id r), bounded_field 200 (jr_tenant r),
        bounded_field 100 (jr_handler r), bounded_field 200 (jr_key r) with
  | Some id, Some tenant, Some handler, Some key =>
      if (1 <=? jr_version r) && (0 <=? jr_attempts r) then
        Ok (Job tenant id handler (jr_version r) (jr_status r) (jr_arguments r)
              (jr_result r) (jr_error r) key (jr_attempts r) (jr_created_at r)
              (jr_updated_at r) (jr_started_at r) (jr_finished_at r))
      else Err (ValidationError "Job")
  | _, _, _, _ => Err (ValidationError "Job")
  end.

(** ** Statements *)

Definition is_job (tenant id : string) (r : job_row) : bool :=
  (jr_tenant r == tenant) && (jr_id r == id).
Definition has_job_key (tenant key : string) (r : job_row) : bool :=
  (jr_tenant r == tenant) && (jr_key r == key).
Definition event_of (tenant id : string) (e : event_row) : bool :=
  (ev_tenant e == tenant) && (ev_job e == id).

(** [PRIMARY KEY (tenant_id, id)], [UNIQUE (tenant_id, idempotency_key)] *)
Definition job_clash (r r' : job_row) : bool :=
  is_job (jr_tenant r) (jr_id r) r' || has_job_key (jr_tenant r) (jr_key r) r'.
(** [PRIMARY KEY (tenant_id, job_id, sequence)] *)
Definition event_clash (e e' : event_row) : bool :=
  event_of (ev_tenant e) (ev_job e) e' && (ev_sequence e' =? ev_sequence e).
(** [PRIMARY KEY (tenant_id, job_id, id)] *)
Definition artifact_clash (a a' : artifact_row) : bool :=
  (ar_tenant a' == ar_tenant a) && (ar_job a' == ar_job a) && (ar_id a' == ar_id a).

Definition constraint_failed : exn := IntegrityError "UNIQUE constraint failed".

Definition insert_job (r : job_row) : M job_db unit :=
  try_modify (λ d, t ← insert_row job_clash r (d_jobs d); Some (d <| d_jobs := t |>))
    constraint_failed.
Definition insert_event (e : event_row) : M job_db unit :=
  try_modify (λ d, t ← insert_row event_clash e (d_events d); Some (d <| d_events := t |>))
    constraint_failed.
Definition insert_artifact (a : artifact_row) : M job_db unit :=
  try_modify (λ d, t ← insert_row artifact_clash a (d_artifacts d);
                   Some (d <| d_artifacts := t |>))
    constraint_failed.
Definition update_jobs (p : job_row → bool) (f : job_row → job_row) : M job_db unit :=
  modify (λ d, d <| d_jobs := update p f (d_jobs d) |>).

Definition find_job (tenant id : string) (d : job_db) : option job_row :=
  select_one (is_job tenant id) (d_jobs d).
Definition status_of (tenant id : string) (d : job_db) : option job_status :=
  jr_status <$> find_job tenant id d.

(** [COALESCE(MAX(sequence), 0)] over the events of a job. *)
Definition last_sequence (tenant id : string) (d : job_db) : Z :=
  foldr (λ e acc, Z.max (ev_sequence e) acc) 0 (select (event_of tenant id) (d_events d)).

Definition append_event (tenant id : string) (ty : event_type) (payload : json) (now : Z) :
    M job_db Z :=
  next ← gets (λ d, last_sequence tenant id d + 1);
  insert_event (EventRow tenant id next ty payload now);;
  mret next.

(** ** Methods *)

Definition get_job (tenant id : string) : M job_db job :=
  row ← gets (find_job tenant id);
  match row with
  | None => raise (JobNotFoundError id)
  | Some r => from_outcome (row_to_job r)
  end.

Record create_args := CreateArgs {
  ca_tenant : string;
  ca_id : string;
  ca_handler : string;
  ca_version : Z;
  ca_arguments : json;
  ca_key : string;
  ca_hash : string;
}.

Definition new_job (a : create_args) (now : Z) : job_row :=
  JobRow (ca_tenant a) (ca_id a) (ca_handler a) (ca_version a) Queued
    (ca_arguments a) None None (ca_key a) (ca_hash a) 0 now now None None.

Definition create_job (a : create_args) (now : Z) : M job_db (job * bool) :=
  found ← transaction (
    existing ← gets (λ d, select_one (has_job_key (ca_tenant a) (ca_key a)) (d_jobs d));
    match existing with
    | Some r =>
        unless (jr_hash r == ca_hash a)
          (JobIdempotencyConflictError
             "idempotency key is already bound to a different job request");;
        mret (Some r)
    | None =>
        insert_job (new_job a now);;
        append_event (ca_tenant a) (ca_id a) EvQueued
          (JObj [("handler", JStr (ca_handler a)); ("version", JInt (ca_version a))]) now;;
        mret None
    end);
  match found with
  | Some r => j ← from_outcome (row_to_job r); mret (j, false)
  | None => j ← get_job (ca_tenant a) (ca_id a); mret (j, true)
  end.

Definition sequence_le (x y : event_row) : bool := ev_sequence x <=? ev_sequence y.

Definition job_events (tenant id : string) (after limit : Z) : M job_db (list event_row) :=
  get_job tenant id;;
  gets (λ d, take (Z.to_nat (Z.max 1 (Z.min limit 500)))
    (order_by sequence_le
      (select (λ e, event_of tenant id e && (Z.max 0 after <? ev_sequence e)) (d_events d)))).

Definition artifact_le (x y : artifact_row) : bool :=
  (ar_created_at x <? ar_created_at y)
  || (ar_created_at x =? ar_created_at y) && text_le (ar_id x) (ar_id y).

Definition job_artifacts (tenant id : string) : M job_db (list artifact_row) :=
  get_job tenant id;;
  gets (λ d, order_by artifact_le
    (select (λ a, (ar_tenant a == tenant) && (ar_job a == id)) (d_artifacts d))).

Definition get_artifact (tenant artifact_id : string) : M job_db artifact_row :=
  row ← gets (λ d, select_one (λ a, (ar_tenant a == tenant) && (ar_id a == artifact_id))
                     (d_artifacts d));
  match row with
  | None => raise (JobNotFoundError artifact_id)
  | Some a => mret a
  end.

(** [_cancel_in_connection] *)
Definition cancel_in_connection (tenant id reason : string) (now : Z) : M job_db unit :=
  update_jobs (λ r, is_job tenant id r && negb (terminal (jr_status r)))
    (λ r, r <| jr_status := Cancelled |> <| jr_updated_at := now |>
            <| jr_finished_at := Some now |>);;
  append_event tenant id EvCancelled (JObj [("reason", JStr reason)]) now;;
  mret tt.

Definition job_le (x y : job_row) : bool :=
  (jr_created_at x <? jr_created_at y)
  || (jr_created_at x =? jr_created_at y) && text_le (jr_id x) (jr_id y).

(** One row of the [recover] loop; the answer tells whether it is resumed. *)
Definition recover_row (now : Z) (r : job_row) : M job_db (option (string * string)) :=
  let tenant := jr_tenant r in
  let id := jr_id r in
  match jr_status r with
  | CancelRequested =>
      update_jobs (λ r, is_job tenant id r && (jr_status r == CancelRequested))
        (λ r, r <| jr_status := Cancelled |> <| jr_updated_at := now |>
                <| jr_finished_at := Some now |>);;
      append_event tenant id EvCancelled
        (JObj [("reason", JStr "restart_after_cancel_request")]) now;;
      mret None
  | Running =>
      update_jobs (λ r, is_job tenant id r && (jr_status r == Running))
        (λ r, r <| jr_status := Queued |> <| jr_updated_at := now |>
                <| jr_started_at := None |> <| jr_finished_at := None |>);;
      append_event tenant id EvRecovered (JObj [("reason", JStr "service_restart")]) now;;
      mret (Some (tenant, id))
  | _ => mret (Some (tenant, id))
  end.

Definition recover_jobs (now : Z) : M job_db (list job) :=
  recovered ← transaction (
    rows ← gets (λ d, order_by job_le
      (select (λ r, negb (terminal (jr_status r))) (d_jobs d)));
    collect rows (recover_row now));
  collect (omap id recovered) (λ k, get_job k.1 k.2).

Definition claim_job (tenant id : string) (now : Z) : M job_db (option job) :=
  claimed ← transaction (
    row ← gets (status_of tenant id);
    match row with
    | None => raise (JobNotFoundError id)
    | Some Queued =>
        update_jobs (λ r, is_job tenant id r && (jr_status r == Queued))
          (λ r, r <| jr_status := Running |> <| jr_attempts := jr_attempts r + 1 |>
                  <| jr_updated_at := now |> <| jr_started_at := Some now |>
                  <| jr_finished_at := None |> <| jr_error := None |>);;
        after ← gets (find_job tenant id);
        match after with
        | None => raise (TypeError "fetchone() returned None")
        | Some r =>
            append_event tenant id EvRunning (JObj [("attempt", JInt (jr_attempts r))]) now;;
            mret true
        end
    | Some _ => mret false
    end);
  match claimed with
  | true => j ← get_job tenant id; mret (Some j)
  | false => mret None
  end.

Definition progress_job (tenant id : string) (payload : json) (now : Z) : M job_db unit :=
  transaction (
    row ← gets (status_of tenant id);
    match row with
    | None => raise (JobNotFoundError id)
    | Some Running => append_event tenant id EvProgress payload now;; mret tt
    | Some _ => mret tt
    end).

(** [artifact_ids] are the identifiers [new_short_id] draws, one per artifact. *)
Fixpoint write_artifacts (tenant id : string) (l : list artifact_write)
    (artifact_ids : nat → string) (now : Z) : M job_db unit :=
  match l with
  | [] => mret tt
  | w :: l' =>
      insert_artifact (ArtifactRow tenant id (artifact_ids O) w now);;
      append_event tenant id EvArtifactReady
        (JObj [("artifact_id", JStr (artifact_ids O)); ("name", JStr (aw_name w))]) now;;
      write_artifacts tenant id l' (λ n, artifact_ids (S n)) now
  end.

Definition complete_job (tenant id : string) (result : handler_result)
    (artifact_ids : nat → string) (now : Z) : M job_db job :=
  transaction (
    row ← gets (status_of tenant id);
    match row with
    | None => raise (JobNotFoundError id)
    | Some CancelRequested =>
        cancel_in_connection tenant id "cancelled_before_completion" now
    | Some Running =>
        write_artifacts tenant id (hr_artifacts result) artifact_ids now;;
        update_jobs (λ r, is_job tenant id r && (jr_status r == Running))
          (λ r, r <| jr_status := Succeeded |> <| jr_result := Some result |>
                  <| jr_error := None |> <| jr_updated_at := now |>
                  <| jr_finished_at := Some now |>);;
        append_event tenant id EvCompleted
          (JObj [("summary", JStr (hr_summary result));
                 ("artifact_count", JInt (Z.of_nat (length (hr_artifacts result))))]) now;;
        mret tt
    | Some _ => mret tt
    end);;
  get_job tenant id.

Definition error_json (e : job_error) : json :=
  JObj [("code", JStr (je_code e)); ("message", JStr (je_message e));
        ("retryable", JBool (je_retryable e))].

Definition fail_job (tenant id : string) (error : job_error) (now : Z) : M job_db job :=
  transaction (
    row ← gets (status_of tenant id);
    match row with
    | None => raise (JobNotFoundError id)
    | Some CancelRequested =>
        cancel_in_connection tenant id "cancelled_during_failure" now
    | Some Running =>
        update_jobs (λ r, is_job tenant id r && (jr_status r == Running))
          (λ r, r <| jr_status := JobFailed |> <| jr_error := Some error |>
                  <| jr_result := None |> <| jr_updated_at := now |>
                  <| jr_finished_at := Some now |>);;
        append_event tenant id EvFailed (error_json error) now;;
        mret tt
    | Some _ => mret tt
    end);;
  get_job tenant id.

Definition request_cancel (tenant id : string) (now : Z) : M job_db job :=
  transaction (
    row ← gets (status_of tenant id);
    match row with
    | None => raise (JobNotFoundError id)
    | Some status =>
        if terminal status || (status == CancelRequested) then mret tt
        else
          append_event tenant id EvCancelRequested (JObj []) now;;
          if status == Queued then
            cancel_in_connection tenant id "cancelled_before_start" now
          else
            update_jobs (λ r, is_job tenant id r && (jr_status r == Running))
              (λ r, r <| jr_status := CancelRequested |> <| jr_updated_at := now |>)
    end);;
  get_job tenant id.

Definition mark_cancelled (tenant id reason : string) (now : Z) : M job_db job :=
  transaction (
    row ← gets (status_of tenant id);
    match row with
    | None => raise (JobNotFoundError id)
    | Some status =>
        if terminal status then mret tt else cancel_in_connection tenant id reason now
    end);;
  get_job tenant id.

Definition requeue_interrupted (tenant id : string) (now : Z) : M job_db job :=
  transaction (
    row ← gets (status_of tenant id);
    match row with
    | None => raise (JobNotFoundError id)
    | Some CancelRequested =>
        cancel_in_connection tenant id "cancelled_during_shutdown" now
    | Some Running =>
        update_jobs (λ r, is_job tenant id r && (jr_status r == Running))
          (λ r, r <| jr_status := Queued |> <| jr_updated_at := now |>
                  <| jr_started_at := None |>);;
        append_event tenant id EvRecovered (JObj [("reason", JStr "service_shutdown")]) now;;
        mret tt
    | Some _ => mret tt
    end);;
  get_job tenant id.

(** ** The abstract job

    A job's events drive a state machine. [Publishing] is the moment inside
    the completing transaction when artifacts are announced: a job is never at
    rest there. *)

Inductive phase := Fresh | At (s : job_status) | Publishing.

Definition job_step (p : option phase) (e : event_type) : option phase :=
  match p, e with
  | Some Fresh, EvQueued => Some (At Queued)
  | Some (At Queued), EvRunning => Some (At Running)
  | Some (At Running), EvRecovered => Some (At Queued)
  | Some (At Running), EvProgress => Some (At Running)
  | Some (At Running), (EvArtifactReady) => Some Publishing
  | Some Publishing, EvArtifactReady => Some Publishing
  | Some (At Running), EvCompleted | Some Publishing, EvCompleted => Some (At Succeeded)
  | Some (At Running), EvFailed => Some (At JobFailed)
  | Some (At Queued), EvCancelRequested
  | Some (At Running), EvCancelRequested => Some (At CancelRequested)
  | Some (At Queued), EvCancelled | Some (At Running), EvCancelled
  | Some (At CancelRequested), EvCancelled => Some (At Cancelled)
  | _, _ => None
  end.

Definition replay (l : list event_type) : option phase := foldl job_step (Some Fresh) l.

Definition count_running (l : list event_type) : Z :=
  Z.of_nat (length (List.filter (λ e, bool_decide (e = EvRunning)) l)).

Definition events_for (tenant id : string) (d : job_db) : list event_row :=
  select (event_of tenant id) (d_events d).

(** The columns agree with the status. *)
Definition columns_ok (r : job_row) : Prop :=
  match jr_status r with
  | Queued =>
      jr_started_at r = None ∧ jr_finished_at r = None ∧ jr_result r = None ∧ jr_error r = None
  | Running | CancelRequested =>
      is_Some (jr_started_at r) ∧ jr_finished_at r = None ∧ jr_result r = None ∧
      jr_error r = None
  | Succeeded => is_Some (jr_finished_at r) ∧ is_Some (jr_result r) ∧ jr_error r = None
  | JobFailed => is_Some (jr_finished_at r) ∧ jr_result r = None ∧ is_Some (jr_error r)
  | Cancelled => is_Some (jr_finished_at r) ∧ jr_result r = None ∧ jr_error r = None
  end.

(** The log of a job: numbered from 1 without gaps, a run of the state machine
    that ends in the job's status, with one start per attempt. *)
Record log_ok (r : job_row) (l : list event_row) : Prop := {
  lo_numbered : ev_sequence <$> l = seqZ 1 (Z.of_nat (length l));
  lo_replay : replay (ev_type <$> l) = Some (At (jr_status r));
  lo_attempts : jr_attempts r = count_running (ev_type <$> l);
}.

Record jobs_ok (d : job_db) : Prop := {
  do_ids : unique (λ r, (jr_tenant r, jr_id r)) (d_jobs d);
  do_keys : unique (λ r, (jr_tenant r, jr_key r)) (d_jobs d);
  do_events : ∀ e, e ∈ d_events d → ∃ r, r ∈ d_jobs d ∧ is_job (ev_tenant e) (ev_job e) r = true;
  do_columns : ∀ r, r ∈ d_jobs d → columns_ok r;
  do_log : ∀ r, r ∈ d_jobs d → log_ok r (events_for (jr_tenant r) (jr_id r) d);
}.

(** The columns of a job that no method writes after its creation. *)
Definition job_keys (r : job_row) :=
  (jr_tenant r, jr_id r, jr_key r, jr_hash r, jr_handler r, jr_version r, jr_arguments r,
   jr_created_at r).

(** How the store moves: rows and events are only added to, a row keeps the
    columns of its request, and a settled job is frozen with its log. *)
Record job_progress (d d' : job_db) : Prop := {
  jp_rows : ∀ r, r ∈ d_jobs d → ∃ r', r' ∈ d_jobs d' ∧ job_keys r' = job_keys r ∧
    (terminal (jr_status r) = true → r' = r);
  jp_events : ∀ t i, ∃ l, events_for t i d' = events_for t i d ++ l ∧
    (∀ r, r ∈ d_jobs d → is_job t i r = true → terminal (jr_status r) = true → l = []);
}.

Definition advance (d d' : job_db) : Prop := jobs_ok d' ∧ job_progress d d'.
Definition moves {A} (m : M job_db A) : Prop := ∀ d, jobs_ok d → advance d (m d).1.

(** *** Rows and events *)

Lemma is_job_true t i r : is_job t i r = true ↔ jr_tenant r = t ∧ jr_id r = i.
Proof. unfold is_job. by rewrite andb_true_iff, !bool_decide_eq_true. Qed.

Lemma event_of_true t i e : event_of t i e = true ↔ ev_tenant e = t ∧ ev_job e = i.
Proof. unfold event_of. by rewrite andb_true_iff, !bool_decide_eq_true. Qed.

Lemma event_of_self t i q ty p n : event_of t i (EventRow t i q ty p n) = true.
Proof. by apply event_of_true. Qed.

Lemma find_job_Some t i d r :
  find_job t i d = Some r → r ∈ d_jobs d ∧ jr_tenant r = t ∧ jr_id r = i.
Proof. by intros [? ?%is_job_true]%select_one_Some. Qed.

Lemma find_job_in d r :
  jobs_ok d → r ∈ d_jobs d → find_job (jr_tenant r) (jr_id r) d = Some r.
Proof.
  intros Hd Hr. destruct (find_job _ _ d) as [r'|] eqn:E.
  - apply find_job_Some in E as (Hr' & Ht & Hi). f_equal.
    apply (unique_eq (λ r, (jr_tenant r, jr_id r)) (d_jobs d)); [apply Hd|done..|].
    by rewrite Ht, Hi.
  - eapply select_one_None in E; [|exact Hr].
    rewrite (proj2 (is_job_true _ _ r)) in E; done.
Qed.

Lemma last_sequence_bound t i d e :
  e ∈ d_events d → event_of t i e = true → ev_sequence e ≤ last_sequence t i d.
Proof.
  intros He Hof. unfold last_sequence.
  assert (e ∈ select (event_of t i) (d_events d)) as H by by apply elem_of_select. clear He Hof.
  induction H as [|x y l H IH]; simpl; lia.
Qed.

Lemma append_event_run t i ty p now d :
  append_event t i ty p now d =
    (d <| d_events := d_events d ++
           [EventRow t i (last_sequence t i d + 1) ty p now] |>,
     Ok (last_sequence t i d + 1)).
Proof.
  unfold append_event, insert_event. run. rewrite insert_row_ok; [by run|].
  intros e He. unfold event_clash. cbn [ev_tenant ev_job ev_sequence].
  destruct (event_of t i e) eqn:E; [|done]. apply Z.eqb_neq.
  pose proof (last_sequence_bound t i d e He E). lia.
Qed.

Lemma foldr_max_numbered (l : list event_row) n :
  ev_sequence <$> l = seqZ n (Z.of_nat (length l)) → 0 < n →
  foldr (λ e acc, Z.max (ev_sequence e) acc) 0 l =
    match l with [] => 0 | _ => n + Z.of_nat (length l) - 1 end.
Proof.
  revert n. induction l as [|e l IH]; intros n H Hn; [done|].
  simpl length in H. rewrite seqZ_cons in H by lia. injection H as He Hl.
  replace (Z.pred (Z.of_nat (S (length l)))) with (Z.of_nat (length l)) in Hl by lia.
  simpl. rewrite (IH (Z.succ n)) by (done || lia). destruct l; simpl length; lia.
Qed.

Lemma last_sequence_log r t i d :
  log_ok r (events_for t i d) → last_sequence t i d = Z.of_nat (length (events_for t i d)).
Proof.
  intros [Hn _ _]. unfold last_sequence. fold (events_for t i d).
  rewrite (foldr_max_numbered _ 1) by done. destruct (events_for t i d); simpl; lia.
Qed.

Lemma events_for_app t i d l :
  events_for t i (d <| d_events := d_events d ++ l |>) =
    events_for t i d ++ select (event_of t i) l.
Proof. unfold events_for, select. simpl. by rewrite List.filter_app. Qed.

(** The events a transaction appends to one job, numbered on from [n]. *)
Fixpoint numbered (t i : string) (n : Z) (now : Z) (l : list (event_type * json)) :
    list event_row :=
  match l with
  | [] => []
  | e :: l' => EventRow t i n e.1 e.2 now :: numbered t i (n + 1) now l'
  end.
#[local] Arguments numbered : simpl never.

Lemma numbered_cons t i n now e l :
  numbered t i n now (e :: l) = EventRow t i n e.1 e.2 now :: numbered t i (n + 1) now l.
Proof. done. Qed.

Lemma numbered_app t i n now l l' :
  numbered t i n now (l ++ l') =
    numbered t i n now l ++ numbered t i (n + Z.of_nat (length l)) now l'.
Proof.
  revert n. induction l as [|e l IH]; intros n.
  - simpl. by rewrite Z.add_0_r.
  - change ((e :: l) ++ l') with (e :: (l ++ l')). rewrite !numbered_cons, IH. simpl length.
    replace (n + 1 + Z.of_nat (length l)) with (n + Z.of_nat (S (length l))) by lia. done.
Qed.

Lemma length_numbered t i n now l : length (numbered t i n now l) = length l.
Proof.
  revert n. induction l as [|e l IH]; intros n; [done|]. rewrite numbered_cons. simpl. by rewrite IH.
Qed.

Lemma numbered_types t i n now l : ev_type <$> numbered t i n now l = fst <$> l.
Proof.
  revert n. induction l as [|e l IH]; intros n; [done|].
  rewrite numbered_cons. simpl. by rewrite IH.
Qed.

Lemma numbered_sequences t i n now l :
  ev_sequence <$> numbered t i n now l = seqZ n (Z.of_nat (length l)).
Proof.
  revert n. induction l as [|e l IH]; intros n; [done|].
  rewrite numbered_cons. simpl length. rewrite seqZ_cons by lia. simpl.
  rewrite IH. f_equal. f_equal; lia.
Qed.

Lemma numbered_of t i n now l e : e ∈ numbered t i n now l → ev_tenant e = t ∧ ev_job e = i.
Proof.
  revert n. induction l as [|x l IH]; intros n; [set_solver|].
  rewrite numbered_cons. intros [-> |H]%elem_of_cons; [done|eauto].
Qed.

Lemma select_numbered t i n now l :
  select (event_of t i) (numbered t i n now l) = numbered t i n now l.
Proof.
  revert n. induction l as [|x l IH]; intros n; [done|].
  rewrite numbered_cons. unfold select. simpl. rewrite event_of_self. f_equal. apply IH.
Qed.

Lemma select_numbered_other t i t' i' n now l :
  ¬ (t = t' ∧ i = i') → select (event_of t' i') (numbered t i n now l) = [].
Proof.
  intros Hne. revert n. induction l as [|x l IH]; intros n; [done|].
  rewrite numbered_cons. unfold select. simpl.
  destruct (event_of t' i' _) eqn:E; [|apply IH].
  apply event_of_true in E as [E1 E2]. by destruct Hne.
Qed.

Lemma log_extend r r' l t i now (evs : list (event_type * json)) :
  log_ok r l →
  foldl job_step (Some (At (jr_status r))) (fst <$> evs) = Some (At (jr_status r')) →
  jr_attempts r' = jr_attempts r + count_running (fst <$> evs) →
  log_ok r' (l ++ numbered t i (Z.of_nat (length l) + 1) now evs).
Proof.
  intros [Hn Hr Ha] Hstep Hatt. split.
  - rewrite fmap_app, Hn, numbered_sequences, length_app, length_numbered.
    replace (Z.of_nat (length l + length evs))
      with (Z.of_nat (length l) + Z.of_nat (length evs)) by lia.
    rewrite seqZ_app by lia. f_equal. f_equal. lia.
  - unfold replay in *. by rewrite fmap_app, numbered_types, foldl_app, Hr.
  - rewrite fmap_app, numbered_types. rewrite Hatt, Ha. unfold count_running.
    rewrite List.filter_app, length_app. lia.
Qed.

Lemma job_keys_is_job t i r r' : job_keys r = job_keys r' → is_job t i r = is_job t i r'.
Proof. intros [= H1 H2 _ _ _ _ _ _]. unfold is_job. by rewrite H1, H2. Qed.

(** One transaction on one job: its row changes under the guard the statement
    repeats, and events are appended that lead from the old status to the new. *)
Lemma step_ok d t i r guard f evs now arts :
  jobs_ok d → find_job t i d = Some r → guard r = true →
  (∀ r, job_keys (f r) = job_keys r) → columns_ok (f r) →
  foldl job_step (Some (At (jr_status r))) (fst <$> evs) = Some (At (jr_status (f r))) →
  jr_attempts (f r) = jr_attempts r + count_running (fst <$> evs) →
  jobs_ok (JobDb (update (λ r, is_job t i r && guard r) f (d_jobs d))
    (d_events d ++ numbered t i (last_sequence t i d + 1) now evs) arts).
Proof.
  intros Hd Hf Hg Hk Hc Hstep Hatt. apply find_job_Some in Hf as (Hr & Ht & Hi).
  assert (∀ r0, r0 ∈ d_jobs d → is_job t i r0 = true → r0 = r) as Huniq.
  { intros r0 Hr0 [H1 H2]%is_job_true.
    apply (unique_eq (λ r, (jr_tenant r, jr_id r)) (d_jobs d)); [apply Hd|done..|]. congruence. }
  assert (∀ r0, is_job t i (f r0) = is_job t i r0) as Hkf.
  { intros r0. by apply job_keys_is_job. }
  pose proof (do_log _ Hd r Hr) as Hlog. rewrite Ht, Hi in Hlog.
  rewrite (last_sequence_log r) by done.
  split; simpl.
  - unfold unique. rewrite (fmap_update (λ r, (jr_tenant r, jr_id r))); [apply Hd|].
    intros r0 _ _. specialize (Hk r0). unfold job_keys in Hk. congruence.
  - unfold unique. rewrite (fmap_update (λ r, (jr_tenant r, jr_key r))); [apply Hd|].
    intros r0 _ _. specialize (Hk r0). unfold job_keys in Hk. congruence.
  - assert (∀ t' i' r0, r0 ∈ d_jobs d → is_job t' i' r0 = true → ∃ r1,
      r1 ∈ update (λ r, is_job t i r && guard r) f (d_jobs d) ∧ is_job t' i' r1 = true) as Hex.
    { intros t' i' r0 Hr0 Hj0. eexists. split; [apply elem_of_update; eauto|].
      destruct (_ && _); [|done]. by rewrite (job_keys_is_job _ _ _ r0). }
    intros e [He|He]%elem_of_app.
    + destruct (do_events _ Hd e He) as (r0 & Hr0 & Hj0). eauto.
    + apply numbered_of in He as [-> ->]. apply (Hex t i r); [done|]. by apply is_job_true.
  - intros r1 (r0 & Hr0 & ->)%elem_of_update. destruct (_ && _) eqn:E; [|by apply Hd].
    apply andb_true_iff in E as [E _]. by rewrite (Huniq r0 Hr0 E).
  - intros r1 (r0 & Hr0 & ->)%elem_of_update.
    change (JobDb _ _ _) with (JobDb (update (λ r, is_job t i r && guard r) f (d_jobs d))
      (d_events d ++ numbered t i (Z.of_nat (length (events_for t i d)) + 1) now evs) arts).
    unfold events_for at 1, select. simpl. rewrite List.filter_app.
    fold (@select event_row).
    destruct (is_job t i r0) eqn:E.
    + apply (Huniq r0 Hr0) in E as ->. rewrite Hg. simpl.
      assert (jr_tenant (f r) = t ∧ jr_id (f r) = i) as [-> ->].
      { apply is_job_true. rewrite Hkf. by apply is_job_true. }
      change (List.filter ?p ?l) with (select p l). rewrite select_numbered.
      by apply (log_extend r).
    + simpl. change (List.filter ?p ?l) with (select p l).
      rewrite select_numbered_other, app_nil_r; [by apply Hd|].
      intros [-> ->]. by rewrite (proj2 (is_job_true _ _ r0)) in E.
Qed.

Lemma job_progress_refl d : job_progress d d.
Proof. split; [eauto|]. intros t i. exists []. by rewrite app_nil_r. Qed.

Lemma job_progress_trans d d' d'' :
  job_progress d d' → job_progress d' d'' → job_progress d d''.
Proof.
  intros [Hr He] [Hr' He']. split.
  - intros r Hin. destruct (Hr r Hin) as (r1 & Hin1 & Hk1 & Ht1).
    destruct (Hr' r1 Hin1) as (r2 & Hin2 & Hk2 & Ht2).
    exists r2. split_and!; [done|congruence|]. intros Ht. rewrite Ht2; auto. by rewrite Ht1.
  - intros t i. destruct (He t i) as (l1 & E1 & H1), (He' t i) as (l2 & E2 & H2).
    exists (l1 ++ l2). rewrite E2, E1, app_assoc. split; [done|].
    intros r Hin Hj Ht. rewrite (H1 r), (H2 r); try done.
    destruct (Hr r Hin) as (r1 & Hin1 & _ & Ht1). by rewrite <- Ht1.
Qed.

Lemma advance_refl d : jobs_ok d → advance d d.
Proof. split; [done|apply job_progress_refl]. Qed.

Lemma advance_trans d d' d'' : advance d d' → advance d' d'' → advance d d''.
Proof. intros [_ H] [Hd H']. split; [done|by eapply job_progress_trans]. Qed.

Lemma step_advance d t i r guard f evs now arts :
  jobs_ok d → find_job t i d = Some r → terminal (jr_status r) = false → guard r = true →
  (∀ r, job_keys (f r) = job_keys r) → columns_ok (f r) →
  foldl job_step (Some (At (jr_status r))) (fst <$> evs) = Some (At (jr_status (f r))) →
  jr_attempts (f r) = jr_attempts r + count_running (fst <$> evs) →
  advance d (JobDb (update (λ r, is_job t i r && guard r) f (d_jobs d))
    (d_events d ++ numbered t i (last_sequence t i d + 1) now evs) arts).
Proof.
  intros Hd Hf Ht Hg Hk Hc Hstep Hatt. split; [by eapply step_ok|].
  apply find_job_Some in Hf as (Hr & Ht' & Hi).
  assert (∀ r0, r0 ∈ d_jobs d → is_job t i r0 = true → r0 = r) as Huniq.
  { intros r0 Hr0 [H1 H2]%is_job_true.
    apply (unique_eq (λ r, (jr_tenant r, jr_id r)) (d_jobs d)); [apply Hd|done..|]. congruence. }
  split; simpl.
  - intros r0 Hr0. eexists. split_and!; [apply elem_of_update; eauto| |].
    + destruct (_ && _); [apply Hk|done].
    + intros Hterm. destruct (is_job t i r0) eqn:E; [|done].
      rewrite (Huniq r0 Hr0 E) in *. congruence.
  - intros t0 i0.
    exists (select (event_of t0 i0) (numbered t i (last_sequence t i d + 1) now evs)).
    split; [apply List.filter_app|]. intros r0 Hr0 Hj Hterm. apply select_numbered_other.
    intros [-> ->]. rewrite (Huniq r0 Hr0 Hj) in Hterm. congruence.
Qed.

Lemma moves_ret {A} (m : M job_db A) : (∀ d, (m d).1 = d) → moves m.
Proof. intros H d Hd. rewrite H. by apply advance_refl. Qed.

Lemma moves_bind {A B} (m : M job_db A) (k : A → M job_db B) :
  moves m → (∀ a, moves (k a)) → moves (m ≫= k).
Proof.
  intros Hm Hk d Hd. rewrite run_bind. specialize (Hm d Hd).
  destruct (m d) as [d' [a|e]]; [|done]. eapply advance_trans; [exact Hm|]. apply Hk, Hm.
Qed.

Lemma moves_transaction {A} (m : M job_db A) : moves m → moves (transaction m).
Proof.
  intros Hm d Hd. rewrite run_transaction. specialize (Hm d Hd).
  destruct (m d) as [d' [a|e]]; [done|]. by apply advance_refl.
Qed.

Definition apply_step (t i : string) (guard : job_row → bool) (f : job_row → job_row)
    (evs : list (event_type * json)) (now : Z) (d : job_db) : job_db :=
  JobDb (update (λ r, is_job t i r && guard r) f (d_jobs d))
    (d_events d ++ numbered t i (last_sequence t i d + 1) now evs) (d_artifacts d).

Lemma update_append_run t i guard f ty p now d :
  (update_jobs (λ r, is_job t i r && guard r) f;; append_event t i ty p now;; mret tt) d =
    (apply_step t i guard f [(ty, p)] now d, Ok tt).
Proof.
  unfold update_jobs. run. rewrite (run_bind_ok _ _ _ _ _ (append_event_run _ _ _ _ _ _)).
  run. unfold apply_step. rewrite numbered_cons. done.
Qed.

Lemma cancel_in_connection_run t i reason now d :
  cancel_in_connection t i reason now d =
    (apply_step t i (λ r, negb (terminal (jr_status r)))
       (λ r, r <| jr_status := Cancelled |> <| jr_updated_at := now |>
               <| jr_finished_at := Some now |>)
       [(EvCancelled, JObj [("reason", JStr reason)])] now d, Ok tt).
Proof. apply update_append_run. Qed.

Lemma status_of_Some t i d r : find_job t i d = Some r → status_of t i d = Some (jr_status r).
Proof. unfold status_of. by intros ->. Qed.

Lemma find_job_step t i guard f evs now d r :
  find_job t i d = Some r → guard r = true → (∀ r, job_keys (f r) = job_keys r) →
  find_job t i (apply_step t i guard f evs now d) = Some (f r).
Proof.
  intros Hf Hg Hk. unfold find_job, apply_step. simpl.
  rewrite select_one_update.
  - change (select_one _ (d_jobs d)) with (find_job t i d). rewrite Hf. simpl.
    apply find_job_Some in Hf as (_ & Ht & Hi).
    by rewrite (proj2 (is_job_true t i r)), Hg.
  - intros r0 _ _. by apply job_keys_is_job.
Qed.

Lemma run_cases_job {A} t i d (k : option job_status → M job_db A) :
  (gets (status_of t i) ≫= k) d = k (status_of t i d) d.
Proof. done. Qed.

Lemma get_job_state t i d : (get_job t i d).1 = d.
Proof. unfold get_job. run. destruct (find_job t i d); by run. Qed.

Lemma get_job_found t i d r : find_job t i d = Some r → get_job t i d = (d, row_to_job r).
Proof. unfold get_job. run. intros ->. by run. Qed.

(** A transaction followed by reading the job back. *)
Lemma then_get_state t i (m : M job_db unit) d :
  ((transaction m;; get_job t i) d).1 = (transaction m d).1.
Proof.
  rewrite run_bind. destruct (transaction m d) as [d' [[]|e]]; simpl; [|done].
  apply get_job_state.
Qed.

Ltac solve_columns :=
  match goal with
  | H : columns_ok ?r |- columns_ok _ =>
      unfold columns_ok in *; cbn in *;
      repeat match goal with E : jr_status r = _ |- _ => rewrite E in * end;
      cbn in *; intuition eauto
  end.

Lemma columns_cancelled r now :
  columns_ok r → terminal (jr_status r) = false →
  columns_ok (r <| jr_status := Cancelled |> <| jr_updated_at := now |>
                <| jr_finished_at := Some now |>).
Proof. intros H Ht. destruct (jr_status r) eqn:E; try done; solve_columns. Qed.

Lemma cancel_advance t i r reason now d :
  jobs_ok d → find_job t i d = Some r → terminal (jr_status r) = false →
  advance d (cancel_in_connection t i reason now d).1.
Proof.
  intros Hd Hf Ht. rewrite cancel_in_connection_run. simpl.
  pose proof (find_job_Some _ _ _ _ Hf) as (Hr & _ & _).
  apply (step_advance _ _ _ r); try done.
  - by rewrite Ht.
  - apply columns_cancelled; [by apply Hd|done].
  - simpl. by destruct (jr_status r).
  - simpl. unfold count_running. simpl. lia.
Qed.

(** *** Every method keeps the invariant *)

(** Discharges [step_advance] for a row [r] of known status [Hs]. *)
Ltac solve_step Hd Hf r Hs :=
  pose proof (do_columns _ Hd r (proj1 (find_job_Some _ _ _ _ Hf)));
  apply (step_advance _ _ _ r);
  first
    [ done
    | by rewrite ?Hs, ?bool_decide_eq_true_2
    | solve_columns
    | by simpl; rewrite ?Hs
    | simpl; unfold count_running; simpl; lia ].

(** A transaction that looks at one job first. *)
Lemma moves_on_job {A} t i (k : option job_status → M job_db A) :
  (∀ d, (k None d).1 = d) →
  (∀ d r, jobs_ok d → find_job t i d = Some r → advance d (k (Some (jr_status r)) d).1) →
  moves (transaction (gets (status_of t i) ≫= k)).
Proof.
  intros Hn Hs. apply moves_transaction. intros d Hd. run. unfold status_of.
  destruct (find_job t i d) as [r|] eqn:Hf; simpl; [by apply Hs|].
  rewrite Hn. by apply advance_refl.
Qed.

Lemma get_job_moves t i : moves (get_job t i).
Proof. apply moves_ret, get_job_state. Qed.

Definition claimed (now : Z) (r : job_row) : job_row :=
  r <| jr_status := Running |> <| jr_attempts := jr_attempts r + 1 |>
    <| jr_updated_at := now |> <| jr_started_at := Some now |>
    <| jr_finished_at := None |> <| jr_error := None |>.

Lemma claim_job_run t i r now d :
  jobs_ok d → find_job t i d = Some r → jr_status r = Queued →
  let d' := apply_step t i (λ r, jr_status r == Queued) (claimed now)
              [(EvRunning, JObj [("attempt", JInt (jr_attempts r + 1))])] now d in
  advance d d' ∧
  claim_job t i now d =
    (d', match row_to_job (claimed now r) with Ok j => Ok (Some j) | Err e => Err e end).
Proof.
  intros Hd Hf Hq d'.
  assert (advance d d') as Hd' by (unfold d', apply_step; solve_step Hd Hf r Hq).
  split; [done|].
  assert (find_job t i d' = Some (claimed now r)) as Hf'.
  { apply find_job_step; [done| |done]. by rewrite Hq, bool_decide_eq_true_2. }
  unfold claim_job. rewrite run_bind, run_transaction. run.
  rewrite (status_of_Some _ _ _ _ Hf), Hq. cbn beta iota.
  unfold update_jobs. run.
  replace (find_job t i _) with (Some (claimed now r)) by (symmetry; exact Hf').
  run. rewrite (run_bind_ok _ _ _ _ _ (append_event_run _ _ _ _ _ _)). run.
  match goal with |- (get_job t i ≫= _) ?x = _ =>
    change x with d' end.
  rewrite run_bind, (get_job_found _ _ _ _ Hf'). by destruct (row_to_job _).
Qed.

Lemma append_only_run t i ty p now d :
  (append_event t i ty p now;; mret tt) d =
    (apply_step t i (λ _, true) (λ r, r) [(ty, p)] now d, Ok tt).
Proof.
  rewrite (run_bind_ok _ _ _ _ _ (append_event_run _ _ _ _ _ _)). run.
  unfold apply_step. rewrite numbered_cons. repeat f_equal. unfold update.
  rewrite (map_ext _ (λ r, r)), map_id; [by destruct d|]. intros r. by case_match.
Qed.

Lemma progress_moves t i payload now : moves (progress_job t i payload now).
Proof.
  apply moves_on_job; [done|]. intros d r Hd Hf.
  destruct (jr_status r) eqn:Hs; try by apply advance_refl.
  rewrite append_only_run. simpl. unfold apply_step. solve_step Hd Hf r Hs.
Qed.

Lemma claim_moves t i now : moves (claim_job t i now).
Proof.
  intros d Hd. destruct (find_job t i d) as [r|] eqn:Hf.
  - destruct (decide (jr_status r = Queued)) as [Hs|Hs].
    + destruct (claim_job_run t i r now d Hd Hf Hs) as [Hd' ->]. done.
    + unfold claim_job. rewrite run_bind, run_transaction. run.
      rewrite (status_of_Some _ _ _ _ Hf). destruct (jr_status r); try done; by apply advance_refl.
  - unfold claim_job. rewrite run_bind, run_transaction. run.
    unfold status_of. rewrite Hf. by apply advance_refl.
Qed.

Lemma foldr_max_app (l l' : list event_row) :
  foldr (λ e acc, Z.max (ev_sequence e) acc) 0 (l ++ l') =
    Z.max (foldr (λ e acc, Z.max (ev_sequence e) acc) 0 l)
          (foldr (λ e acc, Z.max (ev_sequence e) acc) 0 l').
Proof.
  assert (∀ m : list event_row, 0 ≤ foldr (λ e acc, Z.max (ev_sequence e) acc) 0 m).
  { induction m; simpl; lia. }
  induction l as [|e l IH]; simpl; [specialize (H l'); lia|]. rewrite IH. lia.
Qed.

Lemma last_sequence_nonneg t i d : 0 ≤ last_sequence t i d.
Proof. unfold last_sequence. induction (select _ _); simpl; lia. Qed.

Lemma last_sequence_next t i ty p now jobs arts d :
  last_sequence t i (JobDb jobs (d_events d ++
    [EventRow t i (last_sequence t i d + 1) ty p now]) arts) = last_sequence t i d + 1.
Proof.
  unfold last_sequence at 1, select. simpl. rewrite List.filter_app, foldr_max_app. simpl.
  rewrite event_of_self. simpl. pose proof (last_sequence_nonneg t i d).
  change (foldr _ 0 (List.filter _ (d_events d))) with (last_sequence t i d). lia.
Qed.

Lemma foldr_max_numbered_from t i n now evs :
  0 ≤ n →
  foldr (λ e acc, Z.max (ev_sequence e) acc) 0 (numbered t i (n + 1) now evs) =
    match evs with [] => 0 | _ => n + Z.of_nat (length evs) end.
Proof.
  intros Hn. rewrite (foldr_max_numbered _ (n + 1)); [|by rewrite numbered_sequences, length_numbered|lia].
  rewrite length_numbered. destruct evs; [done|]. rewrite numbered_cons. simpl length. lia.
Qed.

Lemma last_sequence_numbered t i now evs jobs arts d :
  last_sequence t i (JobDb jobs (d_events d ++
    numbered t i (last_sequence t i d + 1) now evs) arts) =
  last_sequence t i d + Z.of_nat (length evs).
Proof.
  unfold last_sequence at 1. cbn [d_events]. unfold select at 1. rewrite List.filter_app.
  change (List.filter ?p (numbered t i ?n now evs)) with (select p (numbered t i n now evs)).
  rewrite select_numbered, foldr_max_app.
  change (foldr _ 0 (List.filter _ (d_events d))) with (last_sequence t i d).
  pose proof (last_sequence_nonneg t i d). rewrite foldr_max_numbered_from by done.
  destruct evs; simpl length; lia.
Qed.

Lemma append_more_run t i ty p now evs jobs arts d :
  (append_event t i ty p now;; mret tt)
    (JobDb jobs (d_events d ++ numbered t i (last_sequence t i d + 1) now evs) arts) =
  (JobDb jobs (d_events d ++ numbered t i (last_sequence t i d + 1) now (evs ++ [(ty, p)])) arts,
   Ok tt).
Proof.
  rewrite (run_bind_ok _ _ _ _ _ (append_event_run _ _ _ _ _ _)), run_ret.
  rewrite last_sequence_numbered, numbered_app, app_assoc. unfold modify_field. simpl.
  rewrite numbered_cons.
  replace (last_sequence t i d + 1 + Z.of_nat (length evs))
    with (last_sequence t i d + Z.of_nat (length evs) + 1) by lia. done.
Qed.

Lemma write_artifacts_run t i l ids now d d' :
  write_artifacts t i l ids now d = (d', Ok tt) →
  ∃ evs arts, fst <$> evs = replicate (length l) EvArtifactReady ∧
    d' = JobDb (d_jobs d)
           (d_events d ++ numbered t i (last_sequence t i d + 1) now evs) arts.
Proof.
  revert ids d. induction l as [|w l IH]; intros ids d; cbn [write_artifacts].
  - intros [= <-]. exists [], (d_artifacts d). split; [done|].
    unfold numbered. rewrite app_nil_r. by destruct d.
  - unfold insert_artifact. run. destruct (insert_row _ _ _) as [arts|]; simpl; [|done].
    rewrite run_bind, append_event_run. cbn beta iota.
    intros (evs & arts' & Hevs & ->)%IH.
    exists ((EvArtifactReady, JObj [("artifact_id", JStr (ids O)); ("name", JStr (aw_name w))])
              :: evs), arts'. split; [by rewrite fmap_cons, Hevs|].
    match goal with |- context [numbered _ _ (last_sequence t i ?x + 1) now evs] =>
      replace (last_sequence t i x) with (last_sequence t i d + 1)
        by (symmetry; exact (last_sequence_next t i _ _ now (d_jobs d) arts d)) end.
    rewrite numbered_cons. unfold modify_field. simpl. by rewrite <- app_assoc.
Qed.

Lemma replay_artifacts n p :
  p = At Running ∨ p = Publishing →
  ∃ p', (p' = At Running ∨ p' = Publishing) ∧
    foldl job_step (Some p) (replicate n EvArtifactReady) = Some p'.
Proof.
  revert p. induction n as [|n IH]; intros p Hp; simpl; [eauto|].
  destruct Hp as [-> | ->]; apply IH; auto.
Qed.

Lemma count_running_app l l' : count_running (l ++ l') = count_running l + count_running l'.
Proof. unfold count_running. rewrite List.filter_app, length_app. lia. Qed.

Lemma count_running_artifacts n : count_running (replicate n EvArtifactReady) = 0.
Proof. by induction n. Qed.

Lemma complete_run t i r result ids now d d1 :
  jobs_ok d → find_job t i d = Some r → jr_status r = Running →
  write_artifacts t i (hr_artifacts result) ids now d = (d1, Ok tt) →
  let f := λ r, r <| jr_status := Succeeded |> <| jr_result := Some result |>
                  <| jr_error := None |> <| jr_updated_at := now |>
                  <| jr_finished_at := Some now |> in
  ∃ d', complete_job t i result ids now d = (d', row_to_job (f r)) ∧
    advance d d' ∧ find_job t i d' = Some (f r) ∧
    d_artifacts d' = d_artifacts d1 ∧
    ev_type <$> events_for t i d' = (ev_type <$> events_for t i d) ++
      replicate (length (hr_artifacts result)) EvArtifactReady ++ [EvCompleted].
Proof.
  intros Hd Hf Hs Hw f.
  destruct (write_artifacts_run _ _ _ _ _ _ _ Hw) as (evs & arts & Hevs & E).
  set (last := (EvCompleted, JObj [("summary", JStr (hr_summary result));
    ("artifact_count", JInt (Z.of_nat (length (hr_artifacts result))))])).
  set (d' := JobDb (update (λ r, is_job t i r && (jr_status r == Running)) f (d_jobs d))
    (d_events d ++ numbered t i (last_sequence t i d + 1) now (evs ++ [last])) arts).
  assert (advance d d') as Hd'.
  { pose proof (do_columns _ Hd r (proj1 (find_job_Some _ _ _ _ Hf))).
    destruct (replay_artifacts (length (hr_artifacts result)) (At Running)) as (p & Hp & Hfold);
      [by left|].
    apply (step_advance _ _ _ r); try done.
    - by rewrite Hs.
    - by rewrite Hs, bool_decide_eq_true_2.
    - rewrite fmap_app, Hevs, foldl_app, Hs, Hfold. simpl. by destruct Hp as [-> | ->].
    - rewrite fmap_app, Hevs, count_running_app, count_running_artifacts.
      unfold count_running. simpl. lia. }
  assert (find_job t i d' = Some (f r)) as Hf'.
  { apply (find_job_step t i (λ r, jr_status r == Running) f evs now d r); try done.
    by rewrite Hs, bool_decide_eq_true_2. }
  exists d'. split_and!; [|done|done|by rewrite E|].
  2:{ unfold events_for, d'. cbn [d_events]. unfold select at 1. rewrite List.filter_app.
      change (List.filter ?p (numbered t i ?n now ?l)) with (select p (numbered t i n now l)).
      by rewrite select_numbered, fmap_app, numbered_types, fmap_app, Hevs. }
  unfold complete_job. rewrite run_bind, run_transaction. run.
  rewrite (status_of_Some _ _ _ _ Hf), Hs. cbn beta iota.
  rewrite (run_bind_ok _ _ _ _ _ Hw), E. unfold update_jobs.
  rewrite run_modify_bind.
  match goal with |- context [(append_event ?a ?b ?c ?e ?n;; mret tt) ?x] =>
    replace ((append_event a b c e n;; mret tt) x) with (d', Ok (A := unit) tt) end.
  { by rewrite (get_job_found _ _ _ _ Hf'). }
  symmetry. apply append_more_run.
Qed.

Lemma complete_moves t i result ids now : moves (complete_job t i result ids now).
Proof.
  intros d Hd. destruct (find_job t i d) as [r|] eqn:Hf.
  - destruct (jr_status r) eqn:Hs.
    2: destruct (write_artifacts t i (hr_artifacts result) ids now d) as [d1 [[]|e]] eqn:Hw.
    2: by destruct (complete_run t i r result ids now d d1) as (d' & -> & ? & _).
    all: unfold complete_job; rewrite run_bind, run_transaction; run;
      rewrite (status_of_Some _ _ _ _ Hf), Hs; cbn beta iota.
    2: rewrite (run_bind_err _ _ _ _ _ Hw); by apply advance_refl.
    all: try (rewrite run_ret, get_job_state; by apply advance_refl).
    rewrite cancel_in_connection_run, get_job_state.
    pose proof (cancel_advance t i r "cancelled_before_completion" now d Hd Hf) as H.
    rewrite cancel_in_connection_run, Hs in H. by apply H.
  - unfold complete_job. rewrite run_bind, run_transaction. run.
    unfold status_of. rewrite Hf. by apply advance_refl.
Qed.

Lemma fail_moves t i e now : moves (fail_job t i e now).
Proof.
  apply moves_bind; [|intros; apply get_job_moves]. apply moves_on_job; [done|].
  intros d r Hd Hf. destruct (jr_status r) eqn:Hs; try by apply advance_refl.
  - rewrite update_append_run. simpl. unfold apply_step. solve_step Hd Hf r Hs.
  - apply (cancel_advance _ _ r); [done..|]. by rewrite Hs.
Qed.

Lemma mark_cancelled_moves t i reason now : moves (mark_cancelled t i reason now).
Proof.
  apply moves_bind; [|intros; apply get_job_moves]. apply moves_on_job; [done|].
  intros d r Hd Hf. destruct (terminal (jr_status r)) eqn:Hs; [by apply advance_refl|].
  by apply (cancel_advance _ _ r).
Qed.

Lemma requeue_moves t i now : moves (requeue_interrupted t i now).
Proof.
  apply moves_bind; [|intros; apply get_job_moves]. apply moves_on_job; [done|].
  intros d r Hd Hf. destruct (jr_status r) eqn:Hs; try by apply advance_refl.
  - rewrite update_append_run. simpl. unfold apply_step. solve_step Hd Hf r Hs.
  - apply (cancel_advance _ _ r); [done..|]. by rewrite Hs.
Qed.

Definition cancelled (now : Z) (r : job_row) : job_row :=
  r <| jr_status := Cancelled |> <| jr_updated_at := now |> <| jr_finished_at := Some now |>.

Lemma request_cancel_queued t i reason now d :
  (append_event t i EvCancelRequested (JObj []) now;;
   cancel_in_connection t i reason now) d =
  (apply_step t i (λ r, negb (terminal (jr_status r))) (cancelled now)
     [(EvCancelRequested, JObj []); (EvCancelled, JObj [("reason", JStr reason)])] now d, Ok tt).
Proof.
  rewrite (run_bind_ok _ _ _ _ _ (append_event_run _ _ _ _ _ _)), cancel_in_connection_run.
  unfold apply_step. rewrite !numbered_cons.
  replace (last_sequence t i (d <| d_events := _ |>)) with (last_sequence t i d + 1)
    by (symmetry; exact (last_sequence_next t i _ _ now (d_jobs d) (d_artifacts d) d)).
  unfold modify_field. simpl. by rewrite <- app_assoc.
Qed.

Lemma request_cancel_running t i f now d :
  (append_event t i EvCancelRequested (JObj []) now;;
   update_jobs (λ r, is_job t i r && (jr_status r == Running)) f) d =
  (apply_step t i (λ r, jr_status r == Running) f [(EvCancelRequested, JObj [])] now d, Ok tt).
Proof.
  rewrite (run_bind_ok _ _ _ _ _ (append_event_run _ _ _ _ _ _)). unfold update_jobs. run.
  unfold apply_step. by rewrite !numbered_cons.
Qed.

Lemma request_cancel_moves t i now : moves (request_cancel t i now).
Proof.
  apply moves_bind; [|intros; apply get_job_moves]. apply moves_on_job; [done|].
  intros d r Hd Hf. destruct (jr_status r) eqn:Hs; try by apply advance_refl.
  - replace (terminal Queued || (Queued == CancelRequested)) with false by done.
    rewrite (bool_decide_eq_true_2 (Queued = Queued)) by done.
    rewrite request_cancel_queued. cbn [fst].
    unfold apply_step. solve_step Hd Hf r Hs.
  - replace (terminal Running || (Running == CancelRequested)) with false by done.
    replace (Running == Queued) with false by done.
    rewrite request_cancel_running. cbn [fst]. unfold apply_step. solve_step Hd Hf r Hs.
Qed.

(** *** Creation *)

Lemma job_clash_false r r' :
  job_clash r r' = false ↔
    (jr_tenant r', jr_id r') ≠ (jr_tenant r, jr_id r) ∧
    (jr_tenant r', jr_key r') ≠ (jr_tenant r, jr_key r).
Proof.
  unfold job_clash, is_job, has_job_key. rewrite orb_false_iff, !andb_false_iff,
    !bool_decide_eq_false. split.
  - intros [[H|H] [H'|H']]; split; intros [= ??]; done.
  - intros [H H']. split.
    + destruct (decide (jr_tenant r' = jr_tenant r)); [right|by left]. congruence.
    + destruct (decide (jr_tenant r' = jr_tenant r)); [right|by left]. congruence.
Qed.

Definition created (r : job_row) (ty : event_type) (p : json) (now : Z) (d : job_db) : job_db :=
  JobDb (d_jobs d ++ [r])
    (d_events d ++ numbered (jr_tenant r) (jr_id r) 1 now [(ty, p)]) (d_artifacts d).

Lemma no_events d t i :
  jobs_ok d → (∀ r, r ∈ d_jobs d → is_job t i r = false) → events_for t i d = [].
Proof.
  intros Hd H. unfold events_for. destruct (select _ _) as [|e l] eqn:E; [done|]. exfalso.
  assert (e ∈ select (event_of t i) (d_events d)) as Hin by (rewrite E; set_solver).
  revert Hin. intros [He Hof]%elem_of_select.
  destruct (do_events _ Hd e He) as (r & Hr & Hj).
  apply event_of_true in Hof as [<- <-]. by rewrite H in Hj.
Qed.

Lemma not_job_of d r r0 :
  (∀ r', r' ∈ d_jobs d → job_clash r r' = false) → r0 ∈ d_jobs d →
  is_job (jr_tenant r) (jr_id r) r0 = false.
Proof.
  intros H Hr0. destruct (is_job _ _ r0) eqn:E; [|done].
  apply is_job_true in E as [E1 E2]. apply H, job_clash_false in Hr0 as [Hr0 _]. congruence.
Qed.

Lemma created_advance r p now d :
  jobs_ok d → (∀ r', r' ∈ d_jobs d → job_clash r r' = false) →
  jr_status r = Queued → columns_ok r → jr_attempts r = 0 →
  advance d (created r EvQueued p now d).
Proof.
  intros Hd Hc Hs Hcol Hatt.
  assert (∀ t i, events_for t i (created r EvQueued p now d) = events_for t i d ++
    select (event_of t i) (numbered (jr_tenant r) (jr_id r) 1 now [(EvQueued, p)])) as Hev.
  { intros t i. unfold events_for, created, select. simpl. by rewrite List.filter_app. }
  split; split; unfold created; simpl.
  - apply unique_app; [apply Hd|]. intros r' Hr'. apply Hc, job_clash_false in Hr' as [? _].
    congruence.
  - apply unique_app; [apply Hd|]. intros r' Hr'. apply Hc, job_clash_false in Hr' as [_ ?].
    congruence.
  - intros e [He|He]%elem_of_app.
    + destruct (do_events _ Hd e He) as (r0 & Hr0 & Hj). exists r0. split; [set_solver|done].
    + apply numbered_of in He as [-> ->]. exists r. split; [set_solver|]. by apply is_job_true.
  - intros r0 [Hr0| ->%list_elem_of_singleton]%elem_of_app; [by apply Hd|done].
  - intros r0 [Hr0| ->%list_elem_of_singleton]%elem_of_app;
      change (JobDb _ _ _) with (created r EvQueued p now d); rewrite Hev.
    + rewrite select_numbered_other, app_nil_r; [by apply Hd|]. intros [H1 H2].
      pose proof (not_job_of d r r0 Hc Hr0) as H. by rewrite (proj2 (is_job_true _ _ r0)) in H.
    + rewrite select_numbered, (no_events d); [|done|by intros; eapply not_job_of].
      split; rewrite numbered_cons; simpl; [done|by rewrite Hs|done].
  - intros r0 Hr0. exists r0. split; [set_solver|done].
  - intros t i. change (JobDb _ _ _) with (created r EvQueued p now d). rewrite Hev.
    eexists; split; [done|]. intros r0 Hr0 Hj _. apply select_numbered_other.
    intros [<- <-]. by rewrite (not_job_of d r r0 Hc Hr0) in Hj.
Qed.

(** [create] either finds the key, or inserts, or is refused by the primary key. *)
Lemma create_job_run a now d :
  jobs_ok d →
  create_job a now d =
    match select_one (has_job_key (ca_tenant a) (ca_key a)) (d_jobs d) with
    | Some r =>
        (d, if jr_hash r == ca_hash a
            then match row_to_job r with Ok j => Ok (j, false) | Err e => Err e end
            else Err (JobIdempotencyConflictError
                   "idempotency key is already bound to a different job request"))
    | None =>
        if exists_row (job_clash (new_job a now)) (d_jobs d) then (d, Err constraint_failed)
        else
          (created (new_job a now) EvQueued
             (JObj [("handler", JStr (ca_handler a)); ("version", JInt (ca_version a))]) now d,
           match row_to_job (new_job a now) with Ok j => Ok (j, true) | Err e => Err e end)
    end.
Proof.
  intros Hd. unfold create_job. rewrite run_bind, run_transaction, run_gets_bind.
  destruct (select_one _ (d_jobs d)) as [r|].
  - rewrite run_unless_bind. destruct (jr_hash r == ca_hash a); [|done].
    rewrite run_ret, run_bind. unfold from_outcome. by destruct (row_to_job r).
  - unfold insert_job, insert_row. rewrite run_try_modify_bind.
    destruct (exists_row _ _) eqn:E; [done|]. simpl.
    rewrite exists_row_false in E.
    rewrite (run_bind_ok _ _ _ _ _ (append_event_run _ _ _ _ _ _)), run_ret.
    replace (last_sequence _ _ _) with 0.
    2:{ unfold last_sequence. change (select _ _) with (events_for (ca_tenant a) (ca_id a) d).
        rewrite no_events; [done|done|]. intros r Hr. by apply (not_job_of d (new_job a now) r E). }
    match goal with |- (_ ≫= _) ?x = _ =>
      change x with (created (new_job a now) EvQueued
        (JObj [("handler", JStr (ca_handler a)); ("version", JInt (ca_version a))]) now d) end.
    rewrite run_bind, (get_job_found _ _ _ (new_job a now)).
    + by destruct (row_to_job _).
    + apply (find_job_in _ (new_job a now)); [|simpl; set_solver].
      by apply created_advance.
Qed.

Lemma create_moves a now : moves (create_job a now).
Proof.
  intros d Hd. rewrite create_job_run by done.
  destruct (select_one _ (d_jobs d)) as [r|]; [by apply advance_refl|].
  destruct (exists_row _ _) eqn:E; [by apply advance_refl|].
  rewrite exists_row_false in E. by apply created_advance.
Qed.

(** *** Recovery *)

Definition recovered_row (now : Z) (r : job_row) : job_row :=
  match jr_status r with
  | CancelRequested => cancelled now r
  | Running =>
      r <| jr_status := Queued |> <| jr_updated_at := now |>
        <| jr_started_at := None |> <| jr_finished_at := None |>
  | _ => r
  end.

Definition resumes (r : job_row) : option (string * string) :=
  if jr_status r == CancelRequested then None else Some (jr_tenant r, jr_id r).

Definition recover_step (now : Z) (r : job_row) (d : job_db) : job_db :=
  match jr_status r with
  | CancelRequested =>
      apply_step (jr_tenant r) (jr_id r) (λ r, jr_status r == CancelRequested) (cancelled now)
        [(EvCancelled, JObj [("reason", JStr "restart_after_cancel_request")])] now d
  | Running =>
      apply_step (jr_tenant r) (jr_id r) (λ r, jr_status r == Running)
        (λ r, r <| jr_status := Queued |> <| jr_updated_at := now |>
                <| jr_started_at := None |> <| jr_finished_at := None |>)
        [(EvRecovered, JObj [("reason", JStr "service_restart")])] now d
  | _ => d
  end.

Lemma recover_row_run now r d :
  recover_row now r d = (recover_step now r d, Ok (resumes r)).
Proof.
  unfold recover_row, recover_step, resumes, update_jobs.
  destruct (jr_status r); try done; run;
    rewrite (run_bind_ok _ _ _ _ _ (append_event_run _ _ _ _ _ _)), run_ret;
    unfold apply_step; by rewrite numbered_cons.
Qed.

Lemma recover_step_advance now r d :
  jobs_ok d → r ∈ d_jobs d → advance d (recover_step now r d).
Proof.
  intros Hd Hr. pose proof (find_job_in d r Hd Hr) as Hf.
  unfold recover_step. destruct (jr_status r) eqn:Hs; try by apply advance_refl.
  - unfold apply_step. solve_step Hd Hf r Hs.
  - unfold apply_step, cancelled. solve_step Hd Hf r Hs.
Qed.

Definition same_job (r r' : job_row) : bool := is_job (jr_tenant r) (jr_id r) r'.

Lemma same_job_in d r r' :
  jobs_ok d → r ∈ d_jobs d → r' ∈ d_jobs d → same_job r r' = true → r' = r.
Proof.
  intros Hd Hr Hr' [??]%is_job_true.
  apply (unique_eq (λ r, (jr_tenant r, jr_id r)) (d_jobs d)); [apply Hd|done..|]. congruence.
Qed.

Lemma recover_step_rows now r d :
  jobs_ok d → r ∈ d_jobs d →
  d_jobs (recover_step now r d) =
    (λ r', if same_job r r' then recovered_row now r' else r') <$> d_jobs d.
Proof.
  intros Hd Hr.
  transitivity (update (λ r', same_job r r') (recovered_row now) (d_jobs d)); [|done].
  assert (∀ r', r' ∈ d_jobs d → same_job r r' = true → jr_status r' = jr_status r) as H.
  { intros r' Hr' Hs. by rewrite (same_job_in d r r'). }
  unfold recover_step. destruct (jr_status r) eqn:Hs; simpl; unfold update;
    [symmetry; rewrite <- (map_id (d_jobs d)) at 2|..|
     symmetry; rewrite <- (map_id (d_jobs d)) at 2|
     symmetry; rewrite <- (map_id (d_jobs d)) at 2|
     symmetry; rewrite <- (map_id (d_jobs d)) at 2];
    apply map_ext_in; intros r' Hr'%list_elem_of_In; unfold same_job in *;
    destruct (is_job _ _ r') eqn:E; try done; unfold recovered_row;
    rewrite (H r' Hr' E); done.
Qed.

Definition job_ident (r : job_row) := (jr_tenant r, jr_id r).

Lemma recovered_row_keys now r : job_keys (recovered_row now r) = job_keys r.
Proof. unfold recovered_row. by destruct (jr_status r). Qed.

(** The loop: the rows it has not reached are still as they were read. *)
Lemma recover_loop now l d :
  jobs_ok d → NoDup (job_ident <$> l) → (∀ r, r ∈ l → r ∈ d_jobs d) →
  ∃ d', collect l (recover_row now) d = (d', Ok (resumes <$> l)) ∧ advance d d' ∧
    d_jobs d' =
      (λ r, if bool_decide (job_ident r ∈ job_ident <$> l) then recovered_row now r else r)
        <$> d_jobs d.
Proof.
  revert d. induction l as [|r l IH]; intros d Hd Hnd Hin.
  - exists d. split_and!; [done|by apply advance_refl|]. simpl.
    rewrite <- (list_fmap_id (d_jobs d)) at 1. apply list_fmap_ext. done.
  - rewrite fmap_cons in Hnd. apply NoDup_cons in Hnd as [Hr Hnd].
    assert (r ∈ d_jobs d) as Hrd by (apply Hin; set_solver).
    pose proof (recover_step_advance now r d Hd Hrd) as Hstep.
    destruct (IH (recover_step now r d)) as (d' & Hrun & Hadv & Hrows);
      [apply Hstep|done| |].
    { intros r' Hr'. rewrite recover_step_rows by done. apply list_elem_of_fmap.
      exists r'. split; [|apply Hin; set_solver].
      destruct (same_job r r') eqn:E; [|done]. exfalso. apply Hr.
      apply list_elem_of_fmap. exists r'. split; [|done].
      apply is_job_true in E as [E1 E2]. unfold job_ident. congruence. }
    exists d'. split_and!.
    + simpl. by rewrite (run_bind_ok _ _ _ _ _ (recover_row_run _ _ _)),
        (run_bind_ok _ _ _ _ _ Hrun).
    + by eapply advance_trans.
    + rewrite Hrows, recover_step_rows by done. rewrite <- list_fmap_compose.
      apply list_fmap_ext. intros ? x Hx%list_elem_of_lookup_2. simpl.
      assert (job_ident (if same_job r x then recovered_row now x else x) = job_ident x) as ->.
      { destruct (same_job r x); [|done].
        pose proof (recovered_row_keys now x) as K. unfold job_keys in K. unfold job_ident.
        congruence. }
      destruct (same_job r x) eqn:E.
      * apply (same_job_in d) in E as ->; [|done..].
        rewrite bool_decide_eq_false_2 by done. rewrite bool_decide_eq_true_2; [done|]. set_solver.
      * assert (job_ident x ≠ job_ident r) as Hne.
        { intros [= E1 E2]. unfold same_job in E.
          by rewrite (proj2 (is_job_true _ _ x)) in E by done. }
        erewrite bool_decide_ext; [done|]. rewrite elem_of_cons. tauto.
Qed.

Lemma nonterminal_ident now d (rows : list job_row) r :
  jobs_ok d → rows ≡ₚ select (λ r, negb (terminal (jr_status r))) (d_jobs d) → r ∈ d_jobs d →
  (if bool_decide (job_ident r ∈ job_ident <$> rows) then recovered_row now r else r) =
    recovered_row now r.
Proof.
  intros Hd Hp Hr. case_bool_decide as E; [done|].
  unfold recovered_row. destruct (jr_status r) eqn:Hs; try done.
  all: exfalso; apply E, list_elem_of_fmap_2; rewrite Hp; apply elem_of_select;
    by rewrite Hs.
Qed.

Lemma job_le_total x y : job_le x y = true ∨ job_le y x = true.
Proof.
  unfold job_le. destruct (text_le_total (jr_id x) (jr_id y)) as [-> | ->]; rewrite andb_true_r.
  all: destruct (Z.lt_total (jr_created_at x) (jr_created_at y)) as [H|[H|H]].
  all: rewrite ?orb_true_iff, ?andb_true_iff, ?Z.ltb_lt, ?Z.eqb_eq; lia || tauto || auto.
Qed.

Definition snapshot (d : job_db) : list job_row :=
  order_by job_le (select (λ r, negb (terminal (jr_status r))) (d_jobs d)).

Lemma recover_run now d :
  jobs_ok d →
  ∃ d', recover_jobs now d =
      (d', all_ok ((λ r, row_to_job (recovered_row now r)) <$>
             select (λ r, negb (jr_status r == CancelRequested)) (snapshot d))) ∧
    advance d d' ∧ d_jobs d' = recovered_row now <$> d_jobs d.
Proof.
  intros Hd. pose proof (order_by_perm job_le
    (select (λ r, negb (terminal (jr_status r))) (d_jobs d))) as Hperm. fold (snapshot d) in Hperm.
  destruct (recover_loop now (snapshot d) d) as (d' & Hrun & Hadv & Hrows); [done|..].
  { eapply (unique_perm job_ident); [symmetry; exact Hperm|]. apply unique_select, Hd. }
  { intros r Hr. rewrite Hperm in Hr. by apply elem_of_select in Hr as [? _]. }
  assert (d_jobs d' = recovered_row now <$> d_jobs d) as Hrows'.
  { rewrite Hrows. apply list_fmap_ext. intros ? r Hr%list_elem_of_lookup_2.
    by apply (nonterminal_ident now d). }
  exists d'. split_and!; [|done|done].
  unfold recover_jobs. rewrite run_bind, run_transaction, run_gets_bind.
  fold (snapshot d). rewrite Hrun.
  assert (omap id (resumes <$> snapshot d) =
    job_ident <$> select (λ r, negb (jr_status r == CancelRequested)) (snapshot d)) as ->.
  { clear. induction (snapshot d) as [|r l IH]; [done|]. simpl. unfold resumes at 1.
    destruct (jr_status r == CancelRequested); simpl; [exact IH|f_equal; exact IH]. }
  rewrite (collect_reads _ _ (λ k, (get_job k.1 k.2 d').2)).
  2:{ intros k _. rewrite <- (get_job_state k.1 k.2 d') at 2. apply surjective_pairing. }
  rewrite <- list_fmap_compose. do 2 f_equal. apply list_fmap_ext.
  intros ? r [Hr _]%list_elem_of_lookup_2%elem_of_select. simpl.
  rewrite Hperm in Hr. apply elem_of_select in Hr as [Hr _].
  pose proof (recovered_row_keys now r) as K. unfold job_keys in K. injection K as K1 K2 _.
  rewrite <- K1, <- K2, (get_job_found _ _ d' (recovered_row now r)); [done|].
  apply find_job_in; [apply Hadv|]. rewrite Hrows'. by apply list_elem_of_fmap_2.
Qed.

Lemma recover_moves now : moves (recover_jobs now).
Proof. intros d Hd. by destruct (recover_run now d Hd) as (d' & -> & ? & _). Qed.

(** *** Runs *)

Inductive job_op :=
  | OpCreate (a : create_args) (now : Z)
  | OpRecover (now : Z)
  | OpClaim (tenant id : string) (now : Z)
  | OpProgress (tenant id : string) (payload : json) (now : Z)
  | OpComplete (tenant id : string) (result : handler_result) (ids : nat → string) (now : Z)
  | OpFail (tenant id : string) (error : job_error) (now : Z)
  | OpRequestCancel (tenant id : string) (now : Z)
  | OpMarkCancelled (tenant id reason : string) (now : Z)
  | OpRequeue (tenant id : string) (now : Z).

Definition run_job_op (d : job_db) (op : job_op) : job_db :=
  match op with
  | OpCreate a now => (create_job a now d).1
  | OpRecover now => (recover_jobs now d).1
  | OpClaim t i now => (claim_job t i now d).1
  | OpProgress t i p now => (progress_job t i p now d).1
  | OpComplete t i r ids now => (complete_job t i r ids now d).1
  | OpFail t i e now => (fail_job t i e now d).1
  | OpRequestCancel t i now => (request_cancel t i now d).1
  | OpMarkCancelled t i reason now => (mark_cancelled t i reason now d).1
  | OpRequeue t i now => (requeue_interrupted t i now d).1
  end.

Definition run_job_ops (ops : list job_op) (d : job_db) : job_db := foldl run_job_op d ops.

Lemma run_job_op_advance op d : jobs_ok d → advance d (run_job_op d op).
Proof.
  destruct op; simpl; [apply create_moves|apply recover_moves|apply claim_moves
    |apply progress_moves|apply complete_moves|apply fail_moves|apply request_cancel_moves
    |apply mark_cancelled_moves|apply requeue_moves].
Qed.

Lemma run_job_ops_advance ops d : jobs_ok d → advance d (run_job_ops ops d).
Proof.
  revert d. induction ops as [|op ops IH]; intros d Hd; simpl; [by apply advance_refl|].
  pose proof (run_job_op_advance op d Hd) as H. eapply advance_trans; [exact H|]. apply IH, H.
Qed.

Lemma empty_jobs_ok : jobs_ok empty_jobs.
Proof. split; try apply NoDup_nil_2; simpl; set_solver. Qed.

Lemma reachable_ok ops : jobs_ok (run_job_ops ops empty_jobs).
Proof. apply run_job_ops_advance, empty_jobs_ok. Qed.

Lemma run_job_ops_app ops ops' d :
  run_job_ops (ops ++ ops') d = run_job_ops ops' (run_job_ops ops d).
Proof. apply foldl_app. Qed.

(** What becomes of a job: its log grows by a run of the state machine. *)
Lemma job_future d d' r :
  jobs_ok d → advance d d' → r ∈ d_jobs d →
  ∃ r' l, r' ∈ d_jobs d' ∧ job_keys r' = job_keys r ∧
    (terminal (jr_status r) = true → r' = r ∧ l = []) ∧
    events_for (jr_tenant r) (jr_id r) d' = events_for (jr_tenant r) (jr_id r) d ++ l ∧
    foldl job_step (Some (At (jr_status r))) (ev_type <$> l) = Some (At (jr_status r')) ∧
    jr_attempts r' = jr_attempts r + count_running (ev_type <$> l).
Proof.
  intros Hd [Hd' [Hrows Hevs]] Hr.
  destruct (Hrows r Hr) as (r' & Hr' & Hk & Ht).
  destruct (Hevs (jr_tenant r) (jr_id r)) as (l & El & Hl).
  exists r', l. pose proof (do_log _ Hd r Hr) as [_ Hrep Hatt].
  pose proof (do_log _ Hd' r' Hr') as [_ Hrep' Hatt'].
  unfold job_keys in Hk. injection Hk as K1 K2 K3 K4 K5 K6 K7 K8.
  rewrite K1, K2, El, fmap_app in Hrep', Hatt'.
  split_and!; try done.
  - unfold job_keys. congruence.
  - intros Hterm. split; [auto|]. apply (Hl r Hr); [by apply is_job_true|done].
  - unfold replay in *. by rewrite foldl_app, Hrep in Hrep'.
  - rewrite Hatt', Hatt, count_running_app. done.
Qed.

Lemma stuck l : foldl job_step None l = None.
Proof. by induction l. Qed.

Lemma after_cancel_request l s :
  foldl job_step (Some (At CancelRequested)) l = Some (At s) →
  s = CancelRequested ∨ s = Cancelled.
Proof.
  destruct l as [|e l]; simpl; [intros [= <-]; by left|].
  destruct e; simpl; rewrite ?stuck; try done.
  destruct l as [|e l]; simpl; [intros [= <-]; by right|]. by rewrite stuck.
Qed.

(** A started job is queued again only by a recovery. *)
Lemma queued_needs_recovery l :
  foldl job_step (Some (At Running)) l = Some (At Queued) → EvRecovered ∈ l.
Proof.
  assert (∀ p, p = At Running ∨ p = Publishing ∨ p = At CancelRequested ∨
    p = At Succeeded ∨ p = At JobFailed ∨ p = At Cancelled →
    foldl job_step (Some p) l = Some (At Queued) → EvRecovered ∈ l) as H; [|by eauto].
  induction l as [|e l IH]; intros p Hp Hf; [by destruct_or! Hp; subst|].
  apply elem_of_cons. destruct (decide (e = EvRecovered)) as [->|He]; [by left|right].
  destruct Hp as [-> |[-> |[-> |[-> |[-> | ->]]]]]; destruct e; simpl in Hf;
    rewrite ?stuck in Hf; try done; (refine (IH _ _ Hf); tauto).
Qed.

(** ** Properties *)

(** C20: in every store the methods can reach, the events of each job are
    numbered from 1 without gaps, replaying them through the job state machine
    gives exactly the status in the row, the attempt counter is the number of
    starts, and the result, error and time columns fit the status. *)
Theorem jobs_invariant ops : jobs_ok (run_job_ops ops empty_jobs).
Proof. apply reachable_ok. Qed.

(** Once a job is settled, no later sequence of calls changes its row or
    its event log. *)
Theorem settled_job_frozen ops ops' r :
  let d := run_job_ops ops empty_jobs in
  let d' := run_job_ops ops' d in
  r ∈ d_jobs d → terminal (jr_status r) = true →
  find_job (jr_tenant r) (jr_id r) d' = Some r ∧
  events_for (jr_tenant r) (jr_id r) d' = events_for (jr_tenant r) (jr_id r) d.
Proof.
  intros d d' Hr Ht. pose proof (reachable_ok ops) as Hd. fold d in Hd.
  pose proof (run_job_ops_advance ops' d Hd) as Hadv.
  destruct (job_future d d' r Hd Hadv Hr) as (r' & l & Hr' & _ & Hterm & El & _).
  destruct (Hterm Ht) as [-> ->]. rewrite El, app_nil_r. split; [|done].
  apply find_job_in; [apply Hadv|done].
Qed.

Definition sample_create : create_args :=
  CreateArgs "t" "job-1" "http" 1 (JObj []) "k-1" "h-1".
Definition sample_result : handler_result := HandlerResult "done" (JObj []) [].
Definition sample_run : list job_op :=
  [OpCreate sample_create 10; OpClaim "t" "job-1" 11;
   OpComplete "t" "job-1" sample_result (λ _, "artifact") 12].

Lemma settled_job_frozen_witness :
  let d := run_job_ops sample_run empty_jobs in
  ∃ r, jr_status r = Succeeded ∧
    find_job "t" "job-1" (run_job_ops [OpRecover 20; OpRequestCancel "t" "job-1" 21] d) = Some r.
Proof.
  set (d := run_job_ops sample_run empty_jobs).
  destruct (find_job "t" "job-1" d) as [r|] eqn:E; [|by vm_compute in E].
  assert (jr_status r = Succeeded) as Hs by (vm_compute in E; by injection E as <-).
  destruct (find_job_Some _ _ _ _ E) as (Hr & Ht & Hi).
  exists r. split; [done|].
  destruct (settled_job_frozen sample_run [OpRecover 20; OpRequestCancel "t" "job-1" 21] r Hr)
    as [H _]; [by rewrite Hs|]. by rewrite Ht, Hi in H.
Defined.

Lemma has_job_key_true t k r : has_job_key t k r = true ↔ jr_tenant r = t ∧ jr_key r = k.
Proof. unfold has_job_key. by rewrite andb_true_iff, !bool_decide_eq_true. Qed.

Lemma find_key_in d r :
  jobs_ok d → r ∈ d_jobs d →
  select_one (has_job_key (jr_tenant r) (jr_key r)) (d_jobs d) = Some r.
Proof.
  intros Hd Hr. destruct (select_one _ _) as [r'|] eqn:E.
  - apply select_one_Some in E as [Hr' [Ht Hk]%has_job_key_true]. f_equal.
    apply (unique_eq (λ r, (jr_tenant r, jr_key r)) (d_jobs d)); [apply Hd|done..|].
    by rewrite Ht, Hk.
  - eapply select_one_None in E; [|exact Hr].
    rewrite (proj2 (has_job_key_true _ _ r)) in E; done.
Qed.

Lemma attempts_nonneg d r : jobs_ok d → r ∈ d_jobs d → 0 ≤ jr_attempts r.
Proof.
  intros Hd Hr. rewrite (lo_attempts _ _ (do_log _ Hd r Hr)). unfold count_running. lia.
Qed.

Lemma row_to_job_later d r r' j :
  jobs_ok d → r' ∈ d_jobs d → job_keys r' = job_keys r → row_to_job r = Ok j →
  ∃ j', row_to_job r' = Ok j' ∧ job_id j' = job_id j ∧ job_attempts j' = jr_attempts r' ∧
    job_status_of j' = jr_status r'.
Proof.
  intros Hd Hr' Hk. unfold row_to_job. pose proof (attempts_nonneg d r' Hd Hr') as Ha.
  unfold job_keys in Hk. injection Hk as -> -> -> _ -> -> _ _.
  repeat case_match; intros [= <-]; [by eexists|].
  apply andb_true_iff in H3 as [H3 _]. rewrite H3 in *. simpl in *.
  apply Z.leb_gt in H4. lia.
Qed.

(** A created job answers every later create with the same tenant and
    idempotency key: the same request gets the job back, whatever happened to
    it since, a different request is refused, and neither writes anything. *)
Theorem create_idempotent ops ops' a a' now now' j :
  let d := run_job_ops ops empty_jobs in
  (create_job a now d).2 = Ok (j, true) →
  ca_tenant a' = ca_tenant a → ca_key a' = ca_key a →
  let d' := run_job_ops ops' (create_job a now d).1 in
  ∃ j', job_id j' = job_id j ∧
    create_job a' now' d' =
      (d', if ca_hash a == ca_hash a' then Ok (j', false)
           else Err (JobIdempotencyConflictError
                  "idempotency key is already bound to a different job request")).
Proof.
  intros d Hj Ht Hk d'. pose proof (reachable_ok ops) as Hd. fold d in Hd.
  pose proof (create_moves a now d Hd) as [Hd1 _].
  pose proof (run_job_ops_advance ops' _ Hd1) as Hadv. fold d' in Hadv.
  unfold d' in *. clear d'. rewrite (create_job_run a now d Hd) in *.
  destruct (select_one _ (d_jobs d)) as [r|].
  { cbn [snd] in Hj. destruct (jr_hash r == ca_hash a); [|done]. by destruct (row_to_job r). }
  destruct (exists_row _ _); [done|]. cbn [fst snd] in *.
  destruct (row_to_job (new_job a now)) as [j0|] eqn:Ej; [|done]. injection Hj as ->.
  destruct (job_future _ _ (new_job a now) Hd1 Hadv) as (r' & l & Hr' & Hkeys & _);
    [simpl; set_solver|].
  destruct (row_to_job_later _ _ r' j (proj1 Hadv) Hr' Hkeys Ej) as (j' & Ej' & Hid & _).
  exists j'. split; [done|]. rewrite (create_job_run a' now' _ (proj1 Hadv)).
  assert (jr_tenant r' = ca_tenant a' ∧ jr_key r' = ca_key a' ∧ jr_hash r' = ca_hash a)
    as (<- & <- & Hh).
  { unfold job_keys in Hkeys. injection Hkeys as -> _ -> -> _ _ _ _. by rewrite Ht, Hk. }
  rewrite find_key_in by (apply Hadv || done). by rewrite Hh, Ej'.
Qed.

Lemma create_idempotent_witness :
  ∃ j', job_id j' = "job-1" ∧
    (create_job (CreateArgs "t" "job-9" "http" 1 (JObj []) "k-1" "h-1") 99
      (run_job_ops (tail sample_run)
        (create_job sample_create 10 (run_job_ops [] empty_jobs)).1)).2 = Ok (j', false).
Proof.
  destruct ((create_job sample_create 10 empty_jobs).2) as [[j []]|] eqn:E;
    [|by vm_compute in E..].
  destruct (create_idempotent [] (tail sample_run) sample_create
    (CreateArgs "t" "job-9" "http" 1 (JObj []) "k-1" "h-1") 10 99 j E eq_refl eq_refl)
    as (j' & Hid & H).
  exists j'. split.
  - rewrite Hid. vm_compute in E. by injection E as <-.
  - rewrite H. reflexivity.
Defined.

Lemma row_to_job_columns r j :
  row_to_job r = Ok j → job_attempts j = jr_attempts r ∧ job_status_of j = jr_status r.
Proof.
  unfold row_to_job. do 4 (destruct (bounded_field _ _); [|done]).
  destruct (_ && _); [|done]. by intros [= <-].
Qed.

(** A claim succeeds exactly on a queued job; it makes the job running
    with one more attempt, and a worker that claims the job next gets nothing,
    at once and after any further calls that bring no recovery of the job. *)
Theorem claim_exclusive ops ops' t i now now' r j :
  let d := run_job_ops ops empty_jobs in
  find_job t i d = Some r → row_to_job r = Ok j →
  if jr_status r == Queued then
    ∃ j', (claim_job t i now d).2 = Ok (Some j') ∧ job_status_of j' = Running ∧
      job_attempts j' = job_attempts j + 1 ∧
      let d1 := (claim_job t i now d).1 in
      let d2 := run_job_ops ops' d1 in
      ∀ new, events_for t i d2 = events_for t i d1 ++ new → EvRecovered ∉ ev_type <$> new →
        claim_job t i now' d2 = (d2, Ok None)
  else claim_job t i now d = (d, Ok None).
Proof.
  intros d Hf Hj. pose proof (reachable_ok ops) as Hd. fold d in Hd.
  destruct (find_job_Some _ _ _ _ Hf) as (Hr & <- & <-).
  case_bool_decide as Hq.
  - destruct (claim_job_run _ _ _ now d Hd Hf Hq) as [[Hd1 _] Hrun]. rewrite Hrun. cbn [fst snd].
    set (d1 := apply_step _ _ _ _ _ _ _) in *.
    pose proof (run_job_ops_advance ops' d1 Hd1) as Hadv.
    assert (find_job (jr_tenant r) (jr_id r) d1 = Some (claimed now r)) as Hf1.
    { apply find_job_step; [done| |done]. by rewrite Hq, bool_decide_eq_true_2. }
    destruct (find_job_Some _ _ _ _ Hf1) as (Hr1 & _ & _).
    destruct (row_to_job_later d1 r (claimed now r) j Hd1 Hr1 eq_refl Hj)
      as (j' & -> & _ & Ha & Hst).
    exists j'. split_and!; [done| |by rewrite Ha, (proj1 (row_to_job_columns _ _ Hj))|].
    { by rewrite Hst. }
    intros new Hnew Hno.
    destruct (job_future d1 _ _ Hd1 Hadv Hr1) as (r2 & l & Hr2 & Hk & _ & El & Hfold & _).
    change (jr_tenant (claimed now r)) with (jr_tenant r) in El.
    change (jr_id (claimed now r)) with (jr_id r) in El.
    rewrite El in Hnew. apply app_inv_head in Hnew as ->.
    assert (jr_tenant r2 = jr_tenant r ∧ jr_id r2 = jr_id r) as [E1 E2]
      by (unfold job_keys in Hk; by injection Hk as -> ->).
    pose proof (find_job_in _ _ (proj1 Hadv) Hr2) as Hf2. rewrite E1, E2 in Hf2.
    unfold claim_job. rewrite run_bind, run_transaction, run_cases_job.
    rewrite (status_of_Some _ _ _ _ Hf2).
    destruct (jr_status r2) eqn:Hs; try done. exfalso. apply Hno.
    by apply queued_needs_recovery in Hfold.
  - unfold claim_job. rewrite run_bind, run_transaction, run_cases_job.
    rewrite (status_of_Some _ _ _ _ Hf). by destruct (jr_status r).
Qed.

Lemma claim_exclusive_witness :
  let d := run_job_ops [OpCreate sample_create 10] empty_jobs in
  let d1 := (claim_job "t" "job-1" 11 d).1 in
  let d2 := run_job_ops [OpProgress "t" "job-1" (JObj []) 12] d1 in
  claim_job "t" "job-1" 13 d2 = (d2, Ok None).
Proof.
  intros d d1 d2.
  destruct (find_job "t" "job-1" d) as [r|] eqn:E; [|by vm_compute in E].
  destruct (row_to_job r) as [j|] eqn:Ej; [|vm_compute in E; by injection E as <-].
  pose proof (claim_exclusive [OpCreate sample_create 10] [OpProgress "t" "job-1" (JObj []) 12]
    "t" "job-1" 11 13 r j E Ej) as H.
  rewrite bool_decide_eq_true_2 in H by (vm_compute in E; by injection E as <-).
  destruct H as (j' & _ & _ & _ & H).
  apply (H [EventRow "t" "job-1" 3 EvProgress (JObj []) 12]); [by vm_compute|].
  simpl. by intros [|[]%elem_of_nil]%elem_of_cons.
Defined.

(** Recovery after a restart leaves no job running or half cancelled:
    running jobs are queued again, requested cancellations become final,
    settled and queued jobs keep their rows; the jobs handed back to the
    workers are exactly the ones that are now queued. *)
Theorem recover_restores ops now :
  let d := run_job_ops ops empty_jobs in
  let d' := (recover_jobs now d).1 in
  d_jobs d' = recovered_row now <$> d_jobs d ∧
  (∀ r, r ∈ d_jobs d' → terminal (jr_status r) = true ∨ jr_status r = Queued) ∧
  ∃ rows, (recover_jobs now d).2 = all_ok (row_to_job <$> rows) ∧
    ∀ r, r ∈ rows ↔ r ∈ d_jobs d' ∧ jr_status r = Queued.
Proof.
  intros d d'. pose proof (reachable_ok ops) as Hd. fold d in Hd.
  destruct (recover_run now d Hd) as (d1 & Hrun & _ & Hrows).
  unfold d'. rewrite Hrun. cbn [fst snd]. split_and!; [done| |].
  - rewrite Hrows. intros r (r0 & -> & _)%list_elem_of_fmap. unfold recovered_row.
    destruct (jr_status r0) eqn:E; rewrite ?E; simpl; auto.
  - exists (recovered_row now <$> select (λ r, negb (jr_status r == CancelRequested)) (snapshot d)).
    split; [by rewrite <- list_fmap_compose|]. intros r. rewrite Hrows, !list_elem_of_fmap.
    unfold snapshot. setoid_rewrite elem_of_select. setoid_rewrite order_by_perm.
    setoid_rewrite elem_of_select. unfold recovered_row. split.
    + intros (r0 & -> & ((Hr0 & Ht) & Hc)). destruct (jr_status r0) eqn:E; try done;
        (split; [exists r0; by rewrite E|done]).
    + intros ((r0 & -> & Hr0) & Hs). exists r0. split; [done|].
      destruct (jr_status r0) eqn:E; simpl in Hs; try congruence; by split_and!.
Qed.

(** Completing a job is atomic: a running job either gets its result, its
    artifacts and the completed event together, or, when an artifact cannot be
    stored, the whole store stays as it was; a job whose cancellation was
    requested ends cancelled without result or artifact; any other job is left
    alone. *)
Theorem complete_atomic ops t i result ids now r :
  let d := run_job_ops ops empty_jobs in
  let c := complete_job t i result ids now d in
  find_job t i d = Some r →
  match jr_status r with
  | Running =>
      match write_artifacts t i (hr_artifacts result) ids now d with
      | (d1, Ok _) =>
          d_artifacts c.1 = d_artifacts d1 ∧
          (jr_status <$> find_job t i c.1) = Some Succeeded ∧
          (jr_result <$> find_job t i c.1) = Some (Some result) ∧
          ev_type <$> events_for t i c.1 = (ev_type <$> events_for t i d) ++
            replicate (length (hr_artifacts result)) EvArtifactReady ++ [EvCompleted]
      | (_, Err e) => c = (d, Err e)
      end
  | CancelRequested =>
      d_artifacts c.1 = d_artifacts d ∧
      (jr_status <$> find_job t i c.1) = Some Cancelled ∧
      (jr_result <$> find_job t i c.1) = Some None
  | _ => c = (d, row_to_job r)
  end.
Proof.
  intros d c Hf. pose proof (reachable_ok ops) as Hd. fold d in Hd. subst c.
  pose proof (get_job_found _ _ _ _ Hf) as Hget.
  destruct (jr_status r) eqn:Hs.
  2: destruct (write_artifacts t i (hr_artifacts result) ids now d) as [d1 [[]|e]] eqn:Hw.
  2:{ destruct (complete_run t i r result ids now d d1 Hd Hf Hs Hw)
        as (d' & Hrun & Hadv & Hf' & Harts & Hevs).
      rewrite Hrun. cbn [fst]. by rewrite Hf'. }
  all: unfold complete_job; rewrite run_bind, run_transaction, run_cases_job;
    rewrite (status_of_Some _ _ _ _ Hf), Hs; cbn beta iota.
  2: by rewrite (run_bind_err _ _ _ _ _ Hw).
  all: try by rewrite run_ret.
  rewrite cancel_in_connection_run, get_job_state.
  rewrite (find_job_step _ _ _ _ _ _ _ r); [|done|by rewrite Hs|done].
  pose proof (do_columns _ Hd r (proj1 (find_job_Some _ _ _ _ Hf))) as Hc.
  unfold columns_ok in Hc. rewrite Hs in Hc. destruct Hc as (_ & _ & Hres & _).
  split_and!; [done..|]. simpl. by rewrite Hres.
Qed.

Lemma complete_atomic_witness :
  let d := run_job_ops [OpCreate sample_create 10; OpClaim "t" "job-1" 11] empty_jobs in
  ev_type <$> events_for "t" "job-1"
    (complete_job "t" "job-1" sample_result (λ _, "a") 12 d).1 = [EvQueued; EvRunning; EvCompleted].
Proof.
  intros d. destruct (find_job "t" "job-1" d) as [r|] eqn:E; [|by vm_compute in E].
  pose proof (complete_atomic [OpCreate sample_create 10; OpClaim "t" "job-1" 11]
    "t" "job-1" sample_result (λ _, "a") 12 r E) as H.
  assert (jr_status r = Running) as Hs by (vm_compute in E; by injection E as <-).
  rewrite Hs in H. destruct H as (_ & _ & _ & H). etransitivity; [exact H|by vm_compute].
Defined.

(** A cancellation request is never lost: a queued job is cancelled at
    once, a running one is marked, and from then on, whatever is called, the
    job is either still marked or cancelled (it neither succeeds, fails nor
    runs again). *)
Theorem cancel_request_sticks ops ops' t i now r j :
  let d := run_job_ops ops empty_jobs in
  let c := request_cancel t i now d in
  find_job t i d = Some r → row_to_job r = Ok j → terminal (jr_status r) = false →
  (status_of t i c.1 = Some (if jr_status r == Queued then Cancelled else CancelRequested)) ∧
  ∃ s, status_of t i (run_job_ops ops' c.1) = Some s ∧ (s = CancelRequested ∨ s = Cancelled).
Proof.
  intros d c Hf Hj Ht. pose proof (reachable_ok ops) as Hd. fold d in Hd.
  pose proof (request_cancel_moves t i now d Hd) as [Hd1 _].
  assert (status_of t i c.1 =
    Some (if jr_status r == Queued then Cancelled else CancelRequested)) as Hs.
  { unfold c, request_cancel. rewrite then_get_state, run_transaction, run_cases_job.
    rewrite (status_of_Some _ _ _ _ Hf). destruct (jr_status r) eqn:Hs; try done.
    - replace (terminal Queued || (Queued == CancelRequested)) with false by done.
      rewrite (bool_decide_eq_true_2 (Queued = Queued)) by done.
      rewrite request_cancel_queued. cbn [fst]. unfold status_of.
      by rewrite (find_job_step _ _ _ _ _ _ _ r); [|done|rewrite Hs|done].
    - replace (terminal Running || (Running == CancelRequested)) with false by done.
      replace (Running == Queued) with false by done.
      rewrite request_cancel_running. cbn [fst]. unfold status_of.
      rewrite (find_job_step _ _ _ _ _ _ _ r); [done|done| |done].
      by rewrite Hs, bool_decide_eq_true_2.
    - replace (terminal CancelRequested || _) with true by done. rewrite run_ret. cbn [fst].
      by rewrite (status_of_Some _ _ _ _ Hf), Hs. }
  split; [done|]. change (request_cancel t i now d).1 with c.1 in Hd1.
  destruct (find_job t i c.1) as [r1|] eqn:Hf1; [|unfold status_of in Hs; by rewrite Hf1 in Hs].
  rewrite (status_of_Some _ _ _ _ Hf1) in Hs. injection Hs as Hs.
  destruct (find_job_Some _ _ _ _ Hf1) as (Hr1 & <- & <-).
  pose proof (run_job_ops_advance ops' _ Hd1) as Hadv.
  destruct (job_future _ _ r1 Hd1 Hadv Hr1) as (r2 & l & Hr2 & Hk & _ & _ & Hfold & _).
  exists (jr_status r2). split.
  - apply status_of_Some. unfold job_keys in Hk. injection Hk as <- <- _.
    apply find_job_in; [apply Hadv|done].
  - rewrite Hs in Hfold. destruct (jr_status r == Queued).
    + destruct l as [|e l]; [injection Hfold as <-; by right|].
      simpl in Hfold. by rewrite stuck in Hfold.
    + by apply after_cancel_request in Hfold.
Qed.

Lemma cancel_request_sticks_witness :
  let d := run_job_ops [OpCreate sample_create 10; OpClaim "t" "job-1" 11] empty_jobs in
  ∃ s, status_of "t" "job-1" (run_job_ops [OpComplete "t" "job-1" sample_result (λ _, "a") 13]
    (request_cancel "t" "job-1" 12 d).1) = Some s ∧ (s = CancelRequested ∨ s = Cancelled).
Proof.
  intros d. destruct (find_job "t" "job-1" d) as [r|] eqn:E; [|by vm_compute in E].
  destruct (row_to_job r) as [j|] eqn:Ej; [|vm_compute in E; by injection E as <-].
  apply (cancel_request_sticks [OpCreate sample_create 10; OpClaim "t" "job-1" 11]
    [OpComplete "t" "job-1" sample_result (λ _, "a") 13] "t" "job-1" 12 r j E Ej).
  vm_compute in E. by injection E as <-.
Defined.

Lemma numbered_sorted l n :
  ev_sequence <$> l = seqZ n (Z.of_nat (length l)) → Sorted (λ x y, sequence_le x y = true) l.
Proof.
  revert n. induction l as [|e l IH]; intros n H; [constructor|].
  simpl length in H. rewrite seqZ_cons in H by lia. injection H as He Hl.
  replace (Z.pred (Z.of_nat (S (length l)))) with (Z.of_nat (length l)) in Hl by lia.
  constructor; [by eapply IH|]. destruct l as [|e' l]; constructor.
  simpl length in Hl. rewrite seqZ_cons in Hl by lia. injection Hl as He' _.
  unfold sequence_le. apply Z.leb_le. lia.
Qed.

Lemma Sorted_drop {A} (R : A → A → Prop) n l : Sorted R l → Sorted R (drop n l).
Proof.
  revert l. induction n as [|n IH]; intros [|x l]; simpl; try done.
  intros [H _]%Sorted_inv. by apply IH.
Qed.

Lemma select_after l n after :
  ev_sequence <$> l = seqZ n (Z.of_nat (length l)) →
  select (λ e, after <? ev_sequence e) l = drop (Z.to_nat (after + 1 - n)) l.
Proof.
  revert n. induction l as [|e l IH]; intros n H; [by rewrite drop_nil|].
  simpl length in H. rewrite seqZ_cons in H by lia. injection H as He Hl.
  replace (Z.pred (Z.of_nat (S (length l)))) with (Z.of_nat (length l)) in Hl by lia.
  unfold select. simpl. change (List.filter ?p l) with (select p l). rewrite (IH (Z.succ n)) by done.
  destruct (Z.ltb_spec after (ev_sequence e)).
  - replace (Z.to_nat (after + 1 - n)) with O by lia.
    by replace (Z.to_nat (after + 1 - Z.succ n)) with O by lia.
  - replace (Z.to_nat (after + 1 - n)) with (S (Z.to_nat (after + 1 - Z.succ n))) by lia. done.
Qed.

(** A page of a job's events is the segment of its log after the cursor,
    in order and of at most 500 events (at least one when there is one), so a
    client that passes on the last sequence it saw reads the log exactly once. *)
Theorem events_page ops t i after limit r j :
  let d := run_job_ops ops empty_jobs in
  find_job t i d = Some r → row_to_job r = Ok j →
  job_events t i after limit d =
    (d, Ok (take (Z.to_nat (Z.max 1 (Z.min limit 500)))
              (drop (Z.to_nat after) (events_for t i d)))).
Proof.
  intros d Hf Hj. pose proof (reachable_ok ops) as Hd. fold d in Hd.
  destruct (find_job_Some _ _ _ _ Hf) as (Hr & <- & <-).
  pose proof (lo_numbered _ _ (do_log _ Hd r Hr)) as Hnum.
  unfold job_events. rewrite run_bind, (get_job_found _ _ _ _ Hf), Hj, run_gets.
  rewrite select_and. fold (events_for (jr_tenant r) (jr_id r) d).
  rewrite (select_after _ 1) by done.
  replace (Z.to_nat (Z.max 0 after + 1 - 1)) with (Z.to_nat after) by lia.
  rewrite order_by_id; [done|]. by eapply Sorted_drop, numbered_sorted.
Qed.

Lemma events_page_witness :
  let d := run_job_ops sample_run empty_jobs in
  (job_events "t" "job-1" 1 100 d) =
    (d, Ok (take 100 (drop 1 (events_for "t" "job-1" d)))).
Proof.
  intros d. destruct (find_job "t" "job-1" d) as [r|] eqn:E; [|by vm_compute in E].
  destruct (row_to_job r) as [j|] eqn:Ej; [|vm_compute in E; by injection E as <-].
  apply (events_page sample_run "t" "job-1" 1 100 r j E Ej).
Defined.
