(* ===== verification/Idempotency.v ===== *)
(** * Idempotency of external effects ([persistence/idempotency.py])

    The claim an effect takes before its provider is called, and the record
    of its outcome. The provider call is the argument [invoke] of [execute]:
    it runs between two transactions, so anything may happen to the store
    meanwhile. *)

From S2P Require Import Prelude Sqlite PyText Sha256 Json.
#[local] Open Scope string_scope.
#[local] Open Scope list_scope.
#[local] Open Scope Z_scope.

(** ** Data *)

Inductive effect_status := Pending | Completed | EffectFailed.
Inductive decision := ConfirmApplied | RetryNoEffect | Reject.

#[global] Instance effect_status_eq_dec : EqDecision effect_status.
Proof. solve_decision. Defined.
#[global] Instance decision_eq_dec : EqDecision decision.
Proof. solve_decision. Defined.

(** A row of [external_effects]; [ef_result] is the value of [result_json]. *)
Record effect_row := Effect {
  ef_tenant : string;
  ef_key : string;
  ef_operation : string;
  ef_hash : string;
  ef_status : effect_status;
  ef_result : option json;
  ef_created_at : Z;
  ef_updated_at : Z;
}.

(** A row of [external_effect_reconciliations], in identifier order. *)
Record reconciliation := Reconciliation {
  rc_tenant : string;
  rc_key : string;
  rc_decision : decision;
  rc_actor : string;
  rc_reason : string;
  rc_created_at : Z;
}.

Record idem_db := IdemDb {
  i_effects : list effect_row;
  i_reconciliations : list reconciliation;
}.

#[global] Instance effect_fields : Fields effect_row := λ r,
  Effect (ef_tenant r) (ef_key r) (ef_operation r) (ef_hash r) (ef_status r) (ef_result r)
    (ef_created_at r) (ef_updated_at r).
#[global] Instance idem_db_fields : Fields idem_db := λ d,
  IdemDb (i_effects d) (i_reconciliations d).

Definition empty_effects : idem_db := IdemDb [] [].

Record claim_result := Claim {
  cl_created : bool;
  cl_result : option json;
}.

(** ** Statements *)

Definition is_effect (tenant key : string) (r : effect_row) : bool :=
  (ef_tenant r == tenant) && (ef_key r == key).
Definition is_pending (tenant key : string) (r : effect_row) : bool :=
  is_effect tenant key r && (ef_status r == Pending).
Definition find_effect (tenant key : string) (d : idem_db) : option effect_row :=
  select_one (is_effect tenant key) (i_effects d).

(** [PRIMARY KEY (tenant_id, idempotency_key)] *)
Definition effect_clash (r r' : effect_row) : bool := is_effect (ef_tenant r) (ef_key r) r'.

Definition insert_effect (r : effect_row) : M idem_db unit :=
  try_modify (λ d, t ← insert_row effect_clash r (i_effects d); Some (d <| i_effects := t |>))
    (IntegrityError "UNIQUE constraint failed").

(** ** Methods *)

Definition effect_field (value field : string) : outcome string := required 300 field value.

Definition request_hash (operation : string) (arguments : json) : string :=
  sha256_hex (dumps false (JObj [("operation", JStr operation); ("arguments", arguments)])).

Definition conflict_of_request : exn :=
  IdempotencyConflictError "idempotency key was already used for a different request".
Definition pending_effect : exn :=
  IdempotencyPendingError "the external effect is pending or its outcome is indeterminate".
Definition failed_effect : exn :=
  IdempotencyConflictError
    "the previous external effect attempt failed; use a new idempotency key".
Definition not_pending : exn := IdempotencyConflictError "idempotency claim is not pending".

(** [result if isinstance(result, dict) else {}] of the stored text. *)
Definition replayed (result : option json) : json :=
  match result with Some (JObj l) => JObj l | _ => JObj [] end.

Definition claim (tenant_id idempotency_key operation : string) (arguments : json) (now : Z) :
    M idem_db claim_result :=
  tenant ← from_outcome (effect_field tenant_id "tenant_id");
  key ← from_outcome (effect_field idempotency_key "idempotency_key");
  safe_operation ← from_outcome (effect_field operation "operation");
  let digest := request_hash safe_operation arguments in
  transaction (
    row ← gets (find_effect tenant key);
    match row with
    | None =>
        insert_effect (Effect tenant key safe_operation digest Pending None now now);;
        mret (Claim true None)
    | Some r =>
        unless ((ef_operation r == safe_operation) && (ef_hash r == digest)) conflict_of_request;;
        match ef_status r with
        | Pending => raise pending_effect
        | EffectFailed => raise failed_effect
        | Completed => mret (Claim false (Some (replayed (ef_result r))))
        end
    end).

(** [_finish] *)
Definition finish (tenant_id idempotency_key : string) (status : effect_status) (result : json)
    (now : Z) : M idem_db unit :=
  tenant ← from_outcome (effect_field tenant_id "tenant_id");
  key ← from_outcome (effect_field idempotency_key "idempotency_key");
  transaction (
    count ← gets (λ d, rowcount (is_pending tenant key) (i_effects d));
    modify (λ d, d <| i_effects := update (is_pending tenant key)
      (λ r, r <| ef_status := status |> <| ef_result := Some (canonical result) |>
              <| ef_updated_at := now |>) (i_effects d) |>);;
    unless (count =? 1)%nat not_pending).

Definition complete (tenant_id idempotency_key : string) (result : json) (now : Z) :
    M idem_db unit :=
  finish tenant_id idempotency_key Completed result now.

Definition error_result (code : string) : json :=
  JObj [("error", JObj [("code", JStr code)])].

Definition fail_effect (tenant_id idempotency_key code : string) (now : Z) : M idem_db unit :=
  finish tenant_id idempotency_key EffectFailed
    (error_result (take_text 100 (if code == "" then "external_effect_failed" else code))) now.

Record reconcile_args := ReconcileArgs {
  ra_tenant : string;
  ra_key : string;
  ra_decision : decision;
  ra_actor : string;
  ra_reason : string;
  ra_result : option json;
}.

Definition reconcile_payload (d : decision) (result : option json) : json :=
  match d with
  | ConfirmApplied => match result with Some v => canonical v | None => JNull end
  | _ => error_result "owner_rejected_effect"
  end.

Definition reconcile_pending (a : reconcile_args) (now : Z) : M idem_db unit :=
  tenant ← from_outcome (effect_field (ra_tenant a) "tenant_id");
  key ← from_outcome (effect_field (ra_key a) "idempotency_key");
  actor ← from_outcome (effect_field (ra_actor a) "actor_id");
  let safe_reason := strip (ra_reason a) in
  unless (negb (safe_reason == "") && (len safe_reason <=? 2000))
    (ValueError "reason is required and must not exceed 2000 characters");;
  transaction (
    row ← gets (find_effect tenant key);
    match row with
    | None => raise (LookupError "idempotency claim was not found")
    | Some r =>
        match ef_status r with
        | Pending =>
            match ra_decision a with
            | RetryNoEffect =>
                modify (λ d, d <| i_effects := delete_rows (is_effect tenant key) (i_effects d) |>)
            | decision =>
                modify (λ d, d <| i_effects := update (is_pending tenant key)
                  (λ r, r <| ef_status := if decision == ConfirmApplied then Completed
                                          else EffectFailed |>
                          <| ef_result := Some (reconcile_payload decision (ra_result a)) |>
                          <| ef_updated_at := now |>) (i_effects d) |>)
            end;;
            modify (λ d, d <| i_reconciliations := i_reconciliations d ++
              [Reconciliation tenant key (ra_decision a) actor safe_reason now] |>)
        | Completed =>
            if ra_decision a == ConfirmApplied then mret tt else raise not_pending
        | EffectFailed => raise not_pending
        end
    end).

(** [type(exc).__name__] of the exceptions [except Exception] catches. *)
Definition exception_name (e : exn) : option string :=
  match e with
  | CancelledError => None
  | ValueError _ => Some "ValueError"
  | ValidationError _ => Some "ValidationError"
  | TypeError _ => Some "TypeError"
  | RuntimeError _ => Some "RuntimeError"
  | LookupError _ => Some "LookupError"
  | KeyError _ => Some "KeyError"
  | PermissionError _ => Some "PermissionError"
  | IntegrityError _ => Some "IntegrityError"
  | AssertionError => Some "AssertionError"
  | TimeoutError => Some "TimeoutError"
  | OtherException cls _ => Some cls
  | JobNotFoundError _ => Some "JobNotFoundError"
  | JobIdempotencyConflictError _ => Some "JobIdempotencyConflictError"
  | JobValidationError _ => Some "JobValidationError"
  | JobHandlerNotFoundError _ => Some "JobHandlerNotFoundError"
  | IdempotencyConflictError _ => Some "IdempotencyConflictError"
  | IdempotencyPendingError _ => Some "IdempotencyPendingError"
  | SourceEvolutionError _ => Some "SourceEvolutionError"
  | HostConfigError _ => Some "HostConfigError"
  | HostConfigConflictError _ => Some "HostConfigConflictError"
  | IntakeDraftConflictError _ => Some "IntakeDraftConflictError"
  | IntakeDraftConfirmationError _ => Some "IntakeDraftConfirmationError"
  | IntakeDraftNotFoundError _ => Some "IntakeDraftNotFoundError"
  | IntakeDraftValidationError _ => Some "IntakeDraftValidationError"
  | IntakeDraftActivationError _ => Some "IntakeDraftActivationError"
  | AgentRunIdempotencyConflictError _ => Some "AgentRunIdempotencyConflictError"
  | AgentRunCheckpointConflictError _ => Some "AgentRunCheckpointConflictError"
  | AgentRunCapabilityConflictError _ => Some "AgentRunCapabilityConflictError"
  | SpecConflictError _ => Some "SpecConflictError"
  | SpecNotFoundError _ => Some "SpecNotFoundError"
  | ScheduleConflictError _ => Some "ScheduleConflictError"
  | ScheduleNotFoundError _ => Some "ScheduleNotFoundError"
  | SecretGrantError _ => Some "SecretGrantError"
  | SecretVaultConflictError _ => Some "SecretVaultConflictError"
  | SecretVaultNotFoundError _ => Some "SecretVaultNotFoundError"
  | CapabilityRevisionConflictError _ => Some "CapabilityRevisionConflictError"
  | CapabilityRevisionNotFoundError _ => Some "CapabilityRevisionNotFoundError"
  | CapabilityRevisionCorruptionError _ => Some "CapabilityRevisionCorruptionError"
  end.

(** [serialized if isinstance(serialized, dict) else {"value": serialized}] *)
Definition effect_value (value : json) : json :=
  let serialized := canonical value in
  if is_object serialized then serialized else JObj [("value", serialized)].

Record effect_request := EffectRequest {
  er_tenant : string;
  er_operation : string;
  er_key : string;
  er_hash : string;
}.

Definition begin_effect (q : effect_request) (now : Z) : M idem_db claim_result :=
  claim (er_tenant q) (er_key q) (er_operation q) (JObj [("request_hash", JStr (er_hash q))]) now.

(** What [execute] records once the provider has answered. *)
Definition settle_effect (q : effect_request) (answer : outcome json) (now : Z) :
    M idem_db unit :=
  match answer with
  | Ok value => complete (er_tenant q) (er_key q) (effect_value value) now
  | Err e =>
      match exception_name e with
      | Some name => fail_effect (er_tenant q) (er_key q) (lower name) now
      | None => mret tt
      end
  end.

Section Execute.
Context {World : Type}.

Definition on_store {A} (m : M idem_db A) : M (idem_db * World) A :=
  zoom fst (λ d s, (d, s.2)) m.

Definition execute (invoke : M (idem_db * World) json) (q : effect_request) (now now' : Z) :
    M (idem_db * World) (option json) :=
  c ← on_store (begin_effect q now);
  if cl_created c then
    value ← try_except invoke (λ e,
      match exception_name e with
      | Some _ => Some (on_store (settle_effect q (Err e) now');; raise e)
      | None => None
      end);
    on_store (settle_effect q (Ok value) now');;
    mret (Some value)
  else mret (cl_result c).
End Execute.

(** ** Any use of the store

    [calls] collects the claims that were granted: each one is a provider call
    its claimant goes on to make. Claims, outcomes and owner decisions may
    arrive in any order, from any number of processes. *)

Inductive effect_op :=
  | OpClaimEffect (tenant key operation : string) (arguments : json) (now : Z)
  | OpCompleteEffect (tenant key : string) (result : json) (now : Z)
  | OpFailEffect (tenant key code : string) (now : Z)
  | OpReconcile (a : reconcile_args) (now : Z).

Record effect_system := EffectSystem {
  es_db : idem_db;
  es_calls : list (string * string);
}.

Definition granted (r : outcome claim_result) : bool :=
  match r with Ok c => cl_created c | Err _ => false end.

Definition run_effect_op (s : effect_system) (op : effect_op) : effect_system :=
  match op with
  | OpClaimEffect t k o a now =>
      let (d', r) := claim t k o a now (es_db s) in
      EffectSystem d' (if granted r then es_calls s ++ [(strip t, strip k)] else es_calls s)
  | OpCompleteEffect t k v now => EffectSystem (complete t k v now (es_db s)).1 (es_calls s)
  | OpFailEffect t k c now => EffectSystem (fail_effect t k c now (es_db s)).1 (es_calls s)
  | OpReconcile a now => EffectSystem (reconcile_pending a now (es_db s)).1 (es_calls s)
  end.

Definition run_effects (ops : list effect_op) (s : effect_system) : effect_system :=
  foldl run_effect_op s ops.

Definition calls_of (t k : string) (s : effect_system) : nat :=
  length (List.filter (λ c, bool_decide (c = (t, k))) (es_calls s)).
Definition retries_of (t k : string) (d : idem_db) : nat :=
  rowcount (λ c, (rc_tenant c == t) && (rc_key c == k) && (rc_decision c == RetryNoEffect))
    (i_reconciliations d).

(** ** Lemmas *)

Lemma is_effect_true t k r : is_effect t k r = true ↔ ef_tenant r = t ∧ ef_key r = k.
Proof. unfold is_effect. by rewrite andb_true_iff, !bool_decide_eq_true. Qed.

Lemma is_pending_true t k r :
  is_pending t k r = true ↔ (ef_tenant r = t ∧ ef_key r = k) ∧ ef_status r = Pending.
Proof. unfold is_pending. by rewrite andb_true_iff, is_effect_true, bool_decide_eq_true. Qed.

Definition ident (r : effect_row) : string * string := (ef_tenant r, ef_key r).

Lemma find_effect_in d r :
  unique ident (i_effects d) → r ∈ i_effects d → find_effect (ef_tenant r) (ef_key r) d = Some r.
Proof.
  intros Hu Hr. destruct (find_effect _ _ d) as [r'|] eqn:E.
  - apply select_one_Some in E as [Hr' [Ht Hk]%is_effect_true]. f_equal.
    apply (unique_eq ident (i_effects d)); [done..|]. unfold ident. by rewrite Ht, Hk.
  - eapply select_one_None in E; [|exact Hr]. by rewrite (proj2 (is_effect_true _ _ r)) in E.
Qed.

Lemma find_effect_Some t k d r :
  find_effect t k d = Some r → r ∈ i_effects d ∧ ef_tenant r = t ∧ ef_key r = k.
Proof. by intros [? ?%is_effect_true]%select_one_Some. Qed.

(** What every method does to the store: nothing, one new pending row under a
    new key, an outcome on a pending row, or the removal of a pending row with
    the owner's decision. *)
Inductive effect_change (d : idem_db) : idem_db → Prop :=
  | change_none : effect_change d d
  | change_claim t k o h now :
      find_effect t k d = None →
      effect_change d (IdemDb (i_effects d ++ [Effect t k o h Pending None now now])
                         (i_reconciliations d))
  | change_settle t k s v now rs :
      s ≠ Pending → is_Some (find_effect t k d) →
      Forall (λ r, rc_decision r ≠ RetryNoEffect) rs →
      effect_change d (IdemDb (update (is_pending t k)
        (λ r, r <| ef_status := s |> <| ef_result := Some v |> <| ef_updated_at := now |>)
        (i_effects d)) (i_reconciliations d ++ rs))
  | change_retry t k r a reason now :
      find_effect t k d = Some r → ef_status r = Pending →
      effect_change d (IdemDb (delete_rows (is_effect t k) (i_effects d))
        (i_reconciliations d ++ [Reconciliation t k RetryNoEffect a reason now])).
#[local] Hint Constructors effect_change : core.

Lemma idem_db_eta d : IdemDb (i_effects d) (i_reconciliations d) = d.
Proof. by destruct d. Qed.

Lemma claim_run t0 k0 o0 a now d :
  match effect_field t0 "tenant_id", effect_field k0 "idempotency_key",
        effect_field o0 "operation" with
  | Ok t, Ok k, Ok o =>
      claim t0 k0 o0 a now d =
        match find_effect t k d with
        | None => (IdemDb (i_effects d ++ [Effect t k o (request_hash o a) Pending None now now])
                     (i_reconciliations d), Ok (Claim true None))
        | Some r =>
            (d, if (ef_operation r == o) && (ef_hash r == request_hash o a) then
                  match ef_status r with
                  | Pending => Err pending_effect
                  | EffectFailed => Err failed_effect
                  | Completed => Ok (Claim false (Some (replayed (ef_result r))))
                  end
                else Err conflict_of_request)
        end
  | Err e, _, _ | Ok _, Err e, _ | Ok _, Ok _, Err e => claim t0 k0 o0 a now d = (d, Err e)
  end.
Proof.
  unfold claim. destruct (effect_field t0 _) as [t|e]; [|done].
  destruct (effect_field k0 _) as [k|e]; [|done]. destruct (effect_field o0 _) as [o|e]; [|done].
  rewrite !run_outcome_bind, run_transaction, run_gets_bind.
  destruct (find_effect t k d) as [r|] eqn:E.
  - rewrite run_unless_bind. destruct (_ && _); [|done]. by destruct (ef_status r).
  - unfold insert_effect. rewrite run_try_modify_bind, insert_row_ok; [done|].
    intros r Hr. by eapply select_one_None in E.
Qed.

Lemma finish_change t0 k0 s v now d : s ≠ Pending → effect_change d (finish t0 k0 s v now d).1.
Proof.
  intros Hs. unfold finish. run. destruct (effect_field t0 _) as [t|e]; [|constructor]. run.
  destruct (effect_field k0 _) as [k|e]; [|constructor]. run.
  destruct (_ =? 1)%nat eqn:E; [|constructor]. apply Nat.eqb_eq in E.
  assert (is_Some (find_effect t k d)) as Hf.
  2:{ pose proof (change_settle d t k s (canonical v) now [] Hs Hf) as H.
      rewrite app_nil_r in H. by apply H. }
  unfold rowcount in E. destruct (select (is_pending t k) (i_effects d)) as [|r l] eqn:Es; [done|].
  assert (r ∈ select (is_pending t k) (i_effects d)) as [Hr Hp]%elem_of_select
    by (rewrite Es; set_solver).
  destruct (find_effect t k d) eqn:Ef; [done|]. eapply select_one_None in Ef; [|exact Hr].
  unfold is_pending in Hp. by rewrite Ef in Hp.
Qed.

Lemma reconcile_change a now d : effect_change d (reconcile_pending a now d).1.
Proof.
  unfold reconcile_pending. run. destruct (effect_field (ra_tenant a) _) as [t|e]; [|constructor].
  run. destruct (effect_field (ra_key a) _) as [k|e]; [|constructor]. run.
  destruct (effect_field (ra_actor a) _) as [ac|e]; [|constructor]. run.
  destruct (_ && _); [|constructor]. run.
  destruct (find_effect t k d) as [r|] eqn:E; [|constructor].
  destruct (ef_status r) eqn:Hs.
  - destruct (ra_decision a) eqn:Ed; run; simpl.
    + by apply (change_settle d t k Completed _ now [_]); [|rewrite E|repeat constructor].
    + by eapply change_retry.
    + by apply (change_settle d t k EffectFailed _ now [_]); [|rewrite E|repeat constructor].
  - destruct (_ == ConfirmApplied); constructor.
  - constructor.
Qed.

Lemma effect_change_unique d d' :
  effect_change d d' → unique ident (i_effects d) → unique ident (i_effects d').
Proof.
  intros [|t k o h now Hn|t k s v now rs _ _ _|t k r a reason now _ _] Hu; simpl; [done|..].
  - apply unique_app; [done|]. intros r' Hr' [= -> ->].
    rewrite (find_effect_in d r') in Hn by done. done.
  - unfold unique. by rewrite (fmap_update ident).
  - by apply unique_delete_rows.
Qed.

(** A settled row is there for good. *)
Lemma effect_change_settled d d' r :
  effect_change d d' → unique ident (i_effects d) → r ∈ i_effects d → ef_status r ≠ Pending →
  r ∈ i_effects d'.
Proof.
  intros [|t k o h now Hn|t k s v now rs _ _ _|t k r0 a reason now Hf Hp] Hu Hr Hs; simpl.
  - done.
  - set_solver.
  - apply elem_of_update. exists r. split; [done|].
    destruct (is_pending t k r) eqn:E; [|done]. by apply is_pending_true in E as [_ ?].
  - apply elem_of_delete_rows. split; [done|].
    destruct (is_effect t k r) eqn:E; [|done]. apply is_effect_true in E as [<- <-].
    rewrite (find_effect_in d r) in Hf by done. by simplify_eq.
Qed.

Lemma run_effect_op_change s op : effect_change (es_db s) (es_db (run_effect_op s op)).
Proof.
  destruct op as [t0 k0 o0 a now|t k v now|t k c now|a now]; simpl.
  - pose proof (claim_run t0 k0 o0 a now (es_db s)) as H.
    destruct (effect_field t0 _) as [t|e]; [|by rewrite H; constructor].
    destruct (effect_field k0 _) as [k|e]; [|by rewrite H; constructor].
    destruct (effect_field o0 _) as [o|e]; [|by rewrite H; constructor].
    rewrite H. destruct (find_effect t k (es_db s)) eqn:E; simpl; by constructor.
  - by apply finish_change.
  - by apply finish_change.
  - apply reconcile_change.
Qed.

Lemma run_effects_unique ops s :
  unique ident (i_effects (es_db s)) → unique ident (i_effects (es_db (run_effects ops s))).
Proof.
  revert s. induction ops as [|op ops IH]; intros s Hu; [done|]. apply IH.
  eapply effect_change_unique; [apply run_effect_op_change|done].
Qed.

Lemma run_effects_settled ops s r :
  unique ident (i_effects (es_db s)) → r ∈ i_effects (es_db s) → ef_status r ≠ Pending →
  r ∈ i_effects (es_db (run_effects ops s)).
Proof.
  revert s. induction ops as [|op ops IH]; intros s Hu Hr Hs; [done|]. apply IH; [..|done].
  - eapply effect_change_unique; [apply run_effect_op_change|done].
  - eapply effect_change_settled; [apply run_effect_op_change|done..].
Qed.

Definition no_effects : effect_system := EffectSystem empty_effects [].

Lemma reachable_unique ops : unique ident (i_effects (es_db (run_effects ops no_effects))).
Proof. apply run_effects_unique, NoDup_nil_2. Qed.

(** The bookkeeping behind at-most-once: a granted claim is a live row or a
    retry the owner allowed. *)
Definition counted (t k : string) (s : effect_system) : Prop :=
  calls_of t k s =
    ((match find_effect t k (es_db s) with Some _ => 1 | None => 0 end)
     + retries_of t k (es_db s))%nat.

Lemma rowcount_app {R} (p : R → bool) l l' :
  rowcount p (l ++ l') = (rowcount p l + rowcount p l')%nat.
Proof. unfold rowcount, select. by rewrite List.filter_app, length_app. Qed.

Lemma retries_app t k es d rs :
  retries_of t k (IdemDb es (i_reconciliations d ++ rs)) =
    (retries_of t k d +
     rowcount (λ c, (rc_tenant c == t) && (rc_key c == k) && (rc_decision c == RetryNoEffect))
       rs)%nat.
Proof. apply rowcount_app. Qed.

Lemma find_effect_delete t k t' k' d rs :
  find_effect t k (IdemDb (delete_rows (is_effect t' k') (i_effects d)) rs) =
    if bool_decide (t = t' ∧ k = k') then None else find_effect t k d.
Proof.
  unfold find_effect, delete_rows. simpl. induction (i_effects d) as [|r l IH]; simpl.
  - by case_bool_decide.
  - destruct (is_effect t' k' r) eqn:E'; simpl; rewrite IH; destruct (is_effect t k r) eqn:E;
      try done; case_bool_decide as Hd; try done.
    + apply is_effect_true in E as [<- <-], E' as [<- <-]. naive_solver.
    + destruct Hd as [-> ->]. congruence.
Qed.

Lemma find_effect_update t k t' k' f d rs :
  (∀ r, ident (f r) = ident r) →
  find_effect t k (IdemDb (update (is_pending t' k') f (i_effects d)) rs) =
    (λ r, if is_pending t' k' r then f r else r) <$> find_effect t k d.
Proof.
  intros H. unfold find_effect. simpl. apply select_one_update. intros r _ _.
  specialize (H r). unfold ident in H. injection H as H1 H2.
  unfold is_effect. by rewrite H1, H2.
Qed.

Lemma counted_no_grant d d' calls :
  effect_change d d' → (∀ t k, find_effect t k d = None → find_effect t k d' = None) →
  unique ident (i_effects d) →
  (∀ t k, counted t k (EffectSystem d calls)) → ∀ t k, counted t k (EffectSystem d' calls).
Proof.
  intros Hc Hnone Hu H t k. specialize (H t k). specialize (Hnone t k).
  unfold counted in *. simpl in *. change (calls_of t k (EffectSystem d' calls))
    with (calls_of t k (EffectSystem d calls)). rewrite H. clear H.
  destruct Hc as [|t0 k0 o h now Hn|t0 k0 s v now rs _ _ Hrs|t0 k0 r a reason now Hf Hp].
  - done.
  - unfold find_effect in Hnone |- *. cbn [i_effects] in *. rewrite select_one_app in *.
    destruct (select_one _ (i_effects d)); [done|]. by rewrite Hnone.
  - rewrite retries_app, find_effect_update by done.
    rewrite (proj2 (rowcount_zero _ rs)); [by destruct (find_effect t k d); simpl; lia|].
    intros c Hc. rewrite Forall_forall in Hrs. apply andb_false_iff. right.
    apply bool_decide_eq_false_2. auto.
  - rewrite retries_app, find_effect_delete. unfold rowcount, select. simpl.
    case_bool_decide as Hd.
    + destruct Hd as [-> ->]. rewrite Hf, !bool_decide_eq_true_2 by done. simpl. lia.
    + destruct (_ && _) eqn:E; [|simpl; lia]. apply andb_true_iff in E as [E _].
      apply andb_true_iff in E as [E1%bool_decide_eq_true E2%bool_decide_eq_true]. naive_solver.
Qed.

Lemma change_none_stays d d' t k :
  effect_change d d' → (length (i_effects d') ≤ length (i_effects d))%nat →
  find_effect t k d = None → find_effect t k d' = None.
Proof.
  intros [|t0 k0 o h now Hn|t0 k0 s v now rs _ _ Hrs|t0 k0 r a reason now Hf Hp] Hlen Hnone.
  - done.
  - simpl in Hlen. rewrite length_app in Hlen. simpl in Hlen. lia.
  - by rewrite find_effect_update, Hnone.
  - rewrite find_effect_delete. by case_bool_decide.
Qed.

Lemma finish_length t0 k0 s v now d :
  length (i_effects (finish t0 k0 s v now d).1) = length (i_effects d).
Proof.
  unfold finish. run. destruct (effect_field t0 _) as [t|e]; [|done]. run.
  destruct (effect_field k0 _) as [k|e]; [|done]. run.
  destruct (_ =? 1)%nat; [|done]. apply length_update.
Qed.

Lemma reconcile_length a now d :
  (length (i_effects (reconcile_pending a now d).1) ≤ length (i_effects d))%nat.
Proof.
  unfold reconcile_pending. run. destruct (effect_field (ra_tenant a) _) as [t|e]; [|done].
  run. destruct (effect_field (ra_key a) _) as [k|e]; [|done]. run.
  destruct (effect_field (ra_actor a) _) as [ac|e]; [|done]. run.
  destruct (_ && _); [|done]. run. destruct (find_effect t k d) as [r|]; [|done].
  destruct (ef_status r); [|by destruct (_ == ConfirmApplied)|done].
  destruct (ra_decision a); run; simpl.
  - rewrite length_update. lia.
  - unfold delete_rows. pose proof (List.filter_length_le (λ r, negb (is_effect t k r)) (i_effects d)).
    lia.
  - rewrite length_update. lia.
Qed.

Lemma run_effect_op_counted s op :
  unique ident (i_effects (es_db s)) → (∀ t k, counted t k s) →
  ∀ t k, counted t k (run_effect_op s op).
Proof.
  intros Hu H. destruct s as [d calls]. simpl in Hu.
  pose proof (run_effect_op_change (EffectSystem d calls) op) as Hc. simpl in Hc.
  destruct op as [t0 k0 o0 a now|t0 k0 v now|t0 k0 c now|a now]; simpl in *.
  2-4: apply (counted_no_grant d); [done| |done|done]; intros t k; eapply change_none_stays;
    [done|]; unfold complete, fail_effect; rewrite ?finish_length;
    done || apply reconcile_length.
  pose proof (claim_run t0 k0 o0 a now d) as Hrun. revert Hrun.
  unfold effect_field. destruct (required 300 "tenant_id" t0) as [t1|e] eqn:Et; [|by intros ->].
  destruct (required 300 "idempotency_key" k0) as [k1|e] eqn:Ek; [|by intros ->].
  destruct (required 300 "operation" o0) as [o1|e]; [|by intros ->]. intros ->.
  apply required_Ok in Et as [-> _], Ek as [-> _].
  destruct (find_effect (strip t0) (strip k0) d) as [r|] eqn:E.
  { destruct (_ && _); [destruct (ef_status r)|]; done. }
  simpl. intros t k. specialize (H t k). unfold counted, calls_of in *. simpl in *.
  change (retries_of t k (IdemDb _ (i_reconciliations d))) with (retries_of t k d).
  rewrite List.filter_app, length_app. unfold find_effect in *. cbn [i_effects].
  rewrite select_one_app. simpl. rewrite H.
  match goal with |- context [is_effect t k ?r] =>
    change (is_effect t k r) with ((strip t0 == t) && (strip k0 == k)) end.
  destruct (decide (strip t0 = t ∧ strip k0 = k)) as [[Ht Hk]|Hne].
  - subst t k. rewrite E, !bool_decide_eq_true_2 by done. simpl. lia.
  - rewrite (bool_decide_eq_false_2 (_ = (t, k))) by naive_solver. simpl.
    destruct (select_one _ (i_effects d)); [lia|].
    destruct (_ && _) eqn:E2; [|lia]. exfalso. apply Hne.
    apply andb_true_iff in E2 as [?%bool_decide_eq_true ?%bool_decide_eq_true]. done.
Qed.

Lemma run_effects_counted ops s :
  unique ident (i_effects (es_db s)) → (∀ t k, counted t k s) →
  ∀ t k, counted t k (run_effects ops s).
Proof.
  revert s. induction ops as [|op ops IH]; intros s Hu H; [done|]. simpl. apply IH.
  - eapply effect_change_unique; [apply run_effect_op_change|done].
  - by apply run_effect_op_counted.
Qed.

Lemma run_effects_app ops ops' s :
  run_effects (ops ++ ops') s = run_effects ops' (run_effects ops s).
Proof. apply foldl_app. Qed.

(** What a later request with the key of a settled row gets. *)
Lemma claim_settled q now d r :
  unique ident (i_effects d) → r ∈ i_effects d →
  effect_field (er_tenant q) "tenant_id" = Ok (ef_tenant r) →
  effect_field (er_key q) "idempotency_key" = Ok (ef_key r) →
  effect_field (er_operation q) "operation" = Ok (ef_operation r) →
  ef_hash r = request_hash (ef_operation r) (JObj [("request_hash", JStr (er_hash q))]) →
  begin_effect q now d =
    (d, match ef_status r with
        | Pending => Err pending_effect
        | EffectFailed => Err failed_effect
        | Completed => Ok (Claim false (Some (replayed (ef_result r))))
        end).
Proof.
  intros Hu Hr Ht Hk Ho Hh. unfold begin_effect.
  pose proof (claim_run (er_tenant q) (er_key q) (er_operation q)
    (JObj [("request_hash", JStr (er_hash q))]) now d) as H.
  rewrite Ht, Hk, Ho, find_effect_in in H by done.
  rewrite !bool_decide_eq_true_2 in H by done. exact H.
Qed.

(** The row a granted claim leaves. *)
Lemma begin_granted q now d d1 c :
  begin_effect q now d = (d1, Ok c) → cl_created c = true →
  ∃ t k o,
    effect_field (er_tenant q) "tenant_id" = Ok t ∧
    effect_field (er_key q) "idempotency_key" = Ok k ∧
    effect_field (er_operation q) "operation" = Ok o ∧
    c = Claim true None ∧ find_effect t k d = None ∧
    d1 = IdemDb (i_effects d ++ [Effect t k o
           (request_hash o (JObj [("request_hash", JStr (er_hash q))])) Pending None now now])
           (i_reconciliations d).
Proof.
  unfold begin_effect. intros H Hc.
  pose proof (claim_run (er_tenant q) (er_key q) (er_operation q)
    (JObj [("request_hash", JStr (er_hash q))]) now d) as Hrun.
  destruct (effect_field (er_tenant q) _) as [t|e]; [|congruence].
  destruct (effect_field (er_key q) _) as [k|e]; [|congruence].
  destruct (effect_field (er_operation q) _) as [o|e]; [|congruence].
  rewrite Hrun in H. destruct (find_effect t k d) as [r|] eqn:E.
  - destruct (_ && _); [destruct (ef_status r)|]; by simplify_eq/=.
  - simplify_eq/=. exists t, k, o. by split_and!.
Qed.

Lemma rowcount_unique t k d r :
  unique ident (i_effects d) → r ∈ i_effects d → is_pending t k r = true →
  rowcount (is_pending t k) (i_effects d) = 1%nat.
Proof.
  intros Hu Hr Hp. apply (rowcount_one ident _ _ r); [done..|].
  intros r' _ [[E1 E2] _]%is_pending_true. apply is_pending_true in Hp as [[E3 E4] _].
  unfold ident. congruence.
Qed.

(** [complete] and [fail] on a row that is still pending. *)
Lemma finish_pending t0 k0 s v now d r :
  unique ident (i_effects d) → r ∈ i_effects d → ef_status r = Pending →
  effect_field t0 "tenant_id" = Ok (ef_tenant r) →
  effect_field k0 "idempotency_key" = Ok (ef_key r) →
  ∃ d', finish t0 k0 s v now d = (d', Ok tt) ∧
    (r <| ef_status := s |> <| ef_result := Some (canonical v) |> <| ef_updated_at := now |>)
      ∈ i_effects d' ∧ unique ident (i_effects d').
Proof.
  intros Hu Hr Hs Ht Hk. eexists. unfold finish. run. rewrite Ht. run. rewrite Hk. run.
  assert (is_pending (ef_tenant r) (ef_key r) r = true) as Hp by by apply is_pending_true.
  rewrite (rowcount_unique _ _ d r) by done. simpl. split_and!; [done| |].
  - apply elem_of_update. exists r. by rewrite Hp.
  - unfold unique, modify_field. simpl. by rewrite (fmap_update ident).
Qed.

Lemma exception_name_None e : exception_name e = None ↔ e = CancelledError.
Proof. by destruct e. Qed.

Definition answer_status (answer : outcome json) : effect_status :=
  match answer with Ok _ => Completed | Err _ => EffectFailed end.

Lemma settle_pending q answer now d r :
  unique ident (i_effects d) → r ∈ i_effects d → ef_status r = Pending →
  effect_field (er_tenant q) "tenant_id" = Ok (ef_tenant r) →
  effect_field (er_key q) "idempotency_key" = Ok (ef_key r) →
  answer ≠ Err CancelledError →
  ∃ d' v, settle_effect q answer now d = (d', Ok tt) ∧
    (r <| ef_status := answer_status answer |> <| ef_result := Some (canonical v) |>
       <| ef_updated_at := now |>) ∈ i_effects d' ∧ unique ident (i_effects d') ∧
    ∀ w, answer = Ok w → v = effect_value w.
Proof.
  intros Hu Hr Hs Ht Hk Hans. unfold settle_effect, complete, fail_effect.
  destruct answer as [v|e].
  - destruct (finish_pending (er_tenant q) (er_key q) Completed (effect_value v) now d r)
      as (d' & H1 & H2 & H3); [done..|]. exists d', (effect_value v).
    split_and!; [done..|]. by intros w [= ->].
  - destruct (exception_name e) as [name|] eqn:En; [|by apply exception_name_None in En as ->].
    edestruct (finish_pending (er_tenant q) (er_key q) EffectFailed) as (d' & H1 & H2 & H3);
      [done..|]. by eexists d', _.
Qed.

Lemma effect_value_canonical v : replayed (Some (canonical (effect_value v))) = effect_value v.
Proof.
  unfold effect_value. destruct (is_object (canonical v)) eqn:E.
  - rewrite canonical_idem. by destruct (canonical v).
  - cbn -[order_by]. by rewrite canonical_idem.
Qed.

Lemma execute_granted {World} (invoke : M (idem_db * World) json) q now now' d d1 w c d2 w2 answer d3 :
  begin_effect q now d = (d1, Ok c) → cl_created c = true →
  invoke (d1, w) = ((d2, w2), answer) → answer ≠ Err CancelledError →
  settle_effect q answer now' d2 = (d3, Ok tt) →
  execute invoke q now now' (d, w) =
    ((d3, w2), match answer with Ok v => Ok (Some v) | Err e => Err e end).
Proof.
  intros Hb Hc Hi Hans Hset. unfold execute, on_store, zoom.
  rewrite run_bind. simpl fst. rewrite Hb. cbn [snd]. rewrite Hc, run_bind, run_try_except, Hi.
  destruct answer as [v|e].
  - rewrite run_bind. simpl fst. by rewrite Hset.
  - destruct (exception_name e) as [name|] eqn:En; [|by apply exception_name_None in En as ->].
    rewrite run_bind. simpl fst. by rewrite Hset.
Qed.

(** ** Properties *)

(** C23: a provider is called for a key at most once, plus once for every retry
    the owner allowed after establishing that the call had no effect: however
    claims, outcomes and decisions interleave, the number of granted claims is
    the number of retry decisions on record, plus one while a record is live. *)
Theorem effect_at_most_once ops t k :
  let s := run_effects ops no_effects in
  calls_of t k s =
    ((if find_effect t k (es_db s) is Some _ then 1 else 0) + retries_of t k (es_db s))%nat.
Proof.
  intros s. pose proof (run_effects_counted ops no_effects) as H. fold s in H.
  unfold counted in H. rewrite H; [|by apply NoDup_nil_2|done].
  by destruct (find_effect t k (es_db s)).
Qed.

(** A recorded outcome is final: once an effect is completed or failed its
    row never changes, an identical request gets the recorded result (or the
    recorded failure) without a new claim, and one that differs is refused. *)
Theorem effect_outcome_final ops ops' r q now :
  let d := es_db (run_effects ops no_effects) in
  let d' := es_db (run_effects ops' (run_effects ops no_effects)) in
  r ∈ i_effects d → ef_status r ≠ Pending →
  effect_field (er_tenant q) "tenant_id" = Ok (ef_tenant r) →
  effect_field (er_key q) "idempotency_key" = Ok (ef_key r) →
  effect_field (er_operation q) "operation" = Ok (ef_operation r) →
  r ∈ i_effects d' ∧
  begin_effect q now d' =
    (d', if ef_hash r ==
            request_hash (ef_operation r) (JObj [("request_hash", JStr (er_hash q))])
         then if ef_status r == Completed
              then Ok (Claim false (Some (replayed (ef_result r)))) else Err failed_effect
         else Err conflict_of_request).
Proof.
  intros d d' Hr Hs Ht Hk Ho.
  pose proof (reachable_unique ops) as Hu. fold d in Hu.
  pose proof (run_effects_unique ops' _ Hu) as Hu'. fold d' in Hu'.
  assert (r ∈ i_effects d') as Hr' by by apply run_effects_settled.
  split; [done|]. case_bool_decide as Hh.
  - rewrite (claim_settled q now d' r) by done. by destruct (ef_status r).
  - unfold begin_effect. pose proof (claim_run (er_tenant q) (er_key q) (er_operation q)
      (JObj [("request_hash", JStr (er_hash q))]) now d') as H.
    rewrite Ht, Hk, Ho, find_effect_in in H by done. rewrite H.
    by rewrite (bool_decide_eq_false_2 _ Hh), andb_false_r.
Qed.

Definition sample_request : effect_request := EffectRequest "t" "send" "k" "h".
Definition sample_effects : list effect_op :=
  [OpClaimEffect "t" "k" "send" (JObj [("request_hash", JStr "h")]) 10;
   OpCompleteEffect "t" "k" (JObj [("sid", JStr "SM1")]) 11].

Lemma effect_outcome_final_witness :
  let s := run_effects sample_effects no_effects in
  (begin_effect sample_request 50
    (es_db (run_effects [OpFailEffect "t" "k" "late" 12] s))).2 =
    Ok (Claim false (Some (JObj [("sid", JStr "SM1")]))).
Proof.
  intros s. destruct (find_effect "t" "k" (es_db s)) as [r|] eqn:E; [|by vm_compute in E].
  destruct (find_effect_Some _ _ _ _ E) as (Hr & Ht & Hk).
  destruct (effect_outcome_final sample_effects [OpFailEffect "t" "k" "late" 12] r
    sample_request 50 Hr) as [_ H].
  1-4: vm_compute in E; injection E as <-; done.
  fold s in H. rewrite H. cbn [snd]. vm_compute in E. injection E as <-. by vm_compute.
Defined.

(** An effect is executed once: the first [execute] calls the provider and
    returns its answer; after that, whatever else happens to the store, the
    same request gets the recorded value without calling the provider (the
    [invoke'] it passes is not run), or, when the provider raised, is refused.
    The provider's run may change the store in any way that leaves the claim
    pending. *)
Theorem execute_replays {World} ops ops' (invoke invoke' : M (idem_db * World) json) q now now'
    now2 now3 d1 c w d2 w2 answer t k :
  let s := run_effects ops no_effects in
  begin_effect q now (es_db s) = (d1, Ok c) → cl_created c = true →
  invoke (d1, w) = ((d2, w2), answer) →
  (∃ inner, d2 = es_db (run_effects inner (EffectSystem d1 []))) →
  effect_field (er_tenant q) "tenant_id" = Ok t →
  effect_field (er_key q) "idempotency_key" = Ok k →
  find_effect t k d2 = find_effect t k d1 →
  answer ≠ Err CancelledError →
  ∃ d3, execute invoke q now now' (es_db s, w) =
      ((d3, w2), match answer with Ok v => Ok (Some v) | Err e => Err e end) ∧
    let d4 := es_db (run_effects ops' (EffectSystem d3 [])) in
    execute invoke' q now2 now3 (d4, w2) =
      ((d4, w2), match answer with
                 | Ok v => Ok (Some (effect_value v))
                 | Err _ => Err failed_effect
                 end).
Proof.
  intros s Hbegin Hc Hinvoke [inner Hd2] Ht Hk Hsame Hans.
  pose proof (reachable_unique ops) as Hu. fold s in Hu.
  pose proof (begin_granted _ _ _ _ _ Hbegin Hc) as (t' & k' & o & Ht' & Hk' & Ho & -> & Hn & Hd1).
  rewrite Ht in Ht'. injection Ht' as <-. rewrite Hk in Hk'. injection Hk' as <-.
  set (row := Effect t k o _ Pending None now now) in *.
  assert (row ∈ i_effects d2 ∧ unique ident (i_effects d2)) as [Hr2 Hu2].
  { assert (unique ident (i_effects d1)) as Hu1.
    { rewrite Hd1. eapply effect_change_unique; [by apply change_claim|done]. }
    split; [|rewrite Hd2; by apply run_effects_unique].
    apply (find_effect_Some t k). rewrite Hsame.
    apply (find_effect_in _ row); [done|]. rewrite Hd1. simpl. set_solver. }
  destruct (settle_pending q answer now' d2 row) as (d3 & v & Hset & Hr3 & Hu3 & Hv); [done..|].
  exists d3. split; [by eapply execute_granted|]. intros d4.
  set (row3 := row <| ef_status := _ |> <| ef_result := _ |> <| ef_updated_at := _ |>) in *.
  assert (row3 ∈ i_effects d4) as Hr4.
  { apply (run_effects_settled ops' (EffectSystem d3 []) row3); [done..|]. by destruct answer. }
  unfold execute, on_store, zoom. rewrite run_bind. simpl fst.
  rewrite (claim_settled q now2 d4 row3); [|by apply run_effects_unique|done..].
  change (ef_status row3) with (answer_status answer).
  change (ef_result row3) with (Some (canonical v)).
  destruct answer as [w'|e]; [|done]. cbn [answer_status cl_created cl_result].
  by rewrite (Hv w' eq_refl), effect_value_canonical.
Qed.

Lemma execute_replays_witness :
  let provider : M (idem_db * nat) json := λ s, ((s.1, S s.2), Ok (JStr "sent")) in
  let never : M (idem_db * nat) json := λ s, ((s.1, 100%nat), Ok JNull) in
  ∃ d3, execute provider sample_request 10 11 (empty_effects, O) =
      ((d3, 1%nat), Ok (Some (JStr "sent"))) ∧
    (execute never sample_request 12 13 (d3, 1%nat)).2 =
      Ok (Some (JObj [("value", JStr "sent")])).
Proof.
  intros provider never.
  destruct (begin_effect sample_request 10 empty_effects) as [d1 [c|e]] eqn:E;
    [|by vm_compute in E].
  destruct (execute_replays [] [] provider never sample_request 10 11 12 13 d1 c O d1 1%nat
    (Ok (JStr "sent")) "t" "k") as (d3 & H1 & H2).
  - exact E.
  - vm_compute in E. by injection E as _ <-.
  - reflexivity.
  - by exists [].
  - reflexivity.
  - reflexivity.
  - reflexivity.
  - done.
  - exists d3. split; [exact H1|]. exact (f_equal snd H2).
Defined.
