(* ===== verification/HostConfig.v ===== *)
(** * Host configuration ([host/store.py], [host/models.py])

    The stable host's ownership record and its encrypted, revisioned
    configuration. The cipher is the interface of [Cipher]. *)

From S2P Require Import Prelude Sqlite PyText Sha256 Base64 Json Cipher.
#[local] Open Scope string_scope.
#[local] Open Scope list_scope.
#[local] Open Scope Z_scope.

(** ** Data *)

Inductive config_status := Staged | ActiveConfig | InactiveConfig | FailedConfig.
#[global] Instance config_status_eq_dec : EqDecision config_status.
Proof. solve_decision. Defined.

(** The validated request; the secrets are the texts the [SecretStr] hold. *)
Record config_input := ConfigInput {
  ci_expected : option Z;
  ci_api_key : option string;
  ci_base_url : string;
  ci_model : string;
  ci_telegram_token : option string;
  ci_telegram_user : option Z;
}.

Record host_config := HostConfig {
  cf_revision : Z;
  cf_status : config_status;
  cf_api_key : string;
  cf_base_url : string;
  cf_model : string;
  cf_telegram_token : option string;
  cf_telegram_user : option Z;
  cf_internal_token : string;
  cf_pairing_code : option string;
  cf_created_at : Z;
  cf_error : option string;
}.

Record config_view := ConfigView {
  vw_revision : Z;
  vw_status : config_status;
  vw_base_url : string;
  vw_model : string;
  vw_api_key_configured : bool;
  vw_telegram_configured : bool;
  vw_telegram_user : option Z;
  vw_pairing_required : bool;
  vw_created_at : Z;
  vw_error : option string;
}.

(** An entry of [secrets_json]: nonce and ciphertext in base64. *)
Record sealed := Sealed {
  sl_key_id : string;
  sl_nonce : string;
  sl_ciphertext : string;
}.
Record sealed_secrets := SealedSecrets {
  ss_api_key : option sealed;
  ss_internal : option sealed;
  ss_telegram : option sealed;
  ss_pairing : option sealed;
}.

Record config_row := ConfigRow {
  hc_revision : Z;
  hc_status : config_status;
  hc_base_url : string;
  hc_model : string;
  hc_telegram_user : option Z;
  hc_secrets : sealed_secrets;
  hc_created_at : Z;
  hc_error : option string;
}.

Record auth_row := Auth {
  au_owner_hash : option string;
  au_setup_hash : option string;
  au_updated_at : Z;
}.

(** [h_sequence] is the AUTOINCREMENT counter of [host_config_revisions]. *)
Record host_db := HostDb {
  h_version : option Z;
  h_auth : option auth_row;
  h_configs : list config_row;
  h_sequence : Z;
}.

#[global] Instance config_row_fields : Fields config_row := λ r,
  ConfigRow (hc_revision r) (hc_status r) (hc_base_url r) (hc_model r) (hc_telegram_user r)
    (hc_secrets r) (hc_created_at r) (hc_error r).
#[global] Instance auth_row_fields : Fields auth_row := λ r,
  Auth (au_owner_hash r) (au_setup_hash r) (au_updated_at r).
#[global] Instance host_db_fields : Fields host_db := λ d,
  HostDb (h_version d) (h_auth d) (h_configs d) (h_sequence d).

Definition new_host_db : host_db := HostDb None None [] 0.

(** ** Ownership *)

Definition schema_version : Z := 1.

Definition migrate (now : Z) : M host_db unit :=
  transaction (
    version ← gets h_version;
    unless (match version with Some v => v <=? schema_version | None => true end)
      (HostConfigError "host database uses a newer schema");;
    modify (λ d, d <| h_version := Some schema_version |>);;
    modify (λ d, d <| h_auth :=
      match h_auth d with Some a => Some a | None => Some (Auth None None now) end |>)).

Definition token_hash (value : string) : string := sha256_hex value.

(** Truth of a text column that may be NULL. *)
Definition truthy (s : option string) : bool :=
  match s with Some t => negb (t == "") | None => false end.

Definition configure_setup_token (token : string) (now : Z) : M host_db unit :=
  let value := strip token in
  unless (16 <=? len value) (ValueError "setup token must contain at least 16 characters");;
  modify (λ d, d <| h_auth := a ← h_auth d;
    match au_owner_hash a with
    | None =>
        Some (a <| au_setup_hash := match au_setup_hash a with
                                    | Some h => Some h
                                    | None => Some (token_hash value)
                                    end |> <| au_updated_at := now |>)
    | Some _ => Some a
    end |>).

Definition claimed (d : host_db) : bool :=
  match h_auth d with Some a => truthy (au_owner_hash a) | None => false end.

Definition claim_host (setup_token : option string) (owner_token : string) (now : Z) :
    M host_db unit :=
  let owner := strip owner_token in
  unless (32 <=? len owner) (ValueError "owner token must contain at least 32 characters");;
  transaction (
    row ← gets h_auth;
    match row with
    | None => raise (HostConfigError "host authentication state is missing")
    | Some a =>
        if truthy (au_owner_hash a) then
          unless (Some (token_hash owner) == au_owner_hash a)
            (HostConfigConflictError "host is already claimed")
        else
          unless (truthy (au_setup_hash a)
                  && (Some (token_hash (strip (default "" setup_token))) == au_setup_hash a))
            (PermissionError "invalid setup token");;
          modify (λ d, d <| h_auth := Some (a <| au_owner_hash := Some (token_hash owner) |>
            <| au_setup_hash := None |> <| au_updated_at := now |>) |>)
    end).

Definition authorize_owner (token : option string) (d : host_db) : bool :=
  let value := strip (default "" token) in
  if value == "" then false
  else match h_auth d with
       | Some a => truthy (au_owner_hash a) && (Some (token_hash value) == au_owner_hash a)
       | None => false
       end.

(** ** Secrets *)

Definition associated_data (revision : Z) (name : string) : string :=
  encode ("opentulpa-host-config:" +:+ pretty revision +:+ ":" +:+ name).

Section Store.
Context `{HostKeySecretCipher}.

Definition encrypt_field (revision : Z) (name nonce : string) (value : option string) :
    option sealed :=
  v ← value;
  let e := cipher_encrypt nonce (encode v) (associated_data revision name) in
  Some (Sealed (en_key_id e) (b64encode (en_nonce e)) (b64encode (en_ciphertext e))).

Definition decrypt_field (revision : Z) (name : string) (value : option sealed) :
    outcome (option string) :=
  match value with
  | None => Ok None
  | Some s =>
      match b64decode (sl_nonce s), b64decode (sl_ciphertext s) with
      | Some nonce, Some ciphertext =>
          data ← cipher_decrypt (EncryptedSecret (sl_key_id s) nonce ciphertext)
            (associated_data revision name);
          match decode data with
          | Some t => Ok (Some t)
          | None => Err (ValueError "invalid utf-8")
          end
      | _, _ => Err (HostConfigError "encrypted host configuration is corrupt")
      end
  end.

(** [except (KeyError, ValueError, ..)] of [_decode]. *)
Definition as_corrupt {A} (o : outcome A) : outcome A :=
  match o with
  | Err (ValueError _) | Err (ValidationError _) =>
      Err (HostConfigError "host configuration is corrupt")
  | _ => o
  end.

Definition nonempty (s : option string) : option string := if truthy s then s else None.

Definition decode_row (r : config_row) : outcome host_config :=
  let revision := hc_revision r in
  let s := hc_secrets r in
  api_key ← as_corrupt (decrypt_field revision "api_key" (ss_api_key s));
  internal ← as_corrupt (decrypt_field revision "internal_runtime_token" (ss_internal s));
  telegram ← as_corrupt (decrypt_field revision "telegram_bot_token" (ss_telegram s));
  pairing ← as_corrupt (decrypt_field revision "telegram_pairing_code" (ss_pairing s));
  match nonempty api_key, nonempty internal with
  | Some key, Some token =>
      Ok (HostConfig revision (hc_status r) key (hc_base_url r) (hc_model r)
            (nonempty telegram) (hc_telegram_user r) token (nonempty pairing)
            (hc_created_at r) (hc_error r))
  | _, _ => Err (HostConfigError "host configuration is incomplete")
  end.

(** ** Revisions *)

Definition is_revision (revision : Z) (r : config_row) : bool := hc_revision r =? revision.
Definition has_status (s : config_status) (r : config_row) : bool := hc_status r == s.

Definition active_row (d : host_db) : option config_row :=
  select_one (has_status ActiveConfig) (h_configs d).

Definition decode_found (row : option config_row) : outcome (option host_config) :=
  match row with
  | Some r => c ← decode_row r; Ok (Some c)
  | None => Ok None
  end.

Definition active : M host_db (option host_config) :=
  row ← gets active_row;
  from_outcome (decode_found row).

Definition get (revision : Z) : M host_db (option host_config) :=
  row ← gets (λ d, select_one (is_revision revision) (h_configs d));
  from_outcome (decode_found row).

(** What [stage] draws: the internal token, a pairing code and the nonces. *)
Record stage_random := StageRandom {
  sr_internal : string;
  sr_pairing : string;
  sr_nonce : string → string;
}.

Definition chosen_api_key (value : config_input) (act : option host_config) : option string :=
  match nonempty (ci_api_key value) with
  | Some k => Some k
  | None => cf_api_key <$> act
  end.
Definition chosen_telegram (value : config_input) (act : option host_config) : option string :=
  match ci_telegram_token value with
  | Some t => Some t
  | None => act ≫= cf_telegram_token
  end.
Definition pairing_code (telegram : option string) (user : option Z) (drawn : string) :
    option string :=
  match nonempty telegram, user with
  | Some t, None => Some (last_text 8 t)
  | Some _, Some _ => Some drawn
  | None, _ => None
  end.

Definition seal_secrets (revision : Z) (api_key : string) (telegram : option string)
    (user : option Z) (w : stage_random) : sealed_secrets :=
  let seal name v := encrypt_field revision name (sr_nonce w name) v in
  SealedSecrets (seal "api_key" (Some api_key))
    (seal "internal_runtime_token" (Some (sr_internal w)))
    (seal "telegram_bot_token" telegram)
    (seal "telegram_pairing_code" (pairing_code telegram user (sr_pairing w))).

(** The transaction of [stage], and the configuration it reads back. *)
Definition insert_staged (value : config_input) (telegram : option string) (api_key : string)
    (w : stage_random) (now : Z) : M host_db host_config :=
  let user := ci_telegram_user value in
  revision ← transaction (
    revision ← gets (λ d, h_sequence d + 1);
    modify (λ d, d <| h_sequence := revision |>
      <| h_configs := h_configs d ++ [ConfigRow revision Staged (ci_base_url value)
           (ci_model value) user (SealedSecrets None None None None) now None] |>);;
    modify (λ d, d <| h_configs := update (is_revision revision)
      (λ r, r <| hc_secrets := seal_secrets revision api_key telegram user w |>)
      (h_configs d) |>);;
    mret revision);
  config ← get revision;
  match config with
  | None => raise (HostConfigError "staged configuration disappeared")
  | Some c => mret c
  end.

Definition stage (value : config_input) (w : stage_random) (now : Z) : M host_db host_config :=
  act ← active;
  unless (match act, ci_expected value with None, Some _ => false | _, _ => true end)
    (HostConfigConflictError "no active configuration exists");;
  unless (match act with Some c => ci_expected value == Some (cf_revision c) | None => true end)
    (HostConfigConflictError "active configuration revision changed");;
  match nonempty (chosen_api_key value act) with
  | None => raise (ValueError "api_key is required for the first configuration")
  | Some api_key =>
      let telegram := chosen_telegram value act in
      unless (match telegram, ci_telegram_user value with None, Some _ => false | _, _ => true end)
        (ValueError "Telegram bot token is required when a user ID is configured");;
      insert_staged value telegram api_key w now
  end.
Definition set_status (s : config_status) (r : config_row) : config_row :=
  r <| hc_status := s |>.

Definition activate (revision : Z) : M host_db host_config :=
  transaction (
    row ← gets (λ d, hc_status <$> select_one (is_revision revision) (h_configs d));
    unless (row == Some Staged) (HostConfigConflictError "configuration is not staged");;
    modify (λ d, d <| h_configs :=
      update (has_status ActiveConfig) (set_status InactiveConfig) (h_configs d) |>);;
    modify (λ d, d <| h_configs := update (is_revision revision)
      (λ r, set_status ActiveConfig r <| hc_error := None |>) (h_configs d) |>));;
  config ← get revision;
  match config with
  | None => raise (HostConfigError "activated configuration disappeared")
  | Some c => mret c
  end.

Definition fail_config (revision : Z) (error : string) : M host_db unit :=
  let safe_error :=
    take_text 1000 (strip (if error == "" then "configuration activation failed" else error)) in
  modify (λ d, d <| h_configs := update (λ r, is_revision revision r && has_status Staged r)
    (λ r, set_status FailedConfig r <| hc_error := Some safe_error |>) (h_configs d) |>).

Definition view (c : host_config) : config_view :=
  let has_telegram := negb (cf_telegram_token c == None) in
  ConfigView (cf_revision c) (cf_status c) (cf_base_url c) (cf_model c) true has_telegram
    (cf_telegram_user c) (has_telegram && (cf_telegram_user c == None)) (cf_created_at c)
    (cf_error c).

Definition newest_first (x y : config_row) : bool := hc_revision y <=? hc_revision x.

Definition list_views : M host_db (list config_view) :=
  rows ← gets (λ d, take 20 (order_by newest_first (h_configs d)));
  from_outcome (all_ok ((λ r, c ← decode_row r; Ok (view c)) <$> rows)).
End Store.

(** [HostConfigInput.validate_base_url] *)
Fixpoint rstrip_slash (s : string) : string :=
  match s with
  | EmptyString => EmptyString
  | String c s' =>
      match rstrip_slash s' with
      | EmptyString => if bool_decide (c = "/"%char) then EmptyString else String c EmptyString
      | r => String c r
      end
  end.

Definition validate_base_url (value : string) : outcome string :=
  let normalized := rstrip_slash value in
  if startswith "http://" normalized || startswith "https://" normalized then Ok normalized
  else Err (ValueError "base_url must be an absolute HTTP(S) URL").

(** The bounds of the model's fields. *)
Definition optional_positive (v : option Z) : bool :=
  match v with Some z => 1 <=? z | None => true end.

Definition validate_input (v : config_input) : outcome config_input :=
  let base_url := strip (ci_base_url v) in
  let model := strip (ci_model v) in
  if optional_positive (ci_expected v) && (len base_url <=? 2000)
     && ((1 <=? len model) && (len model <=? 300)) && optional_positive (ci_telegram_user v)
  then url ← validate_base_url base_url;
       Ok (ConfigInput (ci_expected v) (ci_api_key v) url model (ci_telegram_token v)
             (ci_telegram_user v))
  else Err (ValidationError "HostConfigInput").

(** ** Any use of the store *)

Inductive host_op :=
  | OpMigrate (now : Z)
  | OpSetupToken (token : string) (now : Z)
  | OpClaimHost (setup_token : option string) (owner_token : string) (now : Z)
  | OpStage (value : config_input) (w : stage_random) (now : Z)
  | OpActivate (revision : Z)
  | OpFailConfig (revision : Z) (error : string).

Section Runs.
Context `{HostKeySecretCipher}.

Definition run_host_op (d : host_db) (op : host_op) : host_db :=
  match op with
  | OpMigrate now => (migrate now d).1
  | OpSetupToken t now => (configure_setup_token t now d).1
  | OpClaimHost s o now => (claim_host s o now d).1
  | OpStage v w now => (stage v w now d).1
  | OpActivate r => (activate r d).1
  | OpFailConfig r e => (fail_config r e d).1
  end.

Definition run_host (ops : list host_op) (d : host_db) : host_db := foldl run_host_op d ops.

(** A revision's life: staged, then failed, or active and later inactive. *)
Definition status_rank (s : config_status) : Z :=
  match s with Staged => 0 | ActiveConfig => 1 | InactiveConfig => 2 | FailedConfig => 3 end.

Definition may_become (s s' : config_status) : bool :=
  match s, s' with
  | Staged, _ => true
  | ActiveConfig, (ActiveConfig | InactiveConfig) => true
  | InactiveConfig, InactiveConfig | FailedConfig, FailedConfig => true
  | _, _ => false
  end.

(** Every stored revision was allocated, once; at most one is active. *)
Record host_ok (d : host_db) : Prop := {
  ho_revisions : unique hc_revision (h_configs d);
  ho_sequence : 0 ≤ h_sequence d;
  ho_bound : ∀ r, r ∈ h_configs d → 1 ≤ hc_revision r ≤ h_sequence d;
  ho_active : ∀ r r', r ∈ h_configs d → r' ∈ h_configs d →
    hc_status r = ActiveConfig → hc_status r' = ActiveConfig → r = r';
}.

(** What never changes in a revision. *)
Definition config_content (r : config_row) :=
  (hc_revision r, hc_base_url r, hc_model r, hc_telegram_user r, hc_secrets r, hc_created_at r).

Record host_progress (d d' : host_db) : Prop := {
  hp_rows : ∀ r, r ∈ h_configs d → ∃ r', r' ∈ h_configs d' ∧
    config_content r' = config_content r ∧ may_become (hc_status r) (hc_status r') = true;
  hp_owner : ∀ a, h_auth d = Some a → truthy (au_owner_hash a) = true →
    ∃ a', h_auth d' = Some a' ∧ au_owner_hash a' = au_owner_hash a ∧
      (au_setup_hash a = None → au_setup_hash a' = None);
  hp_sequence : h_sequence d ≤ h_sequence d';
}.

Definition host_advance (d d' : host_db) : Prop := host_ok d' ∧ host_progress d d'.

Lemma may_become_trans s s' s'' :
  may_become s s' = true → may_become s' s'' = true → may_become s s'' = true.
Proof. by destruct s, s', s''. Qed.

Lemma may_become_refl s : may_become s s = true.
Proof. by destruct s. Qed.

Lemma host_advance_refl d : host_ok d → host_advance d d.
Proof. split; [done|]. split; [|eauto|done]. intros r Hr. exists r. auto using may_become_refl. Qed.

Lemma host_advance_trans d d' d'' :
  host_advance d d' → host_advance d' d'' → host_advance d d''.
Proof.
  intros [_ [H1 H2 H3]] [Hd [H1' H2' H3']]. split; [done|]. split; [| |lia].
  - intros r Hr. destruct (H1 r Hr) as (r1 & Hr1 & E1 & M1).
    destruct (H1' r1 Hr1) as (r2 & Hr2 & E2 & M2). exists r2.
    split_and!; [done|congruence|by eapply may_become_trans].
  - intros a Ha Ht. destruct (H2 a Ha Ht) as (a1 & Ha1 & E1 & S1).
    destruct (H2' a1 Ha1) as (a2 & Ha2 & E2 & S2); [by rewrite E1|].
    exists a2. split_and!; [done|congruence|auto].
Qed.

(** *** Each operation *)

Lemma same_configs d d' :
  host_ok d → h_configs d' = h_configs d → h_sequence d' = h_sequence d → host_ok d'.
Proof.
  intros [H1 H2 H3 H4] Ec Es. split; rewrite ?Ec, ?Es; done.
Qed.

Lemma auth_only d d' :
  host_ok d → h_configs d' = h_configs d → h_sequence d' = h_sequence d →
  (∀ a, h_auth d = Some a → truthy (au_owner_hash a) = true →
    ∃ a', h_auth d' = Some a' ∧ au_owner_hash a' = au_owner_hash a ∧
      (au_setup_hash a = None → au_setup_hash a' = None)) →
  host_advance d d'.
Proof.
  intros Hd Ec Es Ha. split; [by eapply same_configs|]. split; [|done|lia].
  intros r Hr. exists r. rewrite Ec. auto using may_become_refl.
Qed.

Lemma migrate_advance now d : host_ok d → host_advance d (migrate now d).1.
Proof.
  intros Hd. unfold migrate. rewrite run_transaction. run.
  destruct (match h_version d with Some _ => _ | None => _ end); [|by apply host_advance_refl].
  apply auth_only; [done..|]. simpl. intros a -> _. eauto.
Qed.

Lemma setup_token_advance t now d : host_ok d → host_advance d (configure_setup_token t now d).1.
Proof.
  intros Hd. unfold configure_setup_token. run. destruct (16 <=? _); [|by apply host_advance_refl].
  apply auth_only; [done..|]. simpl. intros a -> Ht. simpl.
  destruct (au_owner_hash a) eqn:E; [|done]. exists a. by rewrite E.
Qed.

Lemma claim_host_advance st o now d : host_ok d → host_advance d (claim_host st o now d).1.
Proof.
  intros Hd. unfold claim_host. run. destruct (32 <=? _); [|by apply host_advance_refl]. run.
  destruct (h_auth d) as [a|] eqn:Ea; [|by apply host_advance_refl].
  destruct (truthy (au_owner_hash a)) eqn:Et.
  - run. destruct (Some _ == _); by apply host_advance_refl.
  - run. destruct (_ && _); [|by apply host_advance_refl].
    apply auth_only; [done..|]. intros a0 Ha0 Ht0. congruence.
Qed.

(** The row a successful insertion adds. *)
Definition staged_row (value : config_input) (telegram : option string) (api_key : string)
    (w : stage_random) (now : Z) (d : host_db) : config_row :=
  let revision := h_sequence d + 1 in
  ConfigRow revision Staged (ci_base_url value) (ci_model value) (ci_telegram_user value)
    (seal_secrets revision api_key telegram (ci_telegram_user value) w) now None.

Definition add_row (r : config_row) (d : host_db) : host_db :=
  d <| h_sequence := hc_revision r |> <| h_configs := h_configs d ++ [r] |>.

Lemma get_run revision d :
  get revision d = (d, decode_found (select_one (is_revision revision) (h_configs d))).
Proof. unfold get. by run. Qed.

Lemma fresh_revision d r : host_ok d → r ∈ h_configs d → is_revision (h_sequence d + 1) r = false.
Proof. intros Hd Hr. apply Z.eqb_neq. pose proof (ho_bound _ Hd r Hr). lia. Qed.

Lemma add_row_select r d :
  host_ok d → hc_revision r = h_sequence d + 1 →
  select_one (is_revision (hc_revision r)) (h_configs (add_row r d)) = Some r.
Proof.
  intros Hd Hr. unfold add_row, modify_field. simpl. rewrite select_one_app.
  rewrite (proj2 (select_one_None _ _)).
  - unfold is_revision. simpl. by rewrite Z.eqb_refl.
  - rewrite Hr. intros r0. by apply fresh_revision.
Qed.

Lemma insert_staged_run value telegram k w now d :
  host_ok d →
  let r := staged_row value telegram k w now d in
  insert_staged value telegram k w now d = (add_row r d, decode_row r).
Proof.
  intros Hd r. unfold insert_staged. rewrite run_bind, run_transaction. run.
  match goal with |- (get ?n ≫= _) ?x = _ => replace x with (add_row r d) end.
  - rewrite run_bind, get_run.
    rewrite (add_row_select r d Hd eq_refl : select_one (is_revision (h_sequence d + 1)) _ = _).
    unfold decode_found. simpl. by destruct (decode_row r).
  - unfold add_row, modify_field. simpl. rewrite update_app.
    rewrite (update_none _ _ (h_configs d)) by (intros; by apply fresh_revision).
    unfold update. simpl. unfold is_revision. simpl. by rewrite Z.eqb_refl.
Qed.

Lemma add_row_advance r d :
  host_ok d → hc_revision r = h_sequence d + 1 → hc_status r = Staged →
  host_advance d (add_row r d).
Proof.
  intros Hd Hr Hs. unfold add_row, modify_field. pose proof (ho_sequence _ Hd).
  split; split; simpl; rewrite ?Hr.
  - apply unique_app; [apply Hd|]. intros r' Hr'. pose proof (ho_bound _ Hd r' Hr'). lia.
  - lia.
  - intros r0 [Hr0| ->%list_elem_of_singleton]%elem_of_app; [|lia].
    pose proof (ho_bound _ Hd r0 Hr0). lia.
  - intros r1 r2 [H1| ->%list_elem_of_singleton]%elem_of_app
      [H2| ->%list_elem_of_singleton]%elem_of_app; [by apply Hd|congruence..].
  - intros r0 Hr0. exists r0. split; [set_solver|]. auto using may_become_refl.
  - eauto.
  - lia.
Qed.

Lemma stage_advance value w now d : host_ok d → host_advance d (stage value w now d).1.
Proof.
  intros Hd. unfold stage, active. rewrite run_bind_assoc, run_gets_bind, run_outcome_bind.
  destruct (decode_found (active_row d)) as [act|e]; [|by apply host_advance_refl].
  rewrite !run_unless_bind.
  destruct (match act with Some _ => true | None => _ end); [|by apply host_advance_refl].
  destruct (match act with Some _ => _ | None => _ end); [|by apply host_advance_refl].
  destruct (nonempty _) as [k|]; [|by apply host_advance_refl].
  rewrite run_unless_bind. destruct (match chosen_telegram _ _ with Some _ => _ | None => _ end);
    [|by apply host_advance_refl].
  rewrite insert_staged_run by done. by apply add_row_advance.
Qed.

(** Statements that only move statuses along. *)
Lemma update_progress p f d :
  host_ok d →
  (∀ r, r ∈ h_configs d → p r = true →
    config_content (f r) = config_content r ∧ may_become (hc_status r) (hc_status (f r)) = true) →
  host_progress d (d <| h_configs := update p f (h_configs d) |>).
Proof.
  intros Hd Hf. split; unfold modify_field; simpl; [|eauto|lia].
  intros r Hr. eexists. split; [apply elem_of_update; by eauto|].
  destruct (p r) eqn:E; [by apply Hf|]. auto using may_become_refl.
Qed.

Lemma update_ok p f d :
  host_ok d →
  (∀ r, r ∈ h_configs d → p r = true → config_content (f r) = config_content r) →
  (∀ r r', r ∈ h_configs d → r' ∈ h_configs d →
    hc_status (if p r then f r else r) = ActiveConfig →
    hc_status (if p r' then f r' else r') = ActiveConfig → r = r') →
  host_ok (d <| h_configs := update p f (h_configs d) |>).
Proof.
  intros Hd Hf Ha. split; unfold modify_field; simpl.
  - unfold unique. rewrite (fmap_update hc_revision); [apply Hd|].
    intros r Hr Hp. specialize (Hf r Hr Hp). unfold config_content in Hf. congruence.
  - apply Hd.
  - intros r (r0 & Hr0 & ->)%elem_of_update. pose proof (ho_bound _ Hd r0 Hr0).
    destruct (p r0) eqn:E; [|done]. specialize (Hf r0 Hr0 E).
    unfold config_content in Hf. injection Hf as -> _. done.
  - intros r r' (r0 & Hr0 & ->)%elem_of_update (r0' & Hr0' & ->)%elem_of_update H1 H2.
    by rewrite (Ha r0 r0' Hr0 Hr0' H1 H2).
Qed.

Lemma fail_config_advance rev e d : host_ok d → host_advance d (fail_config rev e d).1.
Proof.
  intros Hd. unfold fail_config. run. simpl. split.
  - apply update_ok; [done..|]. intros r r' Hr Hr'.
    destruct (_ && _); [done|]. destruct (_ && _); [done|]. by apply Hd.
  - apply update_progress; [done|]. intros r _ [_ Hs%bool_decide_eq_true]%andb_true_iff.
    by rewrite Hs.
Qed.

Definition activated (rev : Z) (d : host_db) : host_db :=
  let l := update (has_status ActiveConfig) (set_status InactiveConfig) (h_configs d) in
  d <| h_configs := l |>
    <| h_configs := update (is_revision rev) (λ r, set_status ActiveConfig r <| hc_error := None |>) l |>.

Lemma is_revision_true rev r : is_revision rev r = true ↔ hc_revision r = rev.
Proof. apply Z.eqb_eq. Qed.

Lemma activated_advance rev d r :
  host_ok d → select_one (is_revision rev) (h_configs d) = Some r → hc_status r = Staged →
  host_advance d (activated rev d).
Proof.
  intros Hd Hsel Hs. apply select_one_Some in Hsel as [Hr Hrev%is_revision_true].
  set (d1 := d <| h_configs :=
    update (has_status ActiveConfig) (set_status InactiveConfig) (h_configs d) |>).
  assert (host_advance d d1) as [Hd1 Hp1].
  { split.
    - apply update_ok; [done..|]. intros r1 r2 Hr1 Hr2. unfold has_status.
      case_bool_decide; [done|]. congruence.
    - apply update_progress; [done|]. intros r1 _ E%bool_decide_eq_true. by rewrite E. }
  assert (∀ r1, r1 ∈ h_configs d1 → is_revision rev r1 = true → r1 = r) as Huniq.
  { intros r1 (r0 & Hr0 & ->)%elem_of_update.
    destruct (has_status ActiveConfig r0) eqn:E; intros E'%is_revision_true.
    - apply bool_decide_eq_true in E. exfalso.
      assert (r0 = r) as -> by (apply (unique_eq hc_revision (h_configs d)); [apply Hd|done..|];
        unfold set_status, modify_field in E'; simpl in E'; congruence). congruence.
    - apply (unique_eq hc_revision (h_configs d)); [apply Hd|done..|congruence]. }
  assert (∀ r1, r1 ∈ h_configs d1 → hc_status r1 ≠ ActiveConfig) as Hnone.
  { intros r1 (r0 & Hr0 & ->)%elem_of_update. unfold has_status.
    case_bool_decide; [done|]. congruence. }
  eapply host_advance_trans; [by split|]. change (activated rev d) with
    (d1 <| h_configs := update (is_revision rev)
      (λ r, set_status ActiveConfig r <| hc_error := None |>) (h_configs d1) |>). split.
  - apply update_ok; [done..|]. intros r1 r2 Hr1 Hr2.
    destruct (is_revision rev r1) eqn:E1; [|intros Hx; by destruct (Hnone r1 Hr1 Hx)].
    destruct (is_revision rev r2) eqn:E2; [|intros _ Hx; by destruct (Hnone r2 Hr2 Hx)].
    intros _ _. by rewrite (Huniq r1), (Huniq r2).
  - apply update_progress; [done|]. intros r1 Hr1 E. rewrite (Huniq r1 Hr1 E), Hs. done.
Qed.

Lemma activate_config_run rev d :
  activate rev d =
    if (hc_status <$> select_one (is_revision rev) (h_configs d)) == Some Staged then
      (activated rev d,
       match decode_found (select_one (is_revision rev) (h_configs (activated rev d))) with
       | Ok (Some c) => Ok c
       | Ok None => Err (HostConfigError "activated configuration disappeared")
       | Err e => Err e
       end)
    else (d, Err (HostConfigConflictError "configuration is not staged")).
Proof.
  unfold activate. rewrite run_bind, run_transaction, run_gets_bind, run_unless_bind.
  destruct (_ == Some Staged); [|done]. run. rewrite run_bind.
  match goal with |- context [get rev ?x] => change x with (activated rev d) end.
  rewrite get_run. by destruct (decode_found _) as [[c|]|e].
Qed.

Lemma activate_advance rev d : host_ok d → host_advance d (activate rev d).1.
Proof.
  intros Hd. rewrite activate_config_run. case_bool_decide as E; [|by apply host_advance_refl].
  destruct (select_one _ _) as [r|] eqn:Er; [|done]. injection E as E.
  by apply (activated_advance rev d r).
Qed.

Lemma run_host_op_advance op d : host_ok d → host_advance d (run_host_op d op).
Proof.
  destruct op; simpl; [apply migrate_advance|apply setup_token_advance|apply claim_host_advance
    |apply stage_advance|apply activate_advance|apply fail_config_advance].
Qed.

Lemma run_host_advance ops d : host_ok d → host_advance d (run_host ops d).
Proof.
  revert d. induction ops as [|op ops IH]; intros d Hd; simpl; [by apply host_advance_refl|].
  pose proof (run_host_op_advance op d Hd) as H1. eapply host_advance_trans; [exact H1|].
  apply IH, H1.
Qed.

Lemma new_host_db_ok : host_ok new_host_db.
Proof. split; simpl; [apply NoDup_nil_2|lia|set_solver..]. Qed.

Lemma host_reachable ops : host_ok (run_host ops new_host_db).
Proof. apply run_host_advance, new_host_db_ok. Qed.
End Runs.

(** ** Reading back what was sealed *)

Section Properties.
Context {C : HostKeySecretCipher} {Hlaws : CipherLaws C}.

Lemma decrypt_encrypt revision name nonce v :
  decrypt_field revision name (encrypt_field revision name nonce v) = Ok v.
Proof.
  destruct v as [t|]; [|done]. unfold decrypt_field, encrypt_field. simpl.
  rewrite !b64_round_trip. simpl.
  destruct (cipher_encrypt nonce (encode t) (associated_data revision name)) as [k n c] eqn:E.
  simpl. rewrite <- E, cipher_round_trip. simpl. by rewrite utf8_round_trip.
Qed.

Lemma decode_staged value telegram k w now d :
  k ≠ "" → sr_internal w ≠ "" →
  decode_row (staged_row value telegram k w now d) =
    Ok (HostConfig (h_sequence d + 1) Staged k (ci_base_url value) (ci_model value)
          (nonempty telegram) (ci_telegram_user value) (sr_internal w)
          (nonempty (pairing_code telegram (ci_telegram_user value) (sr_pairing w))) now None).
Proof.
  intros Hk Hi. unfold decode_row, staged_row, seal_secrets. cbn [hc_secrets hc_revision
    ss_api_key ss_internal ss_telegram ss_pairing].
  rewrite !decrypt_encrypt. simpl. unfold nonempty at 1 2, truthy.
  by rewrite !bool_decide_eq_false_2.
Qed.

Lemma nonempty_Some s k : nonempty s = Some k → k ≠ "".
Proof.
  unfold nonempty, truthy. destruct s as [t|]; [|done].
  case_bool_decide; simpl; [done|]. by intros [= <-].
Qed.

Definition stage_refused (value : config_input) (act : option host_config) : option exn :=
  match act, ci_expected value with
  | None, Some _ => Some (HostConfigConflictError "no active configuration exists")
  | Some c, e =>
      if e == Some (cf_revision c) then None
      else Some (HostConfigConflictError "active configuration revision changed")
  | None, None => None
  end.

Lemma active_run d : active d = (d, decode_found (active_row d)).
Proof. unfold active. by run. Qed.

(** C39: staging a configuration is optimistic and loses nothing: an edit
    based on another revision than the active one, a first configuration
    without key and a Telegram user without token are refused and store
    nothing; otherwise one new revision is staged, the others are untouched,
    and reading it back through the cipher gives exactly the submitted
    values, with the key and the bot token of the active revision where the
    request leaves them out. *)
Theorem stage_round_trip ops value w now act :
  let d := run_host ops new_host_db in
  (active d).2 = Ok act → sr_internal w ≠ "" →
  stage value w now d =
    match stage_refused value act, nonempty (chosen_api_key value act),
          chosen_telegram value act, ci_telegram_user value with
    | Some e, _, _, _ => (d, Err e)
    | None, None, _, _ => (d, Err (ValueError "api_key is required for the first configuration"))
    | None, Some _, None, Some _ => (d, Err (ValueError
        "Telegram bot token is required when a user ID is configured"))
    | None, Some k, telegram, user =>
        (add_row (staged_row value telegram k w now d) d,
         Ok (HostConfig (h_sequence d + 1) Staged k (ci_base_url value) (ci_model value)
               (nonempty telegram) user (sr_internal w)
               (nonempty (pairing_code telegram user (sr_pairing w))) now None))
    end.
Proof.
  intros d Hact Hi. pose proof (host_reachable ops) as Hd. fold d in Hd.
  rewrite active_run in Hact. cbn [snd] in Hact.
  unfold stage. rewrite run_bind, active_run, Hact, !run_unless_bind.
  assert (∀ k telegram, nonempty (chosen_api_key value act) = Some k →
    insert_staged value telegram k w now d =
      (add_row (staged_row value telegram k w now d) d,
       Ok (HostConfig (h_sequence d + 1) Staged k (ci_base_url value) (ci_model value)
             (nonempty telegram) (ci_telegram_user value) (sr_internal w)
             (nonempty (pairing_code telegram (ci_telegram_user value) (sr_pairing w)))
             now None))) as Hins.
  { intros k telegram Hk. rewrite insert_staged_run by done.
    by rewrite decode_staged by eauto using nonempty_Some. }
  unfold stage_refused.
  destruct act as [c|], (ci_expected value) as [e|]; try done.
  1: case_bool_decide; [|done].
  all: destruct (nonempty _) as [k|] eqn:Ek; [|done].
  all: rewrite run_unless_bind.
  all: destruct (chosen_telegram value _) as [t|] eqn:Et, (ci_telegram_user value) eqn:Eu; try done.
  all: rewrite Hins by done; by rewrite ?Eu.
Qed.

(** Whatever the host is asked, revisions are numbered uniquely up to the
    counter and at most one configuration is active. *)
Theorem host_invariant ops : host_ok (run_host ops new_host_db).
Proof. apply host_reachable. Qed.

Lemma active_row_in d r : host_ok d → r ∈ h_configs d → hc_status r = ActiveConfig →
  active_row d = Some r.
Proof.
  intros Hd Hr Hs. destruct (active_row d) as [r'|] eqn:E.
  - apply select_one_Some in E as [Hr' Hs'%bool_decide_eq_true]. f_equal. by apply Hd.
  - eapply select_one_None in E; [|exact Hr]. by apply bool_decide_eq_false in E.
Qed.

Lemma activated_row rev d r :
  host_ok d → r ∈ h_configs d → hc_revision r = rev → hc_status r = Staged →
  (set_status ActiveConfig r <| hc_error := None |>) ∈ h_configs (activated rev d).
Proof.
  intros Hd Hr Hrev Hs. unfold activated, modify_field. simpl. apply elem_of_update. exists r.
  rewrite (proj2 (is_revision_true rev r)) by done. split; [|done].
  apply elem_of_update. exists r. split; [done|]. unfold has_status. by rewrite Hs.
Qed.

(** Activation switches configurations in one step: a staged revision
    becomes the one active configuration and its predecessor inactive for
    good, while a revision that is active, was active or failed is refused
    (so no old configuration comes back, now or later) and nothing changes. *)
Theorem activate_switches ops ops' rev r :
  let d := run_host ops new_host_db in
  r ∈ h_configs d → hc_revision r = rev →
  if hc_status r == Staged then
    active_row (activate rev d).1 = Some (set_status ActiveConfig r <| hc_error := None |>) ∧
    ∀ old, active_row d = Some old →
      ∃ old', old' ∈ h_configs (run_host ops' (activate rev d).1) ∧
        config_content old' = config_content old ∧ hc_status old' = InactiveConfig
  else
    activate rev (run_host ops' d) =
      (run_host ops' d, Err (HostConfigConflictError "configuration is not staged")).
Proof.
  intros d Hr Hrev. pose proof (host_reachable ops) as Hd. fold d in Hd.
  pose proof (host_reachable (ops ++ ops')) as Hd'.
  assert (∀ d r, host_ok d → r ∈ h_configs d → hc_revision r = rev →
    select_one (is_revision rev) (h_configs d) = Some r) as Hsel.
  { clear. intros d r Hd Hr Hrev. destruct (select_one _ _) as [r'|] eqn:E.
    - apply select_one_Some in E as [Hr' Hrev'%is_revision_true]. f_equal.
      apply (unique_eq hc_revision (h_configs d)); [apply Hd|done..|congruence].
    - eapply select_one_None in E; [|exact Hr]. by rewrite (proj2 (is_revision_true rev r)) in E. }
  case_bool_decide as Hs.
  - pose proof (activated_advance rev d r Hd (Hsel d r Hd Hr Hrev) Hs) as [Hd1 _].
    pose proof (activated_row rev d r Hd Hr Hrev Hs) as Hr1.
    rewrite activate_config_run, (Hsel d r Hd Hr Hrev). simpl (_ <$> _).
    rewrite Hs, bool_decide_eq_true_2 by done. cbn [fst].
    split; [by apply active_row_in|]. intros old Hold.
    apply select_one_Some in Hold as [Hold Hact%bool_decide_eq_true].
    assert (set_status InactiveConfig old ∈ h_configs (activated rev d)) as Hold1.
    { unfold activated, modify_field. simpl. apply elem_of_update.
      exists (set_status InactiveConfig old). split.
      - apply elem_of_update. exists old. unfold has_status. by rewrite Hact, bool_decide_eq_true_2.
      - destruct (is_revision rev _) eqn:E; [|done]. apply is_revision_true in E.
        assert (old = r) as -> by (apply (unique_eq hc_revision (h_configs d)); [apply Hd|done..|];
          unfold set_status, modify_field in E; simpl in E; congruence). congruence. }
    destruct (run_host_advance ops' _ Hd1) as [_ [Hrows _ _]].
    destruct (Hrows _ Hold1) as (old' & Hold' & Hcont & Hbec). exists old'.
    split_and!; [done| |by destruct (hc_status old')]. by rewrite Hcont.
  - destruct (run_host_advance ops' d Hd) as [Hd2 [Hrows _ _]].
    destruct (Hrows r Hr) as (r' & Hr' & Hcont & Hbec).
    assert (hc_revision r' = rev) as Hrev' by (unfold config_content in Hcont; congruence).
    rewrite activate_config_run, (Hsel _ r' Hd2 Hr' Hrev'). simpl (_ <$> _).
    rewrite bool_decide_eq_false_2; [done|]. intros [= Hs']. rewrite Hs' in Hbec.
    by destruct (hc_status r).
Qed.

Lemma some_same (a b : string) : bool_decide (Some a = Some b) = bool_decide (a = b).
Proof. apply bool_decide_ext. split; [by intros [= ->]|by intros ->]. Qed.

Lemma truthy_hash s : truthy (Some (token_hash s)) = true.
Proof.
  unfold truthy, token_hash. rewrite bool_decide_eq_false_2; [done|].
  intros H. apply (f_equal String.length) in H. by rewrite length_sha256_hex in H.
Qed.

(** The host has one owner: once a claim has succeeded, whatever happens
    next, exactly the tokens with the claiming token's digest authorize, a
    repeated claim with such a token is a no-op, and a claim with any other
    is refused whatever setup token it brings, the consumed one included. *)
Theorem owner_is_final ops ops' st o now st' o' now' d1 tok :
  claim_host st o now (run_host ops new_host_db) = (d1, Ok tt) →
  claimed (run_host ops new_host_db) = false →
  let d2 := run_host ops' d1 in
  authorize_owner tok d2 =
    negb (strip (default "" tok) == "") &&
    (token_hash (strip (default "" tok)) == token_hash (strip o)) ∧
  claim_host st' o' now' d2 =
    (d2, if 32 <=? len (strip o') then
           if token_hash (strip o') == token_hash (strip o) then Ok tt
           else Err (HostConfigConflictError "host is already claimed")
         else Err (ValueError "owner token must contain at least 32 characters")).
Proof.
  intros Hclaim Hun d2. pose proof (host_reachable ops) as Hd.
  set (d := run_host ops new_host_db) in *.
  assert (∃ a, h_auth d1 = Some a ∧ au_owner_hash a = Some (token_hash (strip o))) as (a & Ha & Ho).
  { revert Hclaim. unfold claim_host. run. destruct (32 <=? _); [|done]. run.
    unfold claimed in Hun. destruct (h_auth d) as [a|]; [|done]. rewrite Hun. run.
    destruct (_ && _); [|done]. intros [= <-]. simpl. by eexists. }
  pose proof (claim_host_advance st o now d Hd) as [Hd1 _]. rewrite Hclaim in Hd1.
  destruct (run_host_advance ops' d1 Hd1) as [_ [_ Howner _]]. fold d2 in Howner.
  destruct (Howner a Ha) as (a2 & Ha2 & Ho2 & _); [by rewrite Ho; apply truthy_hash|].
  rewrite Ho in Ho2. split.
  - unfold authorize_owner. rewrite Ha2, Ho2, truthy_hash.
    rewrite some_same. by case_bool_decide.
  - unfold claim_host. run. destruct (32 <=? len (strip o')); [|done]. run.
    rewrite Ha2, Ho2, truthy_hash. run. rewrite some_same. by case_bool_decide.
Qed.
End Properties.

(** ** The theorems at concrete inputs *)

Definition sample_input : config_input :=
  ConfigInput None (Some "sk-1") "https://openrouter.ai/api/v1" "m" (Some "12345:telegram")
    None.
Definition sample_random : stage_random := StageRandom "internal" "pair" (λ n, n).

Lemma stage_round_trip_witness :
  (stage (H := sample_cipher) sample_input sample_random 7 new_host_db).2 =
    Ok (HostConfig 1 Staged "sk-1" "https://openrouter.ai/api/v1" "m" (Some "12345:telegram")
          None "internal" (Some "telegram") 7 None).
Proof.
  pose proof (stage_round_trip (C := sample_cipher) [] sample_input sample_random 7 None) as H.
  cbv zeta in H. etransitivity; [refine (f_equal snd (H eq_refl _)); done|]. reflexivity.
Defined.

Definition sample_host : list host_op :=
  [OpMigrate 1; OpStage sample_input sample_random 7].

Lemma activate_switches_witness :
  ∃ r, hc_revision r = 1 ∧
    active_row (activate (H := sample_cipher) 1
      (run_host (H := sample_cipher) sample_host new_host_db)).1 = Some r.
Proof.
  destruct (select_one (is_revision 1)
    (h_configs (run_host (H := sample_cipher) sample_host new_host_db))) as [r|] eqn:E;
    [|by vm_compute in E].
  pose proof E as Er. apply select_one_Some in Er as [Hr Hrev%is_revision_true].
  pose proof (activate_switches (C := sample_cipher) sample_host [] 1 r Hr Hrev) as H.
  cbv zeta in H.
  assert (hc_status r = Staged) as Hs by (vm_compute in E; by injection E as <-).
  rewrite Hs, bool_decide_eq_true_2 in H by done. destruct H as [H _].
  eexists. split; [|exact H]. exact Hrev.
Defined.

Definition sample_owner : string := "0123456789abcdef0123456789abcdef".
Definition sample_claim : list host_op := [OpMigrate 1; OpSetupToken "0123456789abcdef" 2].

Lemma owner_is_final_witness :
  let d := run_host (H := sample_cipher) sample_claim new_host_db in
  let d1 := (claim_host (Some "0123456789abcdef") sample_owner 3 d).1 in
  authorize_owner (Some "guess") (run_host (H := sample_cipher) [OpSetupToken "0123456789abcdef" 4] d1)
    = false.
Proof.
  intros d d1.
  assert (claim_host (Some "0123456789abcdef") sample_owner 3 d = (d1, Ok tt)) as Hc
    by (vm_compute; reflexivity).
  assert (claimed d = false) as Hu by (vm_compute; reflexivity).
  destruct (owner_is_final (C := sample_cipher) sample_claim
    [OpSetupToken "0123456789abcdef" 4] (Some "0123456789abcdef") sample_owner 3
    None sample_owner 5 d1 (Some "guess") Hc Hu) as [H _].
  cbv zeta in H. etransitivity; [exact H|]. vm_compute. reflexivity.
Defined.
