(* ===== verification/Vault.v ===== *)
(** * The secret vault ([secrets/vault.py], [secrets/models.py], [secrets/service.py])

    Append-only secret revisions with a current reference, one-time grants that
    release a value to a capability, redaction of every stored value, and the
    service in front of it. Values are sealed by the cipher of [Cipher]. *)

From S2P Require Import Prelude Sqlite PyText Sha256 Base64 Json Protocol Cipher Redaction.
#[local] Open Scope string_scope.
#[local] Open Scope list_scope.
#[local] Open Scope Z_scope.

(** ** Models *)

Inductive secret_state := SecretPending | SecretActive | SecretRevoked.
#[global] Instance secret_state_eq_dec : EqDecision secret_state.
Proof. solve_decision. Defined.

Definition state_text (s : secret_state) : string :=
  match s with SecretPending => "pending" | SecretActive => "active" | SecretRevoked => "revoked" end.

Record secret_handle := SecretHandle {
  sh_tenant : string;
  sh_id : string;
  sh_revision : Z;
  sh_name : string;
  sh_state : secret_state;
  sh_scopes : list string;
  sh_created_at : Z;
  sh_created_by : string;
}.

Definition validate_handle (h : secret_handle) : outcome secret_handle :=
  match protocol_id (sh_tenant h), slug (sh_id h), slug (sh_name h), scopes_field (sh_scopes h),
        protocol_id (sh_created_by h) with
  | Some t, Some i, Some n, Some l, Some b =>
      if 1 <=? sh_revision h
      then Ok (SecretHandle t i (sh_revision h) n (sh_state h) l (sh_created_at h) b)
      else Err (ValidationError "SecretHandle")
  | _, _, _, _, _ => Err (ValidationError "SecretHandle")
  end.

Record grant_receipt := GrantReceipt {
  gr_id : string;
  gr_tenant : string;
  gr_secret : string;
  gr_revision : Z;
  gr_capability : string;
  gr_scopes : list string;
  gr_expires_at : Z;
}.

Definition validate_receipt (g : grant_receipt) : outcome grant_receipt :=
  match slug (gr_id g), protocol_id (gr_tenant g), slug (gr_secret g), slug (gr_capability g),
        scopes_field (gr_scopes g) with
  | Some i, Some t, Some s, Some c, Some l =>
      if 1 <=? gr_revision g
      then Ok (GrantReceipt i t s (gr_revision g) c l (gr_expires_at g))
      else Err (ValidationError "SecretGrantReceipt")
  | _, _, _, _, _ => Err (ValidationError "SecretGrantReceipt")
  end.

Record issued_grant := IssuedGrant { ig_receipt : grant_receipt; ig_token : string }.

Record secret_material := SecretMaterial {
  sm_grant : string;
  sm_secret : string;
  sm_name : string;
  sm_scope : string;
  sm_value : string;
}.

Definition validate_material (m : secret_material) : outcome secret_material :=
  match slug (sm_grant m), slug (sm_secret m), slug (sm_name m), secret_scope (sm_scope m) with
  | Some g, Some s, Some n, Some c => Ok (SecretMaterial g s n c (sm_value m))
  | _, _, _, _ => Err (ValidationError "SecretMaterial")
  end.

(** ** Tables *)

(** The [key_id], [nonce] and [ciphertext] columns are null together. *)
Record secret_row := SecretRow {
  sr_handle : secret_handle;
  sr_sealed : option encrypted_secret;
}.
Definition sr_tenant (r : secret_row) : string := sh_tenant (sr_handle r).
Definition sr_id (r : secret_row) : string := sh_id (sr_handle r).
Definition sr_revision (r : secret_row) : Z := sh_revision (sr_handle r).
Definition sr_state (r : secret_row) : secret_state := sh_state (sr_handle r).

Record current_ref := CurrentRef {
  cr_tenant : string;
  cr_id : string;
  cr_revision : Z;
  cr_updated_at : Z;
  cr_updated_by : string;
}.

Record grant_row := GrantRow {
  gw_receipt : grant_receipt;
  gw_token_hash : string;
  gw_created_at : Z;
  gw_consumed_at : option Z;
}.
#[global] Instance grant_row_fields : Fields grant_row := λ g,
  GrantRow (gw_receipt g) (gw_token_hash g) (gw_created_at g) (gw_consumed_at g).
Definition gw_id (g : grant_row) : string := gr_id (gw_receipt g).

Record vault_db := VaultDb {
  vt_revisions : list secret_row;
  vt_current : list current_ref;
  vt_grants : list grant_row;
}.
#[global] Instance vault_db_fields : Fields vault_db := λ d,
  VaultDb (vt_revisions d) (vt_current d) (vt_grants d).
Definition no_secrets : vault_db := VaultDb [] [] [].

Definition revision_clash (r r' : secret_row) : bool :=
  (sr_tenant r' == sr_tenant r) && (sr_id r' == sr_id r) && (sr_revision r' =? sr_revision r).
Definition ref_clash (c c' : current_ref) : bool :=
  (cr_tenant c' == cr_tenant c) && (cr_id c' == cr_id c).
Definition grant_clash (g g' : grant_row) : bool :=
  (gw_id g' == gw_id g) || (gw_token_hash g' == gw_token_hash g).

Definition of_secret (t i : string) (c : current_ref) : bool := (cr_tenant c == t) && (cr_id c == i).
Definition at_ref (t i : string) (n : Z) (r : secret_row) : bool :=
  (sr_tenant r == t) && (sr_id r == i) && (sr_revision r =? n).

(** The row a current reference joins with. *)
Definition joined (d : vault_db) (c : current_ref) : option secret_row :=
  select_one (at_ref (cr_tenant c) (cr_id c) (cr_revision c)) (vt_revisions d).
Definition find_current (t i : string) (d : vault_db) : option secret_row :=
  c ← select_one (of_secret t i) (vt_current d); joined d c.

(** ** Pieces *)

Definition row_handle (r : secret_row) : outcome secret_handle := validate_handle (sr_handle r).

(** [_scopes] *)
Definition clean_scopes (l : list string) : outcome (list string) :=
  let scopes := map strip l in
  if (match scopes with [] => true | _ => false end) || existsb (λ s, s == "") scopes
  then Err (ValueError "at least one non-empty secret scope is required")
  else if bool_decide (NoDup scopes) then Ok scopes
  else Err (ValueError "secret scopes must be unique").

Definition nul : string := String (ascii_of_N 0) EmptyString.
(** [_aad] *)
Definition secret_aad (tenant id : string) (revision : Z) (name : string) : string :=
  encode (join_text nul ["opentulpa-secret-v1"; tenant; id; pretty revision; name]).

(** [_clean_value] *)
Definition clean_value (value : string) : outcome string :=
  let encoded := encode value in
  if encoded == "" then Err (ValueError "secret value must not be empty")
  else if 1048576 <? len encoded then Err (ValueError "secret value must be at most 1 MiB")
  else Ok encoded.

Definition decoded (bytes : string) : outcome string :=
  match decode bytes with
  | Some s => Ok s
  | None => Err (OtherException "UnicodeDecodeError" "utf-8")
  end.

Definition missing_columns : exn := TypeError "cannot convert 'NoneType' object to bytes".
Definition integrity : exn := IntegrityError "UNIQUE constraint failed".

Definition insert_secret (r : secret_row) : M vault_db unit :=
  try_modify (λ d, t ← insert_row revision_clash r (vt_revisions d); Some (d <| vt_revisions := t |>))
    integrity.
Definition insert_ref (c : current_ref) : M vault_db unit :=
  try_modify (λ d, t ← insert_row ref_clash c (vt_current d); Some (d <| vt_current := t |>)) integrity.
Definition insert_grant (g : grant_row) : M vault_db unit :=
  try_modify (λ d, t ← insert_row grant_clash g (vt_grants d); Some (d <| vt_grants := t |>)) integrity.

(** [_current_row] *)
Definition current_row (t i : string) : M vault_db secret_row :=
  row ← gets (find_current t i);
  match row with
  | None => raise (SecretVaultNotFoundError i)
  | Some r => mret r
  end.

(** [_advance_current_ref] *)
Definition advance_current_ref (h : secret_handle) (expected now : Z) (updated_by : string) :
    M vault_db unit :=
  let mine c := of_secret (sh_tenant h) (sh_id h) c && (cr_revision c =? expected) in
  count ← gets (λ d, rowcount mine (vt_current d));
  modify (λ d, d <| vt_current := update mine
    (λ c, CurrentRef (cr_tenant c) (cr_id c) (sh_revision h) now updated_by) (vt_current d) |>);;
  unless (count =? 1)%nat (SecretVaultConflictError "secret changed during revision transition").

(** ** The vault *)

Section Operations.
Context {C : HostKeySecretCipher}.

(** [fresh_id] is what [new_short_id] draws. *)
Definition create_pending (tenant name : string) (scopes : list string) (created_by : string)
    (secret_id : option string) (fresh_id : string) (now : Z) : M vault_db secret_handle :=
  let given := strip (default "" secret_id) in
  let id := if given == "" then fresh_id else given in
  clean ← from_outcome (clean_scopes scopes);
  h ← from_outcome (validate_handle (SecretHandle tenant id 1 name SecretPending clean now created_by));
  transaction (
    exists_ ← gets (λ d, exists_row (of_secret (sh_tenant h) (sh_id h)) (vt_current d));
    unless (negb exists_) (SecretVaultConflictError "secret handle already exists");;
    insert_secret (SecretRow h None);;
    insert_ref (CurrentRef (sh_tenant h) (sh_id h) 1 (sh_created_at h) (sh_created_by h));;
    mret h).

Definition get_handle (tenant id : string) : M vault_db (option secret_handle) :=
  row ← gets (find_current tenant id);
  match row with
  | None => mret None
  | Some r => h ← from_outcome (row_handle r); mret (Some h)
  end.

Definition by_name (x y : secret_row) : bool :=
  let nx := sh_name (sr_handle x) in let ny := sh_name (sr_handle y) in
  if nx == ny then text_le (sr_id x) (sr_id y) else text_le nx ny.
Definition list_handles (tenant : string) : M vault_db (list secret_handle) :=
  rows ← gets (λ d, order_by by_name
    (omap (joined d) (select (λ c, cr_tenant c == tenant) (vt_current d))));
  from_outcome (all_ok (map row_handle rows)).

(** [_write_active_revision]; [nonce] is what the cipher draws. *)
Definition write_active_revision (tenant id : string) (expected : Z) (expected_state : secret_state)
    (value : string) (scopes : option (list string)) (updated_by nonce : string) (now : Z) :
    M vault_db secret_handle :=
  plaintext ← from_outcome (clean_value value);
  transaction (
    current ← current_row tenant id;
    h ← from_outcome (row_handle current);
    unless (sh_revision h =? expected)
      (SecretVaultConflictError ("secret revision is " +:+ pretty (sh_revision h)
         +:+ ", expected " +:+ pretty expected));;
    unless (sh_state h == expected_state)
      (SecretVaultConflictError ("secret must be " +:+ state_text expected_state
         +:+ " for this operation"));;
    let revision := sh_revision h + 1 in
    let next_scopes := match scopes with Some (s :: l) => s :: l | _ => sh_scopes h end in
    let sealed := cipher_encrypt nonce plaintext
      (secret_aad (sh_tenant h) (sh_id h) revision (sh_name h)) in
    next ← from_outcome (validate_handle (SecretHandle (sh_tenant h) (sh_id h) revision (sh_name h)
      SecretActive next_scopes now updated_by));
    insert_secret (SecretRow next (Some sealed));;
    advance_current_ref next (sh_revision h) now updated_by;;
    mret next).

Definition fulfill (tenant id : string) (expected : Z) (value updated_by nonce : string) (now : Z) :
    M vault_db secret_handle :=
  write_active_revision tenant id expected SecretPending value None updated_by nonce now.

Definition rotate (tenant id : string) (expected : Z) (value updated_by : string)
    (scopes : option (list string)) (nonce : string) (now : Z) : M vault_db secret_handle :=
  clean ← from_outcome (match scopes with
                        | Some l => c ← clean_scopes l; Ok (Some c)
                        | None => Ok None
                        end);
  write_active_revision tenant id expected SecretActive value clean updated_by nonce now.

Definition revoke (tenant id : string) (expected : Z) (updated_by : string) (now : Z) :
    M vault_db secret_handle :=
  transaction (
    current ← current_row tenant id;
    h ← from_outcome (row_handle current);
    unless (sh_revision h =? expected)
      (SecretVaultConflictError ("secret revision is " +:+ pretty (sh_revision h)
         +:+ ", expected " +:+ pretty expected));;
    if sh_state h == SecretRevoked then mret h
    else
      revoked ← from_outcome (validate_handle (SecretHandle (sh_tenant h) (sh_id h)
        (sh_revision h + 1) (sh_name h) SecretRevoked (sh_scopes h) now updated_by));
      insert_secret (SecretRow revoked None);;
      advance_current_ref revoked (sh_revision h) now updated_by;;
      mret revoked).

(** Instants are in microseconds; [grant_id] and [raw_token] are the random
    draws. *)
Definition issue_grant (tenant id capability : string) (scopes : list string) (ttl_seconds : Z)
    (grant_id raw_token : string) (now : Z) : M vault_db issued_grant :=
  requested ← from_outcome (clean_scopes scopes);
  if (ttl_seconds <? 1) || (3600 <? ttl_seconds)
  then raise (ValueError "secret grant TTL must be between 1 and 3600 seconds")
  else
    transaction (
      row ← current_row tenant id;
      h ← from_outcome (row_handle row);
      unless (sh_state h == SecretActive) (SecretGrantError "secret is not active");;
      unless (forallb (λ s, bool_decide (s ∈ sh_scopes h)) requested)
        (SecretGrantError "requested scope is not allowed for this secret");;
      receipt ← from_outcome (validate_receipt (GrantReceipt grant_id (sh_tenant h) (sh_id h)
        (sh_revision h) capability requested (now + ttl_seconds * 1000000)));
      insert_grant (GrantRow receipt (sha256_hex raw_token) now None);;
      mret (IssuedGrant receipt raw_token)).

(** The three-way join of [redeem_grant]. *)
Definition grant_join (hash : string) (d : vault_db) : option (grant_row * secret_row * current_ref) :=
  g ← select_one (λ g, gw_token_hash g == hash) (vt_grants d);
  let k := gw_receipt g in
  r ← select_one (at_ref (gr_tenant k) (gr_secret k) (gr_revision k)) (vt_revisions d);
  c ← select_one (of_secret (gr_tenant k) (gr_secret k)) (vt_current d);
  Some (g, r, c).

Definition consume (id : string) (now : Z) : M vault_db unit :=
  let mine g := (gw_id g == id) && (gw_consumed_at g == None) in
  count ← gets (λ d, rowcount mine (vt_grants d));
  modify (λ d, d <| vt_grants := update mine (λ g, g <| gw_consumed_at := Some now |>) (vt_grants d) |>);;
  unless (count =? 1)%nat (SecretGrantError "secret grant was already consumed").

Definition open_row (r : secret_row) : outcome string :=
  match sr_sealed r with
  | None => Err missing_columns
  | Some sealed =>
      bytes ← cipher_decrypt sealed
        (secret_aad (sr_tenant r) (sr_id r) (sr_revision r) (sh_name (sr_handle r)));
      decoded bytes
  end.

Definition redeem_grant (token capability scope : string) (now : Z) : M vault_db secret_material :=
  '(g, r, plaintext) ← transaction (
    row ← gets (grant_join (sha256_hex token));
    match row with
    | None => raise (SecretGrantError "secret grant is invalid")
    | Some (g, r, c) =>
        let k := gw_receipt g in
        unless (gw_consumed_at g == None) (SecretGrantError "secret grant was already consumed");;
        unless (now <? gr_expires_at k) (SecretGrantError "secret grant has expired");;
        unless (gr_capability k == strip capability)
          (SecretGrantError "secret grant belongs to another capability");;
        unless (bool_decide (scope ∈ gr_scopes k))
          (SecretGrantError "secret grant does not include the requested scope");;
        unless (cr_revision c =? gr_revision k)
          (SecretGrantError "secret grant was invalidated by a newer revision");;
        unless (sr_state r == SecretActive) (SecretGrantError "secret is not active");;
        plaintext ← from_outcome (open_row r);
        consume (gw_id g) now;;
        mret (g, r, plaintext)
    end);
  from_outcome (validate_material (SecretMaterial (gw_id g) (gr_secret (gw_receipt g))
    (sh_name (sr_handle r)) scope plaintext)).

(** [_plaintext_values] and the two redactions. *)
Definition plaintext_values (tenant : string) (d : vault_db) : outcome (list string) :=
  all_ok (map open_row
    (select (λ r, (sr_tenant r == tenant) && (sr_state r == SecretActive)) (vt_revisions d))).
Definition vault_redact_text (tenant text : string) (d : vault_db) : outcome string :=
  values ← plaintext_values tenant d; Ok (redact_text text values).
Definition vault_redact_payload (tenant : string) (v : json) (d : vault_db) : outcome json :=
  values ← plaintext_values tenant d; Ok (redact_payload v values).

(** ** The service *)

Definition sandbox_capability : string := "sandbox_ssh_diagnostic".
Definition resolve_for_sandbox (tenant secret scope mount_type grant_id raw_token : string)
    (now now' : Z) : M vault_db string :=
  unless (bool_decide (strip mount_type ∈ ["ssh_password"; "ssh_private_key"]))
    (SecretGrantError "sandbox secret mount type is unsupported");;
  grant ← issue_grant tenant secret sandbox_capability [scope] 60 grant_id raw_token now;
  material ← redeem_grant (ig_token grant) sandbox_capability scope now';
  mret (sm_value material).

Definition runtime_environment_scopes : list (string * string) :=
  [("browser_use_api_key", "browser.manage"); ("composio_api_key", "composio.manage");
   ("daytona_api_key", "daytona.manage"); ("gh_token", "github.read");
   ("github_token", "github.read")].
Definition environment_scope (name : string) : string :=
  default "credential.use" (assoc (casefold name) runtime_environment_scopes).

Definition resolve_for_runtime_environment (tenant secret environment grant_id raw_token : string)
    (now now' : Z) : M vault_db string :=
  found ← get_handle tenant secret;
  match found with
  | None => raise (SecretGrantError "runtime environment secret handle is unavailable")
  | Some h =>
      unless (sh_state h == SecretActive)
        (SecretGrantError "runtime environment secret handle is unavailable");;
      unless (casefold (sh_name h) == casefold (strip environment))
        (SecretGrantError "runtime environment secret name does not match");;
      let scope := environment_scope (sh_name h) in
      unless (bool_decide (scope ∈ sh_scopes h))
        (SecretGrantError "runtime environment secret scope is not allowed");;
      grant ← issue_grant tenant (sh_id h) "runtime_environment" [scope] 60 grant_id raw_token now;
      material ← redeem_grant (ig_token grant) "runtime_environment" scope now';
      mret (sm_value material)
  end.

(** The listeners cannot fail the call: their exceptions are logged. *)
Definition service_store (tenant actor secret : string) (expected : Z) (value : string)
    (scopes : option (list string)) (nonce : string) (now : Z) : M vault_db secret_handle :=
  found ← get_handle tenant secret;
  match found with
  | None => raise (SecretVaultNotFoundError secret)
  | Some h =>
      match sh_state h with
      | SecretPending =>
          unless (match scopes with None => true | Some _ => false end)
            (SecretVaultConflictError
               "pending secret scopes cannot change while storing its first value");;
          fulfill tenant secret expected value actor nonce now
      | SecretActive => rotate tenant secret expected value actor scopes nonce now
      | SecretRevoked =>
          raise (SecretVaultConflictError "revoked secret handles cannot be restored")
      end
  end.
End Operations.

(** ** Invariant *)

Definition row_secret (r : secret_row) : string * string := (sr_tenant r, sr_id r).
Definition row_key (r : secret_row) : string * string * Z := (sr_tenant r, sr_id r, sr_revision r).
Definition ref_key (c : current_ref) : string * string := (cr_tenant c, cr_id c).
Definition grant_secret (g : grant_row) : string * string :=
  (gr_tenant (gw_receipt g), gr_secret (gw_receipt g)).
Definition grant_target (g : grant_row) : string * string * Z :=
  (grant_secret g, gr_revision (gw_receipt g)).

Lemma of_secret_true t i c : of_secret t i c = true ↔ ref_key c = (t, i).
Proof.
  unfold of_secret, ref_key. rewrite andb_true_iff, !bool_decide_eq_true.
  split; [by intros [-> ->]|by intros [= -> ->]].
Qed.
Lemma at_ref_true t i n r : at_ref t i n r = true ↔ row_key r = (t, i, n).
Proof.
  unfold at_ref, row_key. rewrite !andb_true_iff, !bool_decide_eq_true, Z.eqb_eq.
  split; [by intros [[-> ->] ->]|by intros [= -> -> ->]].
Qed.

(** *** Validation *)

(** What a validated handle keeps of the values it was built from. *)
Lemma validate_handle_Ok h h' :
  validate_handle h = Ok h' →
  protocol_id (sh_tenant h) = Some (sh_tenant h') ∧ slug (sh_id h) = Some (sh_id h') ∧
  slug (sh_name h) = Some (sh_name h') ∧ scopes_field (sh_scopes h) = Some (sh_scopes h') ∧
  sh_revision h' = sh_revision h ∧ sh_state h' = sh_state h ∧ 1 ≤ sh_revision h ∧
  validate_handle h' = Ok h'.
Proof.
  unfold validate_handle at 1. destruct (protocol_id _) as [t|] eqn:E1; [|done].
  destruct (slug (sh_id h)) as [i|] eqn:E2; [|done]. destruct (slug (sh_name h)) as [n|] eqn:E3; [|done].
  destruct (scopes_field _) as [l|] eqn:E4; [|done]. destruct (protocol_id (sh_created_by h)) as [b|] eqn:E5; [|done].
  destruct (1 <=? sh_revision h) eqn:E6; [|done]. intros [= <-]. simpl.
  split_and!; try done; [by apply Z.leb_le|]. unfold validate_handle. simpl.
  by rewrite (protocol_id_Some _ _ E1), (slug_Some _ _ E2), (slug_Some _ _ E3), (scopes_field_Some _ _ E4),
    (protocol_id_Some _ _ E5), E6.
Qed.

Section Invariant.
Context {C : HostKeySecretCipher}.

(** The table's [CHECK]: a row holds a value exactly when it is active. A
    stored handle validates to itself and a stored value can be read. *)
Record secret_row_ok (r : secret_row) : Prop := {
  so_handle : row_handle r = Ok (sr_handle r);
  so_check : sr_state r = SecretActive ↔ is_Some (sr_sealed r);
  so_value : sr_state r = SecretActive → ∃ v, open_row r = Ok v;
  so_pending : sr_state r = SecretPending → sr_revision r = 1;
}.

Record vault_ok (d : vault_db) : Prop := {
  vo_rows : ∀ r, r ∈ vt_revisions d → secret_row_ok r;
  vo_revisions : unique row_key (vt_revisions d);
  vo_current : unique ref_key (vt_current d);
  vo_grant_ids : unique gw_id (vt_grants d);
  vo_tokens : unique gw_token_hash (vt_grants d);
  (** every revision belongs to a reference, which points at the newest *)
  vo_newest : ∀ r, r ∈ vt_revisions d →
    ∃ c, c ∈ vt_current d ∧ ref_key c = row_secret r ∧ sr_revision r ≤ cr_revision c;
  vo_joined : ∀ c, c ∈ vt_current d →
    ∃ r, r ∈ vt_revisions d ∧ row_key r = (ref_key c, cr_revision c);
  (** nothing follows a revocation *)
  vo_revoked : ∀ r r', r ∈ vt_revisions d → r' ∈ vt_revisions d → row_secret r = row_secret r' →
    sr_state r = SecretRevoked → sr_revision r' ≤ sr_revision r;
  (** a grant names a stored revision with a value and only scopes it has *)
  vo_grants : ∀ g, g ∈ vt_grants d →
    validate_receipt (gw_receipt g) = Ok (gw_receipt g) ∧
    ∃ r, r ∈ vt_revisions d ∧ row_key r = grant_target g ∧ sr_state r = SecretActive ∧
      ∀ s, s ∈ gr_scopes (gw_receipt g) → s ∈ sh_scopes (sr_handle r);
}.

(** What every call guarantees about the past. *)
Record vault_advance (d d' : vault_db) : Prop := {
  va_revisions : ∀ r, r ∈ vt_revisions d → r ∈ vt_revisions d';
  va_current : ∀ c, c ∈ vt_current d →
    ∃ c', c' ∈ vt_current d' ∧ ref_key c' = ref_key c ∧ cr_revision c ≤ cr_revision c';
  va_grants : ∀ g, g ∈ vt_grants d →
    ∃ g', g' ∈ vt_grants d' ∧ gw_receipt g' = gw_receipt g ∧ gw_token_hash g' = gw_token_hash g ∧
      (is_Some (gw_consumed_at g) → is_Some (gw_consumed_at g'));
}.

Lemma vault_advance_refl d : vault_advance d d.
Proof. split; [done|eauto with lia..]. Qed.

Lemma vault_advance_trans d d' d'' : vault_advance d d' → vault_advance d' d'' → vault_advance d d''.
Proof.
  intros [H1 H2 H3] [K1 K2 K3]. split; [auto| |].
  - intros c (c' & Hc' & Hk & Hr)%H2. destruct (K2 c' Hc') as (c'' & Hc'' & Hk' & Hr').
    exists c''. split_and!; [done|congruence|lia].
  - intros g (g' & Hg' & Ht & Hh & Hs)%H3. destruct (K3 g' Hg') as (g'' & Hg'' & Ht' & Hh' & Hs').
    exists g''. split_and!; [done|congruence..|auto].
Qed.

Lemma no_secrets_ok : vault_ok no_secrets.
Proof. split; simpl; first [apply NoDup_nil_2|set_solver]. Qed.

(** Reading the current revision. *)
Lemma find_current_Some t i d r :
  vault_ok d → find_current t i d = Some r ↔
    r ∈ vt_revisions d ∧ row_secret r = (t, i) ∧ ∀ r', r' ∈ vt_revisions d → row_secret r' = (t, i) →
      sr_revision r' ≤ sr_revision r.
Proof.
  intros Hd. unfold find_current. split.
  - destruct (select_one (of_secret t i) _) as [c|] eqn:E; [|done]. simpl.
    apply select_one_Some in E as [Hc Hk%of_secret_true].
    intros (Hr & Hkey%at_ref_true)%select_one_Some. injection Hk as Ht Hi.
    rewrite Ht, Hi in Hkey. split_and!; [done| |].
    + unfold row_key, row_secret in *. congruence.
    + intros r' Hr' Hk'. destruct (vo_newest _ Hd r' Hr') as (c' & Hc' & Hck & Hle).
      assert (c' = c) as -> by (apply (unique_eq ref_key (vt_current d)); [apply Hd|done..|];
        rewrite Hck, Hk'; unfold ref_key; congruence).
      unfold row_key in Hkey. injection Hkey as _ _ ->. done.
  - intros (Hr & Hs & Hmax). destruct (vo_newest _ Hd r Hr) as (c & Hc & Hck & Hle).
    rewrite Hs in Hck. destruct (select_one (of_secret t i) (vt_current d)) as [c'|] eqn:E.
    + apply select_one_Some in E as [Hc' Hk'%of_secret_true]. simpl.
      assert (c' = c) as -> by (apply (unique_eq ref_key (vt_current d)); [apply Hd|done..|congruence]).
      destruct (vo_joined _ Hd c Hc) as (r' & Hr' & Hk). rewrite Hck in Hk.
      assert (row_secret r' = (t, i)) as Hs' by (unfold row_key, row_secret in *; congruence).
      assert (sr_revision r' = cr_revision c) as Hrev by (unfold row_key in Hk; congruence).
      pose proof (Hmax r' Hr' Hs').
      assert (r' = r) as -> by (apply (unique_eq row_key (vt_revisions d)); [apply Hd|done..|];
        rewrite Hk; unfold row_key, row_secret in *; repeat f_equal; first [congruence|lia]).
      unfold joined. destruct (select_one (at_ref _ _ _) _) as [r'|] eqn:E'.
      * apply select_one_Some in E' as [Hx Hy%at_ref_true]. f_equal.
        apply (unique_eq row_key (vt_revisions d)); [apply Hd|done..|].
        rewrite Hy, Hk. unfold ref_key in Hck. congruence.
      * eapply select_one_None in E'; [|exact Hr]. rewrite (proj2 (at_ref_true _ _ _ _)) in E'; [done|].
        rewrite Hk. unfold ref_key in Hck. congruence.
    + eapply select_one_None in E; [|exact Hc]. rewrite (proj2 (of_secret_true _ _ _)) in E; done.
Qed.

(** *** Moving the current reference *)

Definition moved (r nr : secret_row) (now : Z) (by_ : string) (d : vault_db) : vault_db :=
  VaultDb (vt_revisions d ++ [nr])
    (update (λ c, of_secret (sr_tenant nr) (sr_id nr) c && (cr_revision c =? sr_revision r))
       (λ c, CurrentRef (cr_tenant c) (cr_id c) (sr_revision nr) now by_) (vt_current d))
    (vt_grants d).

(** [nr] is a legal successor of the current row [r]. *)
Record successor (r nr : secret_row) : Prop := {
  su_row : secret_row_ok nr;
  su_secret : row_secret nr = row_secret r;
  su_revision : sr_revision nr = sr_revision r + 1;
  su_live : sr_state r ≠ SecretRevoked;
}.

Lemma current_ref_of t i d r :
  vault_ok d → find_current t i d = Some r →
  ∃ c, c ∈ vt_current d ∧ ref_key c = (t, i) ∧ cr_revision c = sr_revision r.
Proof.
  intros Hd (Hr & Hs & Hmax)%find_current_Some; [|done].
  destruct (vo_newest _ Hd r Hr) as (c & Hc & Hck & Hle).
  destruct (vo_joined _ Hd c Hc) as (r' & Hr' & Hk).
  exists c. split_and!; [done|congruence|].
  assert (row_secret r' = (t, i)) as Hs' by (unfold row_key, row_secret in *; congruence).
  pose proof (Hmax r' Hr' Hs'). unfold row_key in Hk. injection Hk as Hk1 Hk2. lia.
Qed.

Lemma move_run t i r nr now by_ d {A} (a : A) :
  vault_ok d → find_current t i d = Some r → successor r nr →
  (insert_secret nr;; advance_current_ref (sr_handle nr) (sr_revision r) now by_;; mret a) d =
    (moved r nr now by_ d, Ok a).
Proof.
  intros Hd Hcur [Hrow Hs Hrev Hlive].
  destruct (current_ref_of _ _ _ _ Hd Hcur) as (c & Hc & Hck & Hcr).
  apply (find_current_Some _ _ _ _ Hd) in Hcur as (Hr & Hk & Hmax).
  unfold insert_secret. rewrite run_try_modify_bind, insert_row_ok.
  - simpl. unfold advance_current_ref. rewrite !run_bind_assoc, run_gets_bind, !run_bind_assoc, run_modify_bind, run_unless_bind.
    simpl. rewrite (rowcount_one ref_key _ _ c); [done|apply Hd|done| |].
    + rewrite andb_true_iff, of_secret_true, Z.eqb_eq. split; [|done].
      rewrite Hck, <- Hk, <- Hs. done.
    + intros c' _ [H _]%andb_true_iff. apply of_secret_true in H. rewrite H, Hck, <- Hk, <- Hs. done.
  - intros r' Hr'. unfold revision_clash. apply not_true_is_false.
    rewrite !andb_true_iff, !bool_decide_eq_true, Z.eqb_eq. intros [[H1 H2] H3].
    assert (row_secret r' = (t, i)) as Hk'.
    { rewrite <- Hk, <- Hs. unfold row_secret. congruence. }
    pose proof (Hmax r' Hr' Hk'). lia.
Qed.

Lemma move_ok t i r nr now by_ d :
  vault_ok d → find_current t i d = Some r → successor r nr →
  vault_ok (moved r nr now by_ d) ∧ vault_advance d (moved r nr now by_ d) ∧
  find_current t i (moved r nr now by_ d) = Some nr.
Proof.
  intros Hd Hcur [Hrow Hs Hrev Hlive].
  destruct (current_ref_of _ _ _ _ Hd Hcur) as (c0 & Hc0 & Hck0 & Hcr0).
  apply (find_current_Some _ _ _ _ Hd) in Hcur as (Hr & Hk & Hmax).
  assert (∀ c, c ∈ vt_current d → of_secret (sr_tenant nr) (sr_id nr) c = true → c = c0) as Hone.
  { intros c Hc H%of_secret_true. apply (unique_eq ref_key (vt_current d)); [apply Hd|done..|].
    rewrite H, Hck0, <- Hk, <- Hs. done. }
  assert (of_secret (sr_tenant nr) (sr_id nr) c0 && (cr_revision c0 =? sr_revision r) = true) as Hhit.
  { rewrite andb_true_iff, of_secret_true, Z.eqb_eq. split; [|done]. rewrite Hck0, <- Hk, <- Hs. done. }
  assert (vault_advance d (moved r nr now by_ d)) as Hadv.
  { split; simpl.
    - intros x Hx. apply elem_of_app. by left.
    - intros c Hc. eexists. split; [apply elem_of_update; by exists c|].
      destruct (of_secret _ _ c && _) eqn:E; [|split; [done|lia]]. split; [done|]. simpl.
      apply andb_true_iff in E as [_ E%Z.eqb_eq]. lia.
    - eauto. }
  assert (vault_ok (moved r nr now by_ d)) as Hok.
  { destruct Hd as [H1 H2 H3 H4 H5 H6 H7 H8 H9]. split; simpl.
    - intros x [Hx| ->%list_elem_of_singleton]%elem_of_app; auto.
    - apply unique_app; [done|]. intros r' Hr' Heq.
      assert (row_secret r' = (t, i)) as Hk' by (rewrite <- Hk, <- Hs; unfold row_key, row_secret in *; congruence).
      pose proof (Hmax r' Hr' Hk'). unfold row_key in Heq. injection Heq as _ _ ?. lia.
    - unfold unique. by rewrite fmap_update.
    - done.
    - done.
    - intros x [Hx| ->%list_elem_of_singleton]%elem_of_app.
      + destruct (H6 x Hx) as (c & Hc & Hck & Hle). eexists. split; [apply elem_of_update; by exists c|].
        destruct (of_secret _ _ c && _) eqn:E; [|split; [done|simpl; lia]]. split; [done|]. simpl.
        apply andb_true_iff in E as [_ E%Z.eqb_eq]. lia.
      + eexists. split; [apply elem_of_update; by exists c0|]. rewrite Hhit. simpl. split; [|done].
        unfold ref_key in *. simpl. rewrite Hck0, <- Hk, <- Hs. done.
    - intros c' (c & Hc & ->)%elem_of_update. destruct (of_secret _ _ c && _) eqn:E.
      + exists nr. split; [apply elem_of_app; right; by apply list_elem_of_singleton|]. simpl.
        apply andb_true_iff in E as [E%of_secret_true _]. unfold row_key. f_equal.
        unfold ref_key in *. simpl. by rewrite E.
      + destruct (H7 c Hc) as (x & Hx & Hxk). exists x. split; [apply elem_of_app; by left|done].
    - intros x x' [Hx| ->%list_elem_of_singleton]%elem_of_app [Hx'| ->%list_elem_of_singleton]%elem_of_app Hxx Hst;
        [by apply H8|exfalso| |lia].
      + assert (row_secret r = row_secret x) as Hrx by congruence.
        pose proof (H8 x r Hx Hr (eq_sym Hrx) Hst). pose proof (Hmax x Hx). rewrite <- Hrx in H0.
        specialize (H0 Hk). apply Hlive. assert (r = x) as ->; [|done].
        apply (unique_eq row_key (vt_revisions d)); [done..|]. unfold row_key, row_secret in *.
        f_equal; [done|lia].
      + assert (row_secret x' = (t, i)) as Hk' by congruence. pose proof (Hmax x' Hx' Hk'). lia.
    - intros g (Hv & x & Hx & H)%H9. split; [done|]. exists x. split; [apply elem_of_app; by left|done]. }
  split_and!; [done..|]. apply find_current_Some; [done|]. simpl.
  split_and!; [apply elem_of_app; right; by apply list_elem_of_singleton|congruence|].
  intros r' [Hr'| ->%list_elem_of_singleton]%elem_of_app Hk'; [|lia].
  pose proof (Hmax r' Hr' Hk'). lia.
Qed.
End Invariant.

(** ** What each call does *)

Section Calls.
Context {C : HostKeySecretCipher} {Laws : CipherLaws C}.

Lemma row_handle_valid d t i r :
  vault_ok d → find_current t i d = Some r →
  row_handle r = Ok (sr_handle r) ∧ r ∈ vt_revisions d ∧ row_secret r = (t, i) ∧
  validate_handle (sr_handle r) = Ok (sr_handle r).
Proof.
  intros Hd (Hr & Hs & _)%find_current_Some; [|done].
  pose proof (so_handle _ (vo_rows _ Hd r Hr)). done.
Qed.

(** The handle of the next revision keeps the secret's identity. *)
Lemma next_handle h n st scopes now by_ h' :
  validate_handle h = Ok h →
  validate_handle (SecretHandle (sh_tenant h) (sh_id h) n (sh_name h) st scopes now by_) = Ok h' →
  sh_tenant h' = sh_tenant h ∧ sh_id h' = sh_id h ∧ sh_name h' = sh_name h ∧ sh_revision h' = n ∧
  sh_state h' = st ∧ scopes_field scopes = Some (sh_scopes h') ∧ validate_handle h' = Ok h'.
Proof.
  intros (Ht & Hi & Hn & _)%validate_handle_Ok (Ht' & Hi' & Hn' & Hl & Hr & Hs & _ & Hv)%validate_handle_Ok.
  simpl in *. split_and!; congruence.
Qed.

Lemma current_row_bind {A} t i (k : secret_row → M vault_db A) d :
  (current_row t i ≫= k) d =
    match find_current t i d with
    | Some r => k r d
    | None => (d, Err (SecretVaultNotFoundError i))
    end.
Proof. unfold current_row. rewrite run_bind_assoc, run_gets_bind. by destruct (find_current t i d). Qed.

Lemma clean_value_open nonce value bytes t i n name st scopes now by_ :
  clean_value value = Ok bytes →
  open_row (SecretRow (SecretHandle t i n name st scopes now by_)
    (Some (cipher_encrypt nonce bytes (secret_aad t i n name)))) = Ok value.
Proof.
  unfold clean_value, open_row. simpl. destruct (_ == _); [done|]. destruct (_ <? _); [done|].
  intros [= <-]. unfold sr_tenant, sr_id, sr_revision. simpl. rewrite cipher_round_trip. simpl.
  unfold decoded. by rewrite utf8_round_trip.
Qed.

Lemma write_cases t i e es value scopes by_ nonce now d :
  vault_ok d → es ≠ SecretRevoked →
  let call := write_active_revision t i e es value scopes by_ nonce now d in
  (∃ x, call = (d, Err x)) ∨
  ∃ r nr, find_current t i d = Some r ∧ sr_revision r = e ∧ sr_state r = es ∧ successor r nr ∧
    sr_state nr = SecretActive ∧ open_row nr = Ok value ∧
    call = (moved r nr now by_ d, Ok (sr_handle nr)).
Proof.
  intros Hd Hes. cbv zeta. unfold write_active_revision. rewrite run_outcome_bind.
  destruct (clean_value value) as [bytes|x] eqn:Hv; [|left; by eexists].
  rewrite run_transaction, current_row_bind.
  destruct (find_current t i d) as [r|] eqn:Hcur; [|left; by eexists].
  destruct (row_handle_valid _ _ _ _ Hd Hcur) as (Hh & Hr & Hk & Hval).
  rewrite run_outcome_bind, Hh, run_unless_bind.
  destruct (Z.eqb_spec (sh_revision (sr_handle r)) e) as [He|]; [|left; by eexists].
  rewrite run_unless_bind. case_bool_decide as Hst; [|left; by eexists].
  cbv zeta. rewrite run_outcome_bind.
  destruct (validate_handle (SecretHandle _ _ _ _ _ _ _ _)) as [next|x] eqn:Hnext; [|left; by eexists].
  set (sealed := cipher_encrypt _ _ _).
  destruct (next_handle _ _ _ _ _ _ _ Hval Hnext) as (Ht & Hi & Hn & Hrev & Hact & _ & Hv').
  assert (open_row (SecretRow next (Some sealed)) = Ok value) as Hopen.
  { destruct next as [t' i' n' nm' st' l' c' b']. simpl in *. subst. by apply clean_value_open. }
  assert (successor r (SecretRow next (Some sealed))) as Hsucc.
  { split.
    - split; unfold sr_state, sr_revision; simpl; [done|by rewrite Hact|by eexists|by rewrite Hact].
    - unfold row_secret, sr_tenant, sr_id. simpl. congruence.
    - done.
    - unfold sr_state. congruence. }
  right. exists r, (SecretRow next (Some sealed)). split_and!; try done.
  pose proof (move_run t i r _ now by_ d next Hd Hcur Hsucc) as Hmove. simpl in Hmove.
  unfold sr_revision in Hmove. rewrite Hmove. done.
Qed.

Lemma revoke_cases t i e by_ now d :
  vault_ok d →
  let call := revoke t i e by_ now d in
  (∃ x, call = (d, Err x)) ∨
  (∃ r, find_current t i d = Some r ∧ sr_state r = SecretRevoked ∧ call = (d, Ok (sr_handle r))) ∨
  ∃ r nr, find_current t i d = Some r ∧ sr_revision r = e ∧ successor r nr ∧
    sr_state nr = SecretRevoked ∧ call = (moved r nr now by_ d, Ok (sr_handle nr)).
Proof.
  intros Hd. cbv zeta. unfold revoke. rewrite run_transaction, current_row_bind.
  destruct (find_current t i d) as [r|] eqn:Hcur; [|left; by eexists].
  destruct (row_handle_valid _ _ _ _ Hd Hcur) as (Hh & Hr & Hk & Hval).
  rewrite run_outcome_bind, Hh, run_unless_bind.
  destruct (Z.eqb_spec (sh_revision (sr_handle r)) e) as [He|]; [|left; by eexists].
  case_bool_decide as Hst; [right; left; by exists r|].
  rewrite run_outcome_bind. destruct (validate_handle (SecretHandle _ _ _ _ _ _ _ _)) as [next|x] eqn:Hnext; [|left; by eexists].
  destruct (next_handle _ _ _ _ _ _ _ Hval Hnext) as (Ht & Hi & Hn & Hrev & Hact & _ & Hv').
  assert (successor r (SecretRow next None)) as Hsucc.
  { split.
    - split; unfold sr_state, sr_revision; simpl; [done| |by rewrite Hact..].
      rewrite Hact. split; [done|by intros [? ?]].
    - unfold row_secret, sr_tenant, sr_id. simpl. congruence.
    - done.
    - done. }
  right. right. exists r, (SecretRow next None). split_and!; try done.
  pose proof (move_run t i r _ now by_ d next Hd Hcur Hsucc) as Hmove. simpl in Hmove.
  unfold sr_revision in Hmove. rewrite Hmove. done.
Qed.

Definition created (h : secret_handle) (d : vault_db) : vault_db :=
  VaultDb (vt_revisions d ++ [SecretRow h None])
    (vt_current d ++ [CurrentRef (sh_tenant h) (sh_id h) 1 (sh_created_at h) (sh_created_by h)])
    (vt_grants d).

Lemma created_ok h d :
  vault_ok d → validate_handle h = Ok h → sh_revision h = 1 → sh_state h = SecretPending →
  exists_row (of_secret (sh_tenant h) (sh_id h)) (vt_current d) = false →
  vault_ok (created h d) ∧ vault_advance d (created h d).
Proof.
  intros Hd Hv Hrev Hst Hno. rewrite exists_row_false in Hno.
  assert (∀ c, c ∈ vt_current d → ref_key c ≠ (sh_tenant h, sh_id h)) as Hfresh.
  { intros c Hc Hk%of_secret_true. by rewrite Hno in Hk. }
  assert (∀ r, r ∈ vt_revisions d → row_secret r ≠ (sh_tenant h, sh_id h)) as Hnew.
  { intros r Hr Hk. destruct (vo_newest _ Hd r Hr) as (c & Hc & Hck & _).
    apply (Hfresh c Hc). congruence. }
  split; [|split; simpl].
  - destruct Hd as [H1 H2 H3 H4 H5 H6 H7 H8 H9]. split; simpl.
    + intros r [Hr| ->%list_elem_of_singleton]%elem_of_app; [auto|].
      split; unfold sr_state, sr_revision; simpl; [done| |by rewrite Hst|done].
      rewrite Hst. split; [done|by intros [? ?]].
    + apply unique_app; [done|]. intros r Hr Heq. apply (Hnew r Hr).
      unfold row_key, row_secret, sr_tenant, sr_id in *. simpl in *. congruence.
    + apply unique_app; [done|]. intros c Hc Heq. by apply (Hfresh c Hc).
    + done.
    + done.
    + intros r [Hr| ->%list_elem_of_singleton]%elem_of_app.
      * destruct (H6 r Hr) as (c & Hc & H). exists c. split; [apply elem_of_app; by left|done].
      * eexists. split; [apply elem_of_app; right; by apply list_elem_of_singleton|].
        unfold row_secret, sr_tenant, sr_id, sr_revision. simpl. by rewrite Hrev.
    + intros c [Hc| ->%list_elem_of_singleton]%elem_of_app.
      * destruct (H7 c Hc) as (r & Hr & H). exists r. split; [apply elem_of_app; by left|done].
      * eexists. split; [apply elem_of_app; right; by apply list_elem_of_singleton|].
        unfold row_key, sr_tenant, sr_id, sr_revision. simpl. by rewrite Hrev.
    + intros r r' [Hr| ->%list_elem_of_singleton]%elem_of_app [Hr'| ->%list_elem_of_singleton]%elem_of_app
        Hk Hs; [by apply H8|exfalso; by apply (Hnew r Hr)|exfalso|done].
      unfold sr_state in Hs. simpl in Hs. congruence.
    + intros g (Hg & r & Hr & H)%H9. split; [done|]. exists r. split; [apply elem_of_app; by left|done].
  - intros r Hr. apply elem_of_app. by left.
  - intros c Hc. exists c. split; [apply elem_of_app; by left|done].
  - eauto.
Qed.

Lemma create_cases t n l by_ o fresh now d :
  vault_ok d →
  let call := create_pending t n l by_ o fresh now d in
  (∃ x, call = (d, Err x)) ∨
  ∃ h, call = (created h d, Ok h) ∧ vault_ok (created h d) ∧ vault_advance d (created h d).
Proof.
  intros Hd. cbv zeta. unfold create_pending. rewrite run_outcome_bind.
  destruct (clean_scopes l) as [clean|x]; [|left; by eexists]. rewrite run_outcome_bind.
  destruct (validate_handle _) as [h|x] eqn:Hh; [|left; by eexists].
  apply validate_handle_Ok in Hh as (_ & _ & _ & _ & Hrev & Hst & _ & Hv). simpl in Hrev, Hst.
  rewrite run_transaction, run_gets_bind, run_unless_bind.
  destruct (exists_row _ _) eqn:Hno; [left; by eexists|]. simpl.
  pose proof (created_ok h d Hd Hv Hrev Hst Hno) as [Hok Hadv].
  rewrite exists_row_false in Hno. right. exists h. split; [|done].
  unfold insert_secret. rewrite run_try_modify_bind, insert_row_ok.
  - simpl. unfold insert_ref. rewrite run_try_modify_bind, insert_row_ok; [done|].
    intros c Hc. specialize (Hno c Hc). unfold ref_clash. simpl. done.
  - intros r Hr. unfold revision_clash. apply not_true_is_false.
    rewrite !andb_true_iff, !bool_decide_eq_true. intros [[H1 H2] _].
    destruct (vo_newest _ Hd r Hr) as (c & Hc & Hck & _). specialize (Hno c Hc).
    rewrite (proj2 (of_secret_true _ _ _)) in Hno; [done|]. rewrite Hck. unfold row_secret.
    rewrite H1, H2. done.
Qed.

Definition granted (g : grant_row) (d : vault_db) : vault_db := d <| vt_grants := vt_grants d ++ [g] |>.

Lemma validate_receipt_Ok k k' :
  validate_receipt k = Ok k' →
  protocol_id (gr_tenant k) = Some (gr_tenant k') ∧ slug (gr_secret k) = Some (gr_secret k') ∧
  gr_revision k' = gr_revision k ∧ slug (gr_capability k) = Some (gr_capability k') ∧
  scopes_field (gr_scopes k) = Some (gr_scopes k') ∧ gr_expires_at k' = gr_expires_at k ∧
  slug (gr_id k) = Some (gr_id k') ∧ validate_receipt k' = Ok k'.
Proof.
  unfold validate_receipt at 1. destruct (slug (gr_id k)) as [i|] eqn:E1; [|done].
  destruct (protocol_id _) as [t|] eqn:E2; [|done]. destruct (slug (gr_secret k)) as [n|] eqn:E3; [|done].
  destruct (slug (gr_capability k)) as [c|] eqn:E4; [|done]. destruct (scopes_field _) as [l|] eqn:E5; [|done].
  destruct (1 <=? gr_revision k) eqn:E6; [|done]. intros [= <-]. simpl. split_and!; try done.
  unfold validate_receipt. simpl.
  by rewrite (slug_Some _ _ E1), (protocol_id_Some _ _ E2), (slug_Some _ _ E3), (slug_Some _ _ E4),
    (scopes_field_Some _ _ E5), E6.
Qed.

Lemma elem_of_mapM {A B} (f : A → option B) l l' y :
  mapM f l = Some l' → y ∈ l' → ∃ x, x ∈ l ∧ f x = Some y.
Proof.
  intros H%mapM_Some_1. induction H as [|a b l l' Hab Hl IH]; [set_solver|].
  intros [->|Hy]%elem_of_cons; [exists a; set_solver|].
  destruct (IH Hy) as (x & Hx & Hf). exists x. set_solver.
Qed.

(** The scopes of a validated list are scopes, and stripped. *)
Lemma scopes_field_elem l l' s : scopes_field l = Some l' → s ∈ l' → secret_scope s = Some s.
Proof.
  unfold scopes_field. destruct (_ && _); [|done]. intros H Hs.
  destruct (elem_of_mapM _ _ _ _ H Hs) as (x & _ & Hx). by eapply secret_scope_Some.
Qed.

Lemma scopes_field_same l l' :
  (∀ s, s ∈ l → secret_scope s = Some s) → scopes_field l = Some l' → l' = l.
Proof.
  unfold scopes_field. destruct (_ && _); [|done]. intros Hl H%mapM_Some_1.
  induction H as [|a b l l' Hab H IH]; [done|]. f_equal; [|apply IH; set_solver].
  rewrite Hl in Hab by set_solver. congruence.
Qed.

Lemma issue_cases t i cap l ttl gid token now d :
  vault_ok d →
  let call := issue_grant t i cap l ttl gid token now d in
  (∃ x, call = (d, Err x)) ∨
  ∃ r k, find_current t i d = Some r ∧ sr_state r = SecretActive ∧
    grant_secret (GrantRow k "" 0 None) = row_secret r ∧ gr_revision k = sr_revision r ∧
    slug cap = Some (gr_capability k) ∧ clean_scopes l = Ok (gr_scopes k) ∧
    (∀ s, s ∈ gr_scopes k → s ∈ sh_scopes (sr_handle r)) ∧
    gr_expires_at k = now + ttl * 1000000 ∧ 1 ≤ ttl ≤ 3600 ∧
    let g := GrantRow k (sha256_hex token) now None in
    call = (granted g d, Ok (IssuedGrant k token)) ∧ vault_ok (granted g d) ∧
    vault_advance d (granted g d).
Proof.
  intros Hd. cbv zeta. unfold issue_grant. rewrite run_outcome_bind.
  destruct (clean_scopes l) as [req|x] eqn:Hreq; [|left; by eexists].
  destruct (_ || _) eqn:Httl; [left; by eexists|].
  apply orb_false_iff in Httl as [Ht1%Z.ltb_ge Ht2%Z.ltb_ge].
  rewrite run_transaction, current_row_bind.
  destruct (find_current t i d) as [r|] eqn:Hcur; [|left; by eexists].
  destruct (row_handle_valid _ _ _ _ Hd Hcur) as (Hh & Hr & Hk & Hval).
  rewrite run_outcome_bind, Hh, run_unless_bind. case_bool_decide as Hst; [|left; by eexists].
  rewrite run_unless_bind. destruct (forallb _ req) eqn:Hsub; [|left; by eexists].
  rewrite run_outcome_bind. destruct (validate_receipt _) as [k|x] eqn:Hrec; [|left; by eexists].
  destruct (validate_receipt_Ok _ _ Hrec) as (Kt & Ki & Kr & Kc & Ks & Ke & Kid & Kv). simpl in *.
  unfold insert_grant. rewrite run_try_modify_bind.
  destruct (insert_row _ _ _) as [gs|] eqn:Hins; [|left; by eexists]. right.
  apply insert_row_Some in Hins as [-> Hclash]. simpl.
  destruct (validate_handle_Ok _ _ Hval) as (Ht & Hi & _ & Hsc & _).
  assert (∀ s, s ∈ req → s ∈ sh_scopes (sr_handle r)) as Hin.
  { intros s Hs%list_elem_of_In. rewrite forallb_forall in Hsub. specialize (Hsub s Hs).
    by apply bool_decide_eq_true in Hsub. }
  assert (gr_scopes k = req) as Hsame.
  { eapply scopes_field_same; [|done]. intros s Hs. eapply scopes_field_elem; [done|by apply Hin]. }
  exists r, k. rewrite Hsame. split_and!; try done; try (unfold grant_secret, row_secret, sr_tenant, sr_id; simpl; congruence); try (by rewrite Kr).
  - destruct Hd as [H1 H2 H3 H4 H5 H6 H7 H8 H9]. split; simpl; try done.
    + apply unique_app; [done|]. intros g Hg Heq. specialize (Hclash g Hg).
      unfold grant_clash in Hclash. rewrite Heq in Hclash. by rewrite bool_decide_eq_true_2 in Hclash.
    + apply unique_app; [done|]. intros g Hg Heq. specialize (Hclash g Hg).
      unfold grant_clash in Hclash. rewrite <- Heq in Hclash. simpl in Hclash.
      rewrite (bool_decide_eq_true_2 (_ = sha256_hex _)) in Hclash by done. by rewrite orb_true_r in Hclash.
    + intros g [Hg| ->%list_elem_of_singleton]%elem_of_app; [auto|]. split; [done|].
      exists r. simpl. split_and!; [done| |done|by rewrite Hsame].
      unfold row_key, grant_target, grant_secret, sr_tenant, sr_id, sr_revision. simpl. congruence.
  - split; simpl; [done|eauto with lia|]. intros g Hg. exists g. split; [apply elem_of_app; by left|done].
Qed.

(** *** Redeeming *)

Definition consumed (g : grant_row) (now : Z) (d : vault_db) : vault_db :=
  d <| vt_grants := update (λ g', (gw_id g' == gw_id g) && (gw_consumed_at g' == None))
         (λ g, g <| gw_consumed_at := Some now |>) (vt_grants d) |>.

Definition grant_material (g : grant_row) (r : secret_row) (scope value : string) : secret_material :=
  SecretMaterial (gw_id g) (gr_secret (gw_receipt g)) (sh_name (sr_handle r)) scope value.

Lemma grant_join_in g d :
  vault_ok d → g ∈ vt_grants d →
  ∃ r c, grant_join (gw_token_hash g) d = Some (g, r, c) ∧
    r ∈ vt_revisions d ∧ row_key r = grant_target g ∧ c ∈ vt_current d ∧ ref_key c = grant_secret g.
Proof.
  intros Hd Hg. destruct (vo_grants _ Hd g Hg) as (_ & r & Hr & Hk & _).
  destruct (vo_newest _ Hd r Hr) as (c & Hc & Hck & _).
  assert (row_secret r = grant_secret g) as Hs.
  { unfold row_key, grant_target in Hk. unfold row_secret. congruence. }
  exists r, c. split; [|split_and!; congruence].
  unfold grant_join. pose proof (select_one_unique gw_token_hash (vt_grants d) g (vo_tokens _ Hd) Hg) as ->.
  simpl. destruct (select_one (at_ref _ _ _) _) as [r'|] eqn:E.
  - simpl. apply select_one_Some in E as [Hr' Hk'%at_ref_true].
    assert (r' = r) as -> by (apply (unique_eq row_key (vt_revisions d)); [apply Hd|done..|];
      rewrite Hk; done).
    destruct (select_one (of_secret _ _) _) as [c'|] eqn:E'.
    + apply select_one_Some in E' as [Hc' Hck'%of_secret_true]. simpl. do 2 f_equal.
      apply (unique_eq ref_key (vt_current d)); [apply Hd|done..|]. rewrite Hck', Hck, Hs. done.
    + eapply select_one_None in E'; [|exact Hc]. rewrite (proj2 (of_secret_true _ _ _)) in E'; [done|].
      rewrite Hck, Hs. done.
  - eapply select_one_None in E; [|exact Hr]. rewrite (proj2 (at_ref_true _ _ _ _)) in E; [done|].
    rewrite Hk. done.
Qed.

Lemma grant_join_Some hash d g r c :
  vault_ok d → grant_join hash d = Some (g, r, c) → g ∈ vt_grants d ∧ gw_token_hash g = hash.
Proof.
  intros Hd. unfold grant_join. destruct (select_one _ (vt_grants d)) as [g'|] eqn:E; [|done]. simpl.
  destruct (select_one (at_ref _ _ _) _); [|done]. simpl.
  destruct (select_one (of_secret _ _) _); [|done]. simpl. intros [= -> _ _].
  apply select_one_Some in E as [? E%bool_decide_eq_true]. done.
Qed.

Lemma consume_run g now d {A} (a : A) :
  vault_ok d → g ∈ vt_grants d → gw_consumed_at g = None →
  (consume (gw_id g) now;; mret a) d = (consumed g now d, Ok a).
Proof.
  intros Hd Hg Hn. unfold consume. rewrite run_bind_assoc, run_gets_bind, run_bind_assoc, run_modify_bind,
    run_unless_bind.
  rewrite (rowcount_one gw_id _ _ g); [done|apply Hd|done| |].
  - by rewrite Hn, !bool_decide_eq_true_2.
  - intros g' _ [H _]%andb_true_iff. by apply bool_decide_eq_true in H.
Qed.

Lemma consumed_ok g now d : vault_ok d → vault_ok (consumed g now d) ∧ vault_advance d (consumed g now d).
Proof.
  intros Hd. split.
  - destruct Hd as [H1 H2 H3 H4 H5 H6 H7 H8 H9]. split; simpl; try done.
    + unfold unique. by rewrite fmap_update.
    + unfold unique. by rewrite fmap_update.
    + intros g' (x & Hx & ->)%elem_of_update. destruct (H9 x Hx) as (Hv & r & H).
      destruct (_ && _); (split; [done|]; by exists r).
  - split; simpl; [done|eauto with lia|]. intros x Hx.
    eexists. split; [apply elem_of_update; by exists x|]. destruct ((gw_id x == _) && _); [|done].
    split_and!; [done..|]. intros _. by eexists.
Qed.

Lemma material_valid g r scope v d :
  vault_ok d → g ∈ vt_grants d → r ∈ vt_revisions d → scope ∈ gr_scopes (gw_receipt g) →
  validate_material (grant_material g r scope v) = Ok (grant_material g r scope v).
Proof.
  intros Hd Hg Hr Hs. destruct (vo_grants _ Hd g Hg) as [Hv _].
  destruct (validate_receipt_Ok _ _ Hv) as (_ & Hsec & _ & _ & Hsc & _ & Hid & _).
  pose proof (so_handle _ (vo_rows _ Hd r Hr)) as Hh.
  destruct (validate_handle_Ok _ _ Hh) as (_ & _ & Hn & _).
  unfold validate_material, grant_material, gw_id. simpl.
  by rewrite Hid, Hsec, Hn, (scopes_field_elem _ _ _ Hsc Hs).
Qed.

(** The grant [g] releases [v] of the row [r] at [now]. *)
Record releases (g : grant_row) (token capability scope : string) (now : Z) (d : vault_db)
    (r : secret_row) (v : string) : Prop := {
  rl_grant : g ∈ vt_grants d;
  rl_token : gw_token_hash g = sha256_hex token;
  rl_unused : gw_consumed_at g = None;
  rl_time : now < gr_expires_at (gw_receipt g);
  rl_capability : gr_capability (gw_receipt g) = strip capability;
  rl_scope : scope ∈ gr_scopes (gw_receipt g);
  rl_current : find_current (gr_tenant (gw_receipt g)) (gr_secret (gw_receipt g)) d = Some r;
  rl_revision : sr_revision r = gr_revision (gw_receipt g);
  rl_active : sr_state r = SecretActive;
  rl_value : open_row r = Ok v;
}.

(** A joined grant is current exactly when its revision is the reference's. *)
Lemma join_current g r c d :
  vault_ok d → g ∈ vt_grants d → grant_join (gw_token_hash g) d = Some (g, r, c) →
  cr_revision c = gr_revision (gw_receipt g) ↔
  ∃ r', find_current (gr_tenant (gw_receipt g)) (gr_secret (gw_receipt g)) d = Some r' ∧
        sr_revision r' = gr_revision (gw_receipt g) ∧ r' = r.
Proof.
  intros Hd Hg Hj. destruct (grant_join_in g d Hd Hg) as (r' & c' & Hj' & Hr & Hk & Hc & Hck).
  rewrite Hj in Hj'. injection Hj' as <- <-. split.
  - intros Heq. exists r. split; [|unfold row_key, grant_target in Hk; split; congruence].
    apply find_current_Some; [done|]. split_and!; [done| |].
    + unfold row_key, grant_target, grant_secret in Hk. unfold row_secret. congruence.
    + intros r' Hr' Hk'. destruct (vo_newest _ Hd r' Hr') as (c' & Hc' & Hck' & Hle).
      assert (c' = c) as -> by (apply (unique_eq ref_key (vt_current d)); [apply Hd|done..|];
        rewrite Hck', Hck, Hk'; done).
      rewrite Heq in Hle. unfold row_key, grant_target in Hk. injection Hk as _ _ ->. done.
  - intros (r' & Hf & Hrev & _). destruct (current_ref_of _ _ _ _ Hd Hf) as (c' & Hc' & Hck' & Heq).
    rewrite <- Hrev, <- Heq. f_equal. apply (unique_eq ref_key (vt_current d)); [apply Hd|done..|].
    rewrite Hck, Hck'. done.
Qed.

Lemma releases_grant g g' token cap scope now d r v :
  vault_ok d → g ∈ vt_grants d → gw_token_hash g = sha256_hex token →
  releases g' token cap scope now d r v → g' = g.
Proof.
  intros Hd Hg Hh []. apply (unique_eq gw_token_hash (vt_grants d)); [apply Hd|done..|congruence].
Qed.

Ltac refuse Hsame :=
  left; eexists; split; [done|];
  let Hrl := fresh in intros ? ? ? Hrl; destruct (Hsame _ _ _ Hrl); destruct Hrl;
  try done; try lia; try congruence.

Lemma redeem_cases token cap scope now d :
  vault_ok d →
  let call := redeem_grant token cap scope now d in
  (∃ m, call = (d, Err (SecretGrantError m)) ∧ ∀ g r v, ¬ releases g token cap scope now d r v) ∨
  ∃ g r v, releases g token cap scope now d r v ∧
    call = (consumed g now d, Ok (grant_material g r scope v)).
Proof.
  intros Hd. cbv zeta. unfold redeem_grant. rewrite run_bind, run_transaction, run_gets_bind.
  destruct (grant_join _ d) as [[[g r] c]|] eqn:Hj.
  2:{ left. eexists. split; [done|]. intros g r v [Hg Hh _].
      destruct (grant_join_in g d Hd Hg) as (r' & c' & Hj' & _). congruence. }
  destruct (grant_join_Some _ _ _ _ _ Hd Hj) as [Hg Hh]. rewrite <- Hh in Hj.
  pose proof (λ g' r' v', releases_grant g g' token cap scope now d r' v' Hd Hg Hh) as Hsame.
  cbv zeta. rewrite run_unless_bind. case_bool_decide as H1; [|refuse Hsame].
  rewrite run_unless_bind. destruct (Z.ltb_spec now (gr_expires_at (gw_receipt g))) as [H2|H2]; [|refuse Hsame].
  rewrite run_unless_bind. case_bool_decide as H3; [|refuse Hsame].
  rewrite run_unless_bind. case_bool_decide as H4; [|refuse Hsame].
  destruct (grant_join_in g d Hd Hg) as (r' & c' & Hj' & Hr & Hk & _).
  rewrite Hj in Hj'. injection Hj' as <- <-.
  rewrite run_unless_bind. destruct (Z.eqb_spec (cr_revision c) (gr_revision (gw_receipt g))) as [H5|H5].
  2:{ refuse Hsame. apply H5. apply (join_current _ _ _ _ Hd Hg Hj). 
      eexists. split_and!; [done..|]. apply (unique_eq row_key (vt_revisions d)); [apply Hd| |done|].
      - by apply (find_current_Some _ _ _ _ Hd) in rl_current0 as [? _].
      - apply (find_current_Some _ _ _ _ Hd) in rl_current0 as (_ & Hx & _).
        rewrite Hk. unfold row_key, row_secret, grant_target, grant_secret in *. congruence. }
  destruct (proj1 (join_current _ _ _ _ Hd Hg Hj) H5) as (r' & Hfc & Hrev & ->).
  rewrite run_unless_bind. case_bool_decide as H6; [|refuse Hsame].
  destruct (so_value _ (vo_rows _ Hd r Hr) H6) as [v Hv].
  rewrite run_outcome_bind, Hv, consume_run by done.
  right. exists g, r, v. split; [by split|].
  rewrite run_outcome. fold (grant_material g r scope v). by rewrite (material_valid g r scope v d).
Qed.
End Calls.

(** ** Histories *)

Inductive vault_op :=
  | OpCreateSecret (tenant name : string) (scopes : list string) (by_ : string) (id : option string)
      (fresh : string) (now : Z)
  | OpFulfill (tenant id : string) (expected : Z) (value by_ nonce : string) (now : Z)
  | OpRotate (tenant id : string) (expected : Z) (value by_ : string) (scopes : option (list string))
      (nonce : string) (now : Z)
  | OpRevokeSecret (tenant id : string) (expected : Z) (by_ : string) (now : Z)
  | OpIssue (tenant id capability : string) (scopes : list string) (ttl : Z) (grant token : string)
      (now : Z)
  | OpRedeem (token capability scope : string) (now : Z)
  | OpStoreSecret (tenant actor id : string) (expected : Z) (value : string)
      (scopes : option (list string)) (nonce : string) (now : Z)
  | OpSandbox (tenant id scope mount grant token : string) (now now' : Z)
  | OpEnvironment (tenant id environment grant token : string) (now now' : Z).

Section Histories.
Context {C : HostKeySecretCipher}.

Definition step_vault (d : vault_db) (op : vault_op) : vault_db :=
  match op with
  | OpCreateSecret t n l b o f now => (create_pending t n l b o f now d).1
  | OpFulfill t i e v b n now => (fulfill t i e v b n now d).1
  | OpRotate t i e v b l n now => (rotate t i e v b l n now d).1
  | OpRevokeSecret t i e b now => (revoke t i e b now d).1
  | OpIssue t i c l ttl g tok now => (issue_grant t i c l ttl g tok now d).1
  | OpRedeem tok c s now => (redeem_grant tok c s now d).1
  | OpStoreSecret t a i e v l n now => (service_store t a i e v l n now d).1
  | OpSandbox t i s m g tok now now' => (resolve_for_sandbox t i s m g tok now now' d).1
  | OpEnvironment t i n g tok now now' => (resolve_for_runtime_environment t i n g tok now now' d).1
  end.
Definition run_vault (ops : list vault_op) (d : vault_db) : vault_db := foldl step_vault d ops.
End Histories.

Section Advance.
Context {C : HostKeySecretCipher} {Laws : CipherLaws C}.

Definition reached (d0 d : vault_db) : Prop := vault_ok d ∧ vault_advance d0 d.
Definition grows {A} (m : M vault_db A) : Prop := ∀ d, vault_ok d → reached d (m d).1.

Lemma reached_refl d : vault_ok d → reached d d.
Proof. split; [done|apply vault_advance_refl]. Qed.

Lemma grows_preserves {A} (m : M vault_db A) d0 : grows m → preserves (reached d0) m.
Proof.
  intros Hm d [Hd H0]. destruct (Hm d Hd) as [Hd' H1].
  split; [done|by eapply vault_advance_trans].
Qed.

Lemma preserves_grows {A} (m : M vault_db A) : (∀ d0, preserves (reached d0) m) → grows m.
Proof. intros Hm d Hd. by apply Hm, reached_refl. Qed.

Lemma write_grows t i e es v l b n now :
  es ≠ SecretRevoked → grows (write_active_revision t i e es v l b n now).
Proof.
  intros Hes d Hd.
  destruct (write_cases t i e es v l b n now d Hd Hes) as [(x & ->)|(r & nr & Hcur & _ & _ & Hs & _ & _ & ->)];
    [by apply reached_refl|].
  destruct (move_ok t i r nr now b d Hd Hcur Hs) as (? & ? & _). done.
Qed.

Lemma create_grows t n l b o f now : grows (create_pending t n l b o f now).
Proof.
  intros d Hd. destruct (create_cases t n l b o f now d Hd) as [(x & ->)|(h & -> & ? & ?)];
    [by apply reached_refl|done].
Qed.

Lemma revoke_grows t i e b now : grows (revoke t i e b now).
Proof.
  intros d Hd.
  destruct (revoke_cases t i e b now d Hd) as [(x & ->)|[(r & _ & _ & ->)|(r & nr & Hcur & _ & Hs & _ & ->)]];
    [by apply reached_refl..|].
  destruct (move_ok t i r nr now b d Hd Hcur Hs) as (? & ? & _). done.
Qed.

Lemma issue_grows t i c l ttl g tok now : grows (issue_grant t i c l ttl g tok now).
Proof.
  intros d Hd. destruct (issue_cases t i c l ttl g tok now d Hd)
    as [(x & ->)|(r & k & _ & _ & _ & _ & _ & _ & _ & _ & _ & -> & ? & ?)]; [by apply reached_refl|done].
Qed.

Lemma redeem_grows tok c s now : grows (redeem_grant tok c s now).
Proof.
  intros d Hd. destruct (redeem_cases tok c s now d Hd) as [(m & -> & _)|(g & r & v & _ & ->)];
    [by apply reached_refl|]. by apply consumed_ok.
Qed.

Lemma get_handle_grows t i : grows (get_handle t i).
Proof.
  apply preserves_grows. intros d0. unfold get_handle. apply preserves_bind; [auto with tulpa|].
  intros [r|]; auto with tulpa.
Qed.

Create HintDb vault.
#[local] Hint Resolve grows_preserves write_grows create_grows revoke_grows issue_grows redeem_grows
  get_handle_grows : vault.

Lemma fulfill_grows t i e v b n now : grows (fulfill t i e v b n now).
Proof. by apply write_grows. Qed.

Lemma rotate_grows t i e v b l n now : grows (rotate t i e v b l n now).
Proof.
  apply preserves_grows. intros d0. unfold rotate. apply preserves_bind; [auto with tulpa|].
  intros clean. by apply grows_preserves, write_grows.
Qed.

Lemma store_grows t a i e v l n now : grows (service_store t a i e v l n now).
Proof.
  apply preserves_grows. intros d0. unfold service_store. apply preserves_bind; [auto with vault|].
  intros [h|]; [|auto with tulpa]. destruct (sh_state h); [| |auto with tulpa].
  - apply preserves_bind; [auto with tulpa|]. intros _. by apply grows_preserves, fulfill_grows.
  - by apply grows_preserves, rotate_grows.
Qed.

Lemma sandbox_grows t i s m g tok now now' : grows (resolve_for_sandbox t i s m g tok now now').
Proof.
  apply preserves_grows. intros d0. unfold resolve_for_sandbox. apply preserves_bind; [auto with tulpa|].
  intros _. apply preserves_bind; [auto with vault|]. intros ig.
  apply preserves_bind; [auto with vault|]. intros x. auto with tulpa.
Qed.

Lemma environment_grows t i n g tok now now' :
  grows (resolve_for_runtime_environment t i n g tok now now').
Proof.
  apply preserves_grows. intros d0. unfold resolve_for_runtime_environment.
  apply preserves_bind; [auto with vault|]. intros [h|]; [|auto with tulpa].
  do 3 (apply preserves_bind; [auto with tulpa|]; intros _).
  apply preserves_bind; [auto with vault|]. intros ig.
  apply preserves_bind; [auto with vault|]. intros x. auto with tulpa.
Qed.

Lemma step_vault_reached d op : vault_ok d → reached d (step_vault d op).
Proof.
  destruct op; simpl; intros Hd; first
    [by apply create_grows|by apply fulfill_grows|by apply rotate_grows|by apply revoke_grows
    |by apply issue_grows|by apply redeem_grows|by apply store_grows|by apply sandbox_grows
    |by apply environment_grows].
Qed.

Lemma run_vault_reached ops d : vault_ok d → reached d (run_vault ops d).
Proof.
  revert d. induction ops as [|op ops IH]; intros d Hd; [by apply reached_refl|]. simpl.
  destruct (step_vault_reached d op Hd) as [Hd' H1]. destruct (IH _ Hd') as [Hd'' H2].
  split; [done|by eapply vault_advance_trans].
Qed.
End Advance.

(** ** Properties *)

Section Properties.
Context {C : HostKeySecretCipher} {Laws : CipherLaws C}.
Abbreviation reachable ops := (run_vault ops no_secrets).

Lemma vault_reachable_ok ops : vault_ok (reachable ops).
Proof. apply run_vault_reached, no_secrets_ok. Qed.

Lemma all_ok_rows {A B} (f : A → outcome B) (l : list A) :
  (∀ x, x ∈ l → ∃ y, f x = Ok y) → ∃ ys, all_ok (map f l) = Ok ys ∧ ∀ x y, x ∈ l → f x = Ok y → y ∈ ys.
Proof.
  induction l as [|x l IH]; intros H; [exists []; set_solver|]. simpl.
  destruct (H x) as [y Hy]; [set_solver|]. destruct IH as (ys & Hys & Hin); [set_solver|].
  rewrite Hy, Hys. exists (y :: ys). split; [done|]. intros x' y' [->|Hx]%elem_of_cons Hf; [|set_solver].
  rewrite Hy in Hf. injection Hf as ->. set_solver.
Qed.

Lemma redeem_consumed g token cap scope now d :
  vault_ok d → g ∈ vt_grants d → gw_token_hash g = sha256_hex token →
  is_Some (gw_consumed_at g) →
  redeem_grant token cap scope now d = (d, Err (SecretGrantError "secret grant was already consumed")).
Proof.
  intros Hd Hg Hh [t Ht]. unfold redeem_grant. rewrite run_bind, run_transaction, run_gets_bind.
  destruct (grant_join_in g d Hd Hg) as (r & c & Hj & _). rewrite <- Hh, Hj. cbv zeta.
  rewrite run_unless_bind, Ht. by rewrite bool_decide_eq_false_2.
Qed.

(** C25: a grant releases a value once: after a redemption succeeded, every
    later redemption of the same token is refused, whatever calls come in
    between and whatever capability, scope and time it names, and changes
    nothing. *)
Theorem grant_redeemed_once ops token cap scope now d1 m :
  redeem_grant token cap scope now (reachable ops) = (d1, Ok m) →
  ∀ ops' cap' scope' now', let d' := run_vault ops' d1 in
  redeem_grant token cap' scope' now' d' =
    (d', Err (SecretGrantError "secret grant was already consumed")).
Proof.
  intros Hcall ops' cap' scope' now'. cbv zeta. pose proof (vault_reachable_ok ops) as Hd.
  destruct (redeem_cases token cap scope now _ Hd) as [(x & Hx & _)|(g & r & v & Hrl & Hx)];
    rewrite Hcall in Hx; [done|]. injection Hx as -> _.
  destruct (consumed_ok g now _ Hd) as [Hd1 _].
  destruct (run_vault_reached ops' _ Hd1) as [Hd' Hadv].
  destruct (va_grants _ _ Hadv (g <| gw_consumed_at := Some now |>)) as (g' & Hg' & Hr' & Hh' & Hc').
  { simpl. apply elem_of_update. exists g. split; [apply Hrl|].
    by rewrite (rl_unused _ _ _ _ _ _ _ _ Hrl), !bool_decide_eq_true_2. }
  apply (redeem_consumed g'); [done..| |apply Hc'; by eexists].
  rewrite Hh'. apply (rl_token _ _ _ _ _ _ _ _ Hrl).
Qed.

(** A redemption succeeds exactly for the capability the grant was issued
    to, with a scope it carries and the secret allows, before it expires, while
    the secret's current revision is the granted one and active; it returns the
    value stored in that revision and only marks the grant as used. *)
Theorem grant_confined ops token cap scope now :
  let d := reachable ops in
  let '(d1, res) := redeem_grant token cap scope now d in
  match res with
  | Ok m => ∃ g r, releases g token cap scope now d r (sm_value m) ∧ scope ∈ sh_scopes (sr_handle r) ∧
                   m = grant_material g r scope (sm_value m) ∧ d1 = consumed g now d
  | Err _ => d1 = d ∧ ∀ g r v, ¬ releases g token cap scope now d r v
  end.
Proof.
  cbv zeta. pose proof (vault_reachable_ok ops) as Hd.
  destruct (redeem_cases token cap scope now _ Hd) as [(x & -> & Hno)|(g & r & v & Hrl & ->)]; [done|].
  exists g, r. split_and!; [done| |done|done].
  destruct (vo_grants _ Hd g (rl_grant _ _ _ _ _ _ _ _ Hrl)) as (_ & r' & Hr' & Hk & _ & Hin).
  assert (r' = r) as ->.
  { destruct Hrl. apply (find_current_Some _ _ _ _ Hd) in rl_current0 as (Hr & Hs & _).
    apply (unique_eq row_key (vt_revisions (reachable ops))); [apply Hd|done..|].
    rewrite Hk. unfold row_key, row_secret, grant_target, grant_secret in *. congruence. }
  apply Hin, (rl_scope _ _ _ _ _ _ _ _ Hrl).
Qed.

(** The current row stays current while nothing newer is stored. *)
Lemma still_current d d' t i r r' :
  reached d d' → vault_ok d → find_current t i d = Some r → find_current t i d' = Some r' →
  sr_revision r' = sr_revision r → r' = r.
Proof.
  intros [Hd' Hadv] Hd (Hr & Hk & _)%find_current_Some (Hr' & Hk' & _)%find_current_Some Hrev; [|done..].
  apply (unique_eq row_key (vt_revisions d')); [apply Hd'|done|by apply Hadv|].
  unfold row_key, row_secret in *. congruence.
Qed.

Lemma revoked_stays d d' t i r :
  reached d d' → vault_ok d → find_current t i d = Some r → sr_state r = SecretRevoked →
  find_current t i d' = Some r.
Proof.
  intros [Hd' Hadv] Hd (Hr & Hk & _)%find_current_Some Hst; [|done].
  apply find_current_Some; [done|]. split_and!; [by apply Hadv|done|].
  intros r' Hr' Hk'. apply (vo_revoked _ Hd'); [by apply Hadv|done|congruence|done].
Qed.

(** C26: revocation is final: after a revocation succeeded, whatever happens
    next, no grant of the secret (outstanding or new) is redeemed, no grant can
    be issued and no value stored, and the handle still reads as revoked. *)
Theorem revocation_final ops t i e by_ now d1 h :
  revoke t i e by_ now (reachable ops) = (d1, Ok h) →
  ∀ ops', let d' := run_vault ops' d1 in
  get_handle t i d' = (d', Ok (Some h)) ∧ sh_state h = SecretRevoked ∧
  (∀ g token cap scope now', g ∈ vt_grants d' → grant_secret g = (t, i) →
     gw_token_hash g = sha256_hex token →
     ∃ x, redeem_grant token cap scope now' d' = (d', Err (SecretGrantError x))) ∧
  (∀ cap l ttl gid token now', ∃ x, issue_grant t i cap l ttl gid token now' d' = (d', Err x)) ∧
  (∀ actor e' v l nonce now', ∃ x, service_store t actor i e' v l nonce now' d' = (d', Err x)).
Proof.
  intros Hcall ops'. cbv zeta. pose proof (vault_reachable_ok ops) as Hd.
  assert (∃ r, find_current t i d1 = Some r ∧ sr_state r = SecretRevoked ∧ h = sr_handle r ∧ vault_ok d1)
    as (r & Hcur & Hst & -> & Hd1).
  { destruct (revoke_cases t i e by_ now _ Hd) as [(x & Hx)|[(r & Hf & Hs & Hx)|(r & nr & Hf & _ & Hs & Hst & Hx)]];
      rewrite Hcall in Hx; [done|injection Hx as -> ->; by exists r|]. injection Hx as -> ->.
    exists nr. destruct (move_ok t i r nr now by_ _ Hd Hf Hs) as (? & ? & ?). done. }
  pose proof (run_vault_reached ops' d1 Hd1) as Hre. destruct Hre as [Hd' Hadv] eqn:E. clear E.
  set (d' := run_vault ops' d1) in *.
  pose proof (revoked_stays d1 d' t i r (conj Hd' Hadv) Hd1 Hcur Hst) as Hcur'.
  destruct (row_handle_valid _ _ _ _ Hd' Hcur') as (Hh & Hr & Hk & _).
  assert (get_handle t i d' = (d', Ok (Some (sr_handle r)))) as Hget.
  { unfold get_handle. rewrite run_gets_bind, Hcur', run_outcome_bind, Hh. done. }
  split_and!; [done|done| | |].
  - intros g token cap scope now' Hg Hgs Hgh.
    destruct (redeem_cases token cap scope now' d' Hd') as [(x & -> & _)|(g' & r' & v & Hrl & _)];
      [by eexists|exfalso].
    pose proof (releases_grant g g' _ _ _ _ _ _ _ Hd' Hg Hgh Hrl) as ->. destruct Hrl.
    unfold grant_secret in Hgs. injection Hgs as Hg1 Hg2. rewrite Hg1, Hg2, Hcur' in rl_current0.
    congruence.
  - intros cap l ttl gid token now'.
    destruct (issue_cases t i cap l ttl gid token now' d' Hd') as [(x & ->)|(r' & k & Hf & Ha & _)];
      [by eexists|congruence].
  - intros actor e' v l nonce now'. unfold service_store. rewrite run_bind, Hget.
    change (sh_state (sr_handle r)) with (sr_state r). rewrite Hst. by eexists.
Qed.

Lemma store_row t actor i e v l nonce now d d1 h :
  vault_ok d → service_store t actor i e v l nonce now d = (d1, Ok h) →
  ∃ nr, find_current t i d1 = Some nr ∧ h = sr_handle nr ∧ sr_state nr = SecretActive ∧
    open_row nr = Ok v ∧ vault_ok d1.
Proof.
  intros Hd. assert (∀ es l', es ≠ SecretRevoked →
    write_active_revision t i e es v l' actor nonce now d = (d1, Ok h) →
    ∃ nr, find_current t i d1 = Some nr ∧ h = sr_handle nr ∧ sr_state nr = SecretActive ∧
      open_row nr = Ok v ∧ vault_ok d1) as Hw.
  { intros es l' Hes Hx.
    destruct (write_cases t i e es v l' actor nonce now d Hd Hes)
      as [(x & Hy)|(r & nr & Hf & _ & _ & Hs & Ha & Ho & Hy)]; rewrite Hx in Hy; [done|].
    injection Hy as -> ->. exists nr. destruct (move_ok t i r nr now actor d Hd Hf Hs) as (? & ? & ?). done. }
  unfold service_store, get_handle. rewrite run_bind_assoc, run_gets_bind.
  destruct (find_current t i d) as [r|] eqn:Hcur; [|done].
  destruct (row_handle_valid _ _ _ _ Hd Hcur) as (-> & _). rewrite run_bind_assoc, run_outcome_bind, run_ret_bind.
  destruct (sh_state (sr_handle r)); [| |done].
  - rewrite run_unless_bind. destruct l; [done|]. by apply Hw.
  - unfold rotate. rewrite run_outcome_bind.
    destruct (match l with Some _ => _ | None => _ end); [|done]. by apply Hw.
Qed.

(** C27: nothing leaks through redaction but the keys of a payload: once a value
    has been stored for a tenant, every later redaction of a text or payload of
    that tenant returns, also after the secret was rotated or revoked. The
    redacted text does not contain the value; the redacted payload, a JSON value,
    contains it in a text or key exactly if a key of the payload given contained
    it, since keys are kept. Excepted are values that share a bracket with the
    replacement marker or are part of the word inside it. *)
Theorem redaction_complete ops t actor i e v l nonce now d1 h :
  service_store t actor i e v l nonce now (reachable ops) = (d1, Ok h) → marker_free v = true →
  ∀ ops' text payload, let d' := run_vault ops' d1 in
  (∃ out, vault_redact_text t text d' = Ok out ∧ contains v out = false) ∧
  (∃ out, vault_redact_payload t payload d' = Ok out ∧ payload_contains v out = keys_contain v payload).
Proof.
  intros Hcall Hv ops' text payload. cbv zeta.
  destruct (store_row _ _ _ _ _ _ _ _ _ _ _ (vault_reachable_ok ops) Hcall) as (nr & Hcur & -> & Hst & Ho & Hd1).
  destruct (run_vault_reached ops' d1 Hd1) as [Hd' Hadv].
  apply (find_current_Some _ _ _ _ Hd1) in Hcur as (Hnr & Hk & _).
  destruct (all_ok_rows open_row (select (λ r, (sr_tenant r == t) && (sr_state r == SecretActive))
    (vt_revisions (run_vault ops' d1)))) as (values & Hvals & Hin).
  { intros r [Hr [_ H%bool_decide_eq_true]%andb_true_iff]%elem_of_select.
    by apply (so_value _ (vo_rows _ Hd' r Hr)). }
  assert (v ∈ values) as Hmem.
  { apply (Hin nr); [|done]. apply elem_of_select. split; [by apply Hadv|].
    unfold row_secret in Hk. injection Hk as Hk _. by rewrite !bool_decide_eq_true_2. }
  unfold vault_redact_text, vault_redact_payload, plaintext_values. rewrite Hvals.
  split; eexists; (split; [reflexivity|]); [by apply redact_text_absent|by apply redact_payload_keys].
Qed.

Lemma issue_succeeds t i cap s gid token now d r :
  vault_ok d → find_current t i d = Some r → sr_state r = SecretActive → s ∈ sh_scopes (sr_handle r) →
  slug gid = Some gid → slug cap = Some cap →
  (∀ g, g ∈ vt_grants d → gw_id g ≠ gid ∧ gw_token_hash g ≠ sha256_hex token) →
  let k := GrantReceipt gid t i (sr_revision r) cap [s] (now + 60 * 1000000) in
  issue_grant t i cap [s] 60 gid token now d =
    (granted (GrantRow k (sha256_hex token) now None) d, Ok (IssuedGrant k token)).
Proof.
  intros Hd Hcur Hst Hs Hgid Hcap Hfresh. cbv zeta.
  destruct (row_handle_valid _ _ _ _ Hd Hcur) as (Hh & Hr & Hk & Hval).
  destruct (validate_handle_Ok _ _ Hval) as (Ht & Hi & _ & Hsc & _ & _ & Hrev & _).
  pose proof (scopes_field_elem _ _ _ Hsc Hs) as Hs'.
  assert (strip s = s ∧ s ≠ "") as [Hstrip Hne].
  { revert Hs'. unfold secret_scope. destruct (forallb _ _) eqn:E; [|done]. intros [= Hx].
    split; [done|]. intros ->. by vm_compute in E. }
  unfold row_secret, sr_tenant, sr_id in Hk. injection Hk as Hk1 Hk2.
  unfold issue_grant. rewrite run_outcome_bind. unfold clean_scopes. simpl map. rewrite Hstrip.
  simpl existsb. rewrite (bool_decide_eq_false_2 (s = "")) by done. simpl.
  rewrite run_transaction, current_row_bind, Hcur, run_outcome_bind, Hh, run_unless_bind.
  change (sh_state (sr_handle r)) with (sr_state r). rewrite Hst, bool_decide_eq_true_2 by done.
  rewrite run_unless_bind. simpl forallb. rewrite (bool_decide_eq_true_2 (s ∈ _)) by done. simpl.
  unfold validate_receipt, scopes_field. simpl. rewrite Hs', Hgid, Hcap, Ht, Hi.
  simpl. rewrite (proj2 (Z.leb_le 1 _)) by done. rewrite run_outcome_bind.
  unfold insert_grant. rewrite run_try_modify_bind, insert_row_ok.
  - simpl. unfold sr_revision. by rewrite Hk1, Hk2.
  - intros g Hg. destruct (Hfresh g Hg) as [H1 H2]. unfold grant_clash, gw_id. simpl.
    by rewrite !bool_decide_eq_false_2.
Qed.

(** C28: a stored value is what the service resolves: after [store] returned a
    handle, whatever happens next, as long as that revision is current a
    sandbox mount with one of its scopes that is redeemed within a minute gets
    exactly the value that was stored. *)
Theorem stored_value_resolves ops t actor i e v l nonce now d1 h ops' scope mount gid token now1 now2 :
  service_store t actor i e v l nonce now (reachable ops) = (d1, Ok h) →
  let d' := run_vault ops' d1 in
  (∃ r, find_current t i d' = Some r ∧ sr_revision r = sh_revision h) →
  scope ∈ sh_scopes h → strip mount ∈ ["ssh_password"; "ssh_private_key"] →
  slug gid = Some gid → now2 < now1 + 60000000 →
  (∀ g, g ∈ vt_grants d' → gw_id g ≠ gid ∧ gw_token_hash g ≠ sha256_hex token) →
  (resolve_for_sandbox t i scope mount gid token now1 now2 d').2 = Ok v.
Proof.
  intros Hcall. cbv zeta. intros (r & Hr & Hrev) Hscope Hmount Hgid Htime Hfresh.
  destruct (store_row _ _ _ _ _ _ _ _ _ _ _ (vault_reachable_ok ops) Hcall) as (nr & Hcur & -> & Hst & Ho & Hd1).
  pose proof (run_vault_reached ops' d1 Hd1) as Hre. set (d' := run_vault ops' d1) in *.
  assert (r = nr) as -> by (by eapply still_current).
  destruct Hre as [Hd' _]. unfold resolve_for_sandbox. rewrite run_unless_bind, bool_decide_eq_true_2 by done.
  assert (slug sandbox_capability = Some sandbox_capability) as Hcap by reflexivity.
  pose proof (issue_succeeds t i sandbox_capability scope gid token now1 d' nr Hd' Hr Hst Hscope Hgid Hcap
    Hfresh) as Hissue. cbv zeta in Hissue. rewrite run_bind, Hissue. simpl ig_token.
  set (k := GrantReceipt _ _ _ _ _ _ _) in *. set (g := GrantRow _ _ _ _) in *.
  pose proof (issue_grows t i sandbox_capability [scope] 60 gid token now1 d' Hd') as [Hd2 _].
  rewrite Hissue in Hd2. simpl in Hd2.
  assert (releases g token sandbox_capability scope now2 (granted g d') nr v) as Hrel.
  { split; try done; try reflexivity.
    - apply elem_of_app. right. by apply list_elem_of_singleton.
    - simpl. by apply list_elem_of_singleton. }
  rewrite run_bind. destruct (redeem_cases token sandbox_capability scope now2 _ Hd2)
    as [(x & _ & Hno)|(g' & r' & v' & Hrl & ->)]; [by destruct (Hno g nr v)|].
  pose proof (releases_grant g g' _ _ _ _ _ _ _ Hd2 (rl_grant _ _ _ _ _ _ _ _ Hrel)
    (rl_token _ _ _ _ _ _ _ _ Hrel) Hrl) as ->.
  destruct Hrel, Hrl. simpl in *. congruence.
Qed.
End Properties.

(** ** Witnesses *)

#[local] Existing Instance sample_cipher.

Definition sample_secret_ops : list vault_op :=
  [OpCreateSecret "t" "api_key" ["credential.use"] "owner" (Some "sec-1") "fresh" 1].
Definition sample_store : list vault_op :=
  sample_secret_ops ++ [OpStoreSecret "t" "owner" "sec-1" 1 "hunter2" None "n" 2].
Definition sample_issue : list vault_op :=
  sample_store ++ [OpIssue "t" "sec-1" "cap" ["credential.use"] 60 "grant_1" "token" 3].

Definition sample_material : secret_material :=
  SecretMaterial "grant_1" "sec-1" "api_key" "credential.use" "hunter2".
Definition sample_handle : secret_handle :=
  SecretHandle "t" "sec-1" 2 "api_key" SecretActive ["credential.use"] 2 "owner".
Definition sample_stored : vault_db * outcome secret_handle :=
  service_store "t" "owner" "sec-1" 1 "hunter2" None "n" 2 (run_vault sample_secret_ops no_secrets).
Definition sample_redeemed : vault_db * outcome secret_material :=
  redeem_grant "token" "cap" "credential.use" 4 (run_vault sample_issue no_secrets).
Definition sample_revoked : vault_db * outcome secret_handle :=
  revoke "t" "sec-1" 2 "owner" 4 (run_vault sample_issue no_secrets).

Lemma pair_outcome {S A} (x : S * outcome A) a : x.2 = Ok a → x = (x.1, Ok a).
Proof. destruct x. simpl. congruence. Qed.

Lemma grant_redeemed_once_witness :
  let d' := run_vault [OpRevokeSecret "t" "sec-1" 2 "owner" 4] sample_redeemed.1 in
  redeem_grant "token" "cap" "credential.use" 5 d' =
    (d', Err (SecretGrantError "secret grant was already consumed")).
Proof.
  assert (redeem_grant "token" "cap" "credential.use" 4 (run_vault sample_issue no_secrets) =
    (sample_redeemed.1, Ok sample_material)) as E by (vm_compute; reflexivity).
  exact (grant_redeemed_once (C := sample_cipher) sample_issue "token" "cap" "credential.use" 4
    sample_redeemed.1 sample_material E [OpRevokeSecret "t" "sec-1" 2 "owner" 4] "cap" "credential.use" 5).
Defined.

Lemma grant_confined_witness :
  ∃ g r, releases g "token" "cap" "credential.use" 4 (run_vault sample_issue no_secrets) r "hunter2".
Proof.
  assert (redeem_grant "token" "cap" "credential.use" 4 (run_vault sample_issue no_secrets) =
    (sample_redeemed.1, Ok sample_material)) as E by (vm_compute; reflexivity).
  pose proof (grant_confined (C := sample_cipher) sample_issue "token" "cap" "credential.use" 4) as H.
  cbv zeta in H. rewrite E in H. destruct H as (g & r & H & _). exists g, r. exact H.
Defined.

Lemma revocation_final_witness :
  ∃ x, issue_grant "t" "sec-1" "cap" ["credential.use"] 60 "grant_2" "other" 5 sample_revoked.1 =
    (sample_revoked.1, Err x).
Proof.
  assert (sample_revoked.2 =
    Ok (SecretHandle "t" "sec-1" 3 "api_key" SecretRevoked ["credential.use"] 4 "owner")) as E
    by (vm_compute; reflexivity).
  destruct (revocation_final (C := sample_cipher) sample_issue "t" "sec-1" 2 "owner" 4
    sample_revoked.1 _ (pair_outcome sample_revoked _ E) []) as (_ & _ & _ & H & _).
  exact (H "cap" ["credential.use"] 60 "grant_2" "other" 5).
Defined.

(** The value stays redacted after it was replaced and the secret revoked. *)
Definition sample_after : list vault_op :=
  [OpStoreSecret "t" "owner" "sec-1" 2 "swordfish" None "m" 3; OpRevokeSecret "t" "sec-1" 3 "owner" 4].

Definition sample_payload : json := JObj [("user", JStr "root"); ("tried", JArr [JStr "hunter2"; JStr "hunter3"])].
Lemma redaction_complete_witness :
  (∃ out, vault_redact_text "t" "login hunter2 failed" (run_vault sample_after sample_stored.1) = Ok out ∧
          contains "hunter2" out = false) ∧
  payload_contains "hunter2" sample_payload = true ∧
  ∃ out, vault_redact_payload "t" sample_payload (run_vault sample_after sample_stored.1) = Ok out ∧
         payload_contains "hunter2" out = false.
Proof.
  assert (sample_stored.2 = Ok sample_handle) as E by (vm_compute; reflexivity).
  destruct (redaction_complete (C := sample_cipher) sample_secret_ops "t" "owner" "sec-1" 1 "hunter2" None
    "n" 2 sample_stored.1 sample_handle (pair_outcome sample_stored _ E) eq_refl sample_after
    "login hunter2 failed" sample_payload) as [H (out & Ho & Hp)].
  split; [exact H|]. split; [reflexivity|]. exists out. split; [exact Ho|]. rewrite Hp. reflexivity.
Defined.

Lemma stored_value_resolves_witness :
  (resolve_for_sandbox "t" "sec-1" "credential.use" "ssh_password" "grant_1" "token" 3 4
     sample_stored.1).2 = Ok "hunter2".
Proof.
  assert (sample_stored.2 = Ok sample_handle) as E by (vm_compute; reflexivity).
  assert (option_map sr_revision (find_current "t" "sec-1" sample_stored.1) = Some 2) as F
    by (vm_compute; reflexivity).
  assert (vt_grants sample_stored.1 = []) as G by (vm_compute; reflexivity).
  apply (stored_value_resolves (C := sample_cipher) sample_secret_ops "t" "owner" "sec-1" 1 "hunter2" None
    "n" 2 sample_stored.1 sample_handle [] "credential.use" "ssh_password" "grant_1" "token" 3 4
    (pair_outcome sample_stored _ E)).
  - cbn [run_vault foldl]. destruct (find_current "t" "sec-1" sample_stored.1) as [r|]; [|discriminate F].
    exists r. split; [reflexivity|]. injection F as F. exact F.
  - apply list_elem_of_singleton. reflexivity.
  - apply elem_of_cons. left. reflexivity.
  - reflexivity.
  - lia.
  - cbn [run_vault foldl]. rewrite G. intros g Hg. exfalso. exact (not_elem_of_nil g Hg).
Defined.

(** What redaction does not cover: the keys of a payload, and a value with a
    bracket, which the marker brings back. *)
Example redaction_keeps_keys :
  redact_payload (JObj [("hunter2", JStr "hunter2")]) ["hunter2"] =
    JObj [("hunter2", JStr "[redacted]")].
Proof. reflexivity. Qed.
Example redaction_brings_bracket_back : contains "[" (redact_text "[" ["["]) = true.
Proof. reflexivity. Qed.
