(* ===== verification/Capabilities.v ===== *)
(** * Capability revisions ([capabilities/revisions.py], [capabilities/models.py])

    The append-only archive of capability manifests, the activation pointer of
    each capability with its generations and its two-phase deactivation, and
    the test attestations. A manifest is the interface [ManifestContent]: the
    store only uses its name, its revision, and that dumping and loading it
    give it back. *)

From S2P Require Import Prelude Sqlite PyText Sha256 Json PyJson Protocol.
#[local] Open Scope string_scope.
#[local] Open Scope list_scope.
#[local] Open Scope Z_scope.

(** ** Manifests *)

(** [manifest_dump] is [model_dump(mode="json")], [manifest_load]
    [CapabilityManifest.model_validate_json]. *)
Class ManifestContent (W : Type) := {
  manifest_name : W → string;
  manifest_revision : W → Z;
  manifest_dump : W → json;
  manifest_load : json → outcome W;
}.
(** [CapabilityName] *)
Definition capability_name (s : string) : option string :=
  let v := strip s in if matches name_char 63 v then Some v else None.
Class ManifestLaws (W : Type) {C : ManifestContent W} : Prop := {
  manifest_name_ok : ∀ w, capability_name (manifest_name w) = Some (manifest_name w);
  manifest_revision_ok : ∀ w, 1 ≤ manifest_revision w;
  manifest_round_trip : ∀ w, manifest_load (canonical (manifest_dump w)) = Ok w;
}.

(** [canonical_json_digest] *)
Definition canonical_json_digest (v : json) : string := "sha256:" +:+ sha256_hex (dumps false v).
Definition content_digest {W} {C : ManifestContent W} (w : W) : string :=
  canonical_json_digest (manifest_dump w).

(** ** Models *)

(** [SchemaDigest] *)
Definition hex_char (c : ascii) : bool := is_digit c || ((97 <=? code c) && (code c <=? 102))%N.
Definition schema_digest (s : string) : option string :=
  let v := strip s in
  let hex := removeprefix "sha256:" v in
  if startswith "sha256:" v && (len hex =? 64) && all_chars hex_char hex then Some v else None.

Record secret_binding := CapabilitySecretBinding {
  sb_handle : string;
  sb_revision : Z;
  sb_scopes : list string;
}.
#[global] Instance secret_binding_eq_dec : EqDecision secret_binding.
Proof. solve_decision. Defined.

Definition validate_secret_binding (b : secret_binding) : option secret_binding :=
  let h := strip (sb_handle b) in
  if matches slug_char 127 h && (1 <=? sb_revision b) then
    l ← scopes_field (sb_scopes b);
    if bool_decide (NoDup l) then Some (CapabilitySecretBinding h (sb_revision b) l) else None
  else None.

Inductive lifecycle := CapActive | CapDeactivating | CapInactive.
#[global] Instance lifecycle_eq_dec : EqDecision lifecycle.
Proof. solve_decision. Defined.

Record activation := CapabilityActivation {
  ca_namespace : string;
  ca_name : string;
  ca_revision : Z;
  ca_digest : string;
  ca_generation : Z;
  ca_activated_at : Z;
  ca_config : list (string * json);
  ca_handles : list (string * string);
  ca_bindings : list (string * secret_binding);
  ca_agent : option run_binding;
}.

(** A [dict] read member by member: keys that become equal keep one place. *)
Definition strip_keys {A} (l : list (string * A)) : list (string * A) :=
  dict_update [] (map (λ kv, (strip kv.1, kv.2)) l).

Definition corrupt_activation : exn :=
  CapabilityRevisionCorruptionError "stored capability activation is invalid".
Definition validate_activation (a : activation) : option activation :=
  namespace ← bounded_field 200 (ca_namespace a);
  name ← capability_name (ca_name a);
  digest ← schema_digest (ca_digest a);
  bindings ← mapM (λ kv, b ← validate_secret_binding kv.2; Some (strip kv.1, b)) (ca_bindings a);
  agent ← match ca_agent a with
          | None => Some None
          | Some b => b' ← validate_binding b;
                      if ar_tenant (rb_agent b') == namespace then Some (Some b') else None
          end;
  if (1 <=? ca_revision a) && (1 <=? ca_generation a) then
    Some (CapabilityActivation namespace name (ca_revision a) digest (ca_generation a)
      (ca_activated_at a) (strip_keys (ca_config a))
      (strip_keys (map (λ kv, (kv.1, strip kv.2)) (ca_handles a)))
      (dict_update [] bindings) agent)
  else None.

Inductive test_status := TestPassed | TestFailed.
#[global] Instance test_status_eq_dec : EqDecision test_status.
Proof. solve_decision. Defined.

Record test_check := CapabilityTestCheck {
  tk_name : string;
  tk_status : test_status;
  tk_message : string;
}.
#[global] Instance test_check_eq_dec : EqDecision test_check.
Proof. solve_decision. Defined.
Record test_result := CapabilityTestResult {
  tr_namespace : string;
  tr_name : string;
  tr_revision : Z;
  tr_digest : string;
  tr_status : test_status;
  tr_checks : list test_check;
  tr_tested_at : string;
}.

#[global] Instance test_result_eq_dec : EqDecision test_result.
Proof. solve_decision. Defined.

Definition validate_check (k : test_check) : option test_check :=
  name ← text_field 1 200 (tk_name k);
  message ← text_field 0 1000 (tk_message k);
  Some (CapabilityTestCheck name (tk_status k) message).

Definition validate_test_result (r : test_result) : option test_result :=
  namespace ← bounded_field 200 (tr_namespace r);
  name ← capability_name (tr_name r);
  digest ← schema_digest (tr_digest r);
  checks ← mapM validate_check (tr_checks r);
  tested_at ← text_field 1 100 (tr_tested_at r);
  let n := Z.of_nat (length checks) in
  if (1 <=? tr_revision r) && (1 <=? n) && (n <=? 200)
     && Bool.eqb (existsb (λ k, tk_status k == TestFailed) checks) (tr_status r == TestFailed)
  then Some (CapabilityTestResult namespace name (tr_revision r) digest (tr_status r) checks tested_at)
  else None.

(** ** Tables *)

Record manifest_row := ManifestRow {
  mr_namespace : string;
  mr_name : string;
  mr_revision : Z;
  mr_digest : string;
  mr_payload : json;
  mr_created_at : Z;
}.
(** The columns of an activation and its [lifecycle_state]. *)
Record activation_row := ActivationRow {
  ax_columns : activation;
  ax_state : lifecycle;
}.
#[global] Instance activation_row_fields : Fields activation_row := λ r,
  ActivationRow (ax_columns r) (ax_state r).

Record capability_db := CapabilityDb {
  cd_revisions : list manifest_row;
  cd_activations : list activation_row;
  cd_tests : list test_result;
}.
#[global] Instance capability_db_fields : Fields capability_db := λ d,
  CapabilityDb (cd_revisions d) (cd_activations d) (cd_tests d).
Definition no_capabilities : capability_db := CapabilityDb [] [] [].

Definition of_capability (ns n : string) (r : manifest_row) : bool :=
  (mr_namespace r == ns) && (mr_name r == n).
Definition at_capability (ns n : string) (k : Z) (r : manifest_row) : bool :=
  of_capability ns n r && (mr_revision r =? k).
Definition activation_of (ns n : string) (r : activation_row) : bool :=
  (ca_namespace (ax_columns r) == ns) && (ca_name (ax_columns r) == n).
Definition ax_generation (r : activation_row) : Z := ca_generation (ax_columns r).
Definition tested (ns n : string) (k : Z) (t : test_result) : bool :=
  (tr_namespace t == ns) && (tr_name t == n) && (tr_revision t =? k).

Definition manifest_clash (r r' : manifest_row) : bool :=
  at_capability (mr_namespace r) (mr_name r) (mr_revision r) r'.
Definition activation_clash (r r' : activation_row) : bool :=
  activation_of (ca_namespace (ax_columns r)) (ca_name (ax_columns r)) r'.

(** ** Pieces *)

Definition capability_conflict (message : string) : exn := CapabilityRevisionConflictError message.

(** [_namespace] *)
Definition safe_namespace (value : string) : outcome string :=
  let safe := strip value in
  if (safe == "") || (200 <? len safe)
  then Err (ValueError "capability namespace must contain 1 to 200 characters")
  else Ok safe.

(** [MAX(revision)] *)
Definition max_revision (l : list Z) : option Z :=
  match l with [] => None | x :: l' => Some (foldr Z.max x l') end.

Definition same_members {A} `{EqDecision A} (a b : list (string * A)) : bool :=
  order_by key_le a == order_by key_le b.

(** What a [*_json] column written with [sort_keys] reads back as. *)
Definition stored_object (l : list (string * json)) : list (string * json) :=
  order_by key_le (map (λ kv, (kv.1, canonical kv.2)) l).

Definition show_generation (o : option Z) : string :=
  match o with Some z => pretty z | None => "None" end.

(** ** The store *)

Section Store.
Context {W : Type} {C : ManifestContent W}.

Definition manifest_from_row (r : manifest_row) : outcome W :=
  match manifest_load (mr_payload r) with
  | Err _ => Err (CapabilityRevisionCorruptionError "stored capability manifest is invalid")
  | Ok w =>
      if content_digest w == mr_digest r then Ok w
      else Err (CapabilityRevisionCorruptionError "stored capability manifest digest does not match")
  end.

Definition activation_from_row (r : activation_row) : outcome activation :=
  match validate_activation (ax_columns r) with Some a => Ok a | None => Err corrupt_activation end.

Definition append_manifest (namespace : string) (w : W) (expected : option Z) (now : Z) :
    M capability_db W :=
  ns ← from_outcome (safe_namespace namespace);
  transaction (
    current ← gets (λ d, max_revision
      (map mr_revision (select (of_capability ns (manifest_name w)) (cd_revisions d))));
    unless (current == expected) (capability_conflict ("expected latest revision "
      +:+ show_generation expected +:+ ", found " +:+ show_generation current));;
    let next := match current with None => 1 | Some k => k + 1 end in
    unless (manifest_revision w =? next) (capability_conflict ("new manifest must be revision "
      +:+ pretty next +:+ ", got " +:+ pretty (manifest_revision w)));;
    try_modify (λ d,
      t ← insert_row manifest_clash (ManifestRow ns (manifest_name w) (manifest_revision w)
            (content_digest w) (canonical (manifest_dump w)) now) (cd_revisions d);
      Some (d <| cd_revisions := t |>)) (capability_conflict "capability revision already exists");;
    mret w).

Definition get_manifest (namespace name : string) (revision : Z) : M capability_db (option W) :=
  ns ← from_outcome (safe_namespace namespace);
  row ← gets (λ d, select_one (at_capability ns name revision) (cd_revisions d));
  match row with
  | None => mret None
  | Some r => w ← from_outcome (manifest_from_row r); mret (Some w)
  end.

Definition list_manifests (namespace name : string) : M capability_db (list W) :=
  ns ← from_outcome (safe_namespace namespace);
  rows ← gets (λ d, order_by (λ x y, mr_revision x <=? mr_revision y)
    (select (of_capability ns name) (cd_revisions d)));
  from_outcome (all_ok (map manifest_from_row rows)).

Definition newest_manifest (d : capability_db) (ns : string) (r : manifest_row) : bool :=
  (mr_namespace r == ns) &&
  (Some (mr_revision r) ==
     max_revision (map mr_revision (select (of_capability ns (mr_name r)) (cd_revisions d)))).
Definition list_latest_manifests (namespace : string) : M capability_db (list W) :=
  ns ← from_outcome (safe_namespace namespace);
  rows ← gets (λ d, order_by (λ x y, text_le (mr_name x) (mr_name y))
    (select (newest_manifest d ns) (cd_revisions d)));
  from_outcome (all_ok (map manifest_from_row rows)).

(** [active], [deactivating] and [inactive] *)
Definition read_activation (st : lifecycle) (namespace name : string) : M capability_db (option activation) :=
  ns ← from_outcome (safe_namespace namespace);
  row ← gets (λ d, select_one (λ r, activation_of ns name r && (ax_state r == st)) (cd_activations d));
  match row with
  | None => mret None
  | Some r => a ← from_outcome (activation_from_row r); mret (Some a)
  end.

Definition by_capability (x y : activation_row) : bool :=
  let nx := ca_namespace (ax_columns x) in let ny := ca_namespace (ax_columns y) in
  if nx == ny then text_le (ca_name (ax_columns x)) (ca_name (ax_columns y)) else text_le nx ny.
Definition list_active_capabilities (namespace : string) : M capability_db (list activation) :=
  ns ← from_outcome (safe_namespace namespace);
  rows ← gets (λ d, order_by by_capability
    (select (λ r, (ca_namespace (ax_columns r) == ns) && (ax_state r == CapActive)) (cd_activations d)));
  from_outcome (all_ok (map activation_from_row rows)).
(** [list_all_active] and [list_all_deactivating] *)
Definition list_all_in (st : lifecycle) : M capability_db (list activation) :=
  rows ← gets (λ d, order_by by_capability (select (λ r, ax_state r == st) (cd_activations d)));
  from_outcome (all_ok (map activation_from_row rows)).

Definition deactivation_in_progress : exn := capability_conflict "capability deactivation is in progress".

Definition next_generation (namespace name : string) : M capability_db Z :=
  ns ← from_outcome (safe_namespace namespace);
  row ← gets (λ d, select_one (activation_of ns name) (cd_activations d));
  match row with
  | None => mret 1
  | Some r =>
      unless (negb (ax_state r == CapDeactivating)) deactivation_in_progress;;
      mret (ax_generation r + 1)
  end.

Record activate_args := ActivateArgs {
  at_namespace : string;
  at_name : string;
  at_revision : Z;
  at_expected : option Z;
  at_config : list (string * json);
  at_handles : list (string * string);
  at_bindings : list (string * secret_binding);
  at_agent : option run_binding;
}.

(** The new columns; [*_json] columns hold the objects they encode. *)
Definition new_columns (a : activate_args) (ns digest : string) (generation now : Z) : activation :=
  CapabilityActivation ns (at_name a) (at_revision a) digest generation now
    (stored_object (at_config a)) (order_by key_le (at_handles a)) (order_by key_le (at_bindings a))
    (at_agent a).

Definition same_activation (a : activate_args) (current : activation) : bool :=
  (ca_revision current =? at_revision a) && same_dict (ca_config current) (at_config a)
  && same_members (ca_handles current) (at_handles a)
  && same_members (ca_bindings current) (at_bindings a) && (ca_agent current == at_agent a).

(** The write of [activate]: an insert for a capability without a record, a
    compare-and-swap on generation and state otherwise. *)
Definition write_activation (a : activate_args) (ns digest : string) (current : option activation_row)
    (generation now : Z) : M capability_db unit :=
  let row := ActivationRow (new_columns a ns digest generation now) CapActive in
  match current with
  | None =>
      try_modify (λ d, t ← insert_row activation_clash row (cd_activations d);
                       Some (d <| cd_activations := t |>)) (IntegrityError "UNIQUE constraint failed")
  | Some r =>
      let mine r' := activation_of ns (at_name a) r' && (ax_generation r' =? ax_generation r)
                     && (ax_state r' == ax_state r) in
      count ← gets (λ d, rowcount mine (cd_activations d));
      modify (λ d, d <| cd_activations := update mine (λ _, row) (cd_activations d) |>);;
      unless (count =? 1)%nat (capability_conflict "capability activation changed concurrently")
  end.

Definition activate_capability (a : activate_args) (now : Z) : M capability_db activation :=
  ns ← from_outcome (safe_namespace (at_namespace a));
  unless (match at_agent a with Some b => ar_tenant (rb_agent b) == ns | None => true end)
    (ValueError "capability agent binding belongs to a different tenant");;
  result ← transaction (
    found ← gets (λ d, select_one (at_capability ns (at_name a) (at_revision a)) (cd_revisions d));
    match found with
    | None => raise (CapabilityRevisionNotFoundError ("capability " +:+ repr (at_name a)
                       +:+ " revision " +:+ pretty (at_revision a) +:+ " does not exist"))
    | Some m =>
        manifest ← from_outcome (manifest_from_row m);
        row ← gets (λ d, select_one (activation_of ns (at_name a)) (cd_activations d));
        current ← from_outcome (match row with
                                | None => Ok None
                                | Some r => c ← activation_from_row r; Ok (Some (r, c))
                                end);
        unless (match row with Some r => negb (ax_state r == CapDeactivating) | None => true end)
          deactivation_in_progress;;
        let live := match current with
                    | Some (r, c) => if ax_state r == CapActive then Some c else None
                    | None => None
                    end in
        unless (option_map ca_generation live == at_expected a)
          (capability_conflict ("expected activation generation " +:+ show_generation (at_expected a)
             +:+ ", found " +:+ show_generation (option_map ca_generation live)));;
        match live with
        | Some c =>
            if same_activation a c then mret (inl c)
            else
              write_activation a ns (content_digest manifest) row (ca_generation c + 1) now;;
              mret (inr (manifest, ca_generation c + 1))
        | None =>
            let generation := match current with None => 1 | Some (_, c) => ca_generation c + 1 end in
            write_activation a ns (content_digest manifest) row generation now;;
            mret (inr (manifest, generation))
        end
    end);
  match result with
  | inl current => mret current
  | inr (manifest, generation) =>
      match validate_activation (CapabilityActivation ns (manifest_name manifest)
              (manifest_revision manifest) (content_digest manifest) generation now (at_config a)
              (at_handles a) (at_bindings a) (at_agent a)) with
      | Some c => mret c
      | None => raise (ValidationError "CapabilityActivation")
      end
  end.

Definition expected_found (expected found : Z) : exn :=
  capability_conflict ("expected activation generation " +:+ pretty expected
    +:+ ", found " +:+ pretty found).

(** The compare-and-swap of the lifecycle column. *)
Definition move_lifecycle (ns name : string) (expected : Z) (from to : lifecycle) : M capability_db unit :=
  let mine r := activation_of ns name r && (ax_generation r =? expected) && (ax_state r == from) in
  count ← gets (λ d, rowcount mine (cd_activations d));
  modify (λ d, d <| cd_activations := update mine (λ r, r <| ax_state := to |>) (cd_activations d) |>);;
  unless (count =? 1)%nat (capability_conflict "capability activation changed concurrently").

Definition begin_deactivation (namespace name : string) (expected : Z) : M capability_db activation :=
  ns ← from_outcome (safe_namespace namespace);
  transaction (
    row ← gets (λ d, select_one (activation_of ns name) (cd_activations d));
    let missing := CapabilityRevisionNotFoundError ("capability " +:+ repr name +:+ " is not active") in
    match row with
    | None => raise missing
    | Some r =>
        active ← from_outcome (activation_from_row r);
        unless (ca_generation active =? expected) (expected_found expected (ca_generation active));;
        match ax_state r with
        | CapDeactivating => mret active
        | CapInactive => raise missing
        | CapActive => move_lifecycle ns name expected CapActive CapDeactivating;; mret active
        end
    end).

(** [_change_deactivation_state] *)
Definition change_deactivation_state (namespace name : string) (expected : Z) (target : lifecycle) :
    M capability_db activation :=
  ns ← from_outcome (safe_namespace namespace);
  transaction (
    row ← gets (λ d, select_one (activation_of ns name) (cd_activations d));
    match row with
    | None => raise (CapabilityRevisionNotFoundError ("capability " +:+ repr name
                       +:+ " has no lifecycle record"))
    | Some r =>
        active ← from_outcome (activation_from_row r);
        unless (ca_generation active =? expected) (expected_found expected (ca_generation active));;
        if ax_state r == target then mret active
        else
          unless (ax_state r == CapDeactivating)
            (capability_conflict "capability generation is not in a deactivation transition");;
          move_lifecycle ns name expected CapDeactivating target;;
          mret active
    end).
Definition cancel_deactivation (namespace name : string) (expected : Z) : M capability_db activation :=
  change_deactivation_state namespace name expected CapActive.
Definition deactivate_capability (namespace name : string) (expected : Z) : M capability_db activation :=
  change_deactivation_state namespace name expected CapInactive.

Definition record_test (t : test_result) : M capability_db test_result :=
  ns ← from_outcome (safe_namespace (tr_namespace t));
  row ← gets (λ d, select_one (at_capability ns (tr_name t) (tr_revision t)) (cd_revisions d));
  match row with
  | None => raise (CapabilityRevisionNotFoundError ("capability " +:+ repr (tr_name t)
                     +:+ " revision " +:+ pretty (tr_revision t) +:+ " does not exist"))
  | Some r =>
      unless (mr_digest r == tr_digest t)
        (capability_conflict "capability test digest does not match the stored revision");;
      let mine := tested ns (tr_name t) (tr_revision t) in
      let stored := CapabilityTestResult ns (tr_name t) (tr_revision t) (tr_digest t) (tr_status t)
                      (tr_checks t) (tr_tested_at t) in
      modify (λ d, d <| cd_tests := if exists_row mine (cd_tests d)
                                    then update mine (λ _, stored) (cd_tests d)
                                    else cd_tests d ++ [stored] |>);;
      mret t
  end.

Definition read_test (namespace name : string) (revision : Z) : M capability_db (option test_result) :=
  ns ← from_outcome (safe_namespace namespace);
  row ← gets (λ d, select_one (tested ns name revision) (cd_tests d));
  match row with
  | None => mret None
  | Some t =>
      match validate_test_result t with
      | Some t' => mret (Some t')
      | None => raise (CapabilityRevisionCorruptionError "stored capability test result is invalid")
      end
  end.
End Store.

(** ** Validation lemmas *)

Lemma capability_name_Some s v : capability_name s = Some v → capability_name v = Some v.
Proof.
  unfold capability_name. destruct (matches _ _ _) eqn:E; intros [= <-]. by rewrite strip_stripped, E.
Qed.

Lemma safe_namespace_Ok s v : safe_namespace s = Ok v → v = strip s ∧ bounded_field 200 v = Some v.
Proof.
  unfold safe_namespace, bounded_field. destruct (_ || _) eqn:E; [done|]. intros [= <-].
  split; [done|]. rewrite strip_stripped. apply orb_false_iff in E as [E1 E2].
  apply bool_decide_eq_false in E1. apply Z.ltb_ge in E2. pose proof (len_nonneg (strip s)).
  assert (len (strip s) ≠ 0) by by rewrite len_zero.
  by rewrite !(proj2 (Z.leb_le _ _)) by lia.
Qed.

Lemma safe_namespace_stored s v : safe_namespace s = Ok v → safe_namespace v = Ok v.
Proof.
  intros H. pose proof (safe_namespace_Ok _ _ H) as [-> _]. revert H. unfold safe_namespace.
  rewrite strip_stripped. by destruct (_ || _).
Qed.

Section Digest.
Context {W : Type} {C : ManifestContent W}.

Lemma schema_digest_content (w : W) : schema_digest (content_digest w) = Some (content_digest w).
Proof.
  unfold schema_digest, content_digest, canonical_json_digest. set (h := sha256_hex _).
  assert (all_chars hex_char h = true) as Hh by by apply sha256_hex_alphabet.
  assert (String.length h = 64%nat) as Hl by apply length_sha256_hex.
  assert (strip ("sha256:" +:+ h) = "sha256:" +:+ h) as ->.
  { apply strip_solid. change ("sha256:" +:+ h) with (String.append "sha256:" h).
    assert (all_chars (λ c, negb (py_isspace c)) h = true) as Hs by by apply sha256_hex_alphabet.
    change (String.append "sha256:" h) with
      (String "s" (String "h" (String "a" (String "2" (String "5" (String "6" (String ":" h))))))).
    simpl. exact Hs. }
  rewrite startswith_app, removeprefix_app. unfold len. by rewrite Hl, Hh.
Qed.
End Digest.

Lemma mapM_total {A B} (f : A → option B) l : (∀ x, x ∈ l → is_Some (f x)) → is_Some (mapM f l).
Proof.
  induction l as [|x l IH]; intros H; [by eexists|]. simpl.
  destruct (H x) as [y ->]; [set_solver|]. destruct IH as [ys ->]; [set_solver|]. by eexists.
Qed.

(** The arguments of [activate] that are Pydantic instances. *)
Definition valid_args (a : activate_args) : bool :=
  forallb (λ kv, validate_secret_binding kv.2 == Some kv.2) (at_bindings a)
  && match at_agent a with Some b => validate_binding b == Some b | None => true end.

(** What makes an activation valid, and what validation keeps. *)
Record columns_ok (a : activation) : Prop := {
  co_namespace : bounded_field 200 (ca_namespace a) = Some (ca_namespace a);
  co_name : capability_name (ca_name a) = Some (ca_name a);
  co_digest : schema_digest (ca_digest a) = Some (ca_digest a);
  co_revision : 1 ≤ ca_revision a;
  co_generation : 1 ≤ ca_generation a;
  co_bindings : ∀ kv, kv ∈ ca_bindings a → validate_secret_binding kv.2 = Some kv.2;
  co_agent : ∀ b, ca_agent a = Some b →
    validate_binding b = Some b ∧ ar_tenant (rb_agent b) = ca_namespace a;
}.

Lemma validate_columns a :
  columns_ok a →
  ∃ a', validate_activation a = Some a' ∧ ca_namespace a' = ca_namespace a ∧ ca_name a' = ca_name a ∧
    ca_revision a' = ca_revision a ∧ ca_digest a' = ca_digest a ∧ ca_generation a' = ca_generation a.
Proof.
  intros [H1 H2 H3 H4 H5 H6 H7]. unfold validate_activation. rewrite H1, H2, H3. simpl.
  destruct (mapM_total (λ kv : string * secret_binding,
    b ← validate_secret_binding kv.2; Some (strip kv.1, b)) (ca_bindings a)) as [bs Hbs].
  { intros kv Hkv. rewrite (H6 kv Hkv). by eexists. }
  rewrite Hbs. simpl.
  destruct (ca_agent a) as [b|] eqn:Hb.
  - destruct (H7 b eq_refl) as [Hv Ht]. rewrite Hv. simpl. rewrite Ht, bool_decide_eq_true_2 by done. simpl.
    rewrite !(proj2 (Z.leb_le _ _)) by done. simpl. eexists. by split_and!.
  - simpl. rewrite !(proj2 (Z.leb_le _ _)) by done. simpl. eexists. by split_and!.
Qed.

Lemma validate_activation_keeps a a' :
  validate_activation a = Some a' → ca_generation a' = ca_generation a ∧ ca_revision a' = ca_revision a.
Proof.
  unfold validate_activation. destruct (bounded_field _ _); [|done]. simpl.
  destruct (capability_name _); [|done]. simpl. destruct (schema_digest _); [|done]. simpl.
  destruct (mapM _ _); [|done]. simpl.
  destruct (match ca_agent a with Some _ => _ | None => _ end); [|done]. simpl.
  destruct (_ && _); [|done]. by intros [= <-].
Qed.

Lemma args_columns_ok a ns (W : Type) (C : ManifestContent W) (L : ManifestLaws W) (w : W) generation now
    config handles bindings :
  valid_args a = true → bounded_field 200 ns = Some ns → 1 ≤ generation →
  (∀ b, at_agent a = Some b → ar_tenant (rb_agent b) = ns) → bindings ≡ₚ at_bindings a →
  columns_ok (CapabilityActivation ns (manifest_name w) (manifest_revision w) (content_digest w)
    generation now config handles bindings (at_agent a)).
Proof.
  unfold valid_args. rewrite andb_true_iff, forallb_forall. intros [Hb Ha] Hns Hg Ht Hp.
  split; simpl; [done|apply manifest_name_ok|apply schema_digest_content|apply manifest_revision_ok|done| |].
  - intros kv. rewrite Hp, list_elem_of_In. intros Hkv. specialize (Hb kv Hkv).
    by apply bool_decide_eq_true in Hb.
  - intros b Hb'. rewrite Hb' in Ha. apply bool_decide_eq_true in Ha. split; [done|by apply Ht].
Qed.

(** ** Invariant *)

Definition ax_key (r : activation_row) : string * string :=
  (ca_namespace (ax_columns r), ca_name (ax_columns r)).
Definition mr_key (r : manifest_row) : string * string := (mr_namespace r, mr_name r).

Lemma of_capability_true ns n r : of_capability ns n r = true ↔ mr_key r = (ns, n).
Proof.
  unfold of_capability, mr_key. rewrite andb_true_iff, !bool_decide_eq_true.
  split; [by intros [-> ->]|by intros [= -> ->]].
Qed.
Lemma at_capability_true ns n k r : at_capability ns n k r = true ↔ mr_key r = (ns, n) ∧ mr_revision r = k.
Proof. unfold at_capability. by rewrite andb_true_iff, of_capability_true, Z.eqb_eq. Qed.
Lemma activation_of_true ns n r : activation_of ns n r = true ↔ ax_key r = (ns, n).
Proof.
  unfold activation_of, ax_key. rewrite andb_true_iff, !bool_decide_eq_true.
  split; [by intros [-> ->]|by intros [= -> ->]].
Qed.

(** The revisions stored for a capability, oldest first. *)
Definition stored_revisions (ns n : string) (d : capability_db) : list Z :=
  map mr_revision (select (of_capability ns n) (cd_revisions d)).

Section Invariant.
Context {W : Type} {C : ManifestContent W} {L : ManifestLaws W}.

Record manifest_row_ok (r : manifest_row) : Prop := {
  mo_namespace : safe_namespace (mr_namespace r) = Ok (mr_namespace r);
  mo_manifest : ∃ w, manifest_from_row r = Ok w ∧ mr_name r = manifest_name w ∧
    mr_revision r = manifest_revision w ∧ mr_digest r = content_digest w;
}.

Record capabilities_ok (d : capability_db) : Prop := {
  cp_numbered : ∀ ns n, stored_revisions ns n d = seqZ 1 (Z.of_nat (length (stored_revisions ns n d)));
  cp_rows : ∀ r, r ∈ cd_revisions d → manifest_row_ok r;
  cp_activations : unique ax_key (cd_activations d);
  cp_columns : ∀ r, r ∈ cd_activations d → columns_ok (ax_columns r);
  (** an activation points at a stored manifest with the same digest *)
  cp_bound : ∀ r, r ∈ cd_activations d →
    ∃ m, m ∈ cd_revisions d ∧ mr_key m = ax_key r ∧ mr_revision m = ca_revision (ax_columns r) ∧
         mr_digest m = ca_digest (ax_columns r);
  (** a test attestation names the digest of the manifest it is about *)
  cp_tests : ∀ t, t ∈ cd_tests d → validate_test_result t = Some t ∧
    ∃ m, m ∈ cd_revisions d ∧ mr_key m = (tr_namespace t, tr_name t) ∧ mr_revision m = tr_revision t ∧
         mr_digest m = tr_digest t;
}.

(** Manifests are only added; the generation of a capability never goes back,
    and one generation has one content. *)
Record capabilities_advance (d d' : capability_db) : Prop := {
  cv_revisions : ∃ l, cd_revisions d' = cd_revisions d ++ l;
  cv_activations : ∀ r, r ∈ cd_activations d →
    ∃ r', r' ∈ cd_activations d' ∧ ax_key r' = ax_key r ∧ ax_generation r ≤ ax_generation r' ∧
          (ax_generation r' = ax_generation r → ax_columns r' = ax_columns r);
}.

Definition cap_reached (d0 d : capability_db) : Prop := capabilities_ok d ∧ capabilities_advance d0 d.

Lemma cap_advance_refl d : capabilities_advance d d.
Proof. split; [exists []; by rewrite app_nil_r|eauto with lia]. Qed.

Lemma cap_advance_trans d d' d'' :
  capabilities_advance d d' → capabilities_advance d' d'' → capabilities_advance d d''.
Proof.
  intros [[l Hl] H] [[l' Hl'] H']. split; [exists (l ++ l'); by rewrite Hl', Hl, <- app_assoc|].
  intros r (r' & Hr' & Hk & Hg & Hs)%H. destruct (H' r' Hr') as (r'' & Hr'' & Hk' & Hg' & Hs').
  exists r''. split_and!; [done|congruence|lia|]. intros Heq.
  rewrite Hs' by lia. apply Hs. lia.
Qed.

Lemma no_capabilities_ok : capabilities_ok no_capabilities.
Proof. split; simpl; first [done|apply NoDup_nil_2|set_solver]. Qed.

(** *** Reading manifests *)

Lemma stored_revision_in ns n r d :
  r ∈ cd_revisions d → mr_key r = (ns, n) → mr_revision r ∈ stored_revisions ns n d.
Proof.
  intros Hr Hk. apply list_elem_of_In, in_map, list_elem_of_In, elem_of_select.
  split; [done|by apply of_capability_true].
Qed.

Lemma elem_of_stored ns n k d :
  k ∈ stored_revisions ns n d → ∃ r, r ∈ cd_revisions d ∧ mr_key r = (ns, n) ∧ mr_revision r = k.
Proof.
  intros Hk%list_elem_of_In. apply in_map_iff in Hk as (r & Hr & Hin).
  apply list_elem_of_In, elem_of_select in Hin as [Hin Hs%of_capability_true]. by exists r.
Qed.

Lemma stored_bounds ns n k d :
  capabilities_ok d → k ∈ stored_revisions ns n d ↔
  1 ≤ k ≤ Z.of_nat (length (stored_revisions ns n d)).
Proof. intros Hd. rewrite (cp_numbered _ Hd ns n) at 1. rewrite elem_of_seqZ. lia. Qed.

Lemma manifest_unique d r r' :
  capabilities_ok d → r ∈ cd_revisions d → r' ∈ cd_revisions d →
  mr_key r = mr_key r' → mr_revision r = mr_revision r' → r = r'.
Proof.
  intros Hd Hr Hr' Hk Hrev. destruct (mr_key r) as [ns n] eqn:Hkr.
  assert (unique mr_revision (select (of_capability ns n) (cd_revisions d))) as Hu.
  { unfold unique. change (mr_revision <$> ?l) with (map mr_revision l).
    change (NoDup (stored_revisions ns n d)). rewrite (cp_numbered _ Hd). apply NoDup_seqZ. }
  apply (unique_eq _ _ _ _ Hu); [..|done]; apply elem_of_select; (split; [done|]);
    apply of_capability_true; [done|congruence].
Qed.

Lemma find_manifest d m ns n k :
  capabilities_ok d → m ∈ cd_revisions d → mr_key m = (ns, n) → mr_revision m = k →
  select_one (at_capability ns n k) (cd_revisions d) = Some m.
Proof.
  intros Hd Hm Hk Hr. destruct (select_one _ _) as [m'|] eqn:E.
  - apply select_one_Some in E as [Hm' [Hk' Hr']%at_capability_true]. f_equal.
    apply (manifest_unique d); congruence.
  - eapply select_one_None in E; [|exact Hm]. rewrite (proj2 (at_capability_true _ _ _ _)) in E; done.
Qed.

Lemma foldr_max_seqZ a n : foldr Z.max a (seqZ (a + 1) n) = Z.max a (a + Z.max 0 n).
Proof.
  assert (∀ l m, Forall (λ x, x ≤ m) l → a ≤ m → m ∈ a :: l → foldr Z.max a l = m) as Hmax.
  { clear. intros l m Hl Ha Hm. apply Z.le_antisymm.
    - clear Hm. induction Hl; simpl; lia.
    - apply elem_of_cons in Hm as [->|Hm]; [clear Hl; induction l; simpl; lia|].
      clear Hl. induction l as [|y l IH]; [set_solver|]. simpl.
      apply elem_of_cons in Hm as [->|Hm]; [lia|]. specialize (IH Hm). lia. }
  destruct (decide (n ≤ 0)) as [Hn|Hn].
  - rewrite seqZ_nil by lia. simpl. lia.
  - rewrite (Hmax _ (a + n)); [lia| |lia|].
    + apply Forall_forall. intros x Hx%elem_of_seqZ. lia.
    + apply elem_of_cons. right. apply elem_of_seqZ. lia.
Qed.

Lemma max_stored ns n d :
  capabilities_ok d →
  let k := Z.of_nat (length (stored_revisions ns n d)) in
  max_revision (stored_revisions ns n d) = if k =? 0 then None else Some k.
Proof.
  intros Hd. cbv zeta. rewrite (cp_numbered _ Hd ns n) at 1.
  set (k := Z.of_nat _). assert (0 ≤ k) by lia. destruct (Z.eqb_spec k 0) as [->|Hk]; [done|].
  rewrite seqZ_cons by lia. cbn [max_revision].
  pose proof (foldr_max_seqZ 1 (Z.pred k)) as Hf. change (1 + 1) with (Z.succ 1) in Hf.
  rewrite Hf. f_equal. lia.
Qed.

(** *** Appending *)

Definition appended (ns : string) (w : W) (now : Z) (d : capability_db) : capability_db :=
  d <| cd_revisions := cd_revisions d ++
    [ManifestRow ns (manifest_name w) (manifest_revision w) (content_digest w)
       (canonical (manifest_dump w)) now] |>.

Lemma manifest_row_written ns w now :
  manifest_from_row (ManifestRow ns (manifest_name w) (manifest_revision w) (content_digest w)
    (canonical (manifest_dump w)) now) = Ok w.
Proof.
  unfold manifest_from_row. simpl. rewrite manifest_round_trip. by rewrite bool_decide_eq_true_2.
Qed.

Lemma stored_appended ns n ns' w now d :
  stored_revisions ns n (appended ns' w now d) =
    stored_revisions ns n d ++
      (if (ns' == ns) && (manifest_name w == n) then [manifest_revision w] else []).
Proof.
  unfold stored_revisions, appended, select. simpl. rewrite List.filter_app, map_app. f_equal. simpl.
  unfold of_capability. simpl. by destruct (_ && _).
Qed.

Lemma appended_ok ns w now d :
  capabilities_ok d → safe_namespace ns = Ok ns →
  manifest_revision w = Z.of_nat (length (stored_revisions ns (manifest_name w) d)) + 1 →
  cap_reached d (appended ns w now d).
Proof.
  intros Hd Hns Hrev. split; [|split; [by eexists|eauto with lia]].
  destruct Hd as [H1 H2 H3 H4 H5 H6]. split; simpl.
  - intros ns' n. rewrite !stored_appended. destruct (_ && _) eqn:E; [|by rewrite !app_nil_r].
    apply andb_true_iff in E as [->%bool_decide_eq_true Hn%bool_decide_eq_true]. subst n.
    rewrite length_app. simpl. rewrite Nat2Z.inj_add, seqZ_app by lia.
    rewrite <- H1. f_equal. rewrite Hrev. simpl. rewrite Z.add_comm. done.
  - intros r [Hr| ->%list_elem_of_singleton]%elem_of_app; [auto|]. split; [done|].
    exists w. split; [apply manifest_row_written|done].
  - done.
  - done.
  - intros r (m & Hm & H)%H5. exists m. split; [apply elem_of_app; by left|done].
  - intros t (Ht & m & Hm & H)%H6. split; [done|]. exists m. split; [apply elem_of_app; by left|done].
Qed.

Lemma append_cases ns w e now d :
  capabilities_ok d →
  let call := append_manifest ns w e now d in
  (∃ x, call = (d, Err x)) ∨
  let s := strip ns in let k := Z.of_nat (length (stored_revisions s (manifest_name w) d)) in
  call = (appended s w now d, Ok w) ∧ safe_namespace s = Ok s ∧ manifest_revision w = k + 1 ∧
  e = (if k =? 0 then None else Some k).
Proof.
  intros Hd. cbv zeta. unfold append_manifest. rewrite run_outcome_bind.
  destruct (safe_namespace ns) as [s|x] eqn:Hs; [|left; by eexists].
  pose proof (safe_namespace_stored _ _ Hs) as Hss. apply safe_namespace_Ok in Hs as [-> _].
  rewrite run_transaction, run_gets_bind.
  change (map mr_revision (select (of_capability (strip ns) (manifest_name w)) (cd_revisions d)))
    with (stored_revisions (strip ns) (manifest_name w) d).
  rewrite max_stored by done. set (k := Z.of_nat _).
  rewrite run_unless_bind. case_bool_decide as He; [|left; by eexists]. cbv zeta.
  rewrite run_unless_bind.
  assert ((match (if k =? 0 then None else Some k) with None => 1 | Some z => z + 1 end) = k + 1) as ->.
  { destruct (k =? 0) eqn:E; [apply Z.eqb_eq in E; by rewrite E|done]. }
  destruct (Z.eqb_spec (manifest_revision w) (k + 1)) as [Hr|]; [|left; by eexists].
  right. split; [|by split_and!]. rewrite run_try_modify_bind, insert_row_ok; [done|].
  intros r Hrow. unfold manifest_clash. simpl. apply not_true_is_false.
  intros [Hk Hkr]%at_capability_true.
  pose proof (stored_revision_in _ _ _ _ Hrow Hk) as Hin.
  apply (stored_bounds _ _ _ _ Hd) in Hin. fold k in Hin. lia.
Qed.

(** *** Activating *)

Definition new_row (a : activate_args) (ns digest : string) (generation now : Z) : activation_row :=
  ActivationRow (new_columns a ns digest generation now) CapActive.
Definition written (a : activate_args) (ns digest : string) (current : option activation_row)
    (generation now : Z) (d : capability_db) : capability_db :=
  match current with
  | None => d <| cd_activations := cd_activations d ++ [new_row a ns digest generation now] |>
  | Some r => d <| cd_activations := update (activation_of ns (at_name a))
                     (λ _, new_row a ns digest generation now) (cd_activations d) |>
  end.

Lemma find_activation d ns n r :
  capabilities_ok d → r ∈ cd_activations d → ax_key r = (ns, n) →
  select_one (activation_of ns n) (cd_activations d) = Some r.
Proof.
  intros Hd Hr Hk. destruct (select_one _ _) as [r'|] eqn:E.
  - apply select_one_Some in E as [Hr' Hk'%activation_of_true]. f_equal.
    apply (unique_eq ax_key (cd_activations d)); [apply Hd|done..|congruence].
  - eapply select_one_None in E; [|exact Hr]. rewrite (proj2 (activation_of_true _ _ _)) in E; done.
Qed.

(** A condition that adds facts about the only row of a capability. *)
Lemma one_activation d ns n r p :
  capabilities_ok d → select_one (activation_of ns n) (cd_activations d) = Some r → p r = true →
  (∀ r', p r' = true → activation_of ns n r' = true) →
  (∀ f, update p f (cd_activations d) = update (activation_of ns n) f (cd_activations d)) ∧
  rowcount p (cd_activations d) = 1%nat.
Proof.
  intros Hd [Hr Hk]%select_one_Some Hq Hp.
  assert (∀ r', r' ∈ cd_activations d → activation_of ns n r' = true → r' = r) as Hone.
  { intros r' Hr' Hk'%activation_of_true. apply activation_of_true in Hk.
    apply (unique_eq ax_key (cd_activations d)); [apply Hd|done..|congruence]. }
  split.
  - intros f. apply map_ext_in. intros r' Hr'%list_elem_of_In.
    destruct (activation_of ns n r') eqn:E; [by rewrite (Hone r' Hr' E), Hq|].
    destruct (p r') eqn:E'; [|done]. by rewrite (Hp r' E') in E.
  - apply (rowcount_one ax_key _ _ r); [apply Hd|done..|].
    intros r' Hr' E. by rewrite (Hone r' Hr' (Hp r' E)).
Qed.

Lemma write_run a ns digest current g now d {A} (x : A) :
  capabilities_ok d → select_one (activation_of ns (at_name a)) (cd_activations d) = current →
  (write_activation a ns digest current g now;; mret x) d =
    (written a ns digest current g now d, Ok x).
Proof.
  intros Hd Hcur. unfold write_activation. destruct current as [r|].
  - rewrite run_bind_assoc, run_gets_bind, run_bind_assoc, run_modify_bind, run_unless_bind.
    edestruct (one_activation d ns (at_name a) r) as [Hu Hc]; [done|exact Hcur| | |].
    3:{ rewrite Hc, Hu. done. }
    + apply select_one_Some in Hcur as [_ ->]. by rewrite Z.eqb_refl, bool_decide_eq_true_2.
    + by intros r' [[? _]%andb_true_iff _]%andb_true_iff.
  - rewrite run_try_modify_bind, insert_row_ok; [done|]. intros r Hr.
    rewrite select_one_None in Hcur. by apply Hcur.
Qed.

Lemma written_ok a ns (w : W) m current g now d :
  capabilities_ok d → valid_args a = true → bounded_field 200 ns = Some ns →
  (∀ b, at_agent a = Some b → ar_tenant (rb_agent b) = ns) →
  m ∈ cd_revisions d → mr_key m = (ns, at_name a) → mr_revision m = at_revision a →
  at_name a = manifest_name w → at_revision a = manifest_revision w → mr_digest m = content_digest w →
  select_one (activation_of ns (at_name a)) (cd_activations d) = current →
  g = match current with None => 1 | Some r => ax_generation r + 1 end →
  let d' := written a ns (content_digest w) current g now d in
  cap_reached d d' ∧
  select_one (activation_of ns (at_name a)) (cd_activations d') =
    Some (new_row a ns (content_digest w) g now).
Proof.
  intros Hd Hargs Hns Hagent Hm Hmk Hmr Hname Hrev Hdig Hcur Hg. cbv zeta.
  set (row := new_row a ns (content_digest w) g now).
  assert (1 ≤ g) as Hg1.
  { destruct current as [r|]; [|lia]. apply select_one_Some in Hcur as [Hr _].
    pose proof (co_generation _ (cp_columns _ Hd r Hr)). unfold ax_generation in Hg. lia. }
  assert (columns_ok (ax_columns row)) as Hcols.
  { simpl. unfold new_columns. rewrite Hname, Hrev. apply (args_columns_ok a ns W C L); try done.
    apply order_by_perm. }
  assert (∀ r, r ∈ cd_activations (written a ns (content_digest w) current g now d) →
    r = row ∨ r ∈ cd_activations d ∧ ax_key r ≠ (ns, at_name a)) as Hin.
  { destruct current as [r0|]; simpl.
    - intros r (r' & Hr' & ->)%elem_of_update. destruct (activation_of _ _ r') eqn:E; [by left|right].
      split; [done|]. intros Hk%activation_of_true. congruence.
    - intros r [Hr| ->%list_elem_of_singleton]%elem_of_app; [right|by left].
      split; [done|]. intros Hk%activation_of_true. rewrite select_one_None in Hcur.
      by rewrite (Hcur r Hr) in Hk. }
  assert (row ∈ cd_activations (written a ns (content_digest w) current g now d)) as Hrow.
  { destruct current as [r0|]; simpl.
    - apply select_one_Some in Hcur as [Hr0 Hk0]. apply elem_of_update. exists r0. by rewrite Hk0.
    - apply elem_of_app. right. by apply list_elem_of_singleton. }
  assert (capabilities_ok (written a ns (content_digest w) current g now d)) as Hok.
  { assert (cd_revisions (written a ns (content_digest w) current g now d) = cd_revisions d ∧
            cd_tests (written a ns (content_digest w) current g now d) = cd_tests d) as [Hr1 Hr2]
      by by destruct current.
    split; unfold stored_revisions; rewrite ?Hr1, ?Hr2; [apply Hd|apply Hd| | | |apply Hd].
    - destruct current as [r0|]; simpl.
      + unfold unique. rewrite fmap_update; [apply Hd|]. by intros r' _ ->%activation_of_true.
      + apply unique_app; [apply Hd|]. intros r Hr Heq. rewrite select_one_None in Hcur.
        specialize (Hcur r Hr). rewrite (proj2 (activation_of_true _ _ _)) in Hcur; [done|].
        by rewrite <- Heq.
    - intros r [->|[Hr _]]%Hin; [done|]. by apply Hd.
    - intros r [->|[Hr _]]%Hin; [|by apply Hd]. exists m. by split_and!. }
  split; [split; [done|split]|by apply find_activation].
  - exists []. rewrite app_nil_r. by destruct current.
  - intros r Hr. destruct (decide (ax_key r = (ns, at_name a))) as [Hk|Hk].
    + exists row. split; [done|]. assert (current = Some r) as ->.
      { rewrite <- Hcur. by apply find_activation. }
      change (ax_generation row) with g. split_and!; [done|lia|lia].
    + exists r. split; [|by split_and!]. destruct current; simpl.
      * apply elem_of_update. exists r. destruct (activation_of _ _ r) eqn:E; [|done].
        by apply activation_of_true in E.
      * apply elem_of_app. by left.
Qed.

(** An activation row always validates, to its own identity. *)
Lemma row_activation d r :
  capabilities_ok d → r ∈ cd_activations d →
  ∃ c, activation_from_row r = Ok c ∧ ca_namespace c = ca_namespace (ax_columns r) ∧
    ca_name c = ca_name (ax_columns r) ∧ ca_revision c = ca_revision (ax_columns r) ∧
    ca_digest c = ca_digest (ax_columns r) ∧ ca_generation c = ax_generation r.
Proof.
  intros Hd Hr. destruct (validate_columns _ (cp_columns _ Hd r Hr)) as (c & Hc & H).
  exists c. unfold activation_from_row. by rewrite Hc.
Qed.

(** The outcome of [activate], branch by branch. *)
Inductive activated (a : activate_args) (now : Z) (d : capability_db) :
    capability_db * outcome activation → Prop :=
  | ActivateRefused e : activated a now d (d, Err e)
  | ActivateSame ns r c :
      ns = strip (at_namespace a) →
      select_one (activation_of ns (at_name a)) (cd_activations d) = Some r →
      ax_state r = CapActive → activation_from_row r = Ok c → same_activation a c = true →
      at_expected a = Some (ax_generation r) →
      activated a now d (d, Ok c)
  | ActivateNew ns w current g c :
      ns = strip (at_namespace a) →
      select_one (activation_of ns (at_name a)) (cd_activations d) = current →
      (∀ r, current = Some r → ax_state r ≠ CapDeactivating) →
      at_expected a = (r ← current; if ax_state r == CapActive then Some (ax_generation r) else None) →
      g = match current with None => 1 | Some r => ax_generation r + 1 end →
      cap_reached d (written a ns (content_digest w) current g now d) →
      select_one (activation_of ns (at_name a))
        (cd_activations (written a ns (content_digest w) current g now d)) =
        Some (new_row a ns (content_digest w) g now) →
      (∃ m, m ∈ cd_revisions d ∧ mr_key m = (ns, at_name a) ∧ mr_revision m = at_revision a ∧
            manifest_from_row m = Ok w) →
      ca_generation c = g → ca_revision c = at_revision a → ca_name c = at_name a →
      activated a now d (written a ns (content_digest w) current g now d, Ok c).

Lemma finish_activation a ns w g now :
  valid_args a = true → bounded_field 200 ns = Some ns → 1 ≤ g →
  (∀ b, at_agent a = Some b → ar_tenant (rb_agent b) = ns) →
  ∃ c, validate_activation (CapabilityActivation ns (manifest_name w) (manifest_revision w)
         (content_digest w) g now (at_config a) (at_handles a) (at_bindings a) (at_agent a)) = Some c ∧
       ca_generation c = g ∧ ca_revision c = manifest_revision w ∧ ca_name c = manifest_name w.
Proof.
  intros Hargs Hns Hg Hagent.
  destruct (validate_columns _ (args_columns_ok a ns W C L w g now (at_config a) (at_handles a)
    (at_bindings a) Hargs Hns Hg Hagent (reflexivity _))) as (c & Hc & _ & Hn & Hr & _ & Hgen).
  by exists c.
Qed.

Lemma activate_cases a now d :
  capabilities_ok d → valid_args a = true → activated a now d (activate_capability a now d).
Proof.
  intros Hd Hargs. unfold activate_capability. rewrite run_outcome_bind.
  destruct (safe_namespace (at_namespace a)) as [ns|x] eqn:Hs; [|constructor].
  apply safe_namespace_Ok in Hs as [Hns Hnsok]. rewrite run_unless_bind.
  destruct (match at_agent a with Some _ => _ | None => true end) eqn:Ha; [|constructor].
  assert (∀ b, at_agent a = Some b → ar_tenant (rb_agent b) = ns) as Hagent.
  { intros b Hb. rewrite Hb in Ha. by apply bool_decide_eq_true in Ha. }
  rewrite run_bind, run_transaction, run_gets_bind.
  destruct (select_one (at_capability _ _ _) _) as [m|] eqn:Hm; [|constructor].
  apply select_one_Some in Hm as [Hm [Hmk Hmr]%at_capability_true].
  destruct (mo_manifest _ (cp_rows _ Hd m Hm)) as (w & Hw & Hwn & Hwr & Hwd).
  rewrite run_outcome_bind, Hw, run_gets_bind, run_outcome_bind.
  assert (at_name a = manifest_name w) as Hname by (unfold mr_key in Hmk; congruence).
  assert (at_revision a = manifest_revision w) as Hrev by congruence.
  assert (∀ current g, select_one (activation_of ns (at_name a)) (cd_activations d) = current →
    (∀ r, current = Some r → ax_state r ≠ CapDeactivating) →
    at_expected a = (r ← current; if ax_state r == CapActive then Some (ax_generation r) else None) →
    g = match current with None => 1 | Some r => ax_generation r + 1 end →
    ∃ c, validate_activation (CapabilityActivation ns (manifest_name w) (manifest_revision w)
         (content_digest w) g now (at_config a) (at_handles a) (at_bindings a) (at_agent a)) = Some c ∧
      activated a now d (written a ns (content_digest w) current g now d, Ok c)) as Hnew.
  { intros current g Hcur Hst Hexp Hg.
    pose proof (written_ok a ns w m current g now d Hd Hargs Hnsok Hagent Hm Hmk Hmr Hname Hrev Hwd Hcur Hg)
      as [Hok Hfind].
    destruct (finish_activation a ns w g now) as (c & Hc & Hcg & Hcr & Hcn); [done..| |done|].
    { destruct current as [r|]; [|lia]. apply select_one_Some in Hcur as [Hr _].
      pose proof (co_generation _ (cp_columns _ Hd r Hr)). unfold ax_generation in Hg. lia. }
    exists c. split; [done|]. eapply ActivateNew; try done; [by exists m|congruence..]. }
  destruct (select_one (activation_of ns (at_name a)) (cd_activations d)) as [r|] eqn:Hcur.
  - apply select_one_Some in Hcur as Hr. destruct Hr as [Hr Hk].
    destruct (row_activation d r Hd Hr) as (c & Hc & _ & _ & _ & _ & Hcg).
    rewrite Hc. change (Ok c ≫= (λ c0, Ok (Some (r, c0)))) with (Ok (Some (r, c))). cbv beta iota.
    rewrite run_unless_bind. destruct (ax_state r) eqn:Hst; [|constructor|].
    + change (negb (CapActive == CapDeactivating)) with true. cbv iota. rewrite run_unless_bind.
      change (CapActive == CapActive) with true. cbv iota.
      case_bool_decide as He; [|constructor]. simpl in He. rewrite Hcg in He.
      destruct (same_activation a c) eqn:Hsame.
      * by eapply ActivateSame.
      * destruct (Hnew (Some r) (ax_generation r + 1)) as (c' & Hc' & Hact); [done| | |done|].
        { intros ? [= <-]. by rewrite Hst. }
        { simpl. by rewrite Hst, bool_decide_eq_true_2. }
        rewrite Hcg, write_run by done. rewrite Hc'. exact Hact.
    + change (negb (CapInactive == CapDeactivating)) with true. cbv iota. rewrite run_unless_bind.
      change (CapInactive == CapActive) with false. cbv iota.
      case_bool_decide as He; [|constructor]. simpl in He.
      destruct (Hnew (Some r) (ax_generation r + 1)) as (c' & Hc' & Hact); [done| | |done|].
      { intros ? [= <-]. by rewrite Hst. }
      { simpl. by rewrite Hst, bool_decide_eq_false_2. }
      rewrite Hcg, write_run by done. rewrite Hc'. exact Hact.
  - rewrite run_unless_bind. cbv beta iota. rewrite run_unless_bind.
    case_bool_decide as He; [|constructor]. simpl in He.
    destruct (Hnew None 1) as (c' & Hc' & Hact); [done..|].
    rewrite write_run by done. rewrite Hc'. exact Hact.
Qed.

(** *** Deactivating *)

Definition moved_state (ns n : string) (to : lifecycle) (d : capability_db) : capability_db :=
  d <| cd_activations := update (activation_of ns n) (λ r, r <| ax_state := to |>) (cd_activations d) |>.

Lemma move_lifecycle_run ns n e from to d r {A} (x : A) :
  capabilities_ok d → select_one (activation_of ns n) (cd_activations d) = Some r →
  ax_generation r = e → ax_state r = from →
  (move_lifecycle ns n e from to;; mret x) d = (moved_state ns n to d, Ok x).
Proof.
  intros Hd Hcur He Hst. unfold move_lifecycle.
  rewrite run_bind_assoc, run_gets_bind, run_bind_assoc, run_modify_bind, run_unless_bind.
  edestruct (one_activation d ns n r) as [Hu Hc]; [done|exact Hcur| | |].
  3:{ rewrite Hc, Hu. done. }
  - apply select_one_Some in Hcur as [_ ->]. by rewrite He, Hst, Z.eqb_refl, bool_decide_eq_true_2.
  - by intros r' [[? _]%andb_true_iff _]%andb_true_iff.
Qed.

Lemma moved_state_ok ns n to d r :
  capabilities_ok d → select_one (activation_of ns n) (cd_activations d) = Some r →
  cap_reached d (moved_state ns n to d) ∧
  select_one (activation_of ns n) (cd_activations (moved_state ns n to d)) = Some (r <| ax_state := to |>).
Proof.
  intros Hd Hcur. set (f := λ r, r <| ax_state := to |>).
  assert (∀ r', r' ∈ cd_activations (moved_state ns n to d) →
    ∃ r0, r0 ∈ cd_activations d ∧ ax_columns r' = ax_columns r0) as Hin.
  { intros r' (r0 & Hr0 & ->)%elem_of_update. exists r0. split; [done|]. by destruct (activation_of _ _ r0). }
  split; [split; [destruct Hd as [H1 H2 H3 H4 H5 H6]; split; try done|split]|].
  - unfold unique, moved_state. simpl. by rewrite fmap_update.
  - intros r' (r0 & Hr0 & ->)%Hin. auto.
  - intros r' Hr'. destruct (Hin r' Hr') as (r0 & Hr0 & Heq). unfold ax_key. rewrite Heq. by apply H5.
  - exists []. by rewrite app_nil_r.
  - intros r0 Hr0. eexists. split; [apply elem_of_update; by exists r0|].
    unfold ax_key, ax_generation. by destruct (activation_of _ _ r0).
  - unfold moved_state. simpl. rewrite select_one_update by done. rewrite Hcur. simpl.
    apply select_one_Some in Hcur as [_ Hk]. by rewrite Hk.
Qed.

(** The outcome of a lifecycle move from [from] to [to]. *)
Inductive lifecycle_moved (ns n : string) (e : Z) (from to : lifecycle) (d : capability_db) :
    capability_db * outcome activation → Prop :=
  | MoveRefused x : lifecycle_moved ns n e from to d (d, Err x)
  | MoveDone r c :
      select_one (activation_of ns n) (cd_activations d) = Some r → ax_generation r = e →
      activation_from_row r = Ok c → ax_state r = to →
      lifecycle_moved ns n e from to d (d, Ok c)
  | MoveNow r c :
      select_one (activation_of ns n) (cd_activations d) = Some r → ax_generation r = e →
      activation_from_row r = Ok c → ax_state r = from →
      lifecycle_moved ns n e from to d (moved_state ns n to d, Ok c).

Lemma begin_cases ns n e d :
  capabilities_ok d →
  lifecycle_moved (strip ns) n e CapActive CapDeactivating d (begin_deactivation ns n e d).
Proof.
  intros Hd. unfold begin_deactivation. rewrite run_outcome_bind.
  destruct (safe_namespace ns) as [s|x] eqn:Hs; [|constructor]. apply safe_namespace_Ok in Hs as [-> _].
  rewrite run_transaction, run_gets_bind. cbv zeta.
  destruct (select_one _ _) as [r|] eqn:Hcur; [|constructor].
  apply select_one_Some in Hcur as Hr. destruct Hr as [Hr _].
  destruct (row_activation d r Hd Hr) as (c & Hc & _ & _ & _ & _ & Hcg).
  rewrite run_outcome_bind, Hc, run_unless_bind, Hcg.
  destruct (Z.eqb_spec (ax_generation r) e) as [He|]; [|constructor].
  destruct (ax_state r) eqn:Hst; [|by eapply MoveDone|constructor].
  rewrite (move_lifecycle_run _ _ _ _ _ _ r) by done. by eapply MoveNow.
Qed.

Lemma change_cases ns n e to d :
  capabilities_ok d → to ≠ CapDeactivating →
  lifecycle_moved (strip ns) n e CapDeactivating to d (change_deactivation_state ns n e to d).
Proof.
  intros Hd Hto. unfold change_deactivation_state. rewrite run_outcome_bind.
  destruct (safe_namespace ns) as [s|x] eqn:Hs; [|constructor]. apply safe_namespace_Ok in Hs as [-> _].
  rewrite run_transaction, run_gets_bind.
  destruct (select_one _ _) as [r|] eqn:Hcur; [|constructor].
  apply select_one_Some in Hcur as Hr. destruct Hr as [Hr _].
  destruct (row_activation d r Hd Hr) as (c & Hc & _ & _ & _ & _ & Hcg).
  rewrite run_outcome_bind, Hc, run_unless_bind, Hcg.
  destruct (Z.eqb_spec (ax_generation r) e) as [He|]; [|constructor].
  case_bool_decide as Hst; [by eapply MoveDone|]. rewrite run_unless_bind.
  case_bool_decide as Hst'; [|constructor].
  rewrite (move_lifecycle_run _ _ _ _ _ _ r) by done. by eapply MoveNow.
Qed.

Lemma lifecycle_reached ns n e from to d call :
  capabilities_ok d → lifecycle_moved ns n e from to d call → cap_reached d call.1.
Proof.
  intros Hd [x|r c Hcur|r c Hcur]; simpl; try (split; [done|apply cap_advance_refl]).
  by apply (moved_state_ok _ _ to _ r).
Qed.

Lemma activated_reached a now d call :
  capabilities_ok d → activated a now d call → cap_reached d call.1.
Proof. intros Hd []; simpl; try done; split; [done|apply cap_advance_refl|done|apply cap_advance_refl]. Qed.

(** *** Tests *)

Lemma record_test_reached t d :
  capabilities_ok d → validate_test_result t = Some t → cap_reached d (record_test t d).1.
Proof.
  intros Hd Ht. assert (cap_reached d d) as Hsame by (split; [done|apply cap_advance_refl]).
  unfold record_test. rewrite run_outcome_bind.
  destruct (safe_namespace _) as [ns|x] eqn:Hs; [|done]. rewrite run_gets_bind.
  destruct (select_one _ _) as [m|] eqn:Hm; [|done]. rewrite run_unless_bind.
  case_bool_decide as Hdig; [|done]. cbv zeta. rewrite run_modify_bind. simpl.
  apply select_one_Some in Hm as [Hm [Hk Hr]%at_capability_true].
  assert (ns = tr_namespace t) as ->.
  { apply safe_namespace_Ok in Hs as [-> _]. revert Ht. unfold validate_test_result.
    destruct (bounded_field 200 (tr_namespace t)) as [v|] eqn:E; [|done]. simpl.
    destruct (capability_name _); [|done]. simpl. destruct (schema_digest _); [|done]. simpl.
    destruct (mapM _ _); [|done]. simpl. destruct (text_field _ _ _); [|done]. simpl.
    destruct (_ && _); [|done]. intros [= Hx]. rewrite <- Hx at 2. simpl. revert E.
    unfold bounded_field. by destruct (_ && _); intros [= ->]. }
  split; [|split; [exists []; by rewrite app_nil_r|eauto with lia]].
  destruct Hd as [H1 H2 H3 H4 H5 H6]. split; simpl; try done.
  assert (∀ t', t' = CapabilityTestResult (tr_namespace t) (tr_name t) (tr_revision t) (tr_digest t)
    (tr_status t) (tr_checks t) (tr_tested_at t) → validate_test_result t' = Some t' ∧
    ∃ m, m ∈ cd_revisions d ∧ mr_key m = (tr_namespace t', tr_name t') ∧ mr_revision m = tr_revision t' ∧
         mr_digest m = tr_digest t') as Hnew.
  { intros t' ->. split; [by destruct t|]. by exists m. }
  intros t'. destruct (exists_row _ _).
  - intros (t0 & Ht0 & ->)%elem_of_update. destruct (tested _ _ _ t0); [by apply Hnew|by apply H6].
  - intros [Ht'| ->%list_elem_of_singleton]%elem_of_app; [by apply H6|by apply Hnew].
Qed.
End Invariant.

(** ** Histories

    The arguments that are Pydantic instances are valid ones. *)

Inductive capability_op (W : Type) :=
  | OpAppend (namespace : string) (w : W) (expected : option Z) (now : Z)
  | OpActivateCapability (a : activate_args) (now : Z)
  | OpBeginDeactivation (namespace name : string) (expected : Z)
  | OpCancelDeactivation (namespace name : string) (expected : Z)
  | OpDeactivateCapability (namespace name : string) (expected : Z)
  | OpRecordTest (t : test_result).
Arguments OpAppend {W}. Arguments OpActivateCapability {W}. Arguments OpBeginDeactivation {W}.
Arguments OpCancelDeactivation {W}. Arguments OpDeactivateCapability {W}. Arguments OpRecordTest {W}.

Definition op_valid {W} (op : capability_op W) : bool :=
  match op with
  | OpActivateCapability a _ => valid_args a
  | OpRecordTest t => validate_test_result t == Some t
  | _ => true
  end.

Section Histories.
Context {W : Type} {C : ManifestContent W}.

Definition step_capability (d : capability_db) (op : capability_op W) : capability_db :=
  match op with
  | OpAppend ns w e now => (append_manifest ns w e now d).1
  | OpActivateCapability a now => (activate_capability a now d).1
  | OpBeginDeactivation ns n e => (begin_deactivation ns n e d).1
  | OpCancelDeactivation ns n e => (cancel_deactivation ns n e d).1
  | OpDeactivateCapability ns n e => (deactivate_capability ns n e d).1
  | OpRecordTest t => (record_test t d).1
  end.
Definition run_capabilities (ops : list (capability_op W)) (d : capability_db) : capability_db :=
  foldl step_capability d ops.
End Histories.

Section Properties.
Context {W : Type} {C : ManifestContent W} {L : ManifestLaws W}.
Implicit Types (ops : list (capability_op W)).
Abbreviation reachable ops := (run_capabilities ops no_capabilities).
Abbreviation all_valid ops := (Forall (λ op, op_valid op = true) ops).

Lemma run_capabilities_reached ops d :
  capabilities_ok d → all_valid ops → cap_reached d (run_capabilities ops d).
Proof.
  revert d. induction ops as [|op ops IH]; intros d Hd Hv; [split; [done|apply cap_advance_refl]|].
  apply Forall_cons in Hv as [Hop Hv]. simpl.
  assert (cap_reached d (step_capability d op)) as [Hd' H1].
  { destruct op; simpl in *.
    - destruct (append_cases namespace w expected now d Hd) as [(x & ->)|(-> & Hs & Hr & _)];
        [split; [done|apply cap_advance_refl]|by apply appended_ok].
    - apply (activated_reached a now d); [done|by apply activate_cases].
    - eapply lifecycle_reached; [done|by apply begin_cases].
    - eapply lifecycle_reached; [done|by apply change_cases].
    - eapply lifecycle_reached; [done|by apply change_cases].
    - apply bool_decide_eq_true in Hop. by apply record_test_reached. }
  destruct (IH _ Hd' Hv) as [Hd'' H2]. split; [done|by eapply cap_advance_trans].
Qed.

Lemma reachable_capabilities ops : all_valid ops → capabilities_ok (reachable ops).
Proof. intros H. apply run_capabilities_reached; [apply no_capabilities_ok|done]. Qed.

(** [active], [deactivating] and [inactive] never fail for a good namespace. *)
Lemma read_activation_run st ns n d :
  capabilities_ok d →
  read_activation st ns n d =
    match safe_namespace ns with
    | Err x => (d, Err x)
    | Ok s =>
        match select_one (activation_of s n) (cd_activations d) with
        | Some r => if ax_state r == st then (d, c ← activation_from_row r; Ok (Some c)) else (d, Ok None)
        | None => (d, Ok None)
        end
    end.
Proof.
  intros Hd. unfold read_activation. rewrite run_outcome_bind.
  destruct (safe_namespace ns) as [s|x]; [|done]. rewrite run_gets_bind.
  destruct (select_one (activation_of s n) _) as [r|] eqn:E.
  - case_bool_decide as Hst.
    + assert (select_one (λ r0, activation_of s n r0 && (ax_state r0 == st)) (cd_activations d) = Some r) as ->.
      { destruct (select_one (λ r0, _ && _) _) as [r'|] eqn:E'.
        - apply select_one_Some in E' as [Hr' [Hk' _]%andb_true_iff].
          apply activation_of_true in Hk'. by rewrite (find_activation d s n r' Hd Hr' Hk') in E.
        - apply select_one_Some in E as [Hr Hk]. rewrite select_one_None in E'. specialize (E' r Hr).
          rewrite Hk, bool_decide_eq_true_2 in E'; done. }
      rewrite run_outcome_bind. by destruct (activation_from_row r).
    + assert (select_one (λ r0, activation_of s n r0 && (ax_state r0 == st)) (cd_activations d) = None) as ->.
      { apply select_one_None. intros r' Hr'. apply not_true_is_false.
        intros [Hk' Hst'%bool_decide_eq_true]%andb_true_iff. apply activation_of_true in Hk'.
        rewrite (find_activation d s n r' Hd Hr' Hk') in E. congruence. }
      done.
  - rewrite select_one_None in E. rewrite (proj2 (select_one_None _ _)); [done|].
    intros r Hr. by rewrite (E r Hr).
Qed.

Lemma read_activation_Some st ns n d c :
  capabilities_ok d → (read_activation st ns n d).2 = Ok (Some c) →
  ∃ r, safe_namespace ns = Ok (strip ns) ∧
    select_one (activation_of (strip ns) n) (cd_activations d) = Some r ∧ ax_state r = st ∧
    activation_from_row r = Ok c ∧ ca_generation c = ax_generation r.
Proof.
  intros Hd. rewrite read_activation_run by done.
  destruct (safe_namespace ns) as [s|x] eqn:Hs; [|done]. apply safe_namespace_Ok in Hs as Hx. destruct Hx as [-> _].
  destruct (select_one _ _) as [r|] eqn:Hr; [|done]. case_bool_decide as Hst; [|done].
  apply select_one_Some in Hr as [Hin _]. destruct (row_activation d r Hd Hin) as (c' & Hc & _ & _ & _ & _ & Hg).
  rewrite Hc. intros [= <-]. by exists r.
Qed.

(** C29: generations fence: whatever is appended, activated and deactivated in
    between, a later activation of the same capability never has a smaller
    generation, and when it has the same one it is the same activation. *)
Theorem generation_fences ops ops' ns n st st' c c' :
  all_valid ops → all_valid ops' →
  (read_activation st ns n (reachable ops)).2 = Ok (Some c) →
  (read_activation st' ns n (run_capabilities ops' (reachable ops))).2 = Ok (Some c') →
  ca_generation c ≤ ca_generation c' ∧ (ca_generation c = ca_generation c' → c = c').
Proof.
  intros Hv Hv' Hc Hc'. pose proof (reachable_capabilities ops Hv) as Hd.
  destruct (run_capabilities_reached ops' _ Hd Hv') as [Hd' Hadv].
  apply read_activation_Some in Hc as (r & _ & Hr & _ & Hc & Hg); [|done].
  apply read_activation_Some in Hc' as (r' & _ & Hr' & _ & Hc' & Hg'); [|done].
  apply select_one_Some in Hr as [Hr Hk%activation_of_true].
  destruct (cv_activations _ _ Hadv r Hr) as (r2 & Hr2 & Hk2 & Hle & Heq).
  rewrite Hk in Hk2. rewrite (find_activation _ _ _ _ Hd' Hr2 Hk2) in Hr'. injection Hr' as <-.
  rewrite Hg, Hg'. split; [done|]. intros Hge. unfold activation_from_row in *.
  rewrite Heq in Hc' by done. congruence.
Qed.

(** An archived manifest is immutable: an append succeeds only for the next
    revision and with the caller's view of the latest one; then that manifest
    is what [get] returns for its revision after any further calls, and the
    revisions of a capability are always 1, 2, .., n. *)
Theorem manifests_archived ops ns w e now :
  all_valid ops →
  let d := reachable ops in
  let s := strip ns in
  let k := Z.of_nat (length (stored_revisions s (manifest_name w) d)) in
  stored_revisions s (manifest_name w) d = seqZ 1 k ∧
  let '(d1, res) := append_manifest ns w e now d in
  match res with
  | Ok w' => w' = w ∧ manifest_revision w = k + 1 ∧ e = (if k =? 0 then None else Some k) ∧
      ∀ ops', all_valid ops' →
        get_manifest ns (manifest_name w) (k + 1) (run_capabilities ops' d1) =
          (run_capabilities ops' d1, Ok (Some w))
  | Err _ => d1 = d
  end.
Proof.
  intros Hv. cbv zeta. pose proof (reachable_capabilities ops Hv) as Hd.
  split; [by apply cp_numbered|].
  destruct (append_cases ns w e now _ Hd) as [(x & ->)|(-> & Hs & Hr & He)]; [done|].
  split_and!; try done. intros ops' Hv'.
  destruct (appended_ok (strip ns) w now _ Hd Hs Hr) as [Hd1 _].
  destruct (run_capabilities_reached ops' _ Hd1 Hv') as [Hd' [[l Hl] _]].
  set (d' := run_capabilities ops' _) in *. unfold get_manifest. rewrite run_outcome_bind.
  assert (safe_namespace ns = Ok (strip ns)) as ->.
  { revert Hs. unfold safe_namespace. rewrite strip_stripped. by destruct (_ || _). }
  rewrite run_gets_bind. set (m := ManifestRow (strip ns) (manifest_name w) (manifest_revision w)
    (content_digest w) (canonical (manifest_dump w)) now).
  rewrite (find_manifest d' m); [|done| |done|done].
  - unfold m. rewrite run_outcome_bind, manifest_row_written. done.
  - rewrite Hl. apply elem_of_app. left. apply elem_of_app. right. by apply list_elem_of_singleton.
Qed.

Lemma next_generation_run ns n d :
  next_generation ns n d =
    match safe_namespace ns with
    | Err x => (d, Err x)
    | Ok s =>
        match select_one (activation_of s n) (cd_activations d) with
        | Some r => if ax_state r == CapDeactivating then (d, Err deactivation_in_progress)
                    else (d, Ok (ax_generation r + 1))
        | None => (d, Ok 1)
        end
    end.
Proof.
  unfold next_generation. rewrite run_outcome_bind. destruct (safe_namespace ns) as [s|x]; [|done].
  rewrite run_gets_bind. destruct (select_one _ _) as [r|]; [|done]. rewrite run_unless_bind.
  by destruct (ax_state r == CapDeactivating).
Qed.

Lemma activate_namespace a now d d1 c :
  activate_capability a now d = (d1, Ok c) → safe_namespace (at_namespace a) = Ok (strip (at_namespace a)).
Proof.
  unfold activate_capability. rewrite run_outcome_bind.
  destruct (safe_namespace _) as [s|x] eqn:Hs; [|done]. by apply safe_namespace_Ok in Hs as [-> _].
Qed.

(** Activation is a compare-and-swap on generations: it succeeds only when
    the caller names the generation that is live (or none); it then either
    finds the very same activation live and changes nothing, or makes its
    revision live at exactly the generation [next_generation] had reserved. A
    refused call changes nothing. *)
Theorem activation_reserved ops a now :
  all_valid ops → valid_args a = true →
  let d := reachable ops in
  let active d := read_activation CapActive (at_namespace a) (at_name a) d in
  let live := match (active d).2 with Ok (Some c) => Some (ca_generation c) | _ => None end in
  let '(d1, res) := activate_capability a now d in
  match res with
  | Ok c =>
      at_expected a = live ∧
      (d1 = d ∧ active d = (d, Ok (Some c)) ∧ same_activation a c = true ∨
       next_generation (at_namespace a) (at_name a) d = (d, Ok (ca_generation c)) ∧
       ca_revision c = at_revision a ∧
       ∃ c', active d1 = (d1, Ok (Some c')) ∧ ca_generation c' = ca_generation c ∧
             ca_revision c' = ca_revision c)
  | Err _ => d1 = d
  end.
Proof.
  intros Hv Ha. cbv zeta. pose proof (reachable_capabilities ops Hv) as Hd.
  set (d := reachable ops) in *. pose proof (activate_cases a now d Hd Ha) as Hcase.
  destruct (activate_capability a now d) as [d1 res] eqn:Hcall. 
  rewrite (read_activation_run CapActive (at_namespace a) (at_name a) d Hd), next_generation_run.
  inversion Hcase as [x|ns r c -> Hr Hst Hc Hsame Hexp|ns w cur g c -> Hcur Hst Hexp Hg Hre Hfind _ Hcg Hcr Hcn];
    subst; [done| |].
  - rewrite (activate_namespace _ _ _ _ _ Hcall), Hr, Hst.
    apply select_one_Some in Hr as [Hin _]. destruct (row_activation d r Hd Hin) as (c' & Hc' & _ & _ & _ & _ & Hg).
    rewrite Hc in Hc'. injection Hc' as <-. rewrite Hc. simpl. rewrite Hg. split; [done|]. by left.
  - rewrite (activate_namespace _ _ _ _ _ Hcall). split.
    + rewrite Hexp. destruct (select_one _ _) as [r|] eqn:Hr; [|done]. simpl.
      case_bool_decide as Hs; [|done]. apply select_one_Some in Hr as [Hin _].
      destruct (row_activation d r Hd Hin) as (c' & Hc' & _ & _ & _ & _ & Hg). rewrite Hc'. simpl. by rewrite Hg.
    + right. split_and!; [|done|].
      * rewrite Hcg. destruct (select_one _ _) as [r|] eqn:Hr; [|done]. 
        by rewrite bool_decide_eq_false_2 by by apply Hst.
      * destruct Hre as [Hd1 _]. rewrite read_activation_run by done.
        rewrite (activate_namespace _ _ _ _ _ Hcall), Hfind.
        apply select_one_Some in Hfind as [Hin _].
        destruct (row_activation _ _ Hd1 Hin) as (c' & Hc' & _ & _ & Hr' & _ & Hg').
        rewrite Hc'. exists c'. split; [done|]. rewrite Hg', Hr', Hcg, Hcr. done.
Qed.

(** Deactivation is two-phase: once it has begun for a generation, the
    capability is not active any more and no generation can be reserved or
    activated; cancelling makes the same activation active again, and
    completing it leaves a tombstone from which the next generation is
    reserved. *)
Theorem deactivation_two_phase ops ns n e d1 c :
  all_valid ops →
  begin_deactivation ns n e (reachable ops) = (d1, Ok c) →
  read_activation CapActive ns n d1 = (d1, Ok None) ∧
  read_activation CapDeactivating ns n d1 = (d1, Ok (Some c)) ∧
  next_generation ns n d1 = (d1, Err deactivation_in_progress) ∧
  (∀ a now, valid_args a = true → strip (at_namespace a) = strip ns → at_name a = n →
     ∃ x, activate_capability a now d1 = (d1, Err x)) ∧
  (∃ d2, cancel_deactivation ns n e d1 = (d2, Ok c) ∧
     read_activation CapActive ns n d2 = (d2, Ok (Some c))) ∧
  (∃ d2, deactivate_capability ns n e d1 = (d2, Ok c) ∧
     read_activation CapActive ns n d2 = (d2, Ok None) ∧
     read_activation CapInactive ns n d2 = (d2, Ok (Some c)) ∧
     next_generation ns n d2 = (d2, Ok (e + 1))).
Proof.
  intros Hv Hcall. pose proof (reachable_capabilities ops Hv) as Hd.
  assert (safe_namespace ns = Ok (strip ns)) as Hns.
  { revert Hcall. unfold begin_deactivation. rewrite run_outcome_bind.
    destruct (safe_namespace ns) as [s|x] eqn:Hs; [|done]. by apply safe_namespace_Ok in Hs as [-> _]. }
  assert (∃ r, capabilities_ok d1 ∧ select_one (activation_of (strip ns) n) (cd_activations d1) = Some r ∧
    ax_state r = CapDeactivating ∧ activation_from_row r = Ok c ∧ ax_generation r = e)
    as (r & Hd1 & Hr & Hst & Hc & He).
  { pose proof (begin_cases ns n e _ Hd) as Hcase. rewrite Hcall in Hcase.
    inversion Hcase as [|r0 c0 Hr He Hc Hst|r0 c0 Hr He Hc Hst]; subst; [by exists r0|].
    destruct (moved_state_ok (strip ns) n CapDeactivating _ _ Hd Hr) as [[Hok _] Hfind].
    by exists (r0 <| ax_state := CapDeactivating |>). }
  assert (∀ to, to ≠ CapDeactivating → ∃ d2, change_deactivation_state ns n e to d1 = (d2, Ok c) ∧
    capabilities_ok d2 ∧
    select_one (activation_of (strip ns) n) (cd_activations d2) = Some (r <| ax_state := to |>)) as Hchange.
  { intros to Hto. exists (moved_state (strip ns) n to d1).
    destruct (moved_state_ok (strip ns) n to _ _ Hd1 Hr) as [[Hok _] Hfind]. split; [|done].
    apply select_one_Some in Hr as Hx. destruct Hx as [Hin _].
    destruct (row_activation d1 r Hd1 Hin) as (c' & Hc' & _ & _ & _ & _ & Hcg).
    rewrite Hc in Hc'. injection Hc' as <-.
    unfold change_deactivation_state. rewrite run_outcome_bind, Hns, run_transaction, run_gets_bind, Hr,
      run_outcome_bind, Hc, run_unless_bind, Hcg, He, Z.eqb_refl, Hst, bool_decide_eq_false_2 by congruence.
    rewrite run_unless_bind, bool_decide_eq_true_2, (move_lifecycle_run _ _ _ _ _ _ r) by done. done. }
  split_and!.
  - rewrite read_activation_run, Hns, Hr, Hst by done. done.
  - rewrite read_activation_run, Hns, Hr, Hst, Hc by done. done.
  - rewrite next_generation_run, Hns, Hr, Hst. done.
  - intros a now Ha Hs Hn. pose proof (activate_cases a now d1 Hd1 Ha) as Hcase.
    destruct (activate_capability a now d1) as [d2 res].
    inversion Hcase as [x|? r0 ? -> Hr0 Hst0|? ? cur ? ? -> Hcur Hst0]; subst; [by eexists|exfalso..].
    + rewrite Hs, Hr in Hr0. congruence.
    + rewrite Hs, Hr in Hst0. by apply (Hst0 r).
  - destruct (Hchange CapActive) as (d2 & Hx & Hd2 & Hf); [done|]. exists d2. split; [done|].
    rewrite read_activation_run, Hns, Hf by done. unfold activation_from_row in *. simpl. by rewrite Hc.
  - destruct (Hchange CapInactive) as (d2 & Hx & Hd2 & Hf); [done|]. exists d2.
    rewrite !read_activation_run, next_generation_run, Hns, Hf by done.
    unfold activation_from_row in *. simpl. rewrite Hc. split_and!; try done.
    unfold ax_generation in *. simpl. by rewrite He.
Qed.
End Properties.

(** ** Witnesses *)

(** A manifest of which only the revision varies. *)
Record sample_manifest := SampleManifest { sample_revision : positive }.
#[local] Instance sample_content : ManifestContent sample_manifest := {|
  manifest_name := λ _, "mailer";
  manifest_revision := λ w, Z.pos (sample_revision w);
  manifest_dump := λ w, JObj [("name", JStr "mailer"); ("revision", JInt (Z.pos (sample_revision w)))];
  manifest_load := λ v,
    match jget "revision" v with
    | Some (JInt (Z.pos r)) => Ok (SampleManifest r)
    | _ => Err (ValidationError "CapabilityManifest")
    end;
|}.
#[local] Instance sample_laws : ManifestLaws sample_manifest.
Proof. split; [done|by intros [r]; simpl; lia|by intros [r]]. Qed.

Definition sample_args (revision : Z) (expected : option Z) (config : list (string * json)) : activate_args :=
  ActivateArgs "t" "mailer" revision expected config [] [] None.
Definition sample_appends : list (capability_op sample_manifest) :=
  [OpAppend "t" (SampleManifest 1) None 1; OpAppend "t" (SampleManifest 2) (Some 1) 2].
Definition sample_activates : list (capability_op sample_manifest) :=
  sample_appends ++ [OpActivateCapability (sample_args 1 None [("limit", JInt 1)]) 3].
Definition sample_capabilities : capability_db := run_capabilities sample_activates no_capabilities.
Definition sample_active : capability_db * outcome (option activation) :=
  read_activation CapActive "t" "mailer" sample_capabilities.
Definition sample_activation : activation :=
  Eval vm_compute in
    match sample_active.2 with
    | Ok (Some c) => c
    | _ => CapabilityActivation "" "" 0 "" 0 0 [] [] [] None
    end.
Lemma sample_active_Ok : sample_active.2 = Ok (Some sample_activation).
Proof. by vm_compute. Qed.

Lemma generation_fences_witness :
  ∃ c', (read_activation CapDeactivating "t" "mailer"
           (run_capabilities [OpBeginDeactivation (W := sample_manifest) "t" "mailer" 1]
              sample_capabilities)).2 = Ok (Some c') ∧ c' = sample_activation.
Proof.
  assert ((read_activation CapDeactivating "t" "mailer"
    (run_capabilities [OpBeginDeactivation (W := sample_manifest) "t" "mailer" 1] sample_capabilities)).2 =
    Ok (Some sample_activation)) as E by (vm_compute; reflexivity).
  exists sample_activation. split; [exact E|]. symmetry.
  apply (generation_fences sample_activates [OpBeginDeactivation "t" "mailer" 1] "t" "mailer"
    CapActive CapDeactivating sample_activation sample_activation);
    [repeat constructor|repeat constructor|exact sample_active_Ok|exact E|reflexivity].
Defined.

Lemma manifests_archived_witness :
  stored_revisions "t" "mailer" (run_capabilities sample_appends no_capabilities) = seqZ 1 2.
Proof.
  destruct (manifests_archived sample_appends "t" (SampleManifest 3) (Some 2) 3
    ltac:(repeat constructor)) as [H _].
  exact H.
Defined.

(** Replacing revision 1 by revision 2 takes generation 2. *)
Definition sample_replaced : capability_db * outcome activation :=
  activate_capability (sample_args 2 (Some 1) []) 4 sample_capabilities.
Lemma activation_reserved_witness :
  ∃ c, sample_replaced.2 = Ok c ∧
    (read_activation CapActive "t" "mailer" sample_capabilities).2 = Ok (Some sample_activation) ∧
    (next_generation "t" "mailer" sample_capabilities).2 = Ok (ca_generation c).
Proof.
  pose proof (activation_reserved sample_activates (sample_args 2 (Some 1) []) 4
    ltac:(repeat constructor) eq_refl) as H.
  cbv zeta in H. fold sample_capabilities in H. fold sample_replaced in H.
  assert (sample_replaced.2 = Ok (CapabilityActivation "t" "mailer" 2
    (content_digest (SampleManifest 2)) 2 4 [] [] [] None)) as E by (vm_compute; reflexivity).
  destruct sample_replaced as [d1 res]. cbn [snd] in E. subst res. eexists. split; [reflexivity|].
  split; [exact sample_active_Ok|]. destruct H as [_ [(_ & H & _)|(H & _)]].
  { exfalso. apply (f_equal snd) in H. pose proof sample_active_Ok as Hx. unfold sample_active in Hx.
    cbn [sample_args at_namespace at_name snd] in H. rewrite Hx in H. discriminate H. }
  cbn [sample_args at_namespace at_name] in H. rewrite H. reflexivity.
Defined.

Definition sample_begun : capability_db * outcome activation :=
  begin_deactivation "t" "mailer" 1 sample_capabilities.
Lemma deactivation_two_phase_witness :
  next_generation "t" "mailer" sample_begun.1 = (sample_begun.1, Err deactivation_in_progress).
Proof.
  assert (begin_deactivation "t" "mailer" 1 (run_capabilities sample_activates no_capabilities) =
    (sample_begun.1, Ok sample_activation)) as E by (vm_compute; reflexivity).
  destruct (deactivation_two_phase sample_activates "t" "mailer" 1 sample_begun.1 sample_activation
    ltac:(repeat constructor) E) as (_ & _ & H & _).
  exact H.
Defined.

(** The comparison of configurations is Python's: asking for [true] where [1]
    is active is taken for the same activation and changes nothing. *)
Example true_is_one :
  activate_capability (sample_args 1 (Some 1) [("limit", JBool true)]) 9 sample_capabilities =
    (sample_capabilities, Ok sample_activation).
Proof. by vm_compute. Qed.
