(* ===== verification/Credentials.v ===== *)
(** * Capability API credentials ([capabilities/credentials.py])

    The bearer tokens capability workers reach the public API with: their
    hashed, revocable rows, the authority each may carry, and the contract a
    manifest's interface workers must state to get one. *)

From S2P Require Import Prelude Sqlite PyText Sha256 Protocol.
#[local] Open Scope string_scope.
#[local] Open Scope list_scope.
#[local] Open Scope Z_scope.

(** ** Scopes and bindings *)

(** [CapabilityAPIScope], [CAPABILITY_API_SCOPES] and [_OWNER_ONLY_SCOPES] *)
Definition run_submit : string := "agent.runs.submit".
Definition run_replay : string := "agent.runs.replay".
Definition run_resume : string := "agent.runs.resume".
Definition run_cancel : string := "agent.runs.cancel".
Definition file_upload : string := "files.upload".
Definition notifications_read : string := "notifications.read".
Definition notifications_ack : string := "notifications.ack".

Definition capability_api_scopes : gset string :=
  {[ run_submit; run_replay; run_resume; run_cancel; file_upload; notifications_read;
     notifications_ack ]}.
Definition owner_only_scopes : gset string :=
  {[ run_resume; run_cancel; notifications_read; notifications_ack ]}.

Record credential := CapabilityCredential {
  cc_id : string;
  cc_tenant : string;
  cc_actor : string;
  cc_capability : string;
  cc_instance : string;
  cc_interface : string;
  cc_source : string;
  cc_channel : string;
  cc_binding : run_binding;
  cc_scopes : gset string;
  cc_issued_at : Z;
  cc_revoked_at : option Z;
}.
Record issued_credential := IssuedCredential {
  is_credential : credential;
  is_token : string;
}.

(** ** The table *)

(** The tenant of the agent is the tenant of the row: the table keeps only the
    agent's identifier and revision. *)
Record credential_row := CredentialRow {
  cw_id : string;
  cw_tenant : string;
  cw_actor : string;
  cw_capability : string;
  cw_instance : string;
  cw_interface : string;
  cw_source : string;
  cw_channel : string;
  cw_spec : string;
  cw_spec_revision : Z;
  cw_kind : string;
  cw_trust : trust_class;
  cw_scopes : gset string;
  cw_hash : string;
  cw_issued_at : Z;
  cw_revoked_at : option Z;
  cw_reason : option string;
}.
#[global] Instance credential_row_fields : Fields credential_row := λ r,
  CredentialRow (cw_id r) (cw_tenant r) (cw_actor r) (cw_capability r) (cw_instance r)
    (cw_interface r) (cw_source r) (cw_channel r) (cw_spec r) (cw_spec_revision r) (cw_kind r)
    (cw_trust r) (cw_scopes r) (cw_hash r) (cw_issued_at r) (cw_revoked_at r) (cw_reason r).

Definition credential_db : Type := list credential_row.

Definition live (r : credential_row) : bool := cw_revoked_at r == None.
Definition of_instance (tenant instance : string) (r : credential_row) : bool :=
  (cw_tenant r == tenant) && (cw_instance r == instance).
(** The primary key, the unique token hash, and the partial index on live
    instances. *)
Definition credential_clash (r r' : credential_row) : bool :=
  (cw_id r' == cw_id r) || (cw_hash r' == cw_hash r)
  || (of_instance (cw_tenant r) (cw_instance r) r' && live r' && live r).

(** ** Checks *)

(** [_identity] *)
Definition checked_identity (value label : string) : outcome string :=
  let safe := strip value in
  if (safe == "") || (200 <? len safe) || negb (all_chars (λ c, (32 <=? code c)%N) safe)
  then Err (ValueError (label +:+ " is invalid"))
  else Ok safe.

(** [_slug] *)
Definition checked_slug (value label : string) : outcome string :=
  match slug value with Some safe => Ok safe | None => Err (ValueError (label +:+ " is invalid")) end.

(** [_scopes] *)
Definition checked_scopes (values : list string) : outcome (gset string) :=
  let scopes : gset string := list_to_set (map strip values) in
  if bool_decide (scopes = ∅) || bool_decide ("" ∈ scopes)
     || negb (bool_decide (scopes ⊆ capability_api_scopes))
  then Err (ValueError "capability API scopes are invalid")
  else Ok scopes.

(** [_validate_binding_scopes], [_validate_declared_binding_scopes] *)
Definition restricted_scopes (trust : trust_class) (scopes : gset string) : outcome unit :=
  if negb (trust == OwnerTrust) && negb (bool_decide (scopes ∩ owner_only_scopes = ∅))
  then Err (ValueError "restricted interfaces cannot receive approval or owner notification scopes")
  else Ok tt.

(** [_TOKEN_RE] *)
Definition token_char (c : ascii) : bool :=
  is_lower c || is_digit c || ((65 <=? code c) && (code c <=? 90))%N || is_char 95 c || is_char 45 c.
Definition credential_prefix : string := "otcap_".
Definition token_syntax (s : string) : bool :=
  let body := removeprefix credential_prefix s in
  startswith credential_prefix s && (40 <=? len body) && (len body <=? 200) && all_chars token_char body.

(** [_credential] *)
Definition row_to_credential (r : credential_row) : outcome credential :=
  match validate_binding (AgentRunBinding (AgentSpecRef (cw_tenant r) (cw_spec r) (cw_spec_revision r))
          (cw_kind r) (cw_trust r)) with
  | None => Err (ValidationError "AgentRunBinding")
  | Some b => Ok (CapabilityCredential (cw_id r) (cw_tenant r) (cw_actor r) (cw_capability r)
                    (cw_instance r) (cw_interface r) (cw_source r) (cw_channel r) b (cw_scopes r)
                    (cw_issued_at r) (cw_revoked_at r))
  end.

(** ** The store *)

Record issue_args := IssueArgs {
  ia_tenant : string;
  ia_actor : string;
  ia_capability : string;
  ia_instance : string;
  ia_interface : string;
  ia_source : string;
  ia_channel : string;
  ia_binding : run_binding;
  ia_scopes : list string;
}.

(** [fresh_id] and [entropy] are the random draws: [token_urlsafe(36)]. *)
Definition issue (a : issue_args) (fresh_id entropy : string) (now : Z) : M credential_db issued_credential :=
  tenant ← from_outcome (checked_identity (ia_tenant a) "tenant_id");
  actor ← from_outcome (checked_identity (ia_actor a) "actor_id");
  instance ← from_outcome (checked_identity (ia_instance a) "capability_instance_id");
  source ← from_outcome (checked_identity (ia_source a) "source_id");
  capability ← from_outcome (checked_slug (ia_capability a) "capability_name");
  interface ← from_outcome (checked_slug (ia_interface a) "interface");
  channel ← from_outcome (checked_slug (ia_channel a) "channel");
  let b := ia_binding a in
  unless (ar_tenant (rb_agent b) == tenant) (ValueError "agent binding belongs to a different tenant");;
  scopes ← from_outcome (checked_scopes (ia_scopes a));
  from_outcome (restricted_scopes (rb_trust b) scopes);;
  let token := credential_prefix +:+ entropy in
  transaction (
    modify (update (λ r, of_instance tenant instance r && live r)
      (λ r, r <| cw_revoked_at := Some now |> <| cw_reason := Some "rotated" |>));;
    try_modify (insert_row credential_clash
      (CredentialRow fresh_id tenant actor capability instance interface source channel
         (ar_spec (rb_agent b)) (ar_revision (rb_agent b)) (rb_kind b) (rb_trust b) scopes
         (sha256_hex token) now None None)) (IntegrityError "UNIQUE constraint failed"));;
  mret (IssuedCredential (CapabilityCredential fresh_id tenant actor capability instance interface
    source channel b scopes now None) token).

Definition authenticate (token : string) : M credential_db (option credential) :=
  let candidate := strip token in
  if negb (token_syntax candidate) then mret None
  else
    row ← gets (select_one (λ r, (cw_hash r == sha256_hex candidate) && live r));
    match row with
    | None => mret None
    | Some r => c ← from_outcome (row_to_credential r); mret (Some c)
    end.

(** [UPDATE .. SET revoked_at, revoked_reason], returning [rowcount]. *)
Definition revoke_where (p : credential_row → bool) (reason : string) (now : Z) : M credential_db Z :=
  let mine r := p r && live r in
  count ← gets (rowcount mine);
  modify (update mine (λ r, r <| cw_revoked_at := Some now |> <| cw_reason := Some reason |>));;
  mret (Z.of_nat count).

Definition reason_text (reason other : string) : string :=
  take_text 200 (strip (if reason == "" then other else reason)).

Definition revoke_instance (tenant_id instance_id reason : string) (now : Z) : M credential_db Z :=
  tenant ← from_outcome (checked_identity tenant_id "tenant_id");
  instance ← from_outcome (checked_identity instance_id "capability_instance_id");
  transaction (revoke_where (of_instance tenant instance) (reason_text reason "generation_stopped") now).

Definition revoke_credential (tenant_id credential_id reason : string) (now : Z) : M credential_db bool :=
  tenant ← from_outcome (checked_identity tenant_id "tenant_id");
  identifier ← from_outcome (checked_identity credential_id "credential_id");
  count ← transaction (revoke_where (λ r, (cw_tenant r == tenant) && (cw_id r == identifier))
    (reason_text reason "revoked") now);
  mret (count =? 1).

(** ** The manifest an interface credential is issued for

    The parts of [CapabilityManifest] and [WorkerSpec] the service reads. *)

Inductive worker_kind := InterfaceWorker | McpWorker | TriggerWorker | UiWorker.
#[global] Instance worker_kind_eq_dec : EqDecision worker_kind.
Proof. solve_decision. Defined.
Inductive secret_source := TenantHandle | HostSource | Issued.
#[global] Instance secret_source_eq_dec : EqDecision secret_source.
Proof. solve_decision. Defined.

Record interface_binding := AgentInterfaceBinding {
  ib_spec : string;
  ib_kind : string;
  ib_trust : trust_class;
}.
#[global] Instance interface_binding_eq_dec : EqDecision interface_binding.
Proof. solve_decision. Defined.
Record secret_requirement := SecretRequirement {
  sr_name : string;
  sr_scopes : list string;
  sr_source : secret_source;
}.
Record worker := WorkerSpec {
  wk_kind : worker_kind;
  wk_secrets : list secret_requirement;
  wk_permissions : list string;
  wk_binding : option interface_binding;
}.
Record manifest := CapabilityManifest {
  mf_name : string;
  mf_workers : list worker;
}.

Definition agent_api_token_environment : string := "OPENTULPA_AGENT_API_TOKEN".
Definition is_api_secret (s : secret_requirement) : bool := sr_name s == agent_api_token_environment.
Definition api_workers (m : manifest) : list worker :=
  List.filter (λ w, existsb is_api_secret (wk_secrets w)) (mf_workers m).
Definition api_requirements (ws : list worker) : list secret_requirement :=
  List.filter is_api_secret (concat (map wk_secrets ws)).
Definition api_scopes_of (ws : list worker) : gset string :=
  list_to_set (List.filter (λ p, bool_decide (p ∈ capability_api_scopes)) (concat (map wk_permissions ws))).
Definition declared_scopes (rs : list secret_requirement) : gset string :=
  list_to_set (concat (map sr_scopes rs)).
(** [bindings = {worker.agent_binding for ..}], when it is one declared binding. *)
Definition one_binding (ws : list worker) : option interface_binding :=
  match ws with
  | [] => None
  | w :: ws' =>
      if forallb (λ w', wk_binding w' == wk_binding w) ws' then wk_binding w else None
  end.

(** [_agent_api_contract] *)
Definition agent_api_contract (m : manifest) : outcome (option (gset string * interface_binding)) :=
  let ws := api_workers m in
  let rs := api_requirements ws in
  let scopes := api_scopes_of ws in
  if bool_decide (ws = []) then Ok None
  else if existsb (λ w, negb (wk_kind w == InterfaceWorker)) ws
  then Err (ValueError "Agent API credentials are only supported for interface workers")
  else if existsb (λ s, negb (sr_source s == Issued)) rs
  then Err (ValueError "Agent API credentials must use the issued secret source")
  else if bool_decide (scopes = ∅)
  then Err (ValueError "interface worker declares no supported Agent API scopes")
  else if negb (bool_decide (declared_scopes rs = scopes))
  then Err (ValueError "Agent API credential scopes must match worker permissions")
  else match one_binding ws with
       | None => Err (ValueError "interface workers must declare one consistent agent binding")
       | Some b => restricted_scopes (ib_trust b) scopes ≫= λ _, Ok (Some (scopes, b))
       end.

(** ** The service

    [resolve] is the injected AgentSpec resolver, [None] when the host set none. *)

Definition resolve_agent_binding (resolve : option (string → string → outcome agent_spec_ref))
    (tenant_id : string) (m : manifest) : outcome (option run_binding) :=
  contract ← agent_api_contract m;
  match contract with
  | None => Ok None
  | Some (_, declared) =>
      match resolve with
      | None => Err (RuntimeError "AgentSpec resolution is unavailable for interface credentials")
      | Some f =>
          agent ← f tenant_id (ib_spec declared);
          if negb (ar_tenant agent == tenant_id) || negb (ar_spec agent == ib_spec declared)
          then Err (ValueError "resolved AgentSpec does not match the reviewed interface binding")
          else match validate_binding (AgentRunBinding agent (ib_kind declared) (ib_trust declared)) with
               | Some b => Ok (Some b)
               | None => Err (ValidationError "AgentRunBinding")
               end
      end
  end.

Definition issue_for_capability (tenant_id instance_id : string) (m : manifest)
    (agent_binding : option run_binding) (fresh_id entropy : string) (now : Z)
    : M credential_db (option issued_credential) :=
  contract ← from_outcome (agent_api_contract m);
  match contract with
  | None =>
      unless (agent_binding == None)
        (ValueError "capability without Agent API access cannot have an agent binding");;
      mret None
  | Some (scopes, declared) =>
      match agent_binding with
      | None => raise (ValueError "interface generation is missing its persisted agent binding")
      | Some b =>
          unless (ar_tenant (rb_agent b) == tenant_id)
            (ValueError "agent binding belongs to a different tenant");;
          unless ((ar_spec (rb_agent b) == ib_spec declared) && (rb_kind b == ib_kind declared)
                  && (rb_trust b == ib_trust declared))
            (ValueError "persisted AgentSpec binding does not match the interface manifest");;
          c ← issue (IssueArgs tenant_id ("capability:" +:+ instance_id) (mf_name m) instance_id
                       (mf_name m) instance_id (mf_name m) b (elements scopes)) fresh_id entropy now;
          mret (Some c)
      end
  end.

(** The service's [revoke_instance]: the host's reason for a stopped generation. *)
Definition stop_instance (tenant_id instance_id : string) (now : Z) : M credential_db Z :=
  revoke_instance tenant_id instance_id "generation_stopped" now.

(** ** The invariant *)

Definition row_binding (r : credential_row) : run_binding :=
  AgentRunBinding (AgentSpecRef (cw_tenant r) (cw_spec r) (cw_spec_revision r)) (cw_kind r) (cw_trust r).
Definition row_instance (r : credential_row) : string * string := (cw_tenant r, cw_instance r).
Definition row_view (r : credential_row) : credential :=
  CapabilityCredential (cw_id r) (cw_tenant r) (cw_actor r) (cw_capability r) (cw_instance r)
    (cw_interface r) (cw_source r) (cw_channel r) (row_binding r) (cw_scopes r) (cw_issued_at r)
    (cw_revoked_at r).

(** What a credential may be allowed to do. *)
Definition scopes_allowed (trust : trust_class) (scopes : gset string) : Prop :=
  scopes ≠ ∅ ∧ scopes ⊆ capability_api_scopes ∧ (trust ≠ OwnerTrust → scopes ∩ owner_only_scopes = ∅).
Definition row_ok (r : credential_row) : Prop :=
  validate_binding (row_binding r) = Some (row_binding r) ∧ scopes_allowed (cw_trust r) (cw_scopes r).

Record credentials_ok (t : credential_db) : Prop := {
  co_rows : ∀ r, r ∈ t → row_ok r;
  co_ids : unique cw_id t;
  co_hashes : unique cw_hash t;
  co_live : ∀ r r', r ∈ t → r' ∈ t → live r = true → live r' = true →
    row_instance r = row_instance r' → r = r';
}.

(** A row is never rewritten, but for its revocation, which happens once. *)
Definition revoked_from (r r' : credential_row) : Prop :=
  r' = r ∨ live r = true ∧ ∃ now reason,
    r' = r <| cw_revoked_at := Some now |> <| cw_reason := Some reason |>.
Definition credentials_advance (t t' : credential_db) : Prop :=
  ∃ t1 new, t' = t1 ++ new ∧ Forall2 revoked_from t t1.

Lemma revoked_from_trans r r' r'' : revoked_from r r' → revoked_from r' r'' → revoked_from r r''.
Proof.
  intros [-> |(Hl & now & reason & ->)]; [done|].
  intros [-> |(Hl' & _)]; [right; eauto|done].
Qed.

Lemma revoked_from_fields r r' :
  revoked_from r r' → cw_id r' = cw_id r ∧ cw_hash r' = cw_hash r ∧ row_instance r' = row_instance r ∧
    row_binding r' = row_binding r ∧ cw_scopes r' = cw_scopes r ∧ cw_trust r' = cw_trust r ∧
    (live r' = true → r' = r).
Proof. by intros [-> |(Hl & now & reason & ->)]. Qed.

Lemma rows_kept t : Forall2 revoked_from t t.
Proof. induction t; constructor; [by left|done]. Qed.

Lemma credentials_advance_refl t : credentials_advance t t.
Proof. exists t, []. rewrite app_nil_r. split; [done|apply rows_kept]. Qed.

Lemma credentials_advance_trans t t' t'' :
  credentials_advance t t' → credentials_advance t' t'' → credentials_advance t t''.
Proof.
  intros (t1 & new & -> & H1) (t2 & new' & -> & H2).
  apply Forall2_app_inv_l in H2 as (u & v & Hu & Hv & ->).
  exists u, (v ++ new'). split; [by rewrite app_assoc|].
  eapply Forall2_trans; [|exact H1|exact Hu]. apply revoked_from_trans.
Qed.

Lemma advance_row t t' r : credentials_advance t t' → r ∈ t → ∃ r', r' ∈ t' ∧ revoked_from r r'.
Proof.
  intros (t1 & new & -> & H) (i & Hi)%list_elem_of_lookup.
  eapply Forall2_lookup_l in H as (r' & Hr' & Hf); [|done].
  exists r'. split; [|done]. apply elem_of_app. left. by eapply list_elem_of_lookup_2.
Qed.

(** Revoking the live rows a condition selects. *)
Definition revoked (p : credential_row → bool) (reason : string) (now : Z) (t : credential_db) : credential_db :=
  update (λ r, p r && live r) (λ r, r <| cw_revoked_at := Some now |> <| cw_reason := Some reason |>) t.

Lemma revoked_rows p reason now t r' :
  r' ∈ revoked p reason now t → ∃ r, r ∈ t ∧ revoked_from r r' ∧ (p r = true → live r' = false).
Proof.
  intros (r & Hr & ->)%elem_of_update. exists r. split; [done|].
  destruct (p r) eqn:Hp, (live r) eqn:Hl; simpl; (split; [by (by left) || (right; eauto)|done]).
Qed.

Lemma revoked_ok p reason now t :
  credentials_ok t → credentials_ok (revoked p reason now t) ∧ credentials_advance t (revoked p reason now t).
Proof.
  intros [H1 H2 H3 H4]. split; [split|].
  - intros r' (r & Hr & (_ & _ & _ & Hb & Hs & Ht & _)%revoked_from_fields & _)%revoked_rows.
    unfold row_ok. rewrite Hb, Hs, Ht. by apply H1.
  - unfold unique, revoked. by rewrite fmap_update.
  - unfold unique, revoked. by rewrite fmap_update.
  - intros x x' (r & Hr & Hf & _)%revoked_rows (r' & Hr' & Hf' & _)%revoked_rows Hx Hx' Heq.
    apply revoked_from_fields in Hf as (_ & _ & _ & _ & _ & _ & Hk).
    apply revoked_from_fields in Hf' as (_ & _ & _ & _ & _ & _ & Hk').
    pose proof (Hk Hx). pose proof (Hk' Hx'). subst. auto.
  - exists (revoked p reason now t), []. rewrite app_nil_r. split; [done|].
    unfold revoked, update. clear. induction t as [|r t IH]; constructor; [|done].
    destruct (p r && live r) eqn:E; [|by left]. right. apply andb_true_iff in E as [_ E]. eauto.
Qed.

Lemma inserted_ok r t t' :
  credentials_ok t → row_ok r → insert_row credential_clash r t = Some t' →
  credentials_ok t' ∧ credentials_advance t t'.
Proof.
  intros [H1 H2 H3 H4] Hr [-> Hc]%insert_row_Some. split; [split|].
  - intros x [Hx| ->%list_elem_of_singleton]%elem_of_app; auto.
  - apply unique_app; [done|]. intros r' Hr' Heq. specialize (Hc r' Hr'). unfold credential_clash in Hc.
    by rewrite bool_decide_eq_true_2 in Hc.
  - apply unique_app; [done|]. intros r' Hr' Heq. specialize (Hc r' Hr'). unfold credential_clash in Hc.
    apply orb_false_iff in Hc as [Hc _]. apply orb_false_iff in Hc as [_ Hc].
    by rewrite bool_decide_eq_true_2 in Hc.
  - assert (∀ x, x ∈ t → live x = true → live r = true → row_instance x = row_instance r → False) as Hno.
    { intros x Hx Hl Hl' [= Ht Hi]. specialize (Hc x Hx). apply orb_false_iff in Hc as [_ Hc].
      unfold of_instance in Hc. by rewrite Hl, Hl', Ht, Hi, !bool_decide_eq_true_2 in Hc. }
    intros x x' [Hx| ->%list_elem_of_singleton]%elem_of_app [Hx'| ->%list_elem_of_singleton]%elem_of_app
      Hl Hl' Heq; [auto|exfalso; by eapply Hno|exfalso; by eapply (Hno x')|done].
  - exists t, [r]. split; [done|]. apply rows_kept.
Qed.

(** ** What each call does *)

Lemma checked_scopes_Ok l scopes :
  checked_scopes l = Ok scopes → scopes ≠ ∅ ∧ scopes ⊆ capability_api_scopes.
Proof.
  unfold checked_scopes. case_bool_decide as H1; [done|]. case_bool_decide; [done|].
  case_bool_decide as H3; [|done]. by intros [= <-].
Qed.

Lemma restricted_scopes_Ok trust scopes :
  restricted_scopes trust scopes = Ok tt ↔ (trust ≠ OwnerTrust → scopes ∩ owner_only_scopes = ∅).
Proof.
  unfold restricted_scopes. case_bool_decide as H1; simpl; [naive_solver|].
  case_bool_decide as H2; simpl; naive_solver.
Qed.

(** The row an accepted [issue] writes. *)
Record issued_row (a : issue_args) (fresh_id entropy : string) (now : Z) (r : credential_row) : Prop := {
  ir_tenant : checked_identity (ia_tenant a) "tenant_id" = Ok (cw_tenant r);
  ir_actor : checked_identity (ia_actor a) "actor_id" = Ok (cw_actor r);
  ir_instance : checked_identity (ia_instance a) "capability_instance_id" = Ok (cw_instance r);
  ir_source : checked_identity (ia_source a) "source_id" = Ok (cw_source r);
  ir_capability : checked_slug (ia_capability a) "capability_name" = Ok (cw_capability r);
  ir_interface : checked_slug (ia_interface a) "interface" = Ok (cw_interface r);
  ir_channel : checked_slug (ia_channel a) "channel" = Ok (cw_channel r);
  ir_binding : row_binding r = ia_binding a;
  ir_scopes : checked_scopes (ia_scopes a) = Ok (cw_scopes r);
  ir_allowed : scopes_allowed (cw_trust r) (cw_scopes r);
  ir_id : cw_id r = fresh_id;
  ir_hash : cw_hash r = sha256_hex (credential_prefix +:+ entropy);
  ir_issued : cw_issued_at r = now;
  ir_live : live r = true;
}.

Definition rotated (r : credential_row) (now : Z) (t : credential_db) : credential_db :=
  revoked (of_instance (cw_tenant r) (cw_instance r)) "rotated" now t.

Lemma credential_issue_cases a fresh_id entropy now t :
  let call := issue a fresh_id entropy now t in
  (∃ e, call = (t, Err e)) ∨
  ∃ r, issued_row a fresh_id entropy now r ∧
    insert_row credential_clash r (rotated r now t) = Some (rotated r now t ++ [r]) ∧
    call = (rotated r now t ++ [r],
            Ok (IssuedCredential (row_view r) (credential_prefix +:+ entropy))).
Proof.
  cbv zeta. unfold issue.
  do 7 (rewrite run_outcome_bind; match goal with |- context [match ?x with _ => _ end] =>
    lazymatch x with context [match _ with _ => _ end] => fail | _ => destruct x eqn:?; [|left; by eexists] end end).
  cbv zeta. rewrite run_unless_bind. case_bool_decide as Ht; [|left; by eexists].
  rewrite run_outcome_bind. destruct (checked_scopes _) as [scopes|] eqn:Hs; [|left; by eexists].
  rewrite run_outcome_bind. destruct (restricted_scopes _ _) as [[]|] eqn:Hr; [|left; by eexists].
  rewrite run_bind, run_transaction, run_modify_bind, run_try_modify.
  match goal with |- context [insert_row _ ?x _] => set (r := x) end.
  change (update _ _ t) with (rotated r now t).
  destruct (insert_row _ _ _) as [t'|] eqn:Hi; [|left; by eexists].
  right. exists r. pose proof Hi as [-> _]%insert_row_Some.
  assert (row_binding r = ia_binding a) as Hb.
  { unfold row_binding. simpl. rewrite <- Ht. by destruct (ia_binding a) as [[]]. }
  split; [|split; [done|]].
  - destruct (checked_scopes_Ok _ _ Hs) as [Hne Hsub]. pose proof (proj1 (restricted_scopes_Ok _ _) Hr).
    split; done.
  - unfold row_view. by rewrite Hb.
Qed.

Lemma issue_ok a fresh_id entropy now t :
  credentials_ok t → validate_binding (ia_binding a) = Some (ia_binding a) →
  credentials_ok (issue a fresh_id entropy now t).1 ∧ credentials_advance t (issue a fresh_id entropy now t).1.
Proof.
  intros Ht Hb. destruct (credential_issue_cases a fresh_id entropy now t) as [[e ->]|(r & Hr & Hi & ->)];
    [split; [done|apply credentials_advance_refl]|].
  destruct (revoked_ok (of_instance (cw_tenant r) (cw_instance r)) "rotated" now t Ht) as [Ht1 Ha1].
  assert (row_ok r) as Hok by (split; [by rewrite (ir_binding _ _ _ _ _ Hr)|apply Hr]).
  destruct (inserted_ok _ _ _ Ht1 Hok Hi) as [Ht2 Ha2]. split; [done|]. by eapply credentials_advance_trans.
Qed.

Lemma revoke_where_run p reason now t :
  revoke_where p reason now t =
    (revoked p reason now t, Ok (Z.of_nat (rowcount (λ r, p r && live r) t))).
Proof. done. Qed.

Lemma row_view_ok r : row_ok r → row_to_credential r = Ok (row_view r).
Proof. intros [H _]. unfold row_to_credential. fold (row_binding r). by rewrite H. Qed.

(** Authenticating reads the live row with the digest of the token. *)
Definition holder (token : string) (t : credential_db) : option credential_row :=
  select_one (λ r, (cw_hash r == sha256_hex token) && live r) t.

Lemma authenticate_run token t :
  credentials_ok t → token_syntax (strip token) = true →
  authenticate token t = (t, Ok (row_view <$> holder (strip token) t)).
Proof.
  intros Ht Hs. unfold authenticate. rewrite Hs. simpl. rewrite run_gets_bind. fold (holder (strip token) t).
  destruct (holder _ t) as [r|] eqn:Hr; [|done]. simpl.
  rewrite run_outcome_bind, row_view_ok; [done|].
  apply select_one_Some in Hr as [Hr _]. by apply Ht.
Qed.

Lemma authenticate_total token t :
  credentials_ok t → ∃ c, authenticate token t = (t, Ok c).
Proof.
  intros Ht. destruct (token_syntax (strip token)) eqn:E; [rewrite authenticate_run by done; by eexists|].
  unfold authenticate. rewrite E. by eexists.
Qed.

Lemma holder_row token t r : credentials_ok t → holder token t = Some r ↔
  r ∈ t ∧ cw_hash r = sha256_hex token ∧ live r = true.
Proof.
  intros Ht. split.
  - by intros [Hr [Hh%bool_decide_eq_true Hl]%andb_true_iff]%select_one_Some.
  - intros (Hr & Hh & Hl). destruct (holder token t) as [r'|] eqn:E.
    + apply select_one_Some in E as [Hr' [Hh'%bool_decide_eq_true Hl']%andb_true_iff].
      f_equal. apply (unique_eq cw_hash t); [apply Ht|done..|congruence].
    + eapply select_one_None in E; [|exact Hr]. by rewrite Hh, Hl, bool_decide_eq_true_2 in E.
Qed.

Lemma token_syntax_stripped token : token_syntax token = true → stripped token.
Proof.
  unfold token_syntax. intros [[[Hp _]%andb_true_iff _]%andb_true_iff Hb]%andb_true_iff.
  apply startswith_spec in Hp as (body & ->). rewrite removeprefix_app in Hb.
  apply (solid_stripped token_char); [|exact Hb].
  intros c. unfold token_char, is_lower, is_digit, is_char, py_isspace. cbv zeta. intros Hc.
  apply not_true_is_false. intros Hs.
  repeat match goal with
  | H : _ || _ = true |- _ => apply orb_true_iff in H as [H|H]
  | H : _ && _ = true |- _ => apply andb_true_iff in H as [??]
  | H : (_ <=? _)%N = true |- _ => apply N.leb_le in H
  | H : (_ =? _)%N = true |- _ => apply N.eqb_eq in H
  end; lia.
Qed.

(** ** Histories *)

Inductive credential_call :=
  | CallIssue (a : issue_args) (fresh_id entropy : string) (now : Z)
  | CallIssueFor (tenant_id instance_id : string) (m : manifest) (b : run_binding)
      (fresh_id entropy : string) (now : Z)
  | CallRevokeInstance (tenant_id instance_id reason : string) (now : Z)
  | CallRevoke (tenant_id credential_id reason : string) (now : Z)
  | CallAuthenticate (token : string).

(** A binding object exists only once validated. *)
Definition call_valid (c : credential_call) : Prop :=
  match c with
  | CallIssue a _ _ _ => validate_binding (ia_binding a) = Some (ia_binding a)
  | CallIssueFor _ _ _ b _ _ _ => validate_binding b = Some b
  | _ => True
  end.
#[global] Instance call_valid_dec c : Decision (call_valid c).
Proof. destruct c; simpl; apply _. Defined.

Definition step_credentials (t : credential_db) (c : credential_call) : credential_db :=
  match c with
  | CallIssue a fresh_id entropy now => (issue a fresh_id entropy now t).1
  | CallIssueFor tenant_id instance_id m b fresh_id entropy now =>
      (issue_for_capability tenant_id instance_id m (Some b) fresh_id entropy now t).1
  | CallRevokeInstance tenant_id instance_id reason now => (revoke_instance tenant_id instance_id reason now t).1
  | CallRevoke tenant_id credential_id reason now => (revoke_credential tenant_id credential_id reason now t).1
  | CallAuthenticate token => (authenticate token t).1
  end.
Definition run_credentials (calls : list credential_call) (t : credential_db) : credential_db :=
  foldl step_credentials t calls.

Lemma revoke_instance_run tenant_id instance_id reason now t :
  revoke_instance tenant_id instance_id reason now t =
    match checked_identity tenant_id "tenant_id",
          checked_identity instance_id "capability_instance_id" with
    | Ok tenant, Ok instance =>
        (revoked (of_instance tenant instance) (reason_text reason "generation_stopped") now t,
         Ok (Z.of_nat (rowcount (λ r, of_instance tenant instance r && live r) t)))
    | Ok _, Err e => (t, Err e)
    | Err e, _ => (t, Err e)
    end.
Proof.
  unfold revoke_instance. rewrite run_outcome_bind. destruct (checked_identity _ _); [|done].
  rewrite run_outcome_bind. by destruct (checked_identity _ _).
Qed.

Lemma revoke_credential_run tenant_id credential_id reason now t :
  ∃ p text, (revoke_credential tenant_id credential_id reason now t).1 = t ∨
    (revoke_credential tenant_id credential_id reason now t).1 = revoked p text now t.
Proof.
  unfold revoke_credential. rewrite run_outcome_bind. destruct (checked_identity _ _); [|exists (λ _, true), ""; by left].
  rewrite run_outcome_bind. destruct (checked_identity _ _); [|exists (λ _, true), ""; by left].
  do 2 eexists. right. done.
Qed.

Lemma issue_for_run tenant_id instance_id m b fresh_id entropy now t :
  (∃ e, issue_for_capability tenant_id instance_id m b fresh_id entropy now t = (t, Err e)) ∨
  (b = None ∧ agent_api_contract m = Ok None ∧
    issue_for_capability tenant_id instance_id m b fresh_id entropy now t = (t, Ok None)) ∨
  ∃ binding scopes declared, b = Some binding ∧ agent_api_contract m = Ok (Some (scopes, declared)) ∧
    ar_tenant (rb_agent binding) = tenant_id ∧ ar_spec (rb_agent binding) = ib_spec declared ∧
    rb_kind binding = ib_kind declared ∧ rb_trust binding = ib_trust declared ∧
    let a := IssueArgs tenant_id ("capability:" +:+ instance_id) (mf_name m) instance_id
               (mf_name m) instance_id (mf_name m) binding (elements scopes) in
    issue_for_capability tenant_id instance_id m b fresh_id entropy now t =
      (Some <$> issue a fresh_id entropy now) t.
Proof.
  unfold issue_for_capability. rewrite run_outcome_bind.
  destruct (agent_api_contract m) as [[[scopes declared]|]|]; [| |left; by eexists].
  - destruct b as [b|]; [|left; by eexists]. rewrite run_unless_bind.
    case_bool_decide as Ht; [|left; by eexists]. rewrite run_unless_bind.
    destruct ((ar_spec _ == _) && _ && _) eqn:E; [|left; by eexists].
    apply andb_true_iff in E as [[E1%bool_decide_eq_true E2%bool_decide_eq_true]%andb_true_iff
      E3%bool_decide_eq_true].
    right. right. exists b, scopes, declared. split_and!; done.
  - rewrite run_unless_bind. case_bool_decide; [|left; by eexists]. right. left. done.
Qed.

Lemma step_credentials_ok c t :
  credentials_ok t → call_valid c →
  credentials_ok (step_credentials t c) ∧ credentials_advance t (step_credentials t c).
Proof.
  intros Ht Hc. destruct c; simpl in *.
  - by apply issue_ok.
  - destruct (issue_for_run tenant_id instance_id m (Some b) fresh_id entropy now t)
      as [[e ->]|[[? _]|(b' & sc & d & [= <-] & _ & _ & _ & _ & _ & ->)]];
      [split; [done|apply credentials_advance_refl]|done|].
    rewrite run_fmap. match goal with |- context [issue ?x _ _ _ t] => set (a := x) end.
    pose proof (issue_ok a fresh_id entropy now t Ht Hc). by destruct (issue a _ _ _ t) as [? [?|?]].
  - rewrite revoke_instance_run. destruct (checked_identity tenant_id _); [|split; [done|apply credentials_advance_refl]].
    destruct (checked_identity instance_id _); [|split; [done|apply credentials_advance_refl]]. by apply revoked_ok.
  - destruct (revoke_credential_run tenant_id credential_id reason now t) as (p & text & [-> | ->]);
      [split; [done|apply credentials_advance_refl]|by apply revoked_ok].
  - destruct (authenticate_total token t Ht) as [o ->]. split; [done|apply credentials_advance_refl].
Qed.

Lemma run_credentials_ok calls t :
  credentials_ok t → Forall call_valid calls →
  credentials_ok (run_credentials calls t) ∧ credentials_advance t (run_credentials calls t).
Proof.
  intros Ht Hc. revert t Ht. induction Hc as [|c calls Hc Hcs IH]; intros t Ht; [split; [done|apply credentials_advance_refl]|].
  destruct (step_credentials_ok c t Ht Hc) as [Ht1 Ha1]. destruct (IH _ Ht1) as [Ht2 Ha2].
  split; [done|by eapply credentials_advance_trans].
Qed.

Lemma no_credentials_ok : credentials_ok [].
Proof. split; [set_solver|by apply NoDup_nil..|set_solver]. Qed.

(** A token finds the row it was issued with, or, once that is revoked, nothing. *)
Lemma holder_later token t t' r :
  credentials_ok t → credentials_ok t' → credentials_advance t t' →
  r ∈ t → cw_hash r = sha256_hex token → holder token t' = holder token t ∨ holder token t' = None.
Proof.
  intros Ht Ht' Ha Hr Hh. destruct (advance_row _ _ _ Ha Hr) as (r' & Hr' & Hf).
  pose proof (revoked_from_fields _ _ Hf) as (_ & Hh' & _ & _ & _ & _ & Hl).
  destruct (holder token t') as [x|] eqn:E; [left|by right]. symmetry.
  apply holder_row in E as (Hx & Hxh & Hxl); [|done].
  assert (x = r') as -> by (apply (unique_eq cw_hash t'); [apply Ht'|done..|congruence]).
  pose proof (Hl Hxl). subst. by apply holder_row.
Qed.

(** C30: the token an [issue] returns authenticates as exactly the credential it
    was issued with, whatever other credentials exist; through every later
    history it authenticates as that credential or not at all, and once it is
    refused no later call makes it valid again. *)
Theorem token_valid_until_revoked calls a fresh_id entropy now v :
  Forall call_valid calls → validate_binding (ia_binding a) = Some (ia_binding a) →
  token_syntax (credential_prefix +:+ entropy) = true →
  let issued := issue a fresh_id entropy now (run_credentials calls []) in
  issued.2 = Ok v →
  authenticate (is_token v) issued.1 = (issued.1, Ok (Some (is_credential v))) ∧
  ∀ later, Forall call_valid later →
    let t := run_credentials later issued.1 in
    authenticate (is_token v) t = (t, Ok (Some (is_credential v))) ∨
    authenticate (is_token v) t = (t, Ok None) ∧
    ∀ more, Forall call_valid more →
      (authenticate (is_token v) (run_credentials more t)).2 = Ok None.
Proof.
  intros Hcalls Hb Hs. cbv zeta.
  destruct (run_credentials_ok calls [] no_credentials_ok Hcalls) as [Ht _].
  destruct (issue_ok a fresh_id entropy now _ Ht Hb) as [Ht1 _].
  destruct (credential_issue_cases a fresh_id entropy now (run_credentials calls [])) as [[e ->]|(r & Hr & _ & Heq)];
    [done|]. rewrite Heq in Ht1 |- *. simpl in *. intros [= <-]. simpl.
  set (t1 := rotated _ _ _ ++ [r]) in *. set (token := credential_prefix +:+ entropy) in *.
  assert (strip token = token) as Hstrip by by apply token_syntax_stripped.
  assert (r ∈ t1) as Hrt by (apply elem_of_app; right; by apply list_elem_of_singleton).
  assert (holder token t1 = Some r) as Hhold.
  { apply holder_row; [done|]. split; [done|]. split; [apply Hr|exact (ir_live _ _ _ _ _ Hr)]. }
  assert (∀ t, credentials_ok t → authenticate token t = (t, Ok (row_view <$> holder token t))) as Hauth.
  { intros t H. rewrite authenticate_run, Hstrip; [done..|]. by rewrite Hstrip. }
  split; [by rewrite Hauth, Hhold|]. intros later Hlater.
  destruct (run_credentials_ok later t1 Ht1 Hlater) as [Ht2 Ha2]. rewrite Hauth by done.
  destruct (holder_later token t1 _ r Ht1 Ht2 Ha2 Hrt) as [-> |Hnone]; [apply Hr| |].
  - left. by rewrite Hhold.
  - right. rewrite Hnone. split; [done|]. intros more Hmore.
    destruct (run_credentials_ok more _ Ht2 Hmore) as [Ht3 Ha3]. rewrite Hauth by done. simpl.
    destruct (advance_row _ _ _ Ha2 Hrt) as (r' & Hr' & (_ & Hh' & _)%revoked_from_fields).
    destruct (holder_later token _ _ r' Ht2 Ht3 Ha3 Hr') as [-> | ->]; [|by rewrite Hnone|done].
    rewrite Hh'. apply Hr.
Qed.

(** What authenticating answers, read off the table. *)
Lemma authenticated token t c :
  credentials_ok t → (authenticate token t).2 = Ok (Some c) ↔
  token_syntax (strip token) = true ∧ ∃ r, r ∈ t ∧ live r = true ∧ cw_hash r = sha256_hex (strip token) ∧
    c = row_view r.
Proof.
  intros Ht. destruct (token_syntax (strip token)) eqn:E.
  - rewrite authenticate_run by done. simpl. split.
    + intros [= H]. apply fmap_Some in H as (r & Hr & ->). apply holder_row in Hr as (? & ? & ?); [|done].
      split; [done|]. eexists. split_and!; done.
    + intros (_ & r & Hr & Hl & Hh & ->).
      by rewrite (proj2 (holder_row (strip token) t r Ht)).
  - unfold authenticate. rewrite E. split; [done|by intros [??]].
Qed.

Lemma binding_trust b b' :
  validate_binding b = Some b' →
  (rb_trust b' = OwnerTrust ↔ rb_kind b' = "owner") ∧
  (rb_trust b' ≠ OwnerTrust → ar_spec (rb_agent b') ≠ "owner").
Proof.
  unfold validate_binding. destruct (validate_ref _) as [a|]; [|done]. destruct (slug _) as [k|]; [|done].
  destruct (negb (Bool.eqb _ _)) eqn:E1; [done|]. destruct (negb (_ == _) && _) eqn:E2; [done|].
  intros [= <-]. simpl. apply negb_false_iff, Bool.eqb_prop in E1.
  split; [rewrite <- (bool_decide_eq_true (rb_trust b = _)), E1; apply bool_decide_eq_true|].
  intros Hn Ha. by rewrite Ha, bool_decide_eq_false_2, bool_decide_eq_true_2 in E2.
Qed.

(** C31: whatever a token authenticates as is confined: a live credential of the
    tenant its agent belongs to, with a non-empty set of API scopes, owner
    authority exactly for owner runs, no approval or notification scope and not
    the owner agent for anyone else; and a worker instance has one bearer: two
    tokens that authenticate for it are the same credential. *)
Theorem credentials_confined calls token c :
  Forall call_valid calls →
  let t := run_credentials calls [] in
  (authenticate token t).2 = Ok (Some c) →
  cc_revoked_at c = None ∧ ar_tenant (rb_agent (cc_binding c)) = cc_tenant c ∧
  scopes_allowed (rb_trust (cc_binding c)) (cc_scopes c) ∧
  (rb_trust (cc_binding c) = OwnerTrust ↔ rb_kind (cc_binding c) = "owner") ∧
  (rb_trust (cc_binding c) ≠ OwnerTrust → ar_spec (rb_agent (cc_binding c)) ≠ "owner") ∧
  ∀ token' c', (authenticate token' t).2 = Ok (Some c') →
    cc_tenant c' = cc_tenant c → cc_instance c' = cc_instance c → c' = c.
Proof.
  intros Hcalls. cbv zeta. destruct (run_credentials_ok calls [] no_credentials_ok Hcalls) as [Ht _].
  intros (_ & r & Hr & Hl & _ & ->)%authenticated; [|done].
  destruct (co_rows _ Ht r Hr) as [Hb Hs]. pose proof (binding_trust _ _ Hb) as [Hk Ho].
  split; [by apply bool_decide_eq_true in Hl|]. do 4 (split; [done|]).
  intros token' c' (_ & r' & Hr' & Hl' & _ & ->)%authenticated Hten Hins; [|done].
  simpl in *. f_equal. apply (co_live _ Ht); [done..|]. unfold row_instance. congruence.
Qed.

Lemma revoked_member p reason now t r :
  r ∈ revoked p reason now t → live r = true → r ∈ t ∧ p r = false.
Proof.
  intros (r0 & Hr0 & Hf & Hp)%revoked_rows Hl.
  apply revoked_from_fields in Hf as (_ & _ & _ & _ & _ & _ & Hk). pose proof (Hk Hl). subst.
  split; [done|]. apply not_true_is_false. intros H. specialize (Hp H). congruence.
Qed.

Lemma checked_identity_Ok value label safe : checked_identity value label = Ok safe → safe = strip value.
Proof. unfold checked_identity. destruct (_ || _ || _); congruence. Qed.

(** Stopping a capability instance revokes its bearer, one at most, and
    nobody else's: afterwards exactly the tokens of the other instances still
    authenticate, each as before. *)
Theorem stopped_instance_locked_out calls tenant_id instance_id reason now n :
  Forall call_valid calls →
  let t := run_credentials calls [] in
  let stopped := revoke_instance tenant_id instance_id reason now t in
  stopped.2 = Ok n →
  0 <= n <= 1 ∧
  ∀ token c, (authenticate token stopped.1).2 = Ok (Some c) ↔
    (authenticate token t).2 = Ok (Some c) ∧
    ¬ (cc_tenant c = strip tenant_id ∧ cc_instance c = strip instance_id).
Proof.
  intros Hcalls. cbv zeta. destruct (run_credentials_ok calls [] no_credentials_ok Hcalls) as [Ht _].
  set (t := run_credentials calls []) in *. rewrite revoke_instance_run.
  destruct (checked_identity tenant_id _) as [tenant|] eqn:E1; [|done].
  destruct (checked_identity instance_id _) as [instance|] eqn:E2; [|done].
  apply checked_identity_Ok in E1, E2. subst. simpl. intros [= <-].
  set (p := of_instance _ _). assert (∀ r, p r = true ↔ cw_tenant r = strip tenant_id ∧ cw_instance r = strip instance_id) as Hp.
  { intros r. unfold p, of_instance. by rewrite andb_true_iff, !bool_decide_eq_true. }
  split.
  - split; [lia|]. destruct (exists_row (λ r, p r && live r) t) eqn:E.
    + apply exists_row_true in E as (r & Hr & H). rewrite (rowcount_one cw_id _ t r); [done|apply Ht|done..|].
      intros r' Hr' H'. apply andb_true_iff in H as [H Hl], H' as [H' Hl']. f_equal.
      apply (co_live _ Ht); [done..|]. apply Hp in H as [??], H' as [??]. unfold row_instance. congruence.
    + rewrite exists_row_false in E. by rewrite (proj2 (rowcount_zero _ _) E).
  - set (text := reason_text _ _). destruct (revoked_ok p text now t Ht) as [Ht' _].
    intros token c. rewrite !authenticated by done. split.
    + intros (Hs & r & Hr & Hl & Hh & ->). apply revoked_member in Hr as [Hr Hno]; [|done].
      split; [split; [done|]; by exists r|]. intros H%(Hp r). congruence.
    + intros [(Hs & r & Hr & Hl & Hh & ->) Hno]. split; [done|]. exists r. split; [|done].
      apply elem_of_update. exists r. split; [done|]. destruct (p r) eqn:E; [|done]. by apply Hp in E.
Qed.

(** ** The contract of a manifest *)

(** What manifest validation guarantees of the declared bindings. *)
Definition binding_declared (b : interface_binding) : Prop :=
  slug (ib_spec b) = Some (ib_spec b) ∧ slug (ib_kind b) = Some (ib_kind b).
Definition manifest_declared (m : manifest) : Prop :=
  slug (mf_name m) = Some (mf_name m) ∧
  ∀ w b, w ∈ mf_workers m → wk_binding w = Some b → binding_declared b.

Lemma api_worker m w :
  w ∈ api_workers m ↔ w ∈ mf_workers m ∧ ∃ s, s ∈ wk_secrets w ∧ sr_name s = agent_api_token_environment.
Proof.
  unfold api_workers. rewrite list_elem_of_In, filter_In, <- list_elem_of_In, existsb_exists.
  setoid_rewrite <- list_elem_of_In. unfold is_api_secret. by setoid_rewrite bool_decide_eq_true.
Qed.

Lemma api_scope ws p :
  p ∈ api_scopes_of ws ↔ p ∈ capability_api_scopes ∧ ∃ w, w ∈ ws ∧ p ∈ wk_permissions w.
Proof.
  unfold api_scopes_of. rewrite elem_of_list_to_set, list_elem_of_In, filter_In, bool_decide_eq_true, in_concat.
  setoid_rewrite in_map_iff. split.
  - intros [(x & (w & <- & Hw) & Hp) Ha]. split; [done|]. exists w. by rewrite !list_elem_of_In.
  - intros [Ha (w & Hw & Hp)]. rewrite list_elem_of_In in Hw. rewrite list_elem_of_In in Hp. split; [|done]. eauto.
Qed.

Lemma one_binding_Some ws b : one_binding ws = Some b → ∀ w, w ∈ ws → wk_binding w = Some b.
Proof.
  destruct ws as [|w0 ws]; simpl; [done|]. destruct (forallb _ _) eqn:E; [|done].
  intros H w [-> |Hw]%elem_of_cons; [done|]. rewrite forallb_forall in E.
  apply list_elem_of_In in Hw. specialize (E w Hw). apply bool_decide_eq_true in E. congruence.
Qed.

(** The contract, when a manifest states one. *)
Record contract_of (m : manifest) (scopes : gset string) (b : interface_binding) : Prop := {
  ct_worker : ∃ w, w ∈ api_workers m;
  ct_kind : ∀ w, w ∈ api_workers m → wk_kind w = InterfaceWorker ∧ wk_binding w = Some b;
  ct_scopes : scopes = api_scopes_of (api_workers m);
  ct_allowed : scopes_allowed (ib_trust b) scopes;
}.

Lemma agent_api_contract_Some m scopes b :
  agent_api_contract m = Ok (Some (scopes, b)) → contract_of m scopes b.
Proof.
  unfold agent_api_contract. cbv zeta. case_bool_decide as Hne; [done|].
  destruct (existsb _ (api_workers m)) eqn:Hk; [done|]. destruct (existsb _ (api_requirements _)); [done|].
  case_bool_decide as Hs; [done|]. destruct (negb _); [done|]. destruct (one_binding _) as [b'|] eqn:Hb; [|done].
  destruct (restricted_scopes _ _) as [[]|] eqn:Hr; [|done]. intros [= <- <-]. split; [| |done|].
  - destruct (api_workers m) as [|w ws]; [done|]. exists w. set_solver.
  - intros w Hw. split; [|by eapply one_binding_Some]. destruct (wk_kind w == InterfaceWorker) eqn:E; [by apply bool_decide_eq_true in E|].
    exfalso. apply not_true_iff_false in Hk. apply Hk, existsb_exists. exists w.
    split; [by apply list_elem_of_In|by rewrite E].
  - split; [done|]. split; [|by apply restricted_scopes_Ok]. intros p [? _]%api_scope. done.
Qed.

Lemma checked_scopes_elements scopes :
  scopes ≠ ∅ → scopes ⊆ capability_api_scopes → checked_scopes (elements scopes) = Ok scopes.
Proof.
  intros Hne Hsub. assert (∀ p, p ∈ capability_api_scopes → strip p = p ∧ p ≠ "") as Hapi.
  { intros p. unfold capability_api_scopes. rewrite !elem_of_union, !elem_of_singleton.
    intros H. repeat destruct H as [H|H]; subst p; split; try done; by vm_compute. }
  unfold checked_scopes. assert (list_to_set (map strip (elements scopes)) = scopes) as ->.
  { apply set_eq. intros p. rewrite elem_of_list_to_set. change (map strip ?l) with (strip <$> l).
    rewrite list_elem_of_fmap. split.
    - intros (q & -> & Hq%elem_of_elements). by rewrite (proj1 (Hapi q (Hsub q Hq))).
    - intros Hp. exists p. rewrite elem_of_elements, (proj1 (Hapi p (Hsub p Hp))). done. }
  cbv zeta. rewrite bool_decide_eq_false_2 by done. rewrite bool_decide_eq_false_2; [|].
  - by rewrite bool_decide_eq_true_2.
  - intros Hin. by apply (Hapi _ (Hsub _ Hin)).
Qed.

Lemma resolved_binding resolve tenant_id m b :
  manifest_declared m → resolve_agent_binding resolve tenant_id m = Ok (Some b) →
  ∃ scopes declared, agent_api_contract m = Ok (Some (scopes, declared)) ∧ contract_of m scopes declared ∧
    validate_binding b = Some b ∧ ar_tenant (rb_agent b) = strip tenant_id ∧
    AgentInterfaceBinding (ar_spec (rb_agent b)) (rb_kind b) (rb_trust b) = declared.
Proof.
  intros [_ Hm]. unfold resolve_agent_binding.
  destruct (agent_api_contract m) as [[[scopes declared]|]|] eqn:Hc; try done.
  change (Ok (Some (scopes, declared)) ≫= ?k) with (k (Some (scopes, declared))). cbv beta iota.
  destruct resolve as [f|]; [|done]. destruct (f tenant_id (ib_spec declared)) as [agent|]; [|done].
  change (Ok agent ≫= ?k) with (k agent). cbv beta iota.
  case_bool_decide as Ht; [|done]. case_bool_decide as Hs; [|done]. simpl.
  destruct (validate_binding _) as [b'|] eqn:Hb; [|done]. intros [= <-].
  pose proof (agent_api_contract_Some _ _ _ Hc) as Hct.
  destruct (ct_worker _ _ _ Hct) as [w Hw]. destruct (ct_kind _ _ _ Hct w Hw) as [_ Hd].
  apply api_worker in Hw as [Hw _]. destruct (Hm w declared Hw Hd) as [Hspec Hkind].
  exists scopes, declared. split; [done|]. split; [done|]. split; [by eapply validate_binding_Some|].
  revert Hb. unfold validate_binding, validate_ref. simpl. rewrite Hs, Hspec, Hkind.
  destruct (protocol_id _) as [v|] eqn:E; [|done]. destruct (1 <=? _); [|done].
  destruct (negb (Bool.eqb _ _)); [done|]. destruct (negb _ && _); [done|]. intros [= <-]. simpl.
  split; [|by destruct declared]. revert E. unfold protocol_id, bounded_field. cbv zeta.
  rewrite <- Ht. case_match; congruence.
Qed.

Lemma issue_accepted tenant actor instance name b scopes fresh_id entropy now t :
  checked_identity tenant "tenant_id" = Ok tenant → checked_identity actor "actor_id" = Ok actor →
  checked_identity instance "capability_instance_id" = Ok instance → slug name = Some name →
  ar_tenant (rb_agent b) = tenant → scopes_allowed (rb_trust b) scopes →
  (∀ r, r ∈ t → cw_id r ≠ fresh_id ∧ cw_hash r ≠ sha256_hex (credential_prefix +:+ entropy)) →
  (issue (IssueArgs tenant actor name instance name instance name b (elements scopes)) fresh_id entropy now t).2 =
    Ok (IssuedCredential (CapabilityCredential fresh_id tenant actor name instance name instance name b
          scopes now None) (credential_prefix +:+ entropy)).
Proof.
  intros Ht Ha Hi Hn Hb (Hne & Hsub & Hr) Hfresh.
  assert (checked_identity instance "source_id" = Ok instance) as Hi'.
  { revert Hi. unfold checked_identity. cbv zeta. destruct (_ || _ || _); congruence. }
  unfold issue. simpl. rewrite !run_outcome_bind, Ht, Ha, Hi. unfold checked_slug. rewrite Hn.
  rewrite !run_outcome_bind, Hi'. rewrite !run_outcome_bind, run_unless_bind, bool_decide_eq_true_2 by done.
  rewrite run_outcome_bind, checked_scopes_elements by done.
  rewrite run_outcome_bind, (proj2 (restricted_scopes_Ok _ _) Hr), run_bind, run_transaction, run_modify_bind,
    run_try_modify.
  rewrite insert_row_ok; [done|]. intros r' (r & Hr' & ->)%elem_of_update.
  destruct (Hfresh r Hr') as [H1 H2].
  unfold credential_clash, live. simpl. rewrite andb_true_r.
  destruct (of_instance tenant instance r && (cw_revoked_at r == None)) eqn:E; simpl;
    rewrite !(bool_decide_eq_false_2 (_ = _)) by done; simpl; rewrite ?andb_false_r; done.
Qed.

(** C32: the binding the service resolved for a manifest is accepted when the
    generation is started, and the credential issued for it carries exactly
    that binding and exactly the API permissions of the workers that ask for
    the token, all of them interface workers declaring that same authority. *)
Theorem interface_credential_granted resolve tenant_id instance_id m b fresh_id entropy now t :
  manifest_declared m → checked_identity tenant_id "tenant_id" = Ok tenant_id →
  checked_identity instance_id "capability_instance_id" = Ok instance_id →
  checked_identity ("capability:" +:+ instance_id) "actor_id" = Ok ("capability:" +:+ instance_id) →
  (∀ r, r ∈ t → cw_id r ≠ fresh_id ∧ cw_hash r ≠ sha256_hex (credential_prefix +:+ entropy)) →
  resolve_agent_binding resolve tenant_id m = Ok (Some b) →
  ∃ c, (issue_for_capability tenant_id instance_id m (Some b) fresh_id entropy now t).2 =
      Ok (Some (IssuedCredential c (credential_prefix +:+ entropy))) ∧
    cc_binding c = b ∧ cc_tenant c = tenant_id ∧ cc_instance c = instance_id ∧
    (∀ p, p ∈ cc_scopes c ↔ p ∈ capability_api_scopes ∧
      ∃ w, w ∈ api_workers m ∧ p ∈ wk_permissions w) ∧
    ∀ w, w ∈ api_workers m → wk_kind w = InterfaceWorker ∧
      wk_binding w = Some (AgentInterfaceBinding (ar_spec (rb_agent b)) (rb_kind b) (rb_trust b)).
Proof.
  intros Hm Ht Hi Ha Hfresh Hres.
  destruct (resolved_binding _ _ _ _ Hm Hres) as (scopes & declared & Hc & Hct & Hb & Hten & Hd).
  assert (ar_tenant (rb_agent b) = tenant_id) as Hten' by by rewrite Hten, <- (checked_identity_Ok _ _ _ Ht).
  destruct Hct as [_ Hk Hs Hal]. subst declared.
  pose proof (issue_accepted tenant_id ("capability:" +:+ instance_id) instance_id (mf_name m) b scopes
    fresh_id entropy now t Ht Ha Hi (proj1 Hm) Hten' Hal Hfresh) as Hissue.
  unfold issue_for_capability. rewrite run_outcome_bind, Hc, run_unless_bind, bool_decide_eq_true_2 by done.
  rewrite run_unless_bind. simpl. rewrite !bool_decide_eq_true_2 by done. simpl. rewrite run_bind.
  destruct (issue _ fresh_id entropy now t) as [t' o]. simpl in Hissue. subst o.
  eexists. split; [done|]. simpl. split_and!; try done. intros p. rewrite Hs. apply api_scope.
Qed.

(** ** Concrete runs *)

Definition desk_binding : run_binding := AgentRunBinding (AgentSpecRef "acme" "front-desk" 1) "intake" ExternalTrust.
Definition desk_manifest : manifest := CapabilityManifest "telegram"
  [WorkerSpec InterfaceWorker [SecretRequirement agent_api_token_environment [run_submit; file_upload] Issued]
     [run_submit; "channel.send"; file_upload] (Some (AgentInterfaceBinding "front-desk" "intake" ExternalTrust))].
Definition desk_resolver : option (string → string → outcome agent_spec_ref) :=
  Some (λ tenant spec, Ok (AgentSpecRef tenant spec 1)).
Definition sample_entropy : string := "abcdefghijklmnopqrstuvwxyz0123456789ABCDEFGHIJKL".
Definition desk_args : issue_args :=
  IssueArgs "acme" "capability:bot" "telegram" "bot" "telegram" "bot" "telegram" desk_binding
    [run_submit; file_upload].
Definition desk_issue : credential_call := CallIssue desk_args "capcred_1" sample_entropy 5.
Definition desk_token : string := credential_prefix +:+ sample_entropy.
Definition desk_credential : credential :=
  CapabilityCredential "capcred_1" "acme" "capability:bot" "telegram" "bot" "telegram" "bot" "telegram"
    desk_binding {[ run_submit; file_upload ]} 5 None.

Example token_valid_until_revoked_witness :
  let issued := issue desk_args "capcred_1" sample_entropy 5 (run_credentials [] []) in
  authenticate desk_token issued.1 = (issued.1, Ok (Some desk_credential)) ∧
  ∀ later, Forall call_valid later →
    let t := run_credentials later issued.1 in
    authenticate desk_token t = (t, Ok (Some desk_credential)) ∨
    authenticate desk_token t = (t, Ok None) ∧
    ∀ more, Forall call_valid more →
      (authenticate desk_token (run_credentials more t)).2 = Ok None.
Proof.
  apply (token_valid_until_revoked [] desk_args "capcred_1" sample_entropy 5
    (IssuedCredential desk_credential desk_token)); [constructor|by vm_compute..].
Defined.

Example credentials_confined_witness :
  let t := run_credentials [desk_issue] [] in
  scopes_allowed ExternalTrust (cc_scopes desk_credential) ∧
  ∀ token' c', (authenticate token' t).2 = Ok (Some c') →
    cc_tenant c' = "acme" → cc_instance c' = "bot" → c' = desk_credential.
Proof.
  assert (Forall call_valid [desk_issue]) as Hv by (constructor; [by vm_compute|constructor]).
  assert ((authenticate desk_token (run_credentials [desk_issue] [])).2 = Ok (Some desk_credential)) as Ha
    by (vm_compute; reflexivity).
  destruct (credentials_confined [desk_issue] desk_token desk_credential Hv Ha) as (_ & _ & H1 & _ & _ & H2).
  split; [exact H1|exact H2].
Defined.

Example stopped_instance_locked_out_witness :
  let t := run_credentials [desk_issue] [] in
  let stopped := revoke_instance "acme" "bot" "" 9 t in
  0 <= 1 <= 1 ∧
  ∀ token c, (authenticate token stopped.1).2 = Ok (Some c) ↔
    (authenticate token t).2 = Ok (Some c) ∧ ¬ (cc_tenant c = strip "acme" ∧ cc_instance c = strip "bot").
Proof.
  assert (Forall call_valid [desk_issue]) as Hv by (constructor; [by vm_compute|constructor]).
  assert ((revoke_instance "acme" "bot" "" 9 (run_credentials [desk_issue] [])).2 = Ok 1) as Hr
    by (vm_compute; reflexivity).
  exact (stopped_instance_locked_out [desk_issue] "acme" "bot" "" 9 1 Hv Hr).
Defined.

Example interface_credential_granted_witness :
  ∃ c, (issue_for_capability "acme" "bot" desk_manifest (Some desk_binding) "capcred_1" sample_entropy 5 []).2 =
      Ok (Some (IssuedCredential c desk_token)) ∧ cc_binding c = desk_binding ∧
    ∀ p, p ∈ cc_scopes c ↔ p ∈ capability_api_scopes ∧
      ∃ w, w ∈ api_workers desk_manifest ∧ p ∈ wk_permissions w.
Proof.
  assert (manifest_declared desk_manifest) as Hm.
  { split; [by vm_compute|]. intros w b ->%list_elem_of_singleton [= <-]. split; by vm_compute. }
  destruct (interface_credential_granted desk_resolver "acme" "bot" desk_manifest desk_binding "capcred_1"
    sample_entropy 5 [] Hm) as (c & H1 & H2 & _ & _ & H3 & _); [by vm_compute..| |by vm_compute|].
  - by intros r Hr%elem_of_nil.
  - exists c. split_and!; assumption.
Defined.

(** Issuing again for the instance rotates its bearer: the first token dies. *)
Example rotation_kills_the_first_token :
  (authenticate desk_token (run_credentials
    [desk_issue; CallIssue desk_args "capcred_2" (sample_entropy +:+ "0") 6] [])).2 = Ok None.
Proof. by vm_compute. Qed.

(** An external interface cannot be granted the right to approve. *)
Example external_approval_refused :
  issue (IssueArgs "acme" "capability:bot" "telegram" "bot" "telegram" "bot" "telegram" desk_binding
    [run_submit; run_resume]) "capcred_1" sample_entropy 5 [] =
  ([], Err (ValueError "restricted interfaces cannot receive approval or owner notification scopes")).
Proof. by vm_compute. Qed.
