(* ===== verification/Drafts.v ===== *)
(** * Intake workflow drafts ([intake/drafts/models.py], [intake/drafts/store.py])

    The revisioned drafts of intake workflows: the proposal a draft is prepared
    into, and every method of [IntakeDraftStore]. *)

From S2P Require Import Prelude Sqlite PyText Json.
#[local] Open Scope string_scope.
#[local] Open Scope list_scope.
#[local] Open Scope Z_scope.

(** ** The proposal *)

Record proposal := Proposal {
  pr_workflow : string;
  pr_name : string;
  pr_channel : string;
  pr_provider : string;
  pr_source_config : list (string * json);
  pr_intent : string;
  pr_required_fields : list string;
  pr_field_guidance : list (string * json);
  pr_instructions : string;
  pr_business_facts : list (string * json);
  pr_knowledge_files : list string;
  pr_sink_type : string;
  pr_sink_config : list (string * json);
  pr_schedule : string;
  pr_notify_user : bool;
  pr_enabled : bool;
  pr_reply_mode : string;
}.
#[global] Instance proposal_eq_dec : EqDecision proposal.
Proof. solve_decision. Defined.

Definition invalid_proposal : exn := ValidationError "IntakeWorkflowProposal".

Definition one_of (l : list string) (s : string) : option string :=
  if bool_decide (s ∈ l) then Some s else None.

Definition sized_list (minimum maximum : nat) (l : list string) : option (list string) :=
  if (minimum <=? length l)%nat && (length l <=? maximum)%nat then Some l else None.

(** Truth of a JSON value, and [str(value or '').strip()] when it is a text. *)
Definition json_text (v : option json) : string :=
  match v with
  | Some (JStr s) => s
  | Some (JInt z) => if z =? 0 then "" else pretty z
  | Some (JBool true) => "True"
  | Some (JArr (_ :: _)) | Some (JObj (_ :: _)) => "container"
  | _ => ""
  end.

(** [IntakeWorkflowProposal.model_validate] of the typed fields: the list
    normalization, the field constraints, the channel check. *)
Definition validate_proposal (p : proposal) : outcome proposal :=
  match text_field 1 100 (pr_workflow p), text_field 1 200 (pr_name p),
        one_of ["instagram_dm"; "telegram_business_dm"] (pr_channel p),
        one_of ["composio"; "telegram_bot_api"] (pr_provider p),
        text_field 1 4000 (pr_intent p),
        sized_list 1 100 (unique_texts (pr_required_fields p) []),
        text_field 0 20000 (pr_instructions p),
        sized_list 0 200 (unique_texts (pr_knowledge_files p) []),
        one_of ["google_sheets_composio"; "local_csv"; "generic_composio_write"]
          (pr_sink_type p),
        text_field 0 100 (pr_schedule p), one_of ["auto"] (pr_reply_mode p) with
  | Some workflow, Some name, Some channel, Some provider, Some intent, Some fields,
    Some instructions, Some files, Some sink, Some schedule, Some reply =>
      if (channel == "instagram_dm") && negb (provider == "composio")
         || (channel == "telegram_business_dm")
            && (negb (provider == "telegram_bot_api")
                || (strip (json_text (assoc "business_connection_id" (pr_source_config p))) == ""))
      then Err invalid_proposal
      else Ok (Proposal workflow name channel provider (pr_source_config p) intent fields
                 (pr_field_guidance p) instructions (pr_business_facts p) files sink
                 (pr_sink_config p) schedule (pr_notify_user p) (pr_enabled p) reply)
  | _, _, _, _, _, _, _, _, _, _, _ => Err invalid_proposal
  end.

(** [proposal.model_dump(mode='json')] *)
Definition proposal_json (p : proposal) : json :=
  JObj [("workflow_id", JStr (pr_workflow p)); ("name", JStr (pr_name p));
        ("channel", JStr (pr_channel p)); ("provider", JStr (pr_provider p));
        ("source_config", JObj (pr_source_config p)); ("intent_description", JStr (pr_intent p));
        ("required_fields", JArr (map JStr (pr_required_fields p)));
        ("field_guidance", JObj (pr_field_guidance p));
        ("assistant_instructions", JStr (pr_instructions p));
        ("business_facts", JObj (pr_business_facts p));
        ("knowledge_file_ids", JArr (map JStr (pr_knowledge_files p)));
        ("sink_type", JStr (pr_sink_type p)); ("sink_config", JObj (pr_sink_config p));
        ("schedule", JStr (pr_schedule p)); ("notify_user", JBool (pr_notify_user p));
        ("enabled", JBool (pr_enabled p)); ("reply_mode", JStr (pr_reply_mode p))].

(** ** Rows *)

Inductive draft_status := Editing | Prepared | Activating | Activated.
#[global] Instance draft_status_eq_dec : EqDecision draft_status.
Proof. solve_decision. Defined.

(** A row of [intake_drafts]; the [*_json] columns hold the value they encode. *)
Record draft_row := DraftRow {
  dr_tenant : string;
  dr_id : string;
  dr_workflow : string;
  dr_revision : Z;
  dr_status : draft_status;
  dr_payload : list (string * json);
  dr_proposal : option proposal;
  dr_hash : option string;
  dr_prepared_revision : option Z;
  dr_token_hash : option string;
  dr_attempt : option string;
  dr_created_by : string;
  dr_updated_by : string;
  dr_created_at : Z;
  dr_updated_at : Z;
  dr_prepared_at : option Z;
  dr_activated_at : option Z;
}.

(** The [IntakeDraft] a row is read back as. *)
Record draft := Draft {
  df_id : string;
  df_tenant : string;
  df_workflow : string;
  df_revision : Z;
  df_status : draft_status;
  df_payload : list (string * json);
  df_proposal : option proposal;
  df_hash : option string;
  df_prepared_revision : option Z;
  df_created_by : string;
  df_updated_by : string;
  df_created_at : Z;
  df_updated_at : Z;
  df_prepared_at : option Z;
  df_activated_at : option Z;
}.

#[global] Instance draft_row_fields : Fields draft_row := λ r,
  DraftRow (dr_tenant r) (dr_id r) (dr_workflow r) (dr_revision r) (dr_status r)
    (dr_payload r) (dr_proposal r) (dr_hash r) (dr_prepared_revision r) (dr_token_hash r)
    (dr_attempt r) (dr_created_by r) (dr_updated_by r) (dr_created_at r) (dr_updated_at r)
    (dr_prepared_at r) (dr_activated_at r).

Definition draft_db : Type := list draft_row.

Definition optional_outcome {A B} (f : A → outcome B) (o : option A) : outcome (option B) :=
  match o with Some a => b ← f a; Ok (Some b) | None => Ok None end.

(** [_row_to_draft]: [IntakeDraft.model_validate]. *)
Definition row_to_draft (r : draft_row) : outcome draft :=
  match bounded_field 100 (dr_id r), bounded_field 200 (dr_tenant r),
        bounded_field 100 (dr_workflow r), bounded_field 200 (dr_created_by r),
        bounded_field 200 (dr_updated_by r), optional_outcome validate_proposal (dr_proposal r) with
  | Some id, Some tenant, Some workflow, Some created_by, Some updated_by, Ok p =>
      if (1 <=? dr_revision r)
         && match dr_prepared_revision r with Some n => 1 <=? n | None => true end
      then Ok (Draft id tenant workflow (dr_revision r) (dr_status r) (dr_payload r) p
                 (strip <$> dr_hash r) (dr_prepared_revision r) created_by updated_by
                 (dr_created_at r) (dr_updated_at r) (dr_prepared_at r) (dr_activated_at r))
      else Err (ValidationError "IntakeDraft")
  | _, _, _, _, _, _ => Err (ValidationError "IntakeDraft")
  end.

Definition is_draft (tenant id : string) (r : draft_row) : bool :=
  (dr_tenant r == tenant) && (dr_id r == id).
Definition at_revision (tenant id : string) (revision : Z) (r : draft_row) : bool :=
  is_draft tenant id r && (dr_revision r =? revision).

Definition find_draft (tenant id : string) (d : draft_db) : option draft_row :=
  select_one (is_draft tenant id) d.

(** [PRIMARY KEY (tenant_id, id)] *)
Definition draft_clash (r r' : draft_row) : bool := is_draft (dr_tenant r) (dr_id r) r'.

(** [UPDATE .. WHERE ..], answering [cursor.rowcount]. *)
Definition update_counted (p : draft_row → bool) (f : draft_row → draft_row) : M draft_db nat :=
  count ← gets (rowcount p);
  modify (update p f);;
  mret count.

(** ** Methods *)

Definition conflict (message : string) : exn := IntakeDraftConflictError message.
Definition revision_conflict (expected found : Z) : exn :=
  conflict ("expected revision " +:+ pretty expected +:+ ", found " +:+ pretty found).
Definition in_progress : exn := conflict "draft activation is in progress".

Definition get_draft (tenant id : string) : M draft_db (option draft) :=
  row ← gets (find_draft tenant id);
  from_outcome (optional_outcome row_to_draft row).

(** [ORDER BY updated_at DESC, id] *)
Definition draft_le (x y : draft_row) : bool :=
  (dr_updated_at y <? dr_updated_at x)
  || (dr_updated_at x =? dr_updated_at y) && text_le (dr_id x) (dr_id y).

Definition list_drafts (tenant : string) (workflow : option string) : M draft_db (list draft) :=
  rows ← gets (λ d, order_by draft_le (select (λ r, (dr_tenant r == tenant) &&
    match workflow with
    | Some w => if w == "" then true else dr_workflow r == w
    | None => true
    end) d));
  from_outcome (all_ok (row_to_draft <$> rows)).

Definition read_back (tenant id message : string) : M draft_db draft :=
  d ← get_draft tenant id;
  match d with
  | None => raise (RuntimeError message)
  | Some d => mret d
  end.

Definition new_draft (tenant actor id workflow : string) (payload : list (string * json))
    (now : Z) : draft_row :=
  DraftRow tenant id workflow 1 Editing payload None None None None None actor actor now now
    None None.

Definition edited (payload : list (string * json)) (actor : string) (now : Z) (r : draft_row) :
    draft_row :=
  r <| dr_revision := dr_revision r + 1 |> <| dr_status := Editing |> <| dr_payload := payload |>
    <| dr_proposal := None |> <| dr_hash := None |> <| dr_prepared_revision := None |>
    <| dr_token_hash := None |> <| dr_attempt := None |> <| dr_updated_by := actor |>
    <| dr_updated_at := now |> <| dr_prepared_at := None |> <| dr_activated_at := None |>.

Definition save_draft (tenant actor id workflow : string) (patch : list (string * json))
    (expected : option Z) (now : Z) : M draft_db draft :=
  transaction (
    row ← gets (find_draft tenant id);
    match row with
    | None =>
        match expected with
        | Some n => raise (conflict ("draft " +:+ repr id +:+ " does not exist at revision "
                                     +:+ pretty n))
        | None =>
            try_modify (insert_row draft_clash (new_draft tenant actor id workflow patch now))
              (IntegrityError "UNIQUE constraint failed")
        end
    | Some r =>
        unless (negb (dr_status r == Activating)) in_progress;;
        match expected with
        | None => raise (conflict "expected_revision is required when patching a draft")
        | Some n =>
            unless (dr_revision r =? n) (revision_conflict n (dr_revision r));;
            unless (dr_workflow r == workflow) (conflict "draft workflow_id is immutable");;
            count ← update_counted (at_revision tenant id n)
              (edited (dict_update (dr_payload r) patch) actor now);
            unless (count =? 1)%nat (conflict "draft changed during patch")
        end
    end);;
  read_back tenant id "saved intake draft disappeared".

Record prepare_args := PrepareArgs {
  pa_proposal : proposal;
  pa_hash : string;
  pa_token_hash : string;
}.

Definition prepared (a : prepare_args) (actor : string) (n now : Z) (r : draft_row) : draft_row :=
  r <| dr_status := Prepared |> <| dr_proposal := Some (pa_proposal a) |>
    <| dr_hash := Some (pa_hash a) |> <| dr_prepared_revision := Some n |>
    <| dr_token_hash := Some (pa_token_hash a) |> <| dr_attempt := None |>
    <| dr_updated_by := actor |> <| dr_updated_at := now |> <| dr_prepared_at := Some now |>
    <| dr_activated_at := None |>.

Definition prepare_draft (tenant actor id : string) (expected : Z) (a : prepare_args) (now : Z) :
    M draft_db draft :=
  transaction (
    row ← gets (find_draft tenant id);
    match row with
    | None => raise (IntakeDraftNotFoundError id)
    | Some r =>
        unless (dr_revision r =? expected) (revision_conflict expected (dr_revision r));;
        unless (negb (dr_status r == Activating)) in_progress;;
        modify (update (at_revision tenant id expected) (prepared a actor expected now))
    end);;
  read_back tenant id "prepared intake draft disappeared".

Definition confirmation (message : string) : exn := IntakeDraftConfirmationError message.

Definition row_read_back (tenant id message : string) : M draft_db draft :=
  row ← gets (find_draft tenant id);
  match row with
  | None => raise (RuntimeError message)
  | Some r => from_outcome (row_to_draft r)
  end.

Record claim_args := ClaimArgs {
  cm_tenant : string;
  cm_actor : string;
  cm_draft : string;
  cm_expected : Z;
  cm_token_hash : string;
  cm_attempt : string;
}.

Definition claim_activation_in_transaction (a : claim_args) (now : Z) : M draft_db draft :=
  let tenant := cm_tenant a in
  let id := cm_draft a in
  let expected := cm_expected a in
  row ← gets (find_draft tenant id);
  match row with
  | None => raise (IntakeDraftNotFoundError id)
  | Some r =>
      unless (dr_revision r =? expected) (revision_conflict expected (dr_revision r));;
      unless (dr_status r == Prepared) (confirmation "draft is not prepared for activation");;
      unless (default 0 (dr_prepared_revision r) =? expected)
        (confirmation "prepared proposal does not match the draft revision");;
      unless (negb (default "" (dr_token_hash r) == "")
              && (default "" (dr_token_hash r) == cm_token_hash a))
        (confirmation "confirmation token is invalid");;
      count ← update_counted
        (λ r, at_revision tenant id expected r && (dr_status r == Prepared))
        (λ r, r <| dr_status := Activating |> <| dr_attempt := Some (cm_attempt a) |>
                <| dr_updated_by := cm_actor a |> <| dr_updated_at := now |>);
      unless (count =? 1)%nat (conflict "draft changed during activation claim");;
      row_read_back tenant id "claimed intake draft disappeared"
  end.

Definition claim_activation (a : claim_args) (now : Z) : M draft_db draft :=
  transaction (claim_activation_in_transaction a now).

Definition in_attempt (tenant id attempt : string) (r : draft_row) : bool :=
  is_draft tenant id r && (dr_status r == Activating) && (dr_attempt r == Some attempt).

Definition release_activation (tenant id attempt : string) (now : Z) : M draft_db unit :=
  modify (update (in_attempt tenant id attempt)
    (λ r, r <| dr_status := Prepared |> <| dr_attempt := None |> <| dr_updated_at := now |>)).

Definition finish_activation_in_transaction (a : claim_args) (now : Z) : M draft_db draft :=
  count ← update_counted
    (λ r, at_revision (cm_tenant a) (cm_draft a) (cm_expected a) r
          && in_attempt (cm_tenant a) (cm_draft a) (cm_attempt a) r)
    (λ r, r <| dr_status := Activated |> <| dr_token_hash := None |> <| dr_attempt := None |>
            <| dr_updated_by := cm_actor a |> <| dr_updated_at := now |>
            <| dr_activated_at := Some now |>);
  unless (count =? 1)%nat (conflict "draft activation claim was lost");;
  row_read_back (cm_tenant a) (cm_draft a) "activated intake draft disappeared".

Definition finish_activation (a : claim_args) (now : Z) : M draft_db draft :=
  transaction (finish_activation_in_transaction a now).

Definition delete_draft (tenant id : string) (expected : Z) : M draft_db unit :=
  transaction (
    row ← gets (find_draft tenant id);
    match row with
    | None => raise (IntakeDraftNotFoundError id)
    | Some r =>
        unless (negb (dr_status r == Activating)) in_progress;;
        unless (dr_revision r =? expected) (revision_conflict expected (dr_revision r));;
        modify (delete_rows (at_revision tenant id expected))
    end).

(** ** The proposal validator is a projection *)

Lemma one_of_Some l s v : one_of l s = Some v → one_of l v = Some v ∧ s = v.
Proof. unfold one_of. case_bool_decide as E; intros [= <-]. by rewrite bool_decide_eq_true_2. Qed.

Lemma sized_unique_Some a b l v :
  sized_list a b (unique_texts l []) = Some v → sized_list a b (unique_texts v []) = Some v.
Proof.
  unfold sized_list. destruct (_ && _) eqn:E; intros [= <-]. by rewrite unique_texts_idem, E.
Qed.

Lemma validate_idem p p' : validate_proposal p = Ok p' → validate_proposal p' = Ok p'.
Proof.
  unfold validate_proposal.
  destruct (text_field _ _ (pr_workflow p)) eqn:E1; [|done].
  destruct (text_field _ _ (pr_name p)) eqn:E2; [|done].
  destruct (one_of _ (pr_channel p)) eqn:E3; [|done].
  destruct (one_of _ (pr_provider p)) eqn:E4; [|done].
  destruct (text_field _ _ (pr_intent p)) eqn:E5; [|done].
  destruct (sized_list _ _ (unique_texts (pr_required_fields p) _)) eqn:E6; [|done].
  destruct (text_field _ _ (pr_instructions p)) eqn:E7; [|done].
  destruct (sized_list _ _ (unique_texts (pr_knowledge_files p) _)) eqn:E8; [|done].
  destruct (one_of _ (pr_sink_type p)) eqn:E9; [|done].
  destruct (text_field _ _ (pr_schedule p)) eqn:E10; [|done].
  destruct (one_of _ (pr_reply_mode p)) eqn:E11; [|done].
  destruct (_ || _) eqn:E12; [done|]. intros [= <-]. cbn [pr_workflow pr_name pr_channel
    pr_provider pr_source_config pr_intent pr_required_fields pr_instructions pr_knowledge_files
    pr_sink_type pr_schedule pr_reply_mode pr_field_guidance pr_business_facts pr_sink_config
    pr_notify_user pr_enabled].
  rewrite (text_field_Some _ _ _ _ E1), (text_field_Some _ _ _ _ E2),
    (proj1 (one_of_Some _ _ _ E3)), (proj1 (one_of_Some _ _ _ E4)), (text_field_Some _ _ _ _ E5),
    (sized_unique_Some _ _ _ _ E6), (text_field_Some _ _ _ _ E7), (sized_unique_Some _ _ _ _ E8),
    (proj1 (one_of_Some _ _ _ E9)), (text_field_Some _ _ _ _ E10), (proj1 (one_of_Some _ _ _ E11)).
  by rewrite E12.
Qed.

(** ** The invariant *)

(** What the columns of a row say together. *)
Definition draft_row_ok (r : draft_row) : Prop :=
  1 ≤ dr_revision r ∧
  match dr_status r with
  | Editing =>
      dr_proposal r = None ∧ dr_hash r = None ∧ dr_prepared_revision r = None ∧
      dr_token_hash r = None ∧ dr_attempt r = None
  | Prepared =>
      is_Some (dr_proposal r) ∧ is_Some (dr_hash r) ∧
      dr_prepared_revision r = Some (dr_revision r) ∧ is_Some (dr_token_hash r) ∧
      dr_attempt r = None
  | Activating =>
      is_Some (dr_proposal r) ∧ is_Some (dr_hash r) ∧
      dr_prepared_revision r = Some (dr_revision r) ∧ is_Some (dr_token_hash r) ∧
      is_Some (dr_attempt r)
  | Activated =>
      is_Some (dr_proposal r) ∧ is_Some (dr_hash r) ∧
      dr_prepared_revision r = Some (dr_revision r) ∧ dr_token_hash r = None ∧
      dr_attempt r = None ∧ is_Some (dr_activated_at r)
  end.

Definition draft_key (r : draft_row) : string * string := (dr_tenant r, dr_id r).

Record drafts_ok (d : draft_db) : Prop := {
  dk_unique : unique draft_key d;
  dk_rows : Forall draft_row_ok d;
}.

Lemma is_draft_true t i r : is_draft t i r = true ↔ dr_tenant r = t ∧ dr_id r = i.
Proof. unfold is_draft. by rewrite andb_true_iff, !bool_decide_eq_true. Qed.

Lemma find_draft_Some t i d r :
  find_draft t i d = Some r → r ∈ d ∧ dr_tenant r = t ∧ dr_id r = i.
Proof. by intros [? ?%is_draft_true]%select_one_Some. Qed.

Lemma find_draft_in d r : drafts_ok d → r ∈ d → find_draft (dr_tenant r) (dr_id r) d = Some r.
Proof.
  intros [Hu _] Hr. destruct (find_draft _ _ d) as [r'|] eqn:E.
  - apply find_draft_Some in E as (Hr' & Ht & Hi). f_equal.
    apply (unique_eq draft_key d); [done..|]. unfold draft_key. by rewrite Ht, Hi.
  - eapply select_one_None in E; [|exact Hr]. by rewrite (proj2 (is_draft_true _ _ r)) in E.
Qed.

Lemma find_draft_unique d t i r r' :
  drafts_ok d → find_draft t i d = Some r → r' ∈ d → is_draft t i r' = true → r' = r.
Proof.
  intros Hd Hf Hr' [Ht Hi]%is_draft_true. apply find_draft_in in Hr'; [|done]. congruence.
Qed.

Lemma row_ok d t i r : drafts_ok d → find_draft t i d = Some r → draft_row_ok r.
Proof.
  intros [_ H] (Hr & _ & _)%find_draft_Some. by eapply Forall_forall in H.
Qed.

Lemma at_revision_self t i d r :
  find_draft t i d = Some r → at_revision t i (dr_revision r) r = true.
Proof.
  intros (_ & Ht & Hi)%find_draft_Some. unfold at_revision.
  by rewrite (proj2 (is_draft_true t i r)), Z.eqb_refl.
Qed.

(** An update of one draft. *)
Section UpdateOne.
Context (d : draft_db) (t i : string) (r : draft_row) (p : draft_row → bool)
  (f : draft_row → draft_row).
Hypothesis Hd : drafts_ok d.
Hypothesis Hf : find_draft t i d = Some r.
Hypothesis Hp : p r = true.
Hypothesis Hone : ∀ r', p r' = true → is_draft t i r' = true.
Hypothesis Hkey : ∀ r', draft_key (f r') = draft_key r'.

Lemma update_one_count : rowcount p d = 1%nat.
Proof.
  pose proof (find_draft_Some _ _ _ _ Hf) as (Hr & _).
  apply (rowcount_one draft_key p d r); [apply Hd|done..|].
  intros r' Hr' H'. by rewrite (find_draft_unique d t i r r' Hd Hf Hr' (Hone r' H')).
Qed.

Lemma update_one_find : find_draft t i (update p f d) = Some (f r).
Proof.
  unfold find_draft. rewrite select_one_update.
  - change (select_one (is_draft t i) d) with (find_draft t i d). rewrite Hf. simpl.
    by rewrite Hp.
  - intros r' _ _. specialize (Hkey r'). unfold draft_key in Hkey. unfold is_draft.
    injection Hkey as -> ->. done.
Qed.

Lemma update_one_ok : draft_row_ok (f r) → drafts_ok (update p f d).
Proof.
  intros Hok. split.
  - unfold unique. rewrite (fmap_update draft_key); [apply Hd|auto].
  - apply Forall_update; [apply Hd|]. intros r' Hr' H' _.
    by rewrite (find_draft_unique d t i r r' Hd Hf Hr' (Hone r' H')).
Qed.

Lemma update_one_other t' i' :
  (t', i') ≠ (t, i) → find_draft t' i' (update p f d) = find_draft t' i' d.
Proof.
  intros Hne. unfold find_draft. rewrite select_one_update.
  - destruct (select_one (is_draft t' i') d) as [r'|] eqn:E; [|done]. simpl.
    destruct (p r') eqn:E'; [|done]. apply select_one_Some in E as [_ [<- <-]%is_draft_true].
    apply Hone, is_draft_true in E' as [<- <-]. done.
  - intros r' _ _. specialize (Hkey r'). unfold draft_key in Hkey. unfold is_draft.
    injection Hkey as -> ->. done.
Qed.
End UpdateOne.

Lemma at_revision_draft t i n r : at_revision t i n r = true → is_draft t i r = true.
Proof. unfold at_revision. by intros [? _]%andb_true_iff. Qed.

(** *** What each method does *)

Lemma read_back_found t i message d r :
  find_draft t i d = Some r → read_back t i message d = (d, row_to_draft r).
Proof.
  intros Hf. unfold read_back, get_draft. run. rewrite Hf. simpl.
  unfold optional_outcome. by destruct (row_to_draft r).
Qed.

Lemma row_read_back_found t i message d r :
  find_draft t i d = Some r → row_read_back t i message d = (d, row_to_draft r).
Proof. intros Hf. unfold row_read_back. run. by rewrite Hf. Qed.

Lemma new_draft_row_ok t a i w p now : draft_row_ok (new_draft t a i w p now).
Proof. split; [simpl; lia|]. by split_and!. Qed.

Definition saved (tenant id : string) (r : draft_row) (patch : list (string * json))
    (actor : string) (now : Z) (d : draft_db) : draft_db :=
  update (at_revision tenant id (dr_revision r))
    (edited (dict_update (dr_payload r) patch) actor now) d.

Definition save_refused (r : draft_row) (workflow : string) (expected : option Z) : option exn :=
  if dr_status r == Activating then Some in_progress
  else match expected with
       | None => Some (conflict "expected_revision is required when patching a draft")
       | Some n =>
           if negb (dr_revision r =? n) then Some (revision_conflict n (dr_revision r))
           else if negb (dr_workflow r == workflow)
           then Some (conflict "draft workflow_id is immutable") else None
       end.

Lemma saved_ok t i r patch actor now d :
  drafts_ok d → find_draft t i d = Some r → drafts_ok (saved t i r patch actor now d).
Proof.
  intros Hd Hf. eapply update_one_ok; [done..| |done|].
  - intros r'. apply at_revision_draft.
  - pose proof (row_ok _ _ _ _ Hd Hf) as [H _]. split; [simpl; lia|]. by split_and!.
Qed.

Lemma save_run t a i w patch expected now d :
  drafts_ok d →
  save_draft t a i w patch expected now d =
    match find_draft t i d, expected with
    | None, Some n => (d, Err (conflict ("draft " +:+ repr i +:+ " does not exist at revision "
                                         +:+ pretty n)))
    | None, None => (d ++ [new_draft t a i w patch now],
                     row_to_draft (new_draft t a i w patch now))
    | Some r, _ =>
        match save_refused r w expected with
        | Some e => (d, Err e)
        | None => (saved t i r patch a now d,
                   row_to_draft (edited (dict_update (dr_payload r) patch) a now r))
        end
    end.
Proof.
  intros Hd. unfold save_draft. rewrite run_bind, run_transaction. run.
  destruct (find_draft t i d) as [r|] eqn:Hf.
  - unfold save_refused. run. destruct (dr_status r == Activating); [done|]. simpl negb.
    destruct expected as [n|]; [|done]. run. destruct (Z.eqb_spec (dr_revision r) n) as [<-|]; [|done].
    run. destruct (dr_workflow r == w); [|done]. simpl negb. unfold update_counted. run.
    erewrite update_one_count; [|done..|by eapply at_revision_self|]; simpl.
    + erewrite read_back_found; [done|]. eapply update_one_find; [done| |done].
      by eapply at_revision_self.
    + intros r'. apply at_revision_draft.
  - destruct expected as [n|]; [done|]. run. rewrite insert_row_ok.
    + erewrite read_back_found; [done|]. unfold find_draft in *. rewrite select_one_app, Hf. simpl.
      by rewrite (proj2 (is_draft_true t i (new_draft t a i w patch now))).
    + intros r' Hr'. by eapply select_one_None in Hf.
Qed.

Lemma append_ok d r :
  drafts_ok d → find_draft (dr_tenant r) (dr_id r) d = None → draft_row_ok r → drafts_ok (d ++ [r]).
Proof.
  intros [Hu Hrows] Hf Hr. split.
  - apply unique_app; [done|]. intros r' Hr' [= E1 E2].
    eapply select_one_None in Hf; [|exact Hr']. by rewrite (proj2 (is_draft_true _ _ r')) in Hf.
  - apply Forall_app. auto.
Qed.

Lemma save_ok t a i w patch expected now : preserves drafts_ok (save_draft t a i w patch expected now).
Proof.
  intros d Hd. rewrite save_run by done. destruct (find_draft t i d) as [r|] eqn:Hf.
  - destruct (save_refused r w expected); [done|]. by apply saved_ok.
  - destruct expected; [done|]. apply append_ok; [done..|]. apply new_draft_row_ok.
Qed.

Lemma prepare_run t a i n pa now d :
  drafts_ok d →
  prepare_draft t a i n pa now d =
    match find_draft t i d with
    | None => (d, Err (IntakeDraftNotFoundError i))
    | Some r =>
        if negb (dr_revision r =? n) then (d, Err (revision_conflict n (dr_revision r)))
        else if dr_status r == Activating then (d, Err in_progress)
        else (update (at_revision t i n) (prepared pa a n now) d,
              row_to_draft (prepared pa a n now r))
    end.
Proof.
  intros Hd. unfold prepare_draft. rewrite run_bind, run_transaction. run.
  destruct (find_draft t i d) as [r|] eqn:Hf; [|done]. run.
  destruct (Z.eqb_spec (dr_revision r) n) as [<-|]; [|done]. run.
  destruct (dr_status r == Activating); [done|]. simpl negb. run.
  erewrite read_back_found; [done|]. eapply update_one_find; [done| |done].
  by eapply at_revision_self.
Qed.

Lemma prepare_ok t a i n pa now : preserves drafts_ok (prepare_draft t a i n pa now).
Proof.
  intros d Hd. rewrite prepare_run by done. destruct (find_draft t i d) as [r|] eqn:Hf; [|done].
  destruct (Z.eqb_spec (dr_revision r) n) as [<-|]; [|done]. simpl.
  destruct (dr_status r == Activating); [done|]. simpl.
  eapply update_one_ok; [done..| |done|].
  - intros r'. apply at_revision_draft.
  - pose proof (row_ok _ _ _ _ Hd Hf) as [H _]. split; [done|]. by split_and!.
Qed.

Definition activating (a : claim_args) (now : Z) (r : draft_row) : draft_row :=
  r <| dr_status := Activating |> <| dr_attempt := Some (cm_attempt a) |>
    <| dr_updated_by := cm_actor a |> <| dr_updated_at := now |>.

Definition claimed_db (a : claim_args) (now : Z) (d : draft_db) : draft_db :=
  update (λ r, at_revision (cm_tenant a) (cm_draft a) (cm_expected a) r
               && (dr_status r == Prepared)) (activating a now) d.

(** The checks of a claim, in the code's order. *)
Definition claim_refused (a : claim_args) (r : draft_row) : option exn :=
  if negb (dr_revision r =? cm_expected a)
  then Some (revision_conflict (cm_expected a) (dr_revision r))
  else if negb (dr_status r == Prepared)
  then Some (confirmation "draft is not prepared for activation")
  else if negb (default 0 (dr_prepared_revision r) =? cm_expected a)
  then Some (confirmation "prepared proposal does not match the draft revision")
  else if negb (negb (default "" (dr_token_hash r) == "")
                && (default "" (dr_token_hash r) == cm_token_hash a))
  then Some (confirmation "confirmation token is invalid") else None.

Lemma claim_refused_None a r :
  claim_refused a r = None →
  dr_revision r = cm_expected a ∧ dr_status r = Prepared ∧
  default "" (dr_token_hash r) = cm_token_hash a ∧ cm_token_hash a ≠ "".
Proof.
  unfold claim_refused. destruct (Z.eqb_spec (dr_revision r) (cm_expected a)); [|done].
  case_bool_decide; [|done]. simpl. destruct (_ =? _); [|done]. simpl.
  case_bool_decide; [done|]. case_bool_decide; [|done]. intros _. split_and!; congruence.
Qed.

Lemma claim_guard a r :
  is_draft (cm_tenant a) (cm_draft a) r = true → dr_revision r = cm_expected a →
  dr_status r = Prepared →
  at_revision (cm_tenant a) (cm_draft a) (cm_expected a) r && (dr_status r == Prepared) = true.
Proof.
  intros H1 H2 H3. unfold at_revision. by rewrite H1, H2, Z.eqb_refl, H3, bool_decide_eq_true_2.
Qed.

Lemma claim_transaction_run a now d :
  drafts_ok d →
  claim_activation_in_transaction a now d =
    match find_draft (cm_tenant a) (cm_draft a) d with
    | None => (d, Err (IntakeDraftNotFoundError (cm_draft a)))
    | Some r =>
        match claim_refused a r with
        | Some e => (d, Err e)
        | None => (claimed_db a now d, row_to_draft (activating a now r))
        end
    end.
Proof.
  intros Hd. unfold claim_activation_in_transaction. run.
  destruct (find_draft (cm_tenant a) (cm_draft a) d) as [r|] eqn:Hf; [|done].
  unfold claim_refused. run. destruct (dr_revision r =? cm_expected a) eqn:E1; [|done]. run.
  destruct (dr_status r == Prepared) eqn:E2; [|done]. run.
  destruct (default 0 (dr_prepared_revision r) =? cm_expected a); [|done]. run.
  destruct (_ && _); [|done]. simpl negb. unfold update_counted. run.
  apply Z.eqb_eq in E1. apply bool_decide_eq_true in E2.
  pose proof (find_draft_Some _ _ _ _ Hf) as (_ & Ht & Hi).
  erewrite update_one_count; [|done|exact Hf| |]; simpl.
  - erewrite row_read_back_found; [done|].
    apply (update_one_find d _ _ r _ (activating a now)); [done| |done].
    apply claim_guard; [by apply is_draft_true|done..].
  - apply claim_guard; [by apply is_draft_true|done..].
  - intros r' [H _]%andb_true_iff. by eapply at_revision_draft.
Qed.

Lemma claimed_ok a now d r :
  drafts_ok d → find_draft (cm_tenant a) (cm_draft a) d = Some r → claim_refused a r = None →
  drafts_ok (claimed_db a now d) ∧
  find_draft (cm_tenant a) (cm_draft a) (claimed_db a now d) = Some (activating a now r).
Proof.
  intros Hd Hf Hc. destruct (claim_refused_None _ _ Hc) as (Hrev & Hs & _).
  pose proof (find_draft_Some _ _ _ _ Hf) as (_ & Ht & Hi).
  pose proof (row_ok _ _ _ _ Hd Hf) as [Hpos Hcols]. rewrite Hs in Hcols.
  destruct Hcols as (? & ? & ? & ? & ?). split.
  - eapply update_one_ok; [done|exact Hf| |done|].
    + intros r' [H' _]%andb_true_iff. by eapply at_revision_draft.
    + split; [done|]. by split_and!.
  - apply (update_one_find d _ _ r _ (activating a now)); [done| |done].
    apply claim_guard; [by apply is_draft_true|done..].
Qed.

Lemma claim_transaction_ok a now : preserves drafts_ok (claim_activation_in_transaction a now).
Proof.
  intros d Hd. rewrite claim_transaction_run by done.
  destruct (find_draft _ _ d) as [r|] eqn:Hf; [|done].
  destruct (claim_refused a r) eqn:Hc; [done|]. by eapply claimed_ok.
Qed.

Definition activated (a : claim_args) (now : Z) (r : draft_row) : draft_row :=
  r <| dr_status := Activated |> <| dr_token_hash := None |> <| dr_attempt := None |>
    <| dr_updated_by := cm_actor a |> <| dr_updated_at := now |> <| dr_activated_at := Some now |>.

Definition finish_guard (a : claim_args) (r : draft_row) : bool :=
  at_revision (cm_tenant a) (cm_draft a) (cm_expected a) r
  && in_attempt (cm_tenant a) (cm_draft a) (cm_attempt a) r.

Lemma finish_guard_draft a r : finish_guard a r = true → is_draft (cm_tenant a) (cm_draft a) r = true.
Proof. intros [H _]%andb_true_iff. by eapply at_revision_draft. Qed.

Lemma finish_transaction_run a now d :
  drafts_ok d →
  finish_activation_in_transaction a now d =
    match find_draft (cm_tenant a) (cm_draft a) d with
    | Some r =>
        if finish_guard a r
        then (update (finish_guard a) (activated a now) d, row_to_draft (activated a now r))
        else (update (finish_guard a) (activated a now) d,
              Err (conflict "draft activation claim was lost"))
    | None => (update (finish_guard a) (activated a now) d,
               Err (conflict "draft activation claim was lost"))
    end.
Proof.
  intros Hd. unfold finish_activation_in_transaction, update_counted. run.
  change (λ r, at_revision (cm_tenant a) (cm_draft a) (cm_expected a) r &&
    in_attempt (cm_tenant a) (cm_draft a) (cm_attempt a) r) with (finish_guard a).
  destruct (find_draft (cm_tenant a) (cm_draft a) d) as [r|] eqn:Hf.
  - destruct (finish_guard a r) eqn:Hg.
    + erewrite update_one_count; [|done|exact Hf|done|apply finish_guard_draft]. simpl.
      erewrite row_read_back_found; [done|].
      by apply (update_one_find d _ _ r _ (activated a now)).
    + rewrite (proj2 (rowcount_zero _ _)); [done|]. intros r' Hr'.
      destruct (finish_guard a r') eqn:E; [|done].
      pose proof (finish_guard_draft _ _ E) as E'.
      by rewrite (find_draft_unique d _ _ r r' Hd Hf Hr' E'), Hg in E.
  - rewrite (proj2 (rowcount_zero _ _)); [done|]. intros r' Hr'.
    destruct (finish_guard a r') eqn:E; [|done].
    apply finish_guard_draft in E. eapply select_one_None in Hf; [|exact Hr']. congruence.
Qed.

Lemma in_attempt_true t i attempt r :
  in_attempt t i attempt r = true ↔
    is_draft t i r = true ∧ dr_status r = Activating ∧ dr_attempt r = Some attempt.
Proof. unfold in_attempt. rewrite !andb_true_iff, !bool_decide_eq_true. tauto. Qed.

Lemma finish_transaction_ok a now : preserves drafts_ok (finish_activation_in_transaction a now).
Proof.
  intros d Hd. rewrite finish_transaction_run by done.
  assert (drafts_ok (update (finish_guard a) (activated a now) d)) as Hok.
  { split.
    - unfold unique. by rewrite (fmap_update draft_key); [apply Hd|].
    - apply Forall_update; [apply Hd|].
      intros r Hr [_ (_ & Hs & _)%in_attempt_true]%andb_true_iff [Hpos Hcols].
      rewrite Hs in Hcols. destruct Hcols as (? & ? & ? & ? & ?).
      split; [done|]. by split_and!. }
  destruct (find_draft _ _ d) as [r|]; [|done]. by destruct (finish_guard a r).
Qed.

Lemma release_ok t i attempt now : preserves drafts_ok (release_activation t i attempt now).
Proof.
  intros d Hd. unfold release_activation. simpl. split.
  - unfold unique. by rewrite (fmap_update draft_key); [apply Hd|].
  - apply Forall_update; [apply Hd|]. intros r Hr (_ & Hs & _)%in_attempt_true [Hpos Hcols].
    rewrite Hs in Hcols. destruct Hcols as (? & ? & ? & ? & ?). split; [done|]. by split_and!.
Qed.

Lemma delete_ok t i n : preserves drafts_ok (delete_draft t i n).
Proof.
  apply preserves_transaction. intros d Hd. run. destruct (find_draft t i d) as [r|]; [|done]. run.
  destruct (negb _); [|done]. run. destruct (_ =? _); [|done]. run. simpl. split.
  - apply unique_delete_rows, Hd.
  - apply Forall_delete_rows, Hd.
Qed.

(** ** Any use of the store *)

Inductive draft_op :=
  | OpSave (tenant actor id workflow : string) (patch : list (string * json))
      (expected : option Z) (now : Z)
  | OpPrepare (tenant actor id : string) (expected : Z) (a : prepare_args) (now : Z)
  | OpClaim (a : claim_args) (now : Z)
  | OpRelease (tenant id attempt : string) (now : Z)
  | OpFinish (a : claim_args) (now : Z)
  | OpDelete (tenant id : string) (expected : Z).

Definition run_draft_op (d : draft_db) (op : draft_op) : draft_db :=
  match op with
  | OpSave t a i w p n now => (save_draft t a i w p n now d).1
  | OpPrepare t a i n pa now => (prepare_draft t a i n pa now d).1
  | OpClaim a now => (claim_activation a now d).1
  | OpRelease t i attempt now => (release_activation t i attempt now d).1
  | OpFinish a now => (finish_activation a now d).1
  | OpDelete t i n => (delete_draft t i n d).1
  end.

Definition run_drafts (ops : list draft_op) (d : draft_db) : draft_db := foldl run_draft_op d ops.

Lemma run_draft_op_ok op d : drafts_ok d → drafts_ok (run_draft_op d op).
Proof.
  intros Hd. destruct op; simpl; [by apply save_ok|by apply prepare_ok| |by apply release_ok| |
    by apply delete_ok].
  - exact (preserves_transaction _ _ (claim_transaction_ok a now) d Hd).
  - exact (preserves_transaction _ _ (finish_transaction_ok a now) d Hd).
Qed.

Lemma run_drafts_ok ops d : drafts_ok d → drafts_ok (run_drafts ops d).
Proof.
  revert d. induction ops as [|op ops IH]; intros d Hd; [done|]. by apply IH, run_draft_op_ok.
Qed.

Lemma no_drafts_ok : drafts_ok [].
Proof. split; [apply NoDup_nil_2|constructor]. Qed.

(** A draft that no confirmation can activate before it is prepared anew. *)
Definition unclaimable (t i : string) (d : draft_db) : Prop :=
  ∀ r, find_draft t i d = Some r → dr_status r = Editing ∨ dr_status r = Activated.

Definition prepares (t i : string) (op : draft_op) : bool :=
  match op with
  | OpPrepare t' _ i' _ _ _ => (t' == t) && (i' == i)
  | _ => false
  end.

Lemma find_draft_update t i p f d :
  (∀ r, draft_key (f r) = draft_key r) →
  find_draft t i (update p f d) = (λ r, if p r then f r else r) <$> find_draft t i d.
Proof.
  intros Hkey. unfold find_draft. apply select_one_update. intros r _ _.
  specialize (Hkey r). unfold draft_key in Hkey. unfold is_draft. by injection Hkey as -> ->.
Qed.

Lemma unclaimable_update t i p f d :
  (∀ r, draft_key (f r) = draft_key r) →
  (∀ r, find_draft t i d = Some r → p r = true → dr_status (f r) = Editing ∨ dr_status (f r) = Activated) →
  unclaimable t i d → unclaimable t i (update p f d).
Proof.
  intros Hkey Hf Hd r. rewrite find_draft_update by done.
  destruct (find_draft t i d) as [r0|] eqn:E; [|done]. intros [= <-].
  destruct (p r0) eqn:Ep; [by apply Hf|by apply Hd].
Qed.

Lemma unclaimable_other t i t' i' p f d :
  (∀ r, draft_key (f r) = draft_key r) → (∀ r, p r = true → is_draft t' i' r = true) →
  (t', i') ≠ (t, i) → unclaimable t i d → unclaimable t i (update p f d).
Proof.
  intros Hkey Hp Hne. apply unclaimable_update; [done|]. intros r Hr H'.
  apply Hp, is_draft_true in H' as [<- <-]. destruct Hne.
  by apply find_draft_Some in Hr as (_ & -> & ->).
Qed.

Lemma unclaimable_step t i op d :
  drafts_ok d → prepares t i op = false → unclaimable t i d → unclaimable t i (run_draft_op d op).
Proof.
  intros Hd Hno Hu.
  destruct op as [t' a i' w p n now|t' a i' n pa now|a now|t' i' attempt now|a now|t' i' n]; simpl.
  - rewrite save_run by done. destruct (find_draft t' i' d) as [r|] eqn:Hf.
    + destruct (save_refused r w n); [done|]. apply unclaimable_update; [done|by left|done].
    + destruct n; [done|]. intros r. cbn [fst]. unfold find_draft in *. rewrite select_one_app.
      destruct (select_one (is_draft t i) d) eqn:E; [intros [= <-]; by apply Hu|].
      intros  ->%select_one_Some%proj1%list_elem_of_singleton. by left.
  - rewrite prepare_run by done. destruct (find_draft t' i' d) as [r|]; [|done].
    destruct (negb _); [done|]. destruct (_ == Activating); [done|].
    apply (unclaimable_other _ _ t' i'); [done|apply at_revision_draft| |done].
    intros [= -> ->]. simpl in Hno. by rewrite !bool_decide_eq_true_2 in Hno.
  - unfold claim_activation. rewrite run_transaction, claim_transaction_run by done.
    destruct (find_draft (cm_tenant a) (cm_draft a) d) as [r|] eqn:Hf; [|done].
    destruct (claim_refused a r) eqn:Hc; [done|].
    destruct (claim_refused_None _ _ Hc) as (_ & Hs & _).
    assert (unclaimable t i (claimed_db a now d)); [|by destruct (row_to_draft _)].
    apply unclaimable_update; [done| |done]. intros r' Hr' [_ H%bool_decide_eq_true]%andb_true_iff.
    destruct (Hu r' Hr'); congruence.
  - apply unclaimable_update; [done| |done]. intros r Hr (_ & H & _)%in_attempt_true.
    destruct (Hu r Hr); congruence.
  - unfold finish_activation. rewrite run_transaction, finish_transaction_run by done.
    assert (unclaimable t i (update (finish_guard a) (activated a now) d)).
    { apply unclaimable_update; [done|by right|done]. }
    destruct (find_draft _ _ d); [destruct (finish_guard _ _); [destruct (row_to_draft _)|]|]; done.
  - unfold delete_draft. rewrite run_transaction. run.
    destruct (find_draft t' i' d) as [r|] eqn:Hf; [|done]. run.
    destruct (negb _); [|done]. run. destruct (_ =? _); [|done]. run. simpl.
    intros r' [Hr' Hk]%select_one_Some. apply elem_of_delete_rows in Hr' as [Hr' _].
    apply is_draft_true in Hk as [<- <-]. apply Hu. by apply find_draft_in.
Qed.

Lemma unclaimable_run t i ops d :
  drafts_ok d → Forall (λ op, prepares t i op = false) ops → unclaimable t i d →
  unclaimable t i (run_drafts ops d).
Proof.
  intros Hd Hops. revert d Hd. induction Hops as [|op ops Hop _ IH]; intros d Hd Hu; [done|].
  apply IH; [by apply run_draft_op_ok|by apply unclaimable_step].
Qed.

Lemma unclaimable_refused a now d :
  drafts_ok d → unclaimable (cm_tenant a) (cm_draft a) d →
  ∃ e, claim_activation a now d = (d, Err e).
Proof.
  intros Hd Hu. unfold claim_activation. rewrite run_transaction, claim_transaction_run by done.
  destruct (find_draft _ _ d) as [r|] eqn:Hf; [|by eexists].
  destruct (claim_refused a r) eqn:Hc; [by eexists|].
  destruct (claim_refused_None _ _ Hc) as (_ & Hs & _). destruct (Hu r Hf); congruence.
Qed.

(** ** Properties *)

(** The columns of every stored draft agree with its status, whatever
    calls are made: an editing draft carries no proposal, confirmation or
    attempt; a prepared one carries a proposal, its hash and a confirmation for
    exactly its current revision; an activating one an attempt besides; an
    activated one no confirmation any more. *)
Theorem drafts_invariant ops : drafts_ok (run_drafts ops []).
Proof. apply run_drafts_ok, no_drafts_ok. Qed.

Lemma row_to_draft_columns r df :
  row_to_draft r = Ok df →
  df_revision df = dr_revision r ∧ df_status df = dr_status r ∧ df_payload df = dr_payload r.
Proof.
  unfold row_to_draft. do 5 (destruct (bounded_field _ _); [|done]).
  destruct (optional_outcome _ _); [|done]. destruct (_ && _); [|done]. by intros [= <-].
Qed.

(** Edits never overwrite each other unseen: a save against revision [n]
    that succeeds moves the draft to revision [n + 1] with the patch applied
    (fields outside the patch keep their value) and back to editing, and any
    other save against [n] is then refused and changes nothing. *)
Theorem save_no_lost_update ops t a i w patch n now df d1 a' w' patch' now' :
  let d := run_drafts ops [] in
  save_draft t a i w patch (Some n) now d = (d1, Ok df) →
  df_revision df = n + 1 ∧ df_status df = Editing ∧
  (∃ r, find_draft t i d = Some r ∧ df_payload df = dict_update (dr_payload r) patch ∧
    ∀ key, assoc key patch = None → assoc key (df_payload df) = assoc key (dr_payload r)) ∧
  save_draft t a' i w' patch' (Some n) now' d1 = (d1, Err (revision_conflict n (n + 1))).
Proof.
  intros d H. pose proof (run_drafts_ok ops [] no_drafts_ok) as Hd. fold d in Hd.
  pose proof (save_ok t a i w patch (Some n) now d Hd) as Hd1. rewrite H in Hd1. simpl in Hd1.
  rewrite save_run in H by done. destruct (find_draft t i d) as [r|] eqn:Hf; [|done].
  destruct (save_refused r w (Some n)) eqn:Hr; [done|].
  assert (dr_revision r = n) as Hn.
  { unfold save_refused in Hr. destruct (_ == Activating); [done|].
    by destruct (Z.eqb_spec (dr_revision r) n). }
  injection H as H1 Hdf. destruct (row_to_draft_columns _ _ Hdf) as (E1 & E2 & E3).
  rewrite E1, E2, E3. split_and!; [simpl; lia|done| |].
  - exists r. split_and!; [done..|]. intros key Hkey. by apply dict_update_other.
  - rewrite save_run by done.
    assert (find_draft t i d1 = Some (edited (dict_update (dr_payload r) patch) a now r)) as Hf1.
    { rewrite <- H1. unfold saved. rewrite find_draft_update, Hf by done. simpl.
      by erewrite at_revision_self. }
    rewrite Hf1. unfold save_refused. rewrite bool_decide_eq_false_2 by done.
    change (dr_revision (edited _ _ _ r)) with (dr_revision r + 1). rewrite Hn.
    by destruct (Z.eqb_spec (n + 1) n); [lia|].
Qed.

Definition sample_save : draft_op :=
  OpSave "t" "owner" "d-1" "wf-1" [("name", JStr "a"); ("enabled", JBool true)] None 1.

Lemma save_no_lost_update_witness :
  let d := run_drafts [sample_save] [] in
  let d1 := (save_draft "t" "owner" "d-1" "wf-1" [("name", JStr "b")] (Some 1) 2 d).1 in
  (save_draft "t" "other" "d-1" "wf-1" [("name", JStr "c")] (Some 1) 3 d1).2 =
    Err (revision_conflict 1 2).
Proof.
  intros d d1.
  destruct (save_draft "t" "owner" "d-1" "wf-1" [("name", JStr "b")] (Some 1) 2 d)
    as [d2 [df|e]] eqn:E; [|by vm_compute in E].
  destruct (save_no_lost_update [sample_save] "t" "owner" "d-1" "wf-1" [("name", JStr "b")] 1 2 df d2
    "other" "wf-1" [("name", JStr "c")] 3 E) as (_ & _ & _ & H).
  unfold d1. cbn [fst]. by rewrite H.
Defined.

(** A confirmation authorizes one activation of exactly the proposal it
    was issued for: a claim succeeds only with the stored token hash, on a
    draft prepared at the revision the caller names; and once the activation
    has finished, or the draft was edited, no claim on that draft succeeds,
    whatever is called, until it is prepared again. *)
Theorem confirmation_single_use ops a now df d1 :
  let d := run_drafts ops [] in
  claim_activation a now d = (d1, Ok df) →
  (∃ r, find_draft (cm_tenant a) (cm_draft a) d = Some r ∧ dr_status r = Prepared ∧
    dr_revision r = cm_expected a ∧ dr_prepared_revision r = Some (cm_expected a) ∧
    dr_token_hash r = Some (cm_token_hash a)) ∧
  ∀ ops1 fin now1 d2 df2 ops2 a2 now2,
    cm_tenant fin = cm_tenant a → cm_draft fin = cm_draft a →
    (finish_activation fin now1 (run_drafts ops1 d1) = (d2, Ok df2) ∨
     ∃ actor w patch n, save_draft (cm_tenant a) actor (cm_draft a) w patch n now1
       (run_drafts ops1 d1) = (d2, Ok df2)) →
    Forall (λ op, prepares (cm_tenant a) (cm_draft a) op = false) ops2 →
    cm_tenant a2 = cm_tenant a → cm_draft a2 = cm_draft a →
    ∃ e, claim_activation a2 now2 (run_drafts ops2 d2) = (run_drafts ops2 d2, Err e).
Proof.
  intros d H. pose proof (run_drafts_ok ops [] no_drafts_ok) as Hd. fold d in Hd.
  pose proof (preserves_transaction _ _ (claim_transaction_ok a now) d Hd) as Hd1.
  fold (claim_activation a now) in Hd1. rewrite H in Hd1. simpl in Hd1.
  unfold claim_activation in H. rewrite run_transaction, claim_transaction_run in H by done.
  split.
  - destruct (find_draft (cm_tenant a) (cm_draft a) d) as [r|] eqn:Hf; [|done].
    destruct (claim_refused a r) eqn:Hc; [done|].
    destruct (claim_refused_None _ _ Hc) as (Hrev & Hs & Ht & Hne). exists r.
    pose proof (row_ok _ _ _ _ Hd Hf) as [_ Hcols]. rewrite Hs in Hcols.
    destruct Hcols as (_ & _ & Hp & [h Hh] & _). split_and!; try done; [congruence|].
    rewrite Hh in Ht |- *. simpl in Ht. by f_equal.
  - intros ops1 fin now1 d2 df2 ops2 a2 now2 Eft Efd Hend Hops Et Ei.
    pose proof (run_drafts_ok ops1 d1 Hd1) as Hd1'.
    assert (drafts_ok d2 ∧ unclaimable (cm_tenant a) (cm_draft a) d2) as [Hd2 Hu].
    { destruct Hend as [Hend|(actor & w & patch & n & Hend)].
      - pose proof (preserves_transaction _ _ (finish_transaction_ok fin now1) _ Hd1') as Hok.
        fold (finish_activation fin now1) in Hok. rewrite Hend in Hok. split; [done|].
        unfold finish_activation in Hend.
        rewrite run_transaction, finish_transaction_run in Hend by done.
        rewrite <- Eft, <- Efd.
        destruct (find_draft _ _ (run_drafts ops1 d1)) as [r|] eqn:Hf; [|done].
        destruct (finish_guard fin r) eqn:Hg; [|done].
        destruct (row_to_draft _); [|done]. injection Hend as <- _. intros r'.
        rewrite find_draft_update, Hf by done. simpl. rewrite Hg. intros [= <-]. by right.
      - pose proof (save_ok (cm_tenant a) actor (cm_draft a) w patch n now1 _ Hd1') as Hok.
        rewrite Hend in Hok. split; [done|]. rewrite save_run in Hend by done.
        destruct (find_draft _ _ (run_drafts ops1 d1)) as [r|] eqn:Hf.
        + destruct (save_refused r w n); [done|]. injection Hend as <- _. intros r'.
          unfold saved. rewrite find_draft_update, Hf by done. simpl.
          rewrite (at_revision_self _ _ _ _ Hf). intros [= <-]. by left.
        + destruct n; [done|]. injection Hend as <- _. intros r'. unfold find_draft in *.
          rewrite select_one_app, Hf. intros  ->%select_one_Some%proj1%list_elem_of_singleton.
          by left. }
    destruct (unclaimable_refused a2 now2 (run_drafts ops2 d2)) as [e He];
      [by apply run_drafts_ok|rewrite Et, Ei; by apply unclaimable_run|]. eauto.
Qed.

Definition sample_proposal : proposal :=
  Proposal "wf-1" "a" "instagram_dm" "composio" [] "take bookings" ["phone"] [] "" [] []
    "local_csv" [] "*/2 * * * *" true true "auto".
Definition sample_prepare : draft_op :=
  OpPrepare "t" "owner" "d-1" 1 (PrepareArgs sample_proposal "hash" "token") 2.
Definition sample_claim_args : claim_args := ClaimArgs "t" "owner" "d-1" 1 "token" "att-1".

Lemma confirmation_single_use_witness :
  ∃ d1 df d2 df2 e,
    claim_activation sample_claim_args 3 (run_drafts [sample_save; sample_prepare] []) =
      (d1, Ok df) ∧
    finish_activation sample_claim_args 4 d1 = (d2, Ok df2) ∧
    claim_activation sample_claim_args 5 d2 = (d2, Err e).
Proof.
  destruct (claim_activation sample_claim_args 3 (run_drafts [sample_save; sample_prepare] []))
    as [d1 [df|e]] eqn:E1; [|by vm_compute in E1].
  destruct (finish_activation sample_claim_args 4 d1) as [d2 [df2|e]] eqn:E2;
    [|exfalso; vm_compute in E1; injection E1 as <- <-; by vm_compute in E2].
  destruct (confirmation_single_use [sample_save; sample_prepare] sample_claim_args 3 df d1 E1)
    as [_ H].
  destruct (H [] sample_claim_args 4 d2 df2 [] sample_claim_args 5 eq_refl eq_refl
    (or_introl E2) (List.Forall_nil _) eq_refl eq_refl) as [e He].
  exists d1, df, d2, df2, e. split_and!; [reflexivity|exact E2|exact He].
Defined.
