(* ===== verification/Intake.v ===== *)
(** * Intake workflows and draft activation
    ([intake/store.py], [intake/activation.py], [intake/drafts/service.py])

    The table of active workflows, the transaction that replaces a workflow
    and consumes a draft's confirmation together, and the draft service in
    front of it. Parsing a JSON payload into the fields of a proposal
    ([pydantic]) and the normalization of a workflow's sources and sinks
    ([_normalize_workflow_payload], which asks the connected providers) are
    parameters. *)

From S2P Require Import Prelude Sqlite PyText Sha256 Json Drafts.
#[local] Open Scope string_scope.
#[local] Open Scope list_scope.
#[local] Open Scope Z_scope.

(** ** Workflows *)

(** A normalized workflow: the proposal's fields under its tenant. *)
Record workflow := Workflow {
  wf_customer : string;
  wf_fields : proposal;
  wf_routine : string;
}.

Record workflow_row := WorkflowRow {
  ww_workflow : workflow;
  ww_revision : Z;
  ww_created_at : Z;
  ww_updated_at : Z;
}.

Definition wf_id (w : workflow) : string := pr_workflow (wf_fields w).
Definition wf_channel (w : workflow) : string := pr_channel (wf_fields w).
Definition ww_id (r : workflow_row) : string := wf_id (ww_workflow r).
Definition ww_customer (r : workflow_row) : string := wf_customer (ww_workflow r).
Definition ww_channel (r : workflow_row) : string := wf_channel (ww_workflow r).

Definition workflow_db : Type := list workflow_row.

Definition has_workflow_id (id : string) (r : workflow_row) : bool := ww_id r == id.
Definition telegram : string := "telegram_business_dm".
Definition rival (customer id : string) (r : workflow_row) : bool :=
  (ww_customer r == customer) && (ww_channel r == telegram) && negb (ww_id r == id).

Definition one_telegram : exn :=
  ValueError "telegram_business_dm supports only one active workflow per customer".

(** [INSERT .. ON CONFLICT(workflow_id) DO UPDATE]: the creation time of a
    stored row stays. *)
Definition upsert_row (r : workflow_row) (t : workflow_db) : workflow_db :=
  if exists_row (has_workflow_id (ww_id r)) t
  then update (has_workflow_id (ww_id r))
         (λ old, WorkflowRow (ww_workflow r) (ww_revision r) (ww_created_at old)
                   (ww_updated_at r)) t
  else t ++ [r].

Definition upsert_workflow_record_in_transaction (w : workflow) (created_at updated_at : Z)
    (expected : option Z) : M workflow_db Z :=
  current ← gets (select_one (has_workflow_id (wf_id w)));
  unless (match current with Some r => ww_customer r == wf_customer w | None => true end)
    (PermissionError "intake workflow is owned by another tenant");;
  let current_revision := match current with Some r => ww_revision r | None => 0 end in
  unless (match expected with Some n => current_revision =? n | None => true end)
    (RuntimeError ("active workflow changed during activation: expected revision "
       +:+ pretty (default 0 expected) +:+ ", found " +:+ pretty current_revision));;
  duplicate ← gets (exists_row (rival (wf_customer w) (wf_id w)));
  unless (negb ((wf_channel w == telegram) && duplicate)) one_telegram;;
  let revision := current_revision + 1 in
  modify (upsert_row (WorkflowRow w revision created_at updated_at));;
  mret revision.

Definition upsert_workflow_record (w : workflow) (created_at updated_at : Z) : M workflow_db Z :=
  transaction (upsert_workflow_record_in_transaction w created_at updated_at None).

Definition get_workflow (customer id : string) (t : workflow_db) : option workflow_row :=
  let safe_customer := strip customer in
  let safe_workflow := strip id in
  if (safe_customer == "") || (safe_workflow == "") then None
  else select_one (λ r, has_workflow_id safe_workflow r && (ww_customer r == safe_customer)) t.

(** ** Activation *)

Record intake_db := IntakeDb {
  in_drafts : draft_db;
  in_workflows : workflow_db;
}.

Definition on_drafts {A} : M draft_db A → M intake_db A :=
  zoom in_drafts (λ d s, IntakeDb d (in_workflows s)).
Definition on_workflows {A} : M workflow_db A → M intake_db A :=
  zoom in_workflows (λ w s, IntakeDb (in_drafts s) w).

Record activation_args := ActivationArgs {
  av_tenant : string;
  av_actor : string;
  av_draft : string;
  av_expected : Z;
  av_token_hash : string;
  av_proposal : proposal;
}.

Section Activation.
(** [_normalize_workflow_payload(existing=.., customer_id=.., **payload)] *)
Variable normalize_payload : option workflow_row → string → proposal → outcome workflow.

Definition activate_draft (a : activation_args) (attempt : string) (now : Z) :
    M intake_db (draft * workflow_row) :=
  validated ← from_outcome (validate_proposal (av_proposal a));
  let workflow_id := pr_workflow validated in
  existing ← gets (λ s, get_workflow (av_tenant a) workflow_id (in_workflows s));
  let existing_revision := match existing with Some r => ww_revision r | None => 0 end in
  competing ← gets (λ s, exists_row (λ r, (ww_customer r == strip (av_tenant a))
    && (ww_channel r == telegram) && negb (ww_id r == workflow_id)) (in_workflows s));
  unless (negb ((pr_channel validated == telegram) && negb (strip (av_tenant a) == "")
                && competing)) one_telegram;;
  w ← from_outcome (normalize_payload existing (av_tenant a) validated);
  let created_at := match existing with Some r => ww_created_at r | None => now end in
  let claim := ClaimArgs (av_tenant a) (av_actor a) (av_draft a) (av_expected a)
    (av_token_hash a) attempt in
  transaction (
    claimed ← on_drafts (claim_activation_in_transaction claim now);
    unless ((df_workflow claimed == workflow_id) && (df_proposal claimed == Some validated))
      (IntakeDraftConfirmationError "prepared proposal changed before activation");;
    revision ← on_workflows (upsert_workflow_record_in_transaction w created_at now
      (Some existing_revision));
    activated ← on_drafts (finish_activation_in_transaction claim now);
    mret (activated, WorkflowRow w revision created_at now)).
End Activation.

(** ** The draft service *)

Definition validation (message : string) : exn := IntakeDraftValidationError message.

Definition identifier (field : string) (maximum : Z) (value : string) : outcome string :=
  let v := strip value in
  if v == "" then Err (validation (field +:+ " is required"))
  else if maximum <? len v
  then Err (validation (field +:+ " must be at most " +:+ pretty maximum +:+ " characters"))
  else Ok v.

Definition reserved_keys : list string :=
  ["actor_id"; "confirmation_token"; "created_at"; "customer_id"; "id"; "prepared_revision";
   "proposal_hash"; "revision"; "routine_id"; "tenant_id"; "updated_at"; "workflow_id"].

(** [reserved_keys] is in sorted order already. *)
Definition validated_patch (patch : list (string * json)) : outcome (list (string * json)) :=
  let reserved := List.filter (λ k, bool_decide (k ∈ map fst patch)) reserved_keys in
  match patch, reserved with
  | [], _ => Err (validation "draft patch must be a non-empty object")
  | _, [] => Ok patch
  | _, _ => Err (validation ("draft payload contains reserved fields: "
                             +:+ join_text ", " reserved))
  end.

(** [_canonical_proposal]: the hash of the proposal's canonical text. *)
Definition proposal_hash (p : proposal) : string := sha256_hex (dumps false (proposal_json p)).

Definition token_hash (tenant draft : string) (revision : Z) (hash token : string) : string :=
  let zero := String (ascii_of_N 0) EmptyString in
  sha256_hex (join_text zero
    ["intake-draft-confirmation-v1"; tenant; draft; pretty revision; hash; token]).

Record prepared_draft := PreparedDraft {
  pp_draft : draft;
  pp_proposal : proposal;
  pp_hash : string;
  pp_token : string;
}.

Section Service.
Variable normalize_payload : option workflow_row → string → proposal → outcome workflow.
(** The injected [ProposalNormalizer]; the default one parses the payload. *)
Variable proposal_normalizer : string → list (string * json) → outcome proposal.

(** [fresh_draft], [fresh_workflow]: what [new_short_id] draws. *)
Definition service_save (tenant_id actor_id : string) (patch : list (string * json))
    (draft_id workflow_id : option string) (expected : option Z)
    (fresh_draft fresh_workflow : string) (now : Z) : M draft_db draft :=
  tenant ← from_outcome (identifier "tenant_id" 200 tenant_id);
  actor ← from_outcome (identifier "actor_id" 200 actor_id);
  let given o other := match o with Some v => if v == "" then other else v | None => other end in
  id ← from_outcome (identifier "draft_id" 100 (given draft_id fresh_draft));
  existing ← get_draft tenant id;
  workflow ← from_outcome (identifier "workflow_id" 100
    (given workflow_id (match existing with Some d => df_workflow d | None => fresh_workflow end)));
  safe ← from_outcome (validated_patch patch);
  save_draft tenant actor id workflow safe expected now.

(** [except (TypeError, ValueError, ValidationError)] *)
Definition as_invalid_draft {A} (o : outcome A) : outcome A :=
  match o with
  | Err (TypeError _) | Err (ValueError _) | Err (ValidationError _)
  | Err (IntakeDraftValidationError _) => Err (validation "workflow draft is invalid")
  | _ => o
  end.

Definition service_prepare (tenant_id actor_id draft_id : string) (expected : Z)
    (token_factory : string) (now : Z) : M draft_db prepared_draft :=
  tenant ← from_outcome (identifier "tenant_id" 200 tenant_id);
  actor ← from_outcome (identifier "actor_id" 200 actor_id);
  id ← from_outcome (identifier "draft_id" 100 draft_id);
  found ← get_draft tenant id;
  match found with
  | None => raise (IntakeDraftNotFoundError id)
  | Some d =>
      unless (df_revision d =? expected) (revision_conflict expected (df_revision d));;
      p ← from_outcome (as_invalid_draft
        (n ← proposal_normalizer (df_workflow d) (df_payload d); validate_proposal n));
      unless (pr_workflow p == df_workflow d)
        (validation "normalizer changed the draft workflow_id");;
      let token := strip token_factory in
      unless (32 <=? len token)
        (RuntimeError "confirmation token generator returned an unsafe token");;
      let hash := proposal_hash p in
      r ← prepare_draft tenant actor id expected
        (PrepareArgs p hash (token_hash tenant id expected hash token)) now;
      mret (PreparedDraft r p hash token)
  end.

(** The exceptions [activate] lets through; the others it wraps. *)
Definition activation_error (e : exn) : exn :=
  match e with
  | IntakeDraftConfirmationError _ | IntakeDraftConflictError _ | IntakeDraftNotFoundError _
  | CancelledError => e
  | _ => IntakeDraftActivationError "workflow activation failed"
  end.

Definition service_activate (tenant_id actor_id draft_id : string) (expected : Z)
    (confirmation_token attempt : string) (now : Z) : M intake_db (draft * workflow_row) :=
  tenant ← from_outcome (identifier "tenant_id" 200 tenant_id);
  actor ← from_outcome (identifier "actor_id" 200 actor_id);
  id ← from_outcome (identifier "draft_id" 100 draft_id);
  found ← on_drafts (get_draft tenant id);
  match found with
  | None => raise (IntakeDraftNotFoundError id)
  | Some d =>
      match df_proposal d, df_hash d with
      | Some p, Some stored =>
          unless (negb (stored == ""))
            (IntakeDraftConfirmationError "draft has no prepared proposal");;
          unless (proposal_hash p == stored)
            (IntakeDraftConfirmationError "prepared proposal hash is invalid");;
          r ← try_except
            (activate_draft normalize_payload
               (ActivationArgs tenant actor id expected
                  (token_hash tenant id expected (proposal_hash p) (strip confirmation_token)) p)
               attempt now)
            (λ e, Some (raise (activation_error e)));
          unless ((df_tenant r.1 == tenant) && (df_id r.1 == id)
                  && (df_revision r.1 =? expected) && (df_status r.1 == Activated)
                  && (ww_id r.2 == df_workflow d))
            (IntakeDraftActivationError "workflow activator returned invalid state");;
          mret r
      | _, _ => raise (IntakeDraftConfirmationError "draft has no prepared proposal")
      end
  end.

Definition service_delete (tenant_id draft_id : string) (expected : Z) : M draft_db unit :=
  tenant ← from_outcome (identifier "tenant_id" 200 tenant_id);
  id ← from_outcome (identifier "draft_id" 100 draft_id);
  delete_draft tenant id expected.
End Service.

(** ** Invariants *)

Record workflows_ok (t : workflow_db) : Prop := {
  wk_unique : unique ww_id t;
  wk_revision : ∀ r, r ∈ t → 1 ≤ ww_revision r;
  wk_telegram : ∀ r r', r ∈ t → r' ∈ t → ww_channel r = telegram → ww_channel r' = telegram →
    ww_customer r = ww_customer r' → r = r';
}.

Record intake_ok (s : intake_db) : Prop := {
  ik_drafts : drafts_ok (in_drafts s);
  ik_workflows : workflows_ok (in_workflows s);
}.

Lemma has_workflow_id_true id r : has_workflow_id id r = true ↔ ww_id r = id.
Proof. apply bool_decide_eq_true. Qed.

Definition stored_row (w : workflow) (n created_at updated_at : Z) (t : workflow_db) : workflow_row :=
  WorkflowRow w n
    (match select_one (has_workflow_id (wf_id w)) t with
     | Some old => ww_created_at old
     | None => created_at
     end) updated_at.

Lemma upsert_row_select w n c u t :
  let r := WorkflowRow w n c u in
  select_one (has_workflow_id (wf_id w)) (upsert_row r t) = Some (stored_row w n c u t) ∧
  ∀ id, id ≠ wf_id w →
    select_one (has_workflow_id id) (upsert_row r t) = select_one (has_workflow_id id) t.
Proof.
  intros r. unfold upsert_row, stored_row. change (ww_id r) with (wf_id w).
  destruct (exists_row _ t) eqn:E.
  - apply exists_row_true in E as (old & Hold & Hid).
    split.
    + rewrite select_one_update by (intros r0 _ H0; unfold has_workflow_id in *; simpl;
        apply bool_decide_eq_true in H0; rewrite H0; done).
      destruct (select_one _ t) as [old'|] eqn:E'.
      * simpl. apply select_one_Some in E' as [_ ->]. done.
      * eapply select_one_None in E'; [|exact Hold]. congruence.
    + intros id Hne. rewrite select_one_update.
      * destruct (select_one (has_workflow_id id) t) as [r0|] eqn:E'; [|done]. simpl.
        apply select_one_Some in E' as [_ E'%has_workflow_id_true].
        destruct (has_workflow_id (wf_id w) r0) eqn:E2; [|done].
        apply has_workflow_id_true in E2. congruence.
      * intros r0 _ H0%has_workflow_id_true. unfold has_workflow_id. apply bool_decide_ext.
        change (ww_id _) with (wf_id w) at 1. by rewrite H0.
  - rewrite exists_row_false in E. split.
    + rewrite select_one_app. rewrite (proj2 (select_one_None _ _)) by done. simpl.
      unfold has_workflow_id. by rewrite bool_decide_eq_true_2.
    + intros id Hne. rewrite select_one_app. destruct (select_one _ t); [done|]. simpl.
      unfold has_workflow_id. by rewrite bool_decide_eq_false_2.
Qed.

Lemma elem_of_upsert r0 r t :
  r0 ∈ upsert_row r t →
  (r0 ∈ t ∧ ww_id r0 ≠ ww_id r) ∨
  (ww_workflow r0 = ww_workflow r ∧ ww_revision r0 = ww_revision r).
Proof.
  unfold upsert_row. destruct (exists_row _ t) eqn:E.
  - intros (old & Hold & ->)%elem_of_update. destruct (has_workflow_id _ old) eqn:Eo; [by right|].
    left. split; [done|]. intros H%has_workflow_id_true. congruence.
  - rewrite exists_row_false in E. intros [H| ->%list_elem_of_singleton]%elem_of_app; [|by right].
    left. split; [done|]. intros H'%has_workflow_id_true. by rewrite E in H'.
Qed.

Lemma upsert_row_ids r t :
  unique ww_id t → unique ww_id (upsert_row r t).
Proof.
  intros Hu. unfold upsert_row. destruct (exists_row _ t) eqn:E.
  - unfold unique. rewrite (fmap_update ww_id); [done|].
    intros r0 _ H0%has_workflow_id_true. by rewrite H0.
  - apply unique_app; [done|]. rewrite exists_row_false in E. intros r' Hr' Heq.
    specialize (E r' Hr'). by rewrite (proj2 (has_workflow_id_true _ _)) in E.
Qed.

Lemma upsert_row_ok r t :
  workflows_ok t → 1 ≤ ww_revision r →
  (ww_channel r = telegram → exists_row (rival (ww_customer r) (ww_id r)) t = false) →
  workflows_ok (upsert_row r t).
Proof.
  intros [Hu Hrev Ht] Hr Hdup. pose proof (upsert_row_ids r t Hu) as Hu'. split; [done| |].
  - intros r0 [[H0 _]|[_ ->]]%elem_of_upsert; auto.
  - intros r1 r2 H1 H2 C1 C2 E.
    assert (∀ r1 r2, r1 ∈ upsert_row r t → r2 ∈ upsert_row r t →
      ww_channel r1 = telegram → ww_channel r2 = telegram → ww_customer r1 = ww_customer r2 →
      ww_id r1 ≠ ww_id r → ww_id r2 = ww_id r → False) as Hclash.
    { clear r1 r2 H1 H2 C1 C2 E. intros r1 r2 H1 H2 C1 C2 E N1 N2.
      apply elem_of_upsert in H1 as [[H1 _]|[W1 _]];
        [|by unfold ww_id in N1; rewrite W1 in N1].
      apply elem_of_upsert in H2 as [[_ N]|[W2 _]]; [done|].
      unfold ww_channel, ww_customer in C2, E. rewrite W2 in C2, E.
      specialize (Hdup C2). rewrite exists_row_false in Hdup. specialize (Hdup r1 H1).
      assert (rival (ww_customer r) (ww_id r) r1 = true); [|congruence]. unfold rival.
      rewrite !andb_true_iff, negb_true_iff, !bool_decide_eq_true, bool_decide_eq_false.
      split_and!; [exact E|exact C1|done]. }
    destruct (decide (ww_id r1 = ww_id r)) as [E1|N1], (decide (ww_id r2 = ww_id r)) as [E2|N2].
    + apply (unique_eq ww_id (upsert_row r t)); [done..|congruence].
    + exfalso. by apply (Hclash r2 r1).
    + exfalso. by apply (Hclash r1 r2).
    + apply elem_of_upsert in H1 as [[H1 _]|[W _]]; [|by unfold ww_id in N1; rewrite W in N1].
      apply elem_of_upsert in H2 as [[H2 _]|[W _]]; [|by unfold ww_id in N2; rewrite W in N2].
      by apply Ht.
Qed.

Definition current_revision (w : workflow) (t : workflow_db) : Z :=
  match select_one (has_workflow_id (wf_id w)) t with Some r => ww_revision r | None => 0 end.

(** An upsert either stores the workflow at the next revision or changes
    nothing. *)
Lemma upsert_run w c u expected t :
  workflows_ok t →
  (∃ e, upsert_workflow_record_in_transaction w c u expected t = (t, Err e)) ∨
  (upsert_workflow_record_in_transaction w c u expected t =
     (upsert_row (WorkflowRow w (current_revision w t + 1) c u) t, Ok (current_revision w t + 1)) ∧
   workflows_ok (upsert_row (WorkflowRow w (current_revision w t + 1) c u) t)).
Proof.
  intros Hok. unfold upsert_workflow_record_in_transaction. run.
  destruct (match select_one _ t with Some _ => _ | None => true end); [|left; by eexists]. run.
  destruct (match expected with Some _ => _ | None => true end); [|left; by eexists]. run.
  destruct (negb _) eqn:E; [|left; by eexists]. run. right. split; [done|].
  fold (current_revision w t). apply upsert_row_ok; [done| |].
  - simpl. unfold current_revision. destruct (select_one _ t) as [r|] eqn:Es; [|lia].
    apply select_one_Some in Es as [Hr _]. pose proof (wk_revision _ Hok r Hr). lia.
  - intros Hc. change (ww_channel _) with (wf_channel w) in Hc.
    apply negb_true_iff, andb_false_iff in E as [E|E]; [|done].
    by apply bool_decide_eq_false in E.
Qed.

Lemma upsert_ok w c u : preserves workflows_ok (upsert_workflow_record w c u).
Proof.
  intros t Hok. unfold upsert_workflow_record. rewrite run_transaction.
  destruct (upsert_run w c u None t Hok) as [[e ->]|[-> H]]; done.
Qed.

Lemma run_on_drafts {A B} (m : M draft_db A) (k : A → M intake_db B) s :
  (on_drafts m ≫= k) s =
    match m (in_drafts s) with
    | (d, Ok a) => k a (IntakeDb d (in_workflows s))
    | (d, Err e) => (IntakeDb d (in_workflows s), Err e)
    end.
Proof.
  unfold on_drafts, zoom. rewrite run_bind. by destruct (m (in_drafts s)) as [d [a|e]].
Qed.

Lemma run_on_workflows {A B} (m : M workflow_db A) (k : A → M intake_db B) s :
  (on_workflows m ≫= k) s =
    match m (in_workflows s) with
    | (w, Ok a) => k a (IntakeDb (in_drafts s) w)
    | (w, Err e) => (IntakeDb (in_drafts s) w, Err e)
    end.
Proof.
  unfold on_workflows, zoom. rewrite run_bind. by destruct (m (in_workflows s)) as [w [a|e]].
Qed.

Definition claim_of (a : activation_args) (attempt : string) : claim_args :=
  ClaimArgs (av_tenant a) (av_actor a) (av_draft a) (av_expected a) (av_token_hash a) attempt.

Lemma finish_guard_activating c now r :
  is_draft (cm_tenant c) (cm_draft c) r = true → dr_revision r = cm_expected c →
  finish_guard c (activating c now r) = true.
Proof.
  intros H1 H2. unfold finish_guard, at_revision, in_attempt.
  change (is_draft ?t ?i (activating c now r)) with (is_draft t i r).
  change (dr_revision (activating c now r)) with (dr_revision r).
  rewrite H1, H2, Z.eqb_refl. simpl. by rewrite !bool_decide_eq_true_2.
Qed.

Section Atomic.
Variable normalize_payload : option workflow_row → string → proposal → outcome workflow.

(** Everything a successful [activate_draft] does: the draft [r], prepared at
    the named revision with the presented confirmation, becomes activated;
    the workflow normalized from its proposal [p] is stored at the next
    revision; every other draft and workflow stays. *)
Record activated_as (a : activation_args) (attempt : string) (now : Z) (s s' : intake_db)
    (row : workflow_row) (r : draft_row) (p : proposal) : Prop := {
  aa_found : find_draft (av_tenant a) (av_draft a) (in_drafts s) = Some r;
  aa_prepared : dr_status r = Prepared ∧ dr_revision r = av_expected a ∧
    dr_token_hash r = Some (av_token_hash a);
  aa_activated : find_draft (av_tenant a) (av_draft a) (in_drafts s') =
    Some (activated (claim_of a attempt) now (activating (claim_of a attempt) now r));
  aa_validated : validate_proposal (av_proposal a) = Ok p;
  aa_normalized : normalize_payload
    (get_workflow (av_tenant a) (pr_workflow p) (in_workflows s)) (av_tenant a) p =
    Ok (ww_workflow row);
  aa_revision : ww_revision row = current_revision (ww_workflow row) (in_workflows s) + 1;
  aa_stored : in_workflows s' = upsert_row row (in_workflows s);
  aa_others : ∀ t i, (t, i) ≠ (av_tenant a, av_draft a) →
    find_draft t i (in_drafts s') = find_draft t i (in_drafts s);
}.

Lemma activate_draft_run a attempt now s :
  intake_ok s →
  (∃ e, activate_draft normalize_payload a attempt now s = (s, Err e)) ∨
  (∃ d row r p s', activate_draft normalize_payload a attempt now s = (s', Ok (d, row)) ∧
    activated_as a attempt now s s' row r p ∧ intake_ok s' ∧
    row_to_draft (activated (claim_of a attempt) now (activating (claim_of a attempt) now r))
      = Ok d).
Proof.
  intros [Hd Hw]. unfold activate_draft. run.
  destruct (validate_proposal (av_proposal a)) as [p|e] eqn:Hp; [|left; by eexists]. run.
  destruct (negb _); [|left; by eexists]. run.
  set (existing := get_workflow (av_tenant a) (pr_workflow p) (in_workflows s)).
  destruct (normalize_payload existing (av_tenant a) p) as [w|e] eqn:Hn; [|left; by eexists].
  rewrite run_transaction, run_on_drafts. fold (claim_of a attempt).
  rewrite claim_transaction_run by done. change (cm_tenant (claim_of a attempt)) with (av_tenant a).
  change (cm_draft (claim_of a attempt)) with (av_draft a).
  destruct (find_draft (av_tenant a) (av_draft a) (in_drafts s)) as [r|] eqn:Hf;
    [|left; by eexists].
  destruct (claim_refused (claim_of a attempt) r) as [e|] eqn:Hc; [left; by eexists|].
  destruct (row_to_draft (activating (claim_of a attempt) now r)) as [c|e] eqn:Hrc;
    [|left; by eexists].
  destruct (claimed_ok (claim_of a attempt) now (in_drafts s) r Hd Hf Hc) as [Hd1 Hf1].
  change (cm_tenant (claim_of a attempt)) with (av_tenant a) in Hf1.
  change (cm_draft (claim_of a attempt)) with (av_draft a) in Hf1.
  rewrite run_unless_bind. destruct (_ && _); [|left; by eexists].
  rewrite run_on_workflows. cbn [in_workflows in_drafts].
  destruct (upsert_run w (match existing with Some r => ww_created_at r | None => now end) now
    (Some (match existing with Some r => ww_revision r | None => 0 end)) (in_workflows s) Hw)
    as [[e ->]|[-> Hw1]]; [left; by eexists|].
  rewrite run_on_drafts, finish_transaction_run by done. cbn [in_drafts].
  change (cm_tenant (claim_of a attempt)) with (av_tenant a).
  change (cm_draft (claim_of a attempt)) with (av_draft a). rewrite Hf1.
  destruct (claim_refused_None _ _ Hc) as (Hrev & Hs & Ht & Hne).
  pose proof (find_draft_Some _ _ _ _ Hf) as (_ & Htn & Hid).
  rewrite finish_guard_activating by (by apply is_draft_true || done).
  pose proof (finish_transaction_ok (claim_of a attempt) now _ Hd1) as Hd2.
  rewrite finish_transaction_run in Hd2 by done.
  change (cm_tenant (claim_of a attempt)) with (av_tenant a) in Hd2.
  change (cm_draft (claim_of a attempt)) with (av_draft a) in Hd2.
  rewrite Hf1, finish_guard_activating in Hd2
    by (by apply is_draft_true || done).
  destruct (row_to_draft (activated _ _ _)) as [d|e] eqn:Hrd; [|left; by eexists].
  right. eexists d, _, r, p, _. split; [reflexivity|]. split_and!; [|by split|done].
  pose proof (row_ok _ _ _ _ Hd Hf) as [_ Hcols]. rewrite Hs in Hcols.
  destruct Hcols as (_ & _ & _ & [h Hh] & _).
  split; simpl; try done.
  - split_and!; [done..|]. rewrite Hh in Ht |- *. simpl in Ht. by f_equal.
  - rewrite find_draft_update by done. rewrite Hf1. simpl.
    by rewrite finish_guard_activating by (by apply is_draft_true || done).
  - intros t i Hne'. rewrite find_draft_update by done. unfold claimed_db.
    rewrite find_draft_update by done.
    destruct (find_draft t i (in_drafts s)) as [r0|] eqn:E; [|done]. simpl.
    pose proof (find_draft_Some _ _ _ _ E) as (_ & E1 & E2).
    assert (is_draft (av_tenant a) (av_draft a) r0 = false) as Hno.
    { destruct (is_draft _ _ r0) eqn:E'; [|done]. apply is_draft_true in E' as [E3 E4].
      destruct Hne'. congruence. }
    unfold finish_guard, at_revision. simpl. rewrite Hno. simpl. by rewrite Hno.
Qed.
End Atomic.

(** ** Any use of the two stores *)

Inductive intake_op :=
  | OpDraft (op : draft_op)
  | OpWorkflow (w : workflow) (created_at updated_at : Z)
  | OpActivation (a : activation_args) (attempt : string) (now : Z).

Section Runs.
Variable normalize_payload : option workflow_row → string → proposal → outcome workflow.

Definition run_intake_op (s : intake_db) (op : intake_op) : intake_db :=
  match op with
  | OpDraft op => IntakeDb (run_draft_op (in_drafts s) op) (in_workflows s)
  | OpWorkflow w c u =>
      IntakeDb (in_drafts s) (upsert_workflow_record w c u (in_workflows s)).1
  | OpActivation a attempt now => (activate_draft normalize_payload a attempt now s).1
  end.

Definition run_intake (ops : list intake_op) (s : intake_db) : intake_db :=
  foldl run_intake_op s ops.

Definition no_intake : intake_db := IntakeDb [] [].

Lemma no_intake_ok : intake_ok no_intake.
Proof. split; [apply no_drafts_ok|]. split; [apply NoDup_nil_2|set_solver..]. Qed.

Lemma run_intake_op_ok op s : intake_ok s → intake_ok (run_intake_op s op).
Proof.
  intros Hs. destruct op as [op|w c u|a attempt now]; simpl.
  - split; [apply run_draft_op_ok, Hs|apply Hs].
  - split; [apply Hs|apply upsert_ok, Hs].
  - destruct (activate_draft_run normalize_payload a attempt now s Hs)
      as [[e ->]|(d & row & r & p & s' & -> & _ & H & _)]; done.
Qed.

Lemma run_intake_ok ops s : intake_ok s → intake_ok (run_intake ops s).
Proof.
  revert s. induction ops as [|op ops IH]; intros s Hs; [done|]. by apply IH, run_intake_op_ok.
Qed.

(** ** Properties *)

(** Workflow identifiers stay unique, revisions positive, and no tenant
    ever has two Telegram Business workflows, whatever drafts are activated
    and workflows written, in any order. *)
Theorem one_telegram_workflow ops : workflows_ok (in_workflows (run_intake ops no_intake)).
Proof. apply run_intake_ok, no_intake_ok. Qed.

(** C21: activation is atomic across the draft and workflow databases: either
    it fails and both are exactly as before, or the confirmed draft is
    activated and its workflow stored at the next revision, together, and
    nothing else changes. *)
Theorem activation_atomic ops a attempt now :
  let s := run_intake ops no_intake in
  let c := activate_draft normalize_payload a attempt now s in
  match c.2 with
  | Err _ => c.1 = s
  | Ok (_, row) => ∃ r p, activated_as normalize_payload a attempt now s c.1 row r p
  end.
Proof.
  intros s. destruct (activate_draft_run normalize_payload a attempt now s)
    as [[e ->]|(d & row & r & p & s' & -> & H & _)]; simpl; eauto.
  apply run_intake_ok, no_intake_ok.
Qed.
End Runs.

(** ** The confirmation round trip *)

Lemma identifier_Ok field m v s : identifier field m v = Ok s ↔ s = strip v ∧ identifier_ok m s.
Proof.
  unfold identifier, identifier_ok. split.
  - case_bool_decide as Hne; [done|]. destruct (Z.ltb_spec m (len (strip v))); [done|].
    intros [= <-]. by split_and!; [|apply strip_stripped| |].
  - intros (-> & _ & Hne & Hlen). rewrite bool_decide_eq_false_2 by done.
    by destruct (Z.ltb_spec m (len (strip v))); [lia|].
Qed.

(** The fields of a row that reads back. *)
Lemma row_to_draft_Ok r d :
  row_to_draft r = Ok d ↔
    bounded_field 100 (dr_id r) = Some (df_id d) ∧
    bounded_field 200 (dr_tenant r) = Some (df_tenant d) ∧
    bounded_field 100 (dr_workflow r) = Some (df_workflow d) ∧
    bounded_field 200 (dr_created_by r) = Some (df_created_by d) ∧
    bounded_field 200 (dr_updated_by r) = Some (df_updated_by d) ∧
    optional_outcome validate_proposal (dr_proposal r) = Ok (df_proposal d) ∧
    (1 <=? dr_revision r) && match dr_prepared_revision r with Some n => 1 <=? n | None => true end
      = true ∧
    d = Draft (df_id d) (df_tenant d) (df_workflow d) (dr_revision r) (dr_status r) (dr_payload r)
          (df_proposal d) (strip <$> dr_hash r) (dr_prepared_revision r) (df_created_by d)
          (df_updated_by d) (dr_created_at r) (dr_updated_at r) (dr_prepared_at r)
          (dr_activated_at r).
Proof.
  unfold row_to_draft. split.
  - destruct (bounded_field 100 (dr_id r)); [|done].
    destruct (bounded_field 200 (dr_tenant r)); [|done].
    destruct (bounded_field 100 (dr_workflow r)); [|done].
    destruct (bounded_field 200 (dr_created_by r)); [|done].
    destruct (bounded_field 200 (dr_updated_by r)); [|done].
    destruct (optional_outcome _ _); [|done]. destruct (_ && _); [|done].
    intros [= <-]. by split_and!.
  - intros (-> & -> & -> & -> & -> & -> & -> & E). by rewrite <- E.
Qed.

(** Moving a draft along keeps it readable. *)
Lemma row_to_draft_moved r r' d u :
  row_to_draft r = Ok d → bounded_field 200 (dr_updated_by r') = Some u →
  dr_id r' = dr_id r → dr_tenant r' = dr_tenant r → dr_workflow r' = dr_workflow r →
  dr_created_by r' = dr_created_by r → dr_proposal r' = dr_proposal r →
  dr_revision r' = dr_revision r → dr_prepared_revision r' = dr_prepared_revision r →
  ∃ d', row_to_draft r' = Ok d' ∧ df_id d' = df_id d ∧ df_tenant d' = df_tenant d ∧
    df_workflow d' = df_workflow d ∧ df_proposal d' = df_proposal d ∧
    df_revision d' = dr_revision r ∧ df_status d' = dr_status r'.
Proof.
  intros (H1 & H2 & H3 & H4 & H5 & H6 & H7 & H8)%row_to_draft_Ok Hu E1 E2 E3 E4 E5 E6 E7.
  exists (Draft (df_id d) (df_tenant d) (df_workflow d) (dr_revision r') (dr_status r')
    (dr_payload r') (df_proposal d) (strip <$> dr_hash r') (dr_prepared_revision r')
    (df_created_by d) u (dr_created_at r') (dr_updated_at r') (dr_prepared_at r')
    (dr_activated_at r')).
  split_and!; simpl; try done. apply row_to_draft_Ok. simpl.
  rewrite E1, E2, E3, E4, E5, E6, E7. by split_and!.
Qed.

Lemma get_draft_run t i d :
  get_draft t i d = (d, optional_outcome row_to_draft (find_draft t i d)).
Proof. unfold get_draft. by run. Qed.

Section Confirmation.
Variable normalize_payload : option workflow_row → string → proposal → outcome workflow.
Variable proposal_normalizer : string → list (string * json) → outcome proposal.

(** What a successful [service_prepare] leaves behind. *)
Lemma prepare_leaves tenant_id actor_id draft_id n factory now d d1 pp :
  drafts_ok d →
  service_prepare proposal_normalizer tenant_id actor_id draft_id n factory now d = (d1, Ok pp) →
  let tenant := strip tenant_id in
  let id := strip draft_id in
  drafts_ok d1 ∧ identifier_ok 200 tenant ∧ identifier_ok 100 id ∧
  pp_hash pp = proposal_hash (pp_proposal pp) ∧
  validate_proposal (pp_proposal pp) = Ok (pp_proposal pp) ∧
  strip (pp_token pp) = pp_token pp ∧
  ∃ r df, find_draft tenant id d1 = Some r ∧ row_to_draft r = Ok df ∧
    dr_status r = Prepared ∧ dr_revision r = n ∧ dr_prepared_revision r = Some n ∧
    dr_proposal r = Some (pp_proposal pp) ∧ dr_hash r = Some (pp_hash pp) ∧
    dr_token_hash r = Some (token_hash tenant id n (pp_hash pp) (pp_token pp)) ∧
    df_workflow df = pr_workflow (pp_proposal pp).
Proof.
  intros Hd. unfold service_prepare. run.
  destruct (identifier "tenant_id" 200 tenant_id) as [t|e] eqn:Et; [|done].
  destruct (identifier "actor_id" 200 actor_id) as [ac|e] eqn:Ea; [|done].
  destruct (identifier "draft_id" 100 draft_id) as [i|e] eqn:Ei; [|done].
  apply identifier_Ok in Et as [-> Ht], Ea as [-> Hac], Ei as [-> Hi]. run.
  rewrite run_bind, get_draft_run.
  destruct (find_draft (strip tenant_id) (strip draft_id) d) as [r0|] eqn:Hf; [|done].
  unfold optional_outcome. simpl. destruct (row_to_draft r0) as [d0|e] eqn:Hr0; [|done]. simpl.
  run. destruct (Z.eqb_spec (df_revision d0) n) as [Hn|]; [|done]. run.
  destruct (proposal_normalizer _ _) as [p0|e]; [|by destruct e]. simpl.
  destruct (validate_proposal p0) as [p|e] eqn:Hp; [|by destruct e]. simpl. run.
  case_bool_decide as Hw; [|done]. run. destruct (32 <=? _); [|done]. run.
  rewrite run_bind, prepare_run, Hf by done.
  destruct (row_to_draft_columns _ _ Hr0) as (Erev & _ & _). rewrite Erev in Hn.
  rewrite Hn, Z.eqb_refl. cbn [negb]. destruct (dr_status r0 == Activating) eqn:Hs; [done|].
  set (pa := PrepareArgs p _ _).
  destruct (row_to_draft (prepared pa (strip actor_id) n now r0)) as [df|e] eqn:Hdf; [|done].
  intros [= <- <-]. cbn [pp_hash pp_proposal pp_token].
  assert (find_draft (strip tenant_id) (strip draft_id)
    (update (at_revision (strip tenant_id) (strip draft_id) n)
      (prepared pa (strip actor_id) n now) d) = Some (prepared pa (strip actor_id) n now r0)) as Hf1.
  { rewrite find_draft_update, Hf by done. simpl. by rewrite <- Hn, (at_revision_self _ _ _ _ Hf). }
  pose proof (prepare_ok (strip tenant_id) (strip actor_id) (strip draft_id) n pa now d Hd) as Hok.
  rewrite prepare_run, Hf, Hn, Z.eqb_refl, Hs in Hok by done.
  split_and!; try done; [by eapply validate_idem|apply strip_stripped|].
  exists (prepared pa (strip actor_id) n now r0), df. split_and!; try done.
  apply row_to_draft_Ok in Hr0 as (_ & _ & Hw0 & _), Hdf as (_ & _ & Hw1 & _).
  change (dr_workflow (prepared _ _ _ _ r0)) with (dr_workflow r0) in Hw1. congruence.
Qed.

Lemma run_try_fail {A} (m : M intake_db A) h s s' e :
  m s = (s', Err e) → try_except m (λ e, Some (raise (h e))) s = (s', Err (h e)).
Proof. intros H. by rewrite run_try_except, H. Qed.

Lemma run_try_ok {A} (m : M intake_db A) h s s' a :
  m s = (s', Ok a) → try_except m h s = (s', Ok a).
Proof. intros H. by rewrite run_try_except, H. Qed.

Lemma proposal_hash_stripped p : strip (proposal_hash p) = proposal_hash p.
Proof. apply strip_sha256_hex. Qed.

(** [service_activate] on a prepared draft gets to the activation itself. *)
Lemma service_activate_prepared tenant_id actor_id draft_id n token attempt now s r df p :
  identifier_ok 200 (strip tenant_id) → identifier_ok 200 (strip actor_id) →
  identifier_ok 100 (strip draft_id) →
  find_draft (strip tenant_id) (strip draft_id) (in_drafts s) = Some r →
  row_to_draft r = Ok df → validate_proposal p = Ok p →
  dr_proposal r = Some p → dr_hash r = Some (proposal_hash p) →
  service_activate normalize_payload tenant_id actor_id draft_id n token attempt now s =
    (r ← try_except
       (activate_draft normalize_payload
          (ActivationArgs (strip tenant_id) (strip actor_id) (strip draft_id) n
             (token_hash (strip tenant_id) (strip draft_id) n (proposal_hash p) (strip token)) p)
          attempt now)
       (λ e, Some (raise (activation_error e)));
     unless ((df_tenant r.1 == strip tenant_id) && (df_id r.1 == strip draft_id)
             && (df_revision r.1 =? n) && (df_status r.1 == Activated)
             && (ww_id r.2 == df_workflow df))
       (IntakeDraftActivationError "workflow activator returned invalid state");;
     mret r) s.
Proof.
  intros Ht Ha Hi Hf Hdf Hp Hpr Hh. unfold service_activate.
  rewrite run_outcome_bind, (proj2 (identifier_Ok _ _ _ (strip tenant_id))) by done.
  rewrite run_outcome_bind, (proj2 (identifier_Ok _ _ _ (strip actor_id))) by done.
  rewrite run_outcome_bind, (proj2 (identifier_Ok _ _ _ (strip draft_id))) by done.
  rewrite run_on_drafts, get_draft_run, Hf. unfold optional_outcome at 1. rewrite Hdf.
  cbn [mbind outcome_mbind].
  replace (IntakeDb (in_drafts s) (in_workflows s)) with s by by destruct s.
  apply row_to_draft_Ok in Hdf as (_ & _ & _ & _ & _ & Hpo & _ & ->).
  cbn [df_proposal df_hash df_workflow].
  rewrite Hpr in Hpo. simpl in Hpo. rewrite Hp in Hpo. injection Hpo as <-.
  rewrite Hh. cbn [fmap option_fmap option_map]. rewrite proposal_hash_stripped.
  rewrite !run_unless_bind.
  rewrite (bool_decide_eq_false_2 (proposal_hash p = "")) by apply sha256_hex_nonempty.
  cbn [negb]. by rewrite bool_decide_eq_true_2.
Qed.

(** A confirmation whose hash is not the stored one activates nothing. *)
Lemma activate_wrong_token a attempt now s r :
  intake_ok s → find_draft (av_tenant a) (av_draft a) (in_drafts s) = Some r →
  dr_token_hash r ≠ Some (av_token_hash a) →
  ∃ e, activate_draft normalize_payload a attempt now s = (s, Err e).
Proof.
  intros Hs Hf Hne.
  destruct (activate_draft_run normalize_payload a attempt now s Hs)
    as [H|(d & row & r' & p & s' & _ & H & _)]; [done|].
  destruct H as [Hf' (_ & _ & Ht) _ _ _ _ _ _]. rewrite Hf in Hf'. injection Hf' as ->. done.
Qed.

Lemma upsert_accepted w c u expected t rev :
  workflows_ok t → (upsert_workflow_record_in_transaction w c u expected t).2 = Ok rev →
  upsert_workflow_record_in_transaction w c u expected t =
    (upsert_row (WorkflowRow w rev c u) t, Ok rev) ∧
  (wf_channel w = telegram → exists_row (rival (wf_customer w) (wf_id w)) t = false).
Proof.
  intros Hok H. split.
  - destruct (upsert_run w c u expected t Hok) as [[e E]|[E _]]; rewrite E in H |- *; [done|].
    simpl in H. by injection H as ->.
  - intros Hc. revert H. unfold upsert_workflow_record_in_transaction. run.
    destruct (match select_one _ t with Some _ => _ | None => true end); [|done]. run.
    destruct (match expected with Some _ => _ | None => true end); [|done]. run.
    rewrite (bool_decide_eq_true_2 _ Hc). by destruct (exists_row _ t).
Qed.

(** The confirmed draft, with a workflow the table accepts, is activated. *)
Lemma activate_confirmed a attempt now s r df p w rev u :
  intake_ok s → find_draft (av_tenant a) (av_draft a) (in_drafts s) = Some r →
  row_to_draft r = Ok df → dr_status r = Prepared → dr_revision r = av_expected a →
  dr_token_hash r = Some (av_token_hash a) → av_token_hash a ≠ "" →
  dr_proposal r = Some p → validate_proposal p = Ok p → av_proposal a = p →
  df_workflow df = pr_workflow p → bounded_field 200 (av_actor a) = Some u →
  let existing := get_workflow (av_tenant a) (pr_workflow p) (in_workflows s) in
  normalize_payload existing (av_tenant a) p = Ok w →
  wf_id w = pr_workflow p → wf_channel w = pr_channel p → wf_customer w = strip (av_tenant a) →
  (upsert_workflow_record_in_transaction w
     (match existing with Some r => ww_created_at r | None => now end) now
     (Some (match existing with Some r => ww_revision r | None => 0 end)) (in_workflows s)).2
    = Ok rev →
  ∃ d s' c, activate_draft normalize_payload a attempt now s = (s', Ok (d, WorkflowRow w rev c now)) ∧
    df_id d = df_id df ∧ df_tenant d = df_tenant df ∧ df_workflow d = df_workflow df ∧
    df_proposal d = Some p ∧ df_revision d = av_expected a ∧ df_status d = Activated.
Proof.
  intros [Hd Hw] Hf Hdf Hs Hrev Htok Hne Hpr Hp Hap Hdw Hu existing Hn Hid Hch Hcu Hup.
  destruct (upsert_accepted _ _ _ _ _ _ Hw Hup) as [Hupr Hdup].
  pose proof (row_ok _ _ _ _ Hd Hf) as [_ Hcols]. rewrite Hs in Hcols.
  destruct Hcols as (_ & _ & Hprep & _ & _).
  assert (claim_refused (claim_of a attempt) r = None) as Hc.
  { unfold claim_refused. simpl. rewrite Hrev, Z.eqb_refl, Hs, bool_decide_eq_true_2 by done.
    rewrite Hprep. simpl. rewrite Hrev, Z.eqb_refl. simpl. rewrite Htok. simpl.
    rewrite bool_decide_eq_false_2, bool_decide_eq_true_2 by done. done. }
  destruct (claimed_ok (claim_of a attempt) now (in_drafts s) r Hd Hf Hc) as [Hd1 Hf1].
  change (cm_tenant (claim_of a attempt)) with (av_tenant a) in Hf1.
  change (cm_draft (claim_of a attempt)) with (av_draft a) in Hf1.
  destruct (row_to_draft_moved r (activating (claim_of a attempt) now r) df u Hdf Hu)
    as (c1 & Hc1 & _ & _ & Ew & Ep & _); try done.
  destruct (row_to_draft_moved r
    (activated (claim_of a attempt) now (activating (claim_of a attempt) now r)) df u Hdf Hu)
    as (d & Hd2 & E1 & E2 & E3 & E4 & E5 & E6); try done.
  assert (df_proposal df = Some p) as Hdp.
  { apply row_to_draft_Ok in Hdf as (_ & _ & _ & _ & _ & Ho & _). rewrite Hpr in Ho. simpl in Ho.
    rewrite Hp in Ho. by injection Ho as <-. }
  assert (is_draft (av_tenant a) (av_draft a) r = true) as His.
  { by apply is_draft_true; apply find_draft_Some in Hf as (_ & ? & ?). }
  eexists d, _, _. split; [|split_and!; first [congruence|exact E6]].
  unfold activate_draft. rewrite Hap, run_outcome_bind, Hp, !run_gets_bind, run_unless_bind.
  match goal with |- context [negb (?x && ?y && ?z)] =>
    assert (negb (x && y && z) = true) as -> end.
  { apply negb_true_iff, andb_false_iff. destruct (decide (pr_channel p = telegram)) as [Ht|Ht].
    - right. rewrite <- Hid, <- Hcu. apply Hdup. congruence.
    - left. by rewrite bool_decide_eq_false_2. }
  rewrite run_outcome_bind. fold existing. rewrite Hn, run_transaction, run_on_drafts.
  fold (claim_of a attempt). rewrite claim_transaction_run by done.
  change (cm_tenant (claim_of a attempt)) with (av_tenant a).
  change (cm_draft (claim_of a attempt)) with (av_draft a). rewrite Hf, Hc, Hc1.
  rewrite run_unless_bind, Ew, Ep, Hdw, Hdp, !bool_decide_eq_true_2 by done. cbn [andb].
  rewrite run_on_workflows. cbn [in_workflows in_drafts]. rewrite Hupr.
  rewrite run_on_drafts. cbn [in_drafts]. rewrite finish_transaction_run by done.
  change (cm_tenant (claim_of a attempt)) with (av_tenant a).
  change (cm_draft (claim_of a attempt)) with (av_draft a). rewrite Hf1.
  rewrite finish_guard_activating by done. rewrite Hd2. reflexivity.
Qed.

(** C38: a confirmation token activates exactly what was prepared: after a
    preparation, the returned token activates the draft with the workflow
    normalized from the prepared proposal, provided the workflow table takes
    it; a token that hashes differently activates nothing and changes
    nothing. The normalization is assumed to keep identifier, channel and
    tenant of the workflow. *)
Theorem confirmation_round_trip ops tenant_id actor_id draft_id n factory now d1 pp
    actor2 token attempt now2 :
  let s := run_intake normalize_payload ops no_intake in
  service_prepare proposal_normalizer tenant_id actor_id draft_id n factory now (in_drafts s)
    = (d1, Ok pp) →
  identifier_ok 200 (strip actor2) →
  let s1 := IntakeDb d1 (in_workflows s) in
  let tenant := strip tenant_id in
  let p := pp_proposal pp in
  let hash := token_hash tenant (strip draft_id) n (pp_hash pp) in
  let existing := get_workflow tenant (pr_workflow p) (in_workflows s) in
  let c := service_activate normalize_payload tenant_id actor2 draft_id n token attempt now2 s1 in
  if hash (strip token) == hash (pp_token pp) then
    ∀ w rev, normalize_payload existing tenant p = Ok w →
      wf_id w = pr_workflow p → wf_channel w = pr_channel p → wf_customer w = tenant →
      (upsert_workflow_record_in_transaction w
         (match existing with Some r => ww_created_at r | None => now2 end) now2
         (Some (match existing with Some r => ww_revision r | None => 0 end)) (in_workflows s)).2
        = Ok rev →
      ∃ d row, c.2 = Ok (d, row) ∧ ww_workflow row = w ∧ ww_revision row = rev ∧
        df_status d = Activated ∧ df_revision d = n ∧ df_proposal d = Some p
  else ∃ e, c = (s1, Err e).
Proof.
  intros s Hprep Hact2 s1 tenant p hash existing c.
  pose proof (run_intake_ok normalize_payload ops _ no_intake_ok) as [Hd Hw]. fold s in Hd, Hw.
  destruct (prepare_leaves _ _ _ _ _ _ _ _ _ Hd Hprep) as (Hd1 & Hti & Hdi & Hph & Hpv & Htok &
    r & df & Hf & Hdf & Hs & Hrev & Hprev & Hprop & Hhash & Hth & Hdw).
  assert (intake_ok s1) as Hs1 by by split.
  unfold c. rewrite (service_activate_prepared _ _ _ _ _ _ _ _ r df p); try done;
    [|by rewrite Hhash, Hph].
  fold p in Hph. rewrite <- Hph. fold tenant. fold (hash (strip token)). rewrite run_bind.
  set (a := ActivationArgs tenant (strip actor2) (strip draft_id) n (hash (strip token)) p).
  case_bool_decide as Heq.
  - intros w rev Hn Hid Hch Hcu Hup.
    destruct (activate_confirmed a attempt now2 s1 r df p w rev (strip actor2))
      as (d & s' & cr & Hrun & E1 & E2 & E3 & E4 & E5 & E6); try done.
    { simpl. by rewrite Heq. }
    { apply sha256_hex_nonempty. }
    { by apply bounded_field_ok. }
    { simpl. unfold tenant in *. by rewrite strip_stripped. }
    rewrite (run_try_ok _ _ _ _ _ Hrun), run_unless_bind.
    pose proof (find_draft_Some _ _ _ _ Hf) as (_ & Ht' & Hi').
    apply row_to_draft_Ok in Hdf as (B1 & B2 & _).
    rewrite Hi', bounded_field_ok in B1 by done. rewrite Ht', bounded_field_ok in B2 by done.
    injection B1 as B1. injection B2 as B2. cbn [fst snd].
    rewrite E1, E2, E5, E6, <- B1, <- B2.
    match goal with |- context [if ?b then _ else _] => assert (b = true) as -> end.
    { rewrite !andb_true_iff, !bool_decide_eq_true, Z.eqb_eq. split_and!; try done.
      by rewrite Hdw. }
    exists d, (WorkflowRow w rev cr now2). by split_and!.
  - destruct (activate_wrong_token a attempt now2 s1 r Hs1 Hf) as [e He].
    { rewrite Hth. simpl. intros [= H]. apply Heq. by symmetry. }
    rewrite (run_try_fail _ _ _ _ _ He). by eexists.
Qed.
End Confirmation.

Definition sample_normalize (_ : option workflow_row) (tenant : string) (p : proposal) :
    outcome workflow := Ok (Workflow (strip tenant) p "").
Definition sample_normalizer (_ : string) (_ : list (string * json)) : outcome proposal :=
  Ok sample_proposal.
Definition sample_token : string := "0123456789abcdef0123456789abcdef".

Lemma confirmation_round_trip_witness :
  ∃ d1 pp d row,
    service_prepare sample_normalizer "t" "owner" "d-1" 1 sample_token 2
      (in_drafts (run_intake sample_normalize [OpDraft sample_save] no_intake)) = (d1, Ok pp) ∧
    (service_activate sample_normalize "t" "owner" "d-1" 1 sample_token "att" 3
      (IntakeDb d1 (in_workflows (run_intake sample_normalize [OpDraft sample_save] no_intake)))).2
      = Ok (d, row) ∧
    df_status d = Activated ∧ ww_revision row = 1.
Proof.
  destruct (service_prepare sample_normalizer "t" "owner" "d-1" 1 sample_token 2
    (in_drafts (run_intake sample_normalize [OpDraft sample_save] no_intake)))
    as [d1 [pp|e]] eqn:E; [|by vm_compute in E].
  assert (pp_token pp = sample_token ∧ pp_proposal pp = sample_proposal) as [Ht Hp]
    by (vm_compute in E; by injection E as _ <-).
  pose proof (confirmation_round_trip sample_normalize sample_normalizer [OpDraft sample_save]
    "t" "owner" "d-1" 1 sample_token 2 d1 pp "owner" sample_token "att" 3 E) as H.
  cbv zeta in H. rewrite Ht, Hp in H.
  rewrite bool_decide_eq_true_2 in H by (by change (strip sample_token) with sample_token).
  assert (identifier_ok 200 (strip "owner")) as Hid by (split_and!; done).
  destruct (H Hid
    (Workflow "t" sample_proposal "") 1 eq_refl eq_refl eq_refl eq_refl eq_refl)
    as (d & row & Hc & _ & Hr & Hs & _).
  exists d1, pp, d, row. split_and!; [reflexivity|exact Hc|exact Hs|exact Hr].
Defined.
