(* ===== verification/IntakeRuns.v ===== *)
(** * Conversation state of intake workflows ([intake/store.py])

    The tables beside the workflows: conversation cursors, the queue of pending
    runs with its generations, the claims on outbound replies and the bookings,
    and the deletion of a workflow with what hangs on it. Timestamps are
    instants: the ISO texts the code compares order like them. *)

From S2P Require Import Prelude Sqlite PyText Json Drafts Intake.
#[local] Open Scope string_scope.
#[local] Open Scope list_scope.
#[local] Open Scope Z_scope.

(** ** Tables *)

Record cursor_row := CursorRow {
  cu_workflow : string;
  cu_conversation : string;
  cu_inbound_id : string;
  cu_inbound_time : string;
  cu_conversation_time : string;
  cu_outbound_id : string;
  cu_action_at : string;
  cu_updated_at : Z;
}.

Inductive run_status := RunPending | RunRunning.
#[global] Instance run_status_eq_dec : EqDecision run_status.
Proof. solve_decision. Defined.

Record pending_run := PendingRun {
  pn_workflow : string;
  pn_conversation : string;
  pn_customer : string;
  pn_event : string;
  pn_owner_chat : string;
  pn_generation : Z;
  pn_running : Z;
  pn_status : run_status;
  pn_due : Z;
  pn_last_inbound : string;
  pn_created_at : Z;
  pn_updated_at : Z;
}.
#[global] Instance pending_run_fields : Fields pending_run := λ r,
  PendingRun (pn_workflow r) (pn_conversation r) (pn_customer r) (pn_event r) (pn_owner_chat r)
    (pn_generation r) (pn_running r) (pn_status r) (pn_due r) (pn_last_inbound r)
    (pn_created_at r) (pn_updated_at r).

Inductive reply_status := ReplyPending | ReplyCompleted.
#[global] Instance reply_status_eq_dec : EqDecision reply_status.
Proof. solve_decision. Defined.

Record reply_row := ReplyRow {
  rp_workflow : string;
  rp_conversation : string;
  rp_message : string;
  rp_customer : string;
  rp_hash : string;
  rp_status : reply_status;
  rp_created_at : Z;
  rp_updated_at : Z;
}.
#[global] Instance reply_row_fields : Fields reply_row := λ r,
  ReplyRow (rp_workflow r) (rp_conversation r) (rp_message r) (rp_customer r) (rp_hash r)
    (rp_status r) (rp_created_at r) (rp_updated_at r).

(** A booking as the service hands it over and as the row holds it; the two
    [*_json] columns hold the objects they encode. *)
Record booking := Booking {
  bk_id : string;
  bk_workflow : string;
  bk_customer : string;
  bk_conversation : string;
  bk_status : string;
  bk_fields : list (string * json);
  bk_sink_status : string;
  bk_sink_ref : list (string * json);
  bk_effect_revision : Z;
  bk_effect_phase : string;
  bk_summary : string;
  bk_last_message_at : string;
  bk_opened_at : string;
  bk_completed_at : string;
  bk_edit_until : string;
  bk_created_at : string;
  bk_updated_at : string;
}.

Record runs_db := RunsDb {
  rd_workflows : workflow_db;
  rd_bookings : list booking;
  rd_cursors : list cursor_row;
  rd_pending : list pending_run;
  rd_replies : list reply_row;
}.
#[global] Instance runs_db_fields : Fields runs_db := λ d,
  RunsDb (rd_workflows d) (rd_bookings d) (rd_cursors d) (rd_pending d) (rd_replies d).
Definition no_runs : runs_db := RunsDb [] [] [] [] [].

(** ** Workflow listings and deletion *)

Definition newest_workflow (x y : workflow_row) : bool := ww_updated_at y <=? ww_updated_at x.
Definition list_workflows (customer_id : string) (include_disabled : bool) (t : workflow_db) :
    list workflow_row :=
  let customer := strip customer_id in
  if customer == "" then []
  else order_by newest_workflow
         (select (λ r, (ww_customer r == customer)
                       && (include_disabled || pr_enabled (wf_fields (ww_workflow r)))) t).

Definition delete_workflow_records (customer_id workflow_id : string) (expected : option Z) :
    M runs_db bool :=
  let customer := strip customer_id in
  let id := strip workflow_id in
  if (customer == "") || (id == "") then mret false
  else
    let owned r := has_workflow_id id r && (ww_customer r == customer) in
    transaction (
      row ← gets (λ d, select_one owned (rd_workflows d));
      match row with
      | None => mret false
      | Some r =>
          let revision := if ww_revision r =? 0 then 1 else ww_revision r in
          unless (match expected with Some n => revision =? n | None => true end)
            (ValueError ("expected revision " +:+ pretty (default 0 expected)
               +:+ ", found " +:+ pretty revision));;
          modify (λ d, RunsDb (delete_rows owned (rd_workflows d))
            (delete_rows (λ b, bk_workflow b == id) (rd_bookings d))
            (delete_rows (λ c, cu_workflow c == id) (rd_cursors d))
            (delete_rows (λ p, pn_workflow p == id) (rd_pending d))
            (rd_replies d));;
          mret true
      end).

(** ** Cursors *)

Definition cursor_of (workflow conversation : string) (c : cursor_row) : bool :=
  (cu_workflow c == workflow) && (cu_conversation c == conversation).

Definition get_cursor (workflow conversation : string) (d : runs_db) : option cursor_row :=
  select_one (cursor_of workflow conversation) (rd_cursors d).

Definition set_cursor (c : cursor_row) : M runs_db unit :=
  modify (λ d, d <| rd_cursors :=
    let mine := cursor_of (cu_workflow c) (cu_conversation c) in
    if exists_row mine (rd_cursors d) then update mine (λ _, c) (rd_cursors d)
    else rd_cursors d ++ [c] |>).

(** ** Replies *)

Definition reply_of (workflow conversation message : string) (r : reply_row) : bool :=
  (rp_workflow r == workflow) && (rp_conversation r == conversation) && (rp_message r == message).

(** The answers of [claim_reply_delivery]. *)
Inductive reply_claim := ReplyClaimed | ReplyConflict | ReplyIs (s : reply_status).
#[global] Instance reply_claim_eq_dec : EqDecision reply_claim.
Proof. solve_decision. Defined.

Definition reply_clash (r r' : reply_row) : bool :=
  reply_of (rp_workflow r) (rp_conversation r) (rp_message r) r'.

Definition claim_reply_delivery (workflow customer conversation message hash : string) (now : Z) :
    M runs_db reply_claim :=
  transaction (
    row ← gets (λ d, select_one (reply_of workflow conversation message) (rd_replies d));
    match row with
    | None =>
        try_modify (λ d,
          t ← insert_row reply_clash
                (ReplyRow workflow conversation message customer hash ReplyPending now now)
                (rd_replies d);
          Some (d <| rd_replies := t |>)) (IntegrityError "UNIQUE constraint failed");;
        mret ReplyClaimed
    | Some r =>
        unless (rp_customer r == customer)
          (PermissionError "reply delivery is owned by another tenant");;
        if negb (rp_hash r == hash) then mret ReplyConflict
        else mret (ReplyIs (rp_status r))
    end).

Definition complete_reply_delivery (workflow customer conversation message hash : string) (now : Z) :
    M runs_db unit :=
  let claimed r := reply_of workflow conversation message r && (rp_customer r == customer)
                   && (rp_hash r == hash) && (rp_status r == ReplyPending) in
  transaction (
    count ← gets (λ d, rowcount claimed (rd_replies d));
    modify (λ d, d <| rd_replies := update claimed
      (λ r, r <| rp_status := ReplyCompleted |> <| rp_updated_at := now |>) (rd_replies d) |>);;
    unless (count =? 1)%nat (RuntimeError "reply delivery claim was not found")).

(** ** Bookings *)

Definition text_or (s other : string) : string := if s == "" then other else s.

(** The column values of a booking; [now] is the text of the current instant. *)
Definition booking_columns (b : booking) (now : string) : booking :=
  Booking (bk_id b) (bk_workflow b) (bk_customer b) (bk_conversation b)
    (text_or (bk_status b) "active") (bk_fields b) (text_or (bk_sink_status b) "pending")
    (bk_sink_ref b) (Z.max 0 (bk_effect_revision b)) (bk_effect_phase b) (bk_summary b)
    (bk_last_message_at b) (text_or (bk_opened_at b) now) (bk_completed_at b) (bk_edit_until b)
    (text_or (bk_created_at b) now) (text_or (bk_updated_at b) now).

(** The columns [ON CONFLICT DO UPDATE] leaves alone are the stored row's. *)
Definition rebooked (b old : booking) : booking :=
  Booking (bk_id old) (bk_workflow old) (bk_customer old) (bk_conversation old) (bk_status b)
    (bk_fields b) (bk_sink_status b) (bk_sink_ref b) (bk_effect_revision b) (bk_effect_phase b)
    (bk_summary b) (bk_last_message_at b) (bk_opened_at b) (bk_completed_at b) (bk_edit_until b)
    (bk_created_at old) (bk_updated_at b).

Definition upsert_booking (b : booking) (now : string) : M runs_db unit :=
  let row := booking_columns b now in
  let mine x := bk_id x == bk_id row in
  modify (λ d, d <| rd_bookings :=
    if exists_row mine (rd_bookings d) then update mine (rebooked row) (rd_bookings d)
    else rd_bookings d ++ [row] |>).

Definition newest_booking (x y : booking) : bool := text_le (bk_updated_at y) (bk_updated_at x).
Definition list_bookings (customer_id workflow_id : string) (conversation_id : option string)
    (d : runs_db) : list booking :=
  let customer := strip customer_id in
  let workflow := strip workflow_id in
  let conversation := strip (default "" conversation_id) in
  if (customer == "") || (workflow == "") then []
  else order_by newest_booking
         (select (λ b, (bk_customer b == customer) && (bk_workflow b == workflow)
                       && ((conversation == "") || (bk_conversation b == conversation)))
            (rd_bookings d)).

(** ** Pending runs *)

Definition run_of (workflow conversation : string) (r : pending_run) : bool :=
  (pn_workflow r == workflow) && (pn_conversation r == conversation).

Definition find_run (workflow conversation : string) (d : runs_db) : option pending_run :=
  select_one (run_of workflow conversation) (rd_pending d).

Definition recover_interrupted_pending_runs (now now' : Z) : M runs_db unit :=
  modify (λ d, d <| rd_pending := update (λ r, pn_status r == RunRunning)
    (λ r, r <| pn_status := RunPending |> <| pn_running := 0 |> <| pn_due := now |>
            <| pn_updated_at := now' |>) (rd_pending d) |>).

Record queue_args := QueueArgs {
  qa_workflow : string;
  qa_customer : string;
  qa_conversation : string;
  qa_event : string;
  qa_due : Z;
  qa_owner_chat : string;
  qa_last_inbound : string;
}.

(** The row [queue_pending_run] writes, from the row it read. *)
Definition queued_run (a : queue_args) (row : option pending_run) (now : Z) : pending_run :=
  let generation := match row with Some r => pn_generation r + 1 | None => 1 end in
  let status := match row with Some r => pn_status r | None => RunPending end in
  let owner := strip (qa_owner_chat a) in
  PendingRun (strip (qa_workflow a)) (strip (qa_conversation a)) (strip (qa_customer a))
    (strip (qa_event a))
    (match row with Some r => text_or owner (strip (pn_owner_chat r)) | None => owner end)
    generation (match row with Some r => pn_running r | None => 0 end)
    status (qa_due a) (strip (qa_last_inbound a))
    (match row with Some r => pn_created_at r | None => now end) now.

(** [None] is the refusal for missing identifiers, [Some] the generation. *)
Definition queue_pending_run (a : queue_args) (now : Z) : M runs_db (option Z) :=
  let workflow := strip (qa_workflow a) in
  let conversation := strip (qa_conversation a) in
  if (workflow == "") || (strip (qa_customer a) == "") || (conversation == "") then mret None
  else
    row ← gets (find_run workflow conversation);
    let next := queued_run a row now in
    modify (λ d, d <| rd_pending :=
      match row with
      | Some _ => update (run_of workflow conversation) (λ _, next) (rd_pending d)
      | None => rd_pending d ++ [next]
      end |>);;
    mret (Some (pn_generation next)).

Definition due_le (x y : pending_run) : bool :=
  (pn_due x <? pn_due y) || ((pn_due x =? pn_due y) && (pn_updated_at x <=? pn_updated_at y)).
Definition is_due (now : Z) (r : pending_run) : bool :=
  (pn_status r == RunPending) && (pn_due r <=? now).

(** One row of the claiming loop: the compare-and-swap and whether it hit. *)
Definition claim_run_row (now : Z) (r : pending_run) : M runs_db (list pending_run) :=
  let g := pn_generation r in
  let mine r' := run_of (pn_workflow r) (pn_conversation r) r' && (pn_generation r' =? g)
                 && (pn_status r' == RunPending) in
  count ← gets (λ d, rowcount mine (rd_pending d));
  modify (λ d, d <| rd_pending := update mine
    (λ r, r <| pn_status := RunRunning |> <| pn_running := g |> <| pn_updated_at := now |>)
    (rd_pending d) |>);;
  mret (if (count =? 1)%nat then [r] else []).

Definition claim_due_pending_runs (limit now : Z) : M runs_db (list pending_run) :=
  let safe := Z.max 1 (Z.min (if limit =? 0 then 10 else limit) 50) in
  rows ← gets (λ d, take (Z.to_nat safe) (order_by due_le (select (is_due now) (rd_pending d))));
  claimed ← collect rows (claim_run_row now);
  mret (mjoin claimed).

Definition pending_run_is_still_running (workflow conversation : string) (generation : Z)
    (d : runs_db) : bool :=
  match find_run workflow conversation d with
  | None => false
  | Some r => (pn_status r == RunRunning) && (pn_running r =? generation)
  end.

(** [delay] is [stale_requeue_seconds] in the unit of the instants; [now],
    [now'], [now''] are the three readings of the clock. *)
Definition finish_pending_run (workflow conversation : string) (generation delay now now' now'' : Z) :
    M runs_db unit :=
  row ← gets (find_run workflow conversation);
  match row with
  | None => mret tt
  | Some r =>
      if generation <? pn_generation r then
        let due := if now' <? pn_due r then pn_due r else now + Z.max 0 delay in
        modify (λ d, d <| rd_pending := update (run_of workflow conversation)
          (λ r, r <| pn_status := RunPending |> <| pn_running := 0 |> <| pn_due := due |>
                  <| pn_updated_at := now'' |>) (rd_pending d) |>)
      else
        modify (λ d, d <| rd_pending := delete_rows (run_of workflow conversation) (rd_pending d) |>)
  end.

(** ** The worker system *)

(** What a worker holds: the conversation and the generation it claimed. *)
Record run_claim := RunClaim {
  rc_workflow : string;
  rc_conversation : string;
  rc_generation : Z;
}.
#[global] Instance run_claim_eq_dec : EqDecision run_claim.
Proof. solve_decision. Defined.

Definition claim_of_row (r : pending_run) : run_claim :=
  RunClaim (pn_workflow r) (pn_conversation r) (pn_generation r).
Definition rc_key (c : run_claim) : string * string := (rc_workflow c, rc_conversation c).
Definition pn_key (r : pending_run) : string * string := (pn_workflow r, pn_conversation r).

(** The store with the claims its workers are executing. *)
Record run_system := RunSystem {
  rs_db : runs_db;
  rs_inflight : list run_claim;
}.

(** A worker finishes only what it claimed; a restart drops the workers and
    recovers the queue before any new claim. *)
Inductive run_op :=
  | OpQueue (a : queue_args) (now : Z)
  | OpClaimDue (limit now : Z)
  | OpFinish (c : run_claim) (delay now now' now'' : Z)
  | OpRestart (now now' : Z)
  | OpCursor (c : cursor_row)
  | OpReply (workflow customer conversation message hash : string) (now : Z)
  | OpReplyDone (workflow customer conversation message hash : string) (now : Z)
  | OpBooking (b : booking) (now : string)
  | OpDeleteWorkflow (customer workflow : string) (expected : option Z).

Definition step_run (s : run_system) (op : run_op) : run_system :=
  let d := rs_db s in
  let keep {A} (m : M runs_db A) := RunSystem (m d).1 (rs_inflight s) in
  match op with
  | OpQueue a now => keep (queue_pending_run a now)
  | OpClaimDue limit now =>
      match claim_due_pending_runs limit now d with
      | (d', Ok rows) => RunSystem d' (rs_inflight s ++ (claim_of_row <$> rows))
      | (d', Err _) => RunSystem d' (rs_inflight s)
      end
  | OpFinish c delay now now' now'' =>
      if bool_decide (c ∈ rs_inflight s) then
        RunSystem (finish_pending_run (rc_workflow c) (rc_conversation c) (rc_generation c)
                     delay now now' now'' d).1
          (List.filter (λ c', negb (c' == c)) (rs_inflight s))
      else s
  | OpRestart now now' => RunSystem (recover_interrupted_pending_runs now now' d).1 []
  | OpCursor c => keep (set_cursor c)
  | OpReply w cu co m h now => keep (claim_reply_delivery w cu co m h now)
  | OpReplyDone w cu co m h now => keep (complete_reply_delivery w cu co m h now)
  | OpBooking b now => keep (upsert_booking b now)
  | OpDeleteWorkflow cu w e => keep (delete_workflow_records cu w e)
  end.
Definition run_system_ops (ops : list run_op) (s : run_system) : run_system := foldl step_run s ops.

Definition deletes_workflow (op : run_op) : bool :=
  match op with OpDeleteWorkflow _ _ _ => true | _ => false end.

(** The queue and the workers agree: a running row is exactly one claim in
    flight, of a generation the row has reached. *)
Record runs_ok (s : run_system) : Prop := {
  ro_keys : unique pn_key (rd_pending (rs_db s));
  ro_claims : NoDup (rc_key <$> rs_inflight s);
  ro_positive : ∀ r, r ∈ rd_pending (rs_db s) → 1 ≤ pn_generation r;
  ro_running : ∀ r, r ∈ rd_pending (rs_db s) → pn_status r = RunRunning →
    pn_running r ≤ pn_generation r ∧
    RunClaim (pn_workflow r) (pn_conversation r) (pn_running r) ∈ rs_inflight s;
  ro_inflight : ∀ c, c ∈ rs_inflight s → ∃ r, r ∈ rd_pending (rs_db s) ∧ pn_key r = rc_key c ∧
    pn_status r = RunRunning ∧ pn_running r = rc_generation c;
}.

Lemma run_of_true w c r : run_of w c r = true ↔ pn_key r = (w, c).
Proof.
  unfold run_of, pn_key. rewrite andb_true_iff, !bool_decide_eq_true.
  split; [by intros [-> ->]|by intros [= -> ->]].
Qed.

Lemma find_run_Some w c d r : find_run w c d = Some r → r ∈ rd_pending d ∧ pn_key r = (w, c).
Proof. intros [Hr Hk%run_of_true]%select_one_Some. done. Qed.

Lemma find_run_in w c d r : unique pn_key (rd_pending d) → r ∈ rd_pending d → pn_key r = (w, c) →
  find_run w c d = Some r.
Proof.
  intros Hu Hr Hk. destruct (find_run w c d) as [r'|] eqn:Hf.
  - apply find_run_Some in Hf as [Hr' Hk']. f_equal. apply (unique_eq pn_key (rd_pending d)); congruence.
  - eapply select_one_None in Hf; [|exact Hr]. by rewrite (proj2 (run_of_true w c r)) in Hf.
Qed.

Lemma find_run_None w c d : find_run w c d = None → ∀ r, r ∈ rd_pending d → pn_key r ≠ (w, c).
Proof.
  unfold find_run. rewrite select_one_None. intros H r Hr Hk.
  specialize (H r Hr). by rewrite (proj2 (run_of_true w c r)) in H.
Qed.

Lemma run_claim_eq c w v n : rc_key c = (w, v) → rc_generation c = n → c = RunClaim w v n.
Proof. destruct c. unfold rc_key. simpl. by intros [= -> ->] ->. Qed.

(** At most one claim per conversation. *)
Lemma claim_unique s c c' :
  runs_ok s → c ∈ rs_inflight s → c' ∈ rs_inflight s → rc_key c = rc_key c' → c = c'.
Proof. intros Hs. apply (unique_eq rc_key), Hs. Qed.

(** Steps that touch neither the queue nor the workers. *)
Lemma runs_ok_same s d : runs_ok s → rd_pending d = rd_pending (rs_db s) →
  runs_ok (RunSystem d (rs_inflight s)).
Proof. intros [H1 H2 H3 H4 H5] Heq. split; simpl; by rewrite ?Heq. Qed.

(** ** Queueing *)

Lemma key_queued a row now : pn_key (queued_run a row now) = (strip (qa_workflow a), strip (qa_conversation a)).
Proof. done. Qed.

Definition queue_refused (a : queue_args) : bool :=
  (strip (qa_workflow a) == "") || (strip (qa_customer a) == "") || (strip (qa_conversation a) == "").

Definition queued_db (a : queue_args) (now : Z) (d : runs_db) : runs_db :=
  let w := strip (qa_workflow a) in let c := strip (qa_conversation a) in
  let row := find_run w c d in
  d <| rd_pending := match row with
    | Some _ => update (run_of w c) (λ _, queued_run a row now) (rd_pending d)
    | None => rd_pending d ++ [queued_run a row now]
    end |>.

Lemma queue_run a now d :
  queue_pending_run a now d =
    if queue_refused a then (d, Ok None)
    else (queued_db a now d,
          Ok (Some (pn_generation (queued_run a (find_run (strip (qa_workflow a))
                                                   (strip (qa_conversation a)) d) now)))).
Proof.
  unfold queue_pending_run, queue_refused. destruct (_ || _); [done|].
  by rewrite run_gets_bind, run_modify_bind.
Qed.

(** The row of the conversation after queueing, the others as they were. *)
Lemma queued_rows a now d r :
  unique pn_key (rd_pending d) →
  r ∈ rd_pending (queued_db a now d) ↔
    r = queued_run a (find_run (strip (qa_workflow a)) (strip (qa_conversation a)) d) now ∨
    (r ∈ rd_pending d ∧ pn_key r ≠ (strip (qa_workflow a), strip (qa_conversation a))).
Proof.
  intros Hu. unfold queued_db. simpl.
  set (w := strip (qa_workflow a)). set (c := strip (qa_conversation a)).
  destruct (find_run w c d) as [r0|] eqn:Hf.
  - apply find_run_Some in Hf as [Hr0 Hk0]. rewrite elem_of_update. split.
    + intros (r1 & Hr1 & ->). destruct (run_of w c r1) eqn:E; [by left|right].
      split; [done|]. intros Hk%run_of_true. congruence.
    + intros [-> |[Hr Hk]].
      * exists r0. split; [done|]. by rewrite (proj2 (run_of_true w c r0)).
      * exists r. split; [done|]. destruct (run_of w c r) eqn:E; [|done].
        by apply run_of_true in E.
  - pose proof (find_run_None _ _ _ Hf) as Hn. rewrite elem_of_app, list_elem_of_singleton.
    split; [intros [Hr|Hr]; auto|intros [Hr|[Hr _]]; auto].
Qed.

Lemma queued_unique a now d : unique pn_key (rd_pending d) → unique pn_key (rd_pending (queued_db a now d)).
Proof.
  intros Hu. unfold queued_db. simpl. destruct (find_run _ _ d) as [r0|] eqn:Hf.
  - unfold unique. rewrite fmap_update; [done|]. by intros r _ Hk%run_of_true.
  - apply unique_app; [done|]. intros r Hr Hk. eapply find_run_None; [exact Hf|exact Hr|by rewrite <- Hk].
Qed.

Lemma queue_ok s a now :
  runs_ok s → runs_ok (RunSystem (queue_pending_run a now (rs_db s)).1 (rs_inflight s)).
Proof.
  intros Hs. rewrite queue_run. destruct (queue_refused a); [by destruct s|]. simpl.
  assert (Hrows := λ r, queued_rows a now (rs_db s) r (ro_keys _ Hs)).
  split; simpl.
  - apply queued_unique, Hs.
  - apply Hs.
  - intros r [-> |[Hr _]]%Hrows; [|by apply Hs]. simpl.
    destruct (find_run _ _ (rs_db s)) as [r0|] eqn:Hf; [|lia].
    apply find_run_Some in Hf as [Hr0 _]. pose proof (ro_positive _ Hs r0 Hr0). lia.
  - intros r [-> |[Hr _]]%Hrows; [|by apply Hs]. simpl.
    destruct (find_run _ _ (rs_db s)) as [r0|] eqn:Hf; [|done]. intros Hst.
    apply find_run_Some in Hf as [Hr0 Hk0]. destruct (ro_running _ Hs r0 Hr0 Hst) as [Hle Hin].
    split; [lia|]. injection Hk0 as <- <-. done.
  - intros cl Hcl. destruct (ro_inflight _ Hs cl Hcl) as (r0 & Hr0 & Hk & Hst & Hrun).
    destruct (decide (pn_key r0 = (strip (qa_workflow a), strip (qa_conversation a)))) as [Heq|Hne].
    + exists (queued_run a (find_run (strip (qa_workflow a)) (strip (qa_conversation a)) (rs_db s)) now). split; [by apply Hrows; left|].
      rewrite (find_run_in _ _ _ r0) by (done || apply Hs). simpl.
      split_and!; [|done|done]. rewrite key_queued. congruence.
    + exists r0. split; [|done]. apply Hrows. by right.
Qed.

(** ** Claiming *)

Definition started (now : Z) (r : pending_run) (d : runs_db) : runs_db :=
  d <| rd_pending := update (run_of (pn_workflow r) (pn_conversation r))
    (λ r, r <| pn_status := RunRunning |> <| pn_running := pn_generation r |>
            <| pn_updated_at := now |>) (rd_pending d) |>.

Lemma claim_run_row_run now r d :
  unique pn_key (rd_pending d) → r ∈ rd_pending d → pn_status r = RunPending →
  claim_run_row now r d = (started now r d, Ok [r]).
Proof.
  intros Hu Hr Hst. unfold claim_run_row. rewrite run_gets_bind, run_modify_bind, run_ret.
  set (mine := λ r', run_of _ _ r' && _ && _).
  assert (∀ r', r' ∈ rd_pending d → mine r' = run_of (pn_workflow r) (pn_conversation r) r') as Hmine.
  { intros r' Hr'. unfold mine. destruct (run_of _ _ r') eqn:E; [|done]. apply run_of_true in E.
    assert (r' = r) as -> by by apply (unique_eq pn_key (rd_pending d)).
    by rewrite Hst, Z.eqb_refl. }
  assert (rowcount mine (rd_pending d) = 1%nat) as ->.
  { apply (rowcount_one pn_key _ _ r); [done|done| |].
    - rewrite Hmine by done. by apply run_of_true.
    - intros r' Hr'. rewrite Hmine by done. by intros ->%run_of_true. }
  simpl. do 2 f_equal. unfold started. simpl.
  assert (∀ t t', t = t' → d <| rd_pending := t |> = d <| rd_pending := t' |>) as Hext by (by intros t t' ->).
  apply Hext, update_ext. intros r' Hr'. split; [by apply Hmine|].
  rewrite Hmine by done. intros Hk%run_of_true.
  by assert (r' = r) as -> by by apply (unique_eq pn_key (rd_pending d)).
Qed.

Lemma started_rows now r d r' :
  r' ∈ rd_pending (started now r d) ↔ ∃ r0, r0 ∈ rd_pending d ∧
    r' = if run_of (pn_workflow r) (pn_conversation r) r0
         then r0 <| pn_status := RunRunning |> <| pn_running := pn_generation r0 |>
                 <| pn_updated_at := now |> else r0.
Proof. apply elem_of_update. Qed.

Lemma started_ok s r now :
  runs_ok s → r ∈ rd_pending (rs_db s) → pn_status r = RunPending →
  runs_ok (RunSystem (started now r (rs_db s)) (rs_inflight s ++ [claim_of_row r])).
Proof.
  intros Hs Hr Hst. assert (∀ c, c ∈ rs_inflight s → rc_key c ≠ pn_key r) as Hfree.
  { intros c Hc Hk. destruct (ro_inflight _ Hs c Hc) as (r' & Hr' & Hk' & Hst' & _).
    assert (r' = r) as -> by (apply (unique_eq pn_key (rd_pending (rs_db s))); [apply Hs|done..|congruence]).
    congruence. }
  assert (∀ r0, r0 ∈ rd_pending (rs_db s) → run_of (pn_workflow r) (pn_conversation r) r0 = true → r0 = r)
    as Hown.
  { intros r0 Hr0 Hk%run_of_true. apply (unique_eq pn_key (rd_pending (rs_db s))); [apply Hs|done..]. }
  split; simpl.
  - unfold unique. rewrite fmap_update by done. apply Hs.
  - apply (unique_app rc_key); [apply Hs|]. intros c Hc Hk. by apply (Hfree c).
  - intros r' (r0 & Hr0 & ->)%started_rows. destruct (run_of _ _ r0); by apply (ro_positive _ Hs r0).
  - intros r' (r0 & Hr0 & ->)%started_rows. destruct (run_of _ _ r0) eqn:E; simpl.
    + intros _. split; [lia|]. apply Hown in E as ->; [|done]. apply elem_of_app. right.
      by apply list_elem_of_singleton.
    + intros Hst0. destruct (ro_running _ Hs r0 Hr0 Hst0) as [? ?]. split; [done|].
      apply elem_of_app. by left.
  - intros c [Hc| ->%list_elem_of_singleton]%elem_of_app.
    + destruct (ro_inflight _ Hs c Hc) as (r0 & Hr0 & Hk & Hst0 & Hrun). exists r0.
      split; [|done]. apply started_rows. exists r0. split; [done|].
      destruct (run_of _ _ r0) eqn:E; [|done]. apply Hown in E as ->; [|done]. congruence.
    + exists (r <| pn_status := RunRunning |> <| pn_running := pn_generation r |> <| pn_updated_at := now |>).
      split; [|done]. apply started_rows. exists r. split; [done|].
      by rewrite (proj2 (run_of_true _ _ r)).
Qed.

Lemma claim_loop now l s :
  runs_ok s → NoDup (pn_key <$> l) →
  (∀ r, r ∈ l → r ∈ rd_pending (rs_db s) ∧ pn_status r = RunPending) →
  ∃ d, collect l (claim_run_row now) (rs_db s) = (d, Ok ((λ r, [r]) <$> l)) ∧
    runs_ok (RunSystem d (rs_inflight s ++ (claim_of_row <$> l))) ∧
    (∀ r, r ∈ rd_pending (rs_db s) → pn_key r ∉ pn_key <$> l → r ∈ rd_pending d).
Proof.
  revert s. induction l as [|r l IH]; intros s Hs Hnd Hl.
  { exists (rs_db s). rewrite app_nil_r. split_and!; [done|by destruct s|done]. }
  rewrite fmap_cons in Hnd. apply NoDup_cons in Hnd as [Hni Hnd].
  destruct (Hl r (list_elem_of_here _ _)) as [Hr Hst].
  assert (∀ r', r' ∈ rd_pending (rs_db s) → pn_key r' ≠ pn_key r → r' ∈ rd_pending (started now r (rs_db s)))
    as Hkeep.
  { intros r' Hr' Hne. apply started_rows. exists r'. split; [done|].
    destruct (run_of _ _ r') eqn:E; [|done]. by apply run_of_true in E. }
  destruct (IH (RunSystem (started now r (rs_db s)) (rs_inflight s ++ [claim_of_row r])))
    as (d & Hd & Hok & Hrest); [by apply started_ok|done| |].
  - intros r' Hr'. destruct (Hl r' (list_elem_of_further _ _ _ Hr')) as [Hin Hst'].
    split; [|done]. apply Hkeep; [done|]. intros Hk. apply Hni. rewrite <- Hk.
    by apply list_elem_of_fmap_2.
  - exists d. simpl in *. split_and!.
    + rewrite run_bind, claim_run_row_run by (done || apply Hs). by rewrite run_bind, Hd.
    + by rewrite <- app_assoc in Hok.
    + intros r' Hr' Hk. rewrite not_elem_of_cons in Hk. destruct Hk as [Hne Hk].
      apply Hrest; [|done]. by apply Hkeep.
Qed.

Definition due_rows (limit now : Z) (d : runs_db) : list pending_run :=
  take (Z.to_nat (Z.max 1 (Z.min (if limit =? 0 then 10 else limit) 50)))
    (order_by due_le (select (is_due now) (rd_pending d))).

Lemma due_row_in limit now d r :
  r ∈ due_rows limit now d → r ∈ rd_pending d ∧ pn_status r = RunPending ∧ pn_due r ≤ now.
Proof.
  intros (i & Hi & _)%elem_of_take. apply list_elem_of_lookup_2 in Hi. revert Hi.
  rewrite order_by_perm. intros [Hr Hd]%elem_of_select. unfold is_due in Hd.
  apply andb_true_iff in Hd as [Hst%bool_decide_eq_true Hdue%Z.leb_le]. done.
Qed.

Lemma due_rows_keys limit now d : unique pn_key (rd_pending d) → NoDup (pn_key <$> due_rows limit now d).
Proof.
  intros Hu. unfold due_rows. rewrite fmap_take.
  eapply sublist_NoDup; [|apply sublist_take].
  change (unique pn_key (order_by due_le (select (is_due now) (rd_pending d)))).
  eapply unique_perm; [symmetry; apply order_by_perm|]. by apply unique_select.
Qed.

Lemma mjoin_singles {A} (l : list A) : mjoin ((λ x, [x]) <$> l) = l.
Proof. induction l as [|x l IH]; [done|]. rewrite fmap_cons. by rewrite <- IH at 2. Qed.

(** A claim takes the due rows, all of them pending, and starts each one. *)
Lemma claim_due_run limit now s :
  runs_ok s →
  ∃ d, claim_due_pending_runs limit now (rs_db s) = (d, Ok (due_rows limit now (rs_db s))) ∧
    runs_ok (RunSystem d (rs_inflight s ++ (claim_of_row <$> due_rows limit now (rs_db s)))) ∧
    (∀ r, r ∈ rd_pending (rs_db s) → pn_key r ∉ pn_key <$> due_rows limit now (rs_db s) → r ∈ rd_pending d).
Proof.
  intros Hs. unfold claim_due_pending_runs. rewrite run_gets_bind.
  fold (due_rows limit now (rs_db s)).
  destruct (claim_loop now (due_rows limit now (rs_db s)) s Hs) as (d & Hd & Hok & Hrest).
  - apply due_rows_keys, Hs.
  - intros r Hr%due_row_in. by destruct Hr as (? & ? & _).
  - exists d. by rewrite run_bind, Hd, run_ret, mjoin_singles.
Qed.

(** ** Finishing and restarting *)

Definition without (c : run_claim) (l : list run_claim) : list run_claim :=
  List.filter (λ c', negb (c' == c)) l.

Lemma elem_without c c' l : c' ∈ without c l ↔ c' ∈ l ∧ c' ≠ c.
Proof.
  change (without c l) with (select (λ c', negb (c' == c)) l).
  rewrite elem_of_select, negb_true_iff, bool_decide_eq_false. done.
Qed.

Definition requeued (c : run_claim) (due now : Z) (d : runs_db) : runs_db :=
  d <| rd_pending := update (run_of (rc_workflow c) (rc_conversation c))
    (λ r, r <| pn_status := RunPending |> <| pn_running := 0 |> <| pn_due := due |>
            <| pn_updated_at := now |>) (rd_pending d) |>.
Definition dropped (c : run_claim) (d : runs_db) : runs_db :=
  d <| rd_pending := delete_rows (run_of (rc_workflow c) (rc_conversation c)) (rd_pending d) |>.

(** Finishing a claim in flight: the conversation is queued again exactly when
    something was queued since the claim. *)
Lemma finish_run s c delay now now' now'' :
  runs_ok s → c ∈ rs_inflight s →
  ∃ r, find_run (rc_workflow c) (rc_conversation c) (rs_db s) = Some r ∧
    pn_status r = RunRunning ∧ pn_running r = rc_generation c ∧
    finish_pending_run (rc_workflow c) (rc_conversation c) (rc_generation c) delay now now' now'' (rs_db s) =
      ((if rc_generation c <? pn_generation r
        then requeued c (if now' <? pn_due r then pn_due r else now + Z.max 0 delay) now'' (rs_db s)
        else dropped c (rs_db s)), Ok tt).
Proof.
  intros Hs Hc. destruct (ro_inflight _ Hs c Hc) as (r & Hr & Hk & Hst & Hrun).
  assert (find_run (rc_workflow c) (rc_conversation c) (rs_db s) = Some r) as Hf
    by (apply find_run_in; [apply Hs|done|exact Hk]).
  exists r. split_and!; [done..|]. unfold finish_pending_run. rewrite run_gets_bind, Hf.
  by destruct (rc_generation c <? pn_generation r).
Qed.

Lemma finish_ok s c d :
  runs_ok s → c ∈ rs_inflight s →
  d = dropped c (rs_db s) ∨ (∃ due now, d = requeued c due now (rs_db s)) →
  runs_ok (RunSystem d (without c (rs_inflight s))).
Proof.
  intros Hs Hc Hd.
  assert (∀ r', r' ∈ rd_pending d → pn_key r' ≠ rc_key c → r' ∈ rd_pending (rs_db s)) as Hback.
  { intros r' Hr' Hk. destruct Hd as [-> |(due & now & ->)].
    - by apply elem_of_delete_rows in Hr' as [? _].
    - apply elem_of_update in Hr' as (r0 & Hr0 & ->). destruct (run_of _ _ r0) eqn:E; [|done].
      by apply run_of_true in E. }
  assert (∀ r', r' ∈ rd_pending (rs_db s) → pn_key r' ≠ rc_key c → r' ∈ rd_pending d) as Hforth.
  { intros r' Hr' Hk. assert (run_of (rc_workflow c) (rc_conversation c) r' = false) as E.
    { destruct (run_of _ _ r') eqn:E; [|done]. by apply run_of_true in E. }
    destruct Hd as [-> |(due & now & ->)].
    - by apply elem_of_delete_rows.
    - apply elem_of_update. exists r'. by rewrite E. }
  assert (∀ r', r' ∈ rd_pending d → pn_key r' = rc_key c →
    pn_status r' = RunPending ∧ 1 ≤ pn_generation r') as Hmine.
  { intros r' Hr' Hk. destruct Hd as [-> |(due & now & ->)].
    - apply elem_of_delete_rows in Hr' as [_ E]. by rewrite (proj2 (run_of_true _ _ r')) in E.
    - apply elem_of_update in Hr' as (r0 & Hr0 & ->). destruct (run_of _ _ r0) eqn:E.
      + split; [done|]. by apply (ro_positive _ Hs r0).
      + exfalso. by rewrite (proj2 (run_of_true _ _ r0)) in E. }
  split; simpl.
  - destruct Hd as [-> |(due & now & ->)]; simpl.
    + by apply unique_delete_rows, Hs.
    + unfold unique. rewrite fmap_update by done. apply Hs.
  - apply (unique_select rc_key), Hs.
  - intros r' Hr'. destruct (decide (pn_key r' = rc_key c)) as [Hk|Hk].
    + by apply Hmine.
    + by apply Hs, Hback.
  - intros r' Hr' Hst. assert (pn_key r' ≠ rc_key c) as Hk.
    { intros Hk. destruct (Hmine r' Hr' Hk). congruence. }
    destruct (ro_running _ Hs r' (Hback r' Hr' Hk) Hst) as [? Hin]. split; [done|].
    apply elem_without. split; [done|]. intros Heq. apply Hk. by rewrite <- Heq.
  - intros c' [Hc' Hne]%elem_without.
    destruct (ro_inflight _ Hs c' Hc') as (r' & Hr' & Hk' & Hst & Hrun). exists r'.
    split; [|done]. apply Hforth; [done|]. intros Hk. apply Hne.
    by apply (claim_unique s); [..|congruence].
Qed.

Lemma restart_ok s now now' :
  runs_ok s → runs_ok (RunSystem (recover_interrupted_pending_runs now now' (rs_db s)).1 []).
Proof.
  intros Hs. unfold recover_interrupted_pending_runs. rewrite run_modify. split; simpl.
  - unfold unique. rewrite fmap_update by done. apply Hs.
  - constructor.
  - intros r (r0 & Hr0 & ->)%elem_of_update. destruct (_ == _); by apply (ro_positive _ Hs r0).
  - intros r (r0 & Hr0 & ->)%elem_of_update. by case_bool_decide.
  - intros c Hc. by apply not_elem_of_nil in Hc.
Qed.

(** ** The other tables *)

Lemma claim_reply_pending w cu co m h now l :
  preserves (λ d, rd_pending d = l) (claim_reply_delivery w cu co m h now).
Proof.
  unfold claim_reply_delivery. apply preserves_transaction, preserves_bind; [auto with tulpa|].
  intros [r|].
  - apply preserves_bind; [auto with tulpa|]. intros _. destruct (negb _); auto with tulpa.
  - apply preserves_bind; [|auto with tulpa]. apply preserves_try_modify. intros d d' <-.
    destruct (insert_row _ _ _); [|done]. by intros [= <-].
Qed.

Lemma complete_reply_pending w cu co m h now l :
  preserves (λ d, rd_pending d = l) (complete_reply_delivery w cu co m h now).
Proof.
  unfold complete_reply_delivery. apply preserves_transaction, preserves_bind; [auto with tulpa|].
  intros n. apply preserves_bind; [by apply preserves_modify|]. auto with tulpa.
Qed.

Lemma step_run_ok s op : runs_ok s → deletes_workflow op = false → runs_ok (step_run s op).
Proof.
  intros Hs Hop. destruct op; simpl; try done.
  - by apply queue_ok.
  - by destruct (claim_due_run limit now s Hs) as (d & -> & Hok & _).
  - case_bool_decide as Hc; [|done].
    destruct (finish_run s c delay now now' now'' Hs Hc) as (r & _ & _ & _ & ->). simpl.
    apply finish_ok; [done..|]. destruct (_ <? _); [right; eauto|by left].
  - by apply restart_ok.
  - by apply runs_ok_same.
  - apply runs_ok_same; [done|]. by apply claim_reply_pending.
  - apply runs_ok_same; [done|]. by apply complete_reply_pending.
  - by apply runs_ok_same.
Qed.

Lemma run_system_ok ops s :
  runs_ok s → Forall (λ op, deletes_workflow op = false) ops → runs_ok (run_system_ops ops s).
Proof.
  revert s. induction ops as [|op ops IH]; intros s Hs Hops; [done|].
  apply Forall_cons in Hops as [Hop Hops]. simpl. apply IH; [by apply step_run_ok|done].
Qed.

Lemma no_runs_ok : runs_ok (RunSystem no_runs []).
Proof. split; simpl; try (intros ? []%not_elem_of_nil); constructor. Qed.

(** ** No message is lost *)

Definition finishes (w c : string) (g : Z) (op : run_op) : bool :=
  match op with
  | OpFinish cl _ _ _ _ => (rc_workflow cl == w) && (rc_conversation cl == c) && (g <=? rc_generation cl)
  | _ => false
  end.

(** The conversation is queued at generation [g] or later. *)
Definition kept (w c : string) (g : Z) (l : list pending_run) : Prop :=
  ∃ r, r ∈ l ∧ pn_key r = (w, c) ∧ g ≤ pn_generation r.

Lemma kept_update w c g p f l :
  (∀ r, pn_key (f r) = pn_key r ∧ pn_generation (f r) = pn_generation r) →
  kept w c g l → kept w c g (update p f l).
Proof.
  intros Hf (r & Hr & Hk & Hg). exists (if p r then f r else r).
  split; [apply elem_of_update; eauto|]. destruct (p r); [|done].
  destruct (Hf r) as [-> ->]. done.
Qed.

Lemma claim_keeps w c g limit now :
  preserves (λ d, kept w c g (rd_pending d)) (claim_due_pending_runs limit now).
Proof.
  unfold claim_due_pending_runs. apply preserves_bind; [auto with tulpa|]. intros rows.
  apply preserves_bind; [|auto with tulpa]. apply preserves_collect. intros r _.
  unfold claim_run_row. apply preserves_bind; [auto with tulpa|]. intros n.
  apply preserves_bind; [|auto with tulpa]. apply preserves_modify. intros d.
  by apply kept_update.
Qed.

Lemma step_keeps w c g s op :
  runs_ok s → deletes_workflow op = false → finishes w c g op = false →
  kept w c g (rd_pending (rs_db s)) → kept w c g (rd_pending (rs_db (step_run s op))).
Proof.
  intros Hs Hdel Hfin Hk. destruct op; simpl; try done.
  - rewrite queue_run. destruct (queue_refused a); [done|]. simpl.
    destruct Hk as (r & Hr & Hk & Hg).
    assert (Hrows := λ r, queued_rows a now (rs_db s) r (ro_keys _ Hs)).
    destruct (decide ((w, c) = (strip (qa_workflow a), strip (qa_conversation a)))) as [Heq|Hne].
    + eexists. split; [by apply Hrows; left|]. split; [by rewrite key_queued|].
      rewrite (find_run_in _ _ _ r) by (by apply Hs || congruence). simpl. lia.
    + exists r. split; [|done]. apply Hrows. right. split; [done|]. congruence.
  - pose proof (claim_keeps w c g limit now (rs_db s) Hk) as H.
    by destruct (claim_due_pending_runs limit now (rs_db s)) as [d [rows|e]].
  - case_bool_decide as Hc; [|done].
    destruct (finish_run s c0 delay now now' now'' Hs Hc) as (r0 & Hf & _ & _ & ->). simpl.
    destruct (Z.ltb_spec (rc_generation c0) (pn_generation r0)) as [Hlt|Hge];
      [by apply kept_update|].
    destruct Hk as (r & Hr & Hk & Hg). exists r. split; [|done].
    apply elem_of_delete_rows. split; [done|]. destruct (run_of _ _ r) eqn:E; [|done]. exfalso.
    apply run_of_true in E. rewrite Hk in E. injection E as -> ->. simpl in Hfin.
    rewrite !bool_decide_eq_true_2 in Hfin by done. apply Z.leb_gt in Hfin.
    apply find_run_Some in Hf as [Hr0 Hk0].
    assert (r = r0) as -> by (apply (unique_eq pn_key (rd_pending (rs_db s))); [apply Hs|done..|congruence]).
    lia.
  - by apply kept_update.
  - assert (H := claim_reply_pending workflow customer conversation message hash now _ (rs_db s) eq_refl).
    simpl in H. by rewrite H.
  - assert (H := complete_reply_pending workflow customer conversation message hash now _ (rs_db s) eq_refl).
    simpl in H. by rewrite H.
Qed.

Lemma run_keeps w c g ops s :
  runs_ok s → Forall (λ op, deletes_workflow op = false) ops →
  Forall (λ op, finishes w c g op = false) ops →
  kept w c g (rd_pending (rs_db s)) → kept w c g (rd_pending (rs_db (run_system_ops ops s))).
Proof.
  revert s. induction ops as [|op ops IH]; intros s Hs Hd Hf Hk; [done|].
  apply Forall_cons in Hd as [Hd Hds]. apply Forall_cons in Hf as [Hf Hfs]. simpl.
  apply IH; [by apply step_run_ok|done|done|]. by apply step_keeps.
Qed.

(** ** Replies *)

Definition held (w co m cu h : string) (done_ : bool) (l : list reply_row) : Prop :=
  ∃ r, select_one (reply_of w co m) l = Some r ∧ rp_customer r = cu ∧ rp_hash r = h ∧
       (done_ = true → rp_status r = ReplyCompleted).

Lemma held_app w co m cu h b l l' : held w co m cu h b l → held w co m cu h b (l ++ l').
Proof. intros (r & Hr & H). exists r. by rewrite select_one_app, Hr. Qed.

Lemma held_complete w co m cu h b p now l :
  held w co m cu h b l →
  held w co m cu h b (update p (λ r, r <| rp_status := ReplyCompleted |> <| rp_updated_at := now |>) l).
Proof.
  intros (r & Hr & Hc & Hh & Hb). unfold held. rewrite select_one_update by done. rewrite Hr. simpl.
  eexists. split; [done|]. by destruct (p r).
Qed.

Lemma claim_reply_run w cu co m h now d :
  claim_reply_delivery w cu co m h now d =
    match select_one (reply_of w co m) (rd_replies d) with
    | None => (d <| rd_replies := rd_replies d ++ [ReplyRow w co m cu h ReplyPending now now] |>,
               Ok ReplyClaimed)
    | Some r =>
        if rp_customer r == cu then
          (d, Ok (if rp_hash r == h then ReplyIs (rp_status r) else ReplyConflict))
        else (d, Err (PermissionError "reply delivery is owned by another tenant"))
    end.
Proof.
  unfold claim_reply_delivery. rewrite run_transaction, run_gets_bind.
  destruct (select_one _ _) as [r|] eqn:E.
  - rewrite run_unless_bind. destruct (rp_customer r == cu); [|done]. by destruct (rp_hash r == h).
  - rewrite run_try_modify_bind, insert_row_ok; [done|]. intros r Hr.
    rewrite select_one_None in E. by apply E.
Qed.

Lemma step_held w co m cu h b s op :
  held w co m cu h b (rd_replies (rs_db s)) → held w co m cu h b (rd_replies (rs_db (step_run s op))).
Proof.
  intros Hh. assert (∀ {A} (x : M runs_db A), preserves (λ d, rd_replies d = rd_replies (rs_db s)) x →
    held w co m cu h b (rd_replies (x (rs_db s)).1)) as Hsame.
  { intros A x Hx. by rewrite (Hx (rs_db s) eq_refl). }
  destruct op; simpl; try done.
  - apply Hsame. unfold queue_pending_run. destruct (_ || _); [auto with tulpa|].
    apply preserves_bind; [auto with tulpa|]. intros row.
    apply preserves_bind; [by apply preserves_modify|]. auto with tulpa.
  - assert (held w co m cu h b (rd_replies (claim_due_pending_runs limit now (rs_db s)).1)) as H.
    { apply Hsame. unfold claim_due_pending_runs. apply preserves_bind; [auto with tulpa|]. intros rows.
      apply preserves_bind; [|auto with tulpa]. apply preserves_collect. intros r _.
      apply preserves_bind; [auto with tulpa|]. intros n.
      apply preserves_bind; [by apply preserves_modify|]. auto with tulpa. }
    by destruct (claim_due_pending_runs _ _ _) as [d [l|e]].
  - case_bool_decide; [|done]. apply Hsame. unfold finish_pending_run.
    apply preserves_bind; [auto with tulpa|]. intros [r|]; [|auto with tulpa].
    destruct (_ <? _); by apply preserves_modify.
  - rewrite claim_reply_run. destruct (select_one _ _) as [r|]; [by destruct (_ == _)|].
    by apply held_app.
  - unfold complete_reply_delivery. rewrite run_transaction, run_gets_bind, run_modify_bind, run_unless.
    destruct (_ =? 1)%nat; [|done]. by apply held_complete.
  - apply Hsame. unfold delete_workflow_records. destruct (_ || _); [auto with tulpa|].
    apply preserves_transaction, preserves_bind; [auto with tulpa|]. intros [r|]; [|auto with tulpa].
    apply preserves_bind; [auto with tulpa|]. intros _.
    apply preserves_bind; [by apply preserves_modify|]. auto with tulpa.
Qed.

Lemma run_held w co m cu h b ops s :
  held w co m cu h b (rd_replies (rs_db s)) →
  held w co m cu h b (rd_replies (rs_db (run_system_ops ops s))).
Proof. revert s. induction ops as [|op ops IH]; intros s Hh; [done|]. simpl. by apply IH, step_held. Qed.

Lemma held_claim w co m cu h b d cu' h' now :
  held w co m cu h b (rd_replies d) →
  claim_reply_delivery w cu' co m h' now d =
    (d, if cu == cu' then Ok (if h == h' then ReplyIs (match select_one (reply_of w co m) (rd_replies d) with
                                                       | Some r => rp_status r | None => ReplyPending end)
                              else ReplyConflict)
        else Err (PermissionError "reply delivery is owned by another tenant")).
Proof.
  intros (r & Hr & Hc & Hh & _). rewrite claim_reply_run, Hr, Hc, Hh. by destruct (cu == cu').
Qed.

(** ** Properties *)

(** C22: one run per conversation: whatever is queued, claimed, finished and
    recovered (as long as no workflow is deleted), at most one worker holds a
    claim on a conversation, the rows marked running are exactly the claims in
    flight, at a generation the row has reached, and a claim returns exactly
    the oldest due rows, each pending before and running for that worker
    after. *)
Theorem one_run_per_conversation ops limit now :
  Forall (λ op, deletes_workflow op = false) ops →
  let s := run_system_ops ops (RunSystem no_runs []) in
  runs_ok s ∧
  ∃ d, claim_due_pending_runs limit now (rs_db s) = (d, Ok (due_rows limit now (rs_db s))) ∧
    ∀ r, r ∈ due_rows limit now (rs_db s) →
      pn_status r = RunPending ∧
      (∀ c, c ∈ rs_inflight s → rc_key c ≠ pn_key r) ∧
      pending_run_is_still_running (pn_workflow r) (pn_conversation r) (pn_generation r) d = true.
Proof.
  intros Hops. cbv zeta. pose proof (run_system_ok ops _ no_runs_ok Hops) as Hs.
  split; [done|]. destruct (claim_due_run limit now _ Hs) as (d & Hd & Hok & _).
  exists d. split; [done|]. intros r Hr. pose proof (due_row_in _ _ _ _ Hr) as (Hin & Hst & _).
  split_and!; [done| |].
  - intros c Hc Hk. destruct (ro_inflight _ Hs c Hc) as (r' & Hr' & Hk' & Hst' & _).
    assert (r' = r) as -> by (eapply (unique_eq pn_key); [apply (ro_keys _ Hs)|done..|congruence]).
    congruence.
  - destruct (ro_inflight _ Hok (claim_of_row r)) as (r' & Hr' & Hk' & Hst' & Hrun).
    { apply elem_of_app. right. by apply list_elem_of_fmap_2. }
    unfold pending_run_is_still_running.
    rewrite (find_run_in (pn_workflow r) (pn_conversation r) d r' (ro_keys _ Hok) Hr' Hk'), Hst', Hrun.
    simpl.
    by rewrite Z.eqb_refl.
Qed.

(** No message is lost: once a message has been queued at a generation, the
    conversation stays queued at that generation or a later one, waiting or
    held by a worker, until a worker that claimed that generation or a later
    one finishes; a worker that started before the message was queued cannot
    consume it. *)
Theorem queued_message_kept ops a now d g ops' :
  Forall (λ op, deletes_workflow op = false) ops →
  let s := run_system_ops ops (RunSystem no_runs []) in
  let w := strip (qa_workflow a) in let c := strip (qa_conversation a) in
  queue_pending_run a now (rs_db s) = (d, Ok (Some g)) →
  Forall (λ op, deletes_workflow op = false) ops' →
  Forall (λ op, finishes w c g op = false) ops' →
  let s' := run_system_ops ops' (RunSystem d (rs_inflight s)) in
  ∃ r, find_run w c (rs_db s') = Some r ∧ g ≤ pn_generation r ∧
    (pn_status r = RunPending ∨ RunClaim w c (pn_running r) ∈ rs_inflight s').
Proof.
  intros Hops. cbv zeta. pose proof (run_system_ok ops _ no_runs_ok Hops) as Hs.
  set (s := run_system_ops ops _) in *. intros Hq Hops' Hfin.
  pose proof (queue_ok s a now Hs) as Hs1. rewrite Hq in Hs1. simpl in Hs1.
  assert (kept (strip (qa_workflow a)) (strip (qa_conversation a)) g (rd_pending d)) as Hk.
  { revert Hq. rewrite queue_run. destruct (queue_refused a); [done|]. intros [= <- <-].
    eexists. split; [apply queued_rows; [apply Hs|by left]|]. split; [apply key_queued|done]. }
  pose proof (run_system_ok ops' _ Hs1 Hops') as Hs2.
  destruct (run_keeps _ _ g ops' _ Hs1 Hops' Hfin Hk) as (r & Hr & Hkey & Hg).
  exists r. split_and!; [by apply find_run_in; [apply Hs2|..]|done|].
  destruct (pn_status r) eqn:Hst; [by left|right].
  destruct (ro_running _ Hs2 r Hr Hst) as [_ Hin]. injection Hkey as <- <-. done.
Qed.

(** An outbound reply is claimed once: after a claim was granted, whatever
    happens next (workflow deletion included), no later claim for the same
    message is granted: the same reply gets its status, a different one is a
    conflict, another tenant is refused, and none of them writes anything; once
    the delivery is completed that status is what every later claim gets. *)
Theorem reply_claimed_once ops ops' w cu co m h now d :
  let s := run_system_ops ops (RunSystem no_runs []) in
  claim_reply_delivery w cu co m h now (rs_db s) = (d, Ok ReplyClaimed) →
  let d' := rs_db (run_system_ops ops' (RunSystem d (rs_inflight s))) in
  (∀ now', ∃ st, claim_reply_delivery w cu co m h now' d' = (d', Ok (ReplyIs st))) ∧
  (∀ h' now', h' ≠ h → claim_reply_delivery w cu co m h' now' d' = (d', Ok ReplyConflict)) ∧
  (∀ cu' h' now', cu' ≠ cu →
     ∃ e, claim_reply_delivery w cu' co m h' now' d' = (d', Err (PermissionError e))) ∧
  (∀ now1 d1 ops2 now2, complete_reply_delivery w cu co m h now1 d' = (d1, Ok tt) →
     let d2 := rs_db (run_system_ops ops2 (RunSystem d1 [])) in
     claim_reply_delivery w cu co m h now2 d2 = (d2, Ok (ReplyIs ReplyCompleted))).
Proof.
  cbv zeta. set (s := run_system_ops ops _). intros Hc.
  assert (held w co m cu h false (rd_replies d)) as Hh.
  { revert Hc. rewrite claim_reply_run. destruct (select_one _ _) as [r|] eqn:E.
    - by destruct (rp_customer r == cu), (rp_hash r == h).
    - intros [= <-]. exists (ReplyRow w co m cu h ReplyPending now now).
      split; [|done]. simpl. rewrite select_one_app, E. simpl.
      unfold reply_of. simpl. by rewrite !bool_decide_eq_true_2. }
  pose proof (run_held w co m cu h false ops' (RunSystem d (rs_inflight s)) Hh) as Hh'.
  set (d' := rs_db _) in *. split_and!.
  - intros now'. rewrite (held_claim _ _ _ _ _ _ _ cu h now' Hh'), !bool_decide_eq_true_2 by done.
    by eexists.
  - intros h' now' Hne. rewrite (held_claim _ _ _ _ _ _ _ cu h' now' Hh').
    by rewrite bool_decide_eq_true_2, bool_decide_eq_false_2.
  - intros cu' h' now' Hne. rewrite (held_claim _ _ _ _ _ _ _ cu' h' now' Hh').
    rewrite bool_decide_eq_false_2 by done. by eexists.
  - intros now1 d1 ops2 now2 Hdone.
    assert (held w co m cu h true (rd_replies d1)) as Hh1.
    { revert Hdone. unfold complete_reply_delivery.
      rewrite run_transaction, run_gets_bind, run_modify_bind, run_unless.
      destruct (_ =? 1)%nat eqn:Hn; [|done]. intros [= <-]. simpl.
      destruct Hh' as (r & Hr & Hcu & Hha & _). unfold held.
      rewrite select_one_update by done. rewrite Hr. simpl. eexists. split; [done|].
      apply select_one_Some in Hr as [_ Hr]. rewrite Hr, Hcu, Hha, !bool_decide_eq_true_2 by done. simpl.
      case_bool_decide as Hst; [done|]. split_and!; [done..|]. intros _.
      by destruct (rp_status r). }
    pose proof (run_held w co m cu h true ops2 (RunSystem d1 []) Hh1) as Hh2.
    destruct Hh2 as (r & Hr & Hcu & Hha & Hst). rewrite claim_reply_run, Hr, Hcu, Hha.
    rewrite !bool_decide_eq_true_2 by done. by rewrite Hst.
Qed.

(** ** Witnesses *)

Definition sample_queue : queue_args := QueueArgs "w1" "t" "chat" "message" 5 "" "m1".
Definition sample_runs : list run_op := [OpQueue sample_queue 1; OpClaimDue 10 6].

Lemma one_run_per_conversation_witness :
  runs_ok (run_system_ops sample_runs (RunSystem no_runs [])) ∧
  rs_inflight (run_system_ops sample_runs (RunSystem no_runs [])) = [RunClaim "w1" "chat" 1].
Proof.
  split; [|reflexivity].
  destruct (one_run_per_conversation sample_runs 10 7) as [H _]; [by repeat constructor|exact H].
Defined.

(** A message queued while a worker runs generation 1 survives its finish. *)
Lemma queued_message_kept_witness :
  let s := run_system_ops sample_runs (RunSystem no_runs []) in
  let s' := run_system_ops [OpFinish (RunClaim "w1" "chat" 1) 2 8 8 8]
              (RunSystem (queue_pending_run sample_queue 7 (rs_db s)).1 (rs_inflight s)) in
  ∃ r, find_run "w1" "chat" (rs_db s') = Some r ∧ 2 ≤ pn_generation r.
Proof.
  cbv zeta. destruct (queued_message_kept sample_runs sample_queue 7
    (queue_pending_run sample_queue 7 (rs_db (run_system_ops sample_runs (RunSystem no_runs [])))).1 2
    [OpFinish (RunClaim "w1" "chat" 1) 2 8 8 8]) as (r & Hr & Hg & _);
    [by repeat constructor|reflexivity|by repeat constructor|by repeat constructor|].
  exists r. split; [exact Hr|exact Hg].
Defined.

Lemma reply_claimed_once_witness :
  let d := (claim_reply_delivery "w1" "t" "chat" "m1" "h" 3 no_runs).1 in
  claim_reply_delivery "w1" "t" "chat" "m1" "other" 9 d = (d, Ok ReplyConflict).
Proof.
  cbv zeta. destruct (reply_claimed_once [] [] "w1" "t" "chat" "m1" "h" 3
    (claim_reply_delivery "w1" "t" "chat" "m1" "h" 3 no_runs).1) as (_ & H & _); [reflexivity|].
  by apply H.
Defined.

(** With deletions the queue's promise fails: generations restart at 1 for a
    workflow identifier that comes back, and a worker still running an older,
    higher generation deletes the new message's row when it finishes. *)
Definition returning_queue : queue_args :=
  QueueArgs (pr_workflow sample_proposal) "t" "chat" "message" 5 "" "m1".
Definition returning_start : runs_db :=
  RunsDb [WorkflowRow (Workflow "t" sample_proposal "") 1 0 0] [] [] [] [].

Example finish_after_deletion_drops_message :
  let before := run_system_ops
    [OpQueue returning_queue 1; OpQueue returning_queue 2; OpClaimDue 10 6;
     OpDeleteWorkflow "t" (pr_workflow sample_proposal) None; OpQueue returning_queue 7]
    (RunSystem returning_start []) in
  pn_status <$> rd_pending (rs_db before) = [RunPending] ∧
  rd_pending (rs_db (step_run before
    (OpFinish (RunClaim (pr_workflow sample_proposal) "chat" 2) 2 8 8 8))) = [].
Proof. by vm_compute. Qed.
