(* ===== verification/Revisions.v ===== *)
(** * Immutable revision stores

    The two stores of [specs/store.py] are the same machine over different
    contents: an append-only table of revisions and a table of active
    references, both guarded by compare-and-swap. This file has that machine,
    over the interface [SpecContent] its contents satisfy; [Specs] instantiates
    it for agents and triggers. *)

From S2P Require Import Prelude Sqlite PyText Sha256 Json Protocol.
#[local] Open Scope string_scope.
#[local] Open Scope list_scope.
#[local] Open Scope Z_scope.

(** ** The interface of a content *)

(** [validate] is the Pydantic model of the write request, [canonical_text] the
    JSON text [_canonical] makes of it, [label] its name in messages. *)
Class SpecContent (W : Type) := {
  validate : W → outcome W;
  canonical_text : W → string;
  label : string;
}.
Class SpecContentLaws (W : Type) {C : SpecContent W} : Prop := {
  validate_valid : ∀ w w', validate w = Ok w' → validate w' = Ok w';
}.

Definition is_hex64 (s : string) : bool :=
  all_chars (λ c, is_digit c || ((97 <=? code c) && (code c <=? 102))%N) s && (len s =? 64).

(** ** Tables *)

Record revision_row (W : Type) := RevisionRow {
  rv_tenant : string;
  rv_id : string;
  rv_revision : Z;
  rv_content : W;
  rv_digest : string;
  rv_created_at : Z;
  rv_created_by : string;
}.
Arguments RevisionRow {W}.
Arguments rv_tenant {W}. Arguments rv_id {W}. Arguments rv_revision {W}.
Arguments rv_content {W}. Arguments rv_digest {W}. Arguments rv_created_at {W}.
Arguments rv_created_by {W}.

Record active_ref := ActiveRef {
  rf_tenant : string;
  rf_id : string;
  rf_revision : Z;
  rf_updated_at : Z;
  rf_updated_by : string;
}.

Record spec_db (W : Type) := SpecDb {
  sp_revisions : list (revision_row W);
  sp_active : list active_ref;
}.
Arguments SpecDb {W}.
Arguments sp_revisions {W}. Arguments sp_active {W}.

#[global] Instance spec_db_fields {W} : Fields (spec_db W) := λ d,
  SpecDb (sp_revisions d) (sp_active d).

Definition no_specs {W} : spec_db W := SpecDb [] [].

Section Store.
Context {W : Type} `{SpecContent W}.
Implicit Types (d : spec_db W) (r : revision_row W).

(** [_row]: the model of a stored revision. *)
Definition decode_row (r : revision_row W) : outcome (revision_row W) :=
  match protocol_id (rv_tenant r), slug (rv_id r), protocol_id (rv_created_by r) with
  | Some tenant, Some id, Some by_ =>
      w ← validate (rv_content r);
      let digest := strip (rv_digest r) in
      if (1 <=? rv_revision r) && is_hex64 digest then
        Ok (RevisionRow tenant id (rv_revision r) w digest (rv_created_at r) by_)
      else Err (ValidationError label)
  | _, _, _ => Err (ValidationError label)
  end.

Definition decode_found (o : option (revision_row W)) : outcome (option (revision_row W)) :=
  match o with Some r => s ← decode_row r; Ok (Some s) | None => Ok None end.

Definition of_spec (tenant id : string) (r : revision_row W) : bool :=
  (rv_tenant r == tenant) && (rv_id r == id).
Definition at_revision (tenant id : string) (n : Z) (r : revision_row W) : bool :=
  of_spec tenant id r && (rv_revision r =? n).
Definition active_of (tenant id : string) (a : active_ref) : bool :=
  (rf_tenant a == tenant) && (rf_id a == id).
Definition active_at (tenant id : string) (n : Z) (a : active_ref) : bool :=
  active_of tenant id a && (rf_revision a =? n).

(** [ORDER BY revision DESC] *)
Definition newest (x y : revision_row W) : bool := rv_revision y <=? rv_revision x.
Definition id_order (x y : revision_row W) : bool := text_le (rv_id x) (rv_id y).

Definition revisions_of (tenant id : string) d : list (revision_row W) :=
  order_by newest (select (of_spec tenant id) (sp_revisions d)).
Definition latest_row (tenant id : string) d : option (revision_row W) :=
  head (revisions_of tenant id d).
Definition revision_at (tenant id : string) (n : Z) d : option (revision_row W) :=
  select_one (at_revision tenant id n) (sp_revisions d).
Definition active_revision (tenant id : string) d : option Z :=
  rf_revision <$> select_one (active_of tenant id) (sp_active d).

(** [PRIMARY KEY (tenant_id, id, revision)], [PRIMARY KEY (tenant_id, id)] *)
Definition revision_clash (r r' : revision_row W) : bool :=
  at_revision (rv_tenant r) (rv_id r) (rv_revision r) r'.
Definition active_clash (a a' : active_ref) : bool := active_of (rf_tenant a) (rf_id a) a'.

Definition insert_revision (r : revision_row W) : M (spec_db W) unit :=
  try_modify (λ d, t ← insert_row revision_clash r (sp_revisions d);
                   Some (d <| sp_revisions := t |>))
    (IntegrityError "UNIQUE constraint failed").
Definition insert_active (a : active_ref) : M (spec_db W) unit :=
  try_modify (λ d, t ← insert_row active_clash a (sp_active d); Some (d <| sp_active := t |>))
    (IntegrityError "UNIQUE constraint failed").

(** ** Methods *)

Definition digest (w : W) : string := sha256_hex (canonical_text w).

Definition show_expected (o : option Z) : string :=
  match o with Some n => pretty n | None => "None" end.

Definition create_revision (tenant id : string) (w : W) (expected : option Z)
    (created_by : string) (now : Z) : M (spec_db W) (revision_row W) :=
  let content_digest := digest w in
  transaction (
    latest ← gets (latest_row tenant id);
    next ← match latest with
           | None =>
               unless (expected == None)
                 (SpecConflictError (label +:+ " does not exist at the expected revision"));;
               mret (inr 1)
           | Some row =>
               current ← from_outcome (decode_row row);
               if rv_digest current == content_digest then mret (inl current)
               else
                 unless (expected == Some (rv_revision current))
                   (SpecConflictError (label +:+ " revision is "
                      +:+ pretty (rv_revision current) +:+ ", expected "
                      +:+ show_expected expected));;
                 mret (inr (rv_revision current + 1))
           end;
    match next with
    | inl current => mret current
    | inr revision =>
        spec ← from_outcome
          (decode_row (RevisionRow tenant id revision w content_digest now created_by));
        insert_revision (RevisionRow (rv_tenant spec) (rv_id spec) (rv_revision spec) w
          (rv_digest spec) (rv_created_at spec) (rv_created_by spec));;
        mret spec
    end).

Definition get_revision (tenant id : string) (n : Z) :
    M (spec_db W) (option (revision_row W)) :=
  row ← gets (revision_at tenant id n);
  from_outcome (decode_found row).

Definition get_latest (tenant id : string) : M (spec_db W) (option (revision_row W)) :=
  row ← gets (latest_row tenant id);
  from_outcome (decode_found row).

(** The compare-and-swap of the active reference. *)
Definition switch_active (tenant id : string) (n : Z) (expected : option Z)
    (updated_by : string) (now : Z) : M (spec_db W) unit :=
  active ← gets (active_revision tenant id);
  match active with
  | None =>
      unless (expected == None) (SpecConflictError (label +:+ " has no active revision"));;
      insert_active (ActiveRef tenant id n now updated_by)
  | Some current =>
      if current =? n then mret tt
      else
        unless (expected == Some current)
          (SpecConflictError ("active " +:+ label +:+ " revision is " +:+ pretty current
             +:+ ", expected " +:+ show_expected expected));;
        count ← gets (λ d, rowcount (active_at tenant id current) (sp_active d));
        modify (λ d, d <| sp_active := update (active_at tenant id current)
          (λ a, ActiveRef (rf_tenant a) (rf_id a) n now updated_by) (sp_active d) |>);;
        unless (count =? 1)%nat
          (SpecConflictError ("active " +:+ label +:+ " changed during activation"))
  end.

Definition deactivate (tenant id : string) (expected : Z) : M (spec_db W) Z :=
  transaction (
    active ← gets (active_revision tenant id);
    match active with
    | None => raise (SpecNotFoundError id)
    | Some current =>
        unless (current =? expected)
          (SpecConflictError ("active " +:+ label +:+ " revision is " +:+ pretty current
             +:+ ", expected " +:+ pretty expected));;
        count ← gets (λ d, rowcount (active_at tenant id current) (sp_active d));
        modify (λ d, d <| sp_active :=
          delete_rows (active_at tenant id current) (sp_active d) |>);;
        unless (count =? 1)%nat
          (SpecConflictError ("active " +:+ label +:+ " changed during deactivation"));;
        mret current
    end).

Definition decode_all (rows : list (revision_row W)) : M (spec_db W) (list (revision_row W)) :=
  from_outcome (all_ok (decode_row <$> rows)).

(** [active_refs JOIN revisions] for one tenant, [ORDER BY id]. *)
Definition list_active (tenant : string) : M (spec_db W) (list (revision_row W)) :=
  rows ← gets (λ d, order_by id_order
    (omap (λ a, if rf_tenant a == tenant
                then revision_at (rf_tenant a) (rf_id a) (rf_revision a) d else None)
       (sp_active d)));
  decode_all rows.

(** The revisions whose number is the greatest of their identifier. *)
Definition list_latest (tenant : string) : M (spec_db W) (list (revision_row W)) :=
  rows ← gets (λ d, order_by id_order
    (select (λ r, (rv_tenant r == tenant)
       && forallb (λ r', negb (of_spec tenant (rv_id r) r') || (rv_revision r' <=? rv_revision r))
            (sp_revisions d)) (sp_revisions d)));
  decode_all rows.

Definition list_revisions (tenant id : string) : M (spec_db W) (list (revision_row W)) :=
  rows ← gets (revisions_of tenant id);
  decode_all rows.

Definition previous_row (tenant id : string) (before : Z) d : option (revision_row W) :=
  head (order_by newest
    (select (λ r, of_spec tenant id r && (rv_revision r <? before)) (sp_revisions d))).

Definition previous_revision (tenant id : string) (before : Z) :
    M (spec_db W) (option (revision_row W)) :=
  row ← gets (previous_row tenant id before);
  from_outcome (decode_found row).

Definition get_active (tenant id : string) : M (spec_db W) (option (revision_row W)) :=
  active ← gets (active_revision tenant id);
  match active with
  | Some n => get_revision tenant id n
  | None => mret None
  end.
End Store.

(** ** The invariant *)

Section Invariant.
Context {W : Type} `{Laws : SpecContentLaws W}.
Implicit Types (d : spec_db W) (r : revision_row W).

(** Every spec's revisions are numbered 1, 2, .. in the order they were
    added, read back as they are stored and carry their content's digest;
    active references are unique and point to stored revisions. *)
Record specs_ok d : Prop := {
  sk_numbers : ∀ t i, rv_revision <$> select (of_spec t i) (sp_revisions d) =
    seqZ 1 (Z.of_nat (length (select (of_spec t i) (sp_revisions d))));
  sk_rows : ∀ r, r ∈ sp_revisions d → decode_row r = Ok r ∧ rv_digest r = digest (rv_content r);
  sk_active : unique (λ a, (rf_tenant a, rf_id a)) (sp_active d);
  sk_target : ∀ a, a ∈ sp_active d →
    ∃ r, r ∈ sp_revisions d ∧ at_revision (rf_tenant a) (rf_id a) (rf_revision a) r = true;
}.

Lemma of_spec_true t i r : of_spec t i r = true ↔ rv_tenant r = t ∧ rv_id r = i.
Proof. unfold of_spec. by rewrite andb_true_iff, !bool_decide_eq_true. Qed.

Lemma at_revision_true t i n r :
  at_revision t i n r = true ↔ (rv_tenant r = t ∧ rv_id r = i) ∧ rv_revision r = n.
Proof. unfold at_revision. by rewrite andb_true_iff, of_spec_true, Z.eqb_eq. Qed.

Lemma active_of_true t i a : active_of t i a = true ↔ rf_tenant a = t ∧ rf_id a = i.
Proof. unfold active_of. by rewrite andb_true_iff, !bool_decide_eq_true. Qed.

Lemma active_at_true t i n a :
  active_at t i n a = true ↔ (rf_tenant a = t ∧ rf_id a = i) ∧ rf_revision a = n.
Proof. unfold active_at. by rewrite andb_true_iff, active_of_true, Z.eqb_eq. Qed.

Definition count_of (t i : string) d : Z :=
  Z.of_nat (length (select (of_spec t i) (sp_revisions d))).

(** The numbers of a spec's revisions are exactly 1 .. count. *)
Lemma revision_range t i d r :
  specs_ok d → r ∈ sp_revisions d → of_spec t i r = true → 1 ≤ rv_revision r ≤ count_of t i d.
Proof.
  intros Hd Hr Ho. pose proof (sk_numbers _ Hd t i) as Hn.
  assert (rv_revision r ∈ rv_revision <$> select (of_spec t i) (sp_revisions d)) as Hin.
  { apply list_elem_of_fmap_2. by apply elem_of_select. }
  rewrite Hn in Hin. apply elem_of_seqZ in Hin. unfold count_of. lia.
Qed.

Lemma revision_exists t i n d :
  specs_ok d → 1 ≤ n ≤ count_of t i d →
  ∃ r, r ∈ sp_revisions d ∧ at_revision t i n r = true.
Proof.
  intros Hd Hn. pose proof (sk_numbers _ Hd t i) as Hs.
  assert (n ∈ rv_revision <$> select (of_spec t i) (sp_revisions d)) as Hin.
  { rewrite Hs. apply elem_of_seqZ. unfold count_of in Hn. lia. }
  apply list_elem_of_fmap in Hin as (r & -> & [Hr Ho]%elem_of_select).
  exists r. split; [done|]. unfold at_revision. by rewrite Ho, Z.eqb_refl.
Qed.

Lemma revision_unique t i n d r r' :
  specs_ok d → r ∈ sp_revisions d → r' ∈ sp_revisions d →
  at_revision t i n r = true → at_revision t i n r' = true → r = r'.
Proof.
  intros Hd Hr Hr' [[H1 H2] H3]%at_revision_true [[H1' H2'] H3']%at_revision_true.
  apply (unique_eq rv_revision (select (of_spec t i) (sp_revisions d))).
  - unfold unique. rewrite (sk_numbers _ Hd t i). apply NoDup_seqZ.
  - apply elem_of_select. split; [done|]. by apply of_spec_true.
  - apply elem_of_select. split; [done|]. by apply of_spec_true.
  - congruence.
Qed.

Lemma revision_at_Some t i n d r :
  specs_ok d → r ∈ sp_revisions d → at_revision t i n r = true → revision_at t i n d = Some r.
Proof.
  intros Hd Hr Hat. destruct (revision_at t i n d) as [r'|] eqn:E.
  - apply select_one_Some in E as [Hr' Hat']. f_equal. by eapply (revision_unique t i n).
  - eapply select_one_None in E; [|exact Hr]. congruence.
Qed.

Lemma newest_total r r' : newest r r' = true ∨ newest r' r = true.
Proof. unfold newest. rewrite !Z.leb_le. lia. Qed.

Lemma newest_trans r1 r2 r3 : newest r1 r2 = true → newest r2 r3 = true → newest r1 r3 = true.
Proof. unfold newest. rewrite !Z.leb_le. lia. Qed.

(** The latest row is the one whose number is the count. *)
Lemma latest_row_spec t i d :
  specs_ok d →
  match latest_row t i d with
  | Some r => r ∈ sp_revisions d ∧ of_spec t i r = true ∧ rv_revision r = count_of t i d
  | None => count_of t i d = 0
  end.
Proof.
  intros Hd. unfold latest_row, revisions_of.
  destruct (head _) as [r|] eqn:E.
  - apply (order_by_head _ newest_total) in E as [[Hr Ho]%elem_of_select Hmax];
      [|by apply newest_trans].
    split_and!; [done..|].
    pose proof (revision_range t i d r Hd Hr Ho) as Hrange.
    destruct (revision_exists t i (count_of t i d) d Hd) as (r' & Hr' & [[H1 H2] H3]%at_revision_true);
      [lia|].
    destruct (Hmax r') as [-> |Hle]; [apply elem_of_select; split; [done|]; by apply of_spec_true|done|].
    unfold newest in Hle. apply Z.leb_le in Hle. lia.
  - apply order_by_head_None in E. unfold count_of. by rewrite E.
Qed.

Lemma active_revision_Some t i d n :
  active_revision t i d = Some n →
  ∃ a, a ∈ sp_active d ∧ rf_tenant a = t ∧ rf_id a = i ∧ rf_revision a = n.
Proof.
  unfold active_revision. destruct (select_one _ _) as [a|] eqn:E; [|done].
  intros [= <-]. apply select_one_Some in E as [Ha [Ht Hi]%active_of_true]. eauto.
Qed.

Lemma active_revision_in d a :
  specs_ok d → a ∈ sp_active d → active_revision (rf_tenant a) (rf_id a) d = Some (rf_revision a).
Proof.
  intros Hd Ha. unfold active_revision. destruct (select_one _ _) as [a'|] eqn:E.
  - apply select_one_Some in E as [Ha' [Ht Hi]%active_of_true]. simpl. do 2 f_equal.
    apply (unique_eq (λ a, (rf_tenant a, rf_id a)) (sp_active d)); [apply Hd|done..|]. congruence.
  - eapply select_one_None in E; [|exact Ha]. by rewrite (proj2 (active_of_true _ _ a)) in E.
Qed.

Lemma decode_row_same r r' : decode_row r = Ok r' → rv_revision r' = rv_revision r ∧
  validate (rv_content r) = Ok (rv_content r') ∧ rv_tenant r' = strip (rv_tenant r) ∧
  rv_id r' = strip (rv_id r) ∧ rv_digest r' = strip (rv_digest r) ∧
  rv_created_at r' = rv_created_at r.
Proof.
  unfold decode_row, protocol_id, slug. unfold bounded_field at 1.
  destruct (_ && _); [|done]. destruct (matches _ _ _); [|done].
  destruct (bounded_field 200 (rv_created_by r)); [|done]. simpl.
  destruct (validate (rv_content r)) as [w|]; [|done]. simpl.
  destruct (_ && _); [|done]. by intros [= <-].
Qed.

(** What is read back reads back the same. *)
Lemma decode_row_idem r r' : decode_row r = Ok r' → decode_row r' = Ok r'.
Proof.
  unfold decode_row, protocol_id.
  destruct (bounded_field 200 (rv_tenant r)) as [t|] eqn:E1; [|done].
  destruct (slug (rv_id r)) as [i|] eqn:E2; [|done].
  destruct (bounded_field 200 (rv_created_by r)) as [b|] eqn:E3; [|done]. simpl.
  destruct (validate (rv_content r)) as [w|] eqn:E4; [|done]. simpl.
  destruct (_ && _) eqn:E5; [|done]. intros [= <-]. simpl.
  rewrite (bounded_field_ok 200 t) by by eapply bounded_field_Some.
  rewrite (bounded_field_ok 200 b) by by eapply bounded_field_Some.
  assert (slug i = Some i) as ->.
  { revert E2. unfold slug. destruct (matches _ _ _) eqn:Em; intros [= <-].
    by rewrite strip_stripped, Em. }
  rewrite (validate_valid _ _ E4). simpl. by rewrite strip_stripped, E5.
Qed.
End Invariant.

(** ** The methods keep it *)

Section Methods.
Context {W : Type} `{Laws : SpecContentLaws W}.
Implicit Types (d : spec_db W) (r : revision_row W).

(** Revisions are only appended. *)
Definition spec_step d d' : Prop := specs_ok d' ∧ sp_revisions d `prefix_of` sp_revisions d'.
Definition steps {A} (m : M (spec_db W) A) : Prop := ∀ d, specs_ok d → spec_step d (m d).1.

Lemma spec_step_refl d : specs_ok d → spec_step d d.
Proof. by split. Qed.

Lemma spec_step_trans d d' d'' : spec_step d d' → spec_step d' d'' → spec_step d d''.
Proof. intros [_ H] [H1 H2]. split; [done|]. by etrans. Qed.

Lemma steps_transaction {A} (m : M (spec_db W) A) : steps m → steps (transaction m).
Proof.
  intros Hm d Hd. rewrite run_transaction. specialize (Hm d Hd).
  destruct (m d) as [d' [a|e]]; [done|]. by apply spec_step_refl.
Qed.

Definition add_revision r d : spec_db W := SpecDb (sp_revisions d ++ [r]) (sp_active d).

Lemma add_revision_step r d :
  specs_ok d → decode_row r = Ok r → rv_digest r = digest (rv_content r) →
  rv_revision r = count_of (rv_tenant r) (rv_id r) d + 1 → spec_step d (add_revision r d).
Proof.
  intros Hd Hdec Hdig Hn. split; [|by exists [r]]. split; simpl.
  - intros t i. unfold select. rewrite List.filter_app. simpl.
    pose proof (sk_numbers _ Hd t i) as Hs. unfold select in Hs.
    destruct (of_spec t i r) eqn:E; [|by rewrite app_nil_r].
    apply of_spec_true in E as [<- <-]. rewrite fmap_app, Hs, length_app. simpl.
    rewrite Nat2Z.inj_add, seqZ_app by lia. f_equal.
    rewrite Hn. unfold count_of, select. rewrite seqZ_cons, seqZ_nil by lia. simpl. f_equal. lia.
  - intros r0 [Hr0| ->%list_elem_of_singleton]%elem_of_app; [by apply Hd|done].
  - apply Hd.
  - intros a Ha. destruct (sk_target _ Hd a Ha) as (r0 & Hr0 & H0). exists r0.
    split; [set_solver|done].
Qed.

Lemma insert_revision_run r d :
  insert_revision r d =
    if exists_row (revision_clash r) (sp_revisions d)
    then (d, Err (IntegrityError "UNIQUE constraint failed"))
    else (add_revision r d, Ok tt).
Proof. unfold insert_revision, insert_row. run. by destruct (exists_row _ _). Qed.

Lemma digest_is_hex64 (w : W) : is_hex64 (digest w) = true.
Proof.
  unfold is_hex64, digest, len. rewrite length_sha256_hex.
  by rewrite (sha256_hex_alphabet (λ c, is_digit c || _)).
Qed.

Lemma strip_digest (w : W) : strip (digest w) = digest w.
Proof. apply strip_sha256_hex. Qed.

(** The row an accepted request adds is its own reading. *)
Lemma new_row_decoded t i n w b now r :
  validate w = Ok w → decode_row (RevisionRow t i n w (digest w) now b) = Ok r →
  r = RevisionRow (rv_tenant r) (rv_id r) n w (digest w) now (rv_created_by r) ∧
  decode_row r = Ok r ∧ rv_tenant r = strip t ∧ rv_id r = strip i.
Proof.
  intros Hw H. pose proof (decode_row_idem _ _ H) as Hi.
  destruct (decode_row_same _ _ H) as (E1 & E2 & E3 & E4 & E5 & E6). simpl in *.
  rewrite Hw in E2. injection E2 as E2. rewrite strip_digest in E5.
  split_and!; [|done..]. destruct r; simpl in *. by subst.
Qed.

Lemma stored_stripped d r :
  specs_ok d → r ∈ sp_revisions d → strip (rv_tenant r) = rv_tenant r ∧ strip (rv_id r) = rv_id r.
Proof.
  intros Hd Hr. destruct (sk_rows _ Hd r Hr) as [H _].
  destruct (decode_row_same _ _ H) as (_ & _ & E3 & E4 & _). by rewrite <- E3, <- E4.
Qed.

(** The count of the row a request reads back is the count it asked about:
    identifiers in the table are stripped. *)
Lemma count_unstripped t i d :
  specs_ok d → ¬ (strip t = t ∧ strip i = i) → count_of t i d = 0.
Proof.
  intros Hd Hne. unfold count_of. destruct (select _ _) as [|r0 l] eqn:E0; [done|].
  assert (r0 ∈ select (of_spec t i) (sp_revisions d)) as [H0 H1]%elem_of_select
    by (rewrite E0; set_solver).
  apply of_spec_true in H1 as [<- <-]. by destruct Hne; apply (stored_stripped d).
Qed.

Lemma count_of_0_or t i d : count_of t i d = 0 ∨ 1 ≤ count_of t i d.
Proof. unfold count_of. lia. Qed.

(** The insertion of the next revision. *)
Definition insert_next (t i : string) (n : Z) (w : W) (b : string) (now : Z) :
    M (spec_db W) (revision_row W) :=
  spec ← from_outcome (decode_row (RevisionRow t i n w (digest w) now b));
  insert_revision (RevisionRow (rv_tenant spec) (rv_id spec) (rv_revision spec) w
    (rv_digest spec) (rv_created_at spec) (rv_created_by spec));;
  mret spec.

Lemma insert_next_run t i w b now d d' res :
  validate w = Ok w → specs_ok d →
  insert_next t i (count_of t i d + 1) w b now d = (d', res) →
  match res with
  | Err _ => d' = d
  | Ok r =>
      d' = add_revision r d ∧ spec_step d d' ∧
      r = RevisionRow (strip t) (strip i) (count_of t i d + 1) w (digest w) now (rv_created_by r) ∧
      count_of (strip t) (strip i) d = count_of t i d
  end.
Proof.
  intros Hw Hd. unfold insert_next. rewrite run_outcome_bind.
  destruct (decode_row _) as [r|err] eqn:Hdec; [|by intros [= <- <-]].
  destruct (new_row_decoded _ _ _ _ _ _ _ Hw Hdec) as (Er & Hdr & Et & Ei).
  rewrite run_bind, insert_revision_run.
  replace (RevisionRow (rv_tenant r) (rv_id r) (rv_revision r) w (rv_digest r)
    (rv_created_at r) (rv_created_by r)) with r by by rewrite Er at 1; rewrite Er.
  destruct (exists_row _ _) eqn:Hex; [by intros [= <- <-]|]. simpl. intros [= <- <-].
  rewrite exists_row_false in Hex.
  assert (count_of (strip t) (strip i) d = count_of t i d) as Hc.
  { destruct (decide (strip t = t ∧ strip i = i)) as [[-> ->]|Hne]; [done|].
    rewrite (count_unstripped t i d Hd Hne) in *.
    destruct (count_of_0_or (strip t) (strip i) d) as [->|H1]; [done|].
    destruct (revision_exists (strip t) (strip i) 1 d Hd) as (r0 & Hr0 & Hat); [lia|].
    specialize (Hex r0 Hr0). unfold revision_clash in Hex.
    rewrite Et, Ei, Er in Hex. simpl in Hex. change (0 + 1) with 1 in Hex. congruence. }
  split_and!; [done| |by rewrite <- Et, <- Ei|done].
  apply add_revision_step; [done|done|by rewrite Er|].
  rewrite Et, Ei, Hc. by rewrite Er.
Qed.

(** The whole behaviour of [create_revision]: the current revision again when
    the content is unchanged, the next one when the caller has seen the
    latest, a conflict otherwise. *)
Definition latest_number (t i : string) d : option Z := rv_revision <$> latest_row t i d.

Lemma create_run t i w e b now d :
  specs_ok d →
  create_revision t i w e b now d =
    match latest_row t i d with
    | Some r => if rv_digest r == digest w then (d, Ok r)
                else if e == Some (rv_revision r)
                     then transaction (insert_next t i (count_of t i d + 1) w b now) d
                     else (d, Err (SpecConflictError (label +:+ " revision is "
                                +:+ pretty (rv_revision r) +:+ ", expected " +:+ show_expected e)))
    | None => if e == None then transaction (insert_next t i (count_of t i d + 1) w b now) d
              else (d, Err (SpecConflictError (label +:+ " does not exist at the expected revision")))
    end.
Proof.
  intros Hd. unfold create_revision. rewrite run_transaction, run_gets_bind.
  pose proof (latest_row_spec t i d Hd) as Hl. destruct (latest_row t i d) as [r|].
  - destruct Hl as (Hr & _ & Hn). rewrite run_bind_assoc, run_outcome_bind.
    destruct (sk_rows _ Hd r Hr) as [-> _].
    destruct (rv_digest r == digest w); [done|].
    rewrite run_bind_assoc, run_unless_bind.
    destruct (e == Some (rv_revision r)); [|done]. by rewrite run_ret_bind, Hn.
  - rewrite Hl, run_bind_assoc, run_unless_bind. by destruct (e == None).
Qed.

Lemma create_Ok t i w e b now d d' r :
  validate w = Ok w → specs_ok d → create_revision t i w e b now d = (d', Ok r) →
  (d' = d ∧ latest_row t i d = Some r ∧ rv_digest r = digest w) ∨
  (d' = add_revision r d ∧ spec_step d d' ∧ e = latest_number t i d ∧
   r = RevisionRow (strip t) (strip i) (count_of t i d + 1) w (digest w) now (rv_created_by r) ∧
   count_of (strip t) (strip i) d = count_of t i d).
Proof.
  intros Hw Hd. rewrite create_run by done. unfold latest_number.
  assert (∀ res, transaction (insert_next t i (count_of t i d + 1) w b now) d = (d', res) →
    res = Ok r → insert_next t i (count_of t i d + 1) w b now d = (d', Ok r)) as Ht.
  { intros res. rewrite run_transaction. destruct (insert_next _ _ _ _ _ _ _) as [d1 [r1|e1]];
    intros [= <- <-]; by intros [= ->]. }
  destruct (latest_row t i d) as [r0|]; simpl.
  - case_bool_decide as Hdig; [intros [= <- <-]; by left|].
    case_bool_decide as He; [|done]. intros Hr%Ht; [|done].
    apply insert_next_run in Hr as (? & ? & ? & ?); [|done..]. by right.
  - case_bool_decide as He; [|done]. intros Hr%Ht; [|done].
    apply insert_next_run in Hr as (? & ? & ? & ?); [|done..]. by right.
Qed.

Lemma count_add_revision t i r d :
  count_of t i (add_revision r d) = count_of t i d + (if of_spec t i r then 1 else 0).
Proof.
  unfold count_of, add_revision, select. simpl. rewrite List.filter_app, length_app. simpl.
  destruct (of_spec t i r); simpl; lia.
Qed.

Lemma latest_row_in t i d r :
  specs_ok d → r ∈ sp_revisions d → of_spec t i r = true → rv_revision r = count_of t i d →
  latest_row t i d = Some r.
Proof.
  intros Hd Hr Ho Hn. pose proof (latest_row_spec t i d Hd) as Hl.
  pose proof (revision_range t i d r Hd Hr Ho) as Hrange.
  destruct (latest_row t i d) as [r'|]; [|lia]. destruct Hl as (Hr' & Ho' & Hn'). f_equal.
  apply (revision_unique t i (count_of t i d) d); [done..| |];
    apply at_revision_true; by rewrite <- of_spec_true.
Qed.

(** A revision just added is the latest, and other specs see no change. *)
Lemma added_latest r d :
  spec_step d (add_revision r d) → rv_revision r = count_of (rv_tenant r) (rv_id r) d + 1 →
  ∀ t i, latest_row t i (add_revision r d) =
    if (rv_tenant r == t) && (rv_id r == i) then Some r else latest_row t i d.
Proof.
  intros [Hd _] Hn t i. destruct ((rv_tenant r == t) && (rv_id r == i)) eqn:Ho.
  - apply latest_row_in; [done| |exact Ho|].
    + simpl. apply elem_of_app. right. by apply list_elem_of_singleton.
    + rewrite count_add_revision. unfold of_spec. rewrite Ho.
      apply of_spec_true in Ho as [<- <-]. done.
  - unfold latest_row, revisions_of, add_revision, select. simpl. rewrite List.filter_app. simpl.
    unfold of_spec at 2. by rewrite Ho, app_nil_r.
Qed.

Lemma latest_number_count t i d :
  specs_ok d → default 0 (latest_number t i d) = count_of t i d.
Proof.
  intros Hd. unfold latest_number. pose proof (latest_row_spec t i d Hd) as Hl.
  destruct (latest_row t i d) as [r|]; simpl; [by destruct Hl as (_ & _ & ->)|done].
Qed.

Lemma decoded_ids r :
  decode_row r = Ok r → protocol_id (rv_tenant r) = Some (rv_tenant r) ∧ slug (rv_id r) = Some (rv_id r).
Proof.
  unfold decode_row. destruct (protocol_id (rv_tenant r)) as [t|]; [|done].
  destruct (slug (rv_id r)) as [i|]; [|done]. destruct (protocol_id _) as [b|]; [|done].
  destruct (validate _) as [w|e]; [|done]. simpl. destruct (_ && _); [|done]. by intros [= <-].
Qed.

(** The next number is free. *)
Lemma insert_next_ok t i w b now d :
  validate w = Ok w → specs_ok d → protocol_id t = Some t → slug i = Some i → protocol_id b = Some b →
  let r := RevisionRow t i (count_of t i d + 1) w (digest w) now b in
  transaction (insert_next t i (count_of t i d + 1) w b now) d = (add_revision r d, Ok r).
Proof.
  intros Hw Hd Ht Hi Hb. cbv zeta. rewrite run_transaction. unfold insert_next. rewrite run_outcome_bind.
  set (r := RevisionRow t i (count_of t i d + 1) w (digest w) now b).
  assert (decode_row r = Ok r) as ->.
  { unfold decode_row. simpl. rewrite Ht, Hi, Hb, Hw. simpl. rewrite strip_digest, digest_is_hex64.
    rewrite (proj2 (Z.leb_le _ _)); [done|]. unfold count_of. lia. }
  rewrite run_bind, insert_revision_run. simpl.
  rewrite (proj2 (exists_row_false _ _)); [done|]. intros r' Hr. unfold revision_clash. simpl.
  destruct (at_revision t i _ r') eqn:Hat; [|done].
  apply at_revision_true in Hat as [Ho Hn].
  pose proof (revision_range t i d r' Hd Hr (proj2 (of_spec_true t i r') Ho)). lia.
Qed.

(** The first revision of a spec is always accepted. *)
Lemma create_first t i w b now d :
  validate w = Ok w → specs_ok d → latest_row t i d = None →
  protocol_id t = Some t → slug i = Some i → protocol_id b = Some b →
  let r := RevisionRow t i 1 w (digest w) now b in
  create_revision t i w None b now d = (add_revision r d, Ok r).
Proof.
  intros Hw Hd Hl Ht Hi Hb. cbv zeta. rewrite create_run, Hl by done.
  pose proof (latest_row_spec t i d Hd) as Hc. rewrite Hl in Hc.
  change (None == None) with true. cbn iota. rewrite insert_next_ok by done. by rewrite Hc.
Qed.

(** So is a new content that names the latest revision. *)
Lemma create_next t i w b now d last :
  validate w = Ok w → specs_ok d → latest_row t i d = Some last → rv_digest last ≠ digest w →
  protocol_id b = Some b →
  let r := RevisionRow t i (rv_revision last + 1) w (digest w) now b in
  create_revision t i w (Some (rv_revision last)) b now d = (add_revision r d, Ok r).
Proof.
  intros Hw Hd Hl Hdig Hb. cbv zeta. rewrite create_run, Hl by done.
  pose proof (latest_row_spec t i d Hd) as Hc. rewrite Hl in Hc. destruct Hc as (Hr & Ho & Hn).
  rewrite bool_decide_eq_false_2, bool_decide_eq_true_2 by done.
  apply of_spec_true in Ho as [<- <-]. pose proof (proj1 (sk_rows _ Hd last Hr)) as Hdec.
  destruct (decoded_ids _ Hdec). by rewrite insert_next_ok, Hn.
Qed.

Lemma create_Err t i w e b now d d' x :
  create_revision t i w e b now d = (d', Err x) → d' = d.
Proof. apply transaction_rollback. Qed.

Lemma create_step t i w e b now :
  validate w = Ok w → steps (create_revision t i w e b now).
Proof.
  intros Hw d Hd. destruct (create_revision _ _ _ _ _ _ d) as [d' [r|x]] eqn:E; simpl.
  - apply create_Ok in E as [(-> & _)|(_ & Hs & _)]; [by apply spec_step_refl|done..].
  - apply create_Err in E as ->. by apply spec_step_refl.
Qed.

(** ** Active references *)

Definition stored_at (t i : string) (n : Z) d : Prop :=
  ∃ r, r ∈ sp_revisions d ∧ at_revision t i n r = true.

Lemma active_revision_None t i d :
  active_revision t i d = None → ∀ a, a ∈ sp_active d → active_of t i a = false.
Proof.
  unfold active_revision. destruct (select_one _ _) eqn:E; [done|]. intros _.
  by apply select_one_None.
Qed.

Lemma set_active_step d table :
  specs_ok d → unique (λ a, (rf_tenant a, rf_id a)) table →
  (∀ a, a ∈ table → a ∈ sp_active d ∨ stored_at (rf_tenant a) (rf_id a) (rf_revision a) d) →
  spec_step d (d <| sp_active := table |>).
Proof.
  intros Hd Hu Ht. split; [|done]. split; [apply Hd..|done|].
  intros a [Ha|Ha]%Ht; [by apply Hd|done].
Qed.

Definition point_to (t i : string) (n : Z) (b : string) (now : Z) d : spec_db W :=
  d <| sp_active :=
    match active_revision t i d with
    | None => sp_active d ++ [ActiveRef t i n now b]
    | Some c => update (active_at t i c)
        (λ a, ActiveRef (rf_tenant a) (rf_id a) n now b) (sp_active d)
    end |>.

Lemma active_at_one t i c d :
  specs_ok d → active_revision t i d = Some c → rowcount (active_at t i c) (sp_active d) = 1%nat.
Proof.
  intros Hd (a & Ha & Ht & Hi & Hc)%active_revision_Some.
  apply (rowcount_one (λ a, (rf_tenant a, rf_id a)) _ _ a); [by apply Hd|done|by apply active_at_true|].
  intros a' _ [[-> ->] _]%active_at_true. by subst.
Qed.

Lemma switch_active_run t i n e b now d :
  specs_ok d →
  switch_active t i n e b now d =
    match active_revision t i d with
    | None => if e == None then (point_to t i n b now d, Ok tt)
              else (d, Err (SpecConflictError (label +:+ " has no active revision")))
    | Some c =>
        if c =? n then (d, Ok tt)
        else if e == Some c then (point_to t i n b now d, Ok tt)
        else (d, Err (SpecConflictError ("active " +:+ label +:+ " revision is " +:+ pretty c
                        +:+ ", expected " +:+ show_expected e)))
    end.
Proof.
  intros Hd. unfold switch_active, point_to. rewrite run_gets_bind.
  destruct (active_revision t i d) as [c|] eqn:Ea.
  - destruct (c =? n); [done|]. rewrite run_unless_bind.
    destruct (e == Some c); [|done]. rewrite run_gets_bind, run_modify_bind, run_unless.
    by rewrite (active_at_one t i c d).
  - rewrite run_unless_bind. destruct (e == None); [|done].
    unfold insert_active. rewrite run_try_modify, insert_row_ok; [done|].
    intros a. apply (active_revision_None t i d Ea).
Qed.

Lemma point_to_reads t i n b now d t' i' :
  active_revision t' i' (point_to t i n b now d) =
    if (t' == t) && (i' == i) then Some n else active_revision t' i' d.
Proof.
  unfold point_to. destruct (active_revision t i d) as [c|] eqn:Ea; unfold active_revision in *; simpl.
  - rewrite select_one_update by done.
    destruct (select_one (active_of t' i') (sp_active d)) as [a|] eqn:E; simpl.
    + apply select_one_Some in E as E'. destruct E' as [Ha [Ht Hi]%active_of_true].
      unfold active_at, active_of. rewrite Ht, Hi.
      case_bool_decide as E1; [|done]. case_bool_decide as E2; [|done]. simpl.
      subst t' i'. rewrite <- E1, <- E2, E in Ea. injection Ea as Ea. rewrite Ea, Z.eqb_refl. done.
    + case_bool_decide as E1; [|done]. case_bool_decide as E2; [|done].
      subst t' i'. by rewrite E in Ea.
  - rewrite select_one_app. simpl. unfold active_of at 2. simpl.
    rewrite (bool_decide_ext (t = t') (t' = t)), (bool_decide_ext (i = i') (i' = i)) by done.
    destruct (select_one (active_of t' i') (sp_active d)) as [a|] eqn:E; simpl.
    + case_bool_decide as E1; [|done]. case_bool_decide as E2; [|done].
      subst t' i'. by rewrite E in Ea.
    + by destruct (_ && _).
Qed.

Lemma point_to_step t i n b now d :
  specs_ok d → stored_at t i n d → spec_step d (point_to t i n b now d).
Proof.
  intros Hd Hn. unfold point_to. destruct (active_revision t i d) as [c|] eqn:Ea.
  - apply set_active_step; [done| |].
    + unfold unique. rewrite fmap_update by done. apply Hd.
    + intros a (a0 & Ha & ->)%elem_of_update. destruct (active_at t i c a0) eqn:E; [|by left].
      apply active_at_true in E as [[-> ->] _]. by right.
  - apply set_active_step; [done| |].
    + apply unique_app; [apply Hd|]. intros a Ha [= Ht Hi].
      pose proof (active_revision_None _ _ d Ea a Ha) as H.
      by rewrite (proj2 (active_of_true t i a)) in H.
    + intros a [Ha| ->%list_elem_of_singleton]%elem_of_app; [by left|by right].
Qed.

(** A successful switch: the reference is at the target, no other moved. *)
Lemma switch_active_Ok t i n e b now d d' :
  specs_ok d → stored_at t i n d → switch_active t i n e b now d = (d', Ok tt) →
  spec_step d d' ∧ sp_revisions d' = sp_revisions d ∧
  (∀ t' i', active_revision t' i' d' =
     if (t' == t) && (i' == i) then Some n else active_revision t' i' d) ∧
  (active_revision t i d = e ∨ active_revision t i d = Some n).
Proof.
  intros Hd Hn. rewrite switch_active_run by done.
  destruct (active_revision t i d) as [c|] eqn:Ea.
  - destruct (Z.eqb_spec c n) as [-> |]; [intros [= <-]|case_bool_decide; [intros [= <-]|done]].
    + split_and!; [by apply spec_step_refl|done| |by right]. intros t' i'.
      case_bool_decide as E1; [|done]. case_bool_decide as E2; [|done]. by subst.
    + split_and!; [by apply point_to_step|done|by apply point_to_reads|by left].
  - case_bool_decide; [intros [= <-]|done].
    split_and!; [by apply point_to_step|done|by apply point_to_reads|by left].
Qed.

Lemma switch_active_step t i n e b now d :
  specs_ok d → stored_at t i n d → spec_step d (switch_active t i n e b now d).1.
Proof.
  intros Hd Hn. destruct (switch_active t i n e b now d) as [d' [[]|x]] eqn:E; simpl.
  - by apply switch_active_Ok in E as [? _].
  - rewrite switch_active_run in E by done.
    assert (d' = d) as ->; [|by apply spec_step_refl]. revert E.
    destruct (active_revision t i d); repeat case_match; congruence.
Qed.

(** Deactivating removes exactly that reference. *)
Lemma deactivate_run t i e d :
  specs_ok d →
  deactivate t i e d =
    match active_revision t i d with
    | None => (d, Err (SpecNotFoundError i))
    | Some c =>
        if c =? e then (d <| sp_active := delete_rows (active_at t i c) (sp_active d) |>, Ok c)
        else (d, Err (SpecConflictError ("active " +:+ label +:+ " revision is " +:+ pretty c
                        +:+ ", expected " +:+ pretty e)))
    end.
Proof.
  intros Hd. unfold deactivate. rewrite run_transaction, run_gets_bind.
  destruct (active_revision t i d) as [c|] eqn:Ea; [|done].
  rewrite run_unless_bind. destruct (c =? e); [|done].
  rewrite run_gets_bind, run_modify_bind, run_unless_bind. by rewrite (active_at_one t i c d).
Qed.

Lemma deactivate_reads t i c d t' i' :
  specs_ok d → active_revision t i d = Some c →
  active_revision t' i' (d <| sp_active := delete_rows (active_at t i c) (sp_active d) |>) =
    if (t' == t) && (i' == i) then None else active_revision t' i' d.
Proof.
  intros Hd (a & Ha & Ht & Hi & Hc)%active_revision_Some. unfold active_revision. simpl.
  destruct (select_one (active_of t' i') (delete_rows _ _)) as [a'|] eqn:E.
  - apply select_one_Some in E as [[Ha' Hna]%elem_of_delete_rows [<- <-]%active_of_true].
    pose proof (active_revision_in d a' Hd Ha') as Hr. unfold active_revision in Hr. rewrite Hr.
    case_bool_decide as E1; [|done]. case_bool_decide as E2; [|done].
    assert (a' = a) as ->.
    { apply (unique_eq (λ a, (rf_tenant a, rf_id a)) (sp_active d)); [apply Hd|done..|congruence]. }
    by rewrite (proj2 (active_at_true _ _ _ a)) in Hna.
  - rewrite select_one_None in E. case_bool_decide as E1; simpl; [case_bool_decide as E2; [done|]|];
      (destruct (select_one (active_of t' i') (sp_active d)) as [a'|] eqn:E'; [|done]);
      apply select_one_Some in E' as [Ha' Hat]; rewrite (E a') in Hat; try done;
      apply elem_of_delete_rows; (split; [done|]);
      apply active_of_true in Hat as [??];
      (destruct (active_at t i c a') eqn:Hx; [|done]);
      apply active_at_true in Hx as [[??] _]; congruence.
Qed.

Lemma deactivate_step t i e : steps (deactivate t i e).
Proof.
  intros d Hd. rewrite deactivate_run by done.
  destruct (active_revision t i d) as [c|]; [|by apply spec_step_refl].
  destruct (c =? e); [|by apply spec_step_refl]. apply set_active_step; [done| |].
  - apply unique_delete_rows, Hd.
  - intros a [Ha _]%elem_of_delete_rows. by left.
Qed.

(** ** Reading back *)

Lemma get_revision_run t i n d :
  specs_ok d → get_revision t i n d = (d, Ok (revision_at t i n d)).
Proof.
  intros Hd. unfold get_revision. rewrite run_gets_bind, run_outcome.
  destruct (revision_at t i n d) as [r|] eqn:E; [|done].
  apply select_one_Some in E as [Hr _]. simpl. by rewrite (proj1 (sk_rows _ Hd r Hr)).
Qed.

Lemma get_latest_run t i d : specs_ok d → get_latest t i d = (d, Ok (latest_row t i d)).
Proof.
  intros Hd. unfold get_latest. rewrite run_gets_bind, run_outcome.
  pose proof (latest_row_spec t i d Hd) as Hl.
  destruct (latest_row t i d) as [r|]; [|done].
  simpl. by rewrite (proj1 (sk_rows _ Hd r (proj1 Hl))).
Qed.

Lemma get_active_run t i d :
  specs_ok d →
  get_active t i d = (d, Ok (n ← active_revision t i d; revision_at t i n d)).
Proof.
  intros Hd. unfold get_active. rewrite run_gets_bind.
  destruct (active_revision t i d); [|done]. by apply get_revision_run.
Qed.

(** A stored revision is found at its number for ever. *)
Lemma revision_at_step t i n d d' r :
  spec_step d d' → revision_at t i n d = Some r → revision_at t i n d' = Some r.
Proof.
  intros [_ [l Hl]]. unfold revision_at. rewrite Hl, select_one_app. by intros ->.
Qed.

Lemma stored_at_read t i n d : specs_ok d → stored_at t i n d → is_Some (revision_at t i n d).
Proof. intros Hd (r & Hr & Hat). exists r. by apply revision_at_Some. Qed.
(** The revision just below a number is the numerically previous one. *)
Lemma previous_row_spec t i n d :
  specs_ok d → n ≤ count_of t i d + 1 → previous_row t i n d = revision_at t i (n - 1) d.
Proof.
  intros Hd Hn. unfold previous_row. destruct (head _) as [r|] eqn:Hhd.
  - apply (order_by_head _ newest_total) in Hhd as [[Hr [Ho Hlt]%andb_true_iff]%elem_of_select Hmax];
      [|by apply newest_trans].
    apply Z.ltb_lt in Hlt. pose proof (revision_range t i d r Hd Hr Ho) as Hrange.
    destruct (revision_exists t i (n - 1) d Hd) as (r' & Hr' & Hat); [lia|].
    assert (rv_revision r = n - 1) as Heq.
    { apply at_revision_true in Hat as [Ho' Hrev].
      destruct (Hmax r') as [-> |Hle]; [|done|].
      - apply elem_of_select. split; [done|].
        by rewrite (proj2 (of_spec_true t i r') Ho'), (proj2 (Z.ltb_lt _ _)) by lia.
      - unfold newest in Hle. apply Z.leb_le in Hle. lia. }
    symmetry. apply revision_at_Some; [done..|]. apply at_revision_true.
    by apply of_spec_true in Ho.
  - apply order_by_head_None in Hhd. symmetry. apply select_one_None. intros r Hr.
    destruct (at_revision t i (n - 1) r) eqn:Hat; [|done]. exfalso.
    apply at_revision_true in Hat as [Ho Hrev].
    assert (r ∈ select (λ r, of_spec t i r && (rv_revision r <? n)) (sp_revisions d)) as Hin.
    { apply elem_of_select. split; [done|].
      by rewrite (proj2 (of_spec_true t i r) Ho), (proj2 (Z.ltb_lt _ _)) by lia. }
    rewrite Hhd in Hin. by apply not_elem_of_nil in Hin.
Qed.

(** Rows of a store read back as they are. *)
Lemma decode_rows_id d l : specs_ok d → (∀ r, r ∈ l → r ∈ sp_revisions d) → all_ok (decode_row <$> l) = Ok l.
Proof.
  intros Hd. induction l as [|r l IH]; intros Hl; [done|].
  rewrite fmap_cons. cbn [all_ok].
  rewrite (proj1 (sk_rows _ Hd r (Hl r (list_elem_of_here _ _)))).
  rewrite IH; [done|]. intros r' Hr'. by apply Hl, list_elem_of_further.
Qed.

Lemma id_order_total r r' : id_order r r' = true ∨ id_order r' r = true.
Proof. apply text_le_total. Qed.

Lemma list_latest_run t d :
  specs_ok d → ∃ l, list_latest t d = (d, Ok l) ∧ Sorted (λ x y, id_order x y = true) l ∧
    ∀ r, r ∈ l ↔ rv_tenant r = t ∧ latest_row t (rv_id r) d = Some r.
Proof.
  intros Hd. unfold list_latest. rewrite run_gets_bind. eexists. split; [|split].
  - unfold decode_all. rewrite run_outcome, (decode_rows_id d); [done..|].
    intros r. rewrite order_by_perm. by intros [Hr _]%elem_of_select.
  - apply order_by_sorted, id_order_total.
  - intros r. rewrite order_by_perm, elem_of_select, andb_true_iff, bool_decide_eq_true, forallb_forall.
    pose proof (latest_row_spec t (rv_id r) d Hd) as Hl. split.
    + intros (Hr & Ht & Hall). split; [done|].
      assert (of_spec t (rv_id r) r = true) as Ho by (by apply of_spec_true).
      pose proof (revision_range t (rv_id r) d r Hd Hr Ho) as Hrange.
      destruct (latest_row t (rv_id r) d) as [r'|]; [|lia].
      destruct Hl as (Hr' & Ho' & Hn). f_equal.
      assert (rv_revision r' ≤ rv_revision r) as Hle.
      { specialize (Hall r' (proj1 (list_elem_of_In _ _) Hr')). rewrite Ho' in Hall.
        by apply Z.leb_le in Hall. }
      apply (revision_unique t (rv_id r) (rv_revision r') d); [done..| |].
      * apply at_revision_true. by apply of_spec_true in Ho'.
      * apply at_revision_true. split; [by apply of_spec_true in Ho|]. lia.
    + intros [Ht Hlatest]. rewrite Hlatest in Hl. destruct Hl as (Hr & Ho & Hn).
      split_and!; [done..|]. intros r' Hr'%list_elem_of_In.
      destruct (of_spec t (rv_id r) r') eqn:Ho'; [|done]. simpl. apply Z.leb_le.
      pose proof (revision_range t (rv_id r) d r' Hd Hr' Ho'). lia.
Qed.

Lemma list_active_run t d :
  specs_ok d → ∃ l, list_active t d = (d, Ok l) ∧ Sorted (λ x y, id_order x y = true) l ∧
    ∀ r, r ∈ l ↔ rv_tenant r = t ∧ r ∈ sp_revisions d ∧
                 active_revision t (rv_id r) d = Some (rv_revision r).
Proof.
  intros Hd. unfold list_active. rewrite run_gets_bind. eexists. split; [|split].
  - unfold decode_all. rewrite run_outcome, (decode_rows_id d); [done..|].
    intros r. rewrite order_by_perm. intros (a & Ha & Hr)%list_elem_of_omap.
    case_bool_decide; [|done]. by apply select_one_Some in Hr as [? _].
  - apply order_by_sorted, id_order_total.
  - intros r. rewrite order_by_perm, list_elem_of_omap. split.
    + intros (a & Ha & Hr). case_bool_decide as Ht; [|done].
      apply select_one_Some in Hr as [Hr [[H1 H2] H3]%at_revision_true].
      pose proof (active_revision_in d a Hd Ha) as Hact.
      rewrite H1, H2, H3, <- Ht. by split_and!.
    + intros (Ht & Hr & (a & Ha & H1 & H2 & H3)%active_revision_Some). exists a. split; [done|].
      rewrite H1, H2, H3, bool_decide_eq_true_2 by done.
      apply revision_at_Some; [done..|]. by apply at_revision_true.
Qed.

(** Steps compose. *)
Lemma steps_ret {A} (a : A) : steps (mret a).
Proof. intros d. apply spec_step_refl. Qed.
Lemma steps_raise {A} e : steps (raise (A := A) e).
Proof. intros d. apply spec_step_refl. Qed.
Lemma steps_gets {A} (f : spec_db W → A) : steps (gets f).
Proof. intros d. apply spec_step_refl. Qed.
Lemma steps_outcome {A} (o : outcome A) : steps (from_outcome o).
Proof. intros d. apply spec_step_refl. Qed.
Lemma steps_unless b e : steps (unless b e).
Proof. destruct b; intros d; apply spec_step_refl. Qed.
Lemma steps_bind {A B} (m : M (spec_db W) A) (k : A → M (spec_db W) B) :
  steps m → (∀ a, steps (k a)) → steps (m ≫= k).
Proof.
  intros Hm Hk d Hd. specialize (Hm d Hd). rewrite run_bind.
  destruct (m d) as [d' [a|e]]; [|done]. simpl in Hm.
  eapply spec_step_trans; [exact Hm|]. apply Hk. by destruct Hm.
Qed.
Lemma steps_read {A} (m : M (spec_db W) A) : (∀ d, specs_ok d → (m d).1 = d) → steps m.
Proof. intros Hm d Hd. rewrite Hm by done. by apply spec_step_refl. Qed.
Lemma steps_get_revision t i n : steps (get_revision t i n).
Proof. apply steps_read. intros d Hd. by rewrite get_revision_run. Qed.
Lemma steps_get_latest t i : steps (get_latest t i).
Proof. apply steps_read. intros d Hd. by rewrite get_latest_run. Qed.
Lemma steps_previous t i n : steps (previous_revision t i n).
Proof.
  apply steps_read. intros d Hd. unfold previous_revision. by rewrite run_gets_bind, run_outcome.
Qed.

(** Calls that leave the revisions table alone are those that keep it equal
    to any given table. *)
Definition keeps {A} (m : M (spec_db W) A) : Prop :=
  ∀ l, preserves (λ d, sp_revisions d = l) m.

Lemma switch_active_keeps t i n e b now : keeps (switch_active t i n e b now).
Proof.
  intros l. unfold switch_active. apply preserves_bind; [apply preserves_gets|]. intros [c|].
  - destruct (c =? n); [apply preserves_ret|]. apply preserves_bind; [apply preserves_unless|].
    intros _. apply preserves_bind; [apply preserves_gets|]. intros k.
    apply preserves_bind; [by apply preserves_modify|]. intros _. apply preserves_unless.
  - apply preserves_bind; [apply preserves_unless|]. intros _. unfold insert_active.
    apply preserves_try_modify. intros d d' <-. destruct (insert_row _ _ _); [|done]. by intros [= <-].
Qed.

Lemma deactivate_keeps t i e : keeps (deactivate t i e).
Proof.
  intros l. unfold deactivate. apply preserves_transaction, preserves_bind; [apply preserves_gets|].
  intros [c|]; [|apply preserves_raise]. apply preserves_bind; [apply preserves_unless|].
  intros _. apply preserves_bind; [apply preserves_gets|]. intros k.
  apply preserves_bind; [by apply preserves_modify|]. intros _.
  apply preserves_bind; [apply preserves_unless|]. intros _. apply preserves_ret.
Qed.
End Methods.

Create HintDb spec_steps.
#[export] Hint Resolve steps_ret steps_raise steps_gets steps_outcome steps_unless steps_bind
  steps_get_revision steps_get_latest steps_previous deactivate_step : spec_steps.
