(* ===== verification/SpecModels.v ===== *)
(** * Agent and trigger contracts ([specs/models.py], [specs/protocol.py])

    The write requests for agents and triggers with the validation their
    Pydantic models do, as contents of the revision machine. The databases the
    validators ask (time zones, cron syntax, JSON value cleaning) and the text
    Pydantic writes for an instant are the class [SpecEnv]. *)

From S2P Require Import Prelude Sqlite PyText Sha256 Json Protocol Revisions.
#[local] Open Scope string_scope.
#[local] Open Scope list_scope.
#[local] Open Scope Z_scope.

(** An instant in microseconds, with its UTC offset when it has one. *)
Record datetime := Datetime {
  dt_instant : Z;
  dt_offset : option Z;
}.
#[global] Instance datetime_eq_dec : EqDecision datetime.
Proof. solve_decision. Defined.

(** [ZoneInfo(name)] and [CronTrigger.from_crontab(expression, zone)] succeed;
    the JSON text of an instant; what a [dict[str, JsonValue]] field makes of
    its value. *)
Class SpecEnv := {
  zone_known : string → bool;
  crontab_ok : string → string → bool;
  iso_text : datetime → string;
  json_object : list (string * json) → list (string * json);
}.
Class SpecEnvLaws (E : SpecEnv) : Prop := {
  json_object_idem : ∀ l, json_object (json_object l) = json_object l;
}.

(** ** Shared fields *)

(** [ToolName] *)
Definition tool_name (s : string) : option string :=
  let v := strip s in
  if matches (λ c, is_lower c || is_digit c || is_char 95 c) 99 v then Some v else None.

Definition clean_tools (l : list string) : option (list string) := mapM tool_name l.

(** [dict[ProtocolSlug, str]] of at most 100 members: keys that become equal
    are one member, the last value stays. *)
Definition clean_label (kv : string * string) : option (string * string) :=
  k ← slug kv.1; Some (k, strip kv.2).
Definition validate_labels (l : list (string * string)) : option (list (string * string)) :=
  pairs ← mapM clean_label l;
  let d := dict_update [] pairs in
  if (length d <=? 100)%nat then Some d else None.

Definition bounded (low high z : Z) : bool := (low <=? z) && (z <=? high).

(** ** Agents *)

Inductive isolation := Private | External.
Inductive tool_policy := ProfileDefault | Allowlist.
Inductive memory_scope := OwnerMemory | SpecMemory | NoMemory.
Inductive workspace_scope := ReadWrite | ReadOnly | NoWorkspace.
#[global] Instance isolation_eq_dec : EqDecision isolation.
Proof. solve_decision. Defined.
#[global] Instance tool_policy_eq_dec : EqDecision tool_policy.
Proof. solve_decision. Defined.
#[global] Instance memory_scope_eq_dec : EqDecision memory_scope.
Proof. solve_decision. Defined.
#[global] Instance workspace_scope_eq_dec : EqDecision workspace_scope.
Proof. solve_decision. Defined.

Definition external_agent_tools : list string :=
  ["knowledge_find"; "knowledge_list"; "knowledge_query"].

Record agent_write := AgentSpecWrite {
  aw_name : string;
  aw_description : string;
  aw_runtime_profile : string;
  aw_model_alias : string;
  aw_instructions : string;
  aw_isolation : isolation;
  aw_tool_policy : tool_policy;
  aw_tools : list string;
  aw_memory_scope : memory_scope;
  aw_workspace_scope : workspace_scope;
  aw_allow_delegation : bool;
  aw_max_runtime_seconds : Z;
  aw_max_model_calls : Z;
  aw_output_schema : option (list (string * json));
  aw_labels : list (string * string);
}.
#[global] Instance agent_write_eq_dec : EqDecision agent_write.
Proof. solve_decision. Defined.
#[global] Instance agent_write_fields : Fields agent_write := λ w,
  AgentSpecWrite (aw_name w) (aw_description w) (aw_runtime_profile w) (aw_model_alias w)
    (aw_instructions w) (aw_isolation w) (aw_tool_policy w) (aw_tools w) (aw_memory_scope w)
    (aw_workspace_scope w) (aw_allow_delegation w) (aw_max_runtime_seconds w)
    (aw_max_model_calls w) (aw_output_schema w) (aw_labels w).

(** [AgentSpecWrite.validate_isolation] *)
Definition unsafe_tools (w : agent_write) : list string :=
  order_by text_le
    (List.filter (λ t, negb (bool_decide (t ∈ external_agent_tools))) (aw_tools w)).
Definition listed (b : bool) (what : string) : list string := if b then [what] else [].
Definition unsafe_features (w : agent_write) : list string :=
  listed (negb (aw_memory_scope w == NoMemory)) "memory"
  ++ listed (negb (aw_workspace_scope w == NoWorkspace)) "workspace access"
  ++ listed (aw_allow_delegation w) "delegation"
  ++ listed (negb (aw_tool_policy w == Allowlist)) "profile-default tools"
  ++ listed (negb (unsafe_tools w == [])) ("non-knowledge tools: " +:+ join_text ", " (unsafe_tools w)).

Definition validate_isolation (w : agent_write) : outcome agent_write :=
  if negb (bool_decide (NoDup (aw_tools w))) then Err (ValidationError "tools must be unique")
  else if (aw_isolation w == External) && negb (unsafe_features w == [])
  then Err (ValidationError ("external AgentSpec cannot use " +:+ join_text ", " (unsafe_features w)))
  else if (aw_tool_policy w == ProfileDefault) && negb (aw_tools w == [])
  then Err (ValidationError "profile_default tool policy cannot include an allowlist")
  else Ok w.

(** ** Triggers *)

Inductive authentication := AuthRequired | TrustedInternal.
Inductive trigger_source :=
  | AtTrigger (run_at : datetime) (timezone : string)
  | CronTriggerSpec (expression timezone : string)
  | IntervalTrigger (every_seconds : Z)
  | EventTrigger (event_type source : string) (auth : authentication).
Inductive delivery_mode := NoDelivery | ToOrigin | ToOwner.
#[global] Instance authentication_eq_dec : EqDecision authentication.
Proof. solve_decision. Defined.
#[global] Instance trigger_source_eq_dec : EqDecision trigger_source.
Proof. solve_decision. Defined.
#[global] Instance delivery_mode_eq_dec : EqDecision delivery_mode.
Proof. solve_decision. Defined.

Record delivery_spec := DeliverySpec {
  ds_mode : delivery_mode;
  ds_interface : option string;
}.
#[global] Instance delivery_spec_eq_dec : EqDecision delivery_spec.
Proof. solve_decision. Defined.

(** [TriggerExposure] has the two values of [SpecIsolation]. *)
Record trigger_write := TriggerSpecWrite {
  tw_name : string;
  tw_source : trigger_source;
  tw_exposure : isolation;
  tw_agent_spec : agent_spec_ref;
  tw_instruction : string;
  tw_delivery : delivery_spec;
  tw_enabled : bool;
  tw_source_key : option string;
  tw_source_revision : option Z;
  tw_labels : list (string * string);
}.
#[global] Instance trigger_write_eq_dec : EqDecision trigger_write.
Proof. solve_decision. Defined.

Definition validate_exposure (w : trigger_write) : outcome trigger_write :=
  match tw_exposure w, tw_source w with
  | External, EventTrigger _ _ auth =>
      if auth == AuthRequired then Ok w
      else Err (ValidationError "external event triggers require authentication")
  | External, _ => Err (ValidationError "external triggers must be authenticated event triggers")
  | Private, _ => Ok w
  end.

Definition validate_delivery (d : delivery_spec) : option delivery_spec :=
  interface ← optional_field slug (ds_interface d);
  match interface, ds_mode d with
  | Some _, NoDelivery => None
  | _, _ => Some (DeliverySpec (ds_mode d) interface)
  end.

Section Models.
Context {E : SpecEnv}.

Definition validate_agent_write (w : agent_write) : outcome agent_write :=
  match text_field 1 200 (aw_name w), text_field 0 4000 (aw_description w),
        slug (aw_runtime_profile w), text_field 1 200 (aw_model_alias w),
        text_field 1 200000 (aw_instructions w), clean_tools (aw_tools w),
        validate_labels (aw_labels w) with
  | Some name, Some description, Some profile, Some alias, Some instructions, Some tools,
    Some labels =>
      if (length tools <=? 200)%nat && bounded 1 86400 (aw_max_runtime_seconds w)
         && bounded 1 10000 (aw_max_model_calls w)
      then validate_isolation
             (AgentSpecWrite name description profile alias instructions (aw_isolation w)
                (aw_tool_policy w) tools (aw_memory_scope w) (aw_workspace_scope w)
                (aw_allow_delegation w) (aw_max_runtime_seconds w) (aw_max_model_calls w)
                (json_object <$> aw_output_schema w) labels)
      else Err (ValidationError "AgentSpecWrite")
  | _, _, _, _, _, _, _ => Err (ValidationError "AgentSpecWrite")
  end.

(** [_iana_timezone] *)
Definition iana_timezone (value : string) : option string :=
  let timezone := strip value in if zone_known timezone then Some timezone else None.

Definition validate_source (s : trigger_source) : option trigger_source :=
  match s with
  | AtTrigger run_at timezone =>
      if bool_decide (is_Some (dt_offset run_at)) then
        zone ← text_field 1 100 timezone; zone ← iana_timezone zone; Some (AtTrigger run_at zone)
      else None
  | CronTriggerSpec expression timezone =>
      e ← text_field 1 200 expression; z ← text_field 1 100 timezone; zone ← iana_timezone z;
      if crontab_ok e zone then Some (CronTriggerSpec e z) else None
  | IntervalTrigger n => if bounded 1 31536000 n then Some (IntervalTrigger n) else None
  | EventTrigger event_type source auth =>
      t ← slug event_type; s ← slug source; Some (EventTrigger t s auth)
  end.

Definition validate_trigger_write (w : trigger_write) : outcome trigger_write :=
  match text_field 1 200 (tw_name w), validate_source (tw_source w),
        validate_ref (tw_agent_spec w), text_field 1 200000 (tw_instruction w),
        validate_delivery (tw_delivery w), optional_field (text_field 1 300) (tw_source_key w),
        validate_labels (tw_labels w) with
  | Some name, Some source, Some ref, Some instruction, Some delivery, Some key, Some labels =>
      if match tw_source_revision w with Some n => 1 <=? n | None => true end then
        validate_exposure
          (TriggerSpecWrite name source (tw_exposure w) ref instruction delivery (tw_enabled w) key
             (tw_source_revision w) labels)
      else Err (ValidationError "TriggerSpecWrite")
  | _, _, _, _, _, _, _ => Err (ValidationError "TriggerSpecWrite")
  end.
End Models.

(** ** Validated requests validate to themselves *)

Lemma tool_name_Some s v : tool_name s = Some v → tool_name v = Some v.
Proof.
  unfold tool_name. destruct (matches _ _ _) eqn:E; intros [= <-]. by rewrite strip_stripped, E.
Qed.

Lemma clean_tools_Some l l' : clean_tools l = Some l' → clean_tools l' = Some l'.
Proof. apply mapM_fixed, tool_name_Some. Qed.

Lemma clean_label_Some kv kv' : clean_label kv = Some kv' → clean_label kv' = Some kv'.
Proof.
  unfold clean_label. destruct (slug kv.1) as [k|] eqn:E; [|done]. intros [= <-]. simpl.
  by rewrite (slug_Some _ _ E), strip_stripped.
Qed.

Lemma mapM_all {A} (f : A → option A) l : (∀ a, a ∈ l → f a = Some a) → mapM f l = Some l.
Proof.
  intros Hf. apply mapM_Some_2, Forall2_same_length_lookup_2; [done|].
  intros i x y Hx Hy. simplify_eq. by apply Hf, (list_elem_of_lookup_2 _ i).
Qed.

Lemma mapM_own {A} (f : A → option A) l a : mapM f l = Some l → a ∈ l → f a = Some a.
Proof.
  intros Hl%mapM_Some_1 [i Hi]%list_elem_of_lookup_1.
  by destruct (Forall2_lookup_l _ _ _ _ _ Hl Hi) as (b & Hb & Hab); simplify_eq.
Qed.

Lemma validate_labels_Some l l' : validate_labels l = Some l' → validate_labels l' = Some l'.
Proof.
  unfold validate_labels. destruct (mapM clean_label l) as [pairs|] eqn:E; [|done]. simpl.
  destruct (_ <=? 100)%nat eqn:Hlen; [|done]. intros [= <-].
  assert (NoDup (dict_update [] pairs).*1) as Hnd by (apply dict_update_NoDup, NoDup_nil_2).
  rewrite (mapM_all clean_label (dict_update [] pairs)).
  - simpl. rewrite (dict_update_id [] (dict_update [] pairs)); simpl; [by rewrite Hlen|done].
  - intros kv [?|Hkv]%dict_update_elem; [set_solver|].
    eapply mapM_own; [|exact Hkv]. eapply mapM_fixed; [apply clean_label_Some|exact E].
Qed.

Lemma validate_delivery_Some d d' : validate_delivery d = Some d' → validate_delivery d' = Some d'.
Proof.
  unfold validate_delivery. destruct (optional_field _ _) as [i|] eqn:E; [|done]. simpl.
  intros H. assert (d' = DeliverySpec (ds_mode d) i) as ->.
  { destruct i, (ds_mode d); congruence. }
  simpl. rewrite (optional_field_Some _ _ _ slug_Some E). done.
Qed.

Lemma validate_isolation_Ok w w' : validate_isolation w = Ok w' → w' = w.
Proof. unfold validate_isolation. repeat case_match; congruence. Qed.

Lemma validate_exposure_Ok w w' : validate_exposure w = Ok w' → w' = w.
Proof. unfold validate_exposure. repeat case_match; congruence. Qed.

Section Laws.
Context {E : SpecEnv} {Laws : SpecEnvLaws E}.

Lemma validate_agent_write_idem w w' :
  validate_agent_write w = Ok w' → validate_agent_write w' = Ok w'.
Proof.
  unfold validate_agent_write.
  destruct (text_field _ _ (aw_name w)) eqn:E1; [|done].
  destruct (text_field _ _ (aw_description w)) eqn:E2; [|done].
  destruct (slug (aw_runtime_profile w)) eqn:E3; [|done].
  destruct (text_field _ _ (aw_model_alias w)) eqn:E4; [|done].
  destruct (text_field _ _ (aw_instructions w)) eqn:E5; [|done].
  destruct (clean_tools (aw_tools w)) eqn:E6; [|done].
  destruct (validate_labels (aw_labels w)) eqn:E7; [|done].
  destruct (_ && _) eqn:E8; [|done]. intros H. pose proof (validate_isolation_Ok _ _ H) as ->. simpl.
  rewrite (text_field_Some _ _ _ _ E1), (text_field_Some _ _ _ _ E2), (slug_Some _ _ E3),
    (text_field_Some _ _ _ _ E4), (text_field_Some _ _ _ _ E5), (clean_tools_Some _ _ E6),
    (validate_labels_Some _ _ E7), E8.
  assert (json_object <$> (json_object <$> aw_output_schema w) = json_object <$> aw_output_schema w)
    as ->; [|done].
  destruct (aw_output_schema w); [|done]. simpl. by rewrite json_object_idem.
Qed.

Lemma iana_timezone_Some z z' : iana_timezone z = Some z' → zone_known z' = true ∧ z' = strip z.
Proof. unfold iana_timezone. destruct (zone_known _) eqn:Hz; [|done]. by intros [= <-]. Qed.

Lemma validate_source_Some s s' : validate_source s = Some s' → validate_source s' = Some s'.
Proof.
  destruct s as [at_ zone|expression zone|n|ty source auth]; simpl.
  - destruct (bool_decide _) eqn:E0; [|done].
    destruct (text_field _ _ zone) as [z|] eqn:E1; [|done]. simpl.
    destruct (iana_timezone z) as [z'|] eqn:E2; [|done]. simpl. intros [= <-]. simpl. rewrite E0.
    apply iana_timezone_Some in E2 as E3. destruct E3 as [_ ->].
    assert (strip z = z) as Hz by (revert E1; unfold text_field; case_match; intros [= <-];
      apply strip_stripped).
    rewrite Hz in *. by rewrite (text_field_Some _ _ _ _ E1); simpl; rewrite E2.
  - destruct (text_field _ _ expression) as [e|] eqn:E1; [|done]. simpl.
    destruct (text_field _ _ zone) as [z|] eqn:E2; [|done]. simpl.
    destruct (iana_timezone z) as [z'|] eqn:E3; [|done]. simpl.
    destruct (crontab_ok e z') eqn:E4; [|done]. intros [= <-]. simpl.
    by rewrite (text_field_Some _ _ _ _ E1), (text_field_Some _ _ _ _ E2); simpl; rewrite E3; simpl; rewrite E4.
  - destruct (bounded _ _ _) eqn:Hb; [|done]. intros [= <-]. simpl. by rewrite Hb.
  - destruct (slug ty) as [t|] eqn:E1; [|done]. simpl. destruct (slug source) as [s|] eqn:E2; [|done].
    simpl. intros [= <-]. simpl. by rewrite (slug_Some _ _ E1); simpl; rewrite (slug_Some _ _ E2).
Qed.

Lemma validate_trigger_write_idem w w' :
  validate_trigger_write w = Ok w' → validate_trigger_write w' = Ok w'.
Proof.
  unfold validate_trigger_write.
  destruct (text_field _ _ (tw_name w)) eqn:E1; [|done].
  destruct (validate_source _) eqn:E2; [|done].
  destruct (validate_ref _) eqn:E3; [|done].
  destruct (text_field _ _ (tw_instruction w)) eqn:E4; [|done].
  destruct (validate_delivery _) eqn:E5; [|done].
  destruct (optional_field _ _) eqn:E6; [|done].
  destruct (validate_labels _) eqn:E7; [|done].
  destruct (match tw_source_revision w with Some _ => _ | None => _ end) eqn:E8; [|done].
  intros H. pose proof (validate_exposure_Ok _ _ H) as ->. simpl.
  by rewrite (text_field_Some _ _ _ _ E1), (validate_source_Some _ _ E2), (validate_ref_Some _ _ E3),
    (text_field_Some _ _ _ _ E4), (validate_delivery_Some _ _ E5),
    (optional_field_Some _ _ _ (text_field_Some 1 300) E6), (validate_labels_Some _ _ E7), E8.
Qed.

(** What a validated request satisfies. *)
Lemma validated_agent w : validate_agent_write w = Ok w → validate_isolation w = Ok w.
Proof.
  unfold validate_agent_write.
  repeat case_match; try done. intros Hv. pose proof (validate_isolation_Ok _ _ Hv) as Heq.
  by rewrite <- Heq in Hv at 1.
Qed.

Lemma validated_trigger w : validate_trigger_write w = Ok w → validate_exposure w = Ok w.
Proof.
  unfold validate_trigger_write.
  repeat case_match; try done; intros Hv; pose proof (validate_exposure_Ok _ _ Hv) as Heq;
    by rewrite <- Heq in Hv at 1.
Qed.

Lemma external_agent_safe w :
  validate_agent_write w = Ok w → aw_isolation w = External →
  aw_memory_scope w = NoMemory ∧ aw_workspace_scope w = NoWorkspace ∧
  aw_allow_delegation w = false ∧ aw_tool_policy w = Allowlist ∧
  ∀ t, t ∈ aw_tools w → t ∈ external_agent_tools.
Proof.
  intros Hv%validated_agent Hi. revert Hv. unfold validate_isolation. rewrite Hi.
  destruct (negb _); [done|]. rewrite (bool_decide_eq_true_2 (External = External)) by done.
  destruct (unsafe_features w) as [|f l] eqn:Hf; [|done]. intros _.
  unfold unsafe_features, listed in Hf.
  destruct (bool_decide (aw_memory_scope w = NoMemory)) eqn:H1; [|done].
  destruct (bool_decide (aw_workspace_scope w = NoWorkspace)) eqn:H2; [|done].
  destruct (aw_allow_delegation w) eqn:H3; [done|].
  destruct (bool_decide (aw_tool_policy w = Allowlist)) eqn:H4; [|done].
  destruct (bool_decide (unsafe_tools w = [])) eqn:H5; [|done].
  apply bool_decide_eq_true in H1, H2, H4, H5. split_and!; try done.
  intros t Ht. destruct (decide (t ∈ external_agent_tools)) as [|Hn]; [done|]. exfalso.
  assert (t ∈ unsafe_tools w) as Hin.
  { unfold unsafe_tools. rewrite order_by_perm. apply elem_of_select. split; [done|].
    by rewrite bool_decide_eq_false_2. }
  rewrite H5 in Hin. by apply not_elem_of_nil in Hin.
Qed.

Lemma external_trigger_authenticated w :
  validate_trigger_write w = Ok w → tw_exposure w = External →
  ∃ event_type source, tw_source w = EventTrigger event_type source AuthRequired.
Proof.
  intros Hv%validated_trigger He. revert Hv. unfold validate_exposure. rewrite He.
  destruct (tw_source w) as [| | |ty src auth]; try done.
  case_bool_decide as Ha; [|done]. intros _. rewrite Ha. eauto.
Qed.
End Laws.
