(* ===== verification/Specs.v ===== *)
(** * Agent and trigger stores and services
    ([specs/store.py], [specs/service.py], [specs/defaults.py])

    The two revision stores over their contents, the check that binds a trigger
    to the exact agent revision it runs, and the services in front of them:
    activation, rollback and the seeding of the default agents. The two stores
    are two databases: a service call is a sequence of their transactions. *)

From S2P Require Import Prelude Sqlite PyText Sha256 Json Protocol Revisions SpecModels.
#[local] Open Scope string_scope.
#[local] Open Scope list_scope.
#[local] Open Scope Z_scope.

(** ** Canonical texts *)

Definition isolation_text (i : isolation) : string :=
  match i with Private => "private" | External => "external" end.
Definition tool_policy_text (p : tool_policy) : string :=
  match p with ProfileDefault => "profile_default" | Allowlist => "allowlist" end.
Definition memory_text (m : memory_scope) : string :=
  match m with OwnerMemory => "owner" | SpecMemory => "spec" | NoMemory => "none" end.
Definition workspace_text (w : workspace_scope) : string :=
  match w with ReadWrite => "read_write" | ReadOnly => "read_only" | NoWorkspace => "none" end.
Definition delivery_text (m : delivery_mode) : string :=
  match m with NoDelivery => "none" | ToOrigin => "origin" | ToOwner => "owner" end.
Definition auth_text (a : authentication) : string :=
  match a with AuthRequired => "required" | TrustedInternal => "trusted_internal" end.
Definition labels_json (l : list (string * string)) : json :=
  JObj ((λ kv, (kv.1, JStr kv.2)) <$> l).

(** [model_dump(mode='json')] *)
Definition agent_json (w : agent_write) : json :=
  JObj [("name", JStr (aw_name w)); ("description", JStr (aw_description w));
        ("runtime_profile", JStr (aw_runtime_profile w)); ("model_alias", JStr (aw_model_alias w));
        ("instructions", JStr (aw_instructions w));
        ("isolation", JStr (isolation_text (aw_isolation w)));
        ("tool_policy", JStr (tool_policy_text (aw_tool_policy w)));
        ("tools", JArr (JStr <$> aw_tools w)); ("memory_scope", JStr (memory_text (aw_memory_scope w)));
        ("workspace_scope", JStr (workspace_text (aw_workspace_scope w)));
        ("allow_delegation", JBool (aw_allow_delegation w));
        ("max_runtime_seconds", JInt (aw_max_runtime_seconds w));
        ("max_model_calls", JInt (aw_max_model_calls w));
        ("output_schema", optional_json JObj (aw_output_schema w));
        ("labels", labels_json (aw_labels w))].

Section Stores.
Context {E : SpecEnv}.

Definition source_json (s : trigger_source) : json :=
  match s with
  | AtTrigger run_at timezone =>
      JObj [("kind", JStr "at"); ("run_at", JStr (iso_text run_at)); ("timezone", JStr timezone)]
  | CronTriggerSpec expression timezone =>
      JObj [("kind", JStr "cron"); ("expression", JStr expression); ("timezone", JStr timezone)]
  | IntervalTrigger n => JObj [("kind", JStr "interval"); ("every_seconds", JInt n)]
  | EventTrigger event_type source auth =>
      JObj [("kind", JStr "event"); ("event_type", JStr event_type); ("source", JStr source);
            ("authentication", JStr (auth_text auth))]
  end.

Definition trigger_json (w : trigger_write) : json :=
  JObj [("name", JStr (tw_name w)); ("source", source_json (tw_source w));
        ("exposure", JStr (isolation_text (tw_exposure w)));
        ("agent_spec", ref_json (tw_agent_spec w)); ("instruction", JStr (tw_instruction w));
        ("delivery", JObj [("mode", JStr (delivery_text (ds_mode (tw_delivery w))));
                           ("interface", optional_json JStr (ds_interface (tw_delivery w)))]);
        ("enabled", JBool (tw_enabled w)); ("source_key", optional_json JStr (tw_source_key w));
        ("source_revision", optional_json JInt (tw_source_revision w));
        ("labels", labels_json (tw_labels w))].

#[export] Instance agent_content : SpecContent agent_write := {
  validate := validate_agent_write;
  canonical_text := λ w, dumps false (agent_json w);
  label := "AgentSpec";
}.
#[export] Instance trigger_content : SpecContent trigger_write := {
  validate := validate_trigger_write;
  canonical_text := λ w, dumps false (trigger_json w);
  label := "TriggerSpec";
}.

(** ** [AgentSpecStore] *)

Definition agent_spec : Type := revision_row agent_write.
Definition trigger_spec : Type := revision_row trigger_write.
Definition agent_db : Type := spec_db agent_write.
Definition trigger_db : Type := spec_db trigger_write.

Definition ref_of (a : agent_spec) : agent_spec_ref :=
  AgentSpecRef (rv_tenant a) (rv_id a) (rv_revision a).

Definition agent_create (tenant id : string) (w : agent_write) (expected : option Z)
    (created_by : string) (now : Z) : M agent_db agent_spec :=
  create_revision tenant id w expected created_by now.

Definition agent_get_revision (ref : agent_spec_ref) : M agent_db (option agent_spec) :=
  get_revision (ar_tenant ref) (ar_spec ref) (ar_revision ref).

Definition agent_get_latest (tenant id : string) : M agent_db (option agent_spec) :=
  get_latest tenant id.

Definition agent_get_active_ref (tenant id : string) : M agent_db (option agent_spec_ref) :=
  active ← gets (active_revision tenant id);
  match active with
  | None => mret None
  | Some n => match validate_ref (AgentSpecRef tenant id n) with
              | Some ref => mret (Some ref)
              | None => raise (ValidationError "AgentSpecRef")
              end
  end.

Definition agent_get_active (tenant id : string) : M agent_db (option agent_spec) :=
  ref ← agent_get_active_ref tenant id;
  match ref with Some ref => agent_get_revision ref | None => mret None end.

Definition agent_activate (ref : agent_spec_ref) (expected : option Z) (updated_by : string)
    (now : Z) : M agent_db agent_spec_ref :=
  transaction (
    target ← gets (λ d, exists_row (at_revision (ar_tenant ref) (ar_spec ref) (ar_revision ref))
                          (sp_revisions d));
    unless target (SpecNotFoundError (ar_spec ref));;
    switch_active (ar_tenant ref) (ar_spec ref) (ar_revision ref) expected updated_by now;;
    mret ref).

Definition agent_list_active (tenant : string) : M agent_db (list agent_spec) := list_active tenant.
Definition agent_list_latest (tenant : string) : M agent_db (list agent_spec) := list_latest tenant.
Definition agent_list_revisions (tenant id : string) : M agent_db (list agent_spec) :=
  list_revisions tenant id.
Definition agent_previous_revision (tenant id : string) (before : Z) :
    M agent_db (option agent_spec) := previous_revision tenant id before.

Definition agent_deactivate (tenant id : string) (expected : Z) : M agent_db agent_spec_ref :=
  current ← deactivate tenant id expected;
  match validate_ref (AgentSpecRef tenant id current) with
  | Some ref => mret ref
  | None => raise (ValidationError "AgentSpecRef")
  end.

(** ** [TriggerSpecStore] *)

Record spec_state := SpecState {
  st_agents : agent_db;
  st_triggers : trigger_db;
}.

Definition on_agents {A} : M agent_db A → M spec_state A :=
  zoom st_agents (λ a s, SpecState a (st_triggers s)).
Definition on_triggers {A} : M trigger_db A → M spec_state A :=
  zoom st_triggers (λ t s, SpecState (st_agents s) t).

Definition validate_target (tenant : string) (w : trigger_write) : M spec_state unit :=
  unless (ar_tenant (tw_agent_spec w) == tenant)
    (ValueError "trigger and AgentSpec must belong to the same tenant");;
  target ← on_agents (agent_get_revision (tw_agent_spec w));
  match target with
  | None => raise (SpecNotFoundError (ar_spec (tw_agent_spec w)))
  | Some a =>
      unless (aw_isolation (rv_content a) == tw_exposure w)
        (ValueError "trigger exposure must match the target AgentSpec isolation")
  end.

Definition trigger_create (tenant id : string) (w : trigger_write) (expected : option Z)
    (created_by : string) (now : Z) : M spec_state trigger_spec :=
  validate_target tenant w;;
  on_triggers (create_revision tenant id w expected created_by now).

Definition trigger_get_latest (tenant id : string) : M trigger_db (option trigger_spec) :=
  get_latest tenant id.
Definition trigger_get_revision (tenant id : string) (n : Z) : M trigger_db (option trigger_spec) :=
  get_revision tenant id n.

(** The join of the active reference with its revision. *)
Definition trigger_get_active (tenant id : string) : M trigger_db (option trigger_spec) :=
  row ← gets (λ d, n ← active_revision tenant id d; revision_at tenant id n d);
  from_outcome (decode_found row).

Definition trigger_activate (tenant id : string) (n : Z) (expected : option Z)
    (updated_by : string) (now : Z) : M trigger_db trigger_spec :=
  transaction (
    row ← gets (revision_at tenant id n);
    match row with
    | None => raise (SpecNotFoundError id)
    | Some row =>
        target ← from_outcome (decode_row row);
        switch_active tenant id n expected updated_by now;;
        mret target
    end).

Definition trigger_list_active (tenant : string) : M trigger_db (list trigger_spec) :=
  list_active tenant.
Definition trigger_list_tenant_ids : M trigger_db (list string) :=
  gets (λ d, order_by text_le (remove_dups (rf_tenant <$> sp_active d))).
Definition trigger_get_active_revision (tenant id : string) : M trigger_db (option Z) :=
  gets (active_revision tenant id).
Definition trigger_list_latest (tenant : string) : M trigger_db (list trigger_spec) :=
  list_latest tenant.
Definition trigger_list_revisions (tenant id : string) : M trigger_db (list trigger_spec) :=
  list_revisions tenant id.
Definition trigger_previous_revision (tenant id : string) (before : Z) :
    M trigger_db (option trigger_spec) := previous_revision tenant id before.
Definition trigger_deactivate (tenant id : string) (expected : Z) : M trigger_db Z :=
  deactivate tenant id expected.
End Stores.

(** ** Default agents *)

Definition default_owner_spec_id : string := "owner".
Definition default_owner_max_runtime_seconds : Z := 7200.
Definition default_owner_max_model_calls : Z := 500.
Definition release_repair_tools : list string :=
  ["source_status"; "source_read"; "source_write"; "source_edit"; "source_bash"; "source_activate"].

Definition default_agent_spec_writes : list (string * agent_write) :=
  [(default_owner_spec_id,
    AgentSpecWrite "Owner" "Default private owner agent." "owner" "default"
      "Help the owner accomplish their request safely and directly."
      Private ProfileDefault [] OwnerMemory ReadWrite true
      default_owner_max_runtime_seconds default_owner_max_model_calls None []);
   ("release-repair",
    AgentSpecWrite "Release Repair" "Restricted automatic repair for rejected OpenTulpa releases."
      "owner" "default"
      "Verify release-review blockers, repair source, test, and reactivate once."
      Private Allowlist release_repair_tools NoMemory NoWorkspace false
      default_owner_max_runtime_seconds default_owner_max_model_calls None []);
   ("routine",
    AgentSpecWrite "Routine" "Default private agent for scheduled owner work." "routine" "default"
      "Execute the scheduled instruction and report the result to the owner."
      Private ProfileDefault [] OwnerMemory ReadOnly false 900 100 None []);
   ("intake",
    AgentSpecWrite "Intake" "Isolated externally triggered intake decision agent." "intake" "default"
      "Return a grounded intake decision using only published knowledge."
      External Allowlist ["knowledge_list"; "knowledge_find"; "knowledge_query"]
      NoMemory NoWorkspace false 900 100 None [])].

(** ** [AgentSpecService] *)

(** [str(id or '').strip() or new_short_id(..)] *)
Definition given_id (id : option string) (fresh : string) : string :=
  let v := strip (default "" id) in if v == "" then fresh else v.

Section Services.
Context {E : SpecEnv}.
(** The optional [validate_activation] callbacks of the constructors. *)
Variable check_agent : option (agent_spec → outcome unit).
Variable check_trigger : option (trigger_spec → outcome unit).

Definition validated {A} (check : option (A → outcome unit)) (a : A) : outcome unit :=
  match check with Some f => f a | None => Ok tt end.

Definition agent_service_save (tenant actor : string) (w : agent_write) (id : option string)
    (expected : option Z) (fresh : string) (now : Z) : M agent_db agent_spec :=
  agent_create tenant (given_id id fresh) w expected actor now.

Definition agent_service_activate (tenant actor id : string) (n : Z) (expected : option Z) (now : Z) :
    M agent_db agent_spec :=
  match validate_ref (AgentSpecRef tenant id n) with
  | None => raise (ValidationError "AgentSpecRef")
  | Some ref =>
      spec ← agent_get_revision ref;
      match spec with
      | None => raise (SpecNotFoundError id)
      | Some spec =>
          from_outcome (validated check_agent spec);;
          agent_activate ref expected actor now;;
          mret spec
      end
  end.

Definition agent_service_rollback (tenant actor id : string) (expected now : Z) :
    M agent_db agent_spec :=
  active ← agent_get_active tenant id;
  match active with
  | None => raise (SpecNotFoundError id)
  | Some active =>
      unless (rv_revision active =? expected)
        (SpecConflictError ("active AgentSpec revision is " +:+ pretty (rv_revision active)
           +:+ ", expected " +:+ pretty expected));;
      target ← agent_previous_revision tenant id (rv_revision active);
      match target with
      | None => raise (SpecConflictError "AgentSpec has no previous revision")
      | Some target =>
          from_outcome (validated check_agent target);;
          agent_activate (ref_of target) (Some (rv_revision active)) actor now;;
          mret target
      end
  end.

(** The owner default as earlier releases seeded it. *)
Definition legacy_default (desired : agent_write) : agent_write :=
  desired <| aw_max_runtime_seconds := 900 |> <| aw_max_model_calls := 100 |>.

(** An owner agent still at an old default moves to the current one. *)
Definition upgrade_legacy_owner_default (active : agent_spec) (desired : agent_write)
    (actor : string) (now now' : Z) : M agent_db agent_spec :=
  if negb (rv_id active == default_owner_spec_id) then mret active
  else
    active_write ← from_outcome (validate_agent_write (rv_content active));
    if negb (active_write == legacy_default desired) then mret active
    else
      latest ← agent_get_latest (rv_tenant active) (rv_id active);
      upgraded ← match latest with
                 | Some latest =>
                     if rv_revision latest =? rv_revision active then
                       s ← agent_create (rv_tenant active) (rv_id active) desired
                             (Some (rv_revision active)) actor now;
                       mret (Some s)
                     else
                       w ← from_outcome (validate_agent_write (rv_content latest));
                       mret (if w == desired then Some latest else None)
                 | None =>
                     s ← agent_create (rv_tenant active) (rv_id active) desired
                           (Some (rv_revision active)) actor now;
                     mret (Some s)
                 end;
      match upgraded with
      | None => mret active
      | Some upgraded =>
          agent_activate (ref_of upgraded) (Some (rv_revision active)) actor now';;
          mret upgraded
      end.

Definition seed_default (tenant actor : string) (now now' : Z) (kw : string * agent_write) :
    M agent_db agent_spec :=
  active ← agent_get_active tenant kw.1;
  match active with
  | Some active => upgrade_legacy_owner_default active kw.2 actor now now'
  | None =>
      latest ← agent_get_latest tenant kw.1;
      latest ← match latest with
               | Some latest => mret latest
               | None => agent_create tenant kw.1 kw.2 None actor now
               end;
      agent_activate (ref_of latest) None actor now';;
      mret latest
  end.

Definition seed_defaults (tenant actor : string) (now now' : Z) : M agent_db (list agent_spec) :=
  collect default_agent_spec_writes (seed_default tenant actor now now').

(** ** [TriggerSpecService] *)

Definition trigger_service_save (tenant actor : string) (w : trigger_write) (id : option string)
    (expected : option Z) (fresh : string) (now : Z) : M spec_state trigger_spec :=
  trigger_create tenant (given_id id fresh) w expected actor now.

Definition trigger_service_activate (tenant actor id : string) (n : Z) (expected : option Z)
    (now : Z) : M trigger_db trigger_spec :=
  trigger ← trigger_get_revision tenant id n;
  match trigger with
  | None => raise (SpecNotFoundError id)
  | Some trigger =>
      from_outcome (validated check_trigger trigger);;
      trigger_activate tenant id n expected actor now
  end.

Definition trigger_service_rollback (tenant actor id : string) (expected now : Z) :
    M trigger_db trigger_spec :=
  active ← trigger_get_active tenant id;
  match active with
  | None => raise (SpecNotFoundError id)
  | Some active =>
      unless (rv_revision active =? expected)
        (SpecConflictError ("active TriggerSpec revision is " +:+ pretty (rv_revision active)
           +:+ ", expected " +:+ pretty expected));;
      target ← trigger_previous_revision tenant id (rv_revision active);
      match target with
      | None => raise (SpecConflictError "TriggerSpec has no previous revision")
      | Some target =>
          from_outcome (validated check_trigger target);;
          trigger_activate tenant id (rv_revision target) (Some (rv_revision active)) actor now
      end
  end.
End Services.

(** ** Runs *)

Inductive spec_op :=
  | OpAgentSave (tenant actor : string) (w : agent_write) (id : option string)
      (expected : option Z) (fresh : string) (now : Z)
  | OpAgentActivate (tenant actor id : string) (n : Z) (expected : option Z) (now : Z)
  | OpAgentRollback (tenant actor id : string) (expected now : Z)
  | OpAgentDeactivate (tenant id : string) (expected : Z)
  | OpSeed (tenant actor : string) (now now' : Z)
  | OpTriggerSave (tenant actor : string) (w : trigger_write) (id : option string)
      (expected : option Z) (fresh : string) (now : Z)
  | OpTriggerActivate (tenant actor id : string) (n : Z) (expected : option Z) (now : Z)
  | OpTriggerRollback (tenant actor id : string) (expected now : Z)
  | OpTriggerDeactivate (tenant id : string) (expected : Z).

Definition no_spec_state : spec_state := SpecState no_specs no_specs.

Section Runs.
Context {E : SpecEnv} {Laws : SpecEnvLaws E}.
Variable check_agent : option (agent_spec → outcome unit).
Variable check_trigger : option (trigger_spec → outcome unit).

#[export] Instance agent_content_laws : SpecContentLaws agent_write.
Proof. split. exact validate_agent_write_idem. Qed.
#[export] Instance trigger_content_laws : SpecContentLaws trigger_write.
Proof. split. exact validate_trigger_write_idem. Qed.

(** Requests are validated when they are made. *)
Definition run_spec_op (s : spec_state) (op : spec_op) : spec_state :=
  match op with
  | OpAgentSave t b w i e f now =>
      (w ← from_outcome (validate_agent_write w);
       _ ← on_agents (agent_service_save t b w i e f now); mret tt) s
  | OpAgentActivate t b i n e now =>
      (_ ← on_agents (agent_service_activate check_agent t b i n e now); mret tt) s
  | OpAgentRollback t b i e now =>
      (_ ← on_agents (agent_service_rollback check_agent t b i e now); mret tt) s
  | OpAgentDeactivate t i e => (_ ← on_agents (agent_deactivate t i e); mret tt) s
  | OpSeed t b now now' => (_ ← on_agents (seed_defaults t b now now'); mret tt) s
  | OpTriggerSave t b w i e f now =>
      (w ← from_outcome (validate_trigger_write w);
       _ ← trigger_service_save t b w i e f now; mret tt) s
  | OpTriggerActivate t b i n e now =>
      (_ ← on_triggers (trigger_service_activate check_trigger t b i n e now); mret tt) s
  | OpTriggerRollback t b i e now =>
      (_ ← on_triggers (trigger_service_rollback check_trigger t b i e now); mret tt) s
  | OpTriggerDeactivate t i e => (_ ← on_triggers (trigger_deactivate t i e); mret tt) s
  end.1.
Definition run_specs (ops : list spec_op) (s : spec_state) : spec_state := foldl run_spec_op s ops.

(** ** The operations step *)

Lemma agent_activate_step ref e b now : steps (agent_activate ref e b now).
Proof.
  apply steps_transaction. intros d Hd. rewrite run_gets_bind, run_unless_bind.
  destruct (exists_row _ _) eqn:Hex; [|by apply spec_step_refl].
  apply exists_row_true in Hex as Hat.
  pose proof (switch_active_step (ar_tenant ref) (ar_spec ref) (ar_revision ref) e b now d Hd Hat) as Hs.
  rewrite run_bind. by destruct (switch_active _ _ _ _ _ _ d) as [d' [[]|x]].
Qed.

Lemma trigger_activate_step t i n e b now : steps (trigger_activate t i n e b now).
Proof.
  apply steps_transaction. intros d Hd. rewrite run_gets_bind.
  destruct (revision_at t i n d) as [r|] eqn:Hr; [|by apply spec_step_refl].
  rewrite run_outcome_bind. destruct (decode_row r); [|by apply spec_step_refl].
  apply select_one_Some in Hr.
  pose proof (switch_active_step t i n e b now d Hd (ex_intro _ r Hr)) as Hs.
  rewrite run_bind. by destruct (switch_active _ _ _ _ _ _ d) as [d' [[]|x]].
Qed.

Lemma agent_create_step t i w e b now :
  validate_agent_write w = Ok w → steps (agent_create t i w e b now).
Proof. exact (create_step t i w e b now). Qed.
End Runs.

#[export] Hint Resolve agent_activate_step trigger_activate_step agent_create_step : spec_steps.

Section ServiceSteps.
Context {E : SpecEnv} {Laws : SpecEnvLaws E}.
Variable check_agent : option (agent_spec → outcome unit).
Variable check_trigger : option (trigger_spec → outcome unit).
Implicit Types (d : agent_db) (s : spec_state).

Lemma agent_get_active_steps t i : steps (agent_get_active t i).
Proof.
  unfold agent_get_active, agent_get_active_ref. apply steps_bind; [|by intros []; auto with spec_steps].
  apply steps_bind; [auto with spec_steps|]. intros [n|]; [|auto with spec_steps].
  destruct (validate_ref _); auto with spec_steps.
Qed.

Lemma trigger_get_active_steps t i : steps (trigger_get_active t i).
Proof. unfold trigger_get_active. auto with spec_steps. Qed.

Lemma agent_service_activate_steps t b i n e now :
  steps (agent_service_activate check_agent t b i n e now).
Proof.
  unfold agent_service_activate. destruct (validate_ref _) as [ref|]; [|auto with spec_steps].
  apply steps_bind; [apply steps_get_revision|]. intros [a|]; auto 10 with spec_steps.
Qed.

Lemma agent_service_rollback_steps t b i e now :
  steps (agent_service_rollback check_agent t b i e now).
Proof.
  unfold agent_service_rollback. apply steps_bind; [apply agent_get_active_steps|].
  intros [a|]; [|auto with spec_steps].
  apply steps_bind; [auto with spec_steps|]. intros _.
  apply steps_bind; [apply steps_previous|]. intros [a'|]; auto 10 with spec_steps.
Qed.

Lemma agent_deactivate_steps t i e : steps (agent_deactivate t i e).
Proof.
  unfold agent_deactivate. apply steps_bind; [auto with spec_steps|]. intros n.
  destruct (validate_ref _); auto with spec_steps.
Qed.

Lemma defaults_valid kw : kw ∈ default_agent_spec_writes → validate_agent_write kw.2 = Ok kw.2.
Proof.
  intros H. repeat (apply elem_of_cons in H as [-> |H]; [by vm_compute|]).
  by apply not_elem_of_nil in H.
Qed.

Lemma upgrade_steps a w b now now' :
  validate_agent_write w = Ok w → steps (upgrade_legacy_owner_default a w b now now').
Proof.
  intros Hw. unfold upgrade_legacy_owner_default.
  destruct (negb _); [auto with spec_steps|].
  apply steps_bind; [auto with spec_steps|]. intros aw.
  destruct (negb _); [auto with spec_steps|].
  apply steps_bind; [apply steps_get_latest|]. intros latest.
  apply steps_bind; [|by intros [?|]; auto with spec_steps].
  destruct latest as [l|]; [|auto with spec_steps].
  destruct (_ =? _); auto with spec_steps.
Qed.

Lemma seed_default_steps t b now now' kw :
  kw ∈ default_agent_spec_writes → steps (seed_default t b now now' kw).
Proof.
  intros Hkw%defaults_valid. unfold seed_default.
  apply steps_bind; [apply agent_get_active_steps|]. intros [a|]; [by apply upgrade_steps|].
  apply steps_bind; [apply steps_get_latest|]. intros latest.
  apply steps_bind; [|auto with spec_steps]. destruct latest; auto with spec_steps.
Qed.

Lemma collect_steps {A B} (l : list A) (f : A → M agent_db B) :
  (∀ x, x ∈ l → steps (f x)) → steps (collect l f).
Proof.
  induction l as [|x l IH]; intros Hf; [apply steps_ret|].
  apply steps_bind; [apply Hf, list_elem_of_here|]. intros y.
  apply steps_bind; [|auto with spec_steps]. apply IH. intros z Hz. by apply Hf, list_elem_of_further.
Qed.

Lemma seed_defaults_steps t b now now' : steps (seed_defaults t b now now').
Proof. apply collect_steps. intros kw. apply seed_default_steps. Qed.

Lemma trigger_service_activate_steps t b i n e now :
  steps (trigger_service_activate check_trigger t b i n e now).
Proof.
  unfold trigger_service_activate. apply steps_bind; [apply steps_get_revision|].
  intros [a|]; auto 10 with spec_steps.
Qed.

Lemma trigger_service_rollback_steps t b i e now :
  steps (trigger_service_rollback check_trigger t b i e now).
Proof.
  unfold trigger_service_rollback. apply steps_bind; [apply trigger_get_active_steps|].
  intros [a|]; [|auto with spec_steps].
  apply steps_bind; [auto with spec_steps|]. intros _.
  apply steps_bind; [apply steps_previous|]. intros [a'|]; auto 10 with spec_steps.
Qed.

Lemma trigger_activate_keeps t i n e b now : keeps (trigger_activate t i n e b now).
Proof.
  intros l. unfold trigger_activate. apply preserves_transaction, preserves_bind; [auto with tulpa|].
  intros [r|]; [|auto with tulpa]. apply preserves_bind; [auto with tulpa|]. intros r'.
  apply preserves_bind; [apply switch_active_keeps|]. auto with tulpa.
Qed.

Lemma trigger_service_activate_keeps t b i n e now :
  keeps (trigger_service_activate check_trigger t b i n e now).
Proof.
  intros l. unfold trigger_service_activate, trigger_get_revision, get_revision.
  apply preserves_bind; [auto with tulpa|]. intros [a|]; [|auto with tulpa].
  apply preserves_bind; [auto with tulpa|]. intros _. apply trigger_activate_keeps.
Qed.

Lemma trigger_service_rollback_keeps t b i e now :
  keeps (trigger_service_rollback check_trigger t b i e now).
Proof.
  intros l. unfold trigger_service_rollback, trigger_get_active, trigger_previous_revision, previous_revision.
  apply preserves_bind; [auto with tulpa|]. intros [a|]; [|auto with tulpa].
  apply preserves_bind; [auto with tulpa|]. intros _.
  apply preserves_bind; [auto with tulpa|]. intros [a'|]; [|auto with tulpa].
  apply preserves_bind; [auto with tulpa|]. intros _. apply trigger_activate_keeps.
Qed.

(** ** The two stores together *)

(** The agent a trigger runs: a stored revision of the trigger's own tenant
    whose isolation is the trigger's exposure. *)
Definition target_of (r : trigger_spec) (a : agent_spec) : Prop :=
  ref_of a = tw_agent_spec (rv_content r) ∧ rv_tenant a = rv_tenant r ∧
  aw_isolation (rv_content a) = tw_exposure (rv_content r).

Record spec_state_ok s : Prop := {
  so_agents : specs_ok (st_agents s);
  so_triggers : specs_ok (st_triggers s);
  so_targets : ∀ r, r ∈ sp_revisions (st_triggers s) →
    ∃ a, a ∈ sp_revisions (st_agents s) ∧ target_of r a;
}.

Record spec_advance s s' : Prop := {
  sa_ok : spec_state_ok s';
  sa_agents : sp_revisions (st_agents s) `prefix_of` sp_revisions (st_agents s');
  sa_triggers : sp_revisions (st_triggers s) `prefix_of` sp_revisions (st_triggers s');
}.

Lemma spec_advance_refl s : spec_state_ok s → spec_advance s s.
Proof. by split. Qed.

Lemma spec_advance_trans s s' s'' : spec_advance s s' → spec_advance s' s'' → spec_advance s s''.
Proof. intros [H1 H2 H3] [H4 H5 H6]. split; [done| |]; by etrans. Qed.

Lemma agents_advance s d : spec_state_ok s → spec_step (st_agents s) d →
  spec_advance s (SpecState d (st_triggers s)).
Proof.
  intros Hs [Hd [l Hl]]. split; [|by exists l|done]. split; [done|apply Hs|]. simpl.
  intros r Hr. destruct (so_targets _ Hs r Hr) as (a & Ha & Hat). exists a. split; [|done].
  rewrite Hl. apply elem_of_app. by left.
Qed.

Lemma triggers_advance s (d : trigger_db) : spec_state_ok s → spec_step (st_triggers s) d →
  (∀ r, r ∈ sp_revisions d → r ∈ sp_revisions (st_triggers s) ∨
     ∃ a, a ∈ sp_revisions (st_agents s) ∧ target_of r a) →
  spec_advance s (SpecState (st_agents s) d).
Proof.
  intros Hs [Hd Hp] Ht. split; [|done|done]. split; [apply Hs|done|]. simpl.
  intros r [Hr|Hr]%Ht; [by apply Hs|done].
Qed.

Lemma quiet_triggers_advance {A} (m : M trigger_db A) s :
  steps m → keeps m → spec_state_ok s → spec_advance s (SpecState (st_agents s) (m (st_triggers s)).1).
Proof.
  intros Hm Hk Hs. apply triggers_advance; [done|apply Hm, Hs|].
  rewrite (Hk (sp_revisions (st_triggers s))) by done. by left.
Qed.

Lemma run_agents {A} (m : M agent_db A) s :
  (_ ← on_agents m; mret tt : M spec_state unit) s =
    (SpecState (m (st_agents s)).1 (st_triggers s),
     match (m (st_agents s)).2 with Ok _ => Ok tt | Err e => Err e end).
Proof. rewrite run_bind. unfold on_agents, zoom. by destruct (m _) as [d [a|e]]. Qed.

Lemma run_triggers {A} (m : M trigger_db A) s :
  (_ ← on_triggers m; mret tt : M spec_state unit) s =
    (SpecState (st_agents s) (m (st_triggers s)).1,
     match (m (st_triggers s)).2 with Ok _ => Ok tt | Err e => Err e end).
Proof. rewrite run_bind. unfold on_triggers, zoom. by destruct (m _) as [d [a|e]]. Qed.

Lemma validate_target_run t w s :
  spec_state_ok s → validate_target t w s = (s,
    if ar_tenant (tw_agent_spec w) == t then
      match revision_at t (ar_spec (tw_agent_spec w)) (ar_revision (tw_agent_spec w)) (st_agents s) with
      | Some a => if aw_isolation (rv_content a) == tw_exposure w then Ok tt
                  else Err (ValueError "trigger exposure must match the target AgentSpec isolation")
      | None => Err (SpecNotFoundError (ar_spec (tw_agent_spec w)))
      end
    else Err (ValueError "trigger and AgentSpec must belong to the same tenant")).
Proof.
  intros Hs. unfold validate_target. rewrite run_unless_bind.
  case_bool_decide as Ht; [|done]. rewrite run_bind. unfold on_agents, zoom, agent_get_revision.
  rewrite get_revision_run by apply Hs. rewrite Ht. destruct s as [da dt]. simpl.
  destruct (revision_at _ _ _ _) as [a|]; [|done]. rewrite run_unless. by destruct (_ == _).
Qed.

Lemma trigger_create_advance t i w e b now s :
  validate_trigger_write w = Ok w → spec_state_ok s →
  spec_advance s (trigger_create t i w e b now s).1.
Proof.
  intros Hw Hs. unfold trigger_create. rewrite run_bind, validate_target_run by done.
  case_bool_decide as Ht; [|by apply spec_advance_refl].
  destruct (revision_at _ _ _ _) as [a|] eqn:Ha; [|by apply spec_advance_refl].
  case_bool_decide as Hiso; [|by apply spec_advance_refl].
  apply select_one_Some in Ha as [Ha Hat].
  unfold on_triggers, zoom. pose proof (create_step t i w e b now Hw _ (so_triggers _ Hs)) as Hstep.
  destruct (create_revision t i w e b now (st_triggers s)) as [d' [r|x]] eqn:Hc; simpl in *;
    apply triggers_advance; [done..| |done|done|].
  - apply create_Ok in Hc as [(-> & _)|(-> & _ & _ & Hr & _)]; [by left| |done|apply Hs].
    intros r' [?| ->%list_elem_of_singleton]%elem_of_app; [by left|right].
    exists a. split; [done|]. apply at_revision_true in Hat as [[H1 H2] H3].
    rewrite Hr. split_and!; simpl; [|rewrite H1|done].
    + destruct (tw_agent_spec w) as [rt rs rr]. unfold ref_of. simpl in *. congruence.
    + symmetry. rewrite <- H1. by apply (stored_stripped (st_agents s)); [apply Hs|].
  - apply create_Err in Hc as ->. by left.
Qed.

Lemma run_spec_op_advance s op :
  spec_state_ok s → spec_advance s (run_spec_op check_agent check_trigger s op).
Proof.
  intros Hs. destruct op; unfold run_spec_op; rewrite ?run_agents, ?run_triggers; simpl.
  2-5: apply agents_advance; [done|].
  - rewrite run_outcome_bind. destruct (validate_agent_write w) as [w'|x] eqn:Hw;
      [|by apply spec_advance_refl].
    rewrite run_agents. simpl. apply agents_advance; [done|].
    apply agent_create_step; [|apply Hs]. by eapply validate_agent_write_idem.
  - apply agent_service_activate_steps, Hs.
  - apply agent_service_rollback_steps, Hs.
  - apply agent_deactivate_steps, Hs.
  - apply seed_defaults_steps, Hs.
  - rewrite run_outcome_bind. destruct (validate_trigger_write w) as [w'|x] eqn:Hw;
      [|by apply spec_advance_refl].
    apply validate_trigger_write_idem in Hw.
    pose proof (trigger_create_advance tenant (given_id id fresh) w' expected actor now s Hw Hs) as Ha.
    unfold trigger_service_save. rewrite run_bind.
    by destruct (trigger_create _ _ _ _ _ _ s) as [s' [r|x]].
  - apply quiet_triggers_advance;
      [apply trigger_service_activate_steps|apply trigger_service_activate_keeps|done].
  - apply quiet_triggers_advance;
      [apply trigger_service_rollback_steps|apply trigger_service_rollback_keeps|done].
  - exact (quiet_triggers_advance (deactivate tenant id expected) s (deactivate_step _ _ _)
      (deactivate_keeps _ _ _) Hs).
Qed.

Lemma run_specs_advance ops s :
  spec_state_ok s → spec_advance s (run_specs check_agent check_trigger ops s).
Proof.
  revert s. induction ops as [|op ops IH]; intros s Hs; [by apply spec_advance_refl|]. simpl.
  pose proof (run_spec_op_advance s op Hs) as Ha.
  eapply spec_advance_trans; [exact Ha|]. apply IH, Ha.
Qed.

Lemma no_specs_ok {W} `{SpecContentLaws W} : specs_ok (no_specs (W := W)).
Proof. split; [done|intros ? ?; set_solver|constructor|intros ? ?; set_solver]. Qed.

Lemma no_spec_state_ok : spec_state_ok no_spec_state.
Proof. split; [apply no_specs_ok|apply no_specs_ok|]. intros r Hr. by apply not_elem_of_nil in Hr. Qed.

Lemma specs_reachable ops : spec_state_ok (run_specs check_agent check_trigger ops no_spec_state).
Proof. apply run_specs_advance, no_spec_state_ok. Qed.

(** The trigger an active reference points to. *)
Definition active_trigger (t i : string) (d : trigger_db) : option trigger_spec :=
  n ← active_revision t i d; revision_at t i n d.

Lemma trigger_get_active_run t i (d : trigger_db) :
  specs_ok d → trigger_get_active t i d = (d, Ok (active_trigger t i d)).
Proof.
  intros Hd. unfold trigger_get_active. rewrite run_gets_bind, run_outcome. fold (active_trigger t i d).
  destruct (active_trigger t i d) as [r|] eqn:E1; [|done]. simpl.
  assert (r ∈ sp_revisions d) as Hr.
  { unfold active_trigger in E1. destruct (active_revision t i d); [|done]. by apply select_one_Some in E1 as [? _]. }
  by rewrite (proj1 (sk_rows _ Hd r Hr)).
Qed.
End ServiceSteps.

(** ** Properties *)

Section Properties.
Context {E : SpecEnv} {Laws : SpecEnvLaws E}.
Variable check_agent : option (agent_spec → outcome unit).
Variable check_trigger : option (trigger_spec → outcome unit).
Abbreviation reachable ops := (run_specs check_agent check_trigger ops no_spec_state).
Abbreviation agents ops := (st_agents (reachable ops)).

(** C24: an externally reachable trigger cannot be used to reach private data:
    whatever agents and triggers are saved, activated, rolled back and
    deactivated, every stored trigger that is exposed externally is an event
    trigger requiring authentication, and the exact agent revision it is bound
    to exists in its own tenant, is itself external, and has no memory, no
    workspace, no delegation and only the published-knowledge tools. *)
Theorem external_triggers_contained ops r :
  r ∈ sp_revisions (st_triggers (reachable ops)) → tw_exposure (rv_content r) = External →
  (∃ event_type source, tw_source (rv_content r) = EventTrigger event_type source AuthRequired) ∧
  ∃ a, revision_at (rv_tenant r) (ar_spec (tw_agent_spec (rv_content r)))
         (ar_revision (tw_agent_spec (rv_content r))) (agents ops) = Some a ∧
       aw_isolation (rv_content a) = External ∧ aw_memory_scope (rv_content a) = NoMemory ∧
       aw_workspace_scope (rv_content a) = NoWorkspace ∧
       aw_allow_delegation (rv_content a) = false ∧ aw_tool_policy (rv_content a) = Allowlist ∧
       ∀ tool, tool ∈ aw_tools (rv_content a) → tool ∈ external_agent_tools.
Proof.
  intros Hr He. pose proof (specs_reachable check_agent check_trigger ops) as Hs.
  destruct (decode_row_same _ _ (proj1 (sk_rows _ (so_triggers _ Hs) r Hr))) as (_ & Hv & _).
  split; [by apply external_trigger_authenticated|].
  destruct (so_targets _ Hs r Hr) as (a & Ha & Href & Ht & Hiso). exists a.
  destruct (decode_row_same _ _ (proj1 (sk_rows _ (so_agents _ Hs) a Ha))) as (_ & Hva & _).
  rewrite He in Hiso. split.
  - apply revision_at_Some; [apply Hs|done|]. apply at_revision_true.
    rewrite <- Href. by split_and!.
  - split; [done|]. by apply external_agent_safe.
Qed.

(** The revision stores stay coherent whatever is called: revisions of a
    spec are numbered 1, 2, .. without gaps in the order they were added, each
    reads back exactly as stored and carries the digest of its content, active
    references are unique and point to stored revisions, and every trigger is
    bound to a stored agent revision of its tenant with matching isolation. *)
Theorem specs_invariant ops : spec_state_ok (reachable ops).
Proof. apply specs_reachable. Qed.

(** Revisions are immutable: an agent or trigger revision that can be read
    once reads the same after any further calls. *)
Theorem revisions_immutable ops ops' :
  (∀ ref a, agent_get_revision ref (agents ops) = (agents ops, Ok (Some a)) →
     agent_get_revision ref (agents (ops ++ ops')) = (agents (ops ++ ops'), Ok (Some a))) ∧
  (∀ t i n r, (trigger_get_revision t i n (st_triggers (reachable ops))).2 = Ok (Some r) →
     (trigger_get_revision t i n (st_triggers (reachable (ops ++ ops')))).2 = Ok (Some r)).
Proof.
  pose proof (specs_reachable check_agent check_trigger ops) as Hs.
  pose proof (specs_reachable check_agent check_trigger (ops ++ ops')) as Hs'.
  pose proof (run_specs_advance check_agent check_trigger ops' _ Hs) as Ha.
  unfold run_specs in *. rewrite foldl_app in *. split.
  - intros ref a. unfold agent_get_revision. rewrite !get_revision_run by (apply Hs || apply Hs').
    intros [= H]. do 2 f_equal. apply (revision_at_step _ _ _ _ _ _ (conj (so_agents _ Hs') (sa_agents _ _ Ha)) H).
  - intros t i n r. unfold trigger_get_revision. rewrite !get_revision_run by (apply Hs || apply Hs').
    simpl. intros [= H]. f_equal.
    apply (revision_at_step _ _ _ _ _ _ (conj (so_triggers _ Hs') (sa_triggers _ _ Ha)) H).
Qed.

(** Every listing is exact: [list_latest] has, in the order of their
    identifiers, the newest revision of each agent of the tenant and nothing
    else, and [list_active] the revision each active reference names. *)
Theorem listings_exact ops t :
  (∃ l, agent_list_latest t (agents ops) = (agents ops, Ok l) ∧
     Sorted (λ x y, id_order x y = true) l ∧
     ∀ a, a ∈ l ↔ rv_tenant a = t ∧ agent_get_latest t (rv_id a) (agents ops) = (agents ops, Ok (Some a))) ∧
  (∃ l, agent_list_active t (agents ops) = (agents ops, Ok l) ∧
     Sorted (λ x y, id_order x y = true) l ∧
     ∀ a, a ∈ l ↔ rv_tenant a = t ∧ a ∈ sp_revisions (agents ops) ∧
                   active_revision t (rv_id a) (agents ops) = Some (rv_revision a)).
Proof.
  pose proof (so_agents _ (specs_reachable check_agent check_trigger ops)) as Hd. split.
  - destruct (list_latest_run t (agents ops) Hd) as (l & Hl & Hsort & Hin).
    exists l. split_and!; [exact Hl|done|]. intros a. rewrite Hin. unfold agent_get_latest.
    rewrite get_latest_run by done.
    split; intros [? H]; (split; [done|]); [by rewrite H|by injection H].
  - exact (list_active_run t (agents ops) Hd).
Qed.

(** What a row of the store satisfies: its identifiers make a reference. *)
Lemma stored_ref d t i n a :
  specs_ok d → revision_at (W := agent_write) t i n d = Some a →
  a ∈ sp_revisions d ∧ ref_of a = AgentSpecRef t i n ∧ validate_ref (AgentSpecRef t i n) = Some (AgentSpecRef t i n).
Proof.
  intros Hd [Ha [[<- <-] <-]%at_revision_true]%select_one_Some. split_and!; [done..|].
  pose proof (proj1 (sk_rows _ Hd a Ha)) as Hdec. revert Hdec. unfold decode_row, validate_ref. simpl.
  destruct (protocol_id (rv_tenant a)) as [t|] eqn:E1; [|done].
  destruct (slug (rv_id a)) as [i|] eqn:E2; [|done].
  destruct (protocol_id (rv_created_by a)); [|done]. simpl.
  destruct (validate_agent_write _) as [w|]; [|done]. simpl.
  destruct ((1 <=? rv_revision a) && _) eqn:E3; [|done]. intros [= <-]. simpl.
  apply andb_true_iff in E3 as [-> _]. done.
Qed.

Lemma agent_get_active_run t i d :
  specs_ok d → agent_get_active t i d = (d, Ok (n ← active_revision t i d; revision_at t i n d)).
Proof.
  intros Hd. unfold agent_get_active, agent_get_active_ref. rewrite run_bind_assoc, run_gets_bind.
  destruct (active_revision t i d) as [n|] eqn:Hact; [|done].
  apply active_revision_Some in Hact as (x & Hx & <- & <- & <-).
  destruct (sk_target _ Hd x Hx) as (a & Ha & Hat).
  pose proof (revision_at_Some _ _ _ _ _ Hd Ha Hat) as Hrow.
  destruct (stored_ref _ _ _ _ _ Hd Hrow) as (_ & _ & ->).
  rewrite run_ret_bind. by apply get_revision_run.
Qed.

(** Activation in full. *)
Lemma agent_activate_run ref e b now d :
  specs_ok d →
  agent_activate ref e b now d =
    match revision_at (ar_tenant ref) (ar_spec ref) (ar_revision ref) d with
    | None => (d, Err (SpecNotFoundError (ar_spec ref)))
    | Some _ =>
        transaction (switch_active (ar_tenant ref) (ar_spec ref) (ar_revision ref) e b now;; mret ref) d
    end.
Proof.
  intros Hd. unfold agent_activate. rewrite !run_transaction, run_gets_bind, run_unless_bind.
  destruct (revision_at _ _ _ d) as [a|] eqn:Ha.
  - apply select_one_Some in Ha. by rewrite (proj2 (exists_row_true _ _) (ex_intro _ a Ha)).
  - unfold revision_at in Ha. rewrite select_one_None in Ha. by rewrite (proj2 (exists_row_false _ _) Ha).
Qed.

Record activated (t i : string) (n : Z) (d d1 : agent_db) : Prop := {
  ac_step : spec_step d d1;
  ac_revisions : sp_revisions d1 = sp_revisions d;
  ac_reads : ∀ t' i', active_revision t' i' d1 =
    if (t' == t) && (i' == i) then Some n else active_revision t' i' d;
}.

Lemma agent_activate_cases ref e b now d :
  let t := ar_tenant ref in let i := ar_spec ref in let n := ar_revision ref in
  specs_ok d → is_Some (revision_at t i n d) →
  (∃ d1, agent_activate ref e b now d = (d1, Ok ref) ∧ activated t i n d d1 ∧
     (active_revision t i d = e ∨ active_revision t i d = Some n)) ∨
  (∃ m, agent_activate ref e b now d = (d, Err (SpecConflictError m)) ∧
     active_revision t i d ≠ e ∧ active_revision t i d ≠ Some n).
Proof.
  intros t i n Hd [a Ha]. rewrite agent_activate_run by done. subst t i n. rewrite Ha.
  apply select_one_Some in Ha.
  rewrite run_transaction, run_bind.
  destruct (switch_active _ _ _ _ _ _ d) as [d1 [[]|x]] eqn:Hsw.
  - left. exists d1. split; [done|].
    apply switch_active_Ok in Hsw as (H1 & H2 & H3 & H4); [|done|by exists a].
    by split.
  - right. rewrite switch_active_run in Hsw by done.
    destruct (active_revision _ _ d) as [c|].
    + destruct (Z.eqb_spec c (ar_revision ref)) as [|Hne]; [done|].
      case_bool_decide as He; [done|]. injection Hsw as _ <-. eexists. split; [done|].
      split; [by intros <-|congruence].
    + case_bool_decide as He; [done|]. injection Hsw as _ <-. eexists. split; [done|].
      by split; [intros <-|].
Qed.

(** Activating an agent revision is a compare-and-swap of one reference: it
    succeeds exactly when the revision exists and the caller names the revision
    that is active (or the requested one already is); then that exact stored
    revision is what [get_active] returns, no other reference and no revision
    changes. Any other call is refused and changes nothing. *)
Theorem activation_switches ops ref e b now :
  let d := agents ops in
  let t := ar_tenant ref in let i := ar_spec ref in let n := ar_revision ref in
  let '(d1, res) := agent_activate ref e b now d in
  match res with
  | Ok ref' =>
      ref' = ref ∧ (active_revision t i d = e ∨ active_revision t i d = Some n) ∧
      (∃ a, revision_at t i n d = Some a ∧ agent_get_active t i d1 = (d1, Ok (Some a))) ∧
      (∀ t' i', (t', i') ≠ (t, i) → active_revision t' i' d1 = active_revision t' i' d) ∧
      sp_revisions d1 = sp_revisions d
  | Err _ =>
      d1 = d ∧ (revision_at t i n d = None ∨
                active_revision t i d ≠ e ∧ active_revision t i d ≠ Some n)
  end.
Proof.
  cbv zeta. pose proof (so_agents _ (specs_reachable check_agent check_trigger ops)) as Hd.
  destruct (revision_at (ar_tenant ref) (ar_spec ref) (ar_revision ref) (agents ops)) as [a|] eqn:Ha.
  - destruct (agent_activate_cases ref e b now _ Hd (mk_is_Some _ _ Ha))
      as [(d1 & -> & [Hstep Hrev Hreads] & Hact)|(m & -> & H1 & H2)]; [|by split; [|right]].
    split_and!; [done..| | |done].
    + exists a. split; [done|]. rewrite agent_get_active_run by apply Hstep.
      rewrite Hreads, !bool_decide_eq_true_2 by done. simpl. do 2 f_equal.
      unfold revision_at in *. by rewrite Hrev.
    + intros t' i' Hne. rewrite Hreads. case_bool_decide; [|done]. case_bool_decide; [|done].
      simpl. congruence.
  - rewrite agent_activate_run, Ha by done. split; [done|]. by left.
Qed.

(** Rollback goes back exactly one revision: it is refused without an
    active revision, when the caller names another one than the active, and at
    the first revision; otherwise the target is the revision numbered one less,
    as it was stored, the callback decides on it, and then it is active. *)
Theorem rollback_goes_back ops t b i e now :
  let d := agents ops in
  let call := agent_service_rollback check_agent t b i e now d in
  match active_revision t i d with
  | None => call = (d, Err (SpecNotFoundError i))
  | Some n =>
      if (n =? e) && (1 <? n) then
        ∃ a, revision_at t i (n - 1) d = Some a ∧
        match validated check_agent a with
        | Err x => call = (d, Err x)
        | Ok _ => ∃ d1, call = (d1, Ok a) ∧ agent_get_active t i d1 = (d1, Ok (Some a)) ∧
                        sp_revisions d1 = sp_revisions d
        end
      else ∃ m, call = (d, Err (SpecConflictError m))
  end.
Proof.
  cbv zeta. pose proof (so_agents _ (specs_reachable check_agent check_trigger ops)) as Hd.
  set (d := agents ops) in *. unfold agent_service_rollback.
  rewrite run_bind, agent_get_active_run by done.
  destruct (active_revision t i d) as [n|] eqn:Hact; [|done]. simpl.
  apply active_revision_Some in Hact as Hx. destruct Hx as (x & Hx & <- & <- & <-).
  destruct (sk_target _ Hd x Hx) as (a & Ha & Hat).
  rewrite (revision_at_Some _ _ _ _ _ Hd Ha Hat).
  apply at_revision_true in Hat as [Ho Hn]. pose proof (proj2 (of_spec_true _ _ a) Ho) as Hos.
  pose proof (revision_range _ _ d a Hd Ha Hos) as Hrange. rewrite Hn in Hrange |- *.
  set (t := rf_tenant x) in *. set (i := rf_id x) in *. set (n := rf_revision x) in *.
  rewrite run_unless_bind. destruct (n =? e); [|eexists; done]. simpl.
  rewrite run_bind. unfold agent_previous_revision, previous_revision.
  rewrite run_gets_bind, run_outcome, previous_row_spec by (done || lia).
  destruct (Z.ltb_spec 1 n) as [Hlt|Hge].
  - destruct (revision_exists t i (n - 1) d Hd) as (a' & Ha' & Hat'); [lia|].
    pose proof (revision_at_Some _ _ _ _ _ Hd Ha' Hat') as Hrow. rewrite Hrow. simpl.
    rewrite (proj1 (sk_rows _ Hd a' Ha')). exists a'. split; [done|].
    change (Ok a' ≫= λ s, Ok (Some s)) with (Ok (Some a')). cbn beta iota.
    rewrite run_outcome_bind. destruct (validated check_agent a') as [[]|y]; [|done].
    destruct (stored_ref _ _ _ _ _ Hd Hrow) as (_ & Href & _). rewrite Href.
    destruct (agent_activate_cases (AgentSpecRef t i (n - 1)) (Some n) b now d Hd (mk_is_Some _ _ Hrow))
      as [(d1 & Hcall & [Hstep Hrev Hreads] & _)|(m & _ & Hne & _)]; [|simpl in Hne; congruence].
    rewrite run_bind, Hcall. exists d1. split; [done|]. split; [|done].
    rewrite agent_get_active_run by apply Hstep. simpl in Hreads.
    rewrite Hreads, !bool_decide_eq_true_2 by done. simpl. do 2 f_equal.
    unfold revision_at in *. by rewrite Hrev.
  - assert (revision_at t i (n - 1) d = None) as ->; [|eexists; done].
    apply select_one_None. intros a' Ha'. destruct (at_revision t i (n - 1) a') eqn:Hat'; [|done].
    exfalso. apply at_revision_true in Hat' as [Ho' Hn'].
    pose proof (revision_range t i d a' Hd Ha' (proj2 (of_spec_true t i a') Ho')). lia.
Qed.

(** Saving an agent is idempotent and loses no update: after a save that
    succeeded, the saved content is the latest revision and saving it again
    returns that revision and writes nothing; when it was new, the caller had
    named the latest revision before it, and another caller who read that same
    revision and saves different content is refused and writes nothing. *)
Theorem save_compare_and_swap ops t i w e b now d1 a :
  let d := agents ops in
  validate_agent_write w = Ok w → strip t = t → strip i = i →
  agent_create t i w e b now d = (d1, Ok a) →
  agent_get_latest t i d1 = (d1, Ok (Some a)) ∧ rv_digest a = digest w ∧
  (∀ e' b' now', agent_create t i w e' b' now' d1 = (d1, Ok a)) ∧
  (d1 ≠ d →
     e = latest_number t i d ∧ rv_revision a = default 0 e + 1 ∧ rv_content a = w ∧
     ∀ w' b' now', validate_agent_write w' = Ok w' → digest w' ≠ digest w →
       ∃ m, agent_create t i w' e b' now' d1 = (d1, Err (SpecConflictError m))).
Proof.
  cbv zeta. intros Hw Ht Hi. unfold agent_create, agent_get_latest.
  pose proof (so_agents _ (specs_reachable check_agent check_trigger ops)) as Hd.
  set (d := agents ops) in *.
  intros [(-> & Hl & Hdig)|(Hadd & Hstep & He & Ha & _)]%create_Ok; [| |done..].
  - rewrite get_latest_run, Hl by done. split_and!; [done..| |done].
    intros e' b' now'. rewrite create_run, Hl by done. by rewrite bool_decide_eq_true_2.
  - assert (rv_tenant a = t ∧ rv_id a = i) as [Hat Hai] by (split; by rewrite Ha).
    assert (rv_revision a = count_of t i d + 1 ∧ rv_digest a = digest w ∧ rv_content a = w)
      as (Hn & Hdig & Hc) by by rewrite Ha.
    assert (latest_row t i d1 = Some a) as Hl.
    { rewrite Hadd, added_latest; [by rewrite Hat, Hai, !bool_decide_eq_true_2|by rewrite <- Hadd|].
      by rewrite Hat, Hai. }
    destruct Hstep as [Hd1 _]. rewrite get_latest_run, Hl by done. split_and!; [done..| |].
    + intros e' b' now'. rewrite create_run, Hl by done. by rewrite bool_decide_eq_true_2.
    + intros _. split_and!; [done| |done|].
      * by rewrite He, latest_number_count.
      * intros w' b' now' Hw' Hne. rewrite create_run, Hl by done.
        rewrite bool_decide_eq_false_2 by congruence.
        rewrite bool_decide_eq_false_2; [by eexists|].
        intros Heq. pose proof (latest_number_count t i d Hd) as Hcount.
        rewrite <- He, Heq in Hcount. simpl in Hcount. lia.
Qed.
End Properties.

(** ** Witnesses *)

Definition sample_env : SpecEnv :=
  {| zone_known := λ _, true; crontab_ok := λ _ _, true;
     iso_text := λ d, pretty (dt_instant d); json_object := λ l, l |}.
#[local] Existing Instance sample_env.
#[local] Instance sample_env_laws : SpecEnvLaws sample_env.
Proof. by split. Qed.

Definition sample_trigger : trigger_write :=
  TriggerSpecWrite "Inbound" (EventTrigger "message" "telegram" AuthRequired) External
    (AgentSpecRef "t" "intake" 1) "Decide." (DeliverySpec NoDelivery None) true None None [].
Definition sample_intake : agent_write :=
  AgentSpecWrite "Intake" "" "intake" "default" "Answer." External Allowlist [] NoMemory NoWorkspace false 900 100 None [].
Definition saved_ops : list spec_op :=
  [OpAgentSave "t" "owner" sample_intake (Some "intake") None "" 1; OpAgentActivate "t" "owner" "intake" 1 None 2].
Definition sample_ops : list spec_op :=
  saved_ops ++ [OpTriggerSave "t" "owner" sample_trigger (Some "inbound") None "" 3].
Definition sample_row : trigger_spec :=
  Eval vm_compute in
    default (RevisionRow "" "" 0 sample_trigger "" 0 "")
      (head (sp_revisions (st_triggers (run_specs None None sample_ops no_spec_state)))).

Lemma external_triggers_contained_witness :
  sample_row ∈ sp_revisions (st_triggers (run_specs None None sample_ops no_spec_state)) ∧
  ∃ a, revision_at "t" "intake" 1 (st_agents (run_specs None None sample_ops no_spec_state)) = Some a ∧
       aw_memory_scope (rv_content a) = NoMemory.
Proof.
  assert (sample_row ∈ sp_revisions (st_triggers (run_specs None None sample_ops no_spec_state))) as H.
  { apply list_elem_of_lookup. exists 0%nat. vm_compute. reflexivity. }
  split; [exact H|].
  destruct (external_triggers_contained None None sample_ops sample_row H eq_refl) as [_ (a & Ha & _ & Hm & _)].
  exists a. split; [exact Ha|exact Hm].
Defined.

Definition sample_agent : agent_write :=
  AgentSpecWrite "Helper" "" "custom" "default" "Help." Private Allowlist ["web_search"] SpecMemory
    NoWorkspace false 900 100 None [].

Lemma save_compare_and_swap_witness :
  ∃ d1 a, agent_create "t" "helper" sample_agent None "owner" 5 (st_agents no_spec_state) = (d1, Ok a) ∧
    agent_create "t" "helper" sample_agent (Some 7) "other" 9 d1 = (d1, Ok a).
Proof.
  destruct (agent_create "t" "helper" sample_agent None "owner" 5 (st_agents no_spec_state))
    as [d1 [a|x]] eqn:E; [|by vm_compute in E].
  exists d1, a. split; [reflexivity|].
  destruct (save_compare_and_swap None None [] "t" "helper" sample_agent None "owner" 5 d1 a)
    as (_ & _ & H & _); [vm_compute; reflexivity|reflexivity|reflexivity|exact E|].
  apply H.
Defined.

Lemma specs_invariant_witness : spec_state_ok (run_specs None None sample_ops no_spec_state).
Proof. exact (specs_invariant None None sample_ops). Defined.

(** The saved intake agent reads back after the trigger was saved. *)
Definition saved_agent : agent_spec :=
  Eval vm_compute in
    default (RevisionRow "" "" 0 sample_agent "" 0 "")
      (revision_at "t" "intake" 1
         (st_agents (run_specs None None saved_ops no_spec_state))).
Definition saved_ref : agent_spec_ref := AgentSpecRef "t" "intake" 1.

Lemma revisions_immutable_witness :
  agent_get_revision saved_ref (st_agents (run_specs None None sample_ops no_spec_state)) =
    (st_agents (run_specs None None sample_ops no_spec_state), Ok (Some saved_agent)).
Proof.
  destruct (revisions_immutable None None saved_ops
    [OpTriggerSave "t" "owner" sample_trigger (Some "inbound") None "" 3]) as [H _].
  assert (agent_get_revision saved_ref
    (st_agents (run_specs None None saved_ops no_spec_state)) =
    (st_agents (run_specs None None saved_ops no_spec_state), Ok (Some saved_agent)))
    as E by (vm_compute; reflexivity).
  exact (H saved_ref saved_agent E).
Defined.

(** The saved agent is listed. *)
Lemma listings_exact_witness :
  ∃ l, agent_list_latest "t" (st_agents (run_specs None None sample_ops no_spec_state)) =
         (st_agents (run_specs None None sample_ops no_spec_state), Ok l) ∧
       Sorted (λ x y, id_order x y = true) l.
Proof.
  destruct (listings_exact None None sample_ops "t") as [(l & Hl & Hs & _) _].
  exists l. split; [exact Hl|exact Hs].
Defined.

(** The first revision of the intake agent is active: asking for it again
    succeeds, whatever active revision the caller names. *)
Lemma activation_switches_witness :
  ∃ a, (agent_get_active "t" "intake"
          (agent_activate (AgentSpecRef "t" "intake" 1) None "owner" 9
             (st_agents (run_specs None None sample_ops no_spec_state))).1).2 = Ok (Some a).
Proof.
  pose proof (activation_switches None None sample_ops (AgentSpecRef "t" "intake" 1) None "owner" 9) as H.
  cbv zeta in H.
  assert ((agent_activate (AgentSpecRef "t" "intake" 1) None "owner" 9
    (st_agents (run_specs None None sample_ops no_spec_state))).2 = Ok (AgentSpecRef "t" "intake" 1)) as E
    by (vm_compute; reflexivity).
  destruct (agent_activate _ _ _ _ _) as [d1 res]. simpl in E. subst res.
  destruct H as (_ & _ & (a & _ & Ha) & _). exists a. simpl in *. rewrite Ha. reflexivity.
Defined.

(** At the first revision there is nothing to go back to. *)
Lemma rollback_goes_back_witness :
  ∃ x, agent_service_rollback None "t" "owner" "intake" 1 9
         (st_agents (run_specs None None sample_ops no_spec_state)) =
       (st_agents (run_specs None None sample_ops no_spec_state), Err x).
Proof.
  pose proof (rollback_goes_back None None sample_ops "t" "owner" "intake" 1 9) as H.
  cbv zeta in H.
  assert (active_revision "t" "intake" (st_agents (run_specs None None sample_ops no_spec_state)) = Some 1)
    as E by (vm_compute; reflexivity).
  rewrite E in H. change ((1 =? 1) && (1 <? 1)) with false in H. cbv iota in H.
  destruct H as [m H]. exists (SpecConflictError m). exact H.
Defined.
