(* ===== verification/Schedules.v ===== *)
(** * Schedules ([schedules/models.py], [schedules/service.py])

    The facade that keeps an owner's schedules as private triggers: a schedule
    is written as a revision of a trigger of its own and read back from it. *)

From S2P Require Import Prelude Sqlite PyText Json Sha256 Protocol Revisions SpecModels Specs.
#[local] Open Scope string_scope.
#[local] Open Scope list_scope.
#[local] Open Scope Z_scope.

(** ** Contracts *)

Inductive schedule_trigger :=
  | At (run_at : datetime) (timezone : string)
  | Cron (expression timezone : string).
Inductive schedule_action :=
  | Reminder (message : string)
  | AgentJob (instruction : string).
Record schedule_write := ScheduleWrite {
  sw_name : string;
  sw_trigger : schedule_trigger;
  sw_action : schedule_action;
  sw_notify : bool;
  sw_enabled : bool;
}.
Record schedule := Schedule {
  sd_id : string;
  sd_tenant : string;
  sd_revision : Z;
  sd_write : schedule_write;
  sd_created : Z;
  sd_updated : Z;
}.
#[global] Instance schedule_trigger_eq_dec : EqDecision schedule_trigger.
Proof. solve_decision. Defined.
#[global] Instance schedule_action_eq_dec : EqDecision schedule_action.
Proof. solve_decision. Defined.
#[global] Instance schedule_write_eq_dec : EqDecision schedule_write.
Proof. solve_decision. Defined.
#[global] Instance schedule_eq_dec : EqDecision schedule.
Proof. solve_decision. Defined.
#[global] Instance schedule_write_fields : Fields schedule_write := λ w,
  ScheduleWrite (sw_name w) (sw_trigger w) (sw_action w) (sw_notify w) (sw_enabled w).

(** A stripped text that is not empty. *)
Definition solid_text (s : string) : option string := let v := strip s in if v == "" then None else Some v.

Section Models.
Context {E : SpecEnv}.

Definition validate_schedule_trigger (t : schedule_trigger) : option schedule_trigger :=
  match t with
  | At run_at timezone =>
      z ← solid_text timezone; zone ← iana_timezone z;
      if bool_decide (is_Some (dt_offset run_at)) then Some (At run_at zone) else None
  | Cron expression timezone =>
      z ← solid_text timezone; zone ← iana_timezone z; e ← solid_text expression;
      if crontab_ok e zone then Some (Cron e zone) else None
  end.
Definition validate_action (a : schedule_action) : option schedule_action :=
  match a with Reminder m => Reminder <$> solid_text m | AgentJob i => AgentJob <$> solid_text i end.
Definition validate_schedule_write (w : schedule_write) : option schedule_write :=
  name ← text_field 1 200 (sw_name w); trigger ← validate_schedule_trigger (sw_trigger w);
  action ← validate_action (sw_action w);
  Some (ScheduleWrite name trigger action (sw_notify w) (sw_enabled w)).
Definition validate_schedule (s : schedule) : outcome schedule :=
  match text_field 1 100 (sd_id s), text_field 1 200 (sd_tenant s), validate_schedule_write (sd_write s) with
  | Some id, Some tenant, Some w =>
      if 1 <=? sd_revision s then Ok (Schedule id tenant (sd_revision s) w (sd_created s) (sd_updated s))
      else Err (ValidationError "Schedule")
  | _, _, _ => Err (ValidationError "Schedule")
  end.

(** ** Identifiers *)

Definition checked_text (field : string) (maximum : Z) (value : string) : outcome string :=
  let v := strip value in
  if v == "" then Err (ValueError (field +:+ " is required"))
  else if maximum <? len v then Err (ValueError (field +:+ " must be at most " +:+ pretty maximum +:+ " characters"))
  else Ok v.
Definition checked_tenant : string → outcome string := checked_text "tenant_id" 200.
Definition checked_actor : string → outcome string := checked_text "actor_id" 200.
(** [_schedule_id]; [fresh] is what [new_short_id] returned. *)
Definition checked_schedule (fresh : string) (value : option string) : outcome string :=
  let id := given_id value fresh in
  if 100 <? len id then Err (ValueError "schedule_id must be at most 100 characters") else Ok id.
Definition trigger_id (schedule_id : string) : string := "schedule_" +:+ take_text 24 (sha256_hex schedule_id).
Definition source_prefix : string := "schedule:".
Definition source_key (schedule_id : string) : string := source_prefix +:+ schedule_id.

(** ** Schedules as triggers *)

Definition newline : string := String (ascii_of_N 10) EmptyString.
Definition reminder_prefix : string :=
  "Deliver this reminder to the owner exactly as written:" +:+ newline +:+ newline.
(** [_trigger_write] *)
Definition action_instruction (a : schedule_action) : string :=
  match a with AgentJob i => i | Reminder m => reminder_prefix +:+ m end.
Definition action_kind (a : schedule_action) : string :=
  match a with AgentJob _ => "agent_job" | Reminder _ => "reminder" end.
Definition trigger_write_of (schedule_id : string) (revision : Z) (w : schedule_write) (ref : agent_spec_ref) :
    outcome trigger_write :=
  let source := match sw_trigger w with At run_at z => AtTrigger run_at z | Cron e z => CronTriggerSpec e z end in
  validate_trigger_write
    (TriggerSpecWrite (sw_name w) source Private ref (action_instruction (sw_action w))
       (DeliverySpec (if sw_notify w then ToOwner else NoDelivery) None) (sw_enabled w) (Some (source_key schedule_id))
       (Some revision) [("schedule_action", action_kind (sw_action w)); ("schedule_contract", "v1")]).

(** [_project] of a trigger's content, and of a trigger *)
Definition projected_source (s : trigger_source) : outcome schedule_trigger :=
  match match s with
        | AtTrigger run_at z => Some (At run_at z)
        | CronTriggerSpec e z => Some (Cron e z)
        | _ => None
        end with
  | Some t => match validate_schedule_trigger t with Some t => Ok t | None => Err (ValidationError "Trigger") end
  | None => Err (ValueError "schedule TriggerSpec has an unsupported source")
  end.
Definition valid_action (a : schedule_action) : outcome schedule_action :=
  match validate_action a with Some a => Ok a | None => Err (ValidationError "ScheduleAction") end.
Definition projected_action (kind instruction : string) : outcome schedule_action :=
  if (kind == "reminder") || ((kind == "") && startswith reminder_prefix instruction) then
    if startswith reminder_prefix instruction then valid_action (Reminder (removeprefix reminder_prefix instruction))
    else Err (ValueError "schedule reminder instruction is malformed")
  else if bool_decide (kind ∈ [""; "agent_job"]) then valid_action (AgentJob instruction)
  else Err (ValueError "schedule action kind is unsupported").
Definition projected_write (c : trigger_write) : outcome schedule_write :=
  source ← projected_source (tw_source c);
  action ← projected_action (default "" (assoc "schedule_action" (tw_labels c))) (tw_instruction c);
  Ok (ScheduleWrite (tw_name c) source action (ds_mode (tw_delivery c) == ToOwner) (tw_enabled c)).
Definition project (t : trigger_spec) : M trigger_db schedule :=
  let key := default "" (tw_source_key (rv_content t)) in
  unless (startswith source_prefix key) (ValueError "TriggerSpec is not schedule-owned");;
  w ← from_outcome (projected_write (rv_content t));
  revisions ← trigger_list_revisions (rv_tenant t) (rv_id t);
  let created := match last revisions with Some r => rv_created_at r | None => rv_created_at t end in
  from_outcome (validate_schedule
    (Schedule (removeprefix source_prefix key) (rv_tenant t) (rv_revision t) w created (rv_created_at t))).
Definition is_schedule (t : trigger_spec) : bool :=
  startswith source_prefix (default "" (tw_source_key (rv_content t)))
  && ((assoc "schedule_contract" (tw_labels (rv_content t)) == Some "v1")
      || (assoc "migrated_from" (tw_labels (rv_content t)) == Some "schedule")).
End Models.

(** ** The service *)

Section Service.
Context {E : SpecEnv}.
Variable check_trigger : option (trigger_spec → outcome unit).
Variable resolve_agent_spec : string → spec_state → outcome agent_spec_ref.
Variable on_changed : option (trigger_spec → outcome unit).
Variable on_deleted : option (string * string → outcome unit).

Definition schedule_order (x y : schedule) : bool :=
  (sd_created x <? sd_created y) || ((sd_created x =? sd_created y) && text_le (sd_id x) (sd_id y)).
Definition list_schedules (tenant_id : string) : M trigger_db (list schedule) :=
  tenant ← from_outcome (checked_tenant tenant_id);
  triggers ← trigger_list_active tenant;
  schedules ← collect (List.filter is_schedule triggers) project;
  mret (order_by schedule_order schedules).

Definition get_schedule (tenant_id schedule_id fresh : string) : M trigger_db (option schedule) :=
  tenant ← from_outcome (checked_tenant tenant_id);
  id ← from_outcome (checked_schedule fresh (Some schedule_id));
  trigger ← trigger_get_active tenant (trigger_id id);
  match trigger with
  | None => mret None
  | Some t =>
      if negb (tw_source_key (rv_content t) == Some (source_key id)) || negb (is_schedule t) then mret None
      else s ← project t; mret (Some s)
  end.

(** A one-off that is past is saved disabled. *)
Definition without_missed (now : Z) (w : schedule_write) : schedule_write :=
  match sw_trigger w with
  | At run_at _ => if sw_enabled w && (dt_instant run_at <=? now) then w <| sw_enabled := false |> else w
  | Cron _ _ => w
  end.
(** [except SpecConflictError ..; except SpecNotFoundError ..] *)
Definition as_schedule_error (id : string) {A} (e : exn) : option (M spec_state A) :=
  match e with
  | SpecConflictError m => Some (raise (ScheduleConflictError m))
  | SpecNotFoundError _ => Some (raise (ScheduleNotFoundError id))
  | _ => None
  end.

(** The clock is read once by the facade and once by each of the calls it makes. *)
Record save_times := SaveTimes { at_save : Z; at_created : Z; at_activated : Z }.
Definition save_schedule (tenant_id : string) (write : schedule_write) (schedule_id : option string)
    (expected : option Z) (actor_id fresh : string) (times : save_times) : M spec_state schedule :=
  tenant ← from_outcome (checked_tenant tenant_id);
  id ← from_outcome (checked_schedule fresh schedule_id);
  actor ← from_outcome (checked_actor actor_id);
  let write := without_missed (at_save times) write in
  let tid := trigger_id id in
  latest ← on_triggers (trigger_get_latest tenant tid);
  active ← on_triggers (trigger_get_active tenant tid);
  unless (match latest with Some l => tw_source_key (rv_content l) == Some (source_key id) | None => true end)
    (ScheduleConflictError "schedule identifier collides with another trigger");;
  plan ← match active with
         | None =>
             unless (latest == None) (ScheduleConflictError ("schedule " +:+ repr id +:+ " is inactive at revision "
               +:+ pretty (from_option rv_revision 0 latest)));;
             unless (expected == None) (ScheduleConflictError ("schedule " +:+ repr id +:+ " does not exist at revision "
               +:+ show_expected expected));;
             ref ← gets (resolve_agent_spec tenant);
             ref ← from_outcome ref;
             mret (1, None, ref)
         | Some a =>
             unless (negb (expected == None)) (ScheduleConflictError "expected_revision is required when updating");;
             unless (Some (rv_revision a) == expected) (ScheduleConflictError ("expected revision "
               +:+ show_expected expected +:+ ", found " +:+ pretty (rv_revision a)));;
             unless ((rv_revision <$> latest) == Some (rv_revision a))
               (ScheduleConflictError "schedule changed outside the schedule facade");;
             mret (rv_revision a + 1, Some (rv_revision a), tw_agent_spec (rv_content a))
         end;
  let '(next, expected_active, ref) := plan in
  spec_write ← from_outcome (trigger_write_of id next write ref);
  activated ← try_except (
    created ← trigger_service_save tenant actor spec_write (Some tid) (rv_revision <$> latest) fresh (at_created times);
    on_triggers (trigger_service_activate check_trigger tenant actor tid (rv_revision created) expected_active
      (at_activated times)))
    (as_schedule_error id);
  from_outcome (validated on_changed activated);;
  on_triggers (project activated).

Definition delete_schedule (tenant_id schedule_id : string) (expected : Z) (actor_id fresh : string) : M spec_state unit :=
  tenant ← from_outcome (checked_tenant tenant_id);
  id ← from_outcome (checked_schedule fresh (Some schedule_id));
  from_outcome (checked_actor actor_id);;
  let tid := trigger_id id in
  active ← on_triggers (trigger_get_active tenant tid);
  match active with
  | None => raise (ScheduleNotFoundError id)
  | Some a =>
      unless ((tw_source_key (rv_content a) == Some (source_key id)) && is_schedule a) (ScheduleNotFoundError id);;
      unless (rv_revision a =? expected)
        (ScheduleConflictError ("expected revision " +:+ pretty expected +:+ ", found " +:+ pretty (rv_revision a)));;
      try_except (on_triggers (trigger_deactivate tenant tid expected);; mret tt) (as_schedule_error id);;
      from_outcome (validated on_deleted (tenant, tid))
  end.

Definition executor_options (s : schedule) : Z * bool :=
  (1, match sw_trigger (sd_write s) with Cron _ _ => true | At _ _ => false end).
End Service.

(** ** A schedule is read back as it was written *)

Section RoundTrip.
Context {E : SpecEnv}.

Lemma text_field_strip a b s v : text_field a b s = Some v → v = strip s.
Proof. unfold text_field. destruct (_ && _); [by intros [= <-]|done]. Qed.
Lemma solid_text_id s : solid_text s = Some s → strip s = s ∧ s ≠ "".
Proof. unfold solid_text. case_bool_decide as H; [done|]. intros [= Hs]. rewrite Hs in H. done. Qed.
Lemma solid_text_of s : strip s = s → s ≠ "" → solid_text s = Some s.
Proof. intros Hs Hne. unfold solid_text. rewrite Hs. by rewrite bool_decide_eq_false_2. Qed.

(** A stripped text behind one that starts with no white space is stripped. *)
Lemma rstrip_app s t : t ≠ "" → rstrip t = t → rstrip (s +:+ t) = s +:+ t.
Proof.
  intros Hne Ht. induction s as [|c s IH]; [done|]. change (rstrip (String c (s +:+ t)) = String c (s +:+ t)).
  cbn [rstrip]. rewrite IH. destruct s as [|c' s]; [|done]. change ("" +:+ t) with t. by destruct t.
Qed.
Lemma strip_app c s t : py_isspace c = false → t ≠ "" → strip t = t → strip (String c s +:+ t) = String c s +:+ t.
Proof.
  intros Hc Hne Ht. unfold strip. rewrite (lstrip_fix (String c s +:+ t)) by done. apply rstrip_app; [done|].
  unfold strip in Ht. rewrite <-Ht. apply rstrip_idem.
Qed.
Lemma source_key_stripped id : strip id = id → id ≠ "" → strip (source_key id) = source_key id.
Proof. intros. by apply (strip_app "s"). Qed.
Lemma reminder_stripped m : strip m = m → m ≠ "" → strip (reminder_prefix +:+ m) = reminder_prefix +:+ m.
Proof.
  intros. apply (strip_app "D" ("eliver this reminder to the owner exactly as written:" +:+ newline +:+ newline)); done.
Qed.

(** What [validate_trigger_write] keeps. *)
Lemma validated_trigger_fields w w' : validate_trigger_write w = Ok w' →
  tw_name w' = strip (tw_name w) ∧ validate_source (tw_source w) = Some (tw_source w') ∧
  tw_instruction w' = strip (tw_instruction w) ∧ validate_delivery (tw_delivery w) = Some (tw_delivery w') ∧
  tw_enabled w' = tw_enabled w ∧ tw_source_key w' = strip <$> tw_source_key w ∧
  tw_source_revision w' = tw_source_revision w ∧ validate_labels (tw_labels w) = Some (tw_labels w') ∧
  validate_ref (tw_agent_spec w) = Some (tw_agent_spec w') ∧ tw_exposure w' = tw_exposure w.
Proof.
  unfold validate_trigger_write.
  destruct (text_field 1 200 (tw_name w)) as [name|] eqn:E1; [|done]. destruct (validate_source _) as [source|] eqn:E2; [|done].
  destruct (validate_ref _) as [ref|] eqn:E3; [|done]. destruct (text_field 1 200000 _) as [instruction|] eqn:E4; [|done].
  destruct (validate_delivery _) as [delivery|] eqn:E5; [|done].
  destruct (optional_field (text_field 1 300) (tw_source_key w)) as [key|] eqn:E6; [|done].
  destruct (validate_labels _) as [labels|] eqn:E7; [|done].
  destruct (match tw_source_revision w with Some n => 1 <=? n | None => true end); [|done].
  intros ->%validate_exposure_Ok. simpl. apply text_field_strip in E1, E4. split_and!; try done.
  unfold optional_field in E6. destruct (tw_source_key w) as [k|]; [|by injection E6 as <-].
  destruct (text_field 1 300 k) as [k'|] eqn:E8; [|done]. injection E6 as <-. by apply text_field_strip in E8 as ->.
Qed.

Definition valid_schedule (w : schedule_write) : Prop := validate_schedule_write w = Some w.
Lemma valid_schedule_fields w : valid_schedule w →
  strip (sw_name w) = sw_name w ∧ text_field 1 200 (sw_name w) = Some (sw_name w) ∧
  validate_schedule_trigger (sw_trigger w) = Some (sw_trigger w) ∧ validate_action (sw_action w) = Some (sw_action w).
Proof.
  unfold valid_schedule, validate_schedule_write.
  destruct (text_field _ _ _) as [name|] eqn:E1; [|done]. destruct (validate_schedule_trigger _) as [t|] eqn:E2; [|done].
  destruct (validate_action _) as [a|] eqn:E3; [|done]. intros H. simpl in H. injection H as H.
  destruct w as [name' t' a' notify enabled]; simpl in *. injection H as -> -> ->.
  pose proof (text_field_strip _ _ _ _ E1). by split_and!.
Qed.

Lemma iana_strip z z' : iana_timezone z = Some z' → z' = strip z.
Proof. unfold iana_timezone. by destruct (zone_known _); [intros [= <-]|]. Qed.
Lemma solid_strip z z' : solid_text z = Some z' → z' = strip z.
Proof. unfold solid_text. case_bool_decide; [done|]. by intros [= <-]. Qed.
(** The trigger's source is the schedule's own. *)
Lemma source_kept t s : validate_schedule_trigger t = Some t →
  validate_source (match t with At r z => AtTrigger r z | Cron e z => CronTriggerSpec e z end) = Some s →
  projected_source s = Ok t.
Proof.
  intros Ht Hs. assert (s = match t with At r z => AtTrigger r z | Cron e z => CronTriggerSpec e z end) as ->.
  { destruct t as [r z|e z]; simpl in Ht, Hs.
    - destruct (solid_text z) as [z1|] eqn:E1; [|done]. simpl in Ht. destruct (iana_timezone z1) as [z2|] eqn:E2; [|done].
      simpl in Ht. case_bool_decide; [|done]. injection Ht as ->. apply iana_strip in E2. apply solid_strip in E1.
      destruct (text_field 1 100 z) as [z3|] eqn:E3; [|done]. simpl in Hs. destruct (iana_timezone z3) as [z4|] eqn:E4; [|done].
      injection Hs as <-. apply text_field_strip in E3. apply iana_strip in E4. congruence.
    - destruct (solid_text z) as [z1|] eqn:E1; [|done]. simpl in Ht. destruct (iana_timezone z1) as [z2|] eqn:E2; [|done].
      simpl in Ht. destruct (solid_text e) as [e1|] eqn:E3; [|done]. simpl in Ht. destruct (crontab_ok e1 z2); [|done].
      injection Ht as -> ->. apply iana_strip in E2. apply solid_strip in E1, E3.
      rewrite E1, strip_stripped in E2.
      destruct (text_field 1 200 e) as [e2|] eqn:E4; [|done]. simpl in Hs.
      destruct (text_field 1 100 z) as [z3|] eqn:E5; [|done]. simpl in Hs. destruct (iana_timezone z3) as [z4|]; [|done].
      simpl in Hs. destruct (crontab_ok e2 z4); [|done]. injection Hs as <-. apply text_field_strip in E4, E5. congruence. }
  unfold projected_source. destruct t; by rewrite Ht.
Qed.
(** The action is told from its kind and its instruction. *)
Lemma action_kept a : validate_action a = Some a →
  strip (action_instruction a) = action_instruction a ∧
  projected_action (action_kind a) (action_instruction a) = Ok a.
Proof.
  destruct a as [m|i]; simpl; intros Ha.
  - destruct (solid_text m) as [m'|] eqn:Em; [|done]. injection Ha as ->. destruct (solid_text_id m Em) as [Hs Hne].
    split; [by apply reminder_stripped|]. unfold projected_action. cbn [orb]. rewrite bool_decide_eq_true_2 by done.
    cbn [orb]. rewrite startswith_app, removeprefix_app. unfold valid_action. simpl. by rewrite Em.
  - destruct (solid_text i) as [i'|] eqn:Em; [|done]. injection Ha as ->. destruct (solid_text_id i Em) as [Hs Hne].
    split; [done|]. unfold projected_action. rewrite bool_decide_eq_false_2 by done. cbn [orb].
    rewrite bool_decide_eq_false_2 by done. cbn [andb]. rewrite bool_decide_eq_true_2 by set_solver.
    unfold valid_action. simpl. by rewrite Em.
Qed.

Lemma projected_back id n w ref c : valid_schedule w → strip id = id → id ≠ "" →
  trigger_write_of id n w ref = Ok c →
  projected_write c = Ok w ∧ tw_source_key c = Some (source_key id) ∧ tw_source_revision c = Some n ∧
  assoc "schedule_contract" (tw_labels c) = Some "v1".
Proof.
  intros Hw Hid Hne (H1 & H2 & H3 & H4 & H5 & H6 & H7 & H8 & _)%validated_trigger_fields. simpl in *.
  destruct (valid_schedule_fields w Hw) as (Hn & _ & Ht & Ha).
  assert (assoc "schedule_action" (tw_labels c) = Some (action_kind (sw_action w)) ∧
    assoc "schedule_contract" (tw_labels c) = Some "v1") as [Hl1 Hl2].
  { assert (∀ l, validate_labels [("schedule_action", action_kind (sw_action w)); ("schedule_contract", "v1")] = Some l →
      assoc "schedule_action" l = Some (action_kind (sw_action w)) ∧ assoc "schedule_contract" l = Some "v1") as Hall;
      [|by apply Hall]. intros l. destruct (sw_action w); intros [= <-]; by vm_compute. }
  rewrite source_key_stripped in H6 by done. split_and!; [|done..].
  destruct (action_kept _ Ha) as [Hi Hp]. unfold projected_write. rewrite (source_kept _ _ Ht H2), Hl1.
  cbn [mbind outcome_mbind].
  change (default "" (Some (action_kind (sw_action w)))) with (action_kind (sw_action w)). rewrite H3, Hi, Hp. cbn [mbind outcome_mbind]. rewrite H1, Hn, H5.
  assert (ds_mode (tw_delivery c) = if sw_notify w then ToOwner else NoDelivery) as ->.
  { revert H4. destruct (sw_notify w); by intros [= <-]. }
  by destruct w as [? ? ? [] ?].
Qed.
End RoundTrip.

(** ** Saving, step by step *)

Section Saved.
Context {E : SpecEnv} {Laws : SpecEnvLaws E}.
Variable check_trigger : option (trigger_spec → outcome unit).
Implicit Types (d : trigger_db) (s : spec_state).

Lemma read_triggers_bind {A B} (m : M trigger_db A) (k : A → M spec_state B) s a :
  m (st_triggers s) = (st_triggers s, Ok a) → (on_triggers m ≫= k) s = k a s.
Proof. intros Hm. rewrite run_bind. unfold on_triggers, zoom. rewrite Hm. by destruct s. Qed.

Lemma checked_text_Ok field m v t : checked_text field m v = Ok t → t = strip v ∧ t ≠ "".
Proof.
  unfold checked_text. case_bool_decide; [done|]. destruct (_ <? _); [done|]. by intros [= <-].
Qed.
Lemma checked_schedule_Ok fresh v id : checked_schedule fresh v = Ok id → id = given_id v fresh.
Proof. unfold checked_schedule. destruct (_ <? _); [done|]. by intros [= <-]. Qed.

(** Revisions of a trigger are listed from the newest; the last is the first that was saved. *)
Lemma list_revisions_run t i d : specs_ok d → trigger_list_revisions t i d = (d, Ok (revisions_of t i d)).
Proof.
  intros Hd. unfold trigger_list_revisions, list_revisions. rewrite run_gets_bind. unfold decode_all.
  rewrite run_outcome, (decode_rows_id d); [done..|]. intros r. unfold revisions_of. rewrite order_by_perm.
  by intros [Hr _]%elem_of_select.
Qed.
Lemma oldest_revision t i d : specs_ok d → last (revisions_of t i d) = revision_at t i 1 d.
Proof.
  intros Hd. assert (StronglySorted (λ x y, newest x y = true) (revisions_of t i d)) as Hsort.
  { apply Sorted_StronglySorted; [intros x y z; apply newest_trans|]. apply order_by_sorted, newest_total. }
  assert (∀ r, r ∈ revisions_of t i d ↔ r ∈ sp_revisions d ∧ of_spec t i r = true) as Hin.
  { intros r. unfold revisions_of. rewrite order_by_perm. apply elem_of_select. }
  destruct (last (revisions_of t i d)) as [x|] eqn:Hlast.
  - apply last_Some in Hlast as [l Hl]. rewrite Hl in Hsort, Hin.
    destruct (proj1 (Hin x) ltac:(set_solver)) as [Hx Ho]. symmetry. apply revision_at_Some; [done..|].
    apply at_revision_true. split; [by apply of_spec_true in Ho|].
    pose proof (revision_range t i d x Hd Hx Ho) as Hrange.
    destruct (revision_exists t i 1 d Hd) as (r & Hr & [Ho' Hn]%at_revision_true); [lia|].
    assert (r ∈ l ++ [x]) as Hrl by (apply Hin; split; [done|by apply of_spec_true]).
    apply elem_of_app in Hrl as [Hrl|Hrx%list_elem_of_singleton]; [|by subst].
    pose proof (StronglySorted_app_1_elem_of _ _ _ r x Hsort Hrl ltac:(set_solver)) as Hle%Z.leb_le. lia.
  - apply last_None in Hlast. symmetry. apply select_one_None. intros r Hr.
    destruct (at_revision t i 1 r) eqn:Hat; [|done]. apply at_revision_true in Hat as [Ho _].
    assert (r ∈ revisions_of t i d) as H by (apply Hin; split; [done|by apply of_spec_true]). rewrite Hlast in H.
    by apply elem_of_nil in H.
Qed.

(** What a trigger reads back as, and when it was first saved. *)
Definition first_saved (t : trigger_spec) d : Z :=
  from_option rv_created_at (rv_created_at t) (revision_at (rv_tenant t) (rv_id t) 1 d).
Lemma project_run t id w d : specs_ok d → tw_source_key (rv_content t) = Some (source_key id) →
  projected_write (rv_content t) = Ok w →
  project t d = (d, validate_schedule (Schedule id (rv_tenant t) (rv_revision t) w (first_saved t d) (rv_created_at t))).
Proof.
  intros Hd Hk Hw. unfold project. rewrite Hk. change (default "" (Some (source_key id))) with (source_key id).
  unfold source_key. rewrite startswith_app, removeprefix_app, run_unless_bind, run_outcome_bind, Hw.
  rewrite (run_bind_ok _ _ _ _ _ (list_revisions_run _ _ d Hd)), oldest_revision, run_outcome by done. done.
Qed.

(** Creating and activating a revision. *)
Lemma service_activate_Ok t b i n e now d d' x :
  specs_ok d → trigger_service_activate check_trigger t b i n e now d = (d', Ok x) →
  revision_at t i n d = Some x ∧ spec_step d d' ∧ sp_revisions d' = sp_revisions d ∧
  (∀ t' i', active_revision t' i' d' = if (t' == t) && (i' == i) then Some n else active_revision t' i' d).
Proof.
  intros Hd. unfold trigger_service_activate, trigger_get_revision. rewrite run_bind, get_revision_run by done.
  destruct (revision_at t i n d) as [r|] eqn:Hr; [|done]. rewrite run_outcome_bind. destruct (validated _ _); [|done].
  unfold trigger_activate. rewrite run_transaction, run_gets_bind, Hr, run_outcome_bind.
  apply select_one_Some in Hr as Hin. destruct Hin as [Hin Hat].
  rewrite (proj1 (sk_rows _ Hd r Hin)), run_bind.
  destruct (switch_active t i n e b now d) as [d1 [[]|err]] eqn:Hs; [|done]. intros [= <- <-].
  apply switch_active_Ok in Hs as (H1 & H2 & H3 & _); [by split_and!|done|by exists r].
Qed.
Lemma trigger_create_Ok t i w e b now s s' r :
  spec_state_ok s → trigger_create t i w e b now s = (s', Ok r) →
  create_revision t i w e b now (st_triggers s) = (st_triggers s', Ok r) ∧ st_agents s' = st_agents s.
Proof.
  intros Hs. unfold trigger_create. rewrite run_bind, validate_target_run by done.
  destruct (_ == t); [|done]. destruct (revision_at _ _ _ _); [|done]. destruct (_ == tw_exposure w); [|done].
  unfold on_triggers, zoom. by destruct (create_revision _ _ _ _ _ _ _) as [d' [r'|x]]; intros [= <- <-].
Qed.

Lemma trigger_id_stripped id : strip (trigger_id id) = trigger_id id.
Proof.
  assert (∀ (n : nat) (x : string), all_chars (λ c, negb (py_isspace c)) x = true →
    all_chars (λ c, negb (py_isspace c)) (take_text n x) = true) as Ht.
  { intros n. induction n as [|n IH]; intros [|c x]; try done. intros [Hc Hs]%andb_true_iff.
    change (take_text (S n) (String c x)) with (String c (take_text n x)). simpl. rewrite Hc. by apply IH. }
  apply (solid_stripped (λ c, negb (py_isspace c))); [intros c; by destruct (py_isspace c)|].
  unfold trigger_id. generalize (take_text 24 (sha256_hex id)), (Ht 24%nat (sha256_hex id)). intros t H.
  change (all_chars (λ c, negb (py_isspace c)) ("schedule_" +:+ t)) with (all_chars (λ c, negb (py_isspace c)) t).
  apply H. by rewrite (sha256_hex_alphabet (λ c, negb (py_isspace c))).
Qed.
Lemma trigger_id_given id fresh : given_id (Some (trigger_id id)) fresh = trigger_id id.
Proof.
  unfold given_id. change (default "" (Some (trigger_id id))) with (trigger_id id). rewrite trigger_id_stripped. done.
Qed.
End Saved.

(** ** What a save that succeeded did *)

Section Outcome.
Context {E : SpecEnv} {Laws : SpecEnvLaws E}.
Variable check_trigger : option (trigger_spec → outcome unit).
Variable resolve_agent_spec : string → spec_state → outcome agent_spec_ref.
Variable on_changed : option (trigger_spec → outcome unit).
Variable on_deleted : option (string * string → outcome unit).
Implicit Types (d : trigger_db) (s : spec_state).

Lemma active_trigger_Some t i d a : specs_ok d → active_trigger t i d = Some a →
  a ∈ sp_revisions d ∧ rv_tenant a = t ∧ rv_id a = i ∧ active_revision t i d = Some (rv_revision a).
Proof.
  intros Hd. unfold active_trigger. destruct (active_revision t i d) as [n|]; [|done]. simpl.
  intros [Ha [[H1 H2] H3]%at_revision_true]%select_one_Some. subst. done.
Qed.
Lemma active_trigger_None t i d : specs_ok d → active_trigger t i d = None → active_revision t i d = None.
Proof.
  intros Hd. unfold active_trigger. destruct (active_revision t i d) as [n|] eqn:Er; [|done]. simpl. intros Hn.
  apply active_revision_Some in Er as (a & Ha & <- & <- & <-). destruct (sk_target _ Hd a Ha) as (r & Hr & Hat).
  rewrite (revision_at_Some _ _ _ d r) in Hn; done.
Qed.
Lemma project_state t d : specs_ok d → (project t d).1 = d.
Proof.
  intros Hd. unfold project. rewrite run_unless_bind. destruct (startswith _ _); [|done].
  rewrite run_outcome_bind. destruct (projected_write _); [|done].
  by rewrite (run_bind_ok _ _ _ _ _ (list_revisions_run _ _ d Hd)).
Qed.

(** The trigger is saved and then activated, in two transactions. *)
Definition write_trigger (t actor id fresh : string) (c : trigger_write) (e ea : option Z) (times : save_times) :
    M spec_state trigger_spec :=
  try_except (
    created ← trigger_service_save t actor c (Some (trigger_id id)) e fresh (at_created times);
    on_triggers (trigger_service_activate check_trigger t actor (trigger_id id) (rv_revision created) ea (at_activated times)))
    (as_schedule_error id).
Lemma write_trigger_Ok t actor id fresh c e ea times s s' x :
  write_trigger t actor id fresh c e ea times s = (s', Ok x) →
  ∃ s1 created, trigger_create t (trigger_id id) c e actor (at_created times) s = (s1, Ok created) ∧
    trigger_service_activate check_trigger t actor (trigger_id id) (rv_revision created) ea (at_activated times) (st_triggers s1) =
      (st_triggers s', Ok x) ∧ st_agents s' = st_agents s1.
Proof.
  unfold write_trigger. rewrite run_try_except, run_bind. unfold trigger_service_save. rewrite trigger_id_given.
  destruct (trigger_create _ _ _ _ _ _ s) as [s1 [created|x1]]; [|by destruct x1].
  unfold on_triggers, zoom. destruct (trigger_service_activate _ _ _ _ _ _ _ (st_triggers s1)) as [d2 [x2|x2]] eqn:Ea.
  - intros [= <- <-]. by exists s1, created.
  - by destruct x2.
Qed.

(** A save that succeeded: the caller had named the active revision, and the
    next one was created, activated and read back. *)
Record saved (tenant_id : string) (w : schedule_write) (schedule_id : option string) (e : option Z) (fresh : string)
    (now : Z) s s' (sd : schedule) (t id : string) (c : trigger_write) s1 (created activated : trigger_spec) : Prop := {
  sv_tenant : t = strip tenant_id;
  sv_id : id = given_id schedule_id fresh;
  sv_active : active_revision t (trigger_id id) (st_triggers s) = e;
  sv_latest : latest_number t (trigger_id id) (st_triggers s) = e;
  sv_content : ∃ ref, trigger_write_of id (default 0 e + 1) (without_missed now w) ref = Ok c ∧
    ∀ a, active_trigger t (trigger_id id) (st_triggers s) = Some a → ref = tw_agent_spec (rv_content a);
  sv_created : ∃ actor at_, trigger_create t (trigger_id id) c e actor at_ s = (s1, Ok created);
  sv_activated : ∃ actor at_, trigger_service_activate check_trigger t actor (trigger_id id) (rv_revision created) e at_
    (st_triggers s1) = (st_triggers s', Ok activated);
  sv_read : (project activated (st_triggers s')).2 = Ok sd;
  sv_agents : st_agents s' = st_agents s;
}.
Lemma save_schedule_tail tenant_id w schedule_id actor e fresh times next ref s s' sd :
  let t := strip tenant_id in let id := given_id schedule_id fresh in
  spec_state_ok s → active_revision t (trigger_id id) (st_triggers s) = e →
  latest_number t (trigger_id id) (st_triggers s) = e → next = default 0 e + 1 →
  (∀ a, active_trigger t (trigger_id id) (st_triggers s) = Some a → ref = tw_agent_spec (rv_content a)) →
  (c ← from_outcome (trigger_write_of id next (without_missed (at_save times) w) ref);
   activated ← write_trigger t actor id fresh c e e times;
   from_outcome (validated on_changed activated);; on_triggers (project activated)) s = (s', Ok sd) →
  ∃ c s1 created activated, saved tenant_id w schedule_id e fresh (at_save times) s s' sd t id c s1 created activated.
Proof.
  cbv zeta. intros Hs Hact Hl -> Href. rewrite run_outcome_bind. destruct (trigger_write_of _ _ _ _) as [c|] eqn:Ec; [|done].
  rewrite run_bind. destruct (write_trigger _ _ _ _ _ _ _ _ s) as [s2 [x|]] eqn:Ew; [|done].
  apply write_trigger_Ok in Ew as (s1 & created & H1 & H2 & H3). rewrite run_outcome_bind.
  destruct (validated on_changed x); [|done].
  pose proof (trigger_create_Ok _ _ _ _ _ _ _ _ _ Hs H1) as [_ H4].
  assert (specs_ok (st_triggers s1)) as Hd1.
  { assert (validate_trigger_write c = Ok c) as Hc by (by eapply validate_trigger_write_idem).
    pose proof (trigger_create_advance (strip tenant_id) (trigger_id (given_id schedule_id fresh)) c e actor (at_created times) s Hc Hs) as Ha.
    rewrite H1 in Ha. apply Ha. }
  apply service_activate_Ok in H2 as H5; [|done]. destruct H5 as (_ & [Hd2 _] & _).
  unfold on_triggers, zoom. pose proof (project_state x (st_triggers s2) Hd2) as Hp.
  destruct (project x (st_triggers s2)) as [d3 r] eqn:Ep. simpl in Hp. subst d3. intros [= <- ->].
  exists c, s1, created, x. split; try done; simpl.
  - by exists ref.
  - by exists actor, (at_created times).
  - by exists actor, (at_activated times).
  - by rewrite Ep.
  - congruence.
Qed.
Lemma save_schedule_Ok tenant_id w schedule_id e actor_id fresh times s s' sd : spec_state_ok s →
  save_schedule check_trigger resolve_agent_spec on_changed tenant_id w schedule_id e actor_id fresh times s = (s', Ok sd) →
  ∃ c s1 created activated, saved tenant_id w schedule_id e fresh (at_save times) s s' sd (strip tenant_id)
    (given_id schedule_id fresh) c s1 created activated.
Proof.
  intros Hs. unfold save_schedule. rewrite run_outcome_bind.
  destruct (checked_tenant tenant_id) as [t|] eqn:Et; [|done]. apply checked_text_Ok in Et as [-> _].
  rewrite run_outcome_bind. destruct (checked_schedule fresh schedule_id) as [id|] eqn:Ei; [|done].
  apply checked_schedule_Ok in Ei as ->. rewrite run_outcome_bind.
  destruct (checked_actor actor_id) as [actor|] eqn:Ea; [|done]. cbv zeta.
  set (tid := trigger_id (given_id schedule_id fresh)). pose proof (so_triggers _ Hs) as Hd.
  rewrite (read_triggers_bind _ _ s _ (get_latest_run (strip tenant_id) tid _ Hd)).
  rewrite (read_triggers_bind _ _ s _ (trigger_get_active_run (strip tenant_id) tid _ Hd)).
  rewrite run_unless_bind. destruct (match latest_row _ tid _ with Some l => _ | None => true end); [|done].
  destruct (active_trigger _ tid _) as [a|] eqn:Eact.
  - destruct (active_trigger_Some _ _ _ _ Hd Eact) as (_ & _ & _ & Hact).
    rewrite run_bind_assoc, run_unless_bind. destruct (negb _); [|done].
    rewrite run_bind_assoc, run_unless_bind. case_bool_decide as He; [|done].
    rewrite run_bind_assoc, run_unless_bind. case_bool_decide as Hl; [|done]. rewrite run_ret_bind.
    rewrite Hl, He. apply save_schedule_tail;
      [done|exact (eq_trans Hact He)|exact (eq_trans Hl He)|by rewrite <-He|]. fold tid. rewrite Eact. by intros a' [= <-].
  - pose proof Eact as Hnone. apply active_trigger_None in Eact; [|done].
    rewrite run_bind_assoc, run_unless_bind. case_bool_decide as Hl; [|done].
    rewrite run_bind_assoc, run_unless_bind. case_bool_decide as He; [|done]. subst e.
    rewrite run_bind_assoc, run_gets_bind. rewrite run_bind_assoc, run_outcome_bind.
    destruct (resolve_agent_spec _ s) as [ref|]; [|done]. rewrite run_ret_bind.
    rewrite Hl. apply save_schedule_tail; [done|exact Eact|exact (f_equal (fmap rv_revision) Hl)|done|].
    fold tid. by rewrite Hnone.
Qed.
End Outcome.

(** ** Reading schedules *)

Section Reading.
Context {E : SpecEnv} {Laws : SpecEnvLaws E}.
Implicit Types (d : trigger_db).

(** What reading a trigger depends on. *)
Definition same_trigger (t i : string) d d' : Prop :=
  active_revision t i d' = active_revision t i d ∧ (∀ n, revision_at t i n d' = revision_at t i n d) ∧
  revisions_of t i d' = revisions_of t i d.
Lemma same_trigger_refl t i d : same_trigger t i d d.
Proof. done. Qed.
Lemma same_trigger_trans t i d d' d'' : same_trigger t i d d' → same_trigger t i d' d'' → same_trigger t i d d''.
Proof. intros (H1 & H2 & H3) (H4 & H5 & H6). split_and!; [congruence|intros n; by rewrite H5|congruence]. Qed.
Lemma same_after_add t i d r : (rv_tenant r, rv_id r) ≠ (t, i) → same_trigger t i d (add_revision r d).
Proof.
  intros Hne. assert (of_spec t i r = false) as Ho.
  { apply not_true_iff_false. rewrite of_spec_true. intros [<- <-]. by apply Hne. }
  split_and!; [done| |].
  - intros n. unfold revision_at, add_revision. simpl. rewrite select_one_app.
    destruct (select_one _ (sp_revisions d)); [done|]. simpl. unfold at_revision. by rewrite Ho.
  - unfold revisions_of, add_revision, select. simpl. rewrite List.filter_app. simpl. by rewrite Ho, app_nil_r.
Qed.
Lemma same_with_rows t i d d' : sp_revisions d' = sp_revisions d → active_revision t i d' = active_revision t i d →
  same_trigger t i d d'.
Proof. intros Hr Ha. unfold same_trigger, revision_at, revisions_of. by rewrite Hr. Qed.

Lemma get_schedule_frame tenant_id schedule_id fresh d d' : specs_ok d → specs_ok d' →
  same_trigger (strip tenant_id) (trigger_id (given_id (Some schedule_id) fresh)) d d' →
  (get_schedule tenant_id schedule_id fresh d').2 = (get_schedule tenant_id schedule_id fresh d).2.
Proof.
  intros Hd Hd' (Ha & Hr & Hl). unfold get_schedule. rewrite !run_outcome_bind.
  destruct (checked_tenant tenant_id) as [t|] eqn:Et; [|done]. apply checked_text_Ok in Et as [-> _].
  rewrite !run_outcome_bind. destruct (checked_schedule fresh (Some schedule_id)) as [id|] eqn:Ei; [|done].
  apply checked_schedule_Ok in Ei as ->. set (tid := trigger_id _) in *.
  rewrite (run_bind_ok _ _ _ _ _ (trigger_get_active_run (strip tenant_id) tid d Hd)).
  rewrite (run_bind_ok _ _ _ _ _ (trigger_get_active_run (strip tenant_id) tid d' Hd')).
  assert (active_trigger (strip tenant_id) tid d' = active_trigger (strip tenant_id) tid d) as ->.
  { unfold active_trigger. rewrite Ha. destruct (active_revision _ _ d); [|done]. apply Hr. }
  destruct (active_trigger (strip tenant_id) tid d) as [a|] eqn:Eact; [|done].
  destruct (active_trigger_Some _ _ _ _ Hd Eact) as (_ & Hat & Hai & _).
  destruct (_ || _); [done|]. rewrite !run_bind. unfold project. rewrite !run_unless_bind.
  destruct (startswith _ _); [|done]. rewrite !run_outcome_bind. destruct (projected_write _); [|done].
  rewrite Hat, Hai. fold tid.
  rewrite (run_bind_ok _ _ _ _ _ (list_revisions_run (strip tenant_id) tid d Hd)).
  rewrite (run_bind_ok _ _ _ _ _ (list_revisions_run (strip tenant_id) tid d' Hd')).
  rewrite Hl, !run_outcome. by destruct (validate_schedule _).
Qed.

Lemma get_schedule_active tenant_id id fresh d a sd : specs_ok d → strip tenant_id = rv_tenant a →
  checked_tenant tenant_id = Ok (strip tenant_id) → checked_schedule fresh (Some id) = Ok id →
  rv_id a = trigger_id id → active_trigger (rv_tenant a) (rv_id a) d = Some a →
  tw_source_key (rv_content a) = Some (source_key id) → assoc "schedule_contract" (tw_labels (rv_content a)) = Some "v1" →
  (project a d).2 = Ok sd → get_schedule tenant_id id fresh d = (d, Ok (Some sd)).
Proof.
  intros Hd Ht Hct Hcs Hi Hact Hk Hc Hp. unfold get_schedule. rewrite run_outcome_bind, Hct, run_outcome_bind, Hcs.
  rewrite Ht, <-Hi, (run_bind_ok _ _ _ _ _ (trigger_get_active_run (rv_tenant a) (rv_id a) d Hd)), Hact.
  unfold is_schedule. rewrite Hk, Hc, !bool_decide_eq_true_2 by done.
  change (default "" (Some (source_key id))) with (source_key id). unfold source_key. rewrite startswith_app. cbn [andb orb negb].
  rewrite run_bind. pose proof (project_state a d Hd) as Hs. destruct (project a d) as [d' r]. simpl in *. by subst.
Qed.
End Reading.

(** ** The facade's promises *)

Section Promises.
Context {E : SpecEnv} {Laws : SpecEnvLaws E}.
Variable check_agent : option (agent_spec → outcome unit).
Variable check_trigger : option (trigger_spec → outcome unit).
Variable resolve_agent_spec : string → spec_state → outcome agent_spec_ref.
Variable on_changed : option (trigger_spec → outcome unit).
Variable on_deleted : option (string * string → outcome unit).
Implicit Types (d : trigger_db) (s : spec_state).

(** The digest tells the content that a save of [w] writes from the active one. *)
Definition digest_tells (t id : string) (w : schedule_write) d : Prop :=
  ∀ a c, active_trigger t (trigger_id id) d = Some a →
    trigger_write_of id (rv_revision a + 1) w (tw_agent_spec (rv_content a)) = Ok c →
    rv_digest a = digest c → rv_content a = c.

Lemma without_missed_valid now w : valid_schedule w → valid_schedule (without_missed now w).
Proof.
  intros H. assert (without_missed now w = w ∨ without_missed now w = w <| sw_enabled := false |>) as [->| ->]; [|done|].
  { unfold without_missed. destruct (sw_trigger w); [|by left]. destruct (_ && _); [by right|by left]. }
  destruct w as [name t a notify enabled]. unfold valid_schedule, validate_schedule_write in *. simpl in *.
  destruct (text_field _ _ _); [|done]. simpl in *. destruct (validate_schedule_trigger t); [|done]. simpl in *.
  destruct (validate_action a); [|done]. simpl in *. by injection H as -> -> ->.
Qed.

(** The row a save leaves active. *)
Record saved_row (t tid : string) (e : option Z) (c : trigger_write) s s' (a : trigger_spec) : Prop := {
  sr_ok : specs_ok (st_triggers s');
  sr_tenant : rv_tenant a = t;
  sr_id : rv_id a = tid;
  sr_content : rv_content a = c;
  sr_number : rv_revision a = default 0 e + 1 ∨ Some (rv_revision a) = e;
  sr_active : active_trigger t tid (st_triggers s') = Some a;
  sr_others t' i' : (t', i') ≠ (t, tid) → same_trigger t' i' (st_triggers s) (st_triggers s');
}.
Lemma saved_active tenant_id w schedule_id e fresh now s s' sd t id c s1 created activated :
  spec_state_ok s → digest_tells (strip tenant_id) (given_id schedule_id fresh) (without_missed now w) (st_triggers s) →
  saved check_trigger tenant_id w schedule_id e fresh now s s' sd t id c s1 created activated →
  saved_row t (trigger_id id) e c s s' activated.
Proof.
  intros Hs Hdig [-> -> Hact Hl (ref & Hc & Href) (actor & at_ & Hcr) (actor' & at' & Hav) _ Hag].
  set (t := strip tenant_id) in *. set (tid := trigger_id _) in *. pose proof (so_triggers _ Hs) as Hd.
  assert (validate_trigger_write c = Ok c) as Hv by (by eapply validate_trigger_write_idem).
  destruct (trigger_create_Ok _ _ _ _ _ _ _ _ _ Hs Hcr) as [Hcr' _].
  assert (∀ r : trigger_spec, rv_tenant r = t → rv_id r = tid → (∀ t' i', (t', i') ≠ (t, tid) → (rv_tenant r, rv_id r) ≠ (t', i'))) as Hoth
    by (intros r -> -> t' i' H; congruence).
  assert (specs_ok (st_triggers s1) ∧ created ∈ sp_revisions (st_triggers s1) ∧ rv_tenant created = t ∧ rv_id created = tid ∧
    rv_content created = c ∧ (rv_revision created = default 0 e + 1 ∨ Some (rv_revision created) = e) ∧
    ∀ t' i', (t', i') ≠ (t, tid) → same_trigger t' i' (st_triggers s) (st_triggers s1)) as (Hd1 & Hin & H1 & H2 & H3 & H4 & H5).
  { apply create_Ok in Hcr' as [(Heq & Hrow & Hdg)|(Heq & [Hok _] & _ & Hr & Hcount)]; [| |done|done].
    - pose proof (latest_row_spec t tid _ Hd) as Hspec. rewrite Hrow in Hspec.
      destruct Hspec as (Hin & [Ht Hi]%of_spec_true & _).
      assert (e = Some (rv_revision created)) as He by (rewrite <-Hl; unfold latest_number; by rewrite Hrow).
      assert (active_trigger t tid (st_triggers s) = Some created) as Hactive.
      { unfold active_trigger. rewrite Hact, He. simpl. apply (revision_at_Some _ _ _ _ _ Hd Hin). by apply at_revision_true. }
      rewrite Heq. split_and!; try done.
      + apply (Hdig created c); [done| |done]. rewrite <-(Href created Hactive). by rewrite He in Hc.
      + by right.
    - assert (rv_tenant created = t) as Ht by (rewrite Hr; apply strip_stripped).
      assert (rv_id created = tid) as Hi by (rewrite Hr; apply trigger_id_stripped).
      split_and!; try done.
      + rewrite Heq. simpl. set_solver.
      + by rewrite Hr.
      + left. rewrite Hr. simpl. by rewrite <-(latest_number_count t tid _ Hd), Hl.
      + intros t' i' Hne. rewrite Heq. by apply same_after_add, Hoth. }
  destruct (service_activate_Ok check_trigger _ _ _ _ _ _ _ _ _ Hd1 Hav) as (Hrow & [Hd' _] & Hrev & Hreads).
  assert (activated = created) as ->.
  { rewrite (revision_at_Some t tid _ _ created) in Hrow; [by injection Hrow|done|done|]. by apply at_revision_true. }
  split; try done.
  - unfold active_trigger. rewrite Hreads, !bool_decide_eq_true_2 by done. simpl. unfold revision_at. by rewrite Hrev.
  - intros t' i' Hne. eapply same_trigger_trans; [by apply H5|]. apply same_with_rows; [done|]. rewrite Hreads.
    destruct ((t' == t) && (i' == tid)) eqn:Eb; [|done].
    apply andb_true_iff in Eb as [->%bool_decide_eq_true ->%bool_decide_eq_true]. by destruct Hne.
Qed.

(** *** Histories of the facade and of the trigger services *)

Inductive schedule_step s : spec_state → Prop :=
  | step_specs op : schedule_step s (run_spec_op check_agent check_trigger s op)
  | step_save tenant w id e actor fresh times : valid_schedule w →
      schedule_step s (save_schedule check_trigger resolve_agent_spec on_changed tenant w id e actor fresh times s).1
  | step_delete tenant id e actor fresh : schedule_step s (delete_schedule on_deleted tenant id e actor fresh s).1.

Definition holds {A} (m : M spec_state A) : Prop := ∀ s, spec_state_ok s → spec_state_ok (m s).1.
Lemma holds_bind {A B} (m : M spec_state A) (k : A → M spec_state B) : holds m → (∀ a, holds (k a)) → holds (m ≫= k).
Proof.
  intros Hm Hk s Hs. specialize (Hm s Hs). rewrite run_bind. destruct (m s) as [s' [a|e]]; [|done]. by apply Hk.
Qed.
Lemma holds_try {A} (m : M spec_state A) h : holds m → (∀ e m', h e = Some m' → holds m') → holds (try_except m h).
Proof.
  intros Hm Hh s Hs. specialize (Hm s Hs). rewrite run_try_except. destruct (m s) as [s' [a|e]]; [done|].
  destruct (h e) as [m'|] eqn:Eh; [|done]. by apply (Hh e).
Qed.
Lemma holds_outcome {A} (o : outcome A) : holds (from_outcome o).
Proof. by intros s. Qed.
Lemma holds_unless b e : holds (unless b e).
Proof. by destruct b; intros s. Qed.
Lemma holds_gets {A} (f : spec_state → A) : holds (gets f).
Proof. by intros s. Qed.
Lemma holds_raise {A} e : holds (raise (A := A) e).
Proof. by intros s. Qed.
Lemma holds_ret {A} (a : A) : holds (mret a).
Proof. by intros s. Qed.
Lemma holds_triggers {A} (m : M trigger_db A) : steps m → keeps m → holds (on_triggers m).
Proof.
  intros H1 H2 s Hs. pose proof (sa_ok _ _ (quiet_triggers_advance m s H1 H2 Hs)) as H. unfold on_triggers, zoom.
  by destruct (m (st_triggers s)).
Qed.
Lemma holds_read {A} (m : M trigger_db A) : (∀ d, specs_ok d → (m d).1 = d) → holds (on_triggers m).
Proof.
  intros Hm s Hs. specialize (Hm _ (so_triggers _ Hs)). unfold on_triggers, zoom. destruct (m (st_triggers s)) as [d r].
  simpl in *. subst. by destruct s.
Qed.
Lemma holds_active t i : holds (on_triggers (trigger_get_active t i)).
Proof. apply holds_read. intros d Hd. by rewrite trigger_get_active_run. Qed.
Lemma holds_latest t i : holds (on_triggers (trigger_get_latest t i)).
Proof. apply holds_read. intros d Hd. unfold trigger_get_latest. by rewrite get_latest_run. Qed.
Lemma holds_create t i w e b now : validate_trigger_write w = Ok w → holds (trigger_create t i w e b now).
Proof. intros Hw s Hs. by apply (trigger_create_advance t i w e b now s Hw Hs). Qed.
Hint Resolve holds_outcome holds_unless holds_gets holds_raise holds_ret holds_active holds_latest : core.

Lemma schedule_error_holds {A} id e (m : M spec_state A) : as_schedule_error id e = Some m → holds m.
Proof. destruct e; try done; intros [= <-]; auto. Qed.
Lemma save_holds tenant w id e actor fresh times :
  holds (save_schedule check_trigger resolve_agent_spec on_changed tenant w id e actor fresh times).
Proof.
  unfold save_schedule. apply holds_bind; [auto|]. intros t. apply holds_bind; [auto|]. intros i.
  apply holds_bind; [auto|]. intros b. apply holds_bind; [auto|]. intros latest. apply holds_bind; [auto|]. intros active.
  apply holds_bind; [auto|]. intros _. apply holds_bind.
  { destruct active; repeat (apply holds_bind; [auto|intros ?]); auto. }
  intros [[next ea] ref]. intros s Hs. rewrite run_outcome_bind.
  destruct (trigger_write_of _ _ _ _) as [c|] eqn:Ec; [|done]. revert s Hs. change (holds
    (activated ← write_trigger check_trigger t b i fresh c (rv_revision <$> latest) ea times;
     from_outcome (validated on_changed activated);; on_triggers (project activated))).
  apply holds_bind.
  - apply holds_try; [|intros; by eapply schedule_error_holds]. apply holds_bind.
    + unfold trigger_service_save. apply holds_create. by eapply validate_trigger_write_idem.
    + intros created. apply holds_triggers; [apply trigger_service_activate_steps|apply trigger_service_activate_keeps].
  - intros a. apply holds_bind; [auto|]. intros _. apply holds_read, project_state.
Qed.
Lemma delete_holds tenant id e actor fresh : holds (delete_schedule on_deleted tenant id e actor fresh).
Proof.
  unfold delete_schedule. apply holds_bind; [auto|]. intros t. apply holds_bind; [auto|]. intros i.
  apply holds_bind; [auto|]. intros _. apply holds_bind; [auto|]. intros [a|]; [|auto].
  apply holds_bind; [auto|]. intros _. apply holds_bind; [auto|]. intros _. apply holds_bind; [|auto].
  apply holds_try; [|intros; by eapply schedule_error_holds]. apply holds_bind; [|auto].
  exact (holds_triggers (deactivate t (trigger_id i) e) (deactivate_step _ _ _) (deactivate_keeps _ _ _)).
Qed.
Lemma schedules_reachable s : rtc schedule_step no_spec_state s → spec_state_ok s.
Proof.
  intros H. assert (∀ s0, spec_state_ok s0 → rtc schedule_step s0 s → spec_state_ok s) as Hall.
  { clear H. intros s0 H0 H. induction H as [|s0 s1 s2 Hstep _ IH]; [done|]. apply IH. destruct Hstep.
    - by apply (run_spec_op_advance check_agent check_trigger).
    - by apply save_holds.
    - by apply delete_holds. }
  by apply (Hall no_spec_state), H; apply no_spec_state_ok.
Qed.


(** A schedule that was deleted is not read and its trigger is not active
    any more, its revisions are kept, no other schedule changes, and nothing
    is ever saved under its id again: every such request is refused and
    changes nothing. *)
Theorem deleted_schedule_final tenant_id schedule_id e actor_id fresh s s'
    (Hreach : rtc schedule_step no_spec_state s)
    (Hdelete : delete_schedule on_deleted tenant_id schedule_id e actor_id fresh s = (s', Ok tt)) :
  let id := given_id (Some schedule_id) fresh in
  active_revision (strip tenant_id) (trigger_id id) (st_triggers s) = Some e ∧
  get_schedule tenant_id schedule_id fresh (st_triggers s') = (st_triggers s', Ok None) ∧
  sp_revisions (st_triggers s') = sp_revisions (st_triggers s) ∧
  (∀ tenant' id' fresh', (strip tenant', trigger_id (given_id (Some id') fresh')) ≠ (strip tenant_id, trigger_id id) →
    (get_schedule tenant' id' fresh' (st_triggers s')).2 = (get_schedule tenant' id' fresh' (st_triggers s)).2) ∧
  ∀ w e' actor' times', ∃ x,
    save_schedule check_trigger resolve_agent_spec on_changed tenant_id w (Some schedule_id) e' actor' fresh times' s' =
      (s', Err x).
Proof.
  cbv zeta. pose proof (schedules_reachable s Hreach) as Hs. pose proof (so_triggers _ Hs) as Hd.
  pose proof (delete_holds tenant_id schedule_id e actor_id fresh s Hs) as Hs'. rewrite Hdelete in Hs'. cbn [fst] in Hs'.
  pose proof (so_triggers _ Hs') as Hd'. revert Hdelete. unfold delete_schedule. rewrite run_outcome_bind.
  destruct (checked_tenant tenant_id) as [t|] eqn:Et; [|done]. pose proof Et as Et'. apply checked_text_Ok in Et' as [-> _].
  rewrite run_outcome_bind. destruct (checked_schedule fresh (Some schedule_id)) as [id|] eqn:Ei; [|done].
  pose proof Ei as Ei'. apply checked_schedule_Ok in Ei' as ->. rewrite run_outcome_bind.
  destruct (checked_actor actor_id) as [b|]; [|done]. cbv zeta. set (t := strip tenant_id) in *.
  set (id := given_id _ fresh) in *. set (tid := trigger_id id).
  rewrite (read_triggers_bind _ _ s _ (trigger_get_active_run t tid _ Hd)).
  destruct (active_trigger t tid (st_triggers s)) as [a|] eqn:Eact; [|done].
  destruct (active_trigger_Some _ _ _ _ Hd Eact) as (Ha & Hat & Hai & Hact).
  rewrite run_unless_bind. destruct (_ && _); [|done]. rewrite run_unless_bind.
  destruct (Z.eqb_spec (rv_revision a) e) as [He|]; [|done]. rewrite run_bind, run_try_except, run_bind.
  unfold on_triggers, zoom, trigger_deactivate. rewrite deactivate_run, Hact, He, Z.eqb_refl by done.
  rewrite run_ret, run_outcome. intros [= <- _]. set (d' := st_triggers s <| sp_active := _ |>) in *.
  assert (∀ t' i', active_revision t' i' d' = if (t' == t) && (i' == tid) then None else active_revision t' i' (st_triggers s)) as Hreads.
  { intros t' i'. apply deactivate_reads; [done|]. by rewrite Hact, He. }
  assert (active_trigger t tid d' = None) as Hgone.
  { unfold active_trigger. by rewrite Hreads, !bool_decide_eq_true_2. }
  assert (latest_row t tid d' ≠ None) as Hlatest.
  { change (latest_row t tid d') with (latest_row t tid (st_triggers s)). intros Hl.
    pose proof (latest_row_spec t tid _ Hd) as Hspec. rewrite Hl in Hspec.
    pose proof (revision_range t tid _ a Hd Ha (proj2 (of_spec_true _ _ _) (conj Hat Hai))). lia. }
  split_and!; [by rewrite <-He| |done| |].
  - unfold get_schedule. rewrite run_outcome_bind, Et, run_outcome_bind, Ei.
    by rewrite (run_bind_ok _ _ _ _ _ (trigger_get_active_run t tid d' Hd')), Hgone.
  - intros tenant' id' fresh' Hne. apply get_schedule_frame; [done|done|]. apply same_with_rows; [done|]. cbn [st_triggers].
    rewrite Hreads. destruct ((strip tenant' == t) && _) eqn:Eb; [|done].
    apply andb_true_iff in Eb as [E1%bool_decide_eq_true E2%bool_decide_eq_true]. destruct Hne. by f_equal.
  - intros w e' actor' times'. unfold save_schedule. rewrite run_outcome_bind, Et, run_outcome_bind, Ei, run_outcome_bind.
    destruct (checked_actor actor') as [b2|x]; [|by exists x]. cbv zeta.
    rewrite (read_triggers_bind _ _ (SpecState (st_agents s) d') _ (get_latest_run t tid d' Hd')).
    rewrite (read_triggers_bind _ _ (SpecState (st_agents s) d') _ (trigger_get_active_run t tid d' Hd')).
    rewrite run_unless_bind. destruct (match latest_row t tid d' with Some l => _ | None => true end); [|by eexists].
    rewrite Hgone, run_bind_assoc, run_unless_bind. rewrite bool_decide_eq_false_2 by done. by eexists.
Qed.
End Promises.

(** ** Samples *)

#[local] Existing Instance Specs.sample_env.
#[local] Instance sample_schedule_laws : SpecEnvLaws sample_env.
Proof. by split. Qed.
Definition sample_routine : agent_write :=
  AgentSpecWrite "Routine" "" "routine" "default" "Execute." Private ProfileDefault [] OwnerMemory ReadOnly false 900 100 None [].
Definition sample_resolve (tenant : string) (s : spec_state) : outcome agent_spec_ref := Ok (AgentSpecRef tenant "routine" 1).
Definition routine_op : spec_op := OpAgentSave "tenant_1" "owner" sample_routine (Some "routine") None "" 1.
Definition routine_saved : spec_state := Eval vm_compute in run_spec_op None None no_spec_state routine_op.
Definition sample_reminder : schedule_write :=
  ScheduleWrite "Standup" (Cron "0 9 * * 1-5" "Europe/Berlin") (Reminder "Join the standup.") true true.
Definition sample_past : schedule_write :=
  ScheduleWrite "Report" (At (Datetime 5 (Some 0)) "UTC") (AgentJob "Write the report.") false true.
Definition sample_times (t : Z) : save_times := SaveTimes t (t + 1) (t + 2).
Abbreviation save_sample := (save_schedule None sample_resolve None).
Definition reminder_saved : spec_state := Eval vm_compute in
  (save_sample "tenant_1" sample_reminder (Some "standup") None "owner" "sch_1" (sample_times 10) routine_saved).1.
Definition reminder_schedule : schedule := Schedule "standup" "tenant_1" 1 sample_reminder 11 11.

Example updates_and_conflicts :
  (save_sample "tenant_1" sample_past (Some "standup") (Some 1) "owner" "sch_1" (sample_times 20) reminder_saved).2 =
    Ok (Schedule "standup" "tenant_1" 2 (sample_past <| sw_enabled := false |>) 11 21) ∧
  (save_sample "tenant_1" sample_past (Some "standup") (Some 3) "owner" "sch_1" (sample_times 20) reminder_saved).2 =
    Err (ScheduleConflictError "expected revision 3, found 1") ∧
  list_schedules "tenant_1" (st_triggers reminder_saved) = (st_triggers reminder_saved, Ok [reminder_schedule]).
Proof. vm_compute. done. Qed.

Lemma sample_reminder_valid : valid_schedule sample_reminder.
Proof. vm_compute. reflexivity. Qed.
Lemma routine_saved_step :
  rtc (schedule_step None None sample_resolve None None) no_spec_state routine_saved.
Proof. apply rtc_once. exact (step_specs None None sample_resolve None None no_spec_state routine_op). Qed.
Lemma reminder_saved_step :
  rtc (schedule_step None None sample_resolve None None) no_spec_state reminder_saved.
Proof.
  eapply rtc_r; [exact routine_saved_step|].
  exact (step_save None None sample_resolve None None routine_saved "tenant_1" sample_reminder (Some "standup") None "owner"
    "sch_1" (sample_times 10) sample_reminder_valid).
Qed.

Definition report_saved : spec_state := Eval vm_compute in
  (save_sample "tenant_1" sample_past (Some "standup") (Some 1) "owner" "sch_1" (sample_times 20) reminder_saved).1.
Definition report_schedule : schedule := Schedule "standup" "tenant_1" 2 (sample_past <| sw_enabled := false |>) 11 21.

Definition reminder_deleted : spec_state := Eval vm_compute in
  (delete_schedule None "tenant_1" "standup" 1 "owner" "sch_1" reminder_saved).1.
Lemma deleted_schedule_final_witness :
  delete_schedule None "tenant_1" "standup" 1 "owner" "sch_1" reminder_saved = (reminder_deleted, Ok tt) ∧
  ∃ x, save_sample "tenant_1" sample_reminder (Some "standup") None "owner" "sch_1" (sample_times 30) reminder_deleted =
    (reminder_deleted, Err x).
Proof.
  split; [vm_compute; reflexivity|].
  destruct (deleted_schedule_final None None sample_resolve None None "tenant_1" "standup" 1 "owner" "sch_1" reminder_saved
    reminder_deleted) as (_ & _ & _ & _ & H).
  - exact reminder_saved_step.
  - vm_compute. reflexivity.
  - exact (H sample_reminder None "owner" (sample_times 30)).
Defined.

(** A revision that was saved and then refused by the activation check stays
    behind: the schedule is not there, and no request saves it any more, with
    the check passing again. *)
Lemma refused_activation_blocks :
  let refusing : option (trigger_spec → outcome unit) := Some (λ _, Err (RuntimeError "the Deep Agent service is not ready")) in
  let blocked := (save_schedule refusing sample_resolve None "tenant_1" sample_reminder (Some "standup") None "owner" "sch_1"
    (sample_times 10) routine_saved).1 in
  (get_schedule "tenant_1" "standup" "sch_1" (st_triggers blocked)).2 = Ok None ∧
  (save_sample "tenant_1" sample_reminder (Some "standup") None "owner" "sch_1" (sample_times 20) blocked).2 =
    Err (ScheduleConflictError "schedule 'standup' is inactive at revision 1") ∧
  (save_sample "tenant_1" sample_reminder (Some "standup") (Some 1) "owner" "sch_1" (sample_times 20) blocked).2 =
    Err (ScheduleConflictError "schedule 'standup' is inactive at revision 1").
Proof. vm_compute. done. Qed.
