(* ===== verification/Seed.v ===== *)
(** * Seeding the default agents

    What [AgentSpecService.seed_defaults] of [specs/service.py] leaves behind:
    a second seeding finds every default settled and changes nothing. *)

From S2P Require Import Prelude Sqlite PyText Sha256 Json Protocol Revisions SpecModels Specs.
#[local] Open Scope string_scope.
#[local] Open Scope list_scope.
#[local] Open Scope Z_scope.

Section Seed.
Context {E : SpecEnv} {Laws : SpecEnvLaws E}.
Implicit Types (d : agent_db) (a : agent_spec) (w : agent_write) (kw : string * agent_write).

(** The active agent [a] is not upgraded towards [w]: it is not the owner, not
    an old default, or its newer revision is something else (or its digest is
    already the one of [w]). *)
Definition stays w a d : Prop :=
  rv_id a ≠ default_owner_spec_id ∨ rv_content a ≠ legacy_default w ∨
  ∃ l, latest_row (rv_tenant a) (rv_id a) d = Some l ∧
    ((rv_revision l ≠ rv_revision a ∧ rv_content l ≠ w) ∨ (l = a ∧ rv_digest a = digest w)).

Record settled (t : string) kw a d : Prop := {
  se_ok : specs_ok d;
  se_active : active_revision t kw.1 d = Some (rv_revision a);
  se_row : revision_at t kw.1 (rv_revision a) d = Some a;
  se_stays : stays kw.2 a d;
}.

Lemma stored_content d a : specs_ok d → a ∈ sp_revisions d →
  validate_agent_write (rv_content a) = Ok (rv_content a).
Proof. intros Hd Ha. by destruct (decode_row_same _ _ (proj1 (sk_rows _ Hd a Ha))) as (_ & Hv & _). Qed.

Lemma activate_same ref b now d :
  specs_ok d → is_Some (revision_at (ar_tenant ref) (ar_spec ref) (ar_revision ref) d) →
  active_revision (ar_tenant ref) (ar_spec ref) d = Some (ar_revision ref) →
  agent_activate ref (Some (ar_revision ref)) b now d = (d, Ok ref).
Proof.
  intros Hd [a Ha] Hact. rewrite agent_activate_run, Ha by done.
  rewrite run_transaction, run_bind, switch_active_run, Hact by done. by rewrite Z.eqb_refl.
Qed.

Lemma upgrade_stays w a b now now' d t i :
  specs_ok d → revision_at t i (rv_revision a) d = Some a →
  active_revision t i d = Some (rv_revision a) → stays w a d →
  upgrade_legacy_owner_default a w b now now' d = (d, Ok a).
Proof.
  intros Hd Hrow Hact Hs. apply select_one_Some in Hrow as Hin.
  destruct Hin as [Ha [[Ht Hi] _]%at_revision_true].
  unfold upgrade_legacy_owner_default.
  case_bool_decide as H1; [|done]. simpl.
  rewrite run_outcome_bind, (stored_content d a Hd Ha).
  case_bool_decide as H2; [|done]. simpl. unfold agent_get_latest.
  rewrite run_bind, get_latest_run by done.
  destruct Hs as [Hs|[Hs|(l & Hl & Hs)]]; [done|done|]. rewrite Hl.
  destruct Hs as [[Hrev Hc]|[-> Hdig]].
  - rewrite (proj2 (Z.eqb_neq _ _) Hrev), run_bind, run_outcome_bind.
    rewrite (stored_content d l Hd); [|pose proof (latest_row_spec (rv_tenant a) (rv_id a) d Hd) as Hx;
      rewrite Hl in Hx; apply Hx].
    by rewrite run_ret, bool_decide_eq_false_2.
  - rewrite Z.eqb_refl, run_bind, run_bind. unfold agent_create.
    rewrite create_run, Hl, bool_decide_eq_true_2 by done. rewrite run_ret, run_bind.
    replace (Some (rv_revision a)) with (Some (ar_revision (ref_of a))) by done.
    rewrite activate_same; [done|done| |]; unfold ref_of; simpl; rewrite Ht, Hi; [by rewrite Hrow|done].
Qed.

(** What one default's seeding may change. *)
Record framed (t i : string) d d1 : Prop := {
  fr_step : spec_step d d1;
  fr_active : ∀ i', i' ≠ i → active_revision t i' d1 = active_revision t i' d;
  fr_latest : ∀ i', i' ≠ i → latest_row t i' d1 = latest_row t i' d;
}.

Lemma framed_refl t i d : specs_ok d → framed t i d d.
Proof. split; [by apply spec_step_refl|done|done]. Qed.

Lemma framed_trans t i d d1 d2 : framed t i d d1 → framed t i d1 d2 → framed t i d d2.
Proof.
  intros [H1 H2 H3] [H4 H5 H6]. split; [by eapply spec_step_trans| |]; intros i' Hi.
  - by rewrite H5, H2.
  - by rewrite H6, H3.
Qed.

Lemma activated_framed t i n d d1 : activated t i n d d1 → framed t i d d1.
Proof.
  intros [Hs Hr Ha]. split; [done| |]; intros i' Hi.
  - rewrite Ha. by rewrite (bool_decide_eq_false_2 (i' = i)), andb_false_r.
  - unfold latest_row, revisions_of. by rewrite Hr.
Qed.

Lemma added_framed t i a d :
  spec_step d (add_revision a d) → rv_tenant a = t → rv_id a = i →
  rv_revision a = count_of t i d + 1 → framed t i d (add_revision a d).
Proof.
  intros Hs <- <- Hn. split; [done|done|]. intros i' Hi. rewrite added_latest by done.
  by rewrite (bool_decide_eq_false_2 (rv_id a = i')), andb_false_r.
Qed.

(** Activation that succeeded: the target is active and readable. *)
Lemma activate_Ok a e b now d d1 x :
  specs_ok d → a ∈ sp_revisions d → agent_activate (ref_of a) e b now d = (d1, Ok x) →
  framed (rv_tenant a) (rv_id a) d d1 ∧ specs_ok d1 ∧
  active_revision (rv_tenant a) (rv_id a) d1 = Some (rv_revision a) ∧
  revision_at (rv_tenant a) (rv_id a) (rv_revision a) d1 = Some a.
Proof.
  intros Hd Ha Hcall.
  assert (revision_at (rv_tenant a) (rv_id a) (rv_revision a) d = Some a) as Hrow.
  { apply revision_at_Some; [done..|]. by apply at_revision_true. }
  destruct (agent_activate_cases (ref_of a) e b now d Hd (mk_is_Some _ _ Hrow))
    as [(d2 & H2 & Hact & _)|(m & H2 & _)]; rewrite H2 in Hcall; [|done].
  injection Hcall as <- _. split; [by eapply activated_framed|].
  destruct Hact as [Hstep Hrev Hreads]. split; [apply Hstep|]. split.
  - rewrite Hreads. simpl. by rewrite !bool_decide_eq_true_2.
  - unfold revision_at in *. by rewrite Hrev.
Qed.

Lemma defaults_all (p : string * agent_write → bool) kw :
  kw ∈ default_agent_spec_writes → forallb p default_agent_spec_writes = true → p kw = true.
Proof. intros Hkw%list_elem_of_In. rewrite forallb_forall. auto. Qed.

Lemma default_id_stripped kw : kw ∈ default_agent_spec_writes → strip kw.1 = kw.1.
Proof.
  intros Hkw%(defaults_all (λ kw, strip kw.1 == kw.1)); [|by vm_compute].
  by apply bool_decide_eq_true in Hkw.
Qed.

Lemma owner_not_legacy kw : kw ∈ default_agent_spec_writes → kw.1 = default_owner_spec_id →
  kw.2 ≠ legacy_default kw.2.
Proof.
  intros Hkw%(defaults_all (λ kw, negb (kw.1 == default_owner_spec_id)
                                  || negb (aw_max_model_calls kw.2 =? 100))); [|reflexivity].
  intros Hid Heq%(f_equal aw_max_model_calls). change (aw_max_model_calls kw.2 = 100) in Heq.
  by rewrite (bool_decide_eq_true_2 _ Hid), Heq in Hkw.
Qed.

Lemma default_stays kw a d :
  kw ∈ default_agent_spec_writes → rv_id a = kw.1 → rv_content a = kw.2 → stays kw.2 a d.
Proof.
  intros Hkw Hid Hc. destruct (decide (kw.1 = default_owner_spec_id)) as [Ho|Ho].
  - right; left. rewrite Hc. by apply owner_not_legacy.
  - left. congruence.
Qed.

(** Creating a default's revision. *)
Lemma create_default t kw e b now d d1 a :
  kw ∈ default_agent_spec_writes → strip t = t → specs_ok d →
  agent_create t kw.1 kw.2 e b now d = (d1, Ok a) →
  specs_ok d1 ∧ framed t kw.1 d d1 ∧ a ∈ sp_revisions d1 ∧ rv_tenant a = t ∧ rv_id a = kw.1 ∧
  (rv_content a = kw.2 ∨ (d1 = d ∧ latest_row t kw.1 d = Some a ∧ rv_digest a = digest kw.2)).
Proof.
  intros Hkw Ht Hd Hc. pose proof (default_id_stripped kw Hkw) as Hi.
  assert (validate kw.2 = Ok kw.2) as Hv by exact (defaults_valid kw Hkw).
  destruct (create_Ok t kw.1 kw.2 e b now d d1 a Hv Hd Hc) as [(-> & Hl & Hdig)|(Hadd & Hstep & _ & Ha & _)].
  - pose proof (latest_row_spec t kw.1 d Hd) as Hx. rewrite Hl in Hx.
    destruct Hx as (Hin & [H1 H2]%of_spec_true & _).
    split_and!; [done|by apply framed_refl|done..|]. by right.
  - assert (rv_tenant a = t ∧ rv_id a = kw.1) as [H1 H2] by (split; by rewrite Ha).
    split_and!; [apply Hstep| | |done|done|left; by rewrite Ha].
    + rewrite Hadd in Hstep |- *. apply added_framed; [done..|]. by rewrite Ha.
    + rewrite Hadd. simpl. apply elem_of_app. right. by apply list_elem_of_singleton.
Qed.

(** A tenant is plain when each of its default agents is active or was never saved. *)
Definition plain (t : string) d : Prop := ∀ kw, kw ∈ default_agent_spec_writes →
  active_revision t kw.1 d = None → latest_row t kw.1 d = None.

Lemma upgrade_settles t kw a b now now' d d1 a' :
  kw ∈ default_agent_spec_writes → strip t = t → specs_ok d →
  active_revision t kw.1 d = Some (rv_revision a) → revision_at t kw.1 (rv_revision a) d = Some a →
  upgrade_legacy_owner_default a kw.2 b now now' d = (d1, Ok a') →
  settled t kw a' d1 ∧ framed t kw.1 d d1.
Proof.
  intros Hkw Ht Hd Hact Hrow Hup. apply select_one_Some in Hrow as Hin.
  destruct Hin as [Ha [[Hat Hai] _]%at_revision_true].
  assert (stays kw.2 a d → (d, Ok a) = (d1, Ok a') → settled t kw a' d1 ∧ framed t kw.1 d d1) as Hkeep.
  { intros Hs [= <- <-]. split; [by split|by apply framed_refl]. }
  assert (∀ l d2, specs_ok d2 → framed t kw.1 d d2 → l ∈ sp_revisions d2 → rv_tenant l = t →
    rv_id l = kw.1 → rv_content l = kw.2 →
    (agent_activate (ref_of l) (Some (rv_revision a)) b now' ≫= λ _, mret l) d2 = (d1, Ok a') →
    settled t kw a' d1 ∧ framed t kw.1 d d1) as Hmove.
  { intros l d2 Hd2 Hf Hl Hlt Hli Hc. rewrite run_bind.
    destruct (agent_activate _ _ _ _ d2) as [d3 [x|]] eqn:Hcall; [|done]. intros [= <- <-].
    apply activate_Ok in Hcall as (Hf3 & Hd3 & Hact3 & Hrow3); [|done..].
    rewrite Hlt, Hli in *. split; [|by eapply framed_trans].
    split; [done..|]. by apply default_stays. }
  revert Hup. unfold upgrade_legacy_owner_default.
  case_bool_decide as H1; simpl; [|apply Hkeep; by left].
  rewrite run_outcome_bind, (stored_content d a Hd Ha).
  case_bool_decide as H2; simpl; [|apply Hkeep; by right; left].
  unfold agent_get_latest. rewrite run_bind, get_latest_run by done.
  pose proof (latest_row_spec (rv_tenant a) (rv_id a) d Hd) as Hl.
  pose proof (revision_range (rv_tenant a) (rv_id a) d a Hd Ha (proj2 (of_spec_true _ _ a) (conj eq_refl eq_refl)))
    as Hrange.
  destruct (latest_row (rv_tenant a) (rv_id a) d) as [l|] eqn:Hlat; [|lia].
  destruct Hl as (Hlin & [Hlt Hli]%of_spec_true & Hln). rewrite Hat, Hai in *.
  destruct (Z.eqb_spec (rv_revision l) (rv_revision a)) as [Heq|Hne].
  - rewrite run_bind, run_bind.
    destruct (agent_create _ _ _ _ _ _ d) as [d2 [r|]] eqn:Hc; [|done]. rewrite run_ret.
    apply create_default in Hc as (Hd2 & Hf2 & Hr2 & Hrt & Hri & Hrc); [|done..].
    destruct Hrc as [Hrc|(-> & Hlr & Hdig)]; [by apply Hmove|].
    assert (r = a) as ->.
    { rewrite Hlr in Hlat. injection Hlat as ->.
      apply (revision_unique t kw.1 (rv_revision a) d); [done..| |];
        apply at_revision_true; by rewrite ?Heq. }
    rewrite run_bind. replace (Some (rv_revision a)) with (Some (ar_revision (ref_of a))) by done.
    rewrite activate_same; [|done| |]; unfold ref_of; simpl; rewrite ?Hat, ?Hai; [|by rewrite Hrow|done].
    apply Hkeep. right; right. exists a. rewrite Hat, Hai. split; [done|]. by right.
  - rewrite run_bind, run_outcome_bind, (stored_content d l Hd Hlin), run_ret.
    case_bool_decide as Hc; [by apply Hmove; [|apply framed_refl|..]|].
    apply Hkeep. right; right. exists l. rewrite Hat, Hai. split; [done|]. by left.
Qed.

Lemma seed_default_settles t kw b now now' d d1 a :
  kw ∈ default_agent_spec_writes → strip t = t → specs_ok d →
  (active_revision t kw.1 d = None → latest_row t kw.1 d = None) →
  seed_default t b now now' kw d = (d1, Ok a) → settled t kw a d1 ∧ framed t kw.1 d d1.
Proof.
  intros Hkw Ht Hd Hplain. unfold seed_default. rewrite run_bind, agent_get_active_run by done.
  destruct (active_revision t kw.1 d) as [n|] eqn:Hact; simpl.
  - apply active_revision_Some in Hact as Hx. destruct Hx as (x & Hx & Hxt & Hxi & Hxn).
    destruct (sk_target _ Hd x Hx) as (a0 & Ha0 & Hat). rewrite Hxt, Hxi, Hxn in Hat.
    pose proof (revision_at_Some _ _ _ _ _ Hd Ha0 Hat) as Hrow. rewrite Hrow.
    apply at_revision_true in Hat as [_ Hn]. subst n. apply upgrade_settles; by rewrite ?Hn in *.
  - specialize (Hplain eq_refl). unfold agent_get_latest.
    rewrite run_bind, get_latest_run, Hplain by done. rewrite run_bind.
    destruct (agent_create _ _ _ _ _ _ d) as [d2 [r|]] eqn:Hc; [|done].
    apply create_default in Hc as (Hd2 & Hf2 & Hr2 & Hrt & Hri & Hrc); [|done..].
    destruct Hrc as [Hrc|(_ & Hlr & _)]; [|congruence].
    rewrite run_bind. destruct (agent_activate _ _ _ _ d2) as [d3 [x|]] eqn:Hcall; [|done].
    intros [= <- <-]. apply activate_Ok in Hcall as (Hf3 & Hd3 & Hact3 & Hrow3); [|done..].
    rewrite Hrt, Hri in *. split; [|by eapply framed_trans]. split; [done..|]. by apply default_stays.
Qed.

Lemma settled_framed t kw a i d d1 :
  settled t kw a d → framed t i d d1 → i ≠ kw.1 → settled t kw a d1.
Proof.
  intros [Hd Hact Hrow Hs] [Hstep Ha Hl] Hi. split.
  - apply Hstep.
  - by rewrite Ha.
  - by eapply revision_at_step.
  - destruct Hs as [Hs|[Hs|(l & Hlr & Hs)]]; [by left|by right; left|]. right; right.
    apply select_one_Some in Hrow as [_ [[Hat Hai] _]%at_revision_true].
    exists l. split; [|done]. rewrite Hat, Hai in *. by rewrite Hl.
Qed.

Lemma seeding_settles t b now now' l d d1 as_ :
  (∀ kw, kw ∈ l → kw ∈ default_agent_spec_writes) → NoDup l.*1 → strip t = t → specs_ok d →
  (∀ kw, kw ∈ l → active_revision t kw.1 d = None → latest_row t kw.1 d = None) →
  collect l (seed_default t b now now') d = (d1, Ok as_) →
  Forall2 (λ kw a, settled t kw a d1) l as_ ∧ specs_ok d1 ∧
  ∀ kw a, settled t kw a d → kw.1 ∉ l.*1 → settled t kw a d1.
Proof.
  revert d as_. induction l as [|kw l IH]; intros d as_ Hl Hnd Ht Hd Hp.
  { intros [= <- <-]. split_and!; [constructor|done|done]. }
  simpl in Hnd. apply NoDup_cons in Hnd as [Hni Hnd]. simpl. rewrite run_bind.
  destruct (seed_default t b now now' kw d) as [d2 [a|]] eqn:Hseed; [|done].
  apply seed_default_settles in Hseed as [Hs Hf];
    [|by apply Hl, list_elem_of_here|done|done|by apply Hp, list_elem_of_here].
  rewrite run_bind. destruct (collect l _ d2) as [d3 [as3|]] eqn:Hc; [|done].
  intros [= <- <-]. apply IH in Hc as (H2 & Hd3 & Hkeep); [| |done|done|apply Hs|].
  - split_and!; [|done|].
    + constructor; [|done]. by apply Hkeep.
    + intros kw' a' Hs' Hni'. simpl in Hni'. apply not_elem_of_cons in Hni' as [Hne Hni'].
      apply Hkeep; [|done]. by eapply settled_framed.
  - intros kw' Hkw'. by apply Hl, list_elem_of_further.
  - intros kw' Hkw'. assert (kw'.1 ≠ kw.1) as Hne.
    { intros Heq. apply Hni. rewrite <- Heq. by apply list_elem_of_fmap_2. }
    destruct Hf as [_ Hfa Hfl]. rewrite Hfa, Hfl by done. by apply Hp, list_elem_of_further.
Qed.

Lemma settled_seed t kw a b now now' d :
  settled t kw a d → seed_default t b now now' kw d = (d, Ok a).
Proof.
  intros [Hd Hact Hrow Hs]. unfold seed_default. rewrite run_bind, agent_get_active_run by done.
  rewrite Hact. simpl. rewrite Hrow. by eapply upgrade_stays.
Qed.

Lemma settled_seeds t b now now' l as_ d :
  Forall2 (λ kw a, settled t kw a d) l as_ → collect l (seed_default t b now now') d = (d, Ok as_).
Proof.
  induction 1 as [|kw a l as_ Hs Hall IH]; [done|]. simpl.
  rewrite run_bind, (settled_seed _ _ _ _ _ _ _ Hs). by rewrite run_bind, IH.
Qed.

Lemma default_slug kw : kw ∈ default_agent_spec_writes → slug kw.1 = Some kw.1.
Proof.
  intros Hkw%(defaults_all (λ kw, slug kw.1 == Some kw.1)); [|by vm_compute].
  by apply bool_decide_eq_true in Hkw.
Qed.

(** A default that has no revision yet is always seeded with its content. *)
Lemma seed_fresh t kw b now now' d :
  kw ∈ default_agent_spec_writes → protocol_id t = Some t → protocol_id b = Some b → specs_ok d →
  active_revision t kw.1 d = None → latest_row t kw.1 d = None →
  ∃ d1 a, seed_default t b now now' kw d = (d1, Ok a) ∧ rv_content a = kw.2 ∧ rv_revision a = 1.
Proof.
  intros Hkw Ht Hb Hd Hact Hlat. unfold seed_default.
  rewrite run_bind, agent_get_active_run, Hact by done. simpl. unfold agent_get_latest.
  rewrite run_bind, get_latest_run, Hlat by done. rewrite run_bind.
  pose (r := RevisionRow t kw.1 1 kw.2 (digest kw.2) now b : agent_spec).
  assert (agent_create t kw.1 kw.2 None b now d = (add_revision r d, Ok r)) as Hc.
  { exact (create_first t kw.1 kw.2 b now d (defaults_valid kw Hkw : validate kw.2 = Ok kw.2)
      Hd Hlat Ht (default_slug kw Hkw) Hb). }
  rewrite Hc. assert (strip t = t) as Hst.
  { revert Ht. unfold protocol_id, bounded_field. case_match; [|done]. by intros [= ->]. }
  apply create_default in Hc as (Hd2 & Hf2 & Hr2 & _ & _ & _); [|done..].
  assert (revision_at t kw.1 1 (add_revision r d) = Some r) as Hrow.
  { apply revision_at_Some; [done..|]. by apply at_revision_true. }
  assert (active_revision t kw.1 (add_revision r d) = None) as Hact2 by exact Hact.
  rewrite run_bind.
  destruct (agent_activate_cases (ref_of r) None b now' (add_revision r d) Hd2 (mk_is_Some _ _ Hrow))
    as [(d2 & -> & _)|(m & _ & Hne & _)]; [by exists d2, r|by destruct Hne].
Qed.

Lemma fresh_seeds t b now now' l d :
  (∀ kw, kw ∈ l → kw ∈ default_agent_spec_writes) → NoDup l.*1 →
  protocol_id t = Some t → protocol_id b = Some b → specs_ok d →
  (∀ kw, kw ∈ l → active_revision t kw.1 d = None ∧ latest_row t kw.1 d = None) →
  ∃ d1 as_, collect l (seed_default t b now now') d = (d1, Ok as_) ∧
    rv_content <$> as_ = l.*2 ∧ ∀ a, a ∈ as_ → rv_revision a = 1.
Proof.
  intros Hl Hnd Ht Hb. revert d.
  assert (strip t = t) as Hst.
  { revert Ht. unfold protocol_id, bounded_field. case_match; [|done]. by intros [= ->]. }
  induction l as [|kw l IH]; intros d Hd Hfresh.
  { exists d, []. split_and!; [done..|]. intros a Ha. by apply not_elem_of_nil in Ha. }
  simpl in Hnd. apply NoDup_cons in Hnd as [Hni Hnd].
  destruct (Hfresh kw (list_elem_of_here _ _)) as [Hact Hlat].
  destruct (seed_fresh t kw b now now' d) as (d2 & a & Hseed & Hc & Hn);
    [by apply Hl, list_elem_of_here|done..|].
  simpl. rewrite run_bind, Hseed.
  apply seed_default_settles in Hseed as [Hs [_ Hfa Hfl]];
    [|by apply Hl, list_elem_of_here|done..].
  destruct (IH (λ kw' H, Hl kw' (list_elem_of_further _ _ _ H)) Hnd d2) as (d3 & as3 & Hrest & Hc3 & Hn3).
  - apply Hs.
  - intros kw' Hkw'. assert (kw'.1 ≠ kw.1) as Hne.
    { intros Heq. apply Hni. rewrite <- Heq. by apply list_elem_of_fmap_2. }
    rewrite Hfa, Hfl by done. by apply Hfresh, list_elem_of_further.
  - rewrite run_bind, Hrest. exists d3, (a :: as3). split_and!; [done| |].
    + by rewrite !fmap_cons, Hc, Hc3.
    + intros a' [-> |Ha']%elem_of_cons; [done|by apply Hn3].
Qed.
End Seed.

Section SeedProperties.
Context {E : SpecEnv} {Laws : SpecEnvLaws E}.
Variable check_agent : option (agent_spec → outcome unit).
Variable check_trigger : option (trigger_spec → outcome unit).

Lemma default_ids_distinct : NoDup default_agent_spec_writes.*1.
Proof. apply (bool_decide_unpack _). by vm_compute. Qed.

(** Seeding the default agents is idempotent: once it has succeeded, for a tenant
    named without surrounding spaces each of whose defaults is active or was never
    saved, the four defaults are active,
    and seeding again, by whomever and whenever, returns the same revisions and
    changes nothing. *)
Theorem seeding_idempotent ops t b now now' d1 l :
  let d := st_agents (run_specs check_agent check_trigger ops no_spec_state) in
  strip t = t → plain t d → seed_defaults t b now now' d = (d1, Ok l) →
  rv_id <$> l = default_agent_spec_writes.*1 ∧
  (∀ a, a ∈ l → agent_get_active t (rv_id a) d1 = (d1, Ok (Some a))) ∧
  ∀ b' n n', seed_defaults t b' n n' d1 = (d1, Ok l).
Proof.
  cbv zeta. pose proof (so_agents _ (specs_reachable check_agent check_trigger ops)) as Hd.
  intros Ht Hp Hc. apply seeding_settles in Hc as (Hall & Hd1 & _);
    [|done|apply default_ids_distinct|done|done|exact Hp].
  assert (∀ kw a, settled t kw a d1 → rv_id a = kw.1 ∧
            agent_get_active t (rv_id a) d1 = (d1, Ok (Some a))) as Hone.
  { intros kw a [_ Hact Hrow _]. apply select_one_Some in Hrow as Hat.
    destruct Hat as [_ [[_ Hi] _]%at_revision_true]. split; [done|].
    rewrite agent_get_active_run, Hi, Hact by done. simpl. by rewrite Hrow. }
  split_and!.
  - clear Hp. revert Hall. generalize default_agent_spec_writes. intros kws Hall.
    induction Hall as [|kw a kws l Hs Hall IH]; [done|]. rewrite !fmap_cons, IH. f_equal.
    by apply Hone.
  - intros a [i Hi]%list_elem_of_lookup_1.
    destruct (Forall2_lookup_r _ _ _ _ _ Hall Hi) as (kw & _ & Hs). by eapply Hone.
  - intros b' n n'. by apply settled_seeds.
Qed.

(** Seeding a tenant that has no agents always succeeds and gives it the
    four defaults, each as its first revision with exactly the default
    content. *)
Theorem fresh_tenant_seeded ops t b now now' :
  let d := st_agents (run_specs check_agent check_trigger ops no_spec_state) in
  protocol_id t = Some t → protocol_id b = Some b →
  (∀ kw, kw ∈ default_agent_spec_writes →
     active_revision t kw.1 d = None ∧ latest_row t kw.1 d = None) →
  ∃ d1 l, seed_defaults t b now now' d = (d1, Ok l) ∧
    rv_content <$> l = default_agent_spec_writes.*2 ∧ ∀ a, a ∈ l → rv_revision a = 1.
Proof.
  cbv zeta. intros Ht Hb Hfresh. apply fresh_seeds; try done; [apply default_ids_distinct|].
  apply specs_reachable.
Qed.
End SeedProperties.

(** ** Witnesses *)

#[local] Existing Instance sample_env.
#[local] Existing Instance sample_env_laws.

Lemma seeding_idempotent_witness :
  ∃ d1 l, seed_defaults "t" "owner" 1 2 (st_agents no_spec_state) = (d1, Ok l) ∧
    seed_defaults "t" "host" 3 4 d1 = (d1, Ok l).
Proof.
  destruct (seed_defaults "t" "owner" 1 2 (st_agents no_spec_state)) as [d1 [l|x]] eqn:E;
    [|by vm_compute in E].
  exists d1, l. split; [reflexivity|].
  destruct (seeding_idempotent None None [] "t" "owner" 1 2 d1 l) as (_ & _ & H);
    [reflexivity|by intros kw Hkw|exact E|]. apply H.
Defined.

Lemma fresh_tenant_seeded_witness :
  ∃ d1 l, seed_defaults "t" "owner" 1 2 (st_agents no_spec_state) = (d1, Ok l) ∧ length l = 4%nat.
Proof.
  destruct (fresh_tenant_seeded None None [] "t" "owner" 1 2) as (d1 & l & H & Hc & _);
    [reflexivity|reflexivity|by intros kw Hkw|].
  exists d1, l. split; [exact H|]. apply (f_equal length) in Hc. by rewrite length_fmap in Hc.
Defined.
