(* ===== verification/Executions.v ===== *)
(** * Trigger executions and the delivery outbox
    ([TriggerExecutionStore] of [specs/dispatcher.py], [deep_agent/contracts.py])

    The leases that fence duplicate scheduler workers and event retries, and the
    outbox through which every result of a run reaches its owner. *)

From S2P Require Import Prelude Sqlite PyText Json Protocol Contracts Revisions SpecModels Specs.
#[local] Open Scope string_scope.
#[local] Open Scope list_scope.
#[local] Open Scope Z_scope.

(** ** Claimed deliveries *)

Inductive mode := ModeOrigin | ModeOwner.
#[global] Instance mode_eq_dec : EqDecision mode.
Proof. solve_decision. Defined.

(** ** Tables *)

Inductive execution_status := ExRunning | ExCompleted | ExInterrupted | ExFailed.
#[global] Instance execution_status_eq_dec : EqDecision execution_status.
Proof. solve_decision. Defined.
Inductive delivery_status := DlPending | DlDelivering | DlDelivered.
#[global] Instance delivery_status_eq_dec : EqDecision delivery_status.
Proof. solve_decision. Defined.

(** What identifies one firing: tenant, trigger, revision, fire key. *)
Record firing := Firing {
  fi_tenant : string;
  fi_trigger : string;
  fi_revision : Z;
  fi_key : string;
}.
#[global] Instance firing_eq_dec : EqDecision firing.
Proof. solve_decision. Defined.

Record execution_row := ExecutionRow {
  ex_firing : firing;
  ex_status : execution_status;
  ex_run : option string;
  ex_attempts : Z;
  ex_lease : option string;
  ex_expires : option Z;
  ex_updated_at : Z;
}.
#[global] Instance execution_row_fields : Fields execution_row := λ r,
  ExecutionRow (ex_firing r) (ex_status r) (ex_run r) (ex_attempts r) (ex_lease r) (ex_expires r)
    (ex_updated_at r).

Section Store.

Record delivery_row := DeliveryRow {
  dl_id : Z;
  dl_firing : firing;
  dl_mode : mode;
  dl_snapshot : snapshot;
  dl_status : delivery_status;
  dl_attempts : Z;
  dl_lease : option string;
  dl_expires : option Z;
  dl_created_at : Z;
  dl_updated_at : Z;
}.
#[global] Instance delivery_row_fields : Fields delivery_row := λ r,
  DeliveryRow (dl_id r) (dl_firing r) (dl_mode r) (dl_snapshot r) (dl_status r) (dl_attempts r)
    (dl_lease r) (dl_expires r) (dl_created_at r) (dl_updated_at r).

(** [xd_next] is what [AUTOINCREMENT] assigns next. *)
Record exec_db := ExecDb {
  xd_executions : list execution_row;
  xd_outbox : list delivery_row;
  xd_next : Z;
}.
#[global] Instance exec_db_fields : Fields exec_db := λ d,
  ExecDb (xd_executions d) (xd_outbox d) (xd_next d).
Definition no_executions : exec_db := ExecDb [] [] 1.

(** [_ClaimedDelivery] *)
Record claimed_delivery := ClaimedDelivery {
  cl_id : Z;
  cl_firing : firing;
  cl_mode : mode;
  cl_snapshot : snapshot;
  cl_lease : string;
}.

(** ** Methods *)

Definition firing_of (t : trigger_spec) (key : string) : firing :=
  Firing (rv_tenant t) (rv_id t) (rv_revision t) key.

Definition of_firing (f : firing) (r : execution_row) : bool := ex_firing r == f.
Definition execution_clash (r r' : execution_row) : bool := of_firing (ex_firing r) r'.
Definition delivery_clash (r r' : delivery_row) : bool :=
  (dl_id r' =? dl_id r) || (dl_firing r' == dl_firing r).
Definition expired (now : Z) (lease : option Z) : bool :=
  match lease with Some e => e <=? now | None => true end.

Definition claim (t : trigger_spec) (key : string) (lease : Z) (fresh : string) (now : Z) :
    M exec_db (option string) :=
  unless (0 <? lease) (ValueError "trigger execution lease must be positive");;
  let f := firing_of t key in
  transaction (
    known ← gets (λ d, exists_row (of_firing f) (xd_executions d));
    modify (λ d, d <| xd_executions := insert_or_ignore execution_clash
      (ExecutionRow f ExRunning None 1 (Some fresh) (Some (now + lease)) now) (xd_executions d) |>);;
    if negb known then mret (Some fresh)
    else
      let stale r := of_firing f r && (ex_status r == ExRunning) && expired now (ex_expires r) in
      count ← gets (λ d, rowcount stale (xd_executions d));
      modify (λ d, d <| xd_executions := update stale
        (λ r, r <| ex_attempts := ex_attempts r + 1 |> <| ex_lease := Some fresh |>
                <| ex_expires := Some (now + lease) |> <| ex_updated_at := now |>) (xd_executions d) |>);;
      mret (if (count =? 1)%nat then Some fresh else None)).

(** [_serialize_snapshot] and [_deserialize_snapshot]: the stored snapshot has no
    inference plan, and its context is validated when it is read. *)
Definition stored_snapshot (s : snapshot) : snapshot :=
  AgentRunSnapshot (sn_run s) (sn_context s) (sn_status s) (sn_text s) (sn_error s) (sn_approvals s)
    (sn_created s) (sn_updated s) None.
Definition read_snapshot (s : snapshot) : outcome (snapshot) :=
  match validate_context (sn_context s) with
  | Some c => Ok (AgentRunSnapshot (sn_run s) c (sn_status s) (sn_text s) (sn_error s) (sn_approvals s)
                    (sn_created s) (sn_updated s) None)
  | None => Err (ValidationError "AgentRunContext")
  end.

Definition finish (t : trigger_spec) (key lease_token : string) (status : execution_status)
    (run : option string) (delivery : option (snapshot * mode)) (now : Z) : M exec_db bool :=
  let f := firing_of t key in
  let held r := of_firing f r && (ex_status r == ExRunning) && (ex_lease r == Some lease_token) in
  transaction (
    count ← gets (λ d, rowcount held (xd_executions d));
    modify (λ d, d <| xd_executions := update held
      (λ r, r <| ex_status := status |> <| ex_run := run |> <| ex_lease := None |>
              <| ex_expires := None |> <| ex_updated_at := now |>) (xd_executions d) |>);;
    match delivery with
    | Some (s, m) =>
        if (count =? 1)%nat then
          try_modify (λ d, t ← insert_row delivery_clash
              (DeliveryRow (xd_next d) f m (stored_snapshot s) DlPending 0 None None now now) (xd_outbox d);
            Some (d <| xd_outbox := t |> <| xd_next := xd_next d + 1 |>))
            (IntegrityError "UNIQUE constraint failed")
        else mret tt
    | None => mret tt
    end;;
    mret (count =? 1)%nat).

Definition claimable (now : Z) (r : delivery_row) : bool :=
  (dl_status r == DlPending) || (dl_status r == DlDelivering) && expired now (dl_expires r).
Definition id_ascending (r r' : delivery_row) : bool := dl_id r <=? dl_id r'.

Definition claim_delivery (lease now : Z) (row : delivery_row * string) : M exec_db (option claimed_delivery) :=
  let '(r, fresh) := row in
  let mine x := (dl_id x =? dl_id r) && claimable now x in
  count ← gets (λ d, rowcount mine (xd_outbox d));
  modify (λ d, d <| xd_outbox := update mine
    (λ x, x <| dl_status := DlDelivering |> <| dl_attempts := dl_attempts x + 1 |>
            <| dl_lease := Some fresh |> <| dl_expires := Some (now + lease) |>
            <| dl_updated_at := now |>) (xd_outbox d) |>);;
  if negb (count =? 1)%nat then mret None
  else
    s ← from_outcome (read_snapshot (dl_snapshot r));
    mret (Some (ClaimedDelivery (dl_id r) (dl_firing r) (dl_mode r) s fresh)).

(** [fresh n] is the token drawn for the [n]th row. *)
Definition claim_deliveries (lease limit : Z) (fresh : nat → string) (now : Z) :
    M exec_db (list claimed_delivery) :=
  unless (0 <? lease) (ValueError "trigger delivery lease must be positive");;
  unless (0 <? limit) (ValueError "trigger delivery claim limit must be positive");;
  transaction (
    rows ← gets (λ d, take (Z.to_nat limit) (order_by id_ascending (select (claimable now) (xd_outbox d))));
    claimed ← collect (zip rows (fresh <$> seq 0 (length rows))) (claim_delivery lease now);
    mret (omap id claimed)).

(** The earliest lease of a delivery under way, [None] when there is none. *)
Definition earliest (r r' : delivery_row) : bool :=
  match dl_expires r, dl_expires r' with
  | None, _ => true
  | Some _, None => false
  | Some e, Some e' => e <=? e'
  end.
Definition next_delivery_lease_delay (now : Z) : M exec_db (option Z) :=
  row ← gets (λ d, head (order_by earliest (select (λ r, dl_status r == DlDelivering) (xd_outbox d))));
  match row with
  | None => mret None
  | Some r => match dl_expires r with
              | None => mret (Some 0)
              | Some e => mret (Some (Z.max 0 (e - now)))
              end
  end.

Definition holds_delivery (c : claimed_delivery) (r : delivery_row) : bool :=
  (dl_id r =? cl_id c) && (dl_status r == DlDelivering) && (dl_lease r == Some (cl_lease c)).
Definition close_delivery (status : delivery_status) (c : claimed_delivery) (now : Z) : M exec_db bool :=
  count ← gets (λ d, rowcount (holds_delivery c) (xd_outbox d));
  modify (λ d, d <| xd_outbox := update (holds_delivery c)
    (λ r, r <| dl_status := status |> <| dl_lease := None |> <| dl_expires := None |>
            <| dl_updated_at := now |>) (xd_outbox d) |>);;
  mret (count =? 1)%nat.
Definition complete_delivery : claimed_delivery → Z → M exec_db bool := close_delivery DlDelivered.
Definition retry_delivery : claimed_delivery → Z → M exec_db bool := close_delivery DlPending.
End Store.

(** ** The invariant *)

Section Invariant.
Implicit Types (d : exec_db) (s : snapshot) (f : firing).

Definition execution_ok (r : execution_row) : Prop :=
  1 ≤ ex_attempts r ∧
  (ex_status r = ExRunning → is_Some (ex_lease r) ∧ is_Some (ex_expires r)) ∧
  (ex_status r ≠ ExRunning → ex_lease r = None ∧ ex_expires r = None).
Definition delivery_ok (r : delivery_row) : Prop :=
  read_snapshot (dl_snapshot r) = Ok (dl_snapshot r) ∧
  (dl_status r = DlDelivering → is_Some (dl_lease r) ∧ is_Some (dl_expires r)).

Record exec_ok d : Prop := {
  eo_executions : ∀ r, r ∈ xd_executions d → execution_ok r;
  eo_firings : unique ex_firing (xd_executions d);
  eo_deliveries : ∀ r, r ∈ xd_outbox d → delivery_ok r ∧ dl_id r < xd_next d ∧
    ∃ e, e ∈ xd_executions d ∧ ex_firing e = dl_firing r ∧ ex_status e ≠ ExRunning;
  eo_ids : unique dl_id (xd_outbox d);
  eo_results : unique dl_firing (xd_outbox d);
}.

(** What a delivery is of never changes; a delivered one is closed. *)
Definition same_result (r r' : delivery_row) : Prop :=
  dl_id r' = dl_id r ∧ dl_firing r' = dl_firing r ∧ dl_mode r' = dl_mode r ∧
  dl_snapshot r' = dl_snapshot r ∧ (dl_status r = DlDelivered → r' = r).

(** A settled execution keeps its row and gets no result later; results stay. *)
Record exec_advance d d' : Prop := {
  xa_settled : ∀ r, r ∈ xd_executions d → ex_status r ≠ ExRunning → r ∈ xd_executions d';
  xa_results : ∀ r, r ∈ xd_outbox d → ∃ r', r' ∈ xd_outbox d' ∧ same_result r r';
  xa_fresh : ∀ r e, r ∈ xd_outbox d' → e ∈ xd_executions d → ex_firing e = dl_firing r →
    ex_status e ≠ ExRunning → ∃ r0, r0 ∈ xd_outbox d ∧ same_result r0 r;
}.

Lemma same_result_refl r : same_result r r.
Proof. done. Qed.

Lemma same_result_trans r r' r'' : same_result r r' → same_result r' r'' → same_result r r''.
Proof.
  intros (H1 & H2 & H3 & H4 & H5) (K1 & K2 & K3 & K4 & K5). split_and!; try congruence.
  intros Hd. assert (r' = r) as -> by auto. auto.
Qed.

Lemma exec_advance_refl d : exec_advance d d.
Proof. split; eauto using same_result_refl. Qed.

Lemma exec_advance_trans d d' d'' : exec_advance d d' → exec_advance d' d'' → exec_advance d d''.
Proof.
  intros [H1 H2 H3] [K1 K2 K3]. split.
  - auto.
  - intros r (r' & Hr' & Hs)%H2. apply K2 in Hr' as (r'' & Hr'' & Hs'). eauto using same_result_trans.
  - intros r e Hr He Hf Hst. destruct (K3 r e Hr) as (r1 & Hr1 & Hs1); [by apply H1|done..|].
    destruct (H3 r1 e Hr1 He) as (r0 & Hr0 & Hs0); [|done|eauto using same_result_trans].
    destruct Hs1 as (_ & E & _). congruence.
Qed.

(** Changing only running executions. *)
Lemma executions_changed t d :
  exec_ok d → (∀ r, r ∈ t → execution_ok r) → unique ex_firing t →
  (∀ r, r ∈ xd_executions d → ex_status r ≠ ExRunning → r ∈ t) →
  exec_ok (d <| xd_executions := t |>) ∧ exec_advance d (d <| xd_executions := t |>).
Proof.
  intros [H1 H2 H3 H4 H5] Ht Hu Hk. split; split; simpl; eauto using same_result_refl.
  intros r Hr. destruct (H3 r Hr) as (Ho & Hid & e & He & Hf & Hst). eauto 10.
Qed.

(** Changing rows of the outbox in place. *)
Lemma outbox_changed (g : delivery_row → delivery_row) d :
  exec_ok d → (∀ r, r ∈ xd_outbox d → same_result r (g r) ∧ delivery_ok (g r)) →
  exec_ok (d <| xd_outbox := g <$> xd_outbox d |>) ∧ exec_advance d (d <| xd_outbox := g <$> xd_outbox d |>).
Proof.
  intros [H1 H2 H3 H4 H5] Hg.
  assert (dl_id <$> (g <$> xd_outbox d) = dl_id <$> xd_outbox d) as Hids.
  { rewrite <- list_fmap_compose. apply list_fmap_ext. intros i r Hr%list_elem_of_lookup_2. by apply Hg. }
  assert (dl_firing <$> (g <$> xd_outbox d) = dl_firing <$> xd_outbox d) as Hfs.
  { rewrite <- list_fmap_compose. apply list_fmap_ext. intros i r Hr%list_elem_of_lookup_2. by apply Hg. }
  split; split; simpl; auto.
  - intros r' (r & -> & Hr)%list_elem_of_fmap. destruct (Hg r Hr) as [(E1 & E2 & _) Ho].
    destruct (H3 r Hr) as (_ & Hid & e & He & Hf & Hst). rewrite E1, E2. eauto 10.
  - unfold unique. by rewrite Hids.
  - unfold unique. by rewrite Hfs.
  - intros r Hr. exists (g r). split; [by apply list_elem_of_fmap_2|by apply Hg].
  - intros r' e (r & -> & Hr)%list_elem_of_fmap _ _ _. exists r. split; [done|by apply Hg].
Qed.

Lemma no_executions_ok : exec_ok no_executions.
Proof. split; simpl; try set_solver; by apply NoDup_nil. Qed.
End Invariant.

(** ** What each call does *)

Section Calls.
Implicit Types (d : exec_db) (s : snapshot) (f : firing).

Definition execution_at f d : option execution_row := select_one (of_firing f) (xd_executions d).

Lemma execution_at_Some f d r :
  exec_ok d → execution_at f d = Some r ↔ r ∈ xd_executions d ∧ ex_firing r = f.
Proof.
  intros Hd. unfold execution_at. split.
  - by intros [Hr H%bool_decide_eq_true]%select_one_Some.
  - intros [Hr <-]. exact (select_one_unique ex_firing _ r (eo_firings _ Hd) Hr).
Qed.

Lemma execution_at_None f d : execution_at f d = None ↔ ∀ r, r ∈ xd_executions d → ex_firing r ≠ f.
Proof.
  unfold execution_at. rewrite select_one_None. unfold of_firing. by setoid_rewrite bool_decide_eq_false.
Qed.

(** A condition on one firing selects its row, when it holds there. *)
Lemma firing_rowcount f (p : execution_row → bool) d :
  exec_ok d → (rowcount (λ r, of_firing f r && p r) (xd_executions d) =? 1)%nat =
    match execution_at f d with Some r => p r | None => false end.
Proof.
  intros Hd. destruct (execution_at f d) as [r|] eqn:E.
  - apply execution_at_Some in E as [Hr Hf]; [|done]. destruct (p r) eqn:Hp.
    + rewrite (rowcount_one ex_firing _ _ r); [done|apply Hd|done| |].
      * unfold of_firing. by rewrite Hp, bool_decide_eq_true_2.
      * intros r' _ [H%bool_decide_eq_true _]%andb_true_iff. congruence.
    + rewrite (proj2 (rowcount_zero _ _)); [done|]. intros r' Hr'. apply not_true_is_false.
      intros [H%bool_decide_eq_true Hp']%andb_true_iff.
      assert (r' = r) as -> by (apply (unique_eq ex_firing (xd_executions d)); [apply Hd|done..|congruence]).
      congruence.
  - rewrite execution_at_None in E. rewrite (proj2 (rowcount_zero _ _)); [done|]. intros r' Hr'.
    unfold of_firing. by rewrite bool_decide_eq_false_2 by auto.
Qed.

(** Writing the row of one firing. *)
Definition write_execution f (g : execution_row → execution_row) d : exec_db :=
  d <| xd_executions := update (of_firing f) g (xd_executions d) |>.

Lemma update_firing f (p : execution_row → bool) g d :
  exec_ok d → update (λ r, of_firing f r && p r) g (xd_executions d) =
    match execution_at f d with
    | Some r => if p r then update (of_firing f) g (xd_executions d) else xd_executions d
    | None => xd_executions d
    end.
Proof.
  intros Hd. destruct (execution_at f d) as [r|] eqn:E.
  - apply execution_at_Some in E as [Hr Hf]; [|done].
    assert (∀ r', r' ∈ xd_executions d → of_firing f r' = true → r' = r) as Hone.
    { intros r' Hr' H%bool_decide_eq_true. apply (unique_eq ex_firing (xd_executions d)); [apply Hd|done..|congruence]. }
    destruct (p r) eqn:Hp.
    + apply map_ext_in. intros r' Hr'%list_elem_of_In. destruct (of_firing f r') eqn:E; [|done].
      by rewrite (Hone r' Hr' E), Hp.
    + apply update_none. intros r' Hr'. destruct (of_firing f r') eqn:E; [|done]. by rewrite (Hone r' Hr' E), Hp.
  - rewrite execution_at_None in E. apply update_none. intros r' Hr'.
    unfold of_firing. by rewrite bool_decide_eq_false_2 by auto.
Qed.

Lemma write_execution_ok f g d r :
  exec_ok d → execution_at f d = Some r → ex_status r = ExRunning → ex_firing (g r) = f → execution_ok (g r) →
  exec_ok (write_execution f g d) ∧ exec_advance d (write_execution f g d) ∧
  execution_at f (write_execution f g d) = Some (g r).
Proof.
  intros Hd Hat Hst Hf Hok. pose proof Hat as [Hr Hrf]%execution_at_Some; [|done].
  assert (∀ r', r' ∈ xd_executions d → of_firing f r' = true → r' = r) as Hone.
  { intros r' Hr' H%bool_decide_eq_true. apply (unique_eq ex_firing (xd_executions d)); [apply Hd|done..|congruence]. }
  destruct (executions_changed (update (of_firing f) g (xd_executions d)) d Hd) as [Hd' Ha].
  - intros r' (r0 & Hr0 & ->)%elem_of_update. destruct (of_firing f r0) eqn:E; [by rewrite (Hone r0 Hr0 E)|].
    by apply (eo_executions _ Hd).
  - unfold unique. rewrite fmap_update; [apply Hd|]. intros r' Hr' E. rewrite (Hone r' Hr' E). congruence.
  - intros r' Hr' Hst'. apply elem_of_update. exists r'. split; [done|].
    destruct (of_firing f r') eqn:E; [|done]. rewrite (Hone r' Hr' E) in Hst'. done.
  - split; [done|]. split; [done|]. apply execution_at_Some; [done|]. split; [|done].
    apply elem_of_update. exists r. split; [done|]. unfold of_firing. by rewrite bool_decide_eq_true_2.
Qed.

Definition leased (fresh : string) (lease now : Z) (r : execution_row) : execution_row :=
  r <| ex_attempts := ex_attempts r + 1 |> <| ex_lease := Some fresh |>
    <| ex_expires := Some (now + lease) |> <| ex_updated_at := now |>.
Definition first_lease f (fresh : string) (lease now : Z) : execution_row :=
  ExecutionRow f ExRunning None 1 (Some fresh) (Some (now + lease)) now.

Lemma claim_execution_run t key lease fresh now d :
  exec_ok d → 0 < lease →
  let f := firing_of t key in
  claim t key lease fresh now d =
    match execution_at f d with
    | None => (d <| xd_executions := xd_executions d ++ [first_lease f fresh lease now] |>, Ok (Some fresh))
    | Some r =>
        if (ex_status r == ExRunning) && expired now (ex_expires r)
        then (write_execution f (leased fresh lease now) d, Ok (Some fresh))
        else (d, Ok None)
    end.
Proof.
  intros Hd Hl. cbv zeta. unfold claim. rewrite run_unless_bind. rewrite (proj2 (Z.ltb_lt _ _) Hl).
  set (f := firing_of t key). rewrite run_transaction, run_gets_bind, run_modify_bind.
  destruct (execution_at f d) as [r|] eqn:E.
  - pose proof E as [Hr Hf]%execution_at_Some; [|done].
    assert (exists_row (of_firing f) (xd_executions d) = true) as ->.
    { apply exists_row_true. exists r. split; [done|]. by apply bool_decide_eq_true. }
    assert (insert_or_ignore execution_clash (ExecutionRow f ExRunning None 1 (Some fresh) (Some (now + lease)) now)
      (xd_executions d) = xd_executions d) as Hins.
    { destruct (insert_or_ignore_spec execution_clash
        (ExecutionRow f ExRunning None 1 (Some fresh) (Some (now + lease)) now) (xd_executions d)) as [[_ H]|[H _]]; [|done].
      specialize (H r Hr). unfold execution_clash, of_firing in H. simpl in H. by rewrite bool_decide_eq_true_2 in H. }
    rewrite Hins. replace (d <| xd_executions := xd_executions d |>) with d by by destruct d.
    cbn [negb]. rewrite run_gets_bind, run_modify_bind.
    set (stale := λ r0, of_firing f r0 && (ex_status r0 == ExRunning) && _).
    assert (∀ r0, stale r0 = of_firing f r0 && ((ex_status r0 == ExRunning) && expired now (ex_expires r0))) as Hs
      by (intros; symmetry; apply andb_assoc).
    rewrite (rowcount_ext stale _ _ (λ r0 _, Hs r0)).
    rewrite firing_rowcount, E by done.
    rewrite (update_ext stale _ _ _ _ (λ r0 _, conj (Hs r0) (λ _, eq_refl))).
    rewrite update_firing, E by done. destruct ((ex_status r == _) && _); [done|]. by destruct d.
  - assert (exists_row (of_firing f) (xd_executions d) = false) as ->.
    { apply exists_row_false. rewrite execution_at_None in E. intros r Hr. apply bool_decide_eq_false. auto. }
    cbn. unfold insert_or_ignore. rewrite insert_row_ok; [done|]. rewrite execution_at_None in E. intros r Hr.
    apply bool_decide_eq_false. by apply E.
Qed.

Definition settled (status : execution_status) (run : option string) (now : Z) (r : execution_row) : execution_row :=
  r <| ex_status := status |> <| ex_run := run |> <| ex_lease := None |> <| ex_expires := None |>
    <| ex_updated_at := now |>.
Definition result_row f (s : snapshot) (m : mode) (now : Z) d : delivery_row :=
  DeliveryRow (xd_next d) f m (stored_snapshot s) DlPending 0 None None now now.
Definition with_result f (delivery : option (snapshot * mode)) (now : Z) d : exec_db :=
  match delivery with
  | Some (s, m) => d <| xd_outbox := xd_outbox d ++ [result_row f s m now d] |> <| xd_next := xd_next d + 1 |>
  | None => d
  end.
Definition held f (lease_token : string) d : bool :=
  match execution_at f d with
  | Some r => (ex_status r == ExRunning) && (ex_lease r == Some lease_token)
  | None => false
  end.

Lemma held_row f token d :
  held f token d = true → ∃ r, execution_at f d = Some r ∧ ex_status r = ExRunning ∧ ex_lease r = Some token.
Proof.
  unfold held. destruct (execution_at f d) as [r|]; [|done].
  intros [H1%bool_decide_eq_true H2%bool_decide_eq_true]%andb_true_iff. eauto.
Qed.

Lemma running_no_result f d r x :
  exec_ok d → execution_at f d = Some r → ex_status r = ExRunning → x ∈ xd_outbox d → dl_firing x ≠ f.
Proof.
  intros Hd [Hr Hf]%execution_at_Some Hst Hx; [|done].
  destruct (eo_deliveries _ Hd x Hx) as (_ & _ & e & He & Hfe & Hse). intros Hxf.
  assert (e = r) as -> by (apply (unique_eq ex_firing (xd_executions d)); [apply Hd|done..|congruence]). done.
Qed.

Lemma finish_execution_run t key token status run delivery now d :
  exec_ok d →
  let f := firing_of t key in
  finish t key token status run delivery now d =
    if held f token d
    then (with_result f delivery now (write_execution f (settled status run now) d), Ok true)
    else (d, Ok false).
Proof.
  intros Hd. cbv zeta. unfold finish. set (f := firing_of t key).
  set (mine := λ r, of_firing f r && _ && _).
  assert (∀ r, mine r = of_firing f r && ((ex_status r == ExRunning) && (ex_lease r == Some token))) as Hm
    by (intros; symmetry; apply andb_assoc).
  rewrite run_transaction, run_gets_bind, run_modify_bind.
  rewrite (rowcount_ext mine _ _ (λ r _, Hm r)), firing_rowcount by done. fold (held f token d).
  rewrite (update_ext mine _ _ _ _ (λ r _, conj (Hm r) (λ _, eq_refl))), update_firing by done.
  destruct (held f token d) eqn:Hh.
  - apply held_row in Hh as (r & Hat & Hst & Hl).
    rewrite Hat, Hst, Hl, !bool_decide_eq_true_2 by done. cbn [andb].
    fold (settled status run now). fold (write_execution f (settled status run now) d).
    destruct delivery as [[s m]|]; [|done]. rewrite run_try_modify_bind.
    rewrite insert_row_ok; [done|]. intros x Hx.
    change (xd_outbox (write_execution _ _ d)) with (xd_outbox d) in Hx.
    pose proof (running_no_result _ _ _ _ Hd Hat Hst Hx).
    destruct (eo_deliveries _ Hd x Hx) as (_ & Hid & _).
    unfold delivery_clash. simpl. rewrite bool_decide_eq_false_2 by done. rewrite orb_false_r.
    apply Z.eqb_neq. lia.
  - assert (∀ A (a : A), (match execution_at f d with Some r => if (ex_status r == ExRunning) && (ex_lease r == Some token)
        then update (of_firing f) (settled status run now) (xd_executions d) else xd_executions d
        | None => xd_executions d end) = xd_executions d) as Hno.
    { unfold held in Hh. intros. destruct (execution_at f d); [|done]. by rewrite Hh. }
    fold (settled status run now). rewrite (Hno unit tt).
    replace (d <| xd_executions := xd_executions d |>) with d by by destruct d.
    by destruct delivery as [[s m]|].
Qed.

(** A snapshot object has a validated context. *)
Definition snapshot_valid (s : snapshot) : Prop := validate_context (sn_context s) = Some (sn_context s).
Definition delivery_valid (delivery : option (snapshot * mode)) : Prop :=
  match delivery with Some (s, _) => snapshot_valid s | None => True end.

Lemma read_stored s : snapshot_valid s → read_snapshot (stored_snapshot s) = Ok (stored_snapshot s).
Proof. unfold read_snapshot, snapshot_valid. simpl. by intros ->. Qed.

Lemma with_result_ok f delivery now d e :
  exec_ok d → delivery_valid delivery → e ∈ xd_executions d → ex_firing e = f → ex_status e ≠ ExRunning →
  (∀ x, x ∈ xd_outbox d → dl_firing x ≠ f) → exec_ok (with_result f delivery now d).
Proof.
  intros Hd Hv He Hf Hst Hno. destruct delivery as [[s m]|]; [|done]. destruct Hd as [H1 H2 H3 H4 H5].
  split; simpl; [done..| | |].
  - intros r [Hr| ->%list_elem_of_singleton]%elem_of_app.
    + destruct (H3 r Hr) as (Ho & Hid & Hex). split; [done|]. split; [lia|done].
    + split; [split; [by apply read_stored|done]|]. simpl. split; [lia|]. by exists e.
  - apply unique_app; [done|]. intros r Hr. simpl. destruct (H3 r Hr) as (_ & Hid & _). lia.
  - apply unique_app; [done|]. intros r Hr. simpl. intros E. by apply (Hno r).
Qed.

Lemma finished_ok f token status run delivery now d :
  exec_ok d → held f token d = true → status ≠ ExRunning → delivery_valid delivery →
  let d' := with_result f delivery now (write_execution f (settled status run now) d) in
  exec_ok d' ∧ exec_advance d d' ∧ ∃ e, e ∈ xd_executions d' ∧ ex_firing e = f ∧ ex_status e ≠ ExRunning ∧
    match delivery with
    | Some (s, m) => result_row f s m now d ∈ xd_outbox d'
    | None => ∀ x, x ∈ xd_outbox d' → dl_firing x ≠ f
    end.
Proof.
  intros Hd Hh Hst Hv. cbv zeta. pose proof Hh as (r & Hat & Hrun & Hl)%held_row.
  pose proof Hat as [Hr Hf]%execution_at_Some; [|done].
  pose proof (eo_executions _ Hd r Hr) as [Hn _].
  destruct (write_execution_ok f (settled status run now) d r) as (Hd' & Ha & Hat'); [done..| |].
  { split; [done|]. by split. }
  set (d1 := write_execution _ _ d) in *. pose proof Hat' as [Hr' Hf']%execution_at_Some; [|done].
  assert (∀ x, x ∈ xd_outbox d1 → dl_firing x ≠ f) as Hno
    by (intros x; by apply (running_no_result _ d r)).
  assert (xd_executions (with_result f delivery now d1) = xd_executions d1) as Hex
    by by destruct delivery as [[s m]|].
  split; [by eapply with_result_ok|]. split.
  - split.
    + rewrite Hex. apply Ha.
    + intros x Hx. exists x. split; [|done]. destruct delivery as [[s m]|]; [|done].
      apply elem_of_app. by left.
    + intros x e Hx He Hfe Hse. destruct delivery as [[s m]|]; [|by exists x].
      apply elem_of_app in Hx as [Hx| ->%list_elem_of_singleton]; [by exists x|].
      exfalso. assert (e = r) as -> by
        (apply (unique_eq ex_firing (xd_executions d)); [apply Hd|done..|simpl in Hfe; congruence]). done.
  - exists (settled status run now r). rewrite Hex. split_and!; try done.
    destruct delivery as [[s m]|]; [|done]. apply elem_of_app. right. by apply list_elem_of_singleton.
Qed.

Lemma claim_ok t key lease fresh now d :
  exec_ok d → exec_ok (claim t key lease fresh now d).1 ∧ exec_advance d (claim t key lease fresh now d).1.
Proof.
  intros Hd. destruct (Z.ltb_spec 0 lease) as [Hl|Hl].
  2: { unfold claim. rewrite run_unless_bind, (proj2 (Z.ltb_ge _ _) Hl). split; [done|apply exec_advance_refl]. }
  rewrite claim_execution_run by done. destruct (execution_at _ d) as [r|] eqn:E.
  - destruct (_ && _) eqn:Hs; [|split; [done|apply exec_advance_refl]].
    apply andb_true_iff in Hs as [Hst%bool_decide_eq_true _].
    pose proof E as [Hr Hf]%execution_at_Some; [|done]. pose proof (eo_executions _ Hd r Hr) as [Hn _].
    destruct (write_execution_ok (firing_of t key) (leased fresh lease now) d r) as (? & ? & _); [done..| |done].
    split; [simpl; lia|]. split; [by intros _; split; eexists|done].
  - rewrite execution_at_None in E. apply executions_changed; [done|..].
    + intros r [Hr| ->%list_elem_of_singleton]%elem_of_app; [by apply Hd|].
      split; [done|]. split; [by intros _; split; eexists|done].
    + apply unique_app; [apply Hd|]. intros r Hr Heq. by apply (E r Hr).
    + intros r Hr _. apply elem_of_app. by left.
Qed.

Lemma finish_execution_ok t key token status run delivery now d :
  exec_ok d → status ≠ ExRunning → delivery_valid delivery →
  exec_ok (finish t key token status run delivery now d).1 ∧
  exec_advance d (finish t key token status run delivery now d).1.
Proof.
  intros Hd Hst Hv. rewrite finish_execution_run by done.
  destruct (held _ _ d) eqn:Hh; [|split; [done|apply exec_advance_refl]].
  destruct (finished_ok (firing_of t key) token status run delivery now d) as (? & ? & _); done.
Qed.

(** Leasing deliveries. *)
Definition lease_delivery (lease now : Z) (fresh : string) (x : delivery_row) : delivery_row :=
  x <| dl_status := DlDelivering |> <| dl_attempts := dl_attempts x + 1 |>
    <| dl_lease := Some fresh |> <| dl_expires := Some (now + lease) |> <| dl_updated_at := now |>.
Definition lease_of (lease now : Z) (l : list (delivery_row * string)) (x : delivery_row) : delivery_row :=
  match select_one (λ p, dl_id p.1 =? dl_id x) l with
  | Some p => lease_delivery lease now p.2 x
  | None => x
  end.
Definition claimed_as (p : delivery_row * string) : claimed_delivery :=
  ClaimedDelivery (dl_id p.1) (dl_firing p.1) (dl_mode p.1) (dl_snapshot p.1) p.2.

Definition set_outbox (g : delivery_row → delivery_row) d : exec_db :=
  d <| xd_outbox := g <$> xd_outbox d |>.

Lemma outbox_update p g d :
  d <| xd_outbox := update p g (xd_outbox d) |> = set_outbox (λ x, if p x then g x else x) d.
Proof. done. Qed.

Lemma same_delivery d r x : exec_ok d → r ∈ xd_outbox d → x ∈ xd_outbox d → dl_id x = dl_id r → x = r.
Proof. intros Hd Hr Hx. apply (unique_eq dl_id (xd_outbox d)); [apply Hd|done..]. Qed.

Lemma set_outbox_ext g h d : (∀ x, x ∈ xd_outbox d → g x = h x) → set_outbox g d = set_outbox h d.
Proof.
  intros H. unfold set_outbox. assert (g <$> xd_outbox d = h <$> xd_outbox d) as ->; [|done].
  apply list_fmap_ext. intros i x Hx%list_elem_of_lookup_2. auto.
Qed.

Lemma claim_delivery_run lease now r tok d :
  exec_ok d → r ∈ xd_outbox d → claimable now r = true →
  claim_delivery lease now (r, tok) d = (set_outbox (lease_of lease now [(r, tok)]) d, Ok (Some (claimed_as (r, tok)))).
Proof.
  intros Hd Hr Hc. unfold claim_delivery. set (mine := λ x, (dl_id x =? dl_id r) && claimable now x).
  assert (∀ x, x ∈ xd_outbox d → mine x = (dl_id x =? dl_id r)) as Hm.
  { intros x Hx. unfold mine. destruct (Z.eqb_spec (dl_id x) (dl_id r)) as [E|]; [|done].
    by rewrite (same_delivery _ _ _ Hd Hr Hx E). }
  rewrite run_gets_bind, run_modify_bind.
  assert (rowcount mine (xd_outbox d) = 1%nat) as ->.
  { apply (rowcount_one dl_id _ _ r); [apply Hd|done|by rewrite Hm, Z.eqb_refl|].
    intros x Hx. rewrite Hm by done. apply Z.eqb_eq. }
  cbn [negb Nat.eqb]. rewrite run_outcome_bind.
  destruct (eo_deliveries _ Hd r Hr) as ((Hs & _) & _ & _). rewrite Hs, run_ret.
  unfold claimed_as. simpl. do 2 f_equal. rewrite outbox_update. apply set_outbox_ext. intros x Hx.
  rewrite Hm by done. unfold lease_of. simpl. rewrite Z.eqb_sym. by destruct (dl_id r =? dl_id x).
Qed.

Lemma lease_delivery_ok lease now tok x :
  delivery_ok x → claimable now x = true →
  same_result x (lease_delivery lease now tok x) ∧ delivery_ok (lease_delivery lease now tok x).
Proof.
  intros [H1 H2] Hc. split; [|split; [done|by intros _; split; eexists]].
  split_and!; try done. intros E. unfold claimable in Hc. by rewrite E in Hc.
Qed.

Lemma claim_deliveries_loop lease now (l : list (delivery_row * string)) d :
  exec_ok d → NoDup (dl_id ∘ fst <$> l) → (∀ p, p ∈ l → p.1 ∈ xd_outbox d ∧ claimable now p.1 = true) →
  collect l (claim_delivery lease now) d =
    (set_outbox (lease_of lease now l) d, Ok ((λ p, Some (claimed_as p)) <$> l)) ∧
  exec_ok (set_outbox (lease_of lease now l) d) ∧ exec_advance d (set_outbox (lease_of lease now l) d).
Proof.
  revert d. induction l as [|[r tok] l IH]; intros d Hd Hnd Hl.
  - assert (set_outbox (lease_of lease now []) d = d) as ->.
    { unfold set_outbox. change (lease_of lease now []) with (λ x : delivery_row, x).
      rewrite list_fmap_id. by destruct d. }
    split; [done|]. split; [done|apply exec_advance_refl].
  - apply NoDup_cons in Hnd as [Hni Hnd]. destruct (Hl (r, tok)) as [Hr Hc]; [set_solver|]. simpl in Hr, Hc.
    assert (∀ x, lease_of lease now ((r, tok) :: l) x =
      lease_of lease now l (lease_of lease now [(r, tok)] x)) as Hcomp.
    { intros x. unfold lease_of at 1 3. simpl. destruct (Z.eqb_spec (dl_id r) (dl_id x)) as [E|E]; simpl.
      - unfold lease_of. rewrite (proj2 (select_one_None _ _)); [done|]. intros p Hp. simpl.
        apply Z.eqb_neq. intros Hp'. apply Hni, list_elem_of_fmap. exists p. simpl. split; [congruence|done].
      - by unfold lease_of. }
    set (d1 := set_outbox (lease_of lease now [(r, tok)]) d).
    assert (exec_ok d1 ∧ exec_advance d d1) as [Hd1 Ha1].
    { apply outbox_changed; [done|]. intros x Hx. unfold lease_of. simpl.
      destruct (Z.eqb_spec (dl_id r) (dl_id x)) as [E|E]; [|split; [done|by apply Hd]].
      apply lease_delivery_ok; [by apply Hd|]. by rewrite (same_delivery _ _ _ Hd Hr Hx (eq_sym E)). }
    destruct (IH d1) as (Hrun & Hok & Ha); [done..| |].
    { intros p Hp. destruct (Hl p) as [Hpo Hpc]; [set_solver|]. split; [|done].
      apply list_elem_of_fmap. exists p.1. split; [|done]. unfold lease_of. simpl.
      destruct (Z.eqb_spec (dl_id r) (dl_id p.1)) as [E|E]; [|done].
      exfalso. apply Hni, list_elem_of_fmap. by exists p. }
    assert (set_outbox (lease_of lease now l) d1 = set_outbox (lease_of lease now ((r, tok) :: l)) d) as Heq.
    { unfold d1, set_outbox. simpl. rewrite <- list_fmap_compose.
      assert (lease_of lease now l ∘ lease_of lease now [(r, tok)] <$> xd_outbox d =
        lease_of lease now ((r, tok) :: l) <$> xd_outbox d) as ->; [|done].
      apply list_fmap_ext. intros i x _. simpl. by rewrite Hcomp. }
    rewrite <- Heq. split; [|split; [done|by eapply exec_advance_trans]].
    cbn [collect]. rewrite run_bind, claim_delivery_run by done. fold d1. by rewrite run_bind, Hrun.
Qed.

(** The deliveries a claim is offered, in the order of their identifiers. *)
Definition offered (limit now : Z) d : list (delivery_row) :=
  take (Z.to_nat limit) (order_by id_ascending (select (claimable now) (xd_outbox d))).
Definition leases (limit : Z) (fresh : nat → string) (now : Z) d : list (delivery_row * string) :=
  zip (offered limit now d) (fresh <$> seq 0 (length (offered limit now d))).

Lemma id_ascending_total (x y : delivery_row) :
  id_ascending x y = true ∨ id_ascending y x = true.
Proof. unfold id_ascending. rewrite !Z.leb_le. lia. Qed.

Lemma offered_claimable limit now d r :
  r ∈ offered limit now d → r ∈ xd_outbox d ∧ claimable now r = true.
Proof.
  intros Hr. apply elem_of_select. unfold offered in Hr. apply list_elem_of_lookup in Hr as (i & Hi).
  apply lookup_take_Some in Hi as [Hi _]. apply list_elem_of_lookup_2 in Hi.
  by rewrite (order_by_perm id_ascending) in Hi.
Qed.

Lemma leases_fst limit fresh now d : fst <$> leases limit fresh now d = offered limit now d.
Proof. unfold leases. apply fst_zip. by rewrite length_fmap, length_seq. Qed.

Lemma leases_offered limit fresh now d p :
  p ∈ leases limit fresh now d → p.1 ∈ offered limit now d.
Proof. intros Hp. rewrite <- (leases_fst limit fresh). by apply list_elem_of_fmap_2. Qed.

Lemma leases_NoDup limit fresh now d :
  exec_ok d → NoDup (dl_id ∘ fst <$> leases limit fresh now d).
Proof.
  intros Hd. rewrite list_fmap_compose, leases_fst. unfold offered. rewrite fmap_take.
  assert (NoDup (dl_id <$> order_by id_ascending (select (claimable now) (xd_outbox d)))) as H.
  { rewrite (order_by_perm id_ascending). apply (unique_select dl_id), Hd. }
  rewrite <- (take_drop (Z.to_nat limit) (dl_id <$> _)) in H. by apply NoDup_app in H as (H & _).
Qed.

Lemma omap_claimed (l : list (delivery_row * string)) :
  omap id ((λ p, Some (claimed_as p)) <$> l) = claimed_as <$> l.
Proof. induction l as [|p l IH]; [done|]. cbn. f_equal. exact IH. Qed.

Lemma claim_deliveries_cases lease limit fresh now d :
  0 < lease ∧ 0 < limit ∨ ∃ e, claim_deliveries lease limit fresh now d = (d, Err e).
Proof.
  destruct (Z.ltb_spec 0 lease) as [Hl|Hl], (Z.ltb_spec 0 limit) as [Hi|Hi]; [by left|right..];
    unfold claim_deliveries; rewrite run_unless_bind; [rewrite (proj2 (Z.ltb_lt _ _) Hl), run_unless_bind,
      (proj2 (Z.ltb_ge _ _) Hi)|rewrite (proj2 (Z.ltb_ge _ _) Hl)..]; by eexists.
Qed.

Lemma claim_deliveries_run lease limit fresh now d :
  exec_ok d → 0 < lease → 0 < limit →
  let l := leases limit fresh now d in
  claim_deliveries lease limit fresh now d = (set_outbox (lease_of lease now l) d, Ok (claimed_as <$> l)) ∧
  exec_ok (set_outbox (lease_of lease now l) d) ∧ exec_advance d (set_outbox (lease_of lease now l) d).
Proof.
  intros Hd Hle Hli. cbv zeta. destruct (claim_deliveries_loop lease now (leases limit fresh now d) d Hd) as (Hrun & Hok & Ha).
  - by apply leases_NoDup.
  - intros p Hp%leases_offered. by eapply offered_claimable.
  - split; [|done]. unfold claim_deliveries. rewrite run_unless_bind.
    rewrite (proj2 (Z.ltb_lt _ _) Hle), run_unless_bind, (proj2 (Z.ltb_lt _ _) Hli).
    rewrite run_transaction, run_gets_bind. fold (offered limit now d). fold (leases limit fresh now d).
    by rewrite run_bind, Hrun, run_ret, omap_claimed.
Qed.

Definition closed (status : delivery_status) (now : Z) (r : delivery_row) : delivery_row :=
  r <| dl_status := status |> <| dl_lease := None |> <| dl_expires := None |> <| dl_updated_at := now |>.
Definition delivery_held (c : claimed_delivery) d : bool := exists_row (holds_delivery c) (xd_outbox d).

Lemma close_delivery_run status c now d :
  exec_ok d →
  close_delivery status c now d =
    (set_outbox (λ r, if holds_delivery c r then closed status now r else r) d, Ok (delivery_held c d)).
Proof.
  intros Hd. unfold close_delivery. rewrite run_gets_bind, run_modify_bind, run_ret. do 2 f_equal.
  unfold delivery_held. destruct (exists_row _ _) eqn:E.
  - apply exists_row_true in E as (r & Hr & Hc). rewrite (rowcount_one dl_id _ _ r); [done|apply Hd|done..|].
    unfold holds_delivery in *. intros x _. rewrite !andb_true_iff, !Z.eqb_eq in *. intuition congruence.
  - rewrite exists_row_false in E. by rewrite (proj2 (rowcount_zero _ _) E).
Qed.

Lemma close_delivery_ok status c now d :
  exec_ok d → status ≠ DlDelivering →
  exec_ok (close_delivery status c now d).1 ∧ exec_advance d (close_delivery status c now d).1.
Proof.
  intros Hd Hst. rewrite close_delivery_run by done. apply outbox_changed; [done|]. intros r Hr.
  destruct (eo_deliveries _ Hd r Hr) as (Ho & _). destruct (holds_delivery c r) eqn:E; [|done].
  unfold holds_delivery in E. rewrite !andb_true_iff in E. destruct E as [[_ E%bool_decide_eq_true] _].
  split; [|split; [apply Ho|done]]. split_and!; try done. congruence.
Qed.

(** ** Histories *)

Inductive exec_call :=
  | CallClaim (t : trigger_spec) (key : string) (lease : Z) (fresh : string) (now : Z)
  | CallFinish (t : trigger_spec) (key token : string) (status : execution_status) (run : option string)
      (delivery : option (snapshot * mode)) (now : Z)
  | CallClaimDeliveries (lease limit : Z) (fresh : nat → string) (now : Z)
  | CallComplete (c : claimed_delivery) (now : Z)
  | CallRetry (c : claimed_delivery) (now : Z).

(** [finish] is given a final status and a snapshot object. *)
Definition exec_call_valid (c : exec_call) : Prop :=
  match c with
  | CallFinish _ _ _ status _ delivery _ => status ≠ ExRunning ∧ delivery_valid delivery
  | _ => True
  end.

Definition step_exec d (c : exec_call) : exec_db :=
  match c with
  | CallClaim t key lease fresh now => (claim t key lease fresh now d).1
  | CallFinish t key token status run delivery now => (finish t key token status run delivery now d).1
  | CallClaimDeliveries lease limit fresh now => (claim_deliveries lease limit fresh now d).1
  | CallComplete c now => (complete_delivery c now d).1
  | CallRetry c now => (retry_delivery c now d).1
  end.
Definition run_exec (calls : list exec_call) d : exec_db := foldl step_exec d calls.

Lemma step_exec_ok c d :
  exec_ok d → exec_call_valid c → exec_ok (step_exec d c) ∧ exec_advance d (step_exec d c).
Proof.
  intros Hd Hc. destruct c as [t key lease fresh now|t key token status run delivery now|lease limit fresh now|c now|c now];
    simpl in *.
  - by apply claim_ok.
  - destruct Hc; by apply finish_execution_ok.
  - destruct (claim_deliveries_cases lease limit fresh now d) as [[Hl Hi]|[e ->]];
      [|split; [done|apply exec_advance_refl]].
    destruct (claim_deliveries_run lease limit fresh now d Hd Hl Hi) as (-> & Hok & Ha). done.
  - by apply (close_delivery_ok DlDelivered).
  - by apply (close_delivery_ok DlPending).
Qed.

Lemma run_exec_ok calls d :
  exec_ok d → Forall exec_call_valid calls → exec_ok (run_exec calls d) ∧ exec_advance d (run_exec calls d).
Proof.
  intros Hd Hc. revert d Hd. induction Hc as [|c calls Hc Hcs IH]; intros d Hd; [split; [done|apply exec_advance_refl]|].
  destruct (step_exec_ok c d Hd Hc) as [Hd1 Ha1]. destruct (IH _ Hd1) as [Hd2 Ha2].
  split; [done|by eapply exec_advance_trans].
Qed.

(** ** Leases *)

(** The firing is run under a lease that lasts until an instant. *)
Definition leasing f (token : string) (until : Z) d : Prop :=
  ∃ r, execution_at f d = Some r ∧ ex_status r = ExRunning ∧ ex_lease r = Some token ∧ ex_expires r = Some until.

(** Calls that leave a lease alone: nobody claims the firing once the lease has
    run out, and nobody finishes it with the holder's token. *)
Definition respects f (token : string) (until : Z) (c : exec_call) : Prop :=
  match c with
  | CallClaim t key _ _ now => firing_of t key = f → now < until
  | CallFinish t key token' _ _ _ _ => firing_of t key = f → token' ≠ token
  | _ => True
  end.

Lemma execution_at_write f f' g d :
  f ≠ f' → (∀ r, ex_firing (g r) = ex_firing r) → execution_at f (write_execution f' g d) = execution_at f d.
Proof.
  intros Hne Hg. unfold execution_at, write_execution. simpl. rewrite select_one_update.
  - destruct (select_one _ _) as [r|] eqn:E; [|done]. simpl. apply select_one_Some in E as [_ E%bool_decide_eq_true].
    unfold of_firing. rewrite bool_decide_eq_false_2; [done|congruence].
  - intros r _ _. unfold of_firing. by rewrite Hg.
Qed.

Lemma execution_at_add f r d :
  ex_firing r ≠ f → execution_at f (d <| xd_executions := xd_executions d ++ [r] |>) = execution_at f d.
Proof.
  intros Hne. unfold execution_at. simpl. rewrite select_one_app. destruct (select_one _ _); [done|].
  simpl. unfold of_firing. by rewrite bool_decide_eq_false_2.
Qed.

Lemma execution_at_result f f' delivery now d : execution_at f (with_result f' delivery now d) = execution_at f d.
Proof. by destruct delivery as [[s m]|]. Qed.

Lemma leasing_step f token until c d :
  exec_ok d → exec_call_valid c → respects f token until c → leasing f token until d →
  leasing f token until (step_exec d c).
Proof.
  intros Hd Hv Hc (r & Hat & Hst & Hl & He).
  assert (∀ d', execution_at f d' = execution_at f d → leasing f token until d') as Hkeep
    by (intros d' H; exists r; by rewrite H).
  destruct c as [t key lease fresh now|t key token' status run delivery now|lease limit fresh now|c now|c now]; simpl in Hc.
  - simpl. destruct (Z.ltb_spec 0 lease) as [Hle|Hle].
    2: { apply Hkeep. unfold claim. by rewrite run_unless_bind, (proj2 (Z.ltb_ge _ _) Hle). }
    rewrite claim_execution_run by done. apply Hkeep. destruct (decide (firing_of t key = f)) as [Hf|Hf].
    + rewrite Hf, Hat, Hst, He. simpl. specialize (Hc Hf). by rewrite (proj2 (Z.leb_gt _ _)) by lia.
    + destruct (execution_at (firing_of t key) d) as [r'|]; [|by apply execution_at_add].
      destruct (_ && _); [|done]. by apply execution_at_write.
  - simpl. rewrite finish_execution_run by done. apply Hkeep. destruct (held _ _ d) eqn:Hh; [|done].
    simpl. rewrite execution_at_result. apply execution_at_write; [|done].
    intros ->. apply held_row in Hh as (r' & Hat' & _ & Hl'). specialize (Hc eq_refl). congruence.
  - apply Hkeep. simpl. destruct (claim_deliveries_cases lease limit fresh now d) as [[Hle Hi]|[e ->]]; [|done].
    by destruct (claim_deliveries_run lease limit fresh now d Hd Hle Hi) as (-> & _ & _).
  - by apply Hkeep.
  - by apply Hkeep.
Qed.

Lemma leasing_run f token until calls d :
  exec_ok d → Forall exec_call_valid calls → Forall (respects f token until) calls → leasing f token until d →
  leasing f token until (run_exec calls d).
Proof.
  intros Hd Hv. revert d Hd. induction Hv as [|c calls Hc Hcs IH]; intros d Hd Hr Hl; [done|].
  apply Forall_cons in Hr as [Hr Hrs]. apply IH; [by apply step_exec_ok|done|by apply leasing_step].
Qed.

Lemma claim_Some t key lease fresh now d d1 token :
  exec_ok d → claim t key lease fresh now d = (d1, Ok (Some token)) →
  token = fresh ∧ 0 < lease ∧ leasing (firing_of t key) fresh (now + lease) d1.
Proof.
  intros Hd H. destruct (Z.ltb_spec 0 lease) as [Hl|Hl].
  2: { unfold claim in H. by rewrite run_unless_bind, (proj2 (Z.ltb_ge _ _) Hl) in H. }
  pose proof (claim_ok t key lease fresh now d Hd) as [Hok _]. rewrite H in Hok. simpl in Hok.
  rewrite claim_execution_run in H by done. cbv zeta in H.
  destruct (execution_at _ d) as [r|] eqn:E.
  - destruct (_ && _) eqn:Hs; [|done]. injection H as <- <-. split; [done|]. split; [done|].
    apply andb_true_iff in Hs as [Hst%bool_decide_eq_true _].
    pose proof E as [Hr Hf]%execution_at_Some; [|done]. pose proof (eo_executions _ Hd r Hr) as [Hn _].
    destruct (write_execution_ok (firing_of t key) (leased fresh lease now) d r) as (_ & _ & Hat'); [done..| |].
    { split; [simpl; lia|]. split; [by intros _; split; eexists|done]. }
    by exists (leased fresh lease now r).
  - injection H as <- <-. split; [done|]. split; [done|].
    exists (first_lease (firing_of t key) fresh lease now). split; [|done].
    apply execution_at_Some; [done|]. split; [|done]. apply elem_of_app. right. by apply list_elem_of_singleton.
Qed.

(** A firing whose row does not carry the token, and the calls that do not draw
    that token again for it. *)
Definition lost f (token : string) d : Prop := ∃ r, execution_at f d = Some r ∧ ex_lease r ≠ Some token.
Definition draws_other f (token : string) (c : exec_call) : Prop :=
  match c with
  | CallClaim t key _ fresh _ => firing_of t key = f → fresh ≠ token
  | _ => True
  end.

Lemma lost_write f token f' g d :
  exec_ok d → lost f token d → (∀ r, ex_firing (g r) = ex_firing r) → (f = f' → ∀ r, ex_lease (g r) ≠ Some token) →
  lost f token (write_execution f' g d).
Proof.
  intros Hd (r & Hat & Hl) Hf Hg. destruct (decide (f = f')) as [<-|Hne].
  - exists (g r). split; [|by apply Hg]. unfold execution_at, write_execution in *. simpl.
    rewrite select_one_update, Hat by (intros x _ _; unfold of_firing; by rewrite Hf). simpl.
    apply select_one_Some in Hat as [_ ->]. done.
  - exists r. by rewrite execution_at_write.
Qed.

Lemma lost_step f token c d :
  exec_ok d → draws_other f token c → lost f token d → lost f token (step_exec d c).
Proof.
  intros Hd Hc Hlost.
  assert (∀ d', execution_at f d' = execution_at f d → lost f token d') as Hkeep.
  { intros d' H. destruct Hlost as (r & Hat & Hl). exists r. by rewrite H. }
  destruct c as [t key lease fresh now|t key token' status run delivery now|lease limit fresh now|c now|c now]; simpl in Hc |- *.
  - destruct (Z.ltb_spec 0 lease) as [Hle|Hle].
    2: { apply Hkeep. unfold claim. by rewrite run_unless_bind, (proj2 (Z.ltb_ge _ _) Hle). }
    rewrite claim_execution_run by done. destruct (execution_at (firing_of t key) d) as [r'|] eqn:E.
    + destruct (_ && _); [|by apply Hkeep]. apply lost_write; [done|done|done|].
      intros ->. specialize (Hc eq_refl). simpl. congruence.
    + apply Hkeep, execution_at_add. simpl. intros <-. destruct Hlost as (r & Hat & _). congruence.
  - rewrite finish_execution_run by done. destruct (held _ _ d); [|by apply Hkeep]. simpl.
    destruct (lost_write f token (firing_of t key) (settled status run now) d) as (r & Hat & Hl); [done..|].
    exists r. by rewrite execution_at_result.
  - apply Hkeep. destruct (claim_deliveries_cases lease limit fresh now d) as [[Hle Hi]|[e ->]]; [|done].
    by destruct (claim_deliveries_run lease limit fresh now d Hd Hle Hi) as (-> & _ & _).
  - by apply Hkeep.
  - by apply Hkeep.
Qed.

Lemma lost_run f token calls d :
  exec_ok d → Forall exec_call_valid calls → Forall (draws_other f token) calls → lost f token d →
  exec_ok (run_exec calls d) ∧ lost f token (run_exec calls d).
Proof.
  intros Hd Hv. revert d Hd. induction Hv as [|c calls Hc Hcs IH]; intros d Hd Hr Hl; [done|].
  apply Forall_cons in Hr as [Hr Hrs]. apply IH; [by apply step_exec_ok|done|by apply lost_step].
Qed.

Lemma lost_refused t key token status run delivery now d :
  exec_ok d → lost (firing_of t key) token d → finish t key token status run delivery now d = (d, Ok false).
Proof.
  intros Hd (r & Hat & Hl). rewrite finish_execution_run by done. unfold held.
  rewrite Hat, (bool_decide_eq_false_2 (ex_lease r = _)) by done. by rewrite andb_false_r.
Qed.

(** C35: a claimed firing is fenced. While its lease lasts, whatever else happens
    to the store ([later]: valid calls, none of which finishes the firing with the
    holder's token or claims it after the lease), every other worker is refused
    and its holder can finish. Once the lease has run out any worker takes the
    firing over, with a token of its own; from then on, whatever calls follow the
    takeover ([after]), claims, finishes and deliveries among them, as long as no
    claim of the firing draws the first token again, the first holder's result is
    refused and changes nothing. *)
Theorem lease_fences calls t key lease fresh now d1 token later :
  Forall exec_call_valid calls → Forall exec_call_valid later →
  claim t key lease fresh now (run_exec calls no_executions) = (d1, Ok (Some token)) →
  Forall (respects (firing_of t key) token (now + lease)) later →
  let d := run_exec later d1 in
  (∀ lease' fresh' now', 0 < lease' → now' < now + lease → claim t key lease' fresh' now' d = (d, Ok None)) ∧
  (∀ status run delivery now', (finish t key token status run delivery now' d).2 = Ok true) ∧
  ∀ lease' fresh' now', 0 < lease' → now + lease ≤ now' → fresh' ≠ token →
    (claim t key lease' fresh' now' d).2 = Ok (Some fresh') ∧
    ∀ after, Forall exec_call_valid after → Forall (draws_other (firing_of t key) token) after →
    let d' := run_exec after (claim t key lease' fresh' now' d).1 in
    ∀ status run delivery now'', finish t key token status run delivery now'' d' = (d', Ok false).
Proof.
  intros Hcalls Hlater Hclaim Hresp. cbv zeta.
  destruct (run_exec_ok calls no_executions no_executions_ok Hcalls) as [Hd0 _].
  destruct (claim_Some _ _ _ _ _ _ _ _ Hd0 Hclaim) as (-> & Hl & Hleas).
  pose proof (claim_ok t key lease fresh now _ Hd0) as [Hd1 _]. rewrite Hclaim in Hd1. simpl in Hd1.
  destruct (run_exec_ok later d1 Hd1 Hlater) as [Hd _].
  pose proof (leasing_run _ _ _ _ _ Hd1 Hlater Hresp Hleas) as (r & Hat & Hst & Hlr & Her).
  set (d := run_exec later d1) in *. split; [|split].
  - intros lease' fresh' now' Hl' Hnow. rewrite claim_execution_run by done. rewrite Hat, Hst, Her. simpl.
    by rewrite (proj2 (Z.leb_gt _ _)) by lia.
  - intros status run delivery now'. rewrite finish_execution_run by done. unfold held.
    by rewrite Hat, Hst, Hlr, !bool_decide_eq_true_2.
  - intros lease' fresh' now' Hl' Hnow Hne. pose proof (claim_ok t key lease' fresh' now' d Hd) as [Hok _].
    assert ((claim t key lease' fresh' now' d).2 = Ok (Some fresh')) as Hres.
    { rewrite claim_execution_run by done. rewrite Hat, Hst, Her. simpl. by rewrite (proj2 (Z.leb_le _ _)) by lia. }
    split; [done|]. intros after Hva Hda status run delivery now''.
    destruct (claim t key lease' fresh' now' d) as [d2 o] eqn:Hc. simpl in *. subst o.
    destruct (claim_Some _ _ _ _ _ _ _ _ Hd Hc) as (_ & _ & r2 & Hat2 & _ & Hl2 & _).
    destruct (lost_run (firing_of t key) fresh after d2) as [Hok' Hlost]; [done..| |by apply lost_refused].
    exists r2. split; [done|congruence].
Qed.

(** ** Results *)

Lemma result_unique d x y : exec_ok d → x ∈ xd_outbox d → y ∈ xd_outbox d → dl_firing x = dl_firing y → x = y.
Proof. intros Hd. apply (unique_eq dl_firing (xd_outbox d)), Hd. Qed.

(** A firing is settled once and its result is stored with it: after a
    [finish] that took effect, no later call claims or finishes the firing
    again, and the outbox holds the result it was given, in one row for ever
    with the snapshot and mode of that call, or none if it was given none. *)
Theorem firing_settled_once calls t key token status run delivery now later :
  Forall exec_call_valid calls → Forall exec_call_valid later →
  status ≠ ExRunning → delivery_valid delivery →
  let finished := finish t key token status run delivery now (run_exec calls no_executions) in
  finished.2 = Ok true →
  let d := run_exec later finished.1 in
  (∀ lease fresh now', 0 < lease → claim t key lease fresh now' d = (d, Ok None)) ∧
  (∀ token' status' run' delivery' now', finish t key token' status' run' delivery' now' d = (d, Ok false)) ∧
  match delivery with
  | Some (s, m) => ∃ x, x ∈ xd_outbox d ∧ dl_firing x = firing_of t key ∧ dl_mode x = m ∧
      dl_snapshot x = stored_snapshot s ∧ ∀ y, y ∈ xd_outbox d → dl_firing y = firing_of t key → y = x
  | None => ∀ x, x ∈ xd_outbox d → dl_firing x ≠ firing_of t key
  end.
Proof.
  intros Hcalls Hlater Hst Hv. cbv zeta. set (f := firing_of t key).
  destruct (run_exec_ok calls no_executions no_executions_ok Hcalls) as [Hd0 _].
  rewrite finish_execution_run by done. fold f. destruct (held f token _) eqn:Hh; [|done]. intros _.
  destruct (finished_ok f token status run delivery now _ Hd0 Hh Hst Hv) as (Hd1 & _ & e & He & Hef & Hes & Hres).
  simpl. set (d1 := with_result _ _ _ _) in *. destruct (run_exec_ok later d1 Hd1 Hlater) as [Hd Ha].
  set (d := run_exec later d1) in *.
  assert (execution_at f d = Some e) as Hat
    by (apply execution_at_Some; [done|]; split; [by apply (xa_settled _ _ Ha)|done]).
  split; [|split].
  - intros lease fresh now' Hl. rewrite claim_execution_run by done. fold f. rewrite Hat.
    by rewrite bool_decide_eq_false_2.
  - intros token' status' run' delivery' now'. rewrite finish_execution_run by done. fold f. unfold held. rewrite Hat.
    by rewrite bool_decide_eq_false_2.
  - destruct delivery as [[s m]|].
    + destruct (xa_results _ _ Ha _ Hres) as (x & Hx & _ & Hxf & Hxm & Hxs & _). simpl in *.
      exists x. split_and!; try done. intros y Hy Hyf. apply (result_unique d); [done..|congruence].
    + intros x Hx Hxf. destruct (xa_fresh _ _ Ha x e Hx He) as (x0 & Hx0 & _ & Hx0f & _); [congruence|done|].
      apply (Hres x0 Hx0). congruence.
Qed.

Lemma lease_of_leased lease now l x p :
  NoDup (dl_id ∘ fst <$> l) → p ∈ l → dl_id p.1 = dl_id x →
  lease_of lease now l x = lease_delivery lease now p.2 x.
Proof.
  intros Hnd Hp Hid. unfold lease_of. destruct (select_one _ l) as [p'|] eqn:E.
  - apply select_one_Some in E as [Hp' E%Z.eqb_eq].
    assert (p' = p) as -> by (apply (unique_eq (dl_id ∘ fst) l); simpl; [done|done|done|congruence]). done.
  - eapply select_one_None in E; [|exact Hp]. apply Z.eqb_neq in E. congruence.
Qed.

Lemma claimed_in c limit fresh now d :
  c ∈ claimed_as <$> leases limit fresh now d →
  ∃ p, c = claimed_as p ∧ p ∈ leases limit fresh now d ∧ p.1 ∈ xd_outbox d ∧ claimable now p.1 = true.
Proof.
  intros (p & -> & Hp)%list_elem_of_fmap. exists p. split; [done|]. split; [done|].
  by eapply offered_claimable, leases_offered.
Qed.

(** The claimer holds what it was handed. *)
Lemma leases_held c lease limit fresh now d :
  exec_ok d → c ∈ claimed_as <$> leases limit fresh now d →
  delivery_held c (set_outbox (lease_of lease now (leases limit fresh now d)) d) = true.
Proof.
  intros Hd (p & -> & Hp & Ho & _)%claimed_in. unfold delivery_held. apply exists_row_true.
  exists (lease_of lease now (leases limit fresh now d) p.1). split; [by apply list_elem_of_fmap_2|].
  rewrite (lease_of_leased lease now _ p.1 p) by (done || by apply leases_NoDup).
  unfold holds_delivery. simpl. by rewrite Z.eqb_refl, !bool_decide_eq_true_2.
Qed.

(** Claiming deliveries never fails and hands out exactly the results that
    wait or whose lease has run out, the earliest first and as many as asked
    for, each as it was stored; the claimer can close each of them, and nobody
    else is handed one of them while the lease lasts. *)
Theorem deliveries_leased calls lease limit fresh now :
  Forall exec_call_valid calls → 0 < lease → 0 < limit →
  let d := run_exec calls no_executions in
  let waiting := order_by id_ascending (select (claimable now) (xd_outbox d)) in
  ∃ d1 l, claim_deliveries lease limit fresh now d = (d1, Ok l) ∧
    (λ c, (cl_id c, cl_firing c, cl_mode c, cl_snapshot c)) <$> l =
      (λ r, (dl_id r, dl_firing r, dl_mode r, dl_snapshot r)) <$> take (Z.to_nat limit) waiting ∧
    (∀ c now', c ∈ l → (complete_delivery c now' d1).2 = Ok true) ∧
    ∀ lease' limit' fresh' now' l', now' < now + lease → (claim_deliveries lease' limit' fresh' now' d1).2 = Ok l' →
      ∀ c, c ∈ l → cl_id c ∉ (cl_id <$> l').
Proof.
  intros Hcalls Hle Hli. cbv zeta.
  destruct (run_exec_ok calls no_executions no_executions_ok Hcalls) as [Hd _].
  set (d := run_exec calls no_executions) in *.
  destruct (claim_deliveries_run lease limit fresh now d Hd Hle Hli) as (Hrun & Hd1 & _).
  set (l := leases limit fresh now d) in *. set (d1 := set_outbox _ d) in *.
  assert (NoDup (dl_id ∘ fst <$> l)) as Hnd by by apply leases_NoDup.
  exists d1, (claimed_as <$> l). split; [done|]. split; [|split].
  - change (take _ _) with (offered limit now d). rewrite <- (leases_fst limit fresh). fold l.
    by rewrite <- !list_fmap_compose.
  - intros c now' Hc. unfold complete_delivery. rewrite close_delivery_run by done.
    simpl. f_equal. by apply leases_held.
  - intros lease' limit' fresh' now' l' Hnow Hc c (p & -> & Hp & Ho & _)%claimed_in.
    destruct (claim_deliveries_cases lease' limit' fresh' now' d1) as [[Hl' Hi']|[e E]]; [|by rewrite E in Hc].
    destruct (claim_deliveries_run lease' limit' fresh' now' d1 Hd1 Hl' Hi') as (Hrun' & _ & _).
    rewrite Hrun' in Hc. injection Hc as <-.
    intros (c & Hcid & (p' & -> & Hp' & Ho' & Hc')%claimed_in)%list_elem_of_fmap. simpl in Hcid.
    assert (p'.1 = lease_delivery lease now p.2 p.1) as E.
    { rewrite <- (lease_of_leased lease now l p.1 p) by done.
      apply (same_delivery d1); [done|by apply list_elem_of_fmap_2|done|].
      rewrite (lease_of_leased lease now l p.1 p) by done. simpl. congruence. }
    rewrite E in Hc'. unfold claimable in Hc'. simpl in Hc'. by rewrite (proj2 (Z.leb_gt _ _)) in Hc' by lia.
Qed.

(** C36: a delivered result is never handed out again. *)
Theorem delivered_once calls c now later :
  Forall exec_call_valid calls → Forall exec_call_valid later →
  let completed := complete_delivery c now (run_exec calls no_executions) in
  completed.2 = Ok true →
  ∀ lease limit fresh now' l, (claim_deliveries lease limit fresh now' (run_exec later completed.1)).2 = Ok l →
    cl_id c ∉ (cl_id <$> l).
Proof.
  intros Hcalls Hlater. cbv zeta.
  destruct (run_exec_ok calls no_executions no_executions_ok Hcalls) as [Hd0 _].
  destruct (close_delivery_ok DlDelivered c now _ Hd0 ltac:(done)) as [Hd1 _].
  unfold complete_delivery. rewrite close_delivery_run in Hd1 |- * by done.
  set (d0 := run_exec calls no_executions) in *. simpl in *. intros [= Hh].
  apply exists_row_true in Hh as (r & Hr & Hc).
  assert (closed DlDelivered now r ∈ xd_outbox (set_outbox (λ r, if holds_delivery c r then closed DlDelivered now r else r) d0)) as Hr1.
  { apply list_elem_of_fmap. exists r. by rewrite Hc. }
  set (d1 := set_outbox _ d0) in *. destruct (run_exec_ok later d1 Hd1 Hlater) as [Hd Ha].
  destruct (xa_results _ _ Ha _ Hr1) as (x & Hx & Hid & _ & _ & _ & Hsame). rewrite (Hsame eq_refl) in Hx.
  intros lease limit fresh now' l Hcl.
  destruct (claim_deliveries_cases lease limit fresh now' (run_exec later d1)) as [[Hl' Hi']|[e E]];
    [|by rewrite E in Hcl].
  destruct (claim_deliveries_run lease limit fresh now' _ Hd Hl' Hi') as (Hrun & _ & _). rewrite Hrun in Hcl.
  injection Hcl as <-. intros (c' & Hcid & (p & -> & Hp & Ho & Hcp)%claimed_in)%list_elem_of_fmap. simpl in Hcid.
  unfold holds_delivery in Hc. rewrite !andb_true_iff, Z.eqb_eq in Hc.
  assert (p.1 = closed DlDelivered now r) as E by (apply (same_delivery (run_exec later d1)); [done..|simpl; intuition congruence]).
  by rewrite E in Hcp.
Qed.

Lemma earliest_total (x y : delivery_row) : earliest x y = true ∨ earliest y x = true.
Proof. unfold earliest. destruct (dl_expires x), (dl_expires y); rewrite ?Z.leb_le; (lia || auto). Qed.

Lemma earliest_trans (x y z : delivery_row) :
  earliest x y = true → earliest y z = true → earliest x z = true.
Proof.
  unfold earliest. destruct (dl_expires x), (dl_expires y), (dl_expires z); rewrite ?Z.leb_le; (done || lia).
Qed.

(** When the next delivery under way can be taken over. *)
Definition delay_exact now d (o : option Z) : Prop :=
  match o with
  | None => ∀ r, r ∈ xd_outbox d → dl_status r ≠ DlDelivering
  | Some n => 0 ≤ n ∧
      (∃ r, r ∈ xd_outbox d ∧ dl_status r = DlDelivering ∧ claimable (now + n) r = true) ∧
      ∀ m r, 0 ≤ m → m < n → r ∈ xd_outbox d → dl_status r = DlDelivering → claimable (now + m) r = false
  end.

Lemma lease_delay_run now d :
  exec_ok d → ∃ o, next_delivery_lease_delay now d = (d, Ok o) ∧ delay_exact now d o.
Proof.
  intros Hd. unfold next_delivery_lease_delay. rewrite run_gets_bind.
  assert (∀ (r : delivery_row) now', dl_status r = DlDelivering → claimable now' r = expired now' (dl_expires r)) as Hcl
    by (intros r now' E; unfold claimable; by rewrite E).
  destruct (head _) as [r|] eqn:E.
  - apply order_by_head in E as [[Hr Hst%bool_decide_eq_true]%elem_of_select Hmin];
      [|apply earliest_total|apply earliest_trans].
    destruct (eo_deliveries _ Hd r Hr) as ((_ & Hs) & _). destruct (Hs Hst) as [_ [e He]]. rewrite He.
    eexists. split; [done|]. split; [lia|]. split.
    + exists r. split_and!; [done..|]. rewrite Hcl, He by done. apply Z.leb_le. lia.
    + intros m r' Hm Hlt Hr' Hst'. rewrite Hcl by done.
      destruct (Hmin r') as [-> |Hle]; [by apply elem_of_select; rewrite bool_decide_eq_true_2| |].
      * rewrite He. apply Z.leb_gt. lia.
      * unfold earliest in Hle. rewrite He in Hle. destruct (dl_expires r') as [e'|]; [|done].
        apply Z.leb_le in Hle. apply Z.leb_gt. lia.
  - apply order_by_head_None in E. eexists. split; [done|]. intros r Hr Hst.
    assert (r ∈ select (λ r, dl_status r == DlDelivering) (xd_outbox d)) as Hs
      by (apply elem_of_select; by rewrite bool_decide_eq_true_2).
    rewrite E in Hs. by apply elem_of_nil in Hs.
Qed.

(** The delay the drain loop sleeps for is exact: there is none when no
    delivery is under way; otherwise a delivery under way can be taken over
    when the delay has passed, and none can before. *)
Theorem lease_delay_exact calls now :
  Forall exec_call_valid calls →
  let d := run_exec calls no_executions in
  ∃ o, next_delivery_lease_delay now d = (d, Ok o) ∧
  match o with
  | None => ∀ r, r ∈ xd_outbox d → dl_status r ≠ DlDelivering
  | Some n => 0 ≤ n ∧
      (∃ r, r ∈ xd_outbox d ∧ dl_status r = DlDelivering ∧ claimable (now + n) r = true) ∧
      ∀ m r, 0 ≤ m → m < n → r ∈ xd_outbox d → dl_status r = DlDelivering → claimable (now + m) r = false
  end.
Proof.
  intros Hcalls. cbv zeta. destruct (run_exec_ok calls no_executions no_executions_ok Hcalls) as [Hd _].
  exact (lease_delay_run now _ Hd).
Qed.
End Calls.

(** ** Concrete runs *)

Definition sample_firing_trigger : trigger_spec :=
  RevisionRow "acme" "daily" 1
    (TriggerSpecWrite "Daily" (IntervalTrigger 60) Private (AgentSpecRef "acme" "routine" 1) "Report."
       (DeliverySpec ToOwner None) true None None []) "" 0 "owner".
Definition sample_context : run_context :=
  AgentRunContext "acme" "scheduler" "trigger:daily" "routine" "routine" "trigger:daily:r1"
    (OriginRef "trigger" "daily" None None) (AgentSpecRef "acme" "routine" 1) BackgroundTrust.
Definition sample_snapshot : snapshot :=
  AgentRunSnapshot "run_1" sample_context SnapCompleted "Done." "" [] "" "" None.
Definition sample_calls : list (exec_call) :=
  [CallClaim sample_firing_trigger "k1" 100 "lease_1" 10;
   CallFinish sample_firing_trigger "k1" "lease_1" ExCompleted (Some "run_1")
     (Some (sample_snapshot, ModeOwner)) 20].
Definition sample_fresh (n : nat) : string := "token_" +:+ pretty (N.of_nat n).

Lemma sample_calls_valid : Forall exec_call_valid sample_calls.
Proof. constructor; [done|]. constructor; [|done]. split; [done|]. by vm_compute. Defined.

(** A second worker is refused at 50 and takes the firing over at 200; a third one
    takes it over at 400, after which the first one's result is refused. *)
Example lease_fences_witness :
  let d := (claim sample_firing_trigger "k1" 100 "lease_1" 10 (no_executions)).1 in
  claim sample_firing_trigger "k1" 100 "lease_2" 50 d = (d, Ok None) ∧
  (finish sample_firing_trigger "k1" "lease_1" ExCompleted None None 60 d).2 = Ok true ∧
  (claim sample_firing_trigger "k1" 100 "lease_2" 200 d).2 = Ok (Some "lease_2") ∧
  let d' := run_exec [CallClaim sample_firing_trigger "k1" 100 "lease_3" 400]
              (claim sample_firing_trigger "k1" 100 "lease_2" 200 d).1 in
  finish sample_firing_trigger "k1" "lease_1" ExCompleted None None 410 d' = (d', Ok false).
Proof.
  destruct (lease_fences [] sample_firing_trigger "k1" 100 "lease_1" 10
    (claim sample_firing_trigger "k1" 100 "lease_1" 10 no_executions).1 "lease_1" []) as (H1 & H2 & H3);
    [constructor|constructor|vm_compute; reflexivity|constructor|].
  split; [apply H1; reflexivity|]. split; [apply H2|].
  destruct (H3 100 "lease_2" 200) as [H H']; [reflexivity|discriminate|discriminate|]. split; [exact H|].
  apply H'; repeat constructor. discriminate.
Defined.

Example firing_settled_once_witness :
  let d := run_exec sample_calls no_executions in
  (∀ lease fresh now', 0 < lease → claim sample_firing_trigger "k1" lease fresh now' d = (d, Ok None)) ∧
  ∃ x, x ∈ xd_outbox d ∧ dl_snapshot x = stored_snapshot sample_snapshot.
Proof.
  pose proof (firing_settled_once [CallClaim sample_firing_trigger "k1" 100 "lease_1" 10] sample_firing_trigger
    "k1" "lease_1" ExCompleted (Some "run_1") (Some (sample_snapshot, ModeOwner)) 20 []) as H.
  cbv zeta in H. destruct H as (H1 & _ & x & Hx & _ & _ & Hs & _);
    [by repeat constructor|constructor|discriminate|by vm_compute|by vm_compute|].
  split; [exact H1|]. exists x. split; [exact Hx|exact Hs].
Defined.

Example deliveries_leased_witness :
  ∃ d1 l, claim_deliveries 60 100 sample_fresh 30 (run_exec sample_calls no_executions) = (d1, Ok l) ∧
    ∀ c now', c ∈ l → (complete_delivery c now' d1).2 = Ok true.
Proof.
  destruct (deliveries_leased sample_calls 60 100 sample_fresh 30 sample_calls_valid)
    as (d1 & l & H1 & _ & H2 & _); [reflexivity|reflexivity|].
  exists d1, l. split; [exact H1|exact H2].
Defined.

Definition sample_claimed : claimed_delivery :=
  ClaimedDelivery 1 (firing_of sample_firing_trigger "k1") ModeOwner (stored_snapshot sample_snapshot) "token_0".

Example delivered_once_witness :
  let completed := complete_delivery sample_claimed 40
    (run_exec (sample_calls ++ [CallClaimDeliveries 60 100 sample_fresh 30]) no_executions) in
  ∃ l, (claim_deliveries 60 100 sample_fresh 500 completed.1).2 = Ok l ∧ cl_id sample_claimed ∉ (cl_id <$> l).
Proof.
  intros completed. exists []. split; [vm_compute; reflexivity|].
  apply (delivered_once (sample_calls ++ [CallClaimDeliveries 60 100 sample_fresh 30])
    sample_claimed 40 []) with (lease := 60) (limit := 100) (fresh := sample_fresh) (now' := 500);
    [|constructor|by vm_compute|vm_compute; reflexivity].
  apply Forall_app. split; [apply sample_calls_valid|by repeat constructor].
Defined.

Example lease_delay_exact_witness :
  ∃ o, next_delivery_lease_delay 35
         (run_exec (sample_calls ++ [CallClaimDeliveries 60 100 sample_fresh 30]) no_executions) =
       (run_exec (sample_calls ++ [CallClaimDeliveries 60 100 sample_fresh 30]) no_executions, Ok o).
Proof.
  destruct (lease_delay_exact (sample_calls ++ [CallClaimDeliveries 60 100 sample_fresh 30]) 35) as (o & H & _).
  - apply Forall_app. split; [apply sample_calls_valid|by repeat constructor].
  - exists o. exact H.
Defined.
