(* ===== verification/Dispatch.v ===== *)
(** * The trigger dispatcher ([TriggerDispatcher] of [specs/dispatcher.py])

    Scheduled and external triggers as runs of the agent service: which trigger
    runs, under which identity, fenced by [Executions], with its result in the
    outbox, and the scheduler jobs that fire it. The agent service, the delivery
    callback and the job table of the scheduler are parameters. *)

From S2P Require Import Prelude Sqlite PyText Sha256 Base64 Clock Json Protocol Contracts Revisions SpecModels Specs Executions.
#[local] Open Scope string_scope.
#[local] Open Scope list_scope.
#[local] Open Scope Z_scope.

(** ** The scheduler *)

(** The triggers of APScheduler a source becomes. *)
Inductive aps_source :=
  | DateTrigger (run_date : datetime)
  | CronTrigger (expression timezone : string)
  | APSIntervalTrigger (seconds : Z).
#[global] Instance aps_source_eq_dec : EqDecision aps_source.
Proof. solve_decision. Defined.

(** One [add_job] of [_run_scheduled] ([max_instances=1], [coalesce=True],
    [misfire_grace_time=1]). *)
Record sched_job := SchedJob {
  jb_id : string;
  jb_source : aps_source;
  jb_tenant : string;
  jb_trigger : string;
  jb_revision : Z;
}.

(** The job table of the scheduler: a job replaces the one with its identifier. *)
Class JobTable (J : Type) := {
  get_jobs : J → list sched_job;
  get_job : string → J → option sched_job;
  add_job : sched_job → J → J;
  remove_job : string → J → J;
}.
Class JobTableLaws (J : Type) {T : JobTable J} : Prop := {
  job_listed : ∀ t j, j ∈ get_jobs t ↔ get_job (jb_id j) t = Some j;
  job_named : ∀ t i j, get_job i t = Some j → jb_id j = i;
  job_added : ∀ t j i, get_job i (add_job j t) = if jb_id j == i then Some j else get_job i t;
  job_removed : ∀ t k i, get_job i (remove_job k t) = if k == i then None else get_job i t;
}.

(** ** Triggers *)

Definition nul : string := String (ascii_of_N 0) EmptyString.
Definition newline : string := String (ascii_of_N 10) EmptyString.

Definition is_event (s : trigger_source) : bool := match s with EventTrigger _ _ _ => true | _ => false end.
Definition is_at (s : trigger_source) : bool := match s with AtTrigger _ _ => true | _ => false end.

(** [_scheduled_fire_key] *)
Definition scheduled_fire_key (s : trigger_source) (now : Z) : outcome string :=
  match s with
  | AtTrigger run_at _ => Ok (utc_isoformat (dt_instant run_at))
  | CronTriggerSpec _ _ => Ok (utc_isoformat (minute_start now))
  | IntervalTrigger every => Ok ("interval:" +:+ pretty (Z.quot now 1000000 / every))
  | EventTrigger _ _ _ => Err (ValueError "event triggers do not have scheduled fire keys")
  end.

(** [_aps_trigger] *)
Definition aps_trigger (s : trigger_source) (now : Z) : option aps_source :=
  match s with
  | EventTrigger _ _ _ => None
  | AtTrigger run_at _ => if dt_instant run_at <=? now then None else Some (DateTrigger run_at)
  | CronTriggerSpec expression timezone => Some (CronTrigger expression timezone)
  | IntervalTrigger every => Some (APSIntervalTrigger every)
  end.

Definition job_prefix (tenant : string) : string :=
  "trigger:" +:+ take_text 16 (sha256_hex tenant) +:+ ":".
Definition job_id (tenant trigger : string) : string := job_prefix tenant +:+ trigger.

(** [try: m finally: h] *)
Definition finally {S A} (m : M S A) (h : M S unit) : M S A := λ s,
  match m s with
  | (s', r) => match h s' with (s'', Ok _) => (s'', r) | (s'', Err e) => (s'', Err e) end
  end.

(** ** The dispatcher *)

Section Dispatcher.
Context {E : SpecEnv} {J : Type} {T : JobTable J}.

(** [dp_tick] counts the readings of the clock, the random draws and the calls
    of the agent service and of the delivery callback; [dp_sent] are the
    requests the agent service got. *)
Record dispatcher := Dispatcher {
  dp_specs : spec_state;
  dp_exec : exec_db;
  dp_jobs : J;
  dp_tick : nat;
  dp_sent : list run_request;
}.
#[global] Instance dispatcher_fields : Fields dispatcher := λ s,
  Dispatcher (dp_specs s) (dp_exec s) (dp_jobs s) (dp_tick s) (dp_sent s).

(** What the [n]th draw yields. *)
Variable clock : nat → Z.
Variable uuid : nat → string.
Variable agent : nat → run_request → outcome (snapshot).
Variable deliver : option (nat → trigger_spec → snapshot → mode → outcome unit).
Variable delivery_lease : Z.

Definition draw : M dispatcher nat :=
  n ← gets dp_tick; modify (λ s, s <| dp_tick := S n |>);; mret n.
Definition on_specs {A} : M spec_state A → M dispatcher A :=
  zoom dp_specs (λ x s, s <| dp_specs := x |>).
Definition on_exec {A} : M (exec_db) A → M dispatcher A :=
  zoom dp_exec (λ x s, s <| dp_exec := x |>).
Definition on_jobs (f : J → J) : M dispatcher unit := modify (λ s, s <| dp_jobs := f (dp_jobs s) |>).

(** One claimed delivery; [true] when it waits for a retry. *)
Definition deliver_one (send : nat → trigger_spec → snapshot → mode → outcome unit)
    (c : claimed_delivery) : M dispatcher bool :=
  let f := cl_firing c in
  let retry := (n ← draw; on_exec (retry_delivery c (clock n))) : M dispatcher bool in
  trigger ← on_specs (on_triggers (trigger_get_revision (fi_tenant f) (fi_trigger f) (fi_revision f)));
  match trigger with
  | None => _ ← retry; mret true
  | Some t =>
      n ← draw;
      match send n t (cl_snapshot c) (cl_mode c) with
      | Ok _ => n ← draw; _ ← on_exec (complete_delivery c (clock n)); mret false
      | Err CancelledError => _ ← retry; raise CancelledError
      | Err _ => _ ← retry; mret true
      end
  end.

(** [_drain_deliveries]: one claim after the other until there is nothing left
    or a delivery has to be retried. *)
Fixpoint drain_loop (fuel : nat) (send : nat → trigger_spec → snapshot → mode → outcome unit) :
    M dispatcher bool :=
  match fuel with
  | O => raise (OtherException "OutOfFuel" "")
  | S fuel' =>
      n ← draw;
      claimed ← on_exec (claim_deliveries delivery_lease 100 (λ i, uuid (n + i)) (clock n));
      if bool_decide (claimed = []) then mret false
      else
        retries ← collect claimed (deliver_one send);
        if existsb id retries then mret true else drain_loop fuel' send
  end.
Definition drain_deliveries : M dispatcher bool :=
  match deliver with
  | None => mret false
  | Some send => rows ← gets (λ s, length (xd_outbox (dp_exec s))); drain_loop (S rows) send
  end.

(** One round of the loop of [_drain_deliveries_on_start], which runs until no
    delay is left: how long it sleeps, in microseconds, and its next retry
    delay. *)
Definition drain_round (retry_base retry_max retry_delay : Z) : M dispatcher (option (Z * Z)) :=
  retry_pending ← drain_deliveries;
  n ← draw;
  lease_delay ← on_exec (next_delivery_lease_delay (clock n));
  let retries := if retry_pending : bool then [retry_delay] else [] in
  let next := if retry_pending then Z.min (retry_delay * 2) retry_max else retry_base in
  let leases := match lease_delay with Some d => [Z.max 10000 (d + 10000)] | None => [] end in
  match retries ++ leases with
  | [] => mret None
  | d :: delays => mret (Some (foldr Z.min d delays, next))
  end.

(** [_execute] *)
Definition event_digest (key : string) : string := take_text 24 (sha256_hex key).
Definition firing_digest (t : trigger_spec) (key : string) : string :=
  sha256_hex (rv_tenant t +:+ nul +:+ rv_id t +:+ nul +:+ pretty (rv_revision t) +:+ nul +:+ key).
Definition trust_of (i : isolation) : trust_class := if i == External then ExternalTrust else BackgroundTrust.

Definition execution_context (t : trigger_spec) (spec : agent_spec) (key actor : string) (origin : origin_ref) :
    run_context :=
  let w := rv_content t in
  AgentRunContext (rv_tenant t) actor ("trigger:" +:+ rv_id t +:+ ":" +:+ event_digest key)
    (if trust_of (tw_exposure w) == ExternalTrust then "intake" else "routine")
    (aw_runtime_profile (rv_content spec))
    ("trigger:" +:+ rv_id t +:+ ":r" +:+ pretty (rv_revision t) +:+ ":" +:+ event_digest key)
    origin (tw_agent_spec w) (trust_of (tw_exposure w)).

Definition failed_snapshot (t : trigger_spec) (key : string) (c : run_context) : snapshot :=
  AgentRunSnapshot ("trigger-failure-" +:+ take_text 24 (firing_digest t key)) c SnapFailed ""
    "The trigger run failed before producing a result." [] "" "" None.

(** The run of the agent service, any exception of which is a failed snapshot. *)
Definition run_agent (r : run_request) (failed : snapshot) : M dispatcher (snapshot) :=
  match check_request r with
  | Err _ => mret failed
  | Ok r =>
      n ← draw;
      modify (λ s, s <| dp_sent := dp_sent s ++ [r] |>);;
      match agent n r with
      | Ok s => mret s
      | Err CancelledError => raise CancelledError
      | Err _ => mret failed
      end
  end.

Definition execution_result (s : snapshot) : execution_status :=
  match sn_status s with
  | SnapCompleted => ExCompleted
  | SnapInterrupted => ExInterrupted
  | _ => ExFailed
  end.
Definition undelivered_status (s : snapshot) : bool :=
  (sn_status s == SnapInterrupted) || (sn_status s == SnapFailed).
Definition execution_delivery (t : trigger_spec) (s : snapshot) : option (snapshot * mode) :=
  let m := ds_mode (tw_delivery (rv_content t)) in
  if negb (m == NoDelivery) || undelivered_status s then
    Some (s, if undelivered_status s then ModeOwner else if m == ToOrigin then ModeOrigin else ModeOwner)
  else None.

Definition execution_lease (spec : agent_spec) : Z := (aw_max_runtime_seconds (rv_content spec) + 60) * 1000000.

Definition execute (t : trigger_spec) (key instruction actor : string) (origin : origin_ref) :
    M dispatcher (option (snapshot)) :=
  _ ← drain_deliveries;
  spec ← on_specs (on_agents (agent_get_revision (tw_agent_spec (rv_content t))));
  match spec with
  | None => mret None
  | Some spec =>
      if negb (aw_isolation (rv_content spec) == tw_exposure (rv_content t)) then mret None
      else
        n ← draw;
        lease ← on_exec (claim t key (execution_lease spec) (uuid n) (clock n));
        match lease with
        | None => mret None
        | Some token =>
            match validate_context (execution_context t spec key actor origin) with
            | None => raise (ValidationError "AgentRunContext")
            | Some context =>
                snap ← run_agent (AgentRunRequest context instruction []
                           (Some ("trigger:" +:+ rv_id t +:+ ":" +:+ firing_digest t key)))
                         (failed_snapshot t key context);
                n ← draw;
                _ ← on_exec (finish t key token (execution_result snap) (Some (sn_run snap))
                               (execution_delivery t snap) (clock n));
                _ ← drain_deliveries;
                mret (Some snap)
            end
        end
  end.

(** [_disable_one_off] *)
Definition disabled_write (w : trigger_write) : trigger_write :=
  TriggerSpecWrite (tw_name w) (tw_source w) (tw_exposure w) (tw_agent_spec w) (tw_instruction w)
    (tw_delivery w) false (tw_source_key w) ((λ n, n + 1) <$> tw_source_revision w) (tw_labels w).
Definition superseded (e : exn) : option (M dispatcher unit) :=
  match e with SpecConflictError _ | SpecNotFoundError _ => Some (mret tt) | _ => None end.

Definition disable_one_off (t : trigger_spec) : M dispatcher unit :=
  active ← on_specs (on_triggers (trigger_get_active (rv_tenant t) (rv_id t)));
  match active with
  | None => mret tt
  | Some a =>
      if negb (rv_revision a =? rv_revision t) || negb (tw_enabled (rv_content a)) then mret tt
      else
        w ← from_outcome (validate_trigger_write (rv_content t));
        try_except (
          n ← draw;
          disabled ← on_specs (trigger_create (rv_tenant t) (rv_id t) (disabled_write w)
                                 (Some (rv_revision t)) "scheduler" (clock n));
          n ← draw;
          _ ← on_specs (on_triggers (trigger_activate (rv_tenant t) (rv_id t) (rv_revision disabled)
                 (Some (rv_revision t)) "scheduler" (clock n)));
          mret tt) superseded
  end.

Definition run_scheduled (tenant trigger : string) (revision : Z) : M dispatcher unit :=
  active ← on_specs (on_triggers (trigger_get_active tenant trigger));
  match active with
  | None => mret tt
  | Some t =>
      let w := rv_content t in
      if negb (tw_enabled w) || negb (rv_revision t =? revision) || is_event (tw_source w) then mret tt
      else
        finally (
          n ← draw;
          key ← from_outcome (scheduled_fire_key (tw_source w) (clock n));
          _ ← execute t key (tw_instruction w) "scheduler" (OriginRef "trigger" (rv_id t) None None);
          mret tt)
          (if is_at (tw_source w) then disable_one_off t else mret tt)
  end.

Definition event_instruction (instruction payload : string) : string :=
  if payload == "{}" then instruction
  else instruction +:+ newline +:+ newline +:+ "Authenticated event payload:" +:+ newline +:+ payload.

Definition dispatch_event (tenant trigger event_id event_type source : string) (authenticated : bool)
    (payload : list (string * json)) : M dispatcher (option (snapshot)) :=
  active ← on_specs (on_triggers (trigger_get_active tenant trigger));
  match active with
  | None => mret None
  | Some t =>
      match tw_enabled (rv_content t), tw_source (rv_content t) with
      | true, EventTrigger event_type' source' auth =>
          if negb (event_type' == event_type) || negb (source' == source) then mret None
          else
            unless (negb (auth == AuthRequired) || authenticated)
              (PermissionError "authenticated trigger event is required");;
            let rendered := dumps false (JObj payload) in
            unless (Z.of_nat (length (utf8 rendered)) <=? 1000000)
              (ValueError "trigger event payload exceeds the size limit");;
            match validate_origin (OriginRef source (rv_id t) None (Some (take_text 200 event_id))) with
            | None => raise (ValidationError "OriginRef")
            | Some origin =>
                execute t event_id (event_instruction (tw_instruction (rv_content t)) rendered)
                  ("event:" +:+ source) origin
            end
      | _, _ => mret None
      end
  end.

(** ** Scheduler jobs *)

Definition remove (tenant trigger : string) : M dispatcher unit :=
  let i := job_id tenant trigger in
  job ← gets (λ s, get_job i (dp_jobs s));
  match job with Some _ => on_jobs (remove_job i) | None => mret tt end.

Definition upsert (t : trigger_spec) : M dispatcher unit :=
  n ← draw;
  match tw_enabled (rv_content t), aps_trigger (tw_source (rv_content t)) (clock n) with
  | true, Some source =>
      on_jobs (add_job (SchedJob (job_id (rv_tenant t) (rv_id t)) source (rv_tenant t) (rv_id t) (rv_revision t)))
  | _, _ => remove (rv_tenant t) (rv_id t)
  end.

Definition sync_tenant (tenant : string) : M dispatcher unit :=
  current ← on_specs (on_triggers (trigger_list_active tenant));
  let prefix := job_prefix tenant in
  jobs ← gets (λ s, get_jobs (dp_jobs s));
  for_each jobs (λ j,
    if startswith prefix (jb_id j) && negb (bool_decide (removeprefix prefix (jb_id j) ∈ rv_id <$> current))
    then on_jobs (remove_job (jb_id j)) else mret tt);;
  for_each current upsert.
End Dispatcher.

(** ** Running the pieces *)

Section Runs.
Context {E : SpecEnv} {Laws : SpecEnvLaws E} {J : Type} {T : JobTable J}.
Implicit Types (s : dispatcher (J := J)).

Lemma run_draw_bind {A} (k : nat → M dispatcher A) s :
  (draw ≫= k) s = k (dp_tick s) (s <| dp_tick := S (dp_tick s) |>).
Proof. done. Qed.

Lemma run_on_exec_bind {A B} (m : M (exec_db) A) (k : A → M dispatcher B) s :
  (on_exec m ≫= k) s =
    match m (dp_exec s) with
    | (d, Ok a) => k a (s <| dp_exec := d |>)
    | (d, Err e) => (s <| dp_exec := d |>, Err e)
    end.
Proof. unfold on_exec, zoom. rewrite run_bind. by destruct (m (dp_exec s)) as [d [a|e]]. Qed.

Lemma set_specs_same s : s <| dp_specs := dp_specs s |> = s.
Proof. by destruct s. Qed.
Lemma set_exec_same s : s <| dp_exec := dp_exec s |> = s.
Proof. by destruct s. Qed.

Record dispatcher_ok s : Prop := {
  do_specs : spec_state_ok (dp_specs s);
  do_exec : exec_ok (dp_exec s);
}.

(** Reading a trigger or an agent. *)
Lemma run_trigger_revision_bind {A} t i n (k : option trigger_spec → M dispatcher A) s :
  dispatcher_ok s →
  (on_specs (on_triggers (trigger_get_revision t i n)) ≫= k) s =
    k (revision_at t i n (st_triggers (dp_specs s))) s.
Proof.
  intros [Hs _]. unfold on_specs, on_triggers, zoom, trigger_get_revision. rewrite run_bind.
  rewrite get_revision_run by apply Hs. by destruct s as [[] ? ? ? ?].
Qed.

Lemma run_active_bind {A} t i (k : option trigger_spec → M dispatcher A) s :
  dispatcher_ok s →
  (on_specs (on_triggers (trigger_get_active t i)) ≫= k) s = k (active_trigger t i (st_triggers (dp_specs s))) s.
Proof.
  intros [Hs _]. unfold on_specs, on_triggers, zoom. rewrite run_bind.
  rewrite trigger_get_active_run by apply Hs. by destruct s as [[] ? ? ? ?].
Qed.

Lemma run_agent_revision_bind {A} ref (k : option agent_spec → M dispatcher A) s :
  dispatcher_ok s →
  (on_specs (on_agents (agent_get_revision ref)) ≫= k) s =
    k (revision_at (ar_tenant ref) (ar_spec ref) (ar_revision ref) (st_agents (dp_specs s))) s.
Proof.
  intros [Hs _]. unfold on_specs, on_agents, zoom, agent_get_revision. rewrite run_bind.
  rewrite get_revision_run by apply Hs. by destruct s as [[] ? ? ? ?].
Qed.

Lemma active_trigger_stored t i d r :
  active_trigger t i d = Some r → r ∈ sp_revisions d ∧ rv_tenant r = t ∧ rv_id r = i ∧
    active_revision t i d = Some (rv_revision r).
Proof.
  unfold active_trigger. destruct (active_revision t i d) as [n|]; [|done]. simpl.
  intros [Hr [[Ht Hi] Hn]%at_revision_true]%select_one_Some. subst. done.
Qed.

(** *** Closing one delivery *)

Definition unclosed (d : exec_db) : nat :=
  rowcount (λ r, negb (dl_status r == DlDelivered)) (xd_outbox d).

Lemma rowcount_fmap {R} (p : R → bool) (g : R → R) (t : list R) :
  rowcount p (g <$> t) = rowcount (λ r, p (g r)) t.
Proof.
  unfold rowcount, select. change (g <$> t) with (map g t).
  induction t as [|r t IH]; [done|]. simpl. destruct (p (g r)); simpl; by rewrite IH.
Qed.

Lemma rowcount_minus {R K} `{EqDecision K} (k : R → K) (p q : R → bool) (t : list R) r :
  unique k t → r ∈ t → p r = true → q r = false → (∀ r', r' ∈ t → k r' ≠ k r → p r' = q r') →
  rowcount p t = S (rowcount q t).
Proof.
  unfold rowcount, select. induction t as [|x t IH]; [set_solver|]. intros [Hx Hu]%NoDup_cons Hr Hp Hq Hpq.
  assert (∀ t', (∀ r', r' ∈ t' → p r' = q r') → List.filter p t' = List.filter q t') as Hext.
  { induction t' as [|y t' IH']; intros H; [done|]. simpl. rewrite (H y) by set_solver.
    by rewrite IH' by set_solver. }
  apply elem_of_cons in Hr as [<-|Hr]; simpl.
  - rewrite Hp, Hq. simpl. do 2 f_equal. apply Hext. intros r' Hr'. apply Hpq; [set_solver|].
    intros E1. apply Hx. rewrite <- E1. by apply list_elem_of_fmap_2.
  - rewrite (Hpq x); [|set_solver|intros E1; apply Hx; rewrite E1; by apply list_elem_of_fmap_2].
    assert (length (List.filter p t) = S (length (List.filter q t))) as IH'
      by (apply IH; [done..|]; intros; apply Hpq; [set_solver|done]).
    destruct (q x); simpl; by rewrite IH'.
Qed.

Definition closing (status : delivery_status) (c : claimed_delivery) (now : Z)
    (d : exec_db) : exec_db :=
  set_outbox (λ r, if holds_delivery c r then closed status now r else r) d.

Lemma held_delivery c (d : exec_db) :
  exec_ok d → delivery_held c d = true ↔
  ∃ r, r ∈ xd_outbox d ∧ dl_id r = cl_id c ∧ dl_status r = DlDelivering ∧ dl_lease r = Some (cl_lease c).
Proof.
  intros Hd. unfold delivery_held. rewrite exists_row_true. unfold holds_delivery.
  setoid_rewrite andb_true_iff. setoid_rewrite andb_true_iff. setoid_rewrite Z.eqb_eq.
  setoid_rewrite bool_decide_eq_true. naive_solver.
Qed.

Lemma closing_held c c' status now (d : exec_db) :
  exec_ok d → delivery_held c' d = true → cl_id c' ≠ cl_id c →
  delivery_held c' (closing status c now d) = true.
Proof.
  intros Hd Hh Hne. unfold delivery_held in *. apply exists_row_true in Hh as (r & Hr & Hc).
  apply exists_row_true. exists r. split; [|done]. apply list_elem_of_fmap. exists r. split; [|done].
  destruct (holds_delivery c r) eqn:E1; [|done]. exfalso. unfold holds_delivery in *.
  rewrite !andb_true_iff, !Z.eqb_eq in *. intuition congruence.
Qed.

Lemma closing_unclosed c now (d : exec_db) :
  exec_ok d → delivery_held c d = true → unclosed d = S (unclosed (closing DlDelivered c now d)).
Proof.
  intros Hd (r & Hr & Hid & Hst & Hl)%held_delivery; [|done]. unfold unclosed, closing. simpl.
  rewrite rowcount_fmap. apply (rowcount_minus dl_id _ _ _ r); [apply Hd|done|by rewrite Hst| |].
  - assert (holds_delivery c r = true) as ->; [|done].
    unfold holds_delivery. by rewrite Hid, Hst, Hl, Z.eqb_refl, !bool_decide_eq_true_2.
  - intros r' _ Hne. destruct (holds_delivery c r') eqn:E1; [|done]. exfalso. unfold holds_delivery in E1.
    rewrite !andb_true_iff, Z.eqb_eq in E1. intuition congruence.
Qed.

Lemma claiming_unclosed lease now l (d : exec_db) :
  (∀ r p, r ∈ xd_outbox d → p ∈ l → dl_id p.1 = dl_id r → dl_status r ≠ DlDelivered) →
  unclosed (set_outbox (lease_of lease now l) d) = unclosed d.
Proof.
  intros H. unfold unclosed. simpl. rewrite rowcount_fmap. apply rowcount_ext. intros r Hr.
  unfold lease_of. destruct (select_one _ l) as [p|] eqn:E1; [|done].
  apply select_one_Some in E1 as [Hp E1%Z.eqb_eq]. simpl. symmetry. apply negb_true_iff, bool_decide_eq_false.
  by apply (H r p).
Qed.

Lemma closing_ok c status now (d : exec_db) :
  exec_ok d → status ≠ DlDelivering → exec_ok (closing status c now d) ∧ exec_advance d (closing status c now d).
Proof.
  intros Hd Hst. pose proof (close_delivery_ok status c now d Hd Hst) as H.
  by rewrite close_delivery_run in H.
Qed.

(** A delivery changes one row of the outbox and nothing else of the dispatcher. *)
Definition with_exec (d : exec_db) (tick : nat) s : dispatcher :=
  Dispatcher (dp_specs s) d (dp_jobs s) tick (dp_sent s).

Variable clock : nat → Z.
Variable uuid : nat → string.
Variable delivery_lease : Z.

Lemma deliver_one_cases send c s :
  dispatcher_ok s →
  ∃ status now tick o,
    deliver_one clock send c s = (with_exec (closing status c now (dp_exec s)) tick s, o) ∧
    (status = DlDelivered ∧ o = Ok false ∨ status = DlPending ∧ (o = Ok true ∨ o = Err CancelledError)).
Proof.
  intros Hs. unfold deliver_one. cbv zeta. rewrite run_trigger_revision_bind by done.
  destruct (revision_at _ _ _ _) as [t|].
  - rewrite run_draw_bind. destruct (send _ _ _ _) as [[]|e].
    + rewrite run_draw_bind, run_on_exec_bind. unfold complete_delivery. rewrite close_delivery_run by apply Hs.
      exists DlDelivered. do 3 eexists. split; [done|]. by left.
    + exists DlPending. destruct e; do 3 eexists;
        (split; [rewrite run_bind_assoc, run_draw_bind, run_on_exec_bind; unfold retry_delivery;
                 rewrite close_delivery_run by apply Hs; reflexivity|by auto]).
  - exists DlPending. do 3 eexists.
    split; [rewrite run_bind_assoc, run_draw_bind, run_on_exec_bind; unfold retry_delivery;
            rewrite close_delivery_run by apply Hs; reflexivity|by auto].
Qed.

Lemma closing_kept c status now (d : exec_db) r :
  exec_ok d → r ∈ xd_outbox d → dl_id r ≠ cl_id c → r ∈ xd_outbox (closing status c now d).
Proof.
  intros Hd Hr Hne. apply list_elem_of_fmap. exists r. split; [|done].
  unfold holds_delivery. by rewrite (proj2 (Z.eqb_neq _ _) Hne).
Qed.

Lemma closing_pending c now (d : exec_db) :
  exec_ok d → delivery_held c d = true →
  ∃ r, r ∈ xd_outbox (closing DlPending c now d) ∧ dl_id r = cl_id c ∧ dl_status r = DlPending.
Proof.
  intros Hd (r & Hr & Hid & Hst & Hl)%held_delivery; [|done]. exists (closed DlPending now r).
  split; [|done]. apply list_elem_of_fmap. exists r. split; [|done].
  unfold holds_delivery. by rewrite Hid, Hst, Hl, Z.eqb_refl, !bool_decide_eq_true_2.
Qed.

(** One pass over what a claim handed out. *)
Lemma delivery_pass send (l : list (claimed_delivery)) s :
  dispatcher_ok s → NoDup (cl_id <$> l) → (∀ c, c ∈ l → delivery_held c (dp_exec s) = true) →
  ∃ d tick o, collect l (deliver_one clock send) s = (with_exec d tick s, o) ∧
    exec_ok d ∧ exec_advance (dp_exec s) d ∧
    (∀ r, r ∈ xd_outbox (dp_exec s) → dl_id r ∉ (cl_id <$> l) → r ∈ xd_outbox d) ∧
    match o with
    | Ok flags =>
        if existsb id flags then ∃ r, r ∈ xd_outbox d ∧ dl_id r ∈ (cl_id <$> l) ∧ dl_status r = DlPending
        else unclosed (dp_exec s) = (length l + unclosed d)%nat
    | Err e => e = CancelledError
    end.
Proof.
  revert s. induction l as [|c l IH]; intros s Hs Hnd Hl.
  - exists (dp_exec s), (dp_tick s), (Ok []). split; [by destruct s|]. split; [apply Hs|].
    split; [apply exec_advance_refl|]. by split.
  - apply NoDup_cons in Hnd as [Hni Hnd]. assert (delivery_held c (dp_exec s) = true) as Hc by (apply Hl; set_solver).
    destruct (deliver_one_cases send c s Hs) as (status & now & tick & o & Hrun & Ho).
    assert (status ≠ DlDelivering) as Hst by (destruct Ho as [[-> _]|[-> _]]; done).
    destruct (closing_ok c status now (dp_exec s) (do_exec _ Hs) Hst) as [Hd1 Ha1].
    set (d1 := closing status c now (dp_exec s)) in *. cbn [collect].
    rewrite run_bind, Hrun. destruct o as [retry|e].
    2: { exists d1, tick, (Err e). split; [done|]. split; [done|]. split; [done|]. split.
         - intros r Hr Hnr. apply closing_kept; [apply Hs|done|]. intros E1. apply Hnr. rewrite E1. set_solver.
         - by destruct Ho as [[_ ?]|[_ [?|[= ->]]]]. }
    destruct (IH (with_exec d1 tick s)) as (d2 & tick2 & o2 & Hrun2 & Hd2 & Ha2 & Hk2 & Ho2).
    { split; [apply Hs|done]. }
    { done. }
    { intros c' Hc'. apply closing_held; [apply Hs|apply Hl; set_solver|]. intros E1. apply Hni. rewrite <- E1.
      by apply list_elem_of_fmap_2. }
    simpl in *. rewrite run_bind, Hrun2.
    exists d2, tick2, (match o2 with Ok ys => Ok (retry :: ys) | Err e => Err e end).
    split; [by destruct o2|]. split; [done|]. split; [by eapply exec_advance_trans|]. split.
    { intros r Hr Hnr. apply Hk2; [|set_solver]. apply closing_kept; [apply Hs|done|set_solver]. }
    destruct o2 as [ys|e]; [|done]. simpl. destruct Ho as [[-> [= ->]]|[-> [[= ->]|?]]]; [| |done]; simpl.
    + destruct (existsb id ys); [destruct Ho2 as (r & Hr & Hid & Hrst); exists r; set_solver|].
      rewrite (closing_unclosed c now) by (done || apply Hs). fold d1. lia.
    + destruct (closing_pending c now (dp_exec s)) as (r & Hr & Hid & Hrst); [apply Hs|done|].
      exists r. split; [|split; [rewrite Hid; set_solver|done]]. apply Hk2; [done|]. by rewrite Hid.
Qed.

Lemma nothing_offered limit now (d : exec_db) :
  0 < limit → offered limit now d = [] → ∀ r, r ∈ xd_outbox d → claimable now r = false.
Proof.
  unfold offered. intros Hl H r Hr. apply not_true_is_false. intros Hc.
  assert (r ∈ order_by id_ascending (select (claimable now) (xd_outbox d))) as Hin
    by (rewrite (order_by_perm id_ascending); by apply elem_of_select).
  destruct (order_by _ _) as [|x l]; [by apply elem_of_nil in Hin|].
  destruct (Z.to_nat limit) eqn:E1; [lia|done].
Qed.

Lemma with_exec_twice d d' tick tick' s : with_exec d' tick' (with_exec d tick s) = with_exec d' tick' s.
Proof. done. Qed.

(** What a drain leaves behind. *)
Definition drained (d : exec_db) (o : outcome bool) : Prop :=
  match o with
  | Ok false => ∃ now, ∀ r, r ∈ xd_outbox d → claimable now r = false
  | Ok true => ∃ r, r ∈ xd_outbox d ∧ dl_status r = DlPending
  | Err e => e = CancelledError
  end.

Lemma drain_loop_run fuel send s :
  dispatcher_ok s → 0 < delivery_lease → (unclosed (dp_exec s) < fuel)%nat →
  ∃ d tick o, drain_loop clock uuid delivery_lease fuel send s = (with_exec d tick s, o) ∧
    exec_ok d ∧ exec_advance (dp_exec s) d ∧ drained d o.
Proof.
  revert s. induction fuel as [|fuel IH]; intros s Hs Hle Hfuel; [lia|]. cbn [drain_loop].
  rewrite run_draw_bind, run_on_exec_bind. set (n := dp_tick s).
  change (dp_exec (s <| dp_tick := S n |>)) with (dp_exec s). set (d := dp_exec s) in *.
  destruct (claim_deliveries_run delivery_lease 100 (λ i, uuid (n + i)) (clock n) d (do_exec _ Hs) Hle ltac:(lia))
    as (-> & Hd1 & Ha1).
  set (l := leases 100 (λ i, uuid (n + i)) (clock n) d) in *. set (d1 := set_outbox _ d) in *.
  destruct (decide (claimed_as <$> l = [])) as [Hnil|Hne].
  - rewrite bool_decide_eq_true_2 by done. exists d1, (S n), (Ok false).
    split; [done|]. split; [done|]. split; [done|]. exists (clock n).
    assert (offered 100 (clock n) d = []) as Ho.
    { rewrite <- (leases_fst 100 (λ i, uuid (n + i))). fold l. by apply fmap_nil_inv in Hnil as ->. }
    intros r (x & -> & Hx)%list_elem_of_fmap. apply fmap_nil_inv in Hnil. rewrite Hnil.
    by apply (nothing_offered 100 _ d).
  - rewrite bool_decide_eq_false_2 by done.
    set (s1 := s <| dp_tick := S n |> <| dp_exec := d1 |>).
    assert (dispatcher_ok s1) as Hs1 by (split; [apply Hs|done]).
    destruct (delivery_pass send (claimed_as <$> l) s1) as (d2 & tick2 & o2 & Hrun & Hd2 & Ha2 & _ & Ho2); [done| | |].
    { rewrite <- list_fmap_compose. apply (leases_NoDup 100 _ _ d), Hs. }
    { intros c Hc. by apply leases_held; [apply Hs|]. }
    rewrite run_bind, Hrun. destruct o2 as [flags|e].
    2: { exists d2, tick2, (Err e). split; [done|]. split; [done|]. split; [by eapply exec_advance_trans|done]. }
    destruct (existsb id flags).
    + destruct Ho2 as (r & Hr & _ & Hst). exists d2, tick2, (Ok true).
      split; [done|]. split; [done|]. split; [by eapply exec_advance_trans|by exists r].
    + destruct (IH (with_exec d2 tick2 s1)) as (d3 & tick3 & o3 & Hrun3 & Hd3 & Ha3 & Ho3).
      { split; [apply Hs|done]. }
      { done. }
      { simpl in *. assert (unclosed d1 = unclosed d) as Hu.
        { apply claiming_unclosed. intros r p Hr Hp Hid Hst.
          apply leases_offered, offered_claimable in Hp as [Hp Hpc].
          rewrite (same_delivery d p.1 r) in Hst by (done || apply Hs). unfold claimable in Hpc. by rewrite Hst in Hpc. }
        rewrite Hu, length_fmap in Ho2. destruct l as [|? l0]; [done|]. simpl in Ho2. lia. }
      exists d3, tick3, o3. split; [exact Hrun3|]. split; [done|].
      split; [|done]. eapply exec_advance_trans; [exact Ha1|]. by eapply exec_advance_trans.
Qed.

Lemma unclosed_bound (d : exec_db) : (unclosed d ≤ length (xd_outbox d))%nat.
Proof. apply filter_length_le. Qed.

Variable deliver : option (nat → trigger_spec → snapshot → mode → outcome unit).
Hypothesis lease_positive : 0 < delivery_lease.

Lemma drain_run s :
  dispatcher_ok s →
  ∃ d tick o, drain_deliveries clock uuid deliver delivery_lease s = (with_exec d tick s, o) ∧
    exec_ok d ∧ exec_advance (dp_exec s) d ∧
    match deliver with Some _ => drained d o | None => o = Ok false end.
Proof.
  intros Hs. unfold drain_deliveries. destruct deliver as [send|].
  - rewrite run_gets_bind. apply drain_loop_run; [done..|].
    pose proof (unclosed_bound (dp_exec s)). lia.
  - exists (dp_exec s), (dp_tick s), (Ok false). split; [by destruct s|]. split; [apply Hs|].
    split; [apply exec_advance_refl|done].
Qed.

Variable agent : nat → run_request → outcome (snapshot).
(** The agent service returns snapshot objects. *)
Hypothesis agent_valid : ∀ n r x, agent n r = Ok x → snapshot_valid x.

Definition sent_with (l : list run_request) tick s : dispatcher :=
  Dispatcher (dp_specs s) (dp_exec s) (dp_jobs s) tick l.

Lemma run_agent_cases r failed s :
  snapshot_valid failed →
  ∃ l tick o, run_agent agent r failed s = (sent_with l tick s, o) ∧
    (l = dp_sent s ∨ l = dp_sent s ++ [r]) ∧
    match o with Ok x => snapshot_valid x | Err e => e = CancelledError end.
Proof.
  intros Hf. unfold run_agent. destruct (check_request r) as [r'|e] eqn:Hr.
  - apply check_request_Ok in Hr as ->.
    rewrite run_draw_bind, run_modify_bind. destruct (agent _ r) as [x|e] eqn:Hx.
    + do 3 eexists. split; [reflexivity|]. split; [by right|]. by eapply agent_valid.
    + destruct e; (do 3 eexists; split; [reflexivity|split; [by right|done]]).
  - exists (dp_sent s), (dp_tick s), (Ok failed). split; [by destruct s|]. split; [by left|done].
Qed.

(** The only request an execution can send. *)
Record execution_request (t : trigger_spec) (key instruction actor : string) (origin : origin_ref)
    (agents : agent_db) (r : run_request) : Prop := {
  xr_agent : ∃ spec, revision_at (ar_tenant (tw_agent_spec (rv_content t))) (ar_spec (tw_agent_spec (rv_content t)))
      (ar_revision (tw_agent_spec (rv_content t))) agents = Some spec ∧
    aw_isolation (rv_content spec) = tw_exposure (rv_content t) ∧
    validate_context (execution_context t spec key actor origin) = Some (rq_context r);
  xr_text : rq_text r = instruction;
  xr_files : rq_files r = [];
  xr_key : rq_key r = Some ("trigger:" +:+ rv_id t +:+ ":" +:+ firing_digest t key);
}.

Definition settled_firing (t : trigger_spec) (key : string) (d : exec_db) : Prop :=
  ∃ e, e ∈ xd_executions d ∧ ex_firing e = firing_of t key ∧ ex_status e ≠ ExRunning.

Abbreviation executes := (execute clock uuid agent deliver delivery_lease).

Lemma execution_status_settled (x : snapshot) : execution_result x ≠ ExRunning.
Proof. unfold execution_result. by destruct (sn_status x). Qed.

Lemma execution_delivery_valid t (x : snapshot) : snapshot_valid x → delivery_valid (execution_delivery t x).
Proof. intros Hx. unfold execution_delivery. by destruct (_ || _). Qed.

Lemma claimed_held t key lease fresh now (d d1 : exec_db) token :
  exec_ok d → claim t key lease fresh now d = (d1, Ok (Some token)) → held (firing_of t key) token d1 = true.
Proof.
  intros Hd H. destruct (claim_Some _ _ _ _ _ _ _ _ Hd H) as (-> & _ & r & Hat & Hst & Hl & _).
  unfold held. by rewrite Hat, Hst, Hl, !bool_decide_eq_true_2.
Qed.

Lemma claim_total t key lease fresh now (d : exec_db) :
  exec_ok d → 0 < lease → ∃ d1 o, claim t key lease fresh now d = (d1, Ok o).
Proof.
  intros Hd Hl. rewrite claim_execution_run by done. destruct (execution_at _ d); [|by do 2 eexists].
  destruct (_ && _); by do 2 eexists.
Qed.

Lemma agent_runtime_positive (d : agent_db) spec :
  specs_ok d → spec ∈ sp_revisions d → 0 < execution_lease spec.
Proof.
  intros Hd Hs. destruct (decode_row_same _ _ (proj1 (sk_rows _ Hd spec Hs))) as (_ & Hv & _).
  unfold execution_lease. revert Hv. simpl. unfold validate_agent_write. repeat (case_match; try done).
  intros Hv. apply validate_isolation_Ok in Hv. apply (f_equal aw_max_runtime_seconds) in Hv. simpl in Hv.
  match goal with H : _ && _ && _ = true |- _ => rewrite !andb_true_iff in H; destruct H as [[_ H] _] end.
  unfold bounded in *. lia.
Qed.

(** A finished dispatcher: what an execution may change, and what it sent. *)
Record execution_effect (t : trigger_spec) (key instruction actor : string) (origin : origin_ref)
    s s' (o : outcome (option (snapshot))) : Prop := {
  xe_specs : dp_specs s' = dp_specs s;
  xe_jobs : dp_jobs s' = dp_jobs s;
  xe_exec : exec_ok (dp_exec s');
  xe_advance : exec_advance (dp_exec s) (dp_exec s');
  xe_sent : dp_sent s' = dp_sent s ∨ ∃ r, dp_sent s' = dp_sent s ++ [r] ∧
    execution_request t key instruction actor origin (st_agents (dp_specs s)) r;
  xe_settled : match o with
    | Ok (Some _) => settled_firing t key (dp_exec s')
    | Ok None => dp_sent s' = dp_sent s
    | Err _ => True
    end;
}.

Lemma settled_advance t key (d d' : exec_db) :
  exec_advance d d' → settled_firing t key d → settled_firing t key d'.
Proof. intros Ha (e & He & Hf & Hs). exists e. split; [by apply (xa_settled _ _ Ha)|done]. Qed.

(** From the lease on. *)
Lemma execute_claimed t key instruction actor origin spec token s :
  dispatcher_ok s →
  revision_at (ar_tenant (tw_agent_spec (rv_content t))) (ar_spec (tw_agent_spec (rv_content t)))
    (ar_revision (tw_agent_spec (rv_content t))) (st_agents (dp_specs s)) = Some spec →
  aw_isolation (rv_content spec) = tw_exposure (rv_content t) →
  held (firing_of t key) token (dp_exec s) = true →
  let call := match validate_context (execution_context t spec key actor origin) with
    | None => raise (ValidationError "AgentRunContext")
    | Some context =>
        snap ← run_agent agent (AgentRunRequest context instruction []
                 (Some ("trigger:" +:+ rv_id t +:+ ":" +:+ firing_digest t key))) (failed_snapshot t key context);
        n ← draw;
        _ ← on_exec (finish t key token (execution_result snap) (Some (sn_run snap))
                       (execution_delivery t snap) (clock n));
        _ ← drain_deliveries clock uuid deliver delivery_lease;
        mret (Some snap)
    end s in
  execution_effect t key instruction actor origin s call.1 call.2.
Proof.
  intros Hs Hspec Hiso Hheld. cbv zeta. destruct (validate_context _) as [ctx|] eqn:Hctx.
  2: { split; try done; [apply Hs|apply exec_advance_refl|by left]. }
  set (request := AgentRunRequest ctx instruction [] _).
  assert (snapshot_valid (failed_snapshot t key ctx)) as Hfail by exact (validate_context_Some _ _ Hctx).
  destruct (run_agent_cases request _ s Hfail) as (l & tick & o & Hrun & Hl & Ho). rewrite run_bind, Hrun.
  assert (l = dp_sent s ∨ ∃ r, l = dp_sent s ++ [r] ∧
    execution_request t key instruction actor origin (st_agents (dp_specs s)) r) as Hsent.
  { destruct Hl as [-> | ->]; [by left|right]. exists request. split; [done|]. split; [|done..]. by exists spec. }
  destruct o as [x|e]; [|split; try done; [apply Hs|apply exec_advance_refl]].
  rewrite run_draw_bind, run_on_exec_bind. simpl. rewrite finish_execution_run by apply Hs. rewrite Hheld.
  destruct (finished_ok (firing_of t key) token (execution_result x) (Some (sn_run x)) (execution_delivery t x)
    (clock tick) (dp_exec s)) as (Hd1 & Ha1 & e & He & Hef & Hes & _);
    [apply Hs|done|apply execution_status_settled|by apply execution_delivery_valid|].
  set (d1 := with_result _ _ _ _) in *. set (s1 := _ <| dp_exec := d1 |>).
  destruct (drain_run s1) as (d2 & tick2 & o2 & Hdr & Hd2 & Ha2 & _); [split; [apply Hs|done]|].
  rewrite run_bind, Hdr. simpl in Ha2. assert (exec_advance (dp_exec s) d2) as Ha by by eapply exec_advance_trans.
  destruct o2 as [b|e2]; (split; try done).
  apply (settled_advance t key d1); [done|]. by exists e.
Qed.

Lemma execute_effect t key instruction actor origin s :
  dispatcher_ok s → let call := executes t key instruction actor origin s in
  execution_effect t key instruction actor origin s call.1 call.2.
Proof.
  intros Hs. cbv zeta. unfold execute. destruct (drain_run s Hs) as (d0 & tick0 & o0 & Hdr & Hd0 & Ha0 & _).
  rewrite run_bind, Hdr. destruct o0 as [b|e]; [|split; try done; by left].
  set (s0 := with_exec d0 tick0 s). assert (dispatcher_ok s0) as Hs0 by (split; [apply Hs|done]).
  assert (∀ s' o, execution_effect t key instruction actor origin s0 s' o →
    execution_effect t key instruction actor origin s s' o) as Hlift.
  { intros s' o [H1 H2 H3 H4 H5 H6]. split; [done..| |done|done]. by eapply exec_advance_trans. }
  apply Hlift. rewrite run_agent_revision_bind by done.
  destruct (revision_at _ _ _ _) as [spec|] eqn:Hspec; [|split; try done; [apply exec_advance_refl|by left]].
  case_bool_decide as Hiso; [|split; try done; [apply exec_advance_refl|by left]].
  cbn [negb]. rewrite run_draw_bind, run_on_exec_bind.
  assert (0 < execution_lease spec) as Hlease.
  { apply (agent_runtime_positive (st_agents (dp_specs s0))); [apply Hs0|].
    by apply select_one_Some in Hspec as [? _]. }
  change (dp_exec (s0 <| dp_tick := _ |>)) with d0.
  destruct (claim_total t key (execution_lease spec) (uuid (dp_tick s0)) (clock (dp_tick s0)) d0 Hd0 Hlease)
    as (d1 & o1 & Hcl).
  destruct (claim_ok t key (execution_lease spec) (uuid (dp_tick s0)) (clock (dp_tick s0)) d0 Hd0) as [Hd1 Ha1].
  rewrite Hcl in Hd1, Ha1 |- *. simpl in Hd1, Ha1.
  destruct o1 as [token|]; [|split; try done; by left].
  set (s1 := _ <| dp_exec := d1 |>). assert (dispatcher_ok s1) as Hs1 by (split; [apply Hs|done]).
  pose proof (execute_claimed t key instruction actor origin spec token s1 Hs1 Hspec Hiso) as H.
  cbv zeta in H. destruct H as [H1 H2 H3 H4 H5 H6].
  { exact (claimed_held _ _ _ _ _ _ _ _ Hd0 Hcl). }
  split; [exact H1|exact H2|exact H3|by eapply exec_advance_trans|exact H5|exact H6].
Qed.

(** *** Events and scheduled runs *)

Lemma active_decoded t i d r :
  specs_ok d → active_trigger t i d = Some r → validate_trigger_write (rv_content r) = Ok (rv_content r).
Proof.
  intros Hd (Hr & _)%active_trigger_stored.
  by destruct (decode_row_same _ _ (proj1 (sk_rows _ Hd r Hr))) as (_ & Hv & _).
Qed.

(** An event changes nothing and is answered at once, or is an execution of
    the active trigger it names. *)
Lemma dispatch_event_cases tenant trigger event ty src auth payload s :
  dispatcher_ok s →
  let call := dispatch_event clock uuid agent deliver delivery_lease tenant trigger event ty src auth payload s in
  (call.1 = s ∧ ∀ x, call.2 ≠ Ok (Some x)) ∨
  ∃ t required instruction origin,
    active_trigger tenant trigger (st_triggers (dp_specs s)) = Some t ∧ tw_enabled (rv_content t) = true ∧
    tw_source (rv_content t) = EventTrigger ty src required ∧ (required = AuthRequired → auth = true) ∧
    call = executes t event instruction ("event:" +:+ src) origin s.
Proof.
  intros Hs. cbv zeta. unfold dispatch_event. rewrite run_active_bind by done.
  destruct (active_trigger _ _ _) as [t|]; [|by left].
  destruct (tw_enabled _) eqn:Hen; [|by left].
  destruct (tw_source _) as [| | |ty' src' required] eqn:Hsrc; [by left..|].
  case_bool_decide as E1; [subst ty'|by left]. case_bool_decide as E2; [subst src'|by left]. cbn [negb orb].
  rewrite run_unless_bind. destruct (negb (required == AuthRequired) || auth) eqn:Hauth; [|by left].
  cbv zeta. rewrite run_unless_bind. destruct (_ <=? _); [|by left].
  destruct (validate_origin _) as [origin|]; [|by left]. right. do 4 eexists.
  split_and!; [done..| |reflexivity]. by intros ->.
Qed.

Lemma event_refused tenant trigger event ty src payload t s :
  dispatcher_ok s → active_trigger tenant trigger (st_triggers (dp_specs s)) = Some t →
  tw_enabled (rv_content t) = true → tw_source (rv_content t) = EventTrigger ty src AuthRequired →
  dispatch_event clock uuid agent deliver delivery_lease tenant trigger event ty src false payload s =
    (s, Err (PermissionError "authenticated trigger event is required")).
Proof.
  intros Hs Ht Hen Hsrc. unfold dispatch_event. rewrite run_active_bind, Ht, Hen, Hsrc by done.
  by rewrite !bool_decide_eq_true_2.
Qed.

(** The write that disables a trigger is valid. *)
Lemma disabled_valid w : validate_trigger_write w = Ok w → validate_trigger_write (disabled_write w) = Ok (disabled_write w).
Proof.
  destruct w as [name source exposure ref instruction delivery enabled key revision labels].
  unfold validate_trigger_write. simpl. destruct (text_field 1 200 name) as [name'|]; [|done].
  destruct (validate_source _) as [source'|]; [|done]. destruct (validate_ref _) as [ref'|]; [|done].
  destruct (text_field 1 200000 _) as [instruction'|]; [|done]. destruct (validate_delivery _) as [delivery'|]; [|done].
  destruct (optional_field _ _) as [key'|]; [|done]. destruct (validate_labels _) as [labels'|]; [|done].
  intros Hv. assert (match (λ n, n + 1) <$> revision with Some n => 1 <=? n | None => true end = true) as ->.
  { destruct revision as [n|]; [|done]. simpl. destruct (Z.leb_spec 1 n); [|done]. apply Z.leb_le. lia. }
  destruct (match revision with Some n => 1 <=? n | None => true end); [|done].
  pose proof (validate_exposure_Ok _ _ Hv) as [= -> -> -> -> -> -> ->].
  revert Hv. unfold validate_exposure. simpl. by destruct exposure, source'; try case_bool_decide.
Qed.

Lemma trigger_activate_run t i n e b now (d : trigger_db) r :
  specs_ok d → revision_at t i n d = Some r →
  trigger_activate t i n e b now d =
    match switch_active t i n e b now d with (d', Ok _) => (d', Ok r) | (_, Err x) => (d, Err x) end.
Proof.
  intros Hd Hr. unfold trigger_activate. rewrite run_transaction, run_gets_bind, Hr, run_outcome_bind.
  apply select_one_Some in Hr as [Hr _]. rewrite (proj1 (sk_rows _ Hd r Hr)), run_bind.
  by destruct (switch_active _ _ _ _ _ _ d) as [d' [[]|x]].
Qed.

Definition with_specs (d : spec_state) (tick : nat) s : dispatcher :=
  Dispatcher d (dp_exec s) (dp_jobs s) tick (dp_sent s).

Lemma run_on_specs_bind {A B} (m : M spec_state A) (k : A → M dispatcher B) s :
  (on_specs m ≫= k) s =
    match m (dp_specs s) with
    | (d, Ok a) => k a (s <| dp_specs := d |>)
    | (d, Err e) => (s <| dp_specs := d |>, Err e)
    end.
Proof. unfold on_specs, zoom. rewrite run_bind. by destruct (m (dp_specs s)) as [d [a|e]]. Qed.

Lemma trigger_activate_advance t i n e b now d :
  spec_state_ok d → spec_advance d (on_triggers (trigger_activate t i n e b now) d).1.
Proof.
  intros Hd.
  pose proof (quiet_triggers_advance (trigger_activate t i n e b now) d (trigger_activate_step _ _ _ _ _ _)
    (trigger_activate_keeps _ _ _ _ _ _) Hd) as H.
  unfold on_triggers, zoom. by destruct (trigger_activate _ _ _ _ _ _ _) as [d' [r|x]].
Qed.

(** Disabling a trigger only adds to the specs. *)
Lemma disable_advance t s :
  dispatcher_ok s → t ∈ sp_revisions (st_triggers (dp_specs s)) →
  ∃ d tick o, disable_one_off clock t s = (with_specs d tick s, o) ∧ spec_advance (dp_specs s) d.
Proof.
  intros Hs Ht. unfold disable_one_off. rewrite run_active_bind by done.
  assert (∃ d tick o, (s, Ok tt) = (with_specs d tick s, o) ∧ spec_advance (dp_specs s) d) as Hsame.
  { exists (dp_specs s), (dp_tick s), (Ok tt). split; [by destruct s|]. apply spec_advance_refl, Hs. }
  destruct (active_trigger _ _ _) as [a|]; [|exact Hsame]. destruct (_ || _); [exact Hsame|].
  destruct (decode_row_same _ _ (proj1 (sk_rows _ (so_triggers _ (do_specs _ Hs)) t Ht))) as (_ & Hv & _).
  change (validate (rv_content t)) with (validate_trigger_write (rv_content t)) in Hv.
  rewrite run_outcome_bind, Hv, run_try_except, run_draw_bind, run_on_specs_bind.
  pose proof (trigger_create_advance (rv_tenant t) (rv_id t) (disabled_write (rv_content t)) (Some (rv_revision t))
    "scheduler" (clock (dp_tick s)) (dp_specs s) (disabled_valid _ Hv) (do_specs _ Hs)) as Ha.
  change (dp_specs (s <| dp_tick := _ |>)) with (dp_specs s).
  destruct (trigger_create _ _ _ _ _ _ (dp_specs s)) as [d1 [r|x]]; simpl in Ha.
  - rewrite run_draw_bind, run_on_specs_bind. cbn [dp_specs dp_tick].
    pose proof (trigger_activate_advance (rv_tenant t) (rv_id t) (rv_revision r) (Some (rv_revision t)) "scheduler"
      (clock (S (dp_tick s))) d1 (sa_ok _ _ Ha)) as Ha2.
    change (on_triggers _ (dp_specs _)) with (on_triggers (trigger_activate (rv_tenant t) (rv_id t) (rv_revision r)
      (Some (rv_revision t)) "scheduler" (clock (S (dp_tick s)))) d1).
    destruct (on_triggers _ d1) as [d2 [y|x]]; simpl in Ha2.
    + exists d2. do 2 eexists. split; [reflexivity|]. by eapply spec_advance_trans.
    + exists d2. destruct x; (do 2 eexists; split; [reflexivity|by eapply spec_advance_trans]).
  - exists d1. destruct x; (do 2 eexists; split; [reflexivity|done]).
Qed.

(** A one-off trigger that is still the latest revision ends disabled. *)
Lemma disable_settles t s :
  dispatcher_ok s → active_trigger (rv_tenant t) (rv_id t) (st_triggers (dp_specs s)) = Some t →
  latest_row (rv_tenant t) (rv_id t) (st_triggers (dp_specs s)) = Some t →
  tw_enabled (rv_content t) = true → digest (disabled_write (rv_content t)) ≠ digest (rv_content t) →
  ∃ s' r, disable_one_off clock t s = (s', Ok tt) ∧
    active_trigger (rv_tenant t) (rv_id t) (st_triggers (dp_specs s')) = Some r ∧
    rv_revision r = rv_revision t + 1 ∧ rv_content r = disabled_write (rv_content t).
Proof.
  intros Hs Hact Hlast Hen Hdig. unfold disable_one_off. rewrite run_active_bind, Hact by done.
  rewrite Z.eqb_refl, Hen. cbn [negb orb].
  pose proof (do_specs _ Hs) as Hso. pose proof (so_triggers _ Hso) as Hd.
  pose proof (active_decoded _ _ _ _ Hd Hact) as Hv.
  apply active_trigger_stored in Hact as (Hin & _ & _ & Hrev).
  rewrite run_outcome_bind, Hv, run_try_except, run_draw_bind, run_on_specs_bind.
  unfold trigger_create. rewrite run_bind, validate_target_run by done. cbn [dp_specs].
  change (dp_specs (s <| dp_tick := _ |>)) with (dp_specs s).
  destruct (so_targets _ Hso t Hin) as (a & Ha & Href & Hten & Hiso).
  change (tw_agent_spec (disabled_write (rv_content t))) with (tw_agent_spec (rv_content t)).
  change (tw_exposure (disabled_write (rv_content t))) with (tw_exposure (rv_content t)).
  rewrite <- Href. cbn [ref_of ar_tenant ar_spec ar_revision].
  rewrite bool_decide_eq_true_2 by done.
  rewrite <- Hten, (revision_at_Some (rv_tenant a) (rv_id a) (rv_revision a) _ a); [|apply Hso|done|by apply at_revision_true].
  rewrite bool_decide_eq_true_2 by done. rewrite Hten. unfold on_triggers at 1, zoom at 1.
  set (d := st_triggers (dp_specs s)) in *. destruct (sk_rows _ Hd t Hin) as [Hdec Hdt].
  set (w := disabled_write (rv_content t)) in *. set (now := clock (dp_tick s)).
  pose proof (create_next (rv_tenant t) (rv_id t) w "scheduler" now d t (disabled_valid _ Hv) Hd Hlast
    ltac:(rewrite Hdt; congruence) eq_refl) as Hc.
  pose proof (create_step (rv_tenant t) (rv_id t) w (Some (rv_revision t)) "scheduler" now (disabled_valid _ Hv) d Hd) as Hst.
  cbv zeta in Hc. rewrite Hc in Hst |- *. set (r := RevisionRow _ _ _ w _ _ _) in *. simpl in Hst.
  rewrite run_draw_bind, run_on_specs_bind. cbn [dp_specs st_triggers].
  set (d1 := add_revision r d) in *. destruct Hst as [Hd1 _].
  assert (revision_at (rv_tenant t) (rv_id t) (rv_revision r) d1 = Some r) as Hat.
  { apply revision_at_Some; [done| |by apply at_revision_true]. apply elem_of_app. right. by apply list_elem_of_singleton. }
  unfold on_triggers, zoom. cbn [st_triggers]. rewrite (trigger_activate_run _ _ _ _ _ _ d1 r) by done.
  pose proof (switch_active_run (rv_tenant t) (rv_id t) (rv_revision r) (Some (rv_revision t)) "scheduler"
    (clock (S (dp_tick s))) d1 Hd1) as Hsw.
  change (active_revision (rv_tenant t) (rv_id t) d1) with (active_revision (rv_tenant t) (rv_id t) d) in Hsw.
  rewrite Hrev in Hsw. rewrite (proj2 (Z.eqb_neq _ _)), bool_decide_eq_true_2 in Hsw by (simpl; lia || done).
  change (dp_tick (s <| dp_tick := _ |> <| dp_specs := _ |>)) with (S (dp_tick s)). rewrite Hsw.
  set (d2 := point_to _ _ _ _ _ d1) in *.
  assert (active_trigger (rv_tenant t) (rv_id t) d2 = Some r) as Hr.
  { unfold active_trigger, d2. by rewrite point_to_reads, !bool_decide_eq_true_2. }
  do 2 eexists. split; [reflexivity|]. by split.
Qed.

(** The trigger a scheduled job fires: the job's revision, active and enabled. *)
Definition due tenant trigger n s : option trigger_spec :=
  t ← active_trigger tenant trigger (st_triggers (dp_specs s));
  if tw_enabled (rv_content t) && (rv_revision t =? n) && negb (is_event (tw_source (rv_content t)))
  then Some t else None.

Lemma due_Some tenant trigger n s t :
  due tenant trigger n s = Some t ↔ active_trigger tenant trigger (st_triggers (dp_specs s)) = Some t ∧
    tw_enabled (rv_content t) = true ∧ rv_revision t = n ∧ is_event (tw_source (rv_content t)) = false.
Proof.
  unfold due. destruct (active_trigger _ _ _) as [t0|]; [|by split; [|intros (? & _)]]. simpl.
  destruct (_ && _) eqn:H; rewrite ?andb_true_iff, ?negb_true_iff, ?Z.eqb_eq in H.
  - split; [intros [= <-]; tauto|by intros [? _]].
  - split; [done|]. intros ([= ->] & H1 & H2 & H3). by rewrite H1, H2, H3, Z.eqb_refl in H.
Qed.

(** A due firing is an execution of the trigger, after which a one-off trigger
    is disabled whatever came of it. *)
Lemma run_scheduled_due tenant trigger n s t :
  dispatcher_ok s → due tenant trigger n s = Some t →
  ∃ key, scheduled_fire_key (tw_source (rv_content t)) (clock (dp_tick s)) = Ok key ∧
    let ran := executes t key (tw_instruction (rv_content t)) "scheduler" (OriginRef "trigger" (rv_id t) None None)
      (s <| dp_tick := S (dp_tick s) |>) in
    (run_scheduled clock uuid agent deliver delivery_lease tenant trigger n s).1 =
      (if is_at (tw_source (rv_content t)) then disable_one_off clock t ran.1 else (ran.1, Ok tt)).1.
Proof.
  intros Hs (Ht & Hen & Hn & Hev)%due_Some. cbv zeta. unfold run_scheduled.
  rewrite run_active_bind, Ht, Hen, Hn, Z.eqb_refl, Hev by done. cbn [negb orb]. unfold finally.
  rewrite run_draw_bind, run_outcome_bind.
  destruct (scheduled_fire_key _ _) as [key|e] eqn:Hkey; [|by destruct (tw_source _)].
  exists key. split; [done|]. rewrite run_bind.
  destruct (executes _ _ _ _ _ _) as [s1 [o|e]]; simpl;
    destruct (is_at _); try done; by destruct (disable_one_off _ _ _) as [s2 [[]|e']].
Qed.

Lemma run_scheduled_idle tenant trigger n s :
  dispatcher_ok s → due tenant trigger n s = None →
  run_scheduled clock uuid agent deliver delivery_lease tenant trigger n s = (s, Ok tt).
Proof.
  intros Hs Hdue. unfold run_scheduled. rewrite run_active_bind by done. unfold due in Hdue.
  destruct (active_trigger _ _ _) as [t|]; [|done]. simpl in Hdue.
  destruct (tw_enabled _), (_ =? _), (is_event _); done.
Qed.

(** ** Histories *)

(** What an agent that outsiders reach may use. *)
Definition confined (a : agent_spec) : Prop :=
  aw_memory_scope (rv_content a) = NoMemory ∧ aw_workspace_scope (rv_content a) = NoWorkspace ∧
  aw_allow_delegation (rv_content a) = false ∧ aw_tool_policy (rv_content a) = Allowlist ∧
  ∀ tool, tool ∈ aw_tools (rv_content a) → tool ∈ external_agent_tools.

(** The request runs the agent pinned by a stored trigger, as that trigger's
    tenant and with the trust of its exposure. *)
Record authorized (t : trigger_spec) (a : agent_spec) (d : spec_state) (r : run_request) : Prop := {
  au_trigger : t ∈ sp_revisions (st_triggers d);
  au_agent : a ∈ sp_revisions (st_agents d);
  au_target : target_of t a;
  au_tenant : rx_tenant (rq_context r) = rv_tenant t;
  au_ref : rx_agent (rq_context r) = ref_of a;
  au_trust : rx_trust (rq_context r) = trust_of (tw_exposure (rv_content t));
  au_confined : tw_exposure (rv_content t) = External →
    confined a ∧ ∃ ty src, tw_source (rv_content t) = EventTrigger ty src AuthRequired;
}.

Lemma authorized_advance t a d d' r : spec_advance d d' → authorized t a d r → authorized t a d' r.
Proof.
  intros [_ [l Hl] [l' Hl']] [H1 H2 H3 H4 H5 H6 H7]. split; [| |done..].
  - rewrite Hl'. apply elem_of_app. by left.
  - rewrite Hl. apply elem_of_app. by left.
Qed.

Lemma execution_authorized t key instruction actor origin s r :
  dispatcher_ok s → t ∈ sp_revisions (st_triggers (dp_specs s)) →
  execution_request t key instruction actor origin (st_agents (dp_specs s)) r →
  ∃ a, authorized t a (dp_specs s) r.
Proof.
  intros Hs Ht [(a & Ha & Hiso & Hctx) _ _]. pose proof (do_specs _ Hs) as Hso. exists a.
  destruct (stored_ref _ _ _ _ _ (so_agents _ Hso) Ha) as (Hin & Href & Hvref).
  destruct (so_targets _ Hso t Ht) as (a' & Ha' & Htarget). destruct Htarget as (Href' & Hten & Hiso').
  assert (a' = a) as ->.
  { apply (revision_unique (rv_tenant a') (rv_id a') (rv_revision a') (st_agents (dp_specs s)));
      [apply Hso|done..|by apply at_revision_true|]. apply at_revision_true.
    apply select_one_Some in Ha as [_ [[-> ->] ->]%at_revision_true]. by rewrite <- Href'. }
  destruct (decode_row_same _ _ (proj1 (sk_rows _ (so_triggers _ Hso) t Ht))) as (_ & Hv & _).
  pose proof (proj1 (decoded_ids _ (proj1 (sk_rows _ (so_triggers _ Hso) t Ht)))) as Hid.
  apply validate_context_fields in Hctx as [(E1 & _ & _ & _ & _ & _ & _ & E8) [_ E10]]. simpl in E1, E8, E10.
  split; [done|done|by split|congruence| |done|].
  - destruct (tw_agent_spec (rv_content t)). simpl in *. congruence.
  - intros Hext. split; [|by apply external_trigger_authenticated].
    destruct (decode_row_same _ _ (proj1 (sk_rows _ (so_agents _ Hso) a Hin))) as (_ & Hva & _).
    apply external_agent_safe; [exact Hva|congruence].
Qed.

Record dispatch_advance s s' : Prop := {
  da_specs : spec_advance (dp_specs s) (dp_specs s');
  da_exec : exec_ok (dp_exec s');
  da_executions : exec_advance (dp_exec s) (dp_exec s');
  da_sent : ∃ l, dp_sent s' = dp_sent s ++ l ∧ ∀ r, r ∈ l → ∃ t a, authorized t a (dp_specs s') r;
}.

Lemma dispatch_advance_ok s s' : dispatch_advance s s' → dispatcher_ok s'.
Proof. intros [H1 H2 _ _]. split; [by apply H1|done]. Qed.

Lemma quiet_advance s s' :
  dispatcher_ok s → spec_advance (dp_specs s) (dp_specs s') → exec_ok (dp_exec s') →
  exec_advance (dp_exec s) (dp_exec s') → dp_sent s' = dp_sent s → dispatch_advance s s'.
Proof. intros Hs H1 H2 H3 H4. split; [done..|]. exists []. rewrite app_nil_r. split; [done|]. intros r Hr. by apply elem_of_nil in Hr. Qed.

Lemma still_advance s s' :
  dispatcher_ok s → dp_specs s' = dp_specs s → dp_exec s' = dp_exec s → dp_sent s' = dp_sent s → dispatch_advance s s'.
Proof.
  intros Hs H1 H2 H3. apply quiet_advance; [done|rewrite H1; apply spec_advance_refl, Hs|rewrite H2; apply Hs|
    rewrite H2; apply exec_advance_refl|done].
Qed.

Lemma dispatch_advance_trans s s' s'' : dispatch_advance s s' → dispatch_advance s' s'' → dispatch_advance s s''.
Proof.
  intros [A1 A2 A3 (l & A4 & A5)] [B1 B2 B3 (l' & B4 & B5)].
  split; [by eapply spec_advance_trans|done|by eapply exec_advance_trans|].
  exists (l ++ l'). split; [by rewrite B4, A4, app_assoc|]. intros r [Hr|Hr]%elem_of_app; [|by apply B5].
  destruct (A5 r Hr) as (t & a & Ha). exists t, a. by eapply authorized_advance.
Qed.

Lemma execute_advance t key instruction actor origin s :
  dispatcher_ok s → t ∈ sp_revisions (st_triggers (dp_specs s)) →
  dispatch_advance s (executes t key instruction actor origin s).1.
Proof.
  intros Hs Ht. destruct (execute_effect t key instruction actor origin s Hs) as [H1 _ H3 H4 H5 _].
  split; [rewrite H1; apply spec_advance_refl, Hs|done|done|].
  destruct H5 as [-> |(r & -> & Hr)]; [exists []; rewrite app_nil_r; split; [done|intros r Hr; by apply elem_of_nil in Hr]|].
  exists [r]. split; [done|]. intros r' ->%list_elem_of_singleton. exists t. rewrite H1. by eapply execution_authorized.
Qed.

(** ** Jobs *)

Definition job_of (t : trigger_spec) (now : Z) : option sched_job :=
  if tw_enabled (rv_content t) then
    source ← aps_trigger (tw_source (rv_content t)) now;
    Some (SchedJob (job_id (rv_tenant t) (rv_id t)) source (rv_tenant t) (rv_id t) (rv_revision t))
  else None.

Definition with_jobs (j : J) (tick : nat) s : dispatcher :=
  Dispatcher (dp_specs s) (dp_exec s) j tick (dp_sent s).

Lemma job_id_inj t i i' : job_id t i = job_id t i' → i = i'.
Proof.
  unfold job_id. intros H. apply (f_equal (removeprefix (job_prefix t))) in H. by rewrite !removeprefix_app in H.
Qed.

Context {JLaws : JobTableLaws J}.

Lemma remove_run t i s :
  ∃ j, remove t i s = (with_jobs j (dp_tick s) s, Ok tt) ∧
    ∀ k, get_job k j = if job_id t i == k then None else get_job k (dp_jobs s).
Proof.
  unfold remove. rewrite run_gets_bind. destruct (get_job (job_id t i) (dp_jobs s)) eqn:Hj.
  - exists (remove_job (job_id t i) (dp_jobs s)). split; [done|]. intros k. apply job_removed.
  - exists (dp_jobs s). split; [by destruct s|]. intros k. case_bool_decide as Hk; [|done]. by rewrite <- Hk.
Qed.

Lemma upsert_job_run t s :
  ∃ j, upsert clock t s = (with_jobs j (S (dp_tick s)) s, Ok tt) ∧
    ∀ k, get_job k j = if job_id (rv_tenant t) (rv_id t) == k then job_of t (clock (dp_tick s)) else get_job k (dp_jobs s).
Proof.
  unfold upsert, job_of. rewrite run_draw_bind.
  destruct (remove_run (rv_tenant t) (rv_id t) (s <| dp_tick := S (dp_tick s) |>)) as (j & Hr & Hj).
  destruct (tw_enabled _); [destruct (aps_trigger _ _) as [source|]|].
  - eexists. split; [reflexivity|]. intros k. apply job_added.
  - exists j. split; [exact Hr|exact Hj].
  - exists j. split; [exact Hr|exact Hj].
Qed.

Lemma upserts_run tenant (l : list trigger_spec) s :
  (∀ t, t ∈ l → rv_tenant t = tenant) → (∀ t t', t ∈ l → t' ∈ l → rv_id t = rv_id t' → t = t') →
  ∃ j tick, for_each l (upsert clock) s = (with_jobs j tick s, Ok tt) ∧ (dp_tick s ≤ tick)%nat ∧
    (∀ k, (∀ t, t ∈ l → job_id tenant (rv_id t) ≠ k) → get_job k j = get_job k (dp_jobs s)) ∧
    ∀ t, t ∈ l → ∃ n, (dp_tick s ≤ n < tick)%nat ∧ get_job (job_id tenant (rv_id t)) j = job_of t (clock n).
Proof.
  revert s. induction l as [|t l IH]; intros s Ht Hu.
  - exists (dp_jobs s), (dp_tick s). split; [by destruct s|]. split; [done|]. split; [done|]. intros t. by intros ?%elem_of_nil.
  - destruct (upsert_job_run t s) as (j1 & Hr1 & Hj1). rewrite (Ht t) in Hj1 by set_solver.
    destruct (IH (with_jobs j1 (S (dp_tick s)) s)) as (j & tick & Hr & Hle & Hk & Hl);
      [intros; apply Ht; set_solver|intros; apply Hu; set_solver|].
    simpl in Hle, Hk, Hl. exists j, tick. cbn [for_each]. rewrite run_bind, Hr1. split; [exact Hr|]. split; [lia|]. split.
    + intros k Hne. rewrite Hk, Hj1; [|intros; apply Hne; set_solver].
      rewrite bool_decide_eq_false_2; [done|]. apply Hne. set_solver.
    + intros t' [-> |Hin]%elem_of_cons; [|destruct (Hl t' Hin) as (n & Hn & Hg); exists n; split; [lia|done]].
      destruct (decide (rv_id t ∈ rv_id <$> l)) as [(t' & Heq & Hin)%list_elem_of_fmap|Hni].
      { assert (t' = t) as -> by (apply Hu; [set_solver..|done]).
        destruct (Hl t Hin) as (n & Hn & Hg). exists n. split; [lia|done]. }
      exists (dp_tick s). split; [lia|]. rewrite Hk, Hj1; [by rewrite bool_decide_eq_true_2|].
      intros t' Hin Heq%job_id_inj. apply Hni. rewrite <- Heq. by apply list_elem_of_fmap_2.
Qed.

(** The jobs of one tenant that no active trigger has. *)
Definition stale (tenant : string) (ids : list string) (k : string) : bool :=
  startswith (job_prefix tenant) k && negb (bool_decide (removeprefix (job_prefix tenant) k ∈ ids)).

Lemma sweep_run tenant ids (jobs : list sched_job) s :
  let sweep := for_each jobs (λ j, if stale tenant ids (jb_id j) then on_jobs (remove_job (jb_id j)) else mret tt) in
  ∃ j, sweep s = (with_jobs j (dp_tick s) s, Ok tt) ∧
    ∀ k, get_job k j = if bool_decide (k ∈ jb_id <$> jobs) && stale tenant ids k then None else get_job k (dp_jobs s).
Proof.
  cbv zeta. revert s. induction jobs as [|x jobs IH]; intros s.
  - exists (dp_jobs s). split; [by destruct s|]. intros k. by rewrite bool_decide_eq_false_2 by (apply not_elem_of_nil).
  - cbn [for_each]. rewrite run_bind. destruct (stale tenant ids (jb_id x)) eqn:Hx.
    + destruct (IH (with_jobs (remove_job (jb_id x) (dp_jobs s)) (dp_tick s) s)) as (j & Hr & Hj).
      exists j. split; [exact Hr|]. intros k. rewrite Hj. simpl. rewrite job_removed.
      destruct (decide (jb_id x = k)) as [<-|Hne].
      * rewrite (bool_decide_eq_true_2 (jb_id x = jb_id x)), (bool_decide_eq_true_2 (_ ∈ _ :: _)) by set_solver.
        rewrite Hx. by case_match.
      * rewrite (bool_decide_eq_false_2 (jb_id x = k)) by done. by rewrite (bool_decide_ext (k ∈ jb_id x :: _) (k ∈ jb_id <$> jobs)) by set_solver.
    + destruct (IH s) as (j & Hr & Hj). exists j. split; [exact Hr|]. intros k. rewrite Hj. simpl.
      destruct (decide (jb_id x = k)) as [<-|Hne]; [by rewrite Hx, !andb_false_r|].
      by rewrite (bool_decide_ext (k ∈ jb_id x :: _) (k ∈ jb_id <$> jobs)) by set_solver.
Qed.

Lemma active_listed tenant (d : trigger_db) : specs_ok d →
  ∃ l, list_active tenant d = (d, Ok l) ∧ ∀ t, t ∈ l ↔ active_trigger tenant (rv_id t) d = Some t.
Proof.
  intros Hd. destruct (list_active_run tenant d Hd) as (l & Hl & _ & Hin). exists l. split; [done|]. intros t. rewrite Hin.
  split.
  - intros (Ht & Hr & Hact). unfold active_trigger. rewrite Hact. simpl.
    apply revision_at_Some; [done..|]. by apply at_revision_true.
  - intros H. destruct (active_trigger_stored _ _ _ _ H) as (Hr & Ht & _ & Hact). done.
Qed.

Lemma run_list_active_bind {A} tenant (l : list trigger_spec) (k : list trigger_spec → M dispatcher A) s :
  list_active tenant (st_triggers (dp_specs s)) = (st_triggers (dp_specs s), Ok l) →
  (on_specs (on_triggers (trigger_list_active tenant)) ≫= k) s = k l s.
Proof.
  intros Hl. rewrite run_on_specs_bind. unfold on_triggers, zoom, trigger_list_active. rewrite Hl.
  by destruct s as [[] ? ? ? ?].
Qed.

(** Syncing a tenant gives it exactly the jobs of its enabled active triggers. *)
Lemma sync_tenant_run tenant s :
  dispatcher_ok s → let d := st_triggers (dp_specs s) in
  ∃ j tick, sync_tenant clock tenant s = (with_jobs j tick s, Ok tt) ∧
    (∀ k, startswith (job_prefix tenant) k = false → get_job k j = get_job k (dp_jobs s)) ∧
    (∀ i, active_trigger tenant i d = None → get_job (job_id tenant i) j = None) ∧
    ∀ i t, active_trigger tenant i d = Some t →
      ∃ n, (dp_tick s ≤ n < tick)%nat ∧ get_job (job_id tenant i) j = job_of t (clock n).
Proof.
  intros Hs. cbv zeta. destruct (active_listed tenant _ (so_triggers _ (do_specs _ Hs))) as (l & Hl & Hin).
  unfold sync_tenant. rewrite run_list_active_bind with (l := l) by done. cbv zeta. rewrite run_gets_bind.
  destruct (sweep_run tenant (rv_id <$> l) (get_jobs (dp_jobs s)) s) as (j1 & Hr1 & Hj1). rewrite run_bind.
  cbv zeta in Hr1. unfold stale at 1 in Hr1. rewrite Hr1.
  destruct (upserts_run tenant l (with_jobs j1 (dp_tick s) s)) as (j & tick & Hr & _ & Hk & Hj).
  { intros t Ht%Hin. by apply active_trigger_stored in Ht as (_ & ? & _). }
  { intros t t' Ht%Hin Ht'%Hin E1. rewrite E1 in Ht. congruence. }
  exists j, tick. split; [exact Hr|]. simpl in Hk, Hj.
  assert (∀ t i, active_trigger tenant i (st_triggers (dp_specs s)) = Some t → t ∈ l ∧ rv_id t = i) as Hact.
  { intros t i Ht. pose proof (active_trigger_stored _ _ _ _ Ht) as (_ & _ & <- & _). by rewrite Hin. }
  split_and!.
  - intros k Hpre. rewrite Hk, Hj1.
    + unfold stale. rewrite Hpre. by rewrite andb_false_r.
    + intros t _ <-. unfold job_id in Hpre. by rewrite startswith_app in Hpre.
  - intros i Hnone. assert (i ∉ rv_id <$> l) as Hni.
    { intros (t & -> & Ht%Hin)%list_elem_of_fmap. congruence. }
    rewrite Hk, Hj1.
    + assert (stale tenant (rv_id <$> l) (job_id tenant i) = true) as ->.
      { unfold stale, job_id. rewrite startswith_app, removeprefix_app. by rewrite bool_decide_eq_false_2. }
      rewrite andb_true_r. case_bool_decide as Hm; [done|]. destruct (get_job _ _) as [x|] eqn:Hx; [|done]. exfalso.
      apply Hm. pose proof (job_named _ _ _ Hx) as Hn. rewrite <- Hn in Hx |- *. apply list_elem_of_fmap_2. by apply job_listed.
    + intros t Ht E1%job_id_inj. apply Hni. rewrite <- E1. by apply list_elem_of_fmap_2.
  - intros i t (Ht & <-)%Hact. by apply Hj.
Qed.

(** ** The service over time *)

(** What happens to a running service: specs are edited, events arrive, jobs
    fire, the outbox is drained, and the scheduler is told of triggers. *)
Inductive dispatch_op :=
  | OpSpecs (op : spec_op)
  | OpEvent (tenant trigger event ty src : string) (auth : bool) (payload : list (string * json))
  | OpScheduled (tenant trigger : string) (revision : Z)
  | OpDrain
  | OpSync (tenant : string)
  | OpUpsert (t : trigger_spec)
  | OpRemove (tenant trigger : string).

Variable check_agent : option (agent_spec → outcome unit).
Variable check_trigger : option (trigger_spec → outcome unit).

Definition run_dispatch_op s (op : dispatch_op) : dispatcher :=
  match op with
  | OpSpecs op => s <| dp_specs := run_spec_op check_agent check_trigger (dp_specs s) op |>
  | OpEvent tenant trigger event ty src auth payload =>
      (dispatch_event clock uuid agent deliver delivery_lease tenant trigger event ty src auth payload s).1
  | OpScheduled tenant trigger revision =>
      (run_scheduled clock uuid agent deliver delivery_lease tenant trigger revision s).1
  | OpDrain => (drain_deliveries clock uuid deliver delivery_lease s).1
  | OpSync tenant => (sync_tenant clock tenant s).1
  | OpUpsert t => (upsert clock t s).1
  | OpRemove tenant trigger => (remove tenant trigger s).1
  end.
Definition run_dispatch (ops : list dispatch_op) s : dispatcher := foldl run_dispatch_op s ops.

Definition new_dispatcher (j : J) : dispatcher := Dispatcher no_spec_state no_executions j 0 [].

Lemma new_dispatcher_ok j : dispatcher_ok (new_dispatcher j).
Proof. split; [apply no_spec_state_ok|apply no_executions_ok]. Qed.

Lemma drain_advance s : dispatcher_ok s → dispatch_advance s (drain_deliveries clock uuid deliver delivery_lease s).1.
Proof.
  intros Hs. destruct (drain_run s Hs) as (d & tick & o & -> & Hd & Ha & _).
  apply quiet_advance; [done|apply spec_advance_refl, Hs|done..].
Qed.

Lemma event_advance tenant trigger event ty src auth payload s :
  dispatcher_ok s → dispatch_advance s
    (dispatch_event clock uuid agent deliver delivery_lease tenant trigger event ty src auth payload s).1.
Proof.
  intros Hs. destruct (dispatch_event_cases tenant trigger event ty src auth payload s Hs)
    as [[-> _]|(t & required & instruction & origin & Ht & _ & _ & _ & ->)]; [by apply still_advance|].
  apply execute_advance; [done|]. by apply active_trigger_stored in Ht as [? _].
Qed.

Lemma scheduled_advance tenant trigger n s :
  dispatcher_ok s → dispatch_advance s (run_scheduled clock uuid agent deliver delivery_lease tenant trigger n s).1.
Proof.
  intros Hs. destruct (due tenant trigger n s) as [t|] eqn:Hdue;
    [|rewrite run_scheduled_idle by done; by apply still_advance].
  destruct (run_scheduled_due tenant trigger n s t Hs Hdue) as (key & _ & ->). apply due_Some in Hdue as (Ht & _).
  apply active_trigger_stored in Ht as [Ht _]. set (s0 := s <| dp_tick := _ |>).
  assert (dispatcher_ok s0) as Hs0 by (split; apply Hs).
  pose proof (execute_advance t key (tw_instruction (rv_content t)) "scheduler"
    (OriginRef "trigger" (rv_id t) None None) s0 Hs0 Ht) as Ha.
  destruct (is_at _); [|by eapply dispatch_advance_trans; [apply (still_advance s s0)|]].
  pose proof (dispatch_advance_ok _ _ Ha) as Hok. destruct (execute_effect t key (tw_instruction (rv_content t))
    "scheduler" (OriginRef "trigger" (rv_id t) None None) s0 Hs0) as [Hspecs _ _ _ _ _].
  set (s1 := (executes _ _ _ _ _ s0).1) in *.
  destruct (disable_advance t s1 Hok) as (d & tick & o & -> & Hd); [by rewrite Hspecs|].
  apply (dispatch_advance_trans _ s0); [by apply still_advance|]. apply (dispatch_advance_trans _ s1); [done|].
  apply quiet_advance; [done|done|apply Hok|apply exec_advance_refl|done].
Qed.

Lemma run_dispatch_op_advance s op : dispatcher_ok s → dispatch_advance s (run_dispatch_op s op).
Proof.
  intros Hs. destruct op; unfold run_dispatch_op.
  - apply quiet_advance; [done|apply run_spec_op_advance, Hs|apply Hs|apply exec_advance_refl|done].
  - by apply event_advance.
  - by apply scheduled_advance.
  - by apply drain_advance.
  - destruct (sync_tenant_run tenant s Hs) as (j & tick & -> & _). by apply still_advance.
  - destruct (upsert_job_run t s) as (j & -> & _). by apply still_advance.
  - destruct (remove_run tenant trigger s) as (j & -> & _). by apply still_advance.
Qed.

Lemma run_dispatch_advance ops s : dispatcher_ok s → dispatch_advance s (run_dispatch ops s).
Proof.
  revert s. induction ops as [|op ops IH]; intros s Hs; [by apply still_advance|].
  pose proof (run_dispatch_op_advance s op Hs) as Ha.
  eapply dispatch_advance_trans; [exact Ha|]. apply IH. by eapply dispatch_advance_ok.
Qed.

Lemma dispatch_reachable ops j : dispatcher_ok (run_dispatch ops (new_dispatcher j)).
Proof. eapply dispatch_advance_ok, run_dispatch_advance, new_dispatcher_ok. Qed.

(** A settled firing is not run again. *)
Lemma execute_settled t key instruction actor origin s :
  dispatcher_ok s → settled_firing t key (dp_exec s) →
  let call := executes t key instruction actor origin s in
  dp_sent call.1 = dp_sent s ∧ ∀ x, call.2 ≠ Ok (Some x).
Proof.
  intros Hs Hset. cbv zeta. unfold execute. destruct (drain_run s Hs) as (d0 & tick0 & o0 & Hdr & Hd0 & Ha0 & _).
  rewrite run_bind, Hdr. destruct o0 as [b|e]; [|done].
  assert (dispatcher_ok (with_exec d0 tick0 s)) as Hs0 by (split; [apply Hs|done]).
  rewrite run_agent_revision_bind by done. destruct (revision_at _ _ _ _) as [spec|] eqn:Hspec; [|done].
  case_bool_decide; [|done]. cbn [negb]. rewrite run_draw_bind, run_on_exec_bind.
  change (dp_exec (with_exec d0 tick0 s <| dp_tick := _ |>)) with d0.
  assert (0 < execution_lease spec) as Hlease.
  { apply (agent_runtime_positive (st_agents (dp_specs s))); [apply Hs|]. by apply select_one_Some in Hspec as [? _]. }
  rewrite claim_execution_run by done. destruct (settled_advance _ _ _ _ Ha0 Hset) as (e & He & Hf & Hst).
  assert (execution_at (firing_of t key) d0 = Some e) as ->.
  { apply execution_at_Some; [done|]. by split. }
  by rewrite bool_decide_eq_false_2.
Qed.

(** ** Properties *)

Abbreviation reachable ops j := (run_dispatch ops (new_dispatcher j)).
Abbreviation dispatches := (dispatch_event clock uuid agent deliver delivery_lease).

(** C33: every request the dispatcher ever sends to the agent service is one the
    specs authorize: whatever is edited, whatever events arrive and whatever
    jobs fire, it runs the exact agent revision pinned by a stored trigger, as
    that trigger's tenant and with the trust of its exposure; and if outsiders
    can reach the trigger, the trigger is an event trigger that requires
    authentication and the agent has no memory, no workspace, no delegation and
    only the published-knowledge tools. *)
Theorem sent_requests_authorized ops j r :
  r ∈ dp_sent (reachable ops j) → ∃ t a, authorized t a (dp_specs (reachable ops j)) r.
Proof.
  destruct (run_dispatch_advance ops (new_dispatcher j) (new_dispatcher_ok j)) as [_ _ _ (l & -> & Hl)]. apply Hl.
Qed.

(** An event reaches the agent service only through the active trigger it
    is addressed to: a call sends nothing, or one request, and then the trigger
    is active and enabled, listens to exactly that type and source, the event
    was authenticated if the trigger requires it, and the request has the
    trigger's pinned agent. An unauthenticated event for a trigger that requires
    authentication is refused with nothing changed. *)
Theorem event_needs_its_trigger ops j tenant trigger event ty src auth payload :
  let s := reachable ops j in
  let call := dispatches tenant trigger event ty src auth payload s in
  let active := active_trigger tenant trigger (st_triggers (dp_specs s)) in
  (dp_sent call.1 = dp_sent s ∨
   ∃ t a required r, dp_sent call.1 = dp_sent s ++ [r] ∧ active = Some t ∧ tw_enabled (rv_content t) = true ∧
     tw_source (rv_content t) = EventTrigger ty src required ∧ (required = AuthRequired → auth = true) ∧
     authorized t a (dp_specs s) r) ∧
  (∀ t, active = Some t → tw_enabled (rv_content t) = true →
     tw_source (rv_content t) = EventTrigger ty src AuthRequired → auth = false →
     call = (s, Err (PermissionError "authenticated trigger event is required"))).
Proof.
  cbv zeta. pose proof (dispatch_reachable ops j) as Hs. set (s := reachable ops j) in *.
  split; [|by intros t Ht Hen Hsrc ->; apply (event_refused _ _ _ _ _ _ t)].
  destruct (dispatch_event_cases tenant trigger event ty src auth payload s Hs)
    as [[-> _]|(t & required & instruction & origin & Ht & Hen & Hsrc & Hauth & ->)]; [by left|].
  destruct (execute_effect t event instruction ("event:" +:+ src) origin s Hs) as [_ _ _ _ [->|(r & -> & Hr)] _]; [by left|].
  right. destruct (execution_authorized _ _ _ _ _ _ _ Hs (proj1 (active_trigger_stored _ _ _ _ Ht)) Hr) as [a Ha].
  by exists t, a, required, r.
Qed.

(** C34: an event is run once per trigger revision: after a call that returned a
    result, and whatever the service does in between, the same event for the
    same revision sends nothing to the agent service and returns no result,
    even with another payload. *)
Theorem event_run_once ops j later tenant trigger event ty src auth payload x t :
  let s := reachable ops j in
  let call := dispatches tenant trigger event ty src auth payload s in
  call.2 = Ok (Some x) → active_trigger tenant trigger (st_triggers (dp_specs s)) = Some t →
  let s' := run_dispatch later call.1 in
  active_trigger tenant trigger (st_triggers (dp_specs s')) = Some t →
  ∀ ty' src' auth' payload', let again := dispatches tenant trigger event ty' src' auth' payload' s' in
  dp_sent again.1 = dp_sent s' ∧ ∀ y, again.2 ≠ Ok (Some y).
Proof.
  cbv zeta. pose proof (dispatch_reachable ops j) as Hs. set (s := reachable ops j) in *.
  intros Hx Ht Ht' ty' src' auth' payload'.
  pose proof (event_advance tenant trigger event ty src auth payload s Hs) as Ha.
  pose proof (dispatch_advance_ok _ _ Ha) as Hs1. pose proof (run_dispatch_advance later _ Hs1) as Ha'.
  pose proof (dispatch_advance_ok _ _ Ha') as Hs'.
  assert (settled_firing t event (dp_exec (run_dispatch later
    (dispatches tenant trigger event ty src auth payload s).1))) as Hset.
  { apply (settled_advance _ _ _ _ (da_executions _ _ Ha')).
    destruct (dispatch_event_cases tenant trigger event ty src auth payload s Hs)
      as [[_ Hno]|(t0 & required & instruction & origin & Ht0 & _ & _ & _ & Hcall)]; [by destruct (Hno x)|].
    rewrite Hcall in Hx |- *. assert (t0 = t) as -> by congruence.
    destruct (execute_effect t event instruction ("event:" +:+ src) origin s Hs) as [_ _ _ _ _ H]. by rewrite Hx in H. }
  destruct (dispatch_event_cases tenant trigger event ty' src' auth' payload' _ Hs')
    as [[-> Hno]|(t0 & required & instruction & origin & Ht0 & _ & _ & _ & ->)]; [done|].
  assert (t0 = t) as -> by congruence. by apply execute_settled.
Qed.

(** A one-off trigger fires once: when its job runs while it is the latest
    revision, the trigger is disabled afterwards, whatever came of the run,
    under a new active revision with its other content, and its job firing
    again does nothing. *)
Theorem one_off_disabled ops j tenant trigger t :
  let s := reachable ops j in
  let d := st_triggers (dp_specs s) in
  active_trigger tenant trigger d = Some t → latest_row tenant trigger d = Some t →
  tw_enabled (rv_content t) = true → is_at (tw_source (rv_content t)) = true →
  digest (disabled_write (rv_content t)) ≠ digest (rv_content t) →
  let fires := run_scheduled clock uuid agent deliver delivery_lease tenant trigger (rv_revision t) in
  let s' := (fires s).1 in
  (∃ r, active_trigger tenant trigger (st_triggers (dp_specs s')) = Some r ∧
     rv_content r = disabled_write (rv_content t)) ∧ fires s' = (s', Ok tt).
Proof.
  cbv zeta. pose proof (dispatch_reachable ops j) as Hs. set (s := reachable ops j) in *.
  intros Ht Hlast Hen Hat Hdig. pose proof (active_trigger_stored _ _ _ _ Ht) as (Hin & Hten & Hid & _). subst tenant trigger.
  destruct (run_scheduled_due (rv_tenant t) (rv_id t) (rv_revision t) s t Hs) as (key & _ & ->).
  { apply due_Some. split_and!; [done..|]. by destruct (tw_source _). }
  rewrite Hat. set (s0 := s <| dp_tick := _ |>). assert (dispatcher_ok s0) as Hs0 by (split; apply Hs).
  pose proof (execute_advance t key (tw_instruction (rv_content t)) "scheduler"
    (OriginRef "trigger" (rv_id t) None None) s0 Hs0 Hin) as Ha.
  destruct (execute_effect t key (tw_instruction (rv_content t)) "scheduler"
    (OriginRef "trigger" (rv_id t) None None) s0 Hs0) as [Hspecs _ _ _ _ _].
  set (s1 := (executes _ _ _ _ _ s0).1) in *. pose proof (dispatch_advance_ok _ _ Ha) as Hs1.
  destruct (disable_settles t s1) as (s2 & r & Hrun & Hr & Hn & Hc); [done|by rewrite Hspecs..|done|done|].
  destruct (disable_advance t s1 Hs1) as (d & tick & o & Hrun' & Hd); [by rewrite Hspecs|].
  rewrite Hrun. simpl. split; [by exists r|]. apply run_scheduled_idle.
  - rewrite Hrun in Hrun'. injection Hrun' as -> _. split; [apply Hd|apply Hs1].
  - unfold due. rewrite Hr. simpl. by rewrite Hc.
Qed.

(** Syncing a tenant always succeeds and gives the scheduler exactly the
    jobs the tenant's triggers call for: a job for each active trigger that is
    enabled and has a time source not yet past, with the revision it fires, and
    no other job under the tenant's prefix; jobs outside the prefix are kept. *)
Theorem sync_exact ops j tenant :
  let s := reachable ops j in
  let d := st_triggers (dp_specs s) in
  let s' := (sync_tenant clock tenant s).1 in
  (sync_tenant clock tenant s).2 = Ok tt ∧
  (∀ k x, get_job k (dp_jobs s') = Some x → startswith (job_prefix tenant) k = true →
     ∃ t now, active_trigger tenant (rv_id t) d = Some t ∧ tw_enabled (rv_content t) = true ∧
       k = job_id tenant (rv_id t) ∧ aps_trigger (tw_source (rv_content t)) now = Some (jb_source x) ∧
       jb_tenant x = tenant ∧ jb_trigger x = rv_id t ∧ jb_revision x = rv_revision t) ∧
  (∀ i t, active_trigger tenant i d = Some t → tw_enabled (rv_content t) = true →
     is_event (tw_source (rv_content t)) = false → is_at (tw_source (rv_content t)) = false →
     ∃ x, get_job (job_id tenant i) (dp_jobs s') = Some x ∧ jb_revision x = rv_revision t) ∧
  (∀ k, startswith (job_prefix tenant) k = false → get_job k (dp_jobs s') = get_job k (dp_jobs s)).
Proof.
  cbv zeta. pose proof (dispatch_reachable ops j) as Hs. set (s := reachable ops j) in *.
  destruct (sync_tenant_run tenant s Hs) as (jobs & tick & -> & Hout & Hnone & Hsome). simpl. split; [done|]. split_and!.
  - intros k x Hx [i ->]%startswith_spec. change (job_prefix tenant +:+ i) with (job_id tenant i) in Hx |- *.
    destruct (active_trigger tenant i (st_triggers (dp_specs s))) as [t|] eqn:Ht; [|rewrite Hnone in Hx by done; done].
    destruct (Hsome i t Ht) as (n & _ & Hj). rewrite Hx in Hj. unfold job_of in Hj.
    apply active_trigger_stored in Ht as Hin. destruct Hin as (_ & Hten & <- & _).
    destruct (tw_enabled _) eqn:Hen; [|done]. destruct (aps_trigger _ _) as [source|] eqn:Hsrc; [|done].
    injection Hj as ->. exists t, (clock n). by split_and!.
  - intros i t Ht Hen Hev Hat. destruct (Hsome i t Ht) as (n & _ & ->). unfold job_of. rewrite Hen.
    destruct (tw_source _); try done; by eexists.
  - exact Hout.
Qed.

(** C37: draining the outbox terminates: however the delivery callback behaves
    (it may fail for ever), the loop ends within one pass per row of the outbox,
    and reports what it left: nothing that could be claimed, or a delivery
    waiting for its retry, unless a delivery was cancelled. No result of a
    firing is lost on the way. *)
Theorem drain_terminates ops j :
  let s := reachable ops j in
  let call := drain_deliveries clock uuid deliver delivery_lease s in
  exec_advance (dp_exec s) (dp_exec call.1) ∧ dp_specs call.1 = dp_specs s ∧ dp_sent call.1 = dp_sent s ∧
  match deliver with
  | None => call.2 = Ok false
  | Some _ =>
      match call.2 with
      | Ok false => ∃ now, ∀ r, r ∈ xd_outbox (dp_exec call.1) → claimable now r = false
      | Ok true => ∃ r, r ∈ xd_outbox (dp_exec call.1) ∧ dl_status r = DlPending
      | Err e => e = CancelledError
      end
  end.
Proof.
  cbv zeta. destruct (drain_run _ (dispatch_reachable ops j)) as (d & tick & o & -> & _ & Ha & Ho).
  split; [done|]. split; [done|]. split; [done|]. simpl. destruct deliver as [send|]; [|done].
  by destruct o as [[]|e].
Qed.

(** The background drain never gives up on a result: a round ends the loop
    only when every result in the outbox has been delivered; otherwise it goes
    on after a positive delay, and the retry delay stays between its base and
    its maximum. *)
Theorem drain_until_delivered ops j retry_base retry_max retry_delay :
  deliver ≠ None → 0 < retry_base → retry_base ≤ retry_delay ≤ retry_max →
  let s := reachable ops j in
  let call := drain_round clock uuid deliver delivery_lease retry_base retry_max retry_delay s in
  match call.2 with
  | Ok None => ∀ r, r ∈ xd_outbox (dp_exec call.1) → dl_status r = DlDelivered
  | Ok (Some (delay, next)) => 0 < delay ∧ retry_base ≤ next ≤ retry_max
  | Err e => e = CancelledError
  end.
Proof.
  intros Hsome Hbase Hdelay. cbv zeta. unfold drain_round.
  destruct (drain_run _ (dispatch_reachable ops j)) as (d & tick & o & Hrun & Hd & _ & Ho).
  rewrite run_bind, Hrun. destruct deliver as [send|]; [|done]. destruct o as [retry|e]; [|done].
  rewrite run_draw_bind, run_on_exec_bind.
  change (dp_exec (with_exec d tick _ <| dp_tick := _ |>)) with d.
  destruct (lease_delay_run (clock (dp_tick (with_exec d tick (reachable ops j)))) d Hd) as (l & -> & Hl). cbv zeta.
  destruct retry; [|destruct l as [l|]]; simpl.
  - split; [|lia]. destruct l as [l|]; simpl; lia.
  - simpl in Hl. lia.
  - intros r Hr. destruct Ho as [now Ho]. specialize (Ho r Hr). specialize (Hl r Hr). unfold claimable in Ho.
    by destruct (dl_status r).
Qed.
End Runs.

(** What makes two firings of a schedule the same: a cron trigger fires
    once per minute, an interval trigger once per window of its length counted
    from the epoch, a one-off trigger once for ever; an event trigger has no
    scheduled firing. *)
Theorem fire_keys_identify source a b :
  0 ≤ a → 0 ≤ b → representable a → representable b →
  let window (size : Z) := ∃ k, k * size ≤ a < (k + 1) * size ∧ k * size ≤ b < (k + 1) * size in
  match source with
  | AtTrigger _ _ => ∃ key, scheduled_fire_key source a = Ok key ∧ scheduled_fire_key source b = Ok key
  | CronTriggerSpec _ _ => scheduled_fire_key source a = scheduled_fire_key source b ↔ window 60000000
  | IntervalTrigger every => 0 < every →
      (scheduled_fire_key source a = scheduled_fire_key source b ↔ window (every * 1000000))
  | EventTrigger _ _ _ => ∀ key, scheduled_fire_key source a ≠ Ok key
  end.
Proof.
  intros Ha Hb Hra Hrb. cbv zeta. assert (∀ x y : string, Ok x = Ok y → x = y) as Hok by congruence.
  destruct source as [run_at zone|expression zone|every|ty src auth]; simpl.
  - by eexists.
  - unfold minute_start. split.
    + intros Heq%Hok%utc_isoformat_inj; [|unfold representable in *; pose proof (Z.mod_pos_bound a 60000000);
        pose proof (Z.mod_pos_bound b 60000000); pose proof (Z.mod_le a 60000000); pose proof (Z.mod_le b 60000000); lia..].
      exists (a / 60000000). pose proof (Z.div_mod a 60000000). pose proof (Z.div_mod b 60000000).
      pose proof (Z.mod_pos_bound a 60000000). pose proof (Z.mod_pos_bound b 60000000). lia.
    + intros (k & H1 & H2). do 2 f_equal.
      rewrite <- (Z.mod_unique a 60000000 k (a - k * 60000000)), <- (Z.mod_unique b 60000000 k (b - k * 60000000)) by lia.
      lia.
  - intros He. rewrite !Z.quot_div_nonneg, !Z.div_div by lia. rewrite (Z.mul_comm 1000000). split.
    + intros Heq%Hok%text_app_inj_l%(inj pretty). exists (a / (every * 1000000)).
      pose proof (Z.mul_div_le a (every * 1000000)). pose proof (Z.mul_succ_div_gt a (every * 1000000)).
      pose proof (Z.mul_div_le b (every * 1000000)). pose proof (Z.mul_succ_div_gt b (every * 1000000)).
      rewrite <- Heq in *. lia.
    + intros (k & H1 & H2). rewrite <- (Z.div_unique a _ k (a - k * (every * 1000000))),
        <- (Z.div_unique b _ k (b - k * (every * 1000000))) by lia. done.
  - done.
Qed.

(** ** Concrete runs *)

#[local] Existing Instance sample_env.
#[local] Existing Instance sample_env_laws.

(** A job table as a map from identifiers. *)
Definition own_job (k : string) (j : sched_job) : bool := jb_id j == k.
#[local] Instance job_map : JobTable (gmap string sched_job) :=
  {| get_jobs m := (List.filter (λ kj, own_job kj.1 kj.2) (map_to_list m)).*2;
     get_job k m := j ← m !! k; if own_job k j then Some j else None;
     add_job j m := <[jb_id j := j]> m;
     remove_job k m := delete k m |}.
#[local] Instance job_map_laws : JobTableLaws (gmap string sched_job).
Proof.
  split; unfold get_job, get_jobs, add_job, remove_job, job_map, own_job.
  - intros m j. rewrite list_elem_of_fmap. split.
    + intros ([k j'] & -> & Hin). apply list_elem_of_In, filter_In in Hin as [Hin%list_elem_of_In Hk].
      simpl in *. apply bool_decide_eq_true in Hk as <-. apply elem_of_map_to_list in Hin as ->. simpl.
      by rewrite bool_decide_eq_true_2.
    + destruct (m !! jb_id j) as [j'|] eqn:Hj; [|done]. simpl. case_bool_decide; [|done]. intros [= ->].
      exists (jb_id j, j). split; [done|]. apply list_elem_of_In, filter_In. split; [|by apply bool_decide_eq_true_2].
      by apply list_elem_of_In, elem_of_map_to_list.
  - intros m i j. destruct (m !! i); [|done]. simpl. case_bool_decide; [|done]. by intros [= <-].
  - intros m j i. case_bool_decide as Hi; [subst i; rewrite lookup_insert_eq|by rewrite lookup_insert_ne]. simpl.
    by rewrite bool_decide_eq_true_2.
  - intros m k i. case_bool_decide as Hi; [subst i; by rewrite lookup_delete_eq|by rewrite lookup_delete_ne].
Qed.

Definition sample_clock (n : nat) : Z := Z.of_nat n * 1000000.
Definition sample_uuid (n : nat) : string := "uuid_" +:+ pretty (N.of_nat n).
Definition sample_service (n : nat) (r : run_request) : outcome (snapshot) :=
  match validate_context (rq_context r) with
  | Some c => Ok (AgentRunSnapshot ("run_" +:+ pretty (N.of_nat n)) c SnapCompleted "Done." "" [] "" "" None)
  | None => Err (ValueError "context")
  end.
Lemma sample_service_valid n r x : sample_service n r = Ok x → snapshot_valid x.
Proof. unfold sample_service. destruct (validate_context _) eqn:H; [|done]. intros [= <-]. by eapply validate_context_Some. Qed.
(** The first delivery fails, the later ones succeed. *)
Definition sample_deliver (n : nat) (t : trigger_spec) (x : snapshot) (m : mode) : outcome unit :=
  if (n <? 12)%nat then Err (RuntimeError "offline") else Ok tt.

Definition sample_reminder : trigger_write :=
  TriggerSpecWrite "Reminder" (AtTrigger (Datetime 0 (Some 0)) "UTC") Private (AgentSpecRef "t" "helper" 1) "Remind me."
    (DeliverySpec ToOwner None) true None None [].
Definition sample_dispatch : list dispatch_op :=
  [OpSpecs (OpAgentSave "t" "owner" sample_intake (Some "intake") None "" 1);
   OpSpecs (OpAgentSave "t" "owner" sample_agent (Some "helper") None "" 2);
   OpSpecs (OpTriggerSave "t" "owner" sample_trigger (Some "inbound") None "" 3);
   OpSpecs (OpTriggerActivate "t" "owner" "inbound" 1 None 4);
   OpSpecs (OpTriggerSave "t" "owner" sample_reminder (Some "reminder") None "" 5);
   OpSpecs (OpTriggerActivate "t" "owner" "reminder" 1 None 6)].
Definition no_jobs : gmap string sched_job := ∅.
Abbreviation runs_on := (run_dispatch sample_clock sample_uuid 60 (Some sample_deliver) sample_service None None).
Abbreviation dispatched ops := (runs_on ops (new_dispatcher no_jobs)).
Abbreviation event_comes payload := (dispatch_event sample_clock sample_uuid sample_service (Some sample_deliver) 60
  "t" "inbound" "evt_1" "message" "telegram" true payload).
Definition sample_event : dispatch_op := OpEvent "t" "inbound" "evt_1" "message" "telegram" true [].

Example event_sent : rq_key <$> dp_sent (dispatched (sample_dispatch ++ [sample_event])) =
  [Some ("trigger:inbound:" +:+ sha256_hex ("t" +:+ nul +:+ "inbound" +:+ nul +:+ "1" +:+ nul +:+ "evt_1"))].
Proof. vm_compute. reflexivity. Qed.
Example scheduled_sent : length (dp_sent (dispatched (sample_dispatch ++
    [OpScheduled "t" "reminder" 1; OpScheduled "t" "reminder" 1; OpSync "t"]))) = 1%nat.
Proof. vm_compute. reflexivity. Qed.
Example sync_example : dp_jobs (dispatched (sample_dispatch ++ [OpSync "t"])) = no_jobs.
Proof. vm_compute. reflexivity. Qed.

Lemma sample_lease : 0 < 60.
Proof. done. Qed.

Example sent_requests_authorized_witness :
  let s := dispatched (sample_dispatch ++ [sample_event]) in
  ∃ r t a, dp_sent s = [r] ∧ authorized t a (dp_specs s) r ∧ rx_trust (rq_context r) = ExternalTrust.
Proof.
  intros s. assert (∃ r, dp_sent s = [r] ∧ rx_trust (rq_context r) = ExternalTrust) as (r & Hr & Ht).
  { eexists. split; vm_compute; reflexivity. }
  destruct (sent_requests_authorized sample_clock sample_uuid 60 (Some sample_deliver) sample_lease sample_service
    sample_service_valid None None (sample_dispatch ++ [sample_event]) no_jobs r) as (t & a & Ha);
    [fold s; rewrite Hr; by apply list_elem_of_singleton|].
  exists r, t, a. split; [exact Hr|]. split; [exact Ha|exact Ht].
Defined.

(** Nobody vouched for the event: it is refused. *)
Example event_needs_its_trigger_witness :
  let s := dispatched sample_dispatch in
  dispatch_event sample_clock sample_uuid sample_service (Some sample_deliver) 60 "t" "inbound" "evt_1" "message" "telegram"
    false [] s = (s, Err (PermissionError "authenticated trigger event is required")).
Proof.
  intros s. destruct (event_needs_its_trigger sample_clock sample_uuid 60 (Some sample_deliver) sample_lease
    sample_service sample_service_valid None None sample_dispatch no_jobs "t" "inbound" "evt_1" "message" "telegram" false [])
    as [_ H].
  assert (∃ t, active_trigger "t" "inbound" (st_triggers (dp_specs s)) = Some t ∧ tw_enabled (rv_content t) = true ∧
    tw_source (rv_content t) = EventTrigger "message" "telegram" AuthRequired) as (t & H1 & H2 & H3).
  { eexists. split; [|split]; vm_compute; reflexivity. }
  exact (H t H1 H2 H3 eq_refl).
Defined.

(** The event comes again after a drain, with another payload. *)
Example event_run_once_witness :
  let s := runs_on [OpDrain] (event_comes [] (dispatched sample_dispatch)).1 in
  dp_sent (event_comes [("text", JStr "again")] s).1 = dp_sent s.
Proof.
  assert (∃ x, (event_comes [] (dispatched sample_dispatch)).2 = Ok (Some x)) as [x Hx].
  { eexists. vm_compute. reflexivity. }
  assert (∃ t, active_trigger "t" "inbound" (st_triggers (dp_specs (dispatched sample_dispatch))) = Some t ∧
    active_trigger "t" "inbound" (st_triggers (dp_specs
      (runs_on [OpDrain] (event_comes [] (dispatched sample_dispatch)).1))) = Some t) as (t & H1 & H2).
  { eexists. split; vm_compute; reflexivity. }
  intros s. exact (proj1 (event_run_once sample_clock sample_uuid 60 (Some sample_deliver) sample_lease sample_service
    sample_service_valid None None sample_dispatch no_jobs [OpDrain] "t" "inbound" "evt_1" "message" "telegram" true [] x
    t Hx H1 H2 "message" "telegram" true [("text", JStr "again")])).
Defined.

Example one_off_disabled_witness :
  let s := dispatched (sample_dispatch ++ [OpScheduled "t" "reminder" 1]) in
  ∃ r, active_trigger "t" "reminder" (st_triggers (dp_specs s)) = Some r ∧ tw_enabled (rv_content r) = false.
Proof.
  set (d := st_triggers (dp_specs (dispatched sample_dispatch))).
  assert (∃ t, active_trigger "t" "reminder" d = Some t ∧ latest_row "t" "reminder" d = Some t ∧
    tw_enabled (rv_content t) = true ∧ is_at (tw_source (rv_content t)) = true ∧
    rv_revision t = 1 ∧ digest (disabled_write (rv_content t)) ≠ digest (rv_content t))
    as (t & H1 & H2 & H3 & H4 & H6 & H5).
  { eexists. do 5 (split; [vm_compute; reflexivity|]). intros H. vm_compute in H. discriminate. }
  destruct (one_off_disabled sample_clock sample_uuid 60 (Some sample_deliver) sample_lease sample_service
    sample_service_valid None None sample_dispatch no_jobs "t" "reminder" t H1 H2 H3 H4 H5) as [(r & Hr & Hc) _].
  rewrite H6 in Hr. exists r. split; [exact Hr|]. rewrite Hc. reflexivity.
Defined.

Example sync_exact_witness :
  (sync_tenant sample_clock "t" (dispatched sample_dispatch)).2 = Ok tt.
Proof.
  exact (proj1 (sync_exact sample_clock sample_uuid 60 (Some sample_deliver) sample_lease sample_service
    sample_service_valid None None sample_dispatch no_jobs "t")).
Defined.

(** The reminder's result is not delivered at once, and stays for a retry. *)
Example drain_terminates_witness :
  let s := dispatched (sample_dispatch ++ [OpScheduled "t" "reminder" 1]) in
  exec_advance (dp_exec s) (dp_exec (drain_deliveries sample_clock sample_uuid (Some sample_deliver) 60 s).1).
Proof.
  exact (proj1 (drain_terminates sample_clock sample_uuid 60 (Some sample_deliver) sample_lease sample_service
    sample_service_valid None None (sample_dispatch ++ [OpScheduled "t" "reminder" 1]) no_jobs)).
Defined.

Example fire_keys_identify_witness :
  scheduled_fire_key (CronTriggerSpec "0 9 * * *" "UTC") 60000000 =
  scheduled_fire_key (CronTriggerSpec "0 9 * * *" "UTC") 119999999.
Proof.
  apply (fire_keys_identify (CronTriggerSpec "0 9 * * *" "UTC") 60000000 119999999); [done..| |];
    [unfold representable; lia..|].
  exists 1. lia.
Defined.

Example drain_until_delivered_witness :
  match (drain_round sample_clock sample_uuid (Some sample_deliver) 60 1000000 60000000 1000000
    (dispatched (sample_dispatch ++ [OpScheduled "t" "reminder" 1]))).2 with
  | Ok (Some (delay, next)) => 0 < delay ∧ 1000000 ≤ next ≤ 60000000
  | _ => False
  end.
Proof.
  pose proof (drain_until_delivered sample_clock sample_uuid 60 (Some sample_deliver) sample_lease sample_service
    sample_service_valid None None (sample_dispatch ++ [OpScheduled "t" "reminder" 1]) no_jobs 1000000 60000000 1000000
    ltac:(discriminate) ltac:(reflexivity) ltac:(split; discriminate)) as H. cbv zeta in H.
  assert (∃ delay next, (drain_round sample_clock sample_uuid (Some sample_deliver) 60 1000000 60000000 1000000
    (dispatched (sample_dispatch ++ [OpScheduled "t" "reminder" 1]))).2 = Ok (Some (delay, next))) as (delay & next & E).
  { do 2 eexists. vm_compute. reflexivity. }
  rewrite E in H |- *. exact H.
Defined.
